(* ===== verification/_CoqProject ===== *)
-Q . S2P
Prelude.v
PyDict.v
PyFloat.v
PyStr.v
PyText.v
Accum.v
Groups.v
LinProg.v
FlowAllocation.v
FlowAllocationProps.v
Routes.v
PathModels.v
PathModelsProps.v
SolverAllocation.v
McfModel.v
TestModel.v
Simulator.v
SimulatorProps.v
Attackers.v
AttackersProps.v
TextRows.v
FlowMirroring.v
FlowMirroringProps.v
TopoMapper.v
TopoMapperProps.v
PortMirroring.v
PortMirroringProps.v
OnosHelpers.v
PortMirroringTrial.v
StatMonitor.v
StatMonitorProps.v
TrialStore.v
TrialStoreProps.v
Codec.v
MpTrial.v
RouteAdder.v
Keeps.v
RouteAdderProps.v
VirtualHost.v
VirtualHostProps.v
PathHoppingTrial.v
PathHoppingTrialProps.v
Json.v
OpenFlow.v
HostMapper.v
StatsProcessor.v
TrafficGen.v
TrafficGenProps.v
AttackerRuns.v
SimExperiment.v
SimExperimentProps.v
SimTrials.v
AttackerTest.v
AttackerTestProps.v
AllocationTrials.v
Orchestrator.v
RemoteHost.v
FileParsing.v
CoreTaps.v
MpRouting.v
MpRoutingProps.v
FlowSimulations.v
FileParsingProps.v
TuitiTrial.v
TuitiTrialProps.v
MininetHost.v
MininetTuiti.v
MininetTuitiProps.v
Figures.v
NetUtil.v
Captures.v
CaptureAttackers.v
PathHoppingPlots.v
TuitiPlots.v
Benchmarks.v
MirroringPlots.v
MpPlots.v
GenerateGraphs.v
Drivers.v
