(* ===== verification/Prelude.v ===== *)
(** A verification of the testbed control software for path hopping, port
    mirroring and multipath routing experiments (rest_client/ and
    traffic_generation/ under src/).

    * The program and its models

    The program plans flows over a network of switches, installs them on a
    testbed through SDN controllers, generates and measures traffic, and
    stores trials and results; a simulator plays the path hopping protocol
    against attackers. The files of the development, by part:

    - Foundations. [Prelude]: exceptions ([exn]), results ([res], code that
      returns or raises), the state and exception monad [M] with [lift],
      loops ([foldM], [foldS], [for_each], [mapR]) and the rules for them,
      the hint database [testbed]. [PyDict]: dictionaries as insertion
      ordered association lists, refined by stdpp's finite maps. [PyFloat]:
      float arithmetic as the class [PyFloat] with the instances [binary64]
      (IEEE double precision) and [exact] (rationals). [PyStr], [PyText],
      [TextRows]: decimal numerals, splitting, ["%f"], lines. [Accum]:
      tables of running totals. [Codec], [Json]: JSON texts and values.
      [Keeps]: invariants that survive exceptions, added resources.
    - Flow allocation (path_hopping/flow_allocation.py). [FlowAllocation],
      [FlowAllocationProps]: flows and the allocations without a solver
      (greedy, equal, random). [LinProg]: the interface of the optimizer.
      [PathModels], [PathModelsProps], [SolverAllocation]: k-paths and path
      hopping models and the admission loops around them. [McfModel]: the
      multi-commodity-flow model. [TestModel]: the experimental variant.
      [Routes]: routes from link shares ([traverse_graph_iterative] and its
      recursive predecessor).
    - Simulation (path_hopping_simulator/simulator.py, attackers.py,
      trials.py, path_hopping_simulator.py). [Simulator], [SimulatorProps]:
      shares, nodes, flows, the tick. [Attackers], [AttackersProps]: the
      attacker classes and the complete step. [AttackerRuns]: the invariant
      of whole runs against a set of attackers. [SimExperiment]: the
      experiment, from the parameters of a trial to what is recorded in it.
      [SimTrials]: the providers of these trials.
    - Trials and results. [TrialStore] (nw_control/trial_provider.py,
      results_repository.py), [MpTrial] (mp_routing/trial.py),
      [FlowMirroring] (trials/flow_mirroring_trial.py), [PortMirroring] and
      [PortMirroringTrial] (trials/port_mirroring_trial.py,
      port_mirroring/trial_provider.py).
    - Network. [TopoMapper] (nw_control/topo_mapper.py), [OnosHelpers]
      (port_mirroring/onos_rest_helpers.py), [RouteAdder]
      (mp_routing/onos_route_adder.py), [OpenFlow]
      (nw_control/of_rest_client.py, flowmod.py, of_processor.py, util.py),
      [HostMapper] (nw_control/host_mapper.py).
    - Measurement. [StatMonitor] (nw_control/stat_monitor.py),
      [StatsProcessor] (mp_routing/stats_processor.py).
    - Hosts and traffic. [VirtualHost] (virtual_hosts/virtual_host.py),
      [TrafficGen] (traffic_generation/traffic_gen.py, traffic_server.py).
    - Hosts reached over ssh. [RemoteHost] (nw_control/host.py).
    - Multipath routing. [FileParsing] (mp_routing/file_parsing.py): the
      route files. [CoreTaps] (traffic_analysis/): the traffic samples.
      [MpRouting] (mp_routing.py, mp_routing/vle_trial.py): the experiment
      on the testbed. [Orchestrator]
      (mp_routing/multipath_orchestrator.py): its OpenFlow predecessor with
      the two threads of its monitor as a step relation.
    - Planned trials. [AllocationTrials] (path_hopping/trials.py),
      [FlowSimulations] (simulations.py, simulations/): sets of flows that
      are allocated, compared and stored.
    - Mininet. [TuitiTrial] (tuiti/tuiti_trial.py), [MininetHost]
      (nw_control/host_rewrite.py), [MininetTuiti] (mininet_tuiti.py): trials
      from the solutions of a solver, hosts, and their driver.
    - The drivers. [PathHoppingTrial] (path_hopping.py) and [AttackerTest]
      (path_hopping_attacker_testing.py, attacker_tests/trials.py,
      nw_control/packet_capture.py) compose virtual hosts, routes, monitor,
      captures, topology and trials. [Drivers]: their main functions and that
      of the simulator, which run the trials of a provider and store it.
    - Evaluation (data_visualization/). A figure is the sequence of the calls
      of matplotlib. [Groups]: grouping, counting and sorting by a key.
      [Figures] (helpers.py, params.py): curves, bars, styles, saving.
      [NetUtil]: utilization over time from the counters. [Captures]
      (security.py) and [CaptureAttackers] (path_hopping_attacker.py): the
      analysis of packet captures and attackers that replay them.
      [PathHoppingPlots] (path_hopping.py, path_hopping_simulations.py),
      [TuitiPlots] (tuiti.py, tuiti_plots.py), [Benchmarks]
      (mininet_benchmarks.py), [MirroringPlots] (port_mirroring.py,
      flow_mirroring.py), [MpPlots] (mp_routing.py, simulations.py): the
      plots. [GenerateGraphs] (generate_graphs.py): the program that reads
      the repositories and draws them.

    The theorems about the definitions of [X] are in the file [X]Props, or at
    the end of [X].

    * What the theorems show

    - Allocation: the greedy admission loop terminates, never exceeds a link
      and accounts for what it reserves; every solution of the optimization
      models splits each flow completely within the capacities, and the
      allocations read off the solutions inherit that; the routes expanded
      from link shares are exactly the loop free ones.
    - Simulation: messages arrive exactly when their longest path has been
      traversed, and an attacker reconstructs exactly the messages all of
      whose paths it sees; an experiment never raises for the trials of the
      providers (one of which cannot be made, and up to one seed) and records
      exactly the messages every share of which was monitored.
    - Storage: what is written is read back (results, providers, the text
      files of the mirroring trials, JSON of the multipath trials), without
      touching anything else; parameters form a map.
    - Network: the graph of the controller is exact, the two checks of flows
      agree, rules and routes are installed with the right tags and ports and
      removed without a trace, also after an exception half way; the switch
      mapping is consistent in both directions.
    - Measurement: mean link utilization telescopes, loss rates and core
      ports are exact, the client of the monitor never loses one.
    - Traffic: the sender respects its rates and tags.
    - The drivers: whatever fails during a path hopping trial or an attacker
      test, the addresses, hosts and routes (and captures) are afterwards
      those that were there before; the multipath experiment leaves no
      routes either, and a mininet trial neither routes nor sessions as long
      as its hosts can be reached.
    - Mininet: the flows of a trial send the volumes that were allocated, and
      background traffic and remaining capacity fill every path.
    - Multipath routing: a directory of route files gives each flow its own
      end points, fractions and rate; the packet counts of the hosts are
      attributed to the flows they belong to; stopping the statistics
      monitor returns under every fair schedule of its threads.
    - The main function of the path hopping experiment: no trace on the
      testbed, and the repository holds the provider with its trials, each
      with everything it was planned with.
    - Evaluation: distribution plots show the empirical distribution; the
      utilization of a link is the change of its counter; the active paths
      are those of the intervals of a capture (but for the last one); an
      attacker on a capture returns and counts the messages of which it holds
      all shares; the most used mirroring port carries the largest load; the
      pre-processing changes each table once per trial that refers to it.
    - Planned trials: the trials of a multiflow test allocate the same flows
      with each method; simulated sets of flows are stored and read back.

    * Conventions

    A function that can raise returns [res]; code with effects runs in
    [M W], where an exception keeps the state reached so far. Code outside
    of src/ is an argument: networkx, numpy and random as section variables,
    the controllers, the operating system, name server and JSON codec as
    type classes ([OnosApi], [NxGraph], [RouteApi], [HostEnv], [RyuApi],
    [DnsApi], [SshEnv], [ScpEnv], [TestEnv]), the optimizer as a function whose results satisfy the model
    it was given. What a theorem assumes of them is a named hypothesis, and
    its witness (the lemma of the same name with the suffix [_witness])
    instantiates them with concrete functions.

    Theorems quantified over [PyFloat] hold of IEEE arithmetic; those about
    [exact] say so and ignore rounding. Python's integers are unbounded,
    hence [Z].

    Fuel: [traverse_graph_iterative] runs [(n+1)^n] rounds for a table of
    [n] entries, and the theorem about it shows that this is enough for
    every table, cyclic ones included; the greedy admission loop takes a
    number of iterations, and [greedy_terminates] shows that
    [10 * |edges| + 1] are enough; [traverse_graph] takes Python's recursion
    limit; [parse_lit] takes the length of the text, and [literal_eval_show]
    shows that this is enough for every printed literal. The simulation and the sender take the number of ticks and the
    readings of the clock.

    * Not modelled

    The rendering of figures is matplotlib's. Functions that can only raise
    because they are called with too few arguments (five of
    data_visualization/flow_mirroring.py, read_results of
    data_visualization/path_hopping.py) have no definition.
    mp_routing/main.py uses classes that do not exist,
    mp_routing/test_driver.py calls the components by hand, topology.py and
    ui_helpers.py draw. The driver port_mirroring.py gives the topology
    mapper a path where it needs a text and raises at once;
    port_mirroring/trials.py lists its trials. Functions of mininet_tuiti.py
    that only print or test, logging, printing and [__str__] methods are
    left out. *)

From Stdlib Require Import Sorting.Permutation Sorting.Sorted.
From stdpp Require Export numbers base tactics strings sorting gmap list.

(** * Exceptions, results and stateful code *)

(** The Python exceptions the sources raise, by class. The message of an
    exception is not modelled. *)
Inductive exn : Type :=
  | ValueError | KeyError | IndexError | TypeError | NameError
  | AttributeError | StopIteration | ZeroDivisionError | OverflowError
  | IOError | NotImplementedError | FileExistsError | FileNotFoundError.

#[export] Instance exn_eq_dec : EqDecision exn.
Proof. solve_decision. Defined.

(** A call returns a value or raises. *)
Inductive res (A : Type) : Type :=
  | Ok (a : A)
  | Raise (e : exn).
Arguments Ok {A} a.
Arguments Raise {A} e.

#[export] Instance res_ret : MRet res := λ A a, Ok a.
#[export] Instance res_bind : MBind res := λ A B f m,
  match m with Ok a => f a | Raise e => Raise e end.
#[export] Instance res_fmap : FMap res := λ A B f m,
  match m with Ok a => Ok (f a) | Raise e => Raise e end.

Definition is_ok {A} (r : res A) : bool :=
  match r with Ok _ => true | Raise _ => false end.

(** [dict[k]], [list[i]], [next(...)]: a missing value is an exception. *)
Definition or_raise {A} (e : exn) (o : option A) : res A :=
  match o with Some a => Ok a | None => Raise e end.

(** Code that mutates an object keeps the mutations made before the
    exception: the state is returned in both cases. *)
Definition M (S A : Type) : Type := S → res A * S.

#[export] Instance M_ret {S} : MRet (M S) := λ A a s, (Ok a, s).
#[export] Instance M_bind {S} : MBind (M S) := λ A B f m s,
  match m s with (Ok a, s') => f a s' | (Raise e, s') => (Raise e, s') end.

Definition lift {S A} (r : res A) : M S A := λ s, (r, s).
Definition get_st {S} : M S S := λ s, (Ok s, s).
Definition gets {S A} (f : S → A) : M S A := λ s, (Ok (f s), s).
Definition modify {S} (f : S → S) : M S unit := λ s, (Ok tt, f s).

(** A method of an object runs on the object and the world. *)
Definition on_world {O W A} (m : M W A) : M (O * W) A := λ s,
  let '(r, w) := m s.2 in (r, (s.1, w)).
Definition set_self {O W} (f : O → O) : M (O * W) unit := modify (λ s, (f s.1, s.2)).

(** [for x in l: body x] *)
Fixpoint for_each {S A} (l : list A) (body : A → M S unit) : M S unit :=
  match l with
  | [] => mret tt
  | x :: l => body x ≫= λ _, for_each l body
  end.

(** A loop whose body updates an accumulator and can raise. *)
Fixpoint foldM {A B} (f : B → A → res B) (b : B) (l : list A) : res B :=
  match l with
  | [] => Ok b
  | x :: l => f b x ≫= λ b', foldM f b' l
  end.

Fixpoint foldS {S A B} (f : B → A → M S B) (b : B) (l : list A) : M S B :=
  match l with
  | [] => mret b
  | x :: l => f b x ≫= λ b', foldS f b' l
  end.

Fixpoint mapR {A B} (f : A → res B) (l : list A) : res (list B) :=
  match l with
  | [] => Ok []
  | x :: l => f x ≫= λ y, mapR f l ≫= λ ys, Ok (y :: ys)
  end.

(** * Tactics and hint databases of the development *)

Create HintDb testbed discriminated.

(** Splits the value of every [match] on a result, option or pair that
    blocks the goal or a hypothesis, and closes the impossible cases. *)
Ltac case_res :=
  repeat (case_match; simplify_eq/=; try done).

(** Inverts a successful bind. *)
Ltac inv_bind H :=
  unfold mbind, res_bind in H; simpl in H;
  repeat (let E := fresh "E" in
          match type of H with
          | context [match ?m with Ok _ => _ | Raise _ => _ end] =>
              destruct m eqn:E; simplify_eq/=
          end).

Lemma bind_Ok {A B} (f : A → res B) (m : res A) b :
  m ≫= f = Ok b ↔ ∃ a, m = Ok a ∧ f a = Ok b.
Proof. destruct m; simpl; naive_solver. Qed.

Lemma or_raise_Ok {A} e (o : option A) a : or_raise e o = Ok a ↔ o = Some a.
Proof. destruct o; naive_solver. Qed.

Lemma mapR_Ok {A B} (f : A → res B) l k :
  mapR f l = Ok k ↔ Forall2 (λ x y, f x = Ok y) l k.
Proof.
  revert k; induction l as [|x l IH]; intros k; simpl.
  - split; [by intros [= <-] | by intros ->%Forall2_nil_inv_l].
  - split.
    + intros (y & Hy & (ys & Hys & [= <-])%bind_Ok)%bind_Ok.
      constructor; [done|]. by apply IH.
    + intros (y & ys & Hy & Hys & ->)%Forall2_cons_inv_l.
      rewrite Hy; simpl. by rewrite (proj2 (IH ys) Hys).
Qed.

Lemma mapR_length {A B} (f : A → res B) l k :
  mapR f l = Ok k → length k = length l.
Proof. intros ?%mapR_Ok. symmetry. by eapply Forall2_length. Qed.

Lemma mapR_all_Ok {A B} (f : A → res B) (g : A → B) l :
  (∀ x, x ∈ l → f x = Ok (g x)) → mapR f l = Ok (g <$> l).
Proof.
  intros Hf. apply mapR_Ok, Forall2_fmap_r, Forall_Forall2_diag, Forall_forall, Hf.
Qed.

Lemma foldM_app {A B} (f : B → A → res B) b l1 l2 :
  foldM f b (l1 ++ l2) = foldM f b l1 ≫= λ b', foldM f b' l2.
Proof.
  revert b; induction l1 as [|x l1 IH]; intros b; simpl; [done|].
  destruct (f b x); simpl; auto.
Qed.

Lemma foldM_ext {A B} (f g : B → A → res B) l :
  (∀ b x, x ∈ l → f b x = g b x) → ∀ b, foldM f b l = foldM g b l.
Proof.
  induction l as [|x l IH]; intros Hfg b; cbn [foldM]; [done|].
  rewrite Hfg by left. destruct (g b x); simpl; [|done]. apply IH. intros; apply Hfg; by right.
Qed.

Lemma foldl_ext_in {A B} (f g : B → A → B) l b :
  (∀ b x, x ∈ l → f b x = g b x) → foldl f b l = foldl g b l.
Proof.
  revert b. induction l as [|x l IH]; intros b Hfg; [done|]. cbn [foldl].
  rewrite Hfg by left. apply IH. intros; apply Hfg; by right.
Qed.

(** A loop none of whose iterations raises is a fold. *)
Lemma foldM_foldl {A B} (f : B → A → res B) (g : B → A → B) l b :
  (∀ b x, x ∈ l → f b x = Ok (g b x)) → foldM f b l = Ok (foldl g b l).
Proof.
  revert b. induction l as [|x l IH]; intros b Hfg; [done|]. cbn [foldM foldl].
  rewrite Hfg by left. simpl. apply IH. intros; apply Hfg; by right.
Qed.

(** Every iteration of a loop that returns has returned. *)
Lemma foldM_step_Ok {A B} (f : B → A → res B) l b b' :
  foldM f b l = Ok b' → ∀ x, x ∈ l → ∃ b1 b2, f b1 x = Ok b2.
Proof.
  revert b; induction l as [|y l IH]; intros b; cbn [foldM]; [set_solver|].
  intros (b1 & Hb1 & Hrest)%bind_Ok x [->|Hin]%elem_of_cons; eauto.
Qed.

(** An invariant kept by every successful iteration holds at the end. *)
Lemma foldM_inv {A B} (P : B → Prop) (f : B → A → res B) l :
  (∀ b x b', x ∈ l → P b → f b x = Ok b' → P b') →
  ∀ b b', P b → foldM f b l = Ok b' → P b'.
Proof.
  induction l as [|x l IH]; simpl; intros Hf b b' HP.
  - by intros [= <-].
  - intros (b1 & Hb1 & Hrest)%bind_Ok. eapply IH; [|..|exact Hrest].
    + intros; eapply Hf; set_solver.
    + eapply Hf; [|done..]. set_solver.
Qed.

Lemma foldM_total {A B} (P : B → Prop) (f : B → A → res B) l :
  (∀ b x, x ∈ l → P b → ∃ b', f b x = Ok b' ∧ P b') →
  ∀ b, P b → ∃ b', foldM f b l = Ok b' ∧ P b'.
Proof.
  induction l as [|x l IH]; simpl; intros Hf b HP; [eauto|].
  destruct (Hf b x) as (b1 & -> & HP1); [set_solver|done|]. simpl.
  apply IH; [|done]. intros; apply Hf; set_solver.
Qed.

(** The rule for a total loop whose invariant speaks of the elements
    already processed. *)
Lemma foldM_prefix {A B} (P : list A → B → Prop) (f : B → A → res B) l :
  (∀ l1 x l2 b, l = l1 ++ x :: l2 → P l1 b → ∃ b', f b x = Ok b' ∧ P (l1 ++ [x]) b') →
  ∀ b, P [] b → ∃ b', foldM f b l = Ok b' ∧ P l b'.
Proof.
  intros Hf. cut (∀ l2 l1 b, l = l1 ++ l2 → P l1 b → ∃ b', foldM f b l2 = Ok b' ∧ P l b');
    [intros Hc b; by apply (Hc l [])|].
  induction l2 as [|x l2 IH]; intros l1 b Hl HP; cbn [foldM].
  - exists b. rewrite Hl, app_nil_r. done.
  - destruct (Hf l1 x l2 b Hl HP) as (b1 & -> & HP1). simpl.
    apply (IH (l1 ++ [x])); [|done]. by rewrite Hl, <-(assoc_L (++)).
Qed.

(** Nested loops are a loop over the concatenation. *)
Lemma foldM_nested {A C D} (g : D → A → res D) (f : D → C → res D) (h : C → list A) l b :
  (∀ b x, f b x = foldM g b (h x)) → foldM f b l = foldM g b (concat (h <$> l)).
Proof.
  intros Hf. revert b. induction l as [|x l IH]; intros b; [done|]. rewrite fmap_cons. cbn [concat foldM].
  rewrite Hf, foldM_app. destruct (foldM g b (h x)); simpl; [apply IH|done].
Qed.

Lemma foldM_fmap {A B C} (g : C → B → res C) (h : A → B) l b :
  foldM g b (h <$> l) = foldM (λ b x, g b (h x)) b l.
Proof. revert b. induction l as [|x l IH]; intros b; [done|]. rewrite fmap_cons. cbn [foldM]. destruct (g b (h x)); simpl; auto. Qed.

Lemma bindS_Ok {S A B} (m : M S A) (f : A → M S B) s b s' :
  (m ≫= f) s = (Ok b, s') ↔ ∃ a s1, m s = (Ok a, s1) ∧ f a s1 = (Ok b, s').
Proof. unfold mbind, M_bind. destruct (m s) as [[a|e] s1]; naive_solver. Qed.

(** Running the first part of a bind. *)
Lemma bindS_raise {S A B} (m : M S A) (f : A → M S B) s e s' :
  m s = (Raise e, s') → (m ≫= f) s = (Raise e, s').
Proof. unfold mbind, M_bind. by intros ->. Qed.

Lemma bindS_run {S A B} (m : M S A) (f : A → M S B) s a s' :
  m s = (Ok a, s') → (m ≫= f) s = f a s'.
Proof. unfold mbind, M_bind. by intros ->. Qed.

Lemma lift_Ok {S A} (r : res A) (s : S) a s' : lift r s = (Ok a, s') ↔ r = Ok a ∧ s' = s.
Proof. unfold lift. naive_solver. Qed.

(** The rule for a loop with an accumulator over a state: the invariant
    speaks of the elements already processed. *)
Lemma foldS_inv {S A B} (P : list A → B → S → Prop) (f : B → A → M S B) l :
  (∀ l1 x l2 b s b' s', l = l1 ++ x :: l2 → P l1 b s → f b x s = (Ok b', s') →
     P (l1 ++ [x]) b' s') →
  ∀ b s b' s', P [] b s → foldS f b l s = (Ok b', s') → P l b' s'.
Proof.
  intros Hf. cut (∀ l2 l1 b s b' s', l = l1 ++ l2 → P l1 b s →
    foldS f b l2 s = (Ok b', s') → P l b' s'); [intros Hc b s b' s'; by apply (Hc l [])|].
  induction l2 as [|x l2 IH]; intros l1 b s b' s' Hl HP; cbn [foldS].
  - intros [= <- <-]. by rewrite Hl, app_nil_r.
  - intros (b1 & s1 & Hb1 & Hrest)%bindS_Ok. eapply (IH (l1 ++ [x])); [|by eapply Hf|exact Hrest].
    by rewrite Hl, <-(assoc_L (++)).
Qed.

(** A loop that always returns: the invariant speaks of the accumulator, for
    every state the loop may be in. *)
Lemma foldS_prefix {S A B} (P : list A → B → Prop) (f : B → A → M S B) l :
  (∀ l1 x l2 b s, l = l1 ++ x :: l2 → P l1 b → ∃ b' s', f b x s = (Ok b', s') ∧ P (l1 ++ [x]) b') →
  ∀ b s, P [] b → ∃ b' s', foldS f b l s = (Ok b', s') ∧ P l b'.
Proof.
  intros Hf. cut (∀ l2 l1 b s, l = l1 ++ l2 → P l1 b → ∃ b' s', foldS f b l2 s = (Ok b', s') ∧ P l b');
    [intros Hc b s; by apply (Hc l [])|].
  induction l2 as [|x l2 IH]; intros l1 b s Hl HP; cbn [foldS].
  - exists b, s. rewrite Hl, app_nil_r. done.
  - destruct (Hf l1 x l2 b s Hl HP) as (b1 & s1 & Hb1 & HP1). rewrite (bindS_run _ _ _ b1 s1) by done.
    apply (IH (l1 ++ [x])); [|done]. by rewrite Hl, <-(assoc_L (++)).
Qed.

(** The same two rules for loops over a mutable state. *)
Lemma for_each_spec {S A} (P : S → Prop) (body : A → M S unit) l :
  (∀ x s, x ∈ l → P s → ∃ s', body x s = (Ok tt, s') ∧ P s') →
  ∀ s, P s → ∃ s', for_each l body s = (Ok tt, s') ∧ P s'.
Proof.
  induction l as [|x l IH]; simpl; intros Hb s HP; [by eexists|].
  destruct (Hb x s) as (s1 & Hs1 & HP1); [set_solver|done|].
  unfold mbind, M_bind. rewrite Hs1. apply IH; [|done].
  intros; apply Hb; set_solver.
Qed.

(** The first element that satisfies a condition. *)
Lemma head_filter_Some {A} (P : A → Prop) `{!∀ x, Decision (P x)} (l : list A) x :
  head (filter P l) = Some x → x ∈ l ∧ P x.
Proof.
  intros Hh. assert (x ∈ filter P l) as Hin by (destruct (filter P l); [done|injection Hh as ->; left]).
  by apply list_elem_of_filter in Hin as [? ?].
Qed.
Lemma head_filter_None {A} (P : A → Prop) `{!∀ x, Decision (P x)} (l : list A) x :
  head (filter P l) = None → x ∈ l → ¬ P x.
Proof.
  intros Hh Hx HP. assert (x ∈ filter P l) as Hin by (by apply list_elem_of_filter). destruct (filter P l); [|done].
  by apply elem_of_nil in Hin.
Qed.
Lemma NoDup_fmap_filter {A B} (g : A → B) (P : A → Prop) `{!∀ x, Decision (P x)} (l : list A) :
  NoDup (g <$> l) → NoDup (g <$> filter P l).
Proof.
  induction l as [|x l IH]; [done|]. rewrite fmap_cons, filter_cons. intros [Hx Hnd]%NoDup_cons. case_decide; [|by apply IH].
  rewrite fmap_cons. apply NoDup_cons. split; [|by apply IH]. intros (y & Hy & [_ Hin]%list_elem_of_filter)%list_elem_of_fmap.
  apply Hx. apply list_elem_of_fmap. eauto.
Qed.
Lemma NoDup_fmap_inj_on {A B} (g : A → B) (l : list A) x y :
  NoDup (g <$> l) → x ∈ l → y ∈ l → g x = g y → x = y.
Proof.
  intros Hnd [i Hi]%list_elem_of_lookup [j Hj]%list_elem_of_lookup Hg.
  assert (i = j) as <-; [|congruence]. eapply NoDup_lookup; [exact Hnd|..]; rewrite list_lookup_fmap.
  - by rewrite Hi.
  - by rewrite Hj, Hg.
Qed.

(** * Python lists *)

(** [zip(l, l[1:])], which is also [networkx.utils.pairwise] on a list. *)
Definition pairwise {A} (l : list A) : list (A * A) := zip l (tail l).

(** [l[1:-1]] and [l[:-1]]. *)
Definition but_last {A} (l : list A) : list A := take (length l - 1) l.
Definition interior {A} (l : list A) : list A := but_last (tail l).

(** [l[i]] for an integer index: a negative index counts from the end. *)
Definition py_index {A} (l : list A) (i : Z) : res A :=
  if bool_decide (0 ≤ i)%Z then or_raise IndexError (l !! Z.to_nat i)
  else if bool_decide (0 ≤ Z.of_nat (length l) + i)%Z
       then or_raise IndexError (l !! Z.to_nat (Z.of_nat (length l) + i)%Z)
       else Raise IndexError.

(** [enumerate(l)] *)
Definition enumerate {A} (l : list A) : list (nat * A) := imap pair l.

(** [x in l] and [l.index(x)], which raises [ValueError]. *)
Definition list_mem {A} `{EqDecision A} (x : A) (l : list A) : bool :=
  bool_decide (x ∈ l).
Fixpoint list_index {A} `{EqDecision A} (x : A) (l : list A) : res nat :=
  match l with
  | [] => Raise ValueError
  | y :: l => if decide (x = y) then Ok 0 else S <$> list_index x l
  end.

(** [l.remove(x)]: the first occurrence, or [ValueError]. *)
Fixpoint list_remove_py {A} `{EqDecision A} (x : A) (l : list A) : res (list A) :=
  match l with
  | [] => Raise ValueError
  | y :: l => if decide (x = y) then Ok l else cons y <$> list_remove_py x l
  end.

(** [set(l)] in first-occurrence order: a Python set is modelled by the
    list of its members without repetition, in one of its iteration
    orders. *)
Definition set_add {A} `{EqDecision A} (x : A) (l : list A) : list A :=
  if decide (x ∈ l) then l else l ++ [x].
Definition set_of {A} `{EqDecision A} (l : list A) : list A :=
  foldl (λ s x, set_add x s) [] l.

(** [sorted(l, key=k)]: Python's sort is stable; insertion sort that
    inserts before the first strictly larger key is a stable sort. *)
Fixpoint sort_insert {A} (k : A → Z) (x : A) (l : list A) : list A :=
  match l with
  | [] => [x]
  | y :: l' => if bool_decide (k x ≤ k y)%Z then x :: l else y :: sort_insert k x l'
  end.
Definition sorted_by {A} (k : A → Z) (l : list A) : list A :=
  foldr (sort_insert k) [] l.

(** [tuple(sorted((u, v)))] *)
Definition sorted_pair (e : Z * Z) : Z * Z :=
  if bool_decide (e.1 ≤ e.2)%Z then e else (e.2, e.1).

(** [itertools.groupby(l, key)]: maximal runs of equal keys. *)
Fixpoint groupby {A} (k : A → Z) (l : list A) : list (Z * list A) :=
  match l with
  | [] => []
  | x :: l => match groupby k l with
              | (j, g) :: r => if decide (k x = j) then (j, x :: g) :: r
                               else (k x, [x]) :: (j, g) :: r
              | [] => [(k x, [x])]
              end
  end.

Section list_lemmas.
Context {A : Type}.
Implicit Types (l : list A) (x y : A).

Lemma pairwise_cons x y l : pairwise (x :: y :: l) = (x, y) :: pairwise (y :: l).
Proof. done. Qed.

Lemma pairwise_snoc l x y : pairwise (l ++ [x; y]) = pairwise (l ++ [x]) ++ [(x, y)].
Proof.
  induction l as [|z [|w l] IH]; [done..|]. simpl app in *.
  rewrite !pairwise_cons, IH. done.
Qed.

Lemma Forall_pairwise_snoc (P : A * A → Prop) l x y :
  Forall P (pairwise l) → last l = Some x → P (x, y) → Forall P (pairwise (l ++ [y])).
Proof.
  intros Hl [k ->]%last_Some Hxy. rewrite <-(assoc_L (++)). simpl.
  rewrite pairwise_snoc. apply Forall_app. split; [done|]. by apply Forall_singleton.
Qed.

Lemma pairwise_length l : length (pairwise l) = length l - 1.
Proof. unfold pairwise. rewrite length_zip. destruct l; simpl tail; simpl length; lia. Qed.

Lemma elem_of_pairwise l x y : (x, y) ∈ pairwise l → x ∈ l ∧ y ∈ l.
Proof.
  unfold pairwise. intros H. split.
  - by apply elem_of_zip_l in H.
  - apply elem_of_zip_r in H. destruct l; set_solver.
Qed.

Lemma exists_elem_cons (P : A → Prop) x l : (∃ y, y ∈ x :: l ∧ P y) ↔ P x ∨ ∃ y, y ∈ l ∧ P y.
Proof. setoid_rewrite elem_of_cons. naive_solver. Qed.

Lemma length_omap_le {B} (f : A → option B) l : length (omap f l) ≤ length l.
Proof.
  induction l as [|x l IH]; [done|]. unfold omap in *. simpl.
  destruct (f x); cbn [length]; lia.
Qed.

Lemma list_filter_iff' (P Q : A → Prop) `{∀ x, Decision (P x)} `{∀ x, Decision (Q x)} l :
  (∀ x, x ∈ l → P x ↔ Q x) → filter P l = filter Q l.
Proof.
  induction l as [|x l IH]; intros HPQ; [done|]. rewrite !filter_cons.
  rewrite IH by (intros; apply HPQ; by right). assert (P x ↔ Q x) by (apply HPQ; left).
  repeat case_decide; tauto.
Qed.

Lemma filter_none (P : A → Prop) `{∀ x, Decision (P x)} l : Forall (λ x, ¬ P x) l → filter P l = [].
Proof. induction 1; [done|]. rewrite filter_cons. by case_decide. Qed.

Lemma filter_all (P : A → Prop) `{∀ x, Decision (P x)} l : Forall P l → filter P l = l.
Proof. induction 1; [done|]. rewrite filter_cons. case_decide; [by f_equal|done]. Qed.

Lemma StronglySorted_impl (R R' : A → A → Prop) l :
  (∀ x y, R x y → R' x y) → StronglySorted R l → StronglySorted R' l.
Proof. intros HR. induction 1; constructor; eauto using Forall_impl. Qed.

Lemma sort_insert_perm (k : A → Z) x l : sort_insert k x l ≡ₚ x :: l.
Proof. induction l as [|y l IH]; simpl; [done|]. case_bool_decide; [done|]. rewrite IH. constructor. Qed.

Lemma sorted_by_perm (k : A → Z) l : sorted_by k l ≡ₚ l.
Proof. induction l as [|x l IH]; simpl; [done|]. by rewrite sort_insert_perm, IH. Qed.

Lemma sort_insert_sorted (k : A → Z) x l :
  StronglySorted (λ a b, k a ≤ k b)%Z l →
  StronglySorted (λ a b, k a ≤ k b)%Z (sort_insert k x l).
Proof.
  induction 1 as [|y l Hl IH Hy]; simpl; [repeat constructor|].
  case_bool_decide as Hle.
  - constructor; [by constructor|]. constructor; [done|].
    eapply Forall_impl; [exact Hy|]. simpl. lia.
  - constructor; [done|]. rewrite sort_insert_perm. constructor; [lia|done].
Qed.

Lemma sorted_by_sorted (k : A → Z) l :
  StronglySorted (λ a b, k a ≤ k b)%Z (sorted_by k l).
Proof. induction l; simpl; [constructor|]. by apply sort_insert_sorted. Qed.

Lemma groupby_concat (k : A → Z) l : concat (snd <$> groupby k l) = l.
Proof.
  induction l as [|x l IH]; simpl; [done|].
  destruct (groupby k l) as [|[j g] r]; simpl in *; [by subst|].
  case_decide; simpl; by rewrite <-IH.
Qed.

Lemma groupby_key (k : A → Z) l j g :
  (j, g) ∈ groupby k l → g ≠ [] ∧ Forall (λ x, k x = j) g.
Proof.
  revert j g; induction l as [|x l IH]; simpl; intros j g; [set_solver|].
  destruct (groupby k l) as [|[j' g'] r].
  - intros [= -> ->]%list_elem_of_singleton. by repeat constructor.
  - case_decide as Hk.
    + intros [[= -> ->]|Hin]%elem_of_cons.
      * destruct (IH j' g') as [_ ?]; [left|]. by repeat constructor.
      * apply IH. by right.
    + intros [[= -> ->]|Hin]%elem_of_cons; [by repeat constructor|]. by apply IH.
Qed.

Lemma groupby_nil_inv (k : A → Z) l : groupby k l = [] → l = [].
Proof. destruct l as [|x l]; simpl; [done|]. by case_match; [|case_match; case_decide]. Qed.

(** On a sorted input the runs are the classes of the key: each key
    occurs once, in increasing order. *)
Lemma groupby_sorted (k : A → Z) l :
  StronglySorted (λ a b, k a ≤ k b)%Z l →
  StronglySorted Z.lt (fst <$> groupby k l).
Proof.
  induction 1 as [|x l Hl IH Hx]; simpl; [constructor|].
  destruct (groupby k l) as [|[j g] r] eqn:E; [repeat constructor|].
  case_decide as Hk; [by rewrite <-Hk in IH |- *|].
  simpl in *. constructor; [done|].
  assert (k x < j)%Z as Hlt.
  { destruct (groupby_key k l j g) as [Hg Hall]; [rewrite E; left|].
    destruct g as [|y g]; [done|]. apply Forall_cons in Hall as [<- _].
    rewrite Forall_forall in Hx. assert (y ∈ l) as Hy.
    { rewrite <-(groupby_concat k l), E. simpl. left. }
    specialize (Hx y Hy). simpl in Hx. lia. }
  constructor; [done|]. apply StronglySorted_inv in IH as [_ Hr].
  eapply Forall_impl; [exact Hr|]. simpl; lia.
Qed.

Lemma fmap_concat {B} (f : A → B) (ls : list (list A)) :
  f <$> concat ls = concat ((λ l : list A, f <$> l) <$> ls).
Proof. induction ls as [|l ls IH]; [done|]. cbn [concat]. by rewrite fmap_app, IH. Qed.

Lemma concat_fmap_singleton {B} (f : A → B) l : concat ((λ x, [f x]) <$> l) = f <$> l.
Proof. induction l as [|x l IH]; [done|]. rewrite !fmap_cons. cbn [concat]. by rewrite IH. Qed.

Lemma enumerate_snoc l x : enumerate (l ++ [x]) = enumerate l ++ [(length l, x)].
Proof. unfold enumerate. rewrite imap_app. simpl. by rewrite Nat.add_0_r. Qed.

Lemma fst_enumerate l : (enumerate l).*1 = seq 0 (length l).
Proof.
  induction l as [|x l IH] using rev_ind; [done|].
  by rewrite enumerate_snoc, fmap_app, IH, length_app, seq_app.
Qed.

Lemma NoDup_seq_nat n k : NoDup (seq n k).
Proof. apply NoDup_ListNoDup, seq_NoDup. Qed.

Lemma lookup_enumerate l i : enumerate l !! i = (λ x, (i, x)) <$> l !! i.
Proof. unfold enumerate. by rewrite list_lookup_imap. Qed.

Lemma enumerate_split l (l1 l2 : list (nat * A)) i x :
  enumerate l = l1 ++ (i, x) :: l2 → i = length l1 ∧ l !! i = Some x.
Proof.
  intros Heq. assert (enumerate l !! length l1 = Some (i, x)) as Hl
    by (rewrite Heq; by apply list_lookup_middle).
  rewrite lookup_enumerate in Hl. destruct (l !! length l1) as [y|] eqn:E; naive_solver.
Qed.

Lemma length_enumerate l : length (enumerate l) = length l.
Proof. apply length_imap. Qed.

Lemma elem_of_enumerate l i x : (i, x) ∈ enumerate l ↔ l !! i = Some x.
Proof.
  rewrite list_elem_of_lookup. setoid_rewrite lookup_enumerate. split.
  - intros (j & Hj). destruct (l !! j) eqn:E; naive_solver.
  - intros Hi. exists i. by rewrite Hi.
Qed.

Lemma Forall_exists_Forall2 {B} (P : A → B → Prop) l :
  Forall (λ x, ∃ y : B, P x y) l → ∃ k, Forall2 P l k.
Proof.
  induction 1 as [|x l [y Hy] _ [k Hk]]; [exists []; constructor|].
  exists (y :: k). by constructor.
Qed.
End list_lemmas.

Lemma py_index_last {A} (l : list A) x : last l = Some x → py_index l (-1) = Ok x.
Proof.
  intros Hl. unfold py_index. rewrite bool_decide_false by lia.
  destruct l as [|y l]; [done|]. rewrite bool_decide_true by (simpl; lia).
  rewrite last_lookup in Hl.
  replace (Z.to_nat (Z.of_nat (length (y :: l)) + -1)) with (pred (length (y :: l))) by (simpl; lia).
  by rewrite Hl.
Qed.

Lemma py_index_nonneg {A} (l : list A) i :
  (0 ≤ i < Z.of_nat (length l))%Z → ∃ x, py_index l i = Ok x ∧ l !! Z.to_nat i = Some x.
Proof.
  intros Hi. unfold py_index. rewrite bool_decide_true by lia.
  destruct (lookup_lt_is_Some_2 l (Z.to_nat i)) as [x Hx]; [lia|]. exists x. by rewrite Hx.
Qed.

Lemma sorted_pair_comm u v : sorted_pair (u, v) = sorted_pair (v, u).
Proof. unfold sorted_pair; simpl. repeat case_bool_decide; f_equal; simpl in *; lia. Qed.

Lemma sorted_pair_idemp e : sorted_pair (sorted_pair e) = sorted_pair e.
Proof. destruct e as [u v]. unfold sorted_pair; simpl. repeat case_bool_decide; simpl in *; f_equal; lia. Qed.

Lemma sorted_pair_cases e : sorted_pair e = e ∨ sorted_pair e = (e.2, e.1).
Proof. unfold sorted_pair. case_bool_decide; auto. Qed.

Section set_lemmas.
Context {A : Type} `{EqDecision A}.
Implicit Types (l : list A) (x y : A).

Lemma elem_of_set_add x y l : x ∈ set_add y l ↔ x = y ∨ x ∈ l.
Proof. unfold set_add. case_decide; set_solver. Qed.

Lemma NoDup_set_add x l : NoDup l → NoDup (set_add x l).
Proof.
  intros. unfold set_add. case_decide; [done|].
  apply NoDup_app. split_and!; [done| |apply NoDup_singleton]. set_solver.
Qed.

Lemma elem_of_foldl_set_add x l s : x ∈ foldl (λ s x, set_add x s) s l ↔ x ∈ s ∨ x ∈ l.
Proof.
  revert s; induction l as [|y l IH]; intros s; simpl; [set_solver|].
  rewrite IH, elem_of_set_add. set_solver.
Qed.

Lemma elem_of_set_of x l : x ∈ set_of l ↔ x ∈ l.
Proof. unfold set_of. rewrite elem_of_foldl_set_add. set_solver. Qed.

Lemma NoDup_foldl_set_add l s : NoDup s → NoDup (foldl (λ s x, set_add x s) s l).
Proof. revert s; induction l; simpl; auto using NoDup_set_add. Qed.

Lemma NoDup_set_of l : NoDup (set_of l).
Proof. apply NoDup_foldl_set_add. constructor. Qed.

Lemma list_index_Ok x l i :
  list_index x l = Ok i ↔ l !! i = Some x ∧ (∀ j, j < i → l !! j ≠ Some x).
Proof.
  revert i; induction l as [|y l IH]; intros i; simpl; [naive_solver|].
  case_decide as Hd; [subst y|].
  - split; [intros [= <-]; split; [done|lia]|].
    intros [Hi Hj]. destruct i; [done|]. destruct (Hj 0); [lia|done].
  - destruct (list_index x l) as [n|e]; simpl.
    + split.
      * intros [= <-]. destruct (proj1 (IH n)) as [H1 H2]; [done|].
        split; [done|]. intros [|j] Hj; simpl; [congruence|apply H2; lia].
      * destruct i as [|i]; simpl; [naive_solver congruence|].
        intros [H1 H2]. assert (Ok n = Ok i) as [= ->]; [|done].
        apply IH. split; [done|]. intros j Hj. apply (H2 (S j)); lia.
    + split; [done|]. destruct i as [|i]; simpl; [naive_solver congruence|].
      intros [H1 H2]. assert (Raise e = Ok i) as ?; [|done].
      apply IH. split; [done|]. intros j Hj. apply (H2 (S j)); lia.
Qed.

Lemma list_index_NoDup x l i : NoDup l → l !! i = Some x → list_index x l = Ok i.
Proof.
  intros Hnd Hi. apply list_index_Ok. split; [done|]. intros j Hj Hx.
  assert (i = j) by (eapply NoDup_lookup; eauto). lia.
Qed.
End set_lemmas.

#[export] Hint Resolve NoDup_set_add NoDup_set_of NoDup_foldl_set_add : testbed.
