(* ===== verification/PyDict.v ===== *)
(** Python dictionaries: association lists in insertion order, because the
    sources iterate over [items()], [keys()] and [values()].

    [Dict.set] keeps the position of an existing key and appends a new one,
    as CPython does since 3.7. [Dict.to_map] forgets the order: it is the
    abstraction function to stdpp's finite maps, and the [to_map_*] lemmas
    show that every operation implements the map operation. *)

From S2P Require Import Prelude.

Abbreviation dict K V := (list (K * V)).

Module Dict.
Section dict.
Context {K V : Type} `{Countable K}.
Implicit Types (d : dict K V) (k : K) (v : V).

(** [d.get(k)] *)
Fixpoint get d k : option V :=
  match d with
  | [] => None
  | (k', v) :: d => if decide (k = k') then Some v else get d k
  end.

(** [d[k]] *)
Definition getitem d k : res V := or_raise KeyError (get d k).

(** [k in d] *)
Definition mem d k : bool := match get d k with Some _ => true | None => false end.

(** [d[k] = v] *)
Fixpoint set d k v : dict K V :=
  match d with
  | [] => [(k, v)]
  | (k', v') :: d => if decide (k = k') then (k', v) :: d else (k', v') :: set d k v
  end.

(** [del d[k]] *)
Fixpoint del d k : dict K V :=
  match d with
  | [] => []
  | (k', v') :: d => if decide (k = k') then d else (k', v') :: del d k
  end.
Definition delitem d k : res (dict K V) := if mem d k then Ok (del d k) else Raise KeyError.

(** [{k: v for k, v in l}] *)
Definition of_pairs (l : list (K * V)) : dict K V :=
  foldl (λ d kv, set d kv.1 kv.2) [] l.

(** [d[k]] on a [defaultdict]: the value the factory makes when the key is
    missing (the caller stores it). *)
Definition get_default (dflt : V) d k : V := default dflt (get d k).

Definition keys d : list K := d.*1.
Definition values d : list V := d.*2.

(** A dictionary has each key once. *)
Definition wf d : Prop := NoDup (keys d).

Definition to_map d : gmap K V := list_to_map d.

Lemma get_set_eq d k v : get (set d k v) k = Some v.
Proof. induction d as [|[k' v'] d IH]; simpl; [by case_decide|]. case_decide; simpl; case_decide; naive_solver. Qed.

Lemma get_set_ne d k k' v : k ≠ k' → get (set d k v) k' = get d k'.
Proof.
  intros Hne. induction d as [|[k1 v1] d IH]; simpl.
  - by case_decide.
  - case_decide; subst; simpl; case_decide; naive_solver.
Qed.

Lemma get_set d k k' v : get (set d k v) k' = if decide (k = k') then Some v else get d k'.
Proof. case_decide; subst; [apply get_set_eq|by apply get_set_ne]. Qed.

Lemma get_default_set (dflt : V) d k k' v :
  get_default dflt (set d k v) k' = if decide (k = k') then v else get_default dflt d k'.
Proof. unfold get_default. rewrite get_set. by case_decide. Qed.

Lemma keys_set_mem d k v : is_Some (get d k) → keys (set d k v) = keys d.
Proof.
  induction d as [|[k1 v1] d IH]; simpl; [by intros [? ?]|].
  case_decide; subst; simpl; [done|]. intros. f_equal. by apply IH.
Qed.

Lemma keys_set_new d k v : get d k = None → keys (set d k v) = keys d ++ [k].
Proof.
  induction d as [|[k1 v1] d IH]; simpl; [done|].
  case_decide; simpl; [done|]. intros. f_equal. by apply IH.
Qed.

Lemma set_new d k v : get d k = None → set d k v = d ++ [(k, v)].
Proof.
  induction d as [|[k1 v1] d IH]; simpl; [done|].
  case_decide; [done|]. intros. f_equal. by apply IH.
Qed.

Lemma elem_of_keys d k : k ∈ keys d ↔ is_Some (get d k).
Proof.
  induction d as [|[k1 v1] d IH]; simpl.
  - split; [set_solver|by intros [? ?]].
  - rewrite elem_of_cons, IH. case_decide; naive_solver.
Qed.

Lemma elem_of_keys_set d k v j : j ∈ keys (set d k v) ↔ j = k ∨ j ∈ keys d.
Proof. rewrite !elem_of_keys, get_set. case_decide as Hd; [subst; naive_solver|naive_solver]. Qed.

Lemma get_None d k : get d k = None ↔ k ∉ keys d.
Proof. rewrite elem_of_keys, eq_None_not_Some. done. Qed.

Lemma get_elem_of d k v : get d k = Some v → (k, v) ∈ d.
Proof.
  induction d as [|[k1 v1] d IH]; simpl; [done|].
  case_decide; intros; simplify_eq; [left|right; auto].
Qed.

Lemma elem_of_get d k v : wf d → (k, v) ∈ d → get d k = Some v.
Proof.
  unfold wf. induction d as [|[k1 v1] d IH]; simpl; [set_solver|].
  intros [Hn Hnd]%NoDup_cons [[= -> ->]|Hin]%elem_of_cons; [by case_decide|].
  case_decide; [subst|by apply IH]. destruct Hn. by apply (list_elem_of_fmap_2 fst) in Hin.
Qed.

Lemma elem_of_set d k v k' v' : (k', v') ∈ set d k v → (k' = k ∧ v' = v) ∨ (k', v') ∈ d.
Proof.
  induction d as [|[k1 v1] d IH]; simpl; [set_solver|].
  case_decide; subst; set_solver.
Qed.

Lemma wf_set d k v : wf d → wf (set d k v).
Proof.
  unfold wf. intros Hd. destruct (get d k) as [w|] eqn:E.
  - by rewrite keys_set_mem by eauto.
  - rewrite keys_set_new by done. apply NoDup_app.
    split_and!; [done| |apply NoDup_singleton].
    intros x Hx ->%list_elem_of_singleton. by apply get_None in E.
Qed.

Lemma wf_of_pairs l : wf (of_pairs l).
Proof.
  unfold of_pairs. assert (wf []) as Hw by constructor. revert Hw.
  generalize (@nil (K * V)). induction l; simpl; auto using wf_set.
Qed.

Lemma keys_del_sub d k k' : k' ∈ keys (del d k) → k' ∈ keys d.
Proof. induction d as [|[k1 v1] d IH]; simpl; [done|]. case_decide; set_solver. Qed.

Lemma wf_del d k : wf d → wf (del d k).
Proof.
  unfold wf. induction d as [|[k1 v1] d IH]; simpl; [done|].
  intros [Hn Hnd]%NoDup_cons. case_decide; [done|].
  apply NoDup_cons. split; [|by apply IH]. by intros ?%keys_del_sub.
Qed.

Lemma get_del_eq d k : wf d → get (del d k) k = None.
Proof.
  unfold wf. induction d as [|[k1 v1] d IH]; simpl; [done|].
  intros [Hn Hnd]%NoDup_cons. case_decide; subst; [by apply get_None|].
  simpl. case_decide; [done|]. by apply IH.
Qed.

Lemma get_del_ne d k k' : k ≠ k' → get (del d k) k' = get d k'.
Proof.
  intros Hne. induction d as [|[k1 v1] d IH]; simpl; [done|].
  case_decide; subst; simpl; case_decide; naive_solver.
Qed.

(** The abstraction function and the operations. *)
Lemma lookup_to_map d k : to_map d !! k = get d k.
Proof.
  unfold to_map. induction d as [|[k1 v1] d IH]; simpl; [apply lookup_empty|].
  case_decide; subst; [by rewrite lookup_insert_eq|by rewrite lookup_insert_ne].
Qed.

Lemma to_map_set d k v : to_map (set d k v) = <[k:=v]> (to_map d).
Proof.
  apply map_eq; intros i. rewrite lookup_to_map, get_set, lookup_insert.
  case_decide; [done|]. by rewrite lookup_to_map.
Qed.

Lemma to_map_del d k : wf d → to_map (del d k) = delete k (to_map d).
Proof.
  intros Hd. apply map_eq; intros i. rewrite lookup_to_map. destruct (decide (k = i)) as [->|].
  - by rewrite get_del_eq, lookup_delete_eq.
  - by rewrite get_del_ne, lookup_delete_ne, lookup_to_map.
Qed.
End dict.

Lemma of_pairs_NoDup {K V} `{Countable K} (l : list (K * V)) : NoDup l.*1 → of_pairs l = l.
Proof.
  unfold of_pairs. cut (∀ d : dict K V, NoDup (d.*1 ++ l.*1) →
    foldl (λ d kv, set d kv.1 kv.2) d l = d ++ l); [intros Hc; apply (Hc [])|].
  induction l as [|[k v] l IH]; simpl; intros d Hnd; [by rewrite app_nil_r|].
  assert (get d k = None) as Hk.
  { apply get_None. apply NoDup_app in Hnd as (_ & Hd & _). intros Hin.
    apply (Hd k Hin). set_solver. }
  rewrite set_new by done. rewrite IH.
  - by rewrite <-(assoc_L (++)).
  - rewrite fmap_app, <-(assoc_L (++)). done.
Qed.

Lemma elem_of_keys_of_pairs {K V} `{Countable K} (l : list (K * V)) k :
  k ∈ keys (of_pairs l) ↔ k ∈ l.*1.
Proof.
  unfold of_pairs. cut (∀ d : dict K V,
    k ∈ keys (foldl (λ d kv, set d kv.1 kv.2) d l) ↔ k ∈ keys d ∨ k ∈ l.*1);
    [intros ->; set_solver|].
  induction l as [|[k' v] l IH]; simpl; intros d; [set_solver|].
  rewrite IH, !elem_of_keys, get_set, elem_of_cons. case_decide; naive_solver.
Qed.

Lemma length_of_pairs {K V} `{Countable K} (l : list (K * V)) : length (of_pairs l) ≤ length l.
Proof.
  unfold of_pairs. cut (∀ d : dict K V,
    length (foldl (λ d kv, set d kv.1 kv.2) d l) ≤ length d + length l); [intros Hc; apply (Hc [])|].
  assert (∀ (d : dict K V) k v, length (set d k v) ≤ S (length d)) as Hset.
  { intros d k v. induction d as [|[k1 v1] d IH]; simpl; [done|]. case_decide; simpl; lia. }
  induction l as [|[k' v] l IH]; simpl; intros d; [lia|]. specialize (Hset d k' v).
  specialize (IH (set d k' v)). lia.
Qed.

Lemma of_pairs_snoc {K V} `{Countable K} (l : list (K * V)) k v :
  of_pairs (l ++ [(k, v)]) = set (of_pairs l) k v.
Proof. unfold of_pairs. by rewrite foldl_app. Qed.

Lemma elem_of_values {K V} `{Countable K} (d : dict K V) v :
  v ∈ values d → ∃ k, (k, v) ∈ d.
Proof. intros ([k w] & -> & Hin)%list_elem_of_fmap. eauto. Qed.

Lemma NoDup_values_set {K V} `{Countable K} (d : dict K V) k v :
  NoDup (values d) → v ∉ values d → NoDup (values (set d k v)).
Proof.
  unfold values. induction d as [|[k' v'] d IH]; simpl; intros Hnd Hv.
  { apply NoDup_singleton. }
  apply NoDup_cons in Hnd as [Hn Hnd]. case_decide; simpl; apply NoDup_cons.
  - split; [set_solver|done].
  - split; [|apply IH; set_solver].
    intros (k1 & Hin)%elem_of_values.
    apply elem_of_set in Hin as [[_ ->]|Hin]; [set_solver|].
    apply Hn. by apply (list_elem_of_fmap_2 snd) in Hin.
Qed.

(** A dictionary built from pairs with distinct values has distinct
    values, all of them from the pairs. *)
Lemma values_of_pairs {K V} `{Countable K} (l : list (K * V)) :
  NoDup l.*2 → NoDup (values (of_pairs l)) ∧ ∀ v, v ∈ values (of_pairs l) → v ∈ l.*2.
Proof.
  induction l as [|[k v] l IH] using rev_ind; [split; [constructor|set_solver]|].
  rewrite of_pairs_snoc, fmap_app. intros (Hl & Hd & _)%NoDup_app.
  destruct (IH Hl) as [Hnd Hsub]. split.
  - apply NoDup_values_set; [done|]. intros Hin%Hsub. apply (Hd v Hin). set_solver.
  - intros w (k1 & [[_ ->]|Hin]%elem_of_set)%elem_of_values; [set_solver|].
    apply elem_of_app. left. apply Hsub. by apply (list_elem_of_fmap_2 snd) in Hin.
Qed.

Lemma get_inj {K V} `{Countable K} (d : dict K V) k1 k2 v :
  NoDup (values d) → get d k1 = Some v → get d k2 = Some v → k1 = k2.
Proof.
  unfold values. induction d as [|[k w] d IH]; simpl; [done|].
  intros [Hn Hnd]%NoDup_cons H1 H2.
  assert (∀ k', get d k' = Some v → v ∈ d.*2) as Hin.
  { intros k' Hk'%get_elem_of. by apply (list_elem_of_fmap_2 snd) in Hk'. }
  repeat case_decide; subst; simplify_eq; try done; [exfalso; eauto..|eauto].
Qed.

Lemma getitem_Ok {K V} `{Countable K} (d : dict K V) k v :
  getitem d k = Ok v ↔ get d k = Some v.
Proof. apply or_raise_Ok. Qed.
End Dict.

#[export] Hint Resolve Dict.wf_set Dict.wf_del Dict.wf_of_pairs : testbed.
