(* ===== verification/PyFloat.v ===== *)
(** Python's [float]. The models are parametric in an arithmetic
    [PyFloat F]; two instances are given.

    [binary64] is IEEE 754 double precision, Python's own arithmetic, as
    the executable specification of the standard library ([SpecFloat],
    53-bit mantissa, exponents below 1024, round to nearest even).
    [exact] is the field of rationals in canonical form: it is what the
    same code computes without rounding.

    A theorem quantified over [PyFloat] holds of the running program; a
    theorem about [exact] states what the formulas of the code compute when
    rounding is ignored. *)

From Stdlib Require Import SpecFloat QArith Qcanon Lqa.
From S2P Require Import Prelude.

Class PyFloat (F : Type) : Type := {
  fadd : F → F → F;
  fsub : F → F → F;
  fmul : F → F → F;
  fquot : F → F → F;
  flt : F → F → bool;
  feq : F → F → bool;
  (** the float nearest to the rational [n / d]: decimal literals and
      [float(n)] on an integer *)
  flit : Z → positive → F
}.

Definition fzero {F} `{PyFloat F} : F := flit 0 1.
Definition fone {F} `{PyFloat F} : F := flit 1 1.
Definition f_of_Z {F} `{PyFloat F} (z : Z) : F := flit z 1.

(** [x / y]: Python raises on a zero divisor. *)
Definition fdiv {F} `{PyFloat F} (x y : F) : res F :=
  if feq y fzero then Raise ZeroDivisionError else Ok (fquot x y).

(** [sum(l)]: a left fold from zero. *)
Definition fsum {F} `{PyFloat F} (l : list F) : F := foldl fadd fzero l.

(** [x <= y] in the order of the instance, without NaN. *)
Definition fle {F} `{PyFloat F} (x y : F) : bool := flt x y || feq x y.

(** What every instance promises of its order; the only facts about
    arithmetic that the rounding-independent theorems use. *)
Class PyFloatOrder (F : Type) `{PyFloat F} : Prop := {
  flt_asym x y : flt x y = true → flt y x = false;
  flt_zero_one : flt fzero fone = true
}.

Lemma flt_irrefl {F} `{PyFloatOrder F} x : flt x x = false.
Proof. destruct (flt x x) eqn:E; [|done]. by rewrite (flt_asym x x E) in E. Qed.

(** ** Double precision *)

Definition b64_of_Z (z : Z) : spec_float :=
  match z with
  | Z0 => S754_zero false
  | Zpos p => S754_finite false p 0
  | Zneg p => S754_finite true p 0
  end.

#[export] Instance binary64 : PyFloat spec_float := {
  fadd := SFadd 53 1024;
  fsub := SFsub 53 1024;
  fmul := SFmul 53 1024;
  fquot := SFdiv 53 1024;
  flt := SFltb;
  feq := SFeqb;
  flit n d := SFdiv 53 1024 (b64_of_Z n) (b64_of_Z (Zpos d))
}.

Lemma SFcompare_antisym x y :
  SFcompare y x = CompOpp <$> SFcompare x y.
Proof.
  assert (∀ a b, Pos.compare_cont Eq a b = Pos.compare a b) as Hcc by done.
  destruct x as [[]|[]| |[] mx ex], y as [[]|[]| |[] my ey]; simpl; try done.
  all: change (Z.compare ey ex) with (ey ?= ex)%Z; change (Z.compare ex ey) with (ex ?= ey)%Z.
  all: rewrite (Z.compare_antisym ex ey); destruct (ex ?= ey)%Z; simpl; try done.
  all: by rewrite ?Hcc, (Pos.compare_antisym mx my).
Qed.

#[export] Instance binary64_order : PyFloatOrder spec_float.
Proof.
  split.
  - simpl. unfold SFltb. intros x y. rewrite (SFcompare_antisym x y).
    by destruct (SFcompare x y) as [[]|].
  - by vm_compute.
Qed.

(** ** Exact arithmetic *)

#[export] Instance exact : PyFloat Qc := {
  fadd := Qcplus;
  fsub := Qcminus;
  fmul := Qcmult;
  fquot := Qcdiv;
  flt x y := bool_decide (x < y)%Qc;
  feq x y := bool_decide (x = y);
  flit n d := Q2Qc (n # d)
}.

#[export] Instance exact_order : PyFloatOrder Qc.
Proof.
  split.
  - simpl. intros x y Hlt%bool_decide_eq_true. apply bool_decide_eq_false. intros Hgt.
    by apply (Qclt_not_le _ _ Hlt), Qclt_le_weak.
  - by vm_compute.
Qed.

(** Linear arithmetic over [Qc]: move to [Q] and call [lra]. *)
Lemma this_add (x y : Qc) : (this (x + y)%Qc == this x + this y)%Q.
Proof. apply Qred_correct. Qed.
Lemma this_sub (x y : Qc) : (this (x - y)%Qc == this x - this y)%Q.
Proof. unfold Qcminus, Qcopp, Qcplus. simpl. by rewrite !Qred_correct. Qed.
Lemma this_opp (x : Qc) : (this (- x)%Qc == - this x)%Q.
Proof. apply Qred_correct. Qed.
Lemma this_mul (x y : Qc) : (this (x * y)%Qc == this x * this y)%Q.
Proof. apply Qred_correct. Qed.
Lemma this_inv (x : Qc) : (this (/ x)%Qc == / this x)%Q.
Proof. apply Qred_correct. Qed.
Lemma this_lit n d : (this (flit (F:=Qc) n d) == n # d)%Q.
Proof. apply Qred_correct. Qed.
Lemma this_eq (x y : Qc) : x = y → (this x == this y)%Q.
Proof. by intros ->. Qed.

Ltac to_Q :=
  unfold fzero, fone, f_of_Z in *;
  repeat match goal with
  | H : @eq Qc _ _ |- _ => apply this_eq in H
  | H : ~ (Qcle _ _) |- _ => apply Qcnot_le_lt in H
  | H : ~ (Qclt _ _) |- _ => apply Qcnot_lt_le in H
  end;
  try apply Qc_is_canon;
  change (@fadd Qc exact) with Qcplus in *; change (@fmul Qc exact) with Qcmult in *;
  change (@fsub Qc exact) with Qcminus in *;
  unfold Qcle, Qclt in *;
  repeat match goal with
  | H : context [this (?x + ?y)%Qc] |- _ => rewrite (this_add x y) in H
  | H : context [this (?x - ?y)%Qc] |- _ => rewrite (this_sub x y) in H
  | H : context [this (?x * ?y)%Qc] |- _ => rewrite (this_mul x y) in H
  | H : context [this (- ?x)%Qc] |- _ => rewrite (this_opp x) in H
  | H : context [this (@flit Qc exact ?n ?d)] |- _ => rewrite (this_lit n d) in H
  | |- context [this (?x + ?y)%Qc] => rewrite (this_add x y)
  | |- context [this (?x - ?y)%Qc] => rewrite (this_sub x y)
  | |- context [this (?x * ?y)%Qc] => rewrite (this_mul x y)
  | |- context [this (- ?x)%Qc] => rewrite (this_opp x)
  | |- context [this (@flit Qc exact ?n ?d)] => rewrite (this_lit n d)
  end.
Ltac qc_lra := to_Q; lra.
Ltac qc_nra := to_Q; nra.

(** Equality of evaluated data that contains rationals: their canonical
    forms agree although the proofs of canonicity differ. *)
Ltac qc_eq :=
  repeat match goal with
  | |- @eq Qc _ _ => apply Qc_is_canon; reflexivity
  | |- _ => progress f_equal
  end.

Lemma flt_exact_true (x y : Qc) : flt x y = true ↔ (x < y)%Qc.
Proof. apply bool_decide_eq_true. Qed.
Lemma flt_exact_false (x y : Qc) : flt x y = false ↔ (y <= x)%Qc.
Proof.
  simpl. rewrite bool_decide_eq_false. split; [apply Qcnot_lt_le|].
  intros Hle Hlt. by apply (Qclt_not_le _ _ Hlt).
Qed.
Lemma feq_exact_true (x y : Qc) : feq x y = true ↔ x = y.
Proof. apply bool_decide_eq_true. Qed.

(** The integer [n] as an exact number. *)
Lemma this_of_Z n : (this (f_of_Z (F:=Qc) n) == inject_Z n)%Q.
Proof. apply this_lit. Qed.

(** Sums over the rationals. *)
Lemma exact_add_0_r (a : Qc) : (a + fzero)%Qc = a.
Proof. qc_lra. Qed.
Lemma exact_add_0_l (a : Qc) : (fzero + a)%Qc = a.
Proof. qc_lra. Qed.

Lemma foldl_fadd_exact (l : list Qc) (a : Qc) : foldl fadd a l = (a + fsum l)%Qc.
Proof.
  unfold fsum. revert a. cut (∀ a b : Qc, foldl fadd (a + b)%Qc l = (a + foldl fadd b l)%Qc).
  { intros Hc a. rewrite <-Hc. by rewrite exact_add_0_r. }
  induction l as [|x l IH]; simpl; intros a b; [done|].
  change (@fadd Qc exact) with Qcplus. rewrite <-IH. f_equal. ring.
Qed.

Lemma fsum_nil : fsum (F:=Qc) [] = fzero.
Proof. done. Qed.
Lemma fsum_cons (x : Qc) l : fsum (x :: l) = (x + fsum l)%Qc.
Proof.
  unfold fsum at 1. simpl. rewrite foldl_fadd_exact. f_equal. apply exact_add_0_l.
Qed.
Lemma fsum_app (l k : list Qc) : fsum (l ++ k) = (fsum l + fsum k)%Qc.
Proof.
  induction l as [|x l IH]; simpl.
  - rewrite fsum_nil. qc_lra.
  - rewrite !fsum_cons, IH. ring.
Qed.
Lemma fsum_concat (ls : list (list Qc)) : fsum (concat ls) = fsum (fsum <$> ls).
Proof. induction ls as [|l ls IH]; [done|]. rewrite fmap_cons. cbn [concat]. by rewrite fsum_app, fsum_cons, IH. Qed.
Lemma fsum_perm (l k : list Qc) : l ≡ₚ k → fsum l = fsum k.
Proof. induction 1; rewrite ?fsum_cons; try congruence; try ring; done. Qed.
Lemma fsum_nonneg (l : list Qc) : Forall (λ x, fzero <= x)%Qc l → (fzero <= fsum l)%Qc.
Proof. induction 1 as [|x l Hx Hl IH]; [rewrite fsum_nil; qc_lra|]. rewrite fsum_cons. qc_lra. Qed.

(** Natural numbers as exact numbers, and division. *)
Definition Qc_of_nat (n : nat) : Qc := f_of_Z (Z.of_nat n).

Lemma Qc_of_nat_S n : Qc_of_nat (S n) = (Qc_of_nat n + fone)%Qc.
Proof.
  unfold Qc_of_nat. apply Qc_is_canon. rewrite this_add, !this_of_Z.
  unfold fone. rewrite this_lit, Nat2Z.inj_succ. unfold Z.succ. rewrite inject_Z_plus.
  change (1 # 1)%Q with (inject_Z 1). reflexivity.
Qed.

Lemma Qc_of_nat_0 : Qc_of_nat 0 = fzero.
Proof. reflexivity. Qed.

Lemma Qc_of_nat_add n m : Qc_of_nat (n + m) = (Qc_of_nat n + Qc_of_nat m)%Qc.
Proof.
  induction n as [|n IH]; simpl.
  - rewrite Qc_of_nat_0. qc_lra.
  - rewrite !Qc_of_nat_S, IH. ring.
Qed.

Lemma Qc_of_nat_mul n m : Qc_of_nat (n * m) = (Qc_of_nat n * Qc_of_nat m)%Qc.
Proof.
  induction n as [|n IH]; simpl.
  - rewrite Qc_of_nat_0. qc_nra.
  - rewrite Qc_of_nat_add, Qc_of_nat_S, IH. qc_nra.
Qed.

Lemma fsum_replicate n (x : Qc) : fsum (replicate n x) = (x * Qc_of_nat n)%Qc.
Proof.
  induction n as [|n IH]; simpl.
  - rewrite Qc_of_nat_0, fsum_nil. qc_nra.
  - rewrite fsum_cons, IH, Qc_of_nat_S. qc_nra.
Qed.

Lemma Qc_of_nat_nonneg n : (fzero <= Qc_of_nat n)%Qc.
Proof.
  induction n as [|n IH]; [rewrite Qc_of_nat_0; qc_lra|]. rewrite Qc_of_nat_S. qc_lra.
Qed.

Lemma Qc_of_nat_le n m : n ≤ m → (Qc_of_nat n <= Qc_of_nat m)%Qc.
Proof.
  intros Hle. replace m with (n + (m - n)) by lia. rewrite Qc_of_nat_add.
  pose proof (Qc_of_nat_nonneg (m - n)). qc_lra.
Qed.

Lemma Qc_of_nat_le_inv n m : (Qc_of_nat n <= Qc_of_nat m)%Qc → n ≤ m.
Proof.
  intros Hle. destruct (decide (n ≤ m)) as [|Hgt]; [done|].
  assert (S m ≤ n) as Hm%Qc_of_nat_le by lia. rewrite Qc_of_nat_S in Hm. qc_lra.
Qed.

Lemma Qc_of_nat_pos n : 0 < n → (fzero < Qc_of_nat n)%Qc.
Proof.
  destruct n as [|n]; [lia|]. intros _. rewrite Qc_of_nat_S.
  pose proof (Qc_of_nat_nonneg n). qc_lra.
Qed.

Lemma fdiv_exact (a b c : Qc) : fdiv a b = Ok c → c = (a / b)%Qc ∧ b ≠ fzero.
Proof.
  unfold fdiv. destruct (feq b fzero) eqn:E; [done|]. intros [= <-].
  split; [done|]. intros Hb. apply (proj2 (feq_exact_true _ _)) in Hb. congruence.
Qed.
