(* ===== verification/PyStr.v ===== *)
(** The string operations the sources use: decimal formatting with [%d],
    [int(...)], membership of a character, [split] and the slices that drop
    the ends. [int_of_str (str_of_Z z) = Ok z], and a name built with [%d]
    splits back into its parts. *)

From Stdlib Require Import DecimalString DecimalZ Ascii.
From S2P Require Import Prelude.

#[local] Arguments String.append !_ _ / : simpl nomatch.

(** ["%d" % z] and [str(z)] for an integer. *)
Definition str_of_Z (z : Z) : string := NilZero.string_of_int (Z.to_int z).

(** [int(s)] for the strings [-?[0-9]+]; Python also accepts white space,
    underscores and a plus sign, which no caller produces. *)
Definition int_of_str (s : string) : res Z :=
  match NilZero.int_of_string s with Some d => Ok (Z.of_int d) | None => Raise ValueError end.

(** [c in s] for a string [c] of one character. *)
Fixpoint str_in (c : ascii) (s : string) : bool :=
  match s with
  | EmptyString => false
  | String a s => Ascii.eqb a c || str_in c s
  end.

(** [s.split(c)] for a separator of one character. *)
Fixpoint str_split (c : ascii) (s : string) : list string :=
  match s with
  | EmptyString => [EmptyString]
  | String a s =>
      if Ascii.eqb a c then EmptyString :: str_split c s
      else match str_split c s with
           | w :: ws => String a w :: ws
           | [] => [String a EmptyString]
           end
  end.

(** [s[n:]] and [s[:-1]]. *)
Fixpoint str_drop (n : nat) (s : string) : string :=
  match n, s with
  | S n, String _ s => str_drop n s
  | _, _ => s
  end.
Fixpoint str_but_last (s : string) : string :=
  match s with
  | EmptyString => EmptyString
  | String a EmptyString => EmptyString
  | String a s => String a (str_but_last s)
  end.

Lemma str_app_nil_r (s : string) : s +:+ EmptyString = s.
Proof. induction s as [|a s IH]; simpl; [done|]. by rewrite IH. Qed.

Lemma str_app_assoc (a b c : string) : (a +:+ b) +:+ c = a +:+ (b +:+ c).
Proof. induction a as [|x a IH]; simpl; [done|]. by rewrite IH. Qed.

Lemma str_in_app c a b : str_in c (a +:+ b) = str_in c a || str_in c b.
Proof. induction a as [|x a IH]; simpl; [done|]. by rewrite IH, orb_assoc. Qed.

Lemma str_but_last_snoc s a : str_but_last (s +:+ String a EmptyString) = s.
Proof.
  induction s as [|b s IH]; [done|]. simpl. rewrite IH.
  destruct s; done.
Qed.

Lemma str_split_none c s : str_in c s = false → str_split c s = [s].
Proof.
  induction s as [|a s IH]; simpl; [done|]. intros [-> Hs]%orb_false_iff. by rewrite IH.
Qed.

Lemma str_split_app c a b :
  str_in c a = false → str_split c (a +:+ String c b) = a :: str_split c b.
Proof.
  induction a as [|x a IH]; simpl; [by rewrite Ascii.eqb_refl|].
  intros [-> Ha]%orb_false_iff. by rewrite IH.
Qed.

(** ** Decimal numbers *)

Lemma int_of_str_of_Z z : int_of_str (str_of_Z z) = Ok z.
Proof.
  unfold int_of_str, str_of_Z. rewrite NilZero.isi, DecimalZ.of_to; [done|..];
    destruct z as [|p|p]; simpl; try done; intros [= Heq];
    by apply (DecimalPos.Unsigned.to_uint_nonnil p).
Qed.

Lemma str_of_Z_inj z1 z2 : str_of_Z z1 = str_of_Z z2 → z1 = z2.
Proof. intros Heq. pose proof (int_of_str_of_Z z1) as H1. rewrite Heq, int_of_str_of_Z in H1. by injection H1. Qed.

Definition not_decimal (c : ascii) : bool :=
  negb (str_in c "-0123456789").

Lemma str_in_uint c d : not_decimal c = true → str_in c (NilEmpty.string_of_uint d) = false.
Proof.
  intros Hc. unfold not_decimal in Hc. apply negb_true_iff in Hc. cbn [str_in] in Hc.
  rewrite !orb_false_iff in Hc. induction d; simpl; [done|..]; apply orb_false_iff; tauto.
Qed.

Lemma str_in_str_of_Z c z : not_decimal c = true → str_in c (str_of_Z z) = false.
Proof.
  intros Hc. unfold str_of_Z. pose proof Hc as Hm. unfold not_decimal in Hm.
  apply negb_true_iff in Hm. cbn [str_in] in Hm. rewrite !orb_false_iff in Hm.
  assert (∀ d, str_in c (NilZero.string_of_uint d) = false) as Hu.
  { intros d. unfold NilZero.string_of_uint. destruct d; try by apply str_in_uint.
    simpl. apply orb_false_iff. tauto. }
  destruct (Z.to_int z); simpl; [apply Hu|]. apply orb_false_iff. split; [tauto|apply Hu].
Qed.
