(* ===== verification/PyText.v ===== *)
(** The text forms the trial files use: [str.splitlines], ["%f"] and
    [float(s)], joined and split rows of decimal numbers.

    ["%f" % x] rounds the exact value of [x] to six decimals (half to even)
    and [float(s)] rounds the decimal number [s] to the nearest float, so
    reading back a printed float gives [reread x]; it is [x] itself exactly
    for the values that are whole millionths. *)

From Stdlib Require Import SpecFloat QArith Qcanon Ascii DecimalString DecimalZ.
From S2P Require Import Prelude PyStr PyFloat.

#[local] Arguments String.append !_ _ / : simpl nomatch.
Close Scope Qc_scope.
Close Scope Q_scope.
Open Scope list_scope.

(** * Characters and lines *)

Definition ch (n : N) : ascii := ascii_of_N n.
Definition newline : ascii := ch 10.
Definition space : ascii := ch 32.
Definition dot : ascii := ch 46.

Definition str1 (c : ascii) : string := String c EmptyString.

(** The line boundaries of [str.splitlines] among the ASCII characters. *)
Definition line_break (c : ascii) : bool :=
  match N_of_ascii c with
  | 10%N | 11%N | 12%N | 13%N | 28%N | 29%N | 30%N => true
  | _ => false
  end.

Fixpoint splitlines (s : string) : list string :=
  match s with
  | EmptyString => []
  | String a s1 =>
      if line_break a then
        match s1 with
        | String b s2 =>
            if Ascii.eqb a (ch 13) && Ascii.eqb b newline then EmptyString :: splitlines s2
            else EmptyString :: splitlines s1
        | EmptyString => [EmptyString]
        end
      else
        match splitlines s1 with
        | w :: ws => String a w :: ws
        | [] => [str1 a]
        end
  end.

(** No line boundary, respectively no blank, in a string. *)
Fixpoint str_all (p : ascii → bool) (s : string) : bool :=
  match s with
  | EmptyString => true
  | String a s => p a && str_all p s
  end.
Definition plain (c : ascii) : bool := negb (line_break c) && negb (Ascii.eqb c space).
Definition one_line (s : string) : bool := str_all (λ c, negb (line_break c)) s.
Definition word (s : string) : bool := str_all plain s.

Lemma str_all_app p a b : str_all p (a +:+ b) = str_all p a && str_all p b.
Proof. induction a as [|x a IH]; simpl; [done|]. by rewrite IH, andb_assoc. Qed.

Lemma str_all_impl (p q : ascii → bool) s :
  (∀ c, p c = true → q c = true) → str_all p s = true → str_all q s = true.
Proof.
  intros Hpq. induction s as [|a s IH]; simpl; [done|].
  intros [Ha Hs]%andb_true_iff. by rewrite (Hpq a Ha), IH.
Qed.

Lemma word_one_line s : word s = true → one_line s = true.
Proof. apply str_all_impl. by intros c [? _]%andb_true_iff. Qed.

Lemma word_no_space s : word s = true → str_in space s = false.
Proof.
  induction s as [|a s IH]; simpl; [done|]. intros [Ha Hs]%andb_true_iff.
  apply orb_false_iff. split; [|by apply IH].
  apply andb_true_iff in Ha as [_ Ha]. by destruct (Ascii.eqb a space).
Qed.

Lemma splitlines_line l rest :
  one_line l = true → splitlines (l +:+ String newline rest) = l :: splitlines rest.
Proof.
  induction l as [|a l IH]; intros Hl; [destruct rest; done|].
  cbn [one_line str_all] in Hl. apply andb_true_iff in Hl as [Ha Hl].
  cbn [String.append splitlines]. apply negb_true_iff in Ha as ->. by rewrite (IH Hl).
Qed.

Lemma splitlines_last l : one_line l = true → l ≠ EmptyString → splitlines l = [l].
Proof.
  induction l as [|a l IH]; intros Hl Hne; [done|].
  cbn [one_line str_all] in Hl. apply andb_true_iff in Hl as [Ha Hl].
  cbn [splitlines]. apply negb_true_iff in Ha as ->.
  destruct l as [|b l]; [done|]. by rewrite (IH Hl).
Qed.

(** A text of lines, each with its newline. *)
Definition unlines (ls : list string) : string :=
  foldr (λ l s, l +:+ String newline s) EmptyString ls.

Lemma splitlines_unlines ls rest :
  Forall (λ l, one_line l = true) ls → splitlines (unlines ls +:+ rest) = ls ++ splitlines rest.
Proof.
  induction 1 as [|l ls Hl Hls IH]; [done|]. cbn [unlines foldr].
  rewrite str_app_assoc. cbn [String.append]. rewrite (splitlines_line _ _ Hl).
  fold (unlines ls). by rewrite IH.
Qed.

Lemma unlines_app a b : unlines (a ++ b) = unlines a +:+ unlines b.
Proof.
  induction a as [|l a IH]; [done|]. simpl. rewrite str_app_assoc. simpl.
  fold (unlines (a ++ b)). by rewrite IH.
Qed.

(** [s += line(x)] over a list. *)
Lemma foldl_append {A} (f : A → string) l s :
  foldl (λ s x, s +:+ (f x +:+ str1 newline)) s l = s +:+ unlines (f <$> l).
Proof.
  revert s. induction l as [|x l IH]; intros s; simpl; [by rewrite str_app_nil_r|].
  rewrite IH. rewrite !str_app_assoc. done.
Qed.

(** * Rows of numbers separated by single blanks *)

Fixpoint join_words (ws : list string) : string :=
  match ws with
  | [] => EmptyString
  | [w] => w
  | w :: ws => w +:+ String space (join_words ws)
  end.

Lemma join_words_cons w ws :
  ws ≠ [] → join_words (w :: ws) = w +:+ String space (join_words ws).
Proof. by destruct ws. Qed.

Lemma split_join_words ws :
  ws ≠ [] → Forall (λ w, word w = true) ws → str_split space (join_words ws) = ws.
Proof.
  induction ws as [|w ws IH]; [done|]. intros _ [Hw Hws]%Forall_cons.
  destruct ws as [|w' ws]; [by apply str_split_none, word_no_space|].
  rewrite join_words_cons, str_split_app by (done || by apply word_no_space). by rewrite IH.
Qed.

Lemma one_line_join ws : Forall (λ w, word w = true) ws → one_line (join_words ws) = true.
Proof.
  induction ws as [|w ws IH]; [done|]. intros [Hw Hws]%Forall_cons.
  destruct ws as [|w' ws]; [by apply word_one_line|].
  rewrite join_words_cons by done. unfold one_line. rewrite str_all_app. cbn [str_all].
  apply word_one_line in Hw. unfold one_line in Hw. rewrite Hw. simpl. by apply IH.
Qed.

Lemma word_str_of_Z z : word (str_of_Z z) = true.
Proof.
  unfold word. cut (∀ s, (∀ c, not_decimal c = true → str_in c s = false) → str_all plain s = true).
  { intros Hc. apply Hc. intros c Hc'. by apply str_in_str_of_Z. }
  induction s as [|a s IH]; intros Hs; [done|]. simpl. apply andb_true_iff. split.
  - destruct (plain a) eqn:Hp; [done|]. exfalso.
    assert (not_decimal a = true) as Hn.
    { revert Hp. destruct a as [[] [] [] [] [] [] [] []]; by vm_compute. }
    specialize (Hs a Hn). simpl in Hs. by rewrite Ascii.eqb_refl in Hs.
  - apply IH. intros c Hc. specialize (Hs c Hc). simpl in Hs. by apply orb_false_iff in Hs as [_ ?].
Qed.

Lemma str_of_Z_ne z : str_of_Z z ≠ EmptyString.
Proof.
  intros Heq. pose proof (int_of_str_of_Z z) as Hz. rewrite Heq in Hz. by vm_compute in Hz.
Qed.

Lemma mapR_int_of_str l : mapR int_of_str (str_of_Z <$> l) = Ok l.
Proof.
  induction l as [|z l IH]; [done|]. rewrite fmap_cons. cbn [mapR].
  rewrite int_of_str_of_Z. simpl. by rewrite IH.
Qed.

(** * Floats *)

(** The value of a float: not a number, an infinity, or the rational
    [num / den] with its sign. *)
Inductive fvalue : Type :=
  | FNan
  | FInf (neg : bool)
  | FFin (neg : bool) (num : Z) (den : positive).

Class PyFloatText (F : Type) `{PyFloat F} : Type := {
  classify : F → fvalue;
  fneg : F → F;
  finf : option F;
  fnan : option F
}.

#[export] Instance binary64_text : PyFloatText spec_float := {
  classify x :=
    match x with
    | S754_zero s => FFin s 0 1
    | S754_infinity s => FInf s
    | S754_nan => FNan
    | S754_finite s m e =>
        FFin s (Z.pos m * 2 ^ Z.max 0 e) (Z.to_pos (2 ^ Z.max 0 (- e)))
    end;
  fneg := SFopp;
  finf := Some (S754_infinity false);
  fnan := Some S754_nan
}.

#[export] Instance exact_text : PyFloatText Qc := {
  classify q := FFin (bool_decide (q < Q2Qc 0)%Qc) (Z.abs (Qnum (this q))) (Qden (this q));
  fneg := Qcopp;
  finf := None;
  fnan := None
}.

Definition million : Z := 1000000.

Definition round_half_even (n : Z) (d : positive) : Z :=
  let q := (n / Z.pos d)%Z in let r := (n mod Z.pos d)%Z in
  if (2 * r <? Z.pos d)%Z then q
  else if (Z.pos d <? 2 * r)%Z then (q + 1)%Z
  else if Z.even q then q else (q + 1)%Z.

Definition digit (z : Z) : ascii := ascii_of_N (48 + Z.to_N z).

(** [n] with exactly [k] decimal digits. *)
Fixpoint digits (k : nat) (n : Z) : string :=
  match k with
  | 0 => EmptyString
  | S k => digits k (n / 10) +:+ str1 (digit (n mod 10))
  end.

Definition str_of_micros (m : Z) : string :=
  str_of_Z (m / million) +:+ String dot (digits 6 (m mod million)).

(** ["%f" % x] *)
Definition fmt_f {F} `{PyFloatText F} (x : F) : string :=
  let sign (neg : bool) : string := if neg then "-"%string else EmptyString in
  match classify x with
  | FNan => "nan"%string
  | FInf neg => sign neg +:+ "inf"%string
  | FFin neg n d => sign neg +:+ str_of_micros (round_half_even (n * million) d)
  end.

Definition digit_val (c : ascii) : option Z :=
  let n := N_of_ascii c in
  if (48 <=? n)%N && (n <=? 57)%N then Some (Z.of_N (n - 48)) else None.

Fixpoint parse_digits (acc : Z) (s : string) : option Z :=
  match s with
  | EmptyString => Some acc
  | String c s => digit_val c ≫= λ d, parse_digits (acc * 10 + d) s
  end.

(** An exponent: digits with an optional sign. *)
Definition parse_exp (s : string) : option Z :=
  match s with
  | EmptyString => None
  | String c r =>
      if Ascii.eqb c (ch 45) then match r with EmptyString => None | _ => Z.opp <$> parse_digits 0 r end
      else if Ascii.eqb c (ch 43) then match r with EmptyString => None | _ => parse_digits 0 r end
      else parse_digits 0 s
  end.

(** The integer and fractional digits of a decimal number. *)
Definition parse_mantissa (s : string) : option (Z * nat) :=
  match str_split dot s with
  | [i] => match i with EmptyString => None | _ => (λ n, (n, 0)) <$> parse_digits 0 i end
  | [i; f] =>
      match i +:+ f with
      | EmptyString => None
      | ds => (λ n, (n, String.length f)) <$> parse_digits 0 ds
      end
  | _ => None
  end.

Definition scale {F} `{PyFloat F} (n : Z) (e : Z) : F :=
  if (0 <=? e)%Z then flit (n * 10 ^ e) 1 else flit n (Z.to_pos (10 ^ (- e))).

Definition parse_float {F} `{PyFloatText F} (s : string) : option F :=
  if bool_decide (s = "inf"%string) then finf
  else if bool_decide (s = "nan"%string) then fnan
  else match str_split (ch 101) s with
       | [m] => '(n, k) ← parse_mantissa m; Some (scale n (- Z.of_nat k))
       | [m; x] => '(n, k) ← parse_mantissa m; e ← parse_exp x; Some (scale n (e - Z.of_nat k))
       | _ => None
       end.

(** [float(s)] for decimal numbers with an optional exponent [e] and for
    ["inf"] and ["nan"]; the other spellings Python accepts (white space
    around the number, underscores, [E], [infinity]) are rejected. *)
Definition float_of_str {F} `{PyFloatText F} (s : string) : res F :=
  or_raise ValueError
    match s with
    | EmptyString => None
    | String c r =>
        if Ascii.eqb c (ch 45) then fneg <$> parse_float r
        else if Ascii.eqb c (ch 43) then parse_float r
        else parse_float s
    end.

(** The float a reader of the printed number gets. *)
Definition reread {F} `{PyFloatText F} (x : F) : res F := float_of_str (fmt_f x).

Lemma parse_digits_app acc a b : parse_digits acc (a +:+ b) = parse_digits acc a ≫= λ n, parse_digits n b.
Proof.
  revert acc. induction a as [|c a IH]; intros acc; [done|]. simpl.
  destruct (digit_val c); simpl; [apply IH|done].
Qed.

Lemma digit_cases (P : Z → Prop) :
  P 0%Z → P 1%Z → P 2%Z → P 3%Z → P 4%Z → P 5%Z → P 6%Z → P 7%Z → P 8%Z → P 9%Z →
  ∀ z, (0 <= z < 10)%Z → P z.
Proof.
  intros ?????????? z Hz. assert (z = 0 ∨ z = 1 ∨ z = 2 ∨ z = 3 ∨ z = 4 ∨ z = 5 ∨ z = 6 ∨
    z = 7 ∨ z = 8 ∨ z = 9)%Z as Hc by lia. naive_solver.
Qed.

Lemma digit_val_digit z : (0 <= z < 10)%Z → digit_val (digit z) = Some z.
Proof. revert z. by apply digit_cases. Qed.

Lemma plain_digit z : (0 <= z < 10)%Z → plain (digit z) = true.
Proof. revert z. by apply digit_cases. Qed.

Lemma parse_digits_digits k n acc :
  (0 <= n < 10 ^ Z.of_nat k)%Z → parse_digits acc (digits k n) = Some (acc * 10 ^ Z.of_nat k + n)%Z.
Proof.
  revert n acc. induction k as [|k IH]; intros n acc Hn.
  { simpl in *. f_equal. lia. }
  rewrite Nat2Z.inj_succ, Z.pow_succ_r in * by lia. cbn [digits].
  rewrite parse_digits_app, IH by (split; [apply Z.div_pos|apply Z.div_lt_upper_bound]; lia).
  unfold str1. cbn [mbind option_bind parse_digits].
  rewrite digit_val_digit by (apply Z.mod_pos_bound; lia). simpl. f_equal.
  pose proof (Z.div_mod n 10). nia.
Qed.

Lemma length_str_app a b : String.length (a +:+ b) = String.length a + String.length b.
Proof. induction a as [|c a IH]; simpl; [done|]. by rewrite IH. Qed.

Lemma length_digits k n : String.length (digits k n) = k.
Proof. revert n. induction k as [|k IH]; intros n; [done|]. cbn [digits]. rewrite length_str_app, IH. simpl. lia. Qed.

Lemma word_digits k n : word (digits k n) = true.
Proof.
  revert n. induction k as [|k IH]; intros n; [done|]. cbn [digits]. unfold word in *.
  rewrite str_all_app, IH. cbn [str_all str1]. rewrite plain_digit; [done|]. apply Z.mod_pos_bound. lia.
Qed.

(** Evaluates the value of a literal digit. *)
Ltac eval_digit :=
  match goal with
  | |- context [digit_val ?c] =>
      let v := eval vm_compute in (digit_val c) in change (digit_val c) with v
  end; cbn [mbind option_bind].

Lemma parse_pos_uint d p :
  parse_digits (Zpos p) (NilEmpty.string_of_uint d) = Some (Zpos (Pos.of_uint_acc d p)).
Proof.
  revert p. induction d; intros p; [done|..]; cbn [NilEmpty.string_of_uint parse_digits Pos.of_uint_acc];
    eval_digit; rewrite <-IHd; f_equal; lia.
Qed.

Lemma parse_uint d : parse_digits 0 (NilEmpty.string_of_uint d) = Some (Z.of_N (Pos.of_uint d)).
Proof.
  induction d; [done|exact IHd|..]; cbn [NilEmpty.string_of_uint parse_digits Pos.of_uint];
    eval_digit; apply parse_pos_uint.
Qed.

Lemma parse_str_of_Z z : (0 <= z)%Z → parse_digits 0 (str_of_Z z) = Some z.
Proof.
  intros Hz. unfold str_of_Z. pose proof (DecimalZ.of_to z) as Hot.
  destruct (Z.to_int z) as [d|d] eqn:Hd; [|by destruct z].
  cbn [NilZero.string_of_int Z.of_int] in *. unfold NilZero.string_of_uint.
  assert (parse_digits 0 (NilEmpty.string_of_uint d) = Some z) as Hp by (by rewrite parse_uint, <-Hot).
  by destruct d.
Qed.

Section micros.
Context {F : Type} `{PyFloatText F}.

Lemma word_str_of_micros m : word (str_of_micros m) = true.
Proof.
  unfold str_of_micros, word. rewrite str_all_app. cbn [str_all].
  pose proof (word_str_of_Z (m / million)) as Hw. unfold word in Hw. rewrite Hw.
  pose proof (word_digits 6 (m mod million)) as Hd. unfold word in Hd. by rewrite Hd.
Qed.

(** A printed float is one non-empty word. *)
Lemma word_fmt_f (x : F) : word (fmt_f x) = true.
Proof.
  unfold fmt_f. destruct (classify x) as [|[]|neg n d]; [done..|].
  pose proof (word_str_of_micros (round_half_even (n * million) d)) as Hw. unfold word in *.
  rewrite str_all_app, Hw. by destruct neg.
Qed.

Lemma str_of_micros_ne m : str_of_micros m ≠ EmptyString.
Proof. unfold str_of_micros. destruct (str_of_Z (m / million)); done. Qed.

Lemma fmt_f_ne (x : F) : fmt_f x ≠ EmptyString.
Proof.
  unfold fmt_f. destruct (classify x) as [|[]|neg n d]; [done..|].
  destruct neg; [done|]. apply str_of_micros_ne.
Qed.

Lemma str_in_digits c k n : not_decimal c = true → str_in c (digits k n) = false.
Proof.
  intros Hc. revert n. induction k as [|k IH]; intros n; [done|]. cbn [digits].
  rewrite str_in_app, IH. unfold str1. cbn [str_in]. rewrite orb_false_r. simpl.
  unfold not_decimal in Hc. apply negb_true_iff in Hc. cbn [str_in] in Hc. rewrite !orb_false_iff in Hc.
  pose proof (Z.mod_pos_bound n 10 ltac:(lia)) as Hb. revert Hb. generalize (n mod 10)%Z.
  apply digit_cases; unfold digit; simpl; tauto.
Qed.

Lemma parse_mantissa_micros m :
  (0 <= m)%Z → parse_mantissa (str_of_micros m) = Some (m, 6).
Proof.
  intros Hm. unfold parse_mantissa, str_of_micros.
  assert (0 <= m / million)%Z by (apply Z.div_pos; unfold million; lia).
  pose proof (Z.mod_pos_bound m million ltac:(unfold million; lia)) as Hb.
  pose proof (Z.div_mod m million ltac:(unfold million; lia)) as Hdm.
  rewrite str_split_app by (by apply str_in_str_of_Z).
  rewrite str_split_none by (by apply str_in_digits).
  rewrite length_digits.
  assert (parse_digits 0 (str_of_Z (m / million) +:+ digits 6 (m mod million)) = Some m) as Hp.
  { rewrite parse_digits_app, parse_str_of_Z by done. cbn [mbind option_bind].
    rewrite parse_digits_digits by (unfold million in *; simpl; lia).
    f_equal. unfold million in *. simpl Z.of_nat. change (10 ^ 6)%Z with 1000000%Z. lia. }
  destruct (str_of_Z (m / million) +:+ digits 6 (m mod million)) eqn:Hs; [|by rewrite Hp].
  destruct (str_of_Z (m / million)) eqn:Hz; [by apply str_of_Z_ne in Hz|done].
Qed.

Lemma str_in_micros c m : not_decimal c = true → c ≠ dot → str_in c (str_of_micros m) = false.
Proof.
  intros Hc Hne. unfold str_of_micros. rewrite str_in_app, str_in_str_of_Z by done.
  cbn [str_in]. rewrite str_in_digits by done. rewrite orb_false_r, orb_false_l.
  apply Ascii.eqb_neq. by intros <-.
Qed.

Lemma parse_float_micros m :
  (0 <= m)%Z → parse_float (str_of_micros m) = Some (flit m 1000000).
Proof.
  intros Hm. assert (str_in dot (str_of_micros m) = true) as Hdot.
  { unfold str_of_micros. rewrite str_in_app. cbn [str_in]. rewrite Ascii.eqb_refl. apply orb_true_r. }
  unfold parse_float. rewrite !bool_decide_false by (intros Heq; rewrite Heq in Hdot; done).
  rewrite str_split_none by (by apply str_in_micros).
  rewrite parse_mantissa_micros by done. done.
Qed.

Lemma float_of_micros m :
  (0 <= m)%Z → float_of_str (str_of_micros m) = Ok (flit m 1000000) ∧
  float_of_str ("-" +:+ str_of_micros m) = Ok (fneg (flit m 1000000)).
Proof.
  intros Hm. pose proof (parse_float_micros m Hm) as Hp. split.
  - unfold float_of_str. destruct (str_of_micros m) as [|c r] eqn:Hs; [by apply str_of_micros_ne in Hs|].
    assert (is_Some (digit_val c)) as [z Hz].
    { unfold str_of_micros in Hs.
      assert (0 <= m / million)%Z as Hd by (apply Z.div_pos; unfold million; lia).
      pose proof (parse_str_of_Z _ Hd) as Hq.
      destruct (str_of_Z (m / million)) as [|c' r'] eqn:Hz; [by apply str_of_Z_ne in Hz|].
      simpl in Hs. injection Hs as <- _. simpl in Hq. destruct (digit_val c'); [eauto|done]. }
    assert (∀ n, digit_val (ch n) = None → Ascii.eqb c (ch n) = false) as Hne.
    { intros n Hn. apply Ascii.eqb_neq. intros ->. congruence. }
    rewrite !Hne by done. by rewrite Hp.
  - unfold float_of_str. cbn [String.append]. rewrite Ascii.eqb_refl. by rewrite Hp.
Qed.
End micros.

(** Whole millionths are printed exactly, and read back as themselves. *)
Lemma round_half_even_exact n d m : (n = m * Z.pos d)%Z → round_half_even n d = m.
Proof.
  intros ->. unfold round_half_even. rewrite Z.mod_mul, Z.div_mul by lia. simpl.
  destruct (0 <? Z.pos d)%Z eqn:E; [done|]. apply Z.ltb_ge in E. lia.
Qed.

Lemma reread_micros m : reread (flit (F := Qc) m 1000000) = Ok (flit m 1000000).
Proof.
  unfold reread, fmt_f. cbn [classify exact_text].
  set (q := flit (F := Qc) m 1000000).
  assert (Qnum (this q) * million = m * Z.pos (Qden (this q)))%Z as Hq.
  { pose proof (this_lit m 1000000) as Hl. fold q in Hl. unfold Qeq in Hl. exact Hl. }
  rewrite (round_half_even_exact _ _ (Z.abs m)).
  2:{ unfold million in *. nia. }
  destruct (float_of_micros (F := Qc) (Z.abs m)) as [Hp Hn]; [lia|].
  unfold Qclt, Qlt. change (Qnum (this (Q2Qc 0))) with 0%Z. change (Qden (this (Q2Qc 0))) with 1%positive.
  assert (Qnum (this q) * 1 < 0 * Z.pos (Qden (this q)) ↔ m < 0)%Z as Hsign.
  { generalize dependent (Qnum (this q)). generalize (Qden (this q)). unfold million. intros; nia. }
  case_bool_decide as Hlt; rewrite Hsign in Hlt.
  - rewrite Hn, Z.abs_neq by lia. f_equal. unfold q. cbn [fneg exact_text].
    apply Qc_is_canon. rewrite this_opp, !this_lit. unfold Qeq. simpl. lia.
  - cbn [String.append]. by rewrite Hp, Z.abs_eq by lia.
Qed.
