(* ===== verification/Accum.v ===== *)
(** Tables of running totals: [d[k] += x] on a dictionary of numbers. Most
    of the sources' accounting has this form (link utilization, model
    expressions, port counters). In exact arithmetic an entry ends up with
    its initial value plus the sum of the amounts added to it. *)

From Stdlib Require Import QArith Qcanon Lqa.
From S2P Require Import Prelude PyDict PyFloat.

Section add_at.
Context {K F : Type} `{Countable K} `{PyFloat F}.

(** [d[k] += x]: the key has to exist. *)
Definition add_at (d : dict K F) (k : K) (x : F) : res (dict K F) :=
  v ← Dict.getitem d k; Ok (Dict.set d k (fadd v x)).

Definition add_all (d : dict K F) (l : list (K * F)) : res (dict K F) :=
  foldM (λ d kx, add_at d kx.1 kx.2) d l.

(** [d[k] += x] on a [defaultdict(float)]. *)
Definition add_default (d : dict K F) (k : K) (x : F) : dict K F :=
  Dict.set d k (fadd (Dict.get_default fzero d k) x).

(** The amounts that go to one key. *)
Definition amounts (k : K) (l : list (K * F)) : list F := (filter (λ kx, kx.1 = k) l).*2.

Lemma amounts_app k l1 l2 : amounts k (l1 ++ l2) = amounts k l1 ++ amounts k l2.
Proof. unfold amounts. by rewrite filter_app, fmap_app. Qed.

Lemma amounts_cons k k' x l :
  amounts k ((k', x) :: l) = (if decide (k' = k) then [x] else []) ++ amounts k l.
Proof. unfold amounts. rewrite filter_cons. simpl. by case_decide. Qed.

Lemma amounts_concat k (ls : list (list (K * F))) :
  amounts k (concat ls) = concat (amounts k <$> ls).
Proof. induction ls as [|l ls IH]; simpl; [done|]. by rewrite amounts_app, IH. Qed.

Lemma amounts_none k l : Forall (λ kx, kx.1 ≠ k) l → amounts k l = [].
Proof.
  induction 1 as [|[k' x] l Hk _ IH]; [done|]. rewrite amounts_cons, IH, decide_False by done. done.
Qed.

(** A list with distinct keys has one amount per key it contains. *)
Lemma amounts_single k (f : K → F) ks :
  NoDup ks → k ∈ ks → amounts k ((λ k, (k, f k)) <$> ks) = [f k].
Proof.
  induction 1 as [|k' ks Hn Hnd IH]; [set_solver|]. rewrite fmap_cons, amounts_cons.
  intros [<-|Hin]%elem_of_cons.
  - rewrite decide_True, amounts_none by done || (apply Forall_fmap, Forall_forall; set_solver).
    done.
  - rewrite decide_False, IH by (done || set_solver). done.
Qed.

Lemma add_at_keys d k x d' : add_at d k x = Ok d' → Dict.keys d' = Dict.keys d.
Proof.
  unfold add_at. intros (v & Hv%Dict.getitem_Ok & [= <-])%bind_Ok.
  apply Dict.keys_set_mem. eauto.
Qed.

Lemma add_all_keys d l d' : add_all d l = Ok d' → Dict.keys d' = Dict.keys d.
Proof.
  unfold add_all. intros Hf.
  refine (foldM_inv (λ e, Dict.keys e = Dict.keys d) _ _ _ d d' eq_refl Hf).
  intros b [k x] b' _ <-. apply add_at_keys.
Qed.

Lemma add_all_total d l :
  Forall (λ kx, kx.1 ∈ Dict.keys d) l → ∃ d', add_all d l = Ok d'.
Proof.
  intros Hl. destruct (foldM_total (λ e, Dict.keys e = Dict.keys d)
    (λ d kx, add_at d kx.1 kx.2) l) with (b := d) as (d' & Hd' & _); [|done|by exists d'].
  intros b [k x] Hin Hb. rewrite Forall_forall in Hl. specialize (Hl _ Hin). simpl in *.
  rewrite <-Hb in Hl. apply Dict.elem_of_keys in Hl as [v Hv].
  unfold add_at. rewrite (proj2 (Dict.getitem_Ok _ _ _) Hv). eexists. split; [done|].
  rewrite <-Hb. apply Dict.keys_set_mem. eauto.
Qed.

Lemma add_all_app d l1 l2 :
  add_all d (l1 ++ l2) = d' ← add_all d l1; add_all d' l2.
Proof. apply foldM_app. Qed.

(** A nested loop whose bodies add lists of amounts. *)
Lemma foldM_add_all {A} (f : A → list (K * F)) (l : list A) d :
  foldM (λ d x, add_all d (f x)) d l = add_all d (concat (f <$> l)).
Proof.
  revert d; induction l as [|x l IH]; intros d; cbn [foldM]; [done|].
  rewrite fmap_cons. cbn [concat]. rewrite add_all_app.
  destruct (add_all d (f x)); simpl; auto.
Qed.
End add_at.

(** The total of an entry, in exact arithmetic. *)
Lemma add_all_get {K} `{Countable K} (d : dict K Qc) l d' :
  add_all d l = Ok d' →
  ∀ k v, Dict.get d k = Some v → Dict.get d' k = Some (v + fsum (amounts k l))%Qc.
Proof.
  revert d; induction l as [|[k x] l IH]; intros d; unfold add_all; cbn [foldM].
  { intros [= <-] k v ->. f_equal. change (fsum _) with (fzero : Qc). by rewrite exact_add_0_r. }
  intros (d1 & (w & Hw%Dict.getitem_Ok & [= <-])%bind_Ok & Hrest)%bind_Ok k' v Hv. simpl in Hw.
  rewrite amounts_cons, fsum_app. cbn [fst snd] in *. destruct (decide (k = k')) as [->|Hne].
  - assert (v = w) as -> by congruence.
    rewrite (IH _ Hrest k' (fadd w x)) by apply Dict.get_set_eq. f_equal.
    rewrite fsum_cons, fsum_nil. change (fadd w x) with (w + x)%Qc.
    rewrite exact_add_0_r. by rewrite Qcplus_assoc.
  - rewrite (IH _ Hrest k' v) by (by rewrite Dict.get_set_ne). f_equal.
    by rewrite fsum_nil, exact_add_0_l.
Qed.

(** Totals collected by [defaultdict(float)]. *)
Lemma add_default_get {K} `{Countable K} (l : list (K * Qc)) (d : dict K Qc) k :
  Dict.get_default fzero (foldl (λ d kx, add_default d kx.1 kx.2) d l) k
  = (Dict.get_default fzero d k + fsum (amounts k l))%Qc.
Proof.
  revert d; induction l as [|[k' x] l IH]; intros d; cbn [foldl].
  { change (fsum _) with (fzero : Qc). by rewrite exact_add_0_r. }
  rewrite IH, amounts_cons, fsum_app. cbn [fst snd].
  unfold add_default, Dict.get_default at 1. rewrite Dict.get_set. case_decide; subst; simpl.
  - rewrite fsum_cons, fsum_nil, exact_add_0_r. by rewrite Qcplus_assoc.
  - by rewrite fsum_nil, exact_add_0_l.
Qed.

Lemma add_default_keys {K F} `{Countable K} `{PyFloat F} (l : list (K * F)) (d : dict K F) k :
  k ∈ Dict.keys (foldl (λ d kx, add_default d kx.1 kx.2) d l) ↔ k ∈ Dict.keys d ∨ k ∈ l.*1.
Proof.
  revert d; induction l as [|[k' x] l IH]; intros d; cbn [foldl]; [set_solver|].
  rewrite IH, fmap_cons, elem_of_cons. unfold add_default. cbn [fst snd].
  rewrite !Dict.elem_of_keys, Dict.get_set. case_decide; naive_solver.
Qed.

Lemma fsum_amounts_perm {K} `{Countable K} (k : K) (l1 l2 : list (K * Qc)) :
  l1 ≡ₚ l2 → fsum (amounts k l1) = fsum (amounts k l2).
Proof. intros Hp. apply fsum_perm. unfold amounts. by rewrite Hp. Qed.
