(* ===== verification/Groups.v ===== *)
(** Dictionaries of collected values: [defaultdict(list)] filled by
    [append], and [collections.Counter]. Both are the table of their keys in
    order of first occurrence, which turns the statements about the code
    that collects and counts into statements about filtered lists. *)

From S2P Require Import Prelude PyDict.

Section groups.
Context {K A : Type} `{Countable K}.
Implicit Types (l : list (K * A)) (d : dict K (list A)).

(** [d[k].append(x)] on a [defaultdict(list)] *)
Definition append_to d (k : K) (x : A) : dict K (list A) :=
  Dict.set d k (Dict.get_default [] d k ++ [x]).

(** A loop that appends every [x] to the list of its [k]. *)
Definition group_all l : dict K (list A) := foldl (λ d kx, append_to d kx.1 kx.2) [] l.

(** The values of [l] with key [k], in order. *)
Definition members (k : K) l : list A := (filter (λ kx, kx.1 = k) l).*2.

Lemma members_app k l1 l2 : members k (l1 ++ l2) = members k l1 ++ members k l2.
Proof. unfold members. by rewrite filter_app, fmap_app. Qed.

Lemma members_cons k kx l : members k (kx :: l) = (if decide (kx.1 = k) then [kx.2] else []) ++ members k l.
Proof. unfold members. rewrite filter_cons. by case_decide. Qed.

Lemma members_nil_iff k l : members k l = [] ↔ k ∉ l.*1.
Proof.
  induction l as [|kx l IH]; [by split; [intros _; apply not_elem_of_nil|]|].
  rewrite members_cons, fmap_cons, not_elem_of_cons. case_decide; simpl; [|rewrite IH; naive_solver].
  split; [done|naive_solver].
Qed.

Lemma members_nonempty k l : k ∈ l.*1 → members k l ≠ [].
Proof. rewrite members_nil_iff. tauto. Qed.

Lemma elem_of_members k x l : x ∈ members k l ↔ (k, x) ∈ l.
Proof.
  unfold members. rewrite list_elem_of_fmap. split.
  - intros ([k' x'] & -> & [Hk Hin]%list_elem_of_filter). simpl in *. by subst.
  - intros Hin. exists (k, x). split; [done|]. by apply list_elem_of_filter.
Qed.

Lemma get_append_to d k x j :
  Dict.get (append_to d k x) j = if decide (k = j) then Some (Dict.get_default [] d k ++ [x]) else Dict.get d j.
Proof. apply Dict.get_set. Qed.

Lemma set_of_snoc `{EqDecision B} (s : list B) b : set_of (s ++ [b]) = set_add b (set_of s).
Proof. unfold set_of. by rewrite foldl_app. Qed.

Lemma get_group_all l k : Dict.get_default [] (group_all l) k = members k l.
Proof.
  unfold group_all. induction l as [|kx l IH] using rev_ind; [done|].
  rewrite foldl_app, members_app, members_cons. cbn [foldl]. unfold Dict.get_default in *. rewrite get_append_to.
  case_decide as E; [|by rewrite app_nil_r]. rewrite <-E in *. simpl. unfold Dict.get_default. by rewrite IH.
Qed.

Lemma keys_append_to d k x : Dict.keys (append_to d k x) = set_add k (Dict.keys d).
Proof.
  unfold append_to, set_add. case_decide as E.
  - by apply Dict.keys_set_mem, Dict.elem_of_keys.
  - by apply Dict.keys_set_new, Dict.get_None.
Qed.

Lemma keys_group_all l : Dict.keys (group_all l) = set_of l.*1.
Proof.
  unfold group_all. induction l as [|kx l IH] using rev_ind; [done|].
  rewrite foldl_app, fmap_app. cbn [foldl fmap list_fmap]. by rewrite keys_append_to, IH, set_of_snoc.
Qed.

Lemma wf_group_all l : Dict.wf (group_all l).
Proof. unfold Dict.wf. rewrite keys_group_all. apply NoDup_set_of. Qed.

(** A dictionary is its keys with their values. *)
Lemma dict_items {V} (d : dict K V) (f : K → V) :
  Dict.wf d → (∀ k, k ∈ Dict.keys d → Dict.get d k = Some (f k)) → d = (λ k, (k, f k)) <$> Dict.keys d.
Proof.
  intros Hwf Hf. unfold Dict.keys. rewrite <-list_fmap_compose.
  transitivity (id <$> d); [by rewrite list_fmap_id|]. apply list_fmap_ext. intros i [k v] Hi. cbn.
  f_equal. apply list_elem_of_lookup_2 in Hi. apply (Dict.elem_of_get _ _ _ Hwf) in Hi as Hg.
  rewrite Hf in Hg; [by injection Hg|]. apply Dict.elem_of_keys. by eexists.
Qed.

Lemma group_all_items l : group_all l = (λ k, (k, members k l)) <$> set_of l.*1.
Proof.
  rewrite <-keys_group_all. apply dict_items; [apply wf_group_all|]. intros k Hk.
  rewrite <-get_group_all. apply Dict.elem_of_keys in Hk as [v Hv]. unfold Dict.get_default. by rewrite Hv.
Qed.
End groups.

(** * Counters *)

Section counter.
Context {K : Type} `{Countable K}.
Implicit Types (l : list K) (d : dict K Z).

(** [d[k] += 1] on a [defaultdict(int)] *)
Definition count_at d (k : K) : dict K Z := Dict.set d k (Dict.get_default 0 d k + 1)%Z.
(** [Counter(l)] *)
Definition Counter l : dict K Z := foldl count_at [] l.

Definition occurrences (k : K) l : Z := Z.of_nat (length (filter (λ x, x = k) l)).

Lemma occurrences_snoc k x l : occurrences k (l ++ [x]) = (occurrences k l + if decide (x = k) then 1 else 0)%Z.
Proof. unfold occurrences. rewrite filter_app, length_app, filter_cons, filter_nil. case_decide; simpl; lia. Qed.

Lemma get_Counter l k : Dict.get_default 0%Z (Counter l) k = occurrences k l.
Proof.
  unfold Counter. induction l as [|x l IH] using rev_ind; [done|]. rewrite foldl_app, occurrences_snoc. cbn [foldl].
  unfold count_at at 1. rewrite Dict.get_default_set. case_decide as E; [|rewrite IH; lia]. subst. rewrite IH. lia.
Qed.

Lemma keys_Counter l : Dict.keys (Counter l) = set_of l.
Proof.
  unfold Counter. induction l as [|x l IH] using rev_ind; [done|]. rewrite foldl_app, set_of_snoc. cbn [foldl].
  rewrite <-IH. unfold count_at at 1. unfold set_add. case_decide as E.
  - by apply Dict.keys_set_mem, Dict.elem_of_keys.
  - by apply Dict.keys_set_new, Dict.get_None.
Qed.

Lemma Counter_items l : Counter l = (λ k, (k, occurrences k l)) <$> set_of l.
Proof.
  rewrite <-keys_Counter. apply dict_items.
  - unfold Dict.wf. rewrite keys_Counter. apply NoDup_set_of.
  - intros k Hk. rewrite <-get_Counter. apply Dict.elem_of_keys in Hk as [v Hv]. unfold Dict.get_default. by rewrite Hv.
Qed.

Lemma occurrences_pos k l : k ∈ l → (0 < occurrences k l)%Z.
Proof.
  intros Hin. unfold occurrences. assert (k ∈ filter (λ x, x = k) l) as Hf by by apply list_elem_of_filter.
  destruct (filter _ l); [by apply not_elem_of_nil in Hf|simpl; lia].
Qed.

(** The counts of distinct keys that cover [l] add up to its length. *)
Lemma occurrences_total (s l : list K) : NoDup s → (∀ x, x ∈ l → x ∈ s) →
  foldr Z.add 0%Z ((λ k, occurrences k l) <$> s) = Z.of_nat (length l).
Proof.
  intros Hs. induction l as [|x l IH] using rev_ind; intros Hin.
  - clear. by induction s.
  - rewrite length_app, Nat2Z.inj_add, <-IH by (intros; apply Hin; set_solver). simpl.
    assert (x ∈ s) as Hx by (apply Hin; set_solver). clear -Hs Hx.
    induction Hs as [|k s Hk Hs IHs]; [by apply not_elem_of_nil in Hx|]. rewrite !fmap_cons. cbn [foldr].
    rewrite occurrences_snoc. case_decide as E.
    + subst. assert ((λ k0, occurrences k0 (l ++ [k])) <$> s = (λ k0, occurrences k0 l) <$> s) as ->.
      { apply list_fmap_ext. intros i y Hy. rewrite occurrences_snoc. rewrite decide_False; [lia|]. intros <-. by apply list_elem_of_lookup_2 in Hy. }
      lia.
    + rewrite IHs by set_solver. lia.
Qed.

Lemma Counter_total l : foldr Z.add 0%Z (Dict.values (Counter l)) = Z.of_nat (length l).
Proof.
  rewrite Counter_items. unfold Dict.values. rewrite <-list_fmap_compose. apply occurrences_total; [apply NoDup_set_of|].
  intros x. by rewrite elem_of_set_of.
Qed.
End counter.

(** How often a key occurs is how many values it collects. *)
Lemma occurrences_members {K A} `{Countable K} (l : list (K * A)) k : occurrences k l.*1 = Z.of_nat (length (members k l)).
Proof.
  unfold occurrences, members. f_equal. rewrite length_fmap. induction l as [|kx l IH]; [done|].
  rewrite fmap_cons, !filter_cons. repeat case_decide; simpl; congruence.
Qed.

(** * Sorting and maxima by an order *)

Section order.
Context {A : Type} (lt : A → A → bool).

(** A stable insertion sort: [sorted(l)] and [sorted(l, key)] for an order
    [lt] on the members or on their keys. *)
Fixpoint insert_with (x : A) (l : list A) : list A :=
  match l with
  | [] => [x]
  | y :: l' => if lt y x then y :: insert_with x l' else x :: l
  end.
Definition sorted_with (l : list A) : list A := foldr insert_with [] l.

(** [max(l, key)]: the first of the largest members. *)
Definition max_with (l : list A) : res A :=
  match l with [] => Raise ValueError | x :: l => Ok (foldl (λ m y, if lt m y then y else m) x l) end.

Lemma insert_with_perm x l : insert_with x l ≡ₚ x :: l.
Proof. induction l as [|y l IH]; cbn; [done|]. destruct (lt y x); [|done]. rewrite IH. constructor. Qed.
Lemma sorted_with_perm l : sorted_with l ≡ₚ l.
Proof. induction l as [|x l IH]; cbn; [done|]. by rewrite insert_with_perm, IH. Qed.

(** What [lt] refines: [R x y] may precede. *)
Context (R : A → A → Prop) (HR : ∀ x y, lt x y = false → R y x) (HR' : ∀ x y, lt x y = true → R x y).
Context {Htrans : Transitive R} {Hrefl : Reflexive R}.

Lemma insert_with_sorted x l : StronglySorted R l → StronglySorted R (insert_with x l).
Proof using HR HR' Htrans.
  induction 1 as [|y l Hl IH Hy]; cbn; [repeat constructor|]. destruct (lt y x) eqn:E.
  - constructor; [done|]. rewrite insert_with_perm. constructor; [by apply HR'|done].
  - constructor; [by constructor|]. constructor; [by apply HR|]. eapply Forall_impl; [exact Hy|].
    intros z Hz. by transitivity y; [apply HR|].
Qed.
Lemma sorted_with_sorted l : StronglySorted R (sorted_with l).
Proof using HR HR' Htrans. induction l as [|x l IH]; cbn; [constructor|]. by apply insert_with_sorted. Qed.

Lemma foldl_max_with l x : let m := foldl (λ m y, if lt m y then y else m) x l in
  m ∈ x :: l ∧ Forall (λ y, R y m) (x :: l).
Proof using HR HR' Htrans Hrefl.
  revert x. induction l as [|y l IH]; intros x; cbn.
  - split; [set_solver|repeat constructor; apply Hrefl].
  - destruct (IH (if lt x y then y else x)) as [Hin Hall]. split; [destruct (lt x y); set_solver|].
    inversion Hall as [|? ? Hm Htl]; subst. destruct (lt x y) eqn:E.
    + constructor; [by transitivity y; [apply HR'|]|]. by constructor.
    + constructor; [done|]. constructor; [by transitivity x; [apply HR|]|done].
Qed.

Lemma max_with_spec l : l ≠ [] → ∃ m, max_with l = Ok m ∧ m ∈ l ∧ Forall (λ y, R y m) l.
Proof using HR HR' Htrans Hrefl.
  destruct l as [|x l]; [done|]. intros _. eexists. split; [done|]. apply foldl_max_with.
Qed.
End order.
