(* ===== verification/LinProg.v ===== *)
(** The surface of [gurobipy] that the sources use: variables with bounds,
    linear expressions, constraints and a model that collects them. The
    solver itself is outside of the repository; what a solution promises is
    [satisfies], the documented meaning of bounds and constraints.
    Coefficients and solutions are exact rationals: the solver's numerical
    tolerance is not modelled. *)

From Stdlib Require Import QArith Qcanon Lqa.
From S2P Require Import Prelude PyDict PyFloat Accum.

Inductive vtype : Type := CONTINUOUS | SEMICONT.

Record Var : Type := mkVar {
  varName : string;
  var_type : vtype;
  lb : Qc;
  ub : option Qc   (** [None]: infinity *)
}.

(** A variable is the handle of its position in the model. *)
Record LinExpr : Type := mkLin { constant : Qc; terms : list (Qc * nat) }.

Definition lin_const (c : Qc) : LinExpr := mkLin c [].
Definition lin_var (v : nat) : LinExpr := mkLin fzero [(fone, v)].
Definition lin_scaled (v : nat) (c : Qc) : LinExpr := mkLin fzero [(c, v)].
Definition lin_add (e1 e2 : LinExpr) : LinExpr :=
  mkLin (constant e1 + constant e2)%Qc (terms e1 ++ terms e2).
Definition lin_sub (e1 e2 : LinExpr) : LinExpr :=
  mkLin (constant e1 - constant e2)%Qc (terms e1 ++ ((λ t, (- t.1, t.2)%Qc) <$> terms e2)).

Inductive sense : Type := EQ | LE | GE.
Record Constr : Type := mkConstr { lhs : LinExpr; csense : sense; rhs : LinExpr }.

Record Model : Type := mkModel {
  vars : list Var;
  constrs : list Constr;
  objective : option LinExpr
}.
Definition empty_model : Model := mkModel [] [] None.

Definition addVar (v : Var) : M Model nat := λ m,
  (Ok (length (vars m)), mkModel (vars m ++ [v]) (constrs m) (objective m)).
Definition addConstr (c : Constr) : M Model unit := λ m,
  (Ok tt, mkModel (vars m) (constrs m ++ [c]) (objective m)).
Definition setObjective (e : LinExpr) : M Model unit := λ m,
  (Ok tt, mkModel (vars m) (constrs m) (Some e)).

(** ** Meaning *)

Definition eval (a : nat → Qc) (e : LinExpr) : Qc :=
  (constant e + fsum ((λ t, t.1 * a t.2) <$> terms e))%Qc.

Definition holds (a : nat → Qc) (c : Constr) : Prop :=
  match csense c with
  | EQ => eval a (lhs c) = eval a (rhs c)
  | LE => (eval a (lhs c) <= eval a (rhs c))%Qc
  | GE => (eval a (rhs c) <= eval a (lhs c))%Qc
  end.

Definition within (v : Var) (x : Qc) : Prop :=
  (lb v <= x)%Qc ∧ match ub v with Some u => (x <= u)%Qc | None => True end.

(** A semi-continuous variable is zero or within its bounds. *)
Definition admissible (v : Var) (x : Qc) : Prop :=
  match var_type v with
  | CONTINUOUS => within v x
  | SEMICONT => x = fzero ∨ within v x
  end.

Definition satisfies (a : nat → Qc) (m : Model) : Prop :=
  (∀ i v, vars m !! i = Some v → admissible v (a i)) ∧ Forall (holds a) (constrs m).

(** ** Evaluation of expressions *)

Lemma eval_const a c : eval a (lin_const c) = c.
Proof. unfold eval. simpl. by rewrite fsum_nil, exact_add_0_r. Qed.
Lemma eval_var a v : eval a (lin_var v) = a v.
Proof. unfold eval. cbn [constant terms lin_var fmap list_fmap fst snd]. rewrite fsum_cons, fsum_nil. qc_lra. Qed.
Lemma eval_scaled a v c : eval a (lin_scaled v c) = (a v * c)%Qc.
Proof. unfold eval. cbn [constant terms lin_scaled fmap list_fmap fst snd]. rewrite fsum_cons, fsum_nil. qc_nra. Qed.
Lemma eval_add a e1 e2 : eval a (lin_add e1 e2) = (eval a e1 + eval a e2)%Qc.
Proof. unfold eval, lin_add. cbn [constant terms]. rewrite fmap_app, fsum_app. ring. Qed.
Lemma eval_sub a e1 e2 : eval a (lin_sub e1 e2) = (eval a e1 - eval a e2)%Qc.
Proof.
  unfold eval, lin_sub. cbn [constant terms]. rewrite fmap_app, fsum_app.
  assert (∀ l : list (Qc * nat), fsum ((λ t, t.1 * a t.2) <$> ((λ t, (- t.1, t.2)%Qc) <$> l))
    = (- fsum ((λ t, t.1 * a t.2) <$> l))%Qc)%Qc as ->.
  { induction l as [|t l IH]; [change (fzero = - fzero)%Qc; qc_lra|].
    rewrite !fmap_cons, !fsum_cons, IH. cbn [fst snd]. ring. }
  ring.
Qed.

(** ** Models only grow *)

Definition extends (m m' : Model) : Prop :=
  vars m `prefix_of` vars m' ∧ constrs m `prefix_of` constrs m'.

#[export] Instance extends_preorder : PreOrder extends.
Proof.
  split; [done|]. intros m1 m2 m3 [H1 H2] [H3 H4]. split; by etrans.
Qed.

Lemma satisfies_extends a m m' : extends m m' → satisfies a m' → satisfies a m.
Proof.
  intros [[k Hk] [c Hc]] [Hv Hcs]. split.
  - intros i v Hi. apply Hv. rewrite Hk. by apply lookup_app_l_Some.
  - rewrite Hc, Forall_app in Hcs. apply Hcs.
Qed.

Lemma extends_lookup m m' i v : extends m m' → vars m !! i = Some v → vars m' !! i = Some v.
Proof. intros [[k Hk] _] Hi. rewrite Hk. by apply lookup_app_l_Some. Qed.

Lemma addVar_spec v m x m' :
  addVar v m = (Ok x, m') → extends m m' ∧ vars m' !! x = Some v ∧
    vars m' = vars m ++ [v] ∧ x = length (vars m).
Proof.
  intros [= <- <-]. split; [split; [by eexists|done]|].
  split; [by apply list_lookup_middle|done].
Qed.

Lemma addConstr_spec c m m' :
  addConstr c m = (Ok tt, m') → extends m m' ∧ vars m' = vars m ∧ ∀ a, satisfies a m' → holds a c.
Proof.
  intros [= <-]. split; [split; [done|by eexists]|split; [done|]].
  intros a [_ Hc]. simpl in Hc. apply Forall_app in Hc as [_ Hc]. exact (Forall_inv Hc).
Qed.

(** ** Tables of expressions *)

Section expr_at.
Context {K : Type} `{Countable K}.

(** [d[k] += e] *)
Definition expr_at (d : dict K LinExpr) (k : K) (e : LinExpr) : res (dict K LinExpr) :=
  v ← Dict.getitem d k; Ok (Dict.set d k (lin_add v e)).

(** The values of the expressions form a table of totals. *)
Definition eval_dict (a : nat → Qc) (d : dict K LinExpr) : dict K Qc := prod_map id (eval a) <$> d.

Lemma get_eval_dict a d k : Dict.get (eval_dict a d) k = eval a <$> Dict.get d k.
Proof.
  induction d as [|[k' e] d IH]; [done|]. unfold eval_dict in *. rewrite fmap_cons.
  cbn [Dict.get prod_map fst snd id]. by case_decide.
Qed.

Lemma set_eval_dict a d k e :
  eval_dict a (Dict.set d k e) = Dict.set (eval_dict a d) k (eval a e).
Proof.
  induction d as [|[k' e'] d IH]; [done|]. unfold eval_dict in *. cbn [Dict.set].
  rewrite !fmap_cons. cbn [Dict.set prod_map fst snd id]. case_decide; rewrite fmap_cons; [done|].
  by rewrite IH.
Qed.

Lemma expr_at_eval a d k e d' :
  expr_at d k e = Ok d' → add_at (eval_dict a d) k (eval a e) = Ok (eval_dict a d').
Proof.
  unfold expr_at, add_at. intros (v & Hv%Dict.getitem_Ok & [= <-])%bind_Ok.
  unfold Dict.getitem. rewrite get_eval_dict, Hv. simpl. f_equal.
  rewrite set_eval_dict. f_equal. rewrite eval_add. done.
Qed.

Lemma foldM_expr_at_eval a (l : list (K * LinExpr)) d d' :
  foldM (λ d ke, expr_at d ke.1 ke.2) d l = Ok d' →
  add_all (eval_dict a d) (prod_map id (eval a) <$> l) = Ok (eval_dict a d').
Proof.
  revert d; induction l as [|[k e] l IH]; intros d; cbn [foldM].
  { by intros [= <-]. }
  intros (d1 & Hd1 & Hrest)%bind_Ok. rewrite fmap_cons. unfold add_all. cbn [foldM].
  simpl in Hd1. simpl. rewrite (expr_at_eval a _ _ _ _ Hd1). simpl. by apply IH.
Qed.
End expr_at.

(** Whether an assignment is a solution can be checked. *)
#[export] Instance holds_dec a c : Decision (holds a c).
Proof. unfold holds. destruct (csense c); apply _. Defined.
#[export] Instance within_dec v x : Decision (within v x).
Proof. unfold within. destruct (ub v); apply _. Defined.
#[export] Instance admissible_dec v x : Decision (admissible v x).
Proof. unfold admissible. destruct (var_type v); apply _. Defined.

Lemma satisfies_alt a m :
  satisfies a m ↔
  Forall (λ iv : nat * Var, admissible iv.2 (a iv.1)) (enumerate (vars m)) ∧
  Forall (holds a) (constrs m).
Proof.
  split; intros [Hv Hc]; (split; [|done]).
  - apply Forall_forall. intros [i v] Hi%elem_of_enumerate. by apply Hv.
  - rewrite Forall_forall in Hv. intros i v Hi. apply (Hv (i, v)). by apply elem_of_enumerate.
Qed.

#[export] Instance satisfies_dec a m : Decision (satisfies a m).
Proof.
  refine (cast_if (decide (Forall (λ iv : nat * Var, admissible iv.2 (a iv.1)) (enumerate (vars m)) ∧
    Forall (holds a) (constrs m)))); by rewrite satisfies_alt.
Defined.

(** An optimizer that tries one assignment. *)
Definition try_assignment (guess : Model → nat → Qc) (m : Model) : option (nat → Qc) :=
  if decide (satisfies (guess m) m) then Some (guess m) else None.

Lemma try_assignment_sound guess m a : try_assignment guess m = Some a → satisfies a m.
Proof. unfold try_assignment. case_decide; naive_solver. Qed.
