(* ===== verification/FlowAllocation.v ===== *)
(** Flow allocation for the path hopping experiments:
    [rest_client/path_hopping/flow_allocation.py], the part that admits
    flows without a solver.

    [networkx] and [numpy.random] are parameters of the section: the graph
    is the node and edge lists the code iterates over, path enumeration
    ([node_disjoint_paths], [all_simple_paths], [shortest_path]) is a
    function of the graph, and the global random state is threaded through
    the [M RNG] monad. The loops that run until a capacity is exceeded take
    fuel; [None] is an exhausted loop, and the termination theorem gives a
    bound under which it does not occur. *)

From Stdlib Require Import QArith Qcanon.
From S2P Require Import Prelude PyDict PyFloat.

Abbreviation node := Z.
Abbreviation link := (Z * Z)%type.
Abbreviation path := (list Z).

(** What the code reads of a [networkx] graph. *)
Record Graph : Type := mkGraph { nodes : list node; edges : list link }.

(** [class Flow] *)
Record Flow (F : Type) : Type := mkFlow {
  source_node : node;
  destination_node : node;
  flow_tx_rate : F;
  paths : option (list path);
  splitting_ratio : option (list F)
}.
Arguments mkFlow {F}.
Arguments source_node {F}.
Arguments destination_node {F}.
Arguments flow_tx_rate {F}.
Arguments paths {F}.
Arguments splitting_ratio {F}.

(** [class FlowSet]: [add_flow], [add_flows], iteration and [len]. *)
Module FlowSet.
Record t (F : Type) : Type := mk { flows : list (Flow F) }.
Arguments mk {F}.
Arguments flows {F}.
Definition init {F} : t F := mk [].
Definition add_flow {F} (s : t F) (f : Flow F) : t F := mk (flows s ++ [f]).
Definition add_flows {F} (s : t F) (fs : list (Flow F)) : t F := mk (flows s ++ fs).
Definition iter {F} (s : t F) : list (Flow F) := flows s.
Definition len {F} (s : t F) : nat := length (flows s).
End FlowSet.

Definition DEFAULT_SEED_NUMBER : Z := 0xCAFEBABE.

Section allocation.
Context {F : Type} `{PyFloat F}.
Context {RNG : Type}.

Abbreviation utilization := (dict link F).

Definition LINK_CAPACITY : F := flit 1 1.
Definition FLOW_TX_RATE_LOWER_BOUND : F := flit 1 10.
Definition FLOW_TX_RATE_UPPER_BOUND : F := flit 1 2.

(** The hops of a path as keys of the utilization table. *)
Definition sorted_hops (p : path) : list link := sorted_pair <$> pairwise p.

(** The inner loop over the hops of one path: [(True, _)] when the capacity
    was exceeded and the loop left by [break]. The rate is an expression that
    one of the callers evaluates at every hop, so it is a result. *)
Fixpoint reserve_hops (rate : res F) (hops : list link) (u : utilization)
    : res (bool * utilization) :=
  match hops with
  | [] => Ok (false, u)
  | e :: hops =>
      r ← rate;
      used ← Dict.getitem u e;
      if flt LINK_CAPACITY (fadd used r) then Ok (true, u)
      else reserve_hops rate hops (Dict.set u e (fadd used r))
  end.

(** The loop over the paths of the flow, left by the second [break]. *)
Fixpoint reserve_paths (rate : res F) (ps : list path) (u : utilization)
    : res (bool * utilization) :=
  match ps with
  | [] => Ok (false, u)
  | p :: ps =>
      '(exceeded, u') ← reserve_hops rate (sorted_hops p) u;
      if (exceeded : bool) then Ok (true, u') else reserve_paths rate ps u'
  end.

(** [numpy.random] and [networkx]. *)
Variable np_seed : Z → RNG.
Variable np_uniform : F → F → M RNG F.
Variable np_choice : list node → nat → M RNG (list node).
Variable node_disjoint_paths : Graph → node → node → res (list path).
Variable all_simple_paths : Graph → node → node → nat → res (list path).
Variable shortest_path : Graph → node → node → res path.

(** [np.random.seed(n)] replaces the global random state; it takes numbers
    of 32 bits. *)
Definition np_random_seed (n : Z) : M RNG unit :=
  if bool_decide (0 ≤ n < 2 ^ 32)%Z then modify (λ _, np_seed n) else lift (Raise ValueError).

(** [sorted(nx.all_simple_paths(...), key=len)] cut to its first [K]. *)
Definition k_shortest (g : Graph) (s t : node) (K : nat) : res (list path) :=
  ps ← all_simple_paths g s t 3;
  Ok (take K (sorted_by (λ p, Z.of_nat (length p)) ps)).

(** One iteration of [compute_greedy_flow_allocations]. [Ok None] means the
    capacity was exceeded and the loop ends; the flow is appended
    otherwise. The utilization is the shared dictionary, so the partial
    reservations of a rejected flow stay in it. *)
Definition greedy_round (flow_selection_fn : list node → M RNG (node * node))
    (g : Graph) (u : utilization) : M RNG (option (Flow F) * utilization) :=
  '(s, t) ← flow_selection_fn (nodes g);
  rate ← np_uniform FLOW_TX_RATE_LOWER_BOUND FLOW_TX_RATE_UPPER_BOUND;
  connecting_paths ← lift (node_disjoint_paths g s t);
  let n := f_of_Z (Z.of_nat (length connecting_paths)) in
  flow_rate_per_subpath ← lift (fdiv rate n);
  '(exceeded, u') ← lift (reserve_paths (Ok flow_rate_per_subpath) connecting_paths u);
  if (exceeded : bool) then mret (None, u')
  else
    share ← lift (fdiv fone n);
    mret (Some (mkFlow s t rate (Some connecting_paths)
                  (Some (replicate (length connecting_paths) share))), u').

Fixpoint greedy_loop (flow_selection_fn : list node → M RNG (node * node))
    (g : Graph) (fuel : nat) (u : utilization) (flows : list (Flow F))
    : M RNG (option (list (Flow F) * utilization)) :=
  match fuel with
  | 0 => mret None
  | S fuel =>
      '(added, u') ← greedy_round flow_selection_fn g u;
      match added with
      | None => mret (Some (flows, u'))
      | Some f => greedy_loop flow_selection_fn g fuel u' (flows ++ [f])
      end
  end.

(** [{tuple(sorted(link_tuple)): 0.0 for link_tuple in target_graph.edges}] *)
Definition initial_utilization (g : Graph) : utilization :=
  Dict.of_pairs ((λ e, (sorted_pair e, fzero)) <$> edges g).

Definition compute_greedy_flow_allocations (fuel : nat) (g : Graph)
    (flow_selection_fn : list node → M RNG (node * node)) (seed_number : Z)
    : M RNG (option (list (Flow F) * utilization)) :=
  np_random_seed seed_number ≫= λ _,
  greedy_loop flow_selection_fn g fuel (initial_utilization g) [].

(** [compute_path_hopping_flow_allocations]. The body reads a global
    [flow_selection_fn] (called with [replace=False] and a count), which the
    module does not define: the argument is the module's global of that
    name, if there is one. The utilization table is keyed by the edges as
    the graph reports them. *)
Definition path_hopping_round (flow_selection_fn : list node → nat → M RNG (node * node))
    (g : Graph) (K : nat) (st : utilization * dict node F)
    : M RNG (option (Flow F) * (utilization * dict node F)) :=
  let '(u, node_capacity) := st in
  '(s, t) ← flow_selection_fn (nodes g) 2;
  k_shortest_paths ← lift (k_shortest g s t K);
  let flow_tx_rate := flit 1 1 in
  used ← lift (Dict.getitem node_capacity s);
  let node_capacity' := Dict.set node_capacity s (fadd used flow_tx_rate) in
  '(exceeded, u') ← lift (reserve_paths (fdiv flow_tx_rate (f_of_Z (Z.of_nat K)))
                            k_shortest_paths u);
  if (exceeded : bool) then mret (None, (u', node_capacity'))
  else
    share ← lift (fdiv fone (f_of_Z (Z.of_nat K)));
    mret (Some (mkFlow s t flow_tx_rate (Some k_shortest_paths)
                  (Some (replicate K share))), (u', node_capacity')).

Fixpoint path_hopping_loop (flow_selection_fn : list node → nat → M RNG (node * node))
    (g : Graph) (K fuel : nat) (st : utilization * dict node F) (flows : list (Flow F))
    : M RNG (option (list (Flow F) * utilization)) :=
  match fuel with
  | 0 => mret None
  | S fuel =>
      '(added, st') ← path_hopping_round flow_selection_fn g K st;
      match added with
      | None => mret (Some (flows, st'.1))
      | Some f => path_hopping_loop flow_selection_fn g K fuel st' (flows ++ [f])
      end
  end.

Definition compute_path_hopping_flow_allocations
    (global_flow_selection_fn : option (list node → nat → M RNG (node * node)))
    (fuel : nat) (g : Graph) (K : nat) : M RNG (option (list (Flow F) * utilization)) :=
  np_random_seed DEFAULT_SEED_NUMBER ≫= λ _,
  let link_utilization := Dict.of_pairs ((λ e, (e, fzero)) <$> edges g) in
  let node_capacity := Dict.of_pairs ((λ n, (n, fzero)) <$> nodes g) in
  match global_flow_selection_fn with
  | None => lift (Raise NameError)
  | Some flow_selection_fn =>
      path_hopping_loop flow_selection_fn g K fuel (link_utilization, node_capacity) []
  end.

(** [[x] = np.random.choice(l, 1, replace=False)] *)
Definition choose_one (l : list node) : M RNG node :=
  picked ← np_choice l 1;
  match picked with [x] => mret x | _ => lift (Raise ValueError) end.

(** [list(set(nodes) - {n})], in the order of the node list. *)
Definition other_nodes (g : Graph) (n : node) : list node :=
  filter (λ m, m ≠ n) (nodes g).

(** [link_utilization[u, v] += rate] for every hop, without a check. *)
Definition charge_hops (rate : res F) (hops : list link) (u : utilization) : res utilization :=
  foldM (λ u e, r ← rate; used ← Dict.getitem u e; Ok (Dict.set u e (fadd used r))) u hops.

Fixpoint test_allocation_loop (g : Graph) (K : nat) (source : node) (n : nat)
    (u : utilization) (flows : list (Flow F)) : M RNG (list (Flow F) * utilization) :=
  match n with
  | 0 => mret (flows, u)
  | S n =>
      t ← choose_one (other_nodes g source);
      k_shortest_paths ← lift (k_shortest g source t K);
      let flow_tx_rate := flit 10 1 in
      u' ← lift (charge_hops (fdiv flow_tx_rate (f_of_Z (Z.of_nat K)))
                   (concat (sorted_hops <$> k_shortest_paths)) u);
      rate ← lift (fdiv flow_tx_rate (flit 10 1));
      share ← lift (fdiv fone (f_of_Z (Z.of_nat K)));
      test_allocation_loop g K source n u'
        (flows ++ [mkFlow source t rate (Some k_shortest_paths) (Some (replicate K share))])
  end.

Definition compute_test_flow_allocations (g : Graph) (number_of_flows K : nat)
    : M RNG (Z * list (Flow F) * utilization) :=
  let flow_allocation_seed_number := 123456789%Z in
  np_random_seed flow_allocation_seed_number ≫= λ _,
  let link_utilization := Dict.of_pairs ((λ e, (e, fzero)) <$> edges g) in
  source ← choose_one (nodes g);
  '(flows, u) ← test_allocation_loop g K source number_of_flows link_utilization [];
  mret (flow_allocation_seed_number, flows, u).

(** One flow per node. *)
Fixpoint equal_allocation_loop (g : Graph) (K : nat) (ns : list node)
    (flows : list (Flow F)) : M RNG (list (Flow F)) :=
  match ns with
  | [] => mret flows
  | n :: ns =>
      t ← choose_one (other_nodes g n);
      k_shortest_paths ← lift (k_shortest g n t K);
      share ← lift (fdiv (f_of_Z 1) (f_of_Z (Z.of_nat K)));
      equal_allocation_loop g K ns
        (flows ++ [mkFlow n t (flit 10 1) (Some k_shortest_paths) (Some (replicate K share))])
  end.

Definition compute_equal_flow_allocations (g : Graph) (K : nat) : M RNG (Z * list (Flow F)) :=
  np_random_seed 0xDEADBEEF ≫= λ _,
  flows ← equal_allocation_loop g K (nodes g) [];
  mret (0xDEADBEEF%Z, flows).

Fixpoint unequal_allocation_loop (g : Graph) (ns : list node)
    (flows : list (Flow F)) : M RNG (list (Flow F)) :=
  match ns with
  | [] => mret flows
  | n :: ns =>
      t ← choose_one (other_nodes g n);
      p ← lift (shortest_path g n t);
      unequal_allocation_loop g ns
        (flows ++ [mkFlow n t (flit 10 1) (Some [p]) (Some [flit 1 1])])
  end.

Definition compute_unequal_flow_allocations (g : Graph) : M RNG (Z * list (Flow F)) :=
  np_random_seed 0xDEADBEEF ≫= λ _,
  flows ← unequal_allocation_loop g (nodes g) [];
  mret (0xDEADBEEF%Z, flows).

(** [single_flow]: everything on the first of the disjoint paths. *)
Definition single_flow (g : Graph) : M RNG (Z * list (Flow F)) :=
  np_random_seed DEFAULT_SEED_NUMBER ≫= λ _,
  picked ← np_choice (nodes g) 2;
  match picked with
  | [s; t] =>
      disjoint_paths ← lift (node_disjoint_paths g s t);
      mret (DEFAULT_SEED_NUMBER,
            [mkFlow s t (flit 1 2) (Some disjoint_paths)
               (Some (flit 1 1 :: replicate (length disjoint_paths - 1) (f_of_Z 0)))])
  | _ => lift (Raise ValueError)
  end.
End allocation.
