(* ===== verification/FlowAllocationProps.v ===== *)
(** Properties of the flow admission loops of
    [rest_client/path_hopping/flow_allocation.py]: capacity safety in every
    arithmetic, the accounting of the utilization table, saturation and
    termination. *)

From Stdlib Require Import QArith Qcanon Lqa SpecFloat.
From S2P Require Import Prelude PyDict PyFloat FlowAllocation.

(** * Reserving capacity along hops *)

Definition flow_hops (ps : list path) : list link := concat (sorted_hops <$> ps).

Section reserve.
Context {F : Type} `{PyFloat F}.
Implicit Types (u : dict link F) (rate : res F) (hops : list link).

Lemma reserve_hops_app rate h1 h2 u :
  reserve_hops rate (h1 ++ h2) u =
  ('(b, u') ← reserve_hops rate h1 u;
   if (b : bool) then Ok (true, u') else reserve_hops rate h2 u').
Proof.
  revert u; induction h1 as [|e h1 IH]; intros u; simpl; [done|].
  destruct rate as [r|]; simpl; [|done].
  destruct (Dict.getitem u e); simpl; [|done].
  destruct (flt _ _); simpl; [done|]. apply IH.
Qed.

(** The two nested loops reserve along the concatenation of the paths. *)
Lemma reserve_paths_hops rate ps u :
  reserve_paths rate ps u = reserve_hops rate (flow_hops ps) u.
Proof.
  revert u; induction ps as [|p ps IH]; intros u; simpl; [done|].
  unfold flow_hops in *. simpl. rewrite reserve_hops_app.
  destruct (reserve_hops rate (sorted_hops p) u) as [[[] u']|]; simpl; auto.
Qed.

(** No entry of the table is above the link capacity. *)
Definition within_capacity u : Prop :=
  ∀ e x, (e, x) ∈ u → flt LINK_CAPACITY x = false.

Lemma within_capacity_set u e x :
  within_capacity u → flt LINK_CAPACITY x = false → within_capacity (Dict.set u e x).
Proof. intros Hu Hx e' x' [[-> ->]|Hin]%Dict.elem_of_set; [done|by eapply Hu]. Qed.

Lemma reserve_hops_within rate hops u b u' :
  within_capacity u → reserve_hops rate hops u = Ok (b, u') → within_capacity u'.
Proof.
  revert u; induction hops as [|e hops IH]; intros u Hu; simpl; [by intros [= _ <-]|].
  intros (r & Hr & (x & Hx & Hif)%bind_Ok)%bind_Ok.
  destruct (flt _ _) eqn:E; [by simplify_eq|]. eapply IH; [|exact Hif].
  by apply within_capacity_set.
Qed.

Lemma reserve_hops_keys rate hops u b u' :
  reserve_hops rate hops u = Ok (b, u') → Dict.keys u' = Dict.keys u.
Proof.
  revert u; induction hops as [|e hops IH]; intros u; simpl; [by intros [= _ <-]|].
  intros (r & Hr & (x & Hx%Dict.getitem_Ok & Hif)%bind_Ok)%bind_Ok.
  destruct (flt _ _) eqn:E; [by simplify_eq|]. rewrite (IH _ Hif).
  apply Dict.keys_set_mem. eauto.
Qed.
End reserve.

#[export] Hint Resolve within_capacity_set reserve_hops_within : testbed.

Lemma within_capacity_initial {F} `{PyFloatOrder F} (ks : list link) :
  within_capacity (F:=F) (Dict.of_pairs ((λ e, (e, fzero)) <$> ks)).
Proof.
  unfold Dict.of_pairs. assert (within_capacity (F:=F) []) as Hn by (intros ???; set_solver).
  revert Hn. generalize (@nil (link * F)).
  induction ks as [|k ks IH]; simpl; intros d Hd; [done|].
  apply IH, within_capacity_set; [done|]. apply flt_asym, flt_zero_one.
Qed.

(** * Runs of the greedy loop

    A run is described by the flows it admits one after the other and the
    flow that ends it; the loop function computes a run. *)

Section runs.
Context {F : Type} `{PyFloat F} {RNG : Type}.
Variable np_uniform : F → F → M RNG F.
Variable node_disjoint_paths : Graph → node → node → res (list path).
Variable select : list node → M RNG (node * node).

(** A round that gets as far as reserving: the flow it proposes. *)
Record proposal := mkProposal {
  p_src : node; p_dst : node; p_rate : F; p_paths : list path; p_share : F }.

Definition proposes (g : Graph) (p : proposal) : Prop :=
  node_disjoint_paths g (p_src p) (p_dst p) = Ok (p_paths p) ∧
  fdiv (p_rate p) (f_of_Z (Z.of_nat (length (p_paths p)))) = Ok (p_share p).

Definition flow_of (p : proposal) (share : F) : Flow F :=
  mkFlow (p_src p) (p_dst p) (p_rate p) (Some (p_paths p))
    (Some (replicate (length (p_paths p)) share)).

(** [run g u flows u'] : starting from the table [u] the loop admits [flows]
    and ends with [u']. *)
Inductive run (g : Graph) : dict link F → list (Flow F) → dict link F → Prop :=
  | run_stop u p u' :
      proposes g p →
      reserve_hops (Ok (p_share p)) (flow_hops (p_paths p)) u = Ok (true, u') →
      run g u [] u'
  | run_admit u p share u1 fs u' :
      proposes g p →
      reserve_hops (Ok (p_share p)) (flow_hops (p_paths p)) u = Ok (false, u1) →
      fdiv fone (f_of_Z (Z.of_nat (length (p_paths p)))) = Ok share →
      run g u1 fs u' →
      run g u (flow_of p share :: fs) u'.

Lemma greedy_round_inv g u rng added u' rng' :
  greedy_round np_uniform node_disjoint_paths select g u rng = (Ok (added, u'), rng') →
  ∃ p, proposes g p ∧
    match added with
    | None => reserve_hops (Ok (p_share p)) (flow_hops (p_paths p)) u = Ok (true, u')
    | Some f => ∃ share, f = flow_of p share ∧
        fdiv fone (f_of_Z (Z.of_nat (length (p_paths p)))) = Ok share ∧
        reserve_hops (Ok (p_share p)) (flow_hops (p_paths p)) u = Ok (false, u')
    end.
Proof.
  unfold greedy_round, mbind, M_bind, mret, M_ret, lift. intros Hr.
  destruct (select (nodes g) rng) as [[[s t]|] r1] eqn:Es; simplify_eq.
  destruct (np_uniform _ _ r1) as [[rate|] r2] eqn:Eu; simplify_eq.
  destruct (node_disjoint_paths g s t) as [ps|] eqn:Ep; simplify_eq.
  destruct (fdiv rate _) as [sh|] eqn:Ed; simplify_eq.
  rewrite reserve_paths_hops in Hr.
  exists (mkProposal s t rate ps sh). split; [by split|]. simpl.
  destruct (reserve_hops _ _ _) as [[[] u1]|] eqn:Er; simplify_eq; [done|].
  destruct (fdiv fone _) as [share|] eqn:Ef; simplify_eq. eauto.
Qed.

Lemma greedy_loop_run g fuel u flows rng flows' u' rng' :
  greedy_loop np_uniform node_disjoint_paths select g fuel u flows rng
    = (Ok (Some (flows', u')), rng') →
  ∃ fs, flows' = flows ++ fs ∧ run g u fs u'.
Proof.
  revert u flows rng; induction fuel as [|fuel IH]; intros u flows rng; simpl; [done|].
  unfold mbind, M_bind, mret, M_ret.
  destruct (greedy_round _ _ _ _ _ _) as [[[added u1]|] r1] eqn:Er; [|done].
  apply greedy_round_inv in Er as (p & Hp & Hadd). destruct added as [f|].
  - destruct Hadd as (share & -> & Hs & Hres). intros (fs & -> & Hrun)%IH.
    exists (flow_of p share :: fs). split; [by rewrite <-(assoc_L (++))|].
    by econstructor.
  - intros [= <- <- _]. exists []. rewrite app_nil_r. split; [done|]. by econstructor.
Qed.

Lemma run_within g u fs u' : run g u fs u' → within_capacity u → within_capacity u'.
Proof. induction 1; eauto with testbed. Qed.

Lemma run_keys g u fs u' : run g u fs u' → Dict.keys u' = Dict.keys u.
Proof.
  induction 1 as [u p u' _ Hr|u p share u1 fs u' _ Hr _ _ IH].
  - by eapply reserve_hops_keys.
  - rewrite IH. by eapply reserve_hops_keys.
Qed.

Lemma run_flows g u fs u' :
  run g u fs u' → Forall (λ f, ∃ ps, paths f = Some ps ∧
    node_disjoint_paths g (source_node f) (destination_node f) = Ok ps ∧
    ∃ share, splitting_ratio f = Some (replicate (length ps) share) ∧
             fdiv fone (f_of_Z (Z.of_nat (length ps))) = Ok share) fs.
Proof.
  induction 1 as [|u p share u1 fs u' [Hp _] _ Hs _ IH]; constructor; [|done].
  exists (p_paths p). split_and!; [done..|]. simpl. eauto.
Qed.
End runs.
Arguments proposal F : clear implicits.

(** * Accounting in exact arithmetic *)

(** How often a hop list uses a link. *)
Definition hop_count (e : link) (hops : list link) : nat := length (filter (.= e) hops).
Lemma hop_count_cons e e' hops :
  hop_count e (e' :: hops) = (if decide (e' = e) then 1 else 0) + hop_count e hops.
Proof. unfold hop_count. rewrite filter_cons. by case_decide. Qed.

Lemma hop_count_app e h1 h2 : hop_count e (h1 ++ h2) = hop_count e h1 + hop_count e h2.
Proof. unfold hop_count. by rewrite filter_app, length_app. Qed.

(** The part of a reservation that was carried out: everything, or the hops
    before the first one that does not fit. *)
Lemma reserve_hops_exact (r : Qc) hops (u : dict link Qc) b u' :
  reserve_hops (Ok r) hops u = Ok (b, u') →
  ∃ done rest, hops = done ++ rest ∧
    (∀ e x, Dict.get u e = Some x →
       Dict.get u' e = Some (x + r * Qc_of_nat (hop_count e done))%Qc) ∧
    match b with
    | false => rest = []
    | true => ∃ e0 rest' x0, rest = e0 :: rest' ∧ Dict.get u' e0 = Some x0 ∧
                (LINK_CAPACITY < x0 + r)%Qc
    end.
Proof.
  revert u; induction hops as [|e hops IH]; intros u; cbn [reserve_hops].
  { intros [= <- <-]. exists [], []. split_and!; [done| |done].
    intros e x ->. f_equal. change (hop_count _ []) with 0. rewrite Qc_of_nat_0. qc_lra. }
  intros (r' & [= <-] & (x & Hx%Dict.getitem_Ok & Hif)%bind_Ok)%bind_Ok.
  destruct (flt LINK_CAPACITY (fadd x r)) eqn:E.
  { injection Hif as <- <-. exists [], (e :: hops). split_and!; [done| |].
    - intros e' y Hy. rewrite Hy. f_equal. change (hop_count _ []) with 0. rewrite Qc_of_nat_0. qc_lra.
    - exists e, hops, x. split_and!; [done..|]. by apply flt_exact_true. }
  apply IH in Hif as (dn & rest & -> & Hget & Hb).
  exists (e :: dn), rest. split_and!; [done| |done].
  intros e' y Hy. rewrite hop_count_cons. destruct (decide (e = e')) as [->|Hne].
  - assert (y = x) as -> by congruence.
    rewrite (Hget e' (fadd x r)) by apply Dict.get_set_eq. f_equal.
    rewrite Qc_of_nat_S. qc_nra.
  - rewrite (Hget e' y) by (by rewrite Dict.get_set_ne). done.
Qed.

(** ** Accounting of a whole run *)

(** What one admitted flow puts on a link: its rate divided by the number of
    its paths, once for each hop that uses the link. *)
Definition flow_load (e : link) (f : Flow Qc) : Qc :=
  let ps := default [] (paths f) in
  (flow_tx_rate f / f_of_Z (Z.of_nat (length ps)) * Qc_of_nat (hop_count e (flow_hops ps)))%Qc.

(** The reservations of a flow that was given up half way. *)
Definition residual_load (e : link) (share : Qc) (reserved : list link) : Qc :=
  (share * Qc_of_nat (hop_count e reserved))%Qc.

Lemma run_accounting (ndp : Graph → node → node → res (list path)) g u fs u' :
  run ndp g u fs u' →
  ∃ p reserved e0 rest x0,
    proposes ndp g p ∧ flow_hops (p_paths p) = reserved ++ e0 :: rest ∧
    (∀ e x, Dict.get u e = Some x →
       Dict.get u' e = Some (x + fsum (flow_load e <$> fs)
                             + residual_load e (p_share p) reserved)%Qc) ∧
    Dict.get u' e0 = Some x0 ∧ (LINK_CAPACITY < x0 + p_share p)%Qc.
Proof.
  induction 1 as [u p u' Hp Hr|u p share u1 fs u' Hp Hr Hs _ IH].
  - apply reserve_hops_exact in Hr as (dn & rest & Hh & Hget & e0 & rest' & x0 & -> & Hx0 & Hlt).
    exists p, dn, e0, rest', x0. split_and!; [done..| |done|done].
    intros e x Hx. rewrite (Hget e x Hx). f_equal. simpl. rewrite fsum_nil.
    unfold residual_load. qc_lra.
  - destruct IH as (q & dn & e0 & rest & x0 & Hq & Hh & Hget & Hx0 & Hlt).
    exists q, dn, e0, rest, x0. split_and!; [done..| |done|done].
    intros e x Hx.
    apply reserve_hops_exact in Hr as (dn' & rest' & Hh' & Hget' & ->).
    rewrite app_nil_r in Hh'. subst dn'.
    rewrite (Hget e _ (Hget' e x Hx)). f_equal. rewrite fmap_cons, fsum_cons.
    assert (flow_load e (flow_of p share)
            = p_share p * Qc_of_nat (hop_count e (flow_hops (p_paths p))))%Qc as ->.
    { destruct Hp as [_ [-> _]%fdiv_exact]. done. }
    ring.
Qed.

(** ** The total reservation grows with every admitted flow *)

Lemma total_set (u : dict link Qc) e x r :
  Dict.get u e = Some x →
  fsum (Dict.values (Dict.set u e (x + r)%Qc)) = (fsum (Dict.values u) + r)%Qc.
Proof.
  induction u as [|[k v] u IH]; cbn [Dict.get Dict.set]; [done|]. unfold Dict.values in *.
  case_decide; intros Hx; rewrite !fmap_cons, !fsum_cons; cbn [fst snd].
  - injection Hx as ->. ring.
  - rewrite IH by done. ring.
Qed.

Lemma reserve_hops_total r hops (u : dict link Qc) u' :
  reserve_hops (Ok r) hops u = Ok (false, u') →
  fsum (Dict.values u') = (fsum (Dict.values u) + r * Qc_of_nat (length hops))%Qc.
Proof.
  revert u; induction hops as [|e hops IH]; intros u; cbn [reserve_hops length].
  { intros [= <-]. rewrite Qc_of_nat_0. qc_lra. }
  intros (r' & [= <-] & (x & Hx%Dict.getitem_Ok & Hif)%bind_Ok)%bind_Ok.
  destruct (flt _ _); [done|]. rewrite (IH _ Hif).
  change (fadd x r) with (x + r)%Qc. rewrite total_set, Qc_of_nat_S by done. qc_nra.
Qed.

Lemma reserve_hops_ok {F} `{PyFloat F} (r : F) hops u :
  Forall (λ e, e ∈ Dict.keys u) hops → ∃ b u', reserve_hops (Ok r) hops u = Ok (b, u').
Proof.
  revert u; induction hops as [|e hops IH]; intros u; simpl; [eauto|].
  intros [[x Hx]%Dict.elem_of_keys Hall]%Forall_cons.
  rewrite (proj2 (Dict.getitem_Ok _ _ _) Hx). simpl. destruct (flt _ _); [eauto|].
  apply IH. rewrite Dict.keys_set_mem by eauto. done.
Qed.

Lemma total_within (u : dict link Qc) :
  within_capacity u → (fsum (Dict.values u) <= Qc_of_nat (length u))%Qc.
Proof.
  induction u as [|[k v] u IH]; intros Hu; unfold Dict.values in *.
  { change (fzero <= fzero)%Qc. qc_lra. }
  rewrite fmap_cons, fsum_cons. cbn [length snd]. rewrite Qc_of_nat_S.
  assert (v <= LINK_CAPACITY)%Qc as Hv by (apply flt_exact_false; eapply Hu; left).
  assert (fsum u.*2 <= Qc_of_nat (length u))%Qc by (apply IH; intros e x ?; eapply Hu; by right).
  unfold LINK_CAPACITY in Hv. qc_lra.
Qed.

Lemma flow_hops_length ps :
  Forall (λ p, 2 ≤ length p) ps → length ps ≤ length (flow_hops ps).
Proof.
  induction 1 as [|p ps Hp _ IH]; [done|].
  change (flow_hops (p :: ps)) with (sorted_hops p ++ flow_hops ps).
  cbn [length]. rewrite length_app. unfold sorted_hops. rewrite length_fmap, pairwise_length. lia.
Qed.

(** * Termination of the greedy loop *)

Section termination.
Context {RNG : Type}.
Variable np_seed : Z → RNG.
Variable np_uniform : Qc → Qc → M RNG Qc.
Variable node_disjoint_paths : Graph → node → node → res (list path).
Variable select : list node → M RNG (node * node).
Variable g : Graph.

(** [numpy]'s uniform draw is in the half open interval; only its lower end
    matters here. *)
Hypothesis uniform_range : ∀ lo hi rng, ∃ r rng',
  np_uniform lo hi rng = (Ok r, rng') ∧ (lo <= r)%Qc.

(** The selection draws two different nodes of the graph. *)
Hypothesis select_pair : ∀ rng, ∃ s t rng',
  select (nodes g) rng = (Ok (s, t), rng') ∧ s ∈ nodes g ∧ t ∈ nodes g ∧ s ≠ t.

(** Between two different nodes there is at least one path, every path has
    both end points and runs along edges of the graph. *)
Hypothesis paths_exist : ∀ s t, s ∈ nodes g → t ∈ nodes g → s ≠ t → ∃ ps,
  node_disjoint_paths g s t = Ok ps ∧ ps ≠ [] ∧
  Forall (λ p, 2 ≤ length p ∧ Forall (λ h, sorted_pair h ∈ sorted_pair <$> edges g) (pairwise p)) ps.

Lemma fdiv_of_nat (a : Qc) n :
  0 < n → fdiv a (f_of_Z (Z.of_nat n)) = Ok (a / Qc_of_nat n)%Qc.
Proof.
  intros Hn%Qc_of_nat_pos. unfold fdiv. fold (Qc_of_nat n).
  destruct (feq (Qc_of_nat n) fzero) eqn:E; [|done].
  apply feq_exact_true in E. rewrite E in Hn. qc_lra.
Qed.

(** The hops of the paths of a flow are worth at least the flow's rate. *)
Lemma share_times_hops (rate : Qc) n m :
  0 < n → n ≤ m → (fzero <= rate)%Qc → (rate <= rate / Qc_of_nat n * Qc_of_nat m)%Qc.
Proof.
  intros Hn Hnm Hrate. pose proof (Qc_of_nat_pos n Hn) as Hpos.
  assert (rate = rate / Qc_of_nat n * Qc_of_nat n)%Qc as Heq.
  { field. intros Hz. apply (Qclt_not_eq _ _ Hpos). by rewrite Hz. }
  rewrite Heq at 1. rewrite !(Qcmult_comm (rate / _)%Qc).
  apply Qcmult_le_compat_r; [by apply Qc_of_nat_le|].
  unfold Qcdiv. rewrite <-(Qcmult_0_l (/ Qc_of_nat n)%Qc).
  apply Qcmult_le_compat_r; [exact Hrate|]. apply Qclt_le_weak.
  unfold Qclt in *. rewrite this_inv. by apply Qinv_lt_0_compat.
Qed.

Lemma hops_in_table ps (u : dict link Qc) :
  Forall (λ p, 2 ≤ length p ∧ Forall (λ h, sorted_pair h ∈ sorted_pair <$> edges g) (pairwise p)) ps →
  Dict.keys u = Dict.keys (initial_utilization (F:=Qc) g) →
  Forall (λ e, e ∈ Dict.keys u) (flow_hops ps).
Proof.
  intros Hps ->. unfold flow_hops. induction Hps as [|p ps [_ Hp] _ IH]; [constructor|].
  rewrite fmap_cons. cbn [concat]. apply Forall_app. split; [|done].
  apply Forall_fmap. eapply Forall_impl; [exact Hp|]. intros h Hh. simpl.
  apply Dict.elem_of_keys_of_pairs. rewrite <-list_fmap_compose. exact Hh.
Qed.

(** One round: it ends the loop, or it adds a flow and at least a tenth of a
    link to the total reservation. *)
Lemma greedy_round_progress u rng :
  Dict.keys u = Dict.keys (initial_utilization (F:=Qc) g) →
  ∃ added u' rng',
    greedy_round np_uniform node_disjoint_paths select g u rng = (Ok (added, u'), rng') ∧
    (added = None ∨ (fsum (Dict.values u) + FLOW_TX_RATE_LOWER_BOUND <= fsum (Dict.values u'))%Qc).
Proof.
  intros Hk. unfold greedy_round, mbind, M_bind, mret, M_ret, lift.
  destruct (select_pair rng) as (s & t & r1 & -> & Hs & Ht & Hne).
  destruct (uniform_range FLOW_TX_RATE_LOWER_BOUND FLOW_TX_RATE_UPPER_BOUND r1)
    as (rate & r2 & -> & Hrate).
  destruct (paths_exist s t Hs Ht Hne) as (ps & -> & Hps & Hall).
  assert (0 < length ps) as Hn by (destruct ps; [done|simpl; lia]).
  rewrite fdiv_of_nat by done. rewrite reserve_paths_hops.
  destruct (reserve_hops_ok (rate / Qc_of_nat (length ps))%Qc (flow_hops ps) u)
    as (b & u' & Hr); [by apply hops_in_table|]. rewrite Hr.
  destruct b; [eauto 10|]. rewrite fdiv_of_nat by done. do 3 eexists. split; [done|]. right.
  rewrite (reserve_hops_total _ _ _ _ Hr).
  pose proof (share_times_hops rate _ _ Hn (flow_hops_length ps ltac:(
    eapply Forall_impl; [exact Hall|]; naive_solver))) as Hsh.
  unfold FLOW_TX_RATE_LOWER_BOUND in *.
  assert (fzero <= rate)%Qc as H0 by qc_lra. specialize (Hsh H0).
  generalize dependent (rate / Qc_of_nat (length ps) * Qc_of_nat (length (flow_hops ps)))%Qc.
  intros. qc_lra.
Qed.

Lemma greedy_loop_terminates fuel u flows rng :
  Dict.keys u = Dict.keys (initial_utilization (F:=Qc) g) → within_capacity u →
  (Qc_of_nat (length u) < fsum (Dict.values u) + FLOW_TX_RATE_LOWER_BOUND * Qc_of_nat fuel)%Qc →
  ∃ flows' u' rng',
    greedy_loop np_uniform node_disjoint_paths select g fuel u flows rng
      = (Ok (Some (flows', u')), rng').
Proof.
  revert u flows rng. induction fuel as [|fuel IH]; intros u flows rng Hk Hw Hfuel.
  { pose proof (total_within u Hw). rewrite Qc_of_nat_0 in Hfuel. qc_lra. }
  cbn [greedy_loop]. unfold mbind, M_bind, mret, M_ret.
  destruct (greedy_round_progress u rng Hk) as (added & u' & rng' & Hround & Hadd).
  rewrite Hround. destruct added as [f|]; [|eauto].
  destruct Hadd as [|Hadd]; [done|].
  apply greedy_round_inv in Hround as (p & _ & share & _ & _ & Hres).
  apply IH.
  - by rewrite (reserve_hops_keys _ _ _ _ _ Hres).
  - by eapply reserve_hops_within.
  - assert (length u' = length u) as ->.
    { pose proof (f_equal length (reserve_hops_keys _ _ _ _ _ Hres)) as Hl.
      unfold Dict.keys in Hl. by rewrite !length_fmap in Hl. }
    rewrite Qc_of_nat_S in Hfuel. unfold FLOW_TX_RATE_LOWER_BOUND in *. qc_lra.
Qed.
End termination.

(** * The properties of [compute_greedy_flow_allocations] *)

Section greedy.
Context {F : Type} `{PyFloat F} {RNG : Type}.
Variable np_seed : Z → RNG.
Variable np_uniform : F → F → M RNG F.
Variable node_disjoint_paths : Graph → node → node → res (list path).
Variable select : list node → M RNG (node * node).

Lemma seed_run n (rng : RNG) : (0 ≤ n < 2 ^ 32)%Z → np_random_seed np_seed n rng = (Ok tt, np_seed n).
Proof. intros Hn. unfold np_random_seed. by rewrite bool_decide_true. Qed.

Lemma compute_greedy_run fuel g seed rng flows u rng' :
  compute_greedy_flow_allocations np_seed np_uniform node_disjoint_paths fuel g select seed rng
    = (Ok (Some (flows, u)), rng') →
  run node_disjoint_paths g (initial_utilization g) flows u.
Proof.
  intros ([] & r0 & _ & (fs & -> & Hrun)%greedy_loop_run)%bindS_Ok. done.
Qed.

Lemma initial_utilization_zero g e x :
  Dict.get (initial_utilization (F:=F) g) e = Some x → x = fzero.
Proof.
  intros Hin%Dict.get_elem_of. revert Hin. unfold initial_utilization, Dict.of_pairs.
  cut (∀ d : dict link F, (∀ y, (e, y) ∈ d → y = fzero) →
    (e, x) ∈ foldl (λ d kv, Dict.set d kv.1 kv.2) d ((λ e, (sorted_pair e, fzero)) <$> edges g) →
    x = fzero); [intros Hc; apply Hc; intros y; set_solver|].
  induction (edges g) as [|e' es IH]; simpl; intros d Hd; [apply Hd|].
  apply IH. intros y [[_ ->]|Hin]%Dict.elem_of_set; [done|by apply Hd].
Qed.
End greedy.


(** Two nodes, one link, every draw [2/5]: two flows are admitted. *)
Definition tiny_graph : Graph := mkGraph [1; 2]%Z [(2, 1)]%Z.
Definition tiny_select {RNG} : list node → M RNG (node * node) := λ _, mret (1, 2)%Z.
Definition tiny_uniform {F} `{PyFloat F} {RNG} (_ _ : F) : M RNG F := mret (flit 2 5).
Definition low_uniform {F} {RNG} (lo _ : F) : M RNG F := mret lo.
Definition tiny_paths (_ : Graph) (s t : node) : res (list path) := Ok [[s; t]].
Definition tiny_flow : Flow Qc :=
  mkFlow 1%Z 2%Z (flit 2 5) (Some [[1; 2]%Z]) (Some [flit 1 1]).


(** C20: The books balance, in exact arithmetic: after the loop ends the
    utilization of each link is the sum, over the admitted flows, of the
    flow's rate divided by the number of its paths for each of its hops on
    the link, plus what the rejected last flow had already reserved when one
    of its hops did not fit. That hop shows the network is saturated: the
    rejected share would take its link over the capacity. *)
Theorem greedy_accounting {RNG}
    (np_seed : Z → RNG) np_uniform node_disjoint_paths select fuel g seed rng flows u rng' :
  compute_greedy_flow_allocations (F:=Qc) np_seed np_uniform node_disjoint_paths fuel g select seed rng
    = (Ok (Some (flows, u)), rng') →
  ∃ p reserved e0 rest x0,
    proposes node_disjoint_paths g p ∧
    flow_hops (p_paths p) = reserved ++ e0 :: rest ∧
    (∀ e, e ∈ sorted_pair <$> edges g →
       Dict.get u e = Some (fsum (flow_load e <$> flows)
                            + residual_load e (p_share p) reserved)%Qc) ∧
    Dict.get u e0 = Some x0 ∧ (LINK_CAPACITY < x0 + p_share p)%Qc.
Proof.
  intros Hrun%compute_greedy_run.
  apply run_accounting in Hrun as (p & dn & e0 & rest & x0 & Hp & Hh & Hget & Hx0 & Hlt).
  exists p, dn, e0, rest, x0. split_and!; [done..| |done|done].
  intros e He. assert (e ∈ Dict.keys (initial_utilization (F:=Qc) g)) as [x Hx]%Dict.elem_of_keys.
  { unfold initial_utilization. by rewrite Dict.elem_of_keys_of_pairs, <-list_fmap_compose. }
  rewrite (Hget e x Hx). apply initial_utilization_zero in Hx as ->.
  f_equal. by rewrite exact_add_0_l.
Qed.

Lemma greedy_accounting_witness :
  ∃ p reserved e0 rest x0,
    proposes tiny_paths tiny_graph p ∧
    flow_hops (p_paths p) = reserved ++ e0 :: rest ∧
    (∀ e, e ∈ sorted_pair <$> edges tiny_graph →
       Dict.get [((1, 2)%Z, flit (F:=Qc) 4 5)] e =
       Some (fsum (flow_load e <$> [tiny_flow; tiny_flow])
             + residual_load e (p_share p) reserved)%Qc) ∧
    Dict.get [((1, 2)%Z, flit (F:=Qc) 4 5)] e0 = Some x0 ∧ (LINK_CAPACITY < x0 + p_share p)%Qc.
Proof.
  apply (greedy_accounting id tiny_uniform tiny_paths tiny_select 4 tiny_graph
           DEFAULT_SEED_NUMBER 0%Z _ _ DEFAULT_SEED_NUMBER).
  vm_compute. qc_eq.
Defined.



(** In exact arithmetic the splitting ratios of every admitted flow sum
    to one and there is one ratio per path. *)
Theorem greedy_ratios_sum_to_one {RNG}
    (np_seed : Z → RNG) np_uniform node_disjoint_paths select fuel g seed rng flows u rng' :
  compute_greedy_flow_allocations (F:=Qc) np_seed np_uniform node_disjoint_paths fuel g select seed rng
    = (Ok (Some (flows, u)), rng') →
  Forall (λ f, ∃ ps ratios, paths f = Some ps ∧ splitting_ratio f = Some ratios ∧
    length ratios = length ps ∧ fsum ratios = fone) flows.
Proof.
  intros Hrun%compute_greedy_run%run_flows. eapply Forall_impl; [exact Hrun|].
  intros f (ps & Hps & _ & share & Hs & [-> Hne]%fdiv_exact). exists ps. eexists.
  split_and!; [done..|apply length_replicate|]. rewrite fsum_replicate.
  change (fone / Qc_of_nat (length ps) * Qc_of_nat (length ps) = fone)%Qc. field. exact Hne.
Qed.

Lemma greedy_ratios_sum_to_one_witness :
  let r := compute_greedy_flow_allocations (F:=Qc) id tiny_uniform tiny_paths
             4 tiny_graph tiny_select DEFAULT_SEED_NUMBER 0%Z in
  ∃ flows u rng', r = (Ok (Some (flows, u)), rng') ∧ length flows = 2 ∧
    Forall (λ f, ∃ ps ratios, paths f = Some ps ∧ splitting_ratio f = Some ratios ∧
      length ratios = length ps ∧ fsum ratios = fone) flows.
Proof.
  do 3 eexists. split; [vm_compute; reflexivity|]. split; [done|].
  refine (greedy_ratios_sum_to_one id tiny_uniform tiny_paths
    tiny_select 4 tiny_graph DEFAULT_SEED_NUMBER 0%Z _ _ _ _).
  vm_compute. reflexivity.
Defined.

(** * The other allocations *)

(** The reservations of the rejected flow are not undone: on the line
    [1 - 2 - 3], after two flows from 2 to 3 a flow from 1 to 3 is rejected
    at its second hop; no admitted flow uses the link [(1, 2)], which is
    reported as used. The random state counts the selections. *)
Definition line_graph : Graph := mkGraph [1; 2; 3]%Z [(1, 2); (2, 3)]%Z.
Definition line_select : list node → M Z (node * node) := λ _ n,
  (Ok (if bool_decide (n < 2)%Z then (2, 3)%Z else (1, 3)%Z), (n + 1)%Z).
Definition line_paths (_ : Graph) (s t : node) : res (list path) :=
  Ok [if bool_decide (s = 1 ∧ t = 3)%Z then [1; 2; 3]%Z else [s; t]].

Lemma greedy_keeps_rejected_reservations : ∃ flows u rng' x,
  compute_greedy_flow_allocations (F:=Qc) (λ _, 0%Z) tiny_uniform line_paths 4 line_graph
    line_select DEFAULT_SEED_NUMBER 0%Z = (Ok (Some (flows, u)), rng') ∧
  fsum (flow_load (1, 2)%Z <$> flows) = fzero ∧
  Dict.get u (1, 2)%Z = Some x ∧ x = flit 2 5.
Proof.
  do 4 eexists. split; [vm_compute; reflexivity|].
  split_and!; [by apply Qc_is_canon; vm_compute|done|by apply Qc_is_canon; vm_compute].
Qed.

(** The module defines no [flow_selection_fn], so the path hopping
    allocation raises before it selects a flow. *)
Lemma path_hopping_allocation_undefined_name {F} `{PyFloat F} {RNG}
    (np_seed : Z → RNG) all_simple_paths fuel g K rng :
  compute_path_hopping_flow_allocations (F:=F) np_seed all_simple_paths None fuel g K rng
    = (Raise NameError, np_seed DEFAULT_SEED_NUMBER).
Proof. done. Qed.

Lemma elem_of_other_nodes g n m : m ∈ other_nodes g n ↔ m ∈ nodes g ∧ m ≠ n.
Proof. unfold other_nodes. rewrite list_elem_of_filter. naive_solver. Qed.

Section equal.
Context {F : Type} `{PyFloat F} {RNG : Type}.
Variable np_seed : Z → RNG.
Variable np_choice : list node → nat → M RNG (list node).
Variable all_simple_paths : Graph → node → node → nat → res (list path).
Variable shortest_path : Graph → node → node → res path.

Lemma k_shortest_Ok g s t K ps :
  k_shortest all_simple_paths g s t K = Ok ps →
  ∃ qs, all_simple_paths g s t 3 = Ok qs ∧ length ps = min K (length qs) ∧
    StronglySorted (λ p q, length p ≤ length q) ps ∧
    ∃ dropped, ps ++ dropped ≡ₚ qs ∧
      (∀ p q, p ∈ ps → q ∈ dropped → length p ≤ length q).
Proof.
  unfold k_shortest. intros (qs & Hqs & [= <-])%bind_Ok. exists qs. split; [done|].
  set (key := λ p : path, Z.of_nat (length p)).
  pose proof (sorted_by_perm key qs) as Hp. pose proof (sorted_by_sorted key qs) as Hs.
  split; [by rewrite length_take, Hp|].
  rewrite <-(take_drop K (sorted_by key qs)) in Hs.
  apply StronglySorted_app in Hs as (Hcross & Hl & _). split.
  - eapply StronglySorted_impl; [|exact Hl]. unfold key. intros; simpl in *; lia.
  - exists (drop K (sorted_by key qs)). rewrite take_drop. split; [done|].
    intros p q Hin1 Hin2. specialize (Hcross p q Hin1 Hin2). unfold key in Hcross. simpl in *; lia.
Qed.

Lemma equal_allocation_loop_spec g K ns flows rng flows' rng' :
  equal_allocation_loop np_choice all_simple_paths g K ns flows rng = (Ok flows', rng') →
  ∃ fs, flows' = flows ++ fs ∧
    Forall2 (λ n (f : Flow F), source_node f = n ∧ flow_tx_rate f = flit 10 1 ∧
      (∃ r r', np_choice (other_nodes g n) 1 r = (Ok [destination_node f], r')) ∧
      ∃ ps, paths f = Some ps ∧ k_shortest all_simple_paths g n (destination_node f) K = Ok ps) ns fs.
Proof.
  revert flows rng; induction ns as [|n ns IH]; intros flows rng; cbn [equal_allocation_loop].
  { intros [= <- _]. exists []. rewrite app_nil_r. split; [done|constructor]. }
  unfold choose_one, mbind, M_bind, lift, mret, M_ret.
  destruct (np_choice _ 1 rng) as [[[|t [|]]|] r1] eqn:Ec; try done.
  destruct (k_shortest _ g n t K) as [ps|] eqn:Ek; [|done].
  destruct (fdiv _ _) as [share|]; [|done].
  intros (fs & -> & Hfs)%IH. eexists (_ :: fs). split; [by rewrite <-(assoc_L (++))|].
  constructor; [|done]. simpl. split_and!; eauto.
Qed.
End equal.

(** [compute_equal_flow_allocations] returns exactly one flow per node,
    in node order. Each flow goes to another node of the graph, and its
    paths are the [K] shortest of the simple paths with at most three hops
    (all of them when there are fewer), shortest first. *)
Theorem equal_allocation_one_flow_per_node {F} `{PyFloat F} {RNG}
    (np_seed : Z → RNG) np_choice all_simple_paths g K rng flows rng' :
  (∀ l r x r', np_choice l 1 r = (Ok [x], r') → x ∈ l) →
  compute_equal_flow_allocations np_seed np_choice all_simple_paths g K rng
    = (Ok (0xDEADBEEF%Z, flows), rng') →
  Forall2 (λ n (f : Flow F), source_node f = n ∧ destination_node f ∈ nodes g ∧
    destination_node f ≠ n ∧
    ∃ ps qs dropped, paths f = Some ps ∧
      all_simple_paths g n (destination_node f) 3 = Ok qs ∧
      length ps = min K (length qs) ∧ ps ++ dropped ≡ₚ qs ∧
      StronglySorted (λ p q, length p ≤ length q) ps ∧
      (∀ p q, p ∈ ps → q ∈ dropped → length p ≤ length q)) (nodes g) flows.
Proof.
  intros Hc. intros ([] & ra & _ & (fs & rb & E & [= -> _])%bindS_Ok)%bindS_Ok. apply equal_allocation_loop_spec in E as (? & -> & Hall).
  eapply Forall2_impl; [exact Hall|].
  intros n f (-> & _ & (r1 & r2 & Hd%Hc%elem_of_other_nodes) & ps & Hps & Hk).
  apply k_shortest_Ok in Hk as (qs & Hqs & Hlen & Hs & dropped & Hp & Hle).
  naive_solver.
Qed.

Definition first_choice {RNG} (l : list node) (n : nat) : M RNG (list node) := mret (take n l).
Definition line_simple_paths (_ : Graph) (s t : node) (_ : nat) : res (list path) :=
  Ok [[s; 2; t]; [s; t]]%Z.

Lemma equal_allocation_one_flow_per_node_witness :
  let r := compute_equal_flow_allocations (F:=Qc) id first_choice line_simple_paths line_graph 1 0%Z in
  ∃ flows, r = (Ok (0xDEADBEEF%Z, flows), 0xDEADBEEF%Z) ∧
    Forall2 (λ n (f : Flow Qc), source_node f = n) (nodes line_graph) flows.
Proof.
  eexists. split; [vm_compute; reflexivity|].
  eapply Forall2_impl; [eapply (equal_allocation_one_flow_per_node (F:=Qc) id first_choice
    line_simple_paths line_graph 1 0%Z)|].
  - unfold first_choice, mret, M_ret. intros [|y l] r x r'; simpl; [done|].
    intros [= <- _]. left.
  - vm_compute. reflexivity.
  - by intros n f [? _].
Defined.
