(* ===== verification/Routes.v ===== *)
(** From link splitting ratios to routes: the second half of
    [rest_client/path_hopping/flow_allocation.py].

    The multi-commodity-flow solver returns, for every flow and every
    directed link, the share of the flow on the link ([F], a dictionary keyed
    by flow index and link end points). [traverse_graph_iterative] expands it
    breadth first into paths; [traverse_graph] is its recursive predecessor;
    [compute_mcf_flow_routes] does it for all flows.

    The theorems: the breadth first search terminates on every input, also
    with cycles (fuel [(n+1)^n] for a table of [n] entries is enough), and
    returns exactly the loop free routes along links with a ratio above the
    threshold, each with the smallest ratio on it. *)

From Stdlib Require Import QArith Qcanon Lqa.
From S2P Require Import Prelude PyDict PyFloat FlowAllocation.

Section routes.
Context {F : Type} `{PyFloat F}.

Abbreviation ratios := (dict (Z * Z * Z) F).
Implicit Types (R : ratios) (f s t u v : Z) (sr : F).

(** The literal [0.001]. *)
Definition RATIO_THRESHOLD : F := flit 1 1000.

(** [get_paths_for_flow]: the outgoing links of flow [f] at node [s]. *)
Definition get_paths_for_flow R s f : list (link * F) :=
  omap (λ kv : (Z * Z * Z) * F,
    let '((flow_id, u, v), split_ratio) := kv in
    if bool_decide (flow_id = f) && bool_decide (u = s) && flt RATIO_THRESHOLD split_ratio
    then Some ((u, v), split_ratio) else None) R.

(** [traverse_graph]; the fuel is Python's recursion limit and [None] its
    [RecursionError]. The argument [s] is passed along and not used. *)
Fixpoint traverse_graph (fuel : nat) R f s t u sr : option (list (path * F)) :=
  match fuel with
  | 0 => None
  | S fuel =>
      if bool_decide (u = t) then Some [([t], sr)]
      else
        paths_to_t ← foldl (λ acc (l : link * F),
          let '((_, next_hop), split_ratio) := l in
          paths_to_t ← acc;
          more ← traverse_graph fuel R f s t next_hop split_ratio;
          Some (paths_to_t ++ more)) (Some []) (get_paths_for_flow R u f);
        Some ((λ p : path * F, (u :: p.1, p.2)) <$> paths_to_t)
  end.

(** The body of the loop over [next_hops]: the extended lists of found and
    of incomplete paths. *)
Definition extend_path t (current_path : path) (current_sr : F)
    (st : list (path * F) * list (path * F)) (hop : link * F)
    : list (path * F) * list (path * F) :=
  let '(found, incomplete) := st in
  let '((_, v), sr) := hop in
  if list_mem v current_path then st
  else
    let new_path := current_path ++ [v] in
    let new_sr := if flt sr current_sr then sr else current_sr in
    if bool_decide (v = t) then (found ++ [(new_path, new_sr)], incomplete)
    else (found, incomplete ++ [(new_path, new_sr)]).

(** The [while] loop. [Ok None] is exhausted fuel. *)
Fixpoint traverse_loop (fuel : nat) R f t (found incomplete : list (path * F))
    : res (option (list (path * F))) :=
  match incomplete with
  | [] => Ok (Some found)
  | (current_path, current_sr) :: rest =>
      match fuel with
      | 0 => Ok None
      | S fuel =>
          node ← py_index current_path (-1);
          let '(found', incomplete') :=
            foldl (extend_path t current_path current_sr) (found, rest)
              (get_paths_for_flow R node f) in
          traverse_loop fuel R f t found' incomplete'
      end
  end.

(** The fuel that is always enough. *)
Definition traverse_fuel R : nat := S (length R) ^ length R.

Definition traverse_graph_iterative R f s t : res (option (list (path * F))) :=
  traverse_loop (traverse_fuel R) R f t [] [([s], fone)].

(** [compute_mcf_flow_routes]: one flow per flow index of the table. The
    warning it prints when the ratios do not add up is left out. *)
Definition flow_selector (k : Z * Z * Z) : Z := k.1.1.

Definition with_routes (the_flow : Flow F) (routes : list (path * F)) : Flow F :=
  mkFlow (source_node the_flow) (destination_node the_flow) (flow_tx_rate the_flow)
    (Some routes.*1) (Some routes.*2).

Definition route_flow R (flows : list (Flow F)) (flow_idx : Z) : res (option (Flow F)) :=
  py_index flows flow_idx ≫= λ the_flow,
  traverse_graph_iterative R flow_idx (source_node the_flow) (destination_node the_flow)
    ≫= λ routes : option (list (path * F)), Ok (with_routes the_flow <$> routes).

Definition compute_mcf_flow_routes (flows : list (Flow F)) R : res (list (option (Flow F))) :=
  let list_of_keys := sorted_by flow_selector (Dict.keys R) in
  mapR (λ g, route_flow R flows g.1) (groupby flow_selector list_of_keys).

(** [do_f_sanity_checks]: the two sums it prints for every flow. *)
Definition do_f_sanity_checks (flows : list (Flow F)) R : res (list (F * F)) :=
  let list_of_keys := sorted_by flow_selector (Dict.keys R) in
  mapR (λ g : Z * list (Z * Z * Z),
    the_flow ← py_index flows g.1;
    egress ← mapR (Dict.getitem R) (filter (λ k, k.1.2 = source_node the_flow) g.2);
    ingress ← mapR (Dict.getitem R) (filter (λ k, k.2 = destination_node the_flow) g.2);
    Ok (fsum egress, fsum ingress)) (groupby flow_selector list_of_keys).

(** * The specification: loop free routes *)

(** A usable link of flow [f]. *)
Definition usable R f u v sr : Prop :=
  ((f, u, v), sr) ∈ R ∧ flt RATIO_THRESHOLD sr = true.

Definition fmin (a b : F) : F := if flt a b then a else b.

(** A loop free route from [s] that has not met [t] after its start. *)
Inductive partial R f s t : path → F → Prop :=
  | partial_start : partial R f s t [s] fone
  | partial_step p r u v sr :
      partial R f s t p r → last p = Some u → usable R f u v sr →
      v ∉ p → v ≠ t → partial R f s t (p ++ [v]) (fmin sr r).

(** ... and one that has just reached it. *)
Definition complete R f s t (p : path) (r : F) : Prop :=
  ∃ q r0 u sr, partial R f s t q r0 ∧ last q = Some u ∧ usable R f u t sr ∧
    (t ∉ q) ∧ p = q ++ [t] ∧ r = fmin sr r0.

Lemma elem_of_get_paths R s f u v sr :
  ((u, v), sr) ∈ get_paths_for_flow R s f ↔ u = s ∧ usable R f u v sr.
Proof.
  unfold get_paths_for_flow, usable. rewrite list_elem_of_omap. split.
  - intros ([[[g u'] v'] sr'] & Hin & Hif). revert Hif.
    repeat case_bool_decide; simpl; try done. destruct (flt _ _) eqn:E; naive_solver.
  - intros (-> & Hin & Ht). exists ((f, s, v), sr). split; [done|].
    rewrite !bool_decide_true, Ht by done. done.
Qed.

Lemma get_paths_length R s f : length (get_paths_for_flow R s f) ≤ length R.
Proof. apply length_omap_le. Qed.

Lemma partial_last R f s t p r : partial R f s t p r → is_Some (last p).
Proof. induction 1; [by eexists|]. rewrite last_snoc. eauto. Qed.

Lemma partial_NoDup R f s t p r : partial R f s t p r → NoDup p.
Proof.
  induction 1; [apply NoDup_singleton|]. apply NoDup_app.
  split_and!; [done|set_solver|apply NoDup_singleton].
Qed.

Lemma partial_head R f s t p r : partial R f s t p r → ∃ q, p = s :: q.
Proof. induction 1 as [|p r u v sr _ [q ->]]; [by exists []|]. by exists (q ++ [v]). Qed.

(** ** One iteration of the search *)

Definition next_found t (p : path) r (hop : link * F) : option (path * F) :=
  if decide ((hop.1.2 ∉ p) ∧ hop.1.2 = t) then Some (p ++ [hop.1.2], fmin hop.2 r) else None.
Definition next_incomplete t (p : path) r (hop : link * F) : option (path * F) :=
  if decide ((hop.1.2 ∉ p) ∧ hop.1.2 ≠ t) then Some (p ++ [hop.1.2], fmin hop.2 r) else None.

Lemma foldl_extend_path t p r hops found rest :
  foldl (extend_path t p r) (found, rest) hops =
  (found ++ omap (next_found t p r) hops, rest ++ omap (next_incomplete t p r) hops).
Proof.
  revert found rest; induction hops as [|[[u v] sr] hops IH]; intros found rest.
  { by rewrite !app_nil_r. }
  cbn [foldl]. unfold omap. cbn [list_omap].
  unfold extend_path at 2, next_found at 1, next_incomplete at 1, list_mem, fmin. cbn [fst snd].
  destruct (decide (v ∈ p)) as [Hv|Hv].
  { rewrite bool_decide_true, !decide_False by naive_solver. apply IH. }
  rewrite (bool_decide_false (v ∈ p)) by done.
  destruct (decide (v = t)) as [->|Ht].
  - rewrite bool_decide_true, decide_True, decide_False by naive_solver.
    rewrite IH. by rewrite <-(assoc_L (++)).
  - rewrite bool_decide_false, decide_False, decide_True by naive_solver.
    rewrite IH. by rewrite <-(assoc_L (++)).
Qed.

Definition new_found R f t p r u := omap (next_found t p r) (get_paths_for_flow R u f).
Definition new_incomplete R f t p r u := omap (next_incomplete t p r) (get_paths_for_flow R u f).

Lemma elem_of_new_found R f t p r u q r' :
  (q, r') ∈ new_found R f t p r u ↔
  ∃ sr, usable R f u t sr ∧ (t ∉ p) ∧ q = p ++ [t] ∧ r' = fmin sr r.
Proof.
  unfold new_found, next_found. rewrite list_elem_of_omap. split.
  - intros ([[u' v] sr] & [-> Hu]%elem_of_get_paths & Hif). simpl in Hif.
    case_decide as Hd; [|done]. destruct Hd as [? ->]. naive_solver.
  - intros (sr & Hu & Hnt & -> & ->). exists ((u, t), sr).
    split; [by apply elem_of_get_paths|]. by rewrite decide_True.
Qed.

Lemma elem_of_new_incomplete R f t p r u q r' :
  (q, r') ∈ new_incomplete R f t p r u ↔
  ∃ v sr, usable R f u v sr ∧ (v ∉ p) ∧ v ≠ t ∧ q = p ++ [v] ∧ r' = fmin sr r.
Proof.
  unfold new_incomplete, next_incomplete. rewrite list_elem_of_omap. split.
  - intros ([[u' v] sr] & [-> Hu]%elem_of_get_paths & Hif). simpl in Hif.
    case_decide as Hd; [|done]. naive_solver.
  - intros (v & sr & Hu & Hnt & Hne & -> & ->). exists ((u, v), sr).
    split; [by apply elem_of_get_paths|]. by rewrite decide_True.
Qed.

(** ** What an incomplete path can be completed to *)

Inductive reaches R f t : path → F → path → F → Prop :=
  | reaches_done q r u sr :
      last q = Some u → usable R f u t sr → t ∉ q → reaches R f t q r (q ++ [t]) (fmin sr r)
  | reaches_step q r u v sr p r' :
      last q = Some u → usable R f u v sr → v ∉ q → v ≠ t →
      reaches R f t (q ++ [v]) (fmin sr r) p r' → reaches R f t q r p r'.

Lemma complete_reaches R f s t p r :
  complete R f s t p r ↔ reaches R f t [s] fone p r.
Proof.
  split.
  - intros (q & r0 & u & sr & Hq & Hl & Hu & Ht & -> & ->).
    assert (reaches R f t q r0 (q ++ [t]) (fmin sr r0)) as Hr by (by econstructor).
    revert Hr. generalize (q ++ [t]), (fmin sr r0). clear -Hq.
    induction Hq; intros p' r' Hr; [done|]. eauto using reaches_step.
  - cut (∀ q r0, reaches R f t q r0 p r → partial R f s t q r0 → complete R f s t p r).
    { intros Hc Hr. eapply Hc; [exact Hr|constructor]. }
    induction 1; intros Hp; [|eauto using partial_step]. do 4 eexists. by split_and!.
Qed.

Lemma reaches_unfold R f t q r u p r' :
  last q = Some u →
  reaches R f t q r p r' ↔
  (p, r') ∈ new_found R f t q r u ∨
  ∃ q' r2, (q', r2) ∈ new_incomplete R f t q r u ∧ reaches R f t q' r2 p r'.
Proof.
  intros Hu. rewrite elem_of_new_found. setoid_rewrite elem_of_new_incomplete. split.
  - destruct 1; simplify_eq; naive_solver.
  - intros [(sr & ? & ? & -> & ->)|(q' & r2 & (v & sr & ? & ? & ? & -> & ->) & Hr)];
      [by econstructor|by eapply reaches_step].
Qed.

Lemma new_incomplete_last R f t p r u (rest : list (path * F)) :
  Forall (λ q, is_Some (last q.1)) rest →
  Forall (λ q, is_Some (last q.1)) (rest ++ new_incomplete R f t p r u).
Proof.
  intros Hrest. apply Forall_app. split; [done|]. apply Forall_forall.
  intros [q' r2] (v & sr & _ & _ & _ & -> & _)%elem_of_new_incomplete. simpl.
  rewrite last_snoc. eauto.
Qed.

(** The search returns what it had found and all completions of the
    incomplete paths. *)
Lemma traverse_loop_spec R f t fuel found incomplete result :
  Forall (λ q, is_Some (last q.1)) incomplete →
  traverse_loop fuel R f t found incomplete = Ok (Some result) →
  ∀ p r', (p, r') ∈ result ↔ (p, r') ∈ found ∨
    ∃ q r, (q, r) ∈ incomplete ∧ reaches R f t q r p r'.
Proof.
  revert found incomplete; induction fuel as [|fuel IH]; intros found [|[q r] rest] Hl;
    cbn [traverse_loop]; try done.
  1,2: intros [= ->]; set_solver.
  apply Forall_cons in Hl as [[u Hu] Hrest]. simpl in Hu. rewrite (py_index_last _ _ Hu). simpl.
  rewrite foldl_extend_path.
  fold (new_found R f t q r u) (new_incomplete R f t q r u). intros Hres p r'.
  rewrite (IH _ _ (new_incomplete_last _ _ _ _ _ _ _ Hrest) Hres).
  rewrite !elem_of_app. setoid_rewrite elem_of_app. setoid_rewrite elem_of_cons. split.
  - intros [[?|?]|(q' & r2 & [?|?] & ?)]; [by left|right|by right; eauto|right].
    all: exists q, r; split; [by left|]; apply (reaches_unfold _ _ _ _ _ u); eauto.
  - intros [?|(q' & r2 & [[= -> ->]|?] & Hr)]; [by left; left| |by right; eauto].
    apply (reaches_unfold _ _ _ _ _ u) in Hr as [?|(? & ? & ? & ?)];
      [by left; right|right; by eauto 10|done].
Qed.

(** ** Termination *)

Definition heads R : list Z := (λ k : Z * Z * Z, k.2) <$> Dict.keys R.

(** A path of the search: distinct nodes, all but the first entered through
    a link of the table. *)
Definition search_path R (p : path) : Prop :=
  NoDup p ∧ is_Some (last p) ∧ Forall (λ v, v ∈ heads R) (tail p).

Definition weight R (p : path) : nat := S (length R) ^ (S (length R) - length p).

Lemma usable_head R f u v sr : usable R f u v sr → v ∈ heads R.
Proof.
  intros [Hin _]. apply list_elem_of_fmap. exists (f, u, v). split; [done|].
  apply list_elem_of_fmap. by exists ((f, u, v), sr).
Qed.

Lemma search_path_snoc R p v :
  search_path R p → v ∈ heads R → v ∉ p → search_path R (p ++ [v]) ∧ length p ≤ length R.
Proof.
  intros (Hnd & [u Hu] & Hall) Hv Hnv. destruct p as [|x p]; [done|]. simpl in Hall.
  assert (NoDup ((x :: p) ++ [v])) as Hnd'.
  { apply NoDup_app. split_and!; [done|set_solver|apply NoDup_singleton]. }
  assert (Forall (λ v, v ∈ heads R) (p ++ [v])) as Hall'.
  { apply Forall_app. split; [done|]. by apply Forall_singleton. }
  split; [split_and!; [done|rewrite last_snoc; eauto|done]|].
  simpl in Hnd'. apply NoDup_cons in Hnd' as [_ Hnd'].
  rewrite Forall_forall in Hall'.
  pose proof (submseteq_length _ _ (NoDup_submseteq _ _ Hnd' Hall')) as Hlen.
  unfold heads, Dict.keys in Hlen. rewrite !length_fmap, length_app in Hlen. simpl in *. lia.
Qed.

Lemma new_incomplete_search R f t p r u :
  search_path R p → Forall (λ q, search_path R q.1) (new_incomplete R f t p r u).
Proof.
  intros Hp. apply Forall_forall.
  intros [q r'] (v & sr & Hu%usable_head & Hv & _ & -> & _)%elem_of_new_incomplete.
  by apply search_path_snoc.
Qed.

Lemma weight_new_incomplete R f t p r u :
  search_path R p →
  sum_list_with (λ q, weight R q.1) (new_incomplete R f t p r u) < weight R p.
Proof.
  intros Hp. set (inc := new_incomplete R f t p r u).
  assert (length inc ≤ length R) as Hlen.
  { etrans; [apply length_omap_le|apply get_paths_length]. }
  destruct (decide (inc = [])) as [->|Hne]; [simpl; unfold weight; apply Nat.neq_0_lt_0, Nat.pow_nonzero; lia|].
  assert (length p ≤ length R) as Hlp.
  { destruct inc as [|[q r'] inc'] eqn:E; [done|].
    assert ((q, r') ∈ inc) as Hin by (unfold inc in *; rewrite E; left).
    apply elem_of_new_incomplete in Hin as (v & sr & Hu%usable_head & Hv & _).
    by eapply search_path_snoc. }
  assert (∀ q, q ∈ inc → weight R q.1 = S (length R) ^ (length R - length p)) as Hw.
  { intros [q r'] (v & sr & _ & _ & _ & -> & _)%elem_of_new_incomplete.
    unfold weight. simpl. rewrite length_app. f_equal. simpl. lia. }
  assert (sum_list_with (λ q, weight R q.1) inc = length inc * S (length R) ^ (length R - length p)) as ->.
  { clear -Hw. induction inc as [|q inc IH]; [done|]. cbn [sum_list_with length]. rewrite Hw by left. rewrite IH by (intros; apply Hw; by right). lia. }
  unfold weight. rewrite Nat.sub_succ_l by done. rewrite Nat.pow_succ_r'.
  pose proof (Nat.pow_nonzero (S (length R)) (length R - length p)). nia.
Qed.

Lemma traverse_loop_terminates R f t fuel found incomplete :
  Forall (λ q, search_path R q.1) incomplete →
  sum_list_with (λ q, weight R q.1) incomplete ≤ fuel →
  ∃ result, traverse_loop fuel R f t found incomplete = Ok (Some result).
Proof.
  revert found incomplete; induction fuel as [|fuel IH]; intros found [|[q r] rest] Hs Hf;
    cbn [traverse_loop]; [eauto| |eauto|].
  { assert (weight R q ≠ 0) by (apply Nat.pow_nonzero; lia). simpl in Hf. lia. }
  apply Forall_cons in Hs as [Hq Hrest]. simpl in Hq.
  assert (is_Some (last q)) as [u Hu] by apply Hq.
  rewrite (py_index_last _ _ Hu). simpl. rewrite foldl_extend_path.
  fold (new_found R f t q r u) (new_incomplete R f t q r u).
  apply IH.
  - apply Forall_app. split; [done|]. by apply new_incomplete_search.
  - rewrite sum_list_with_app. pose proof (weight_new_incomplete R f t q r u Hq).
    simpl in Hf. lia.
Qed.

Lemma traverse_iterative_spec R f s t :
  ∃ result, traverse_graph_iterative R f s t = Ok (Some result) ∧
    ∀ p r, (p, r) ∈ result ↔ complete R f s t p r.
Proof.
  destruct (traverse_loop_terminates R f t (traverse_fuel R) [] [([s], fone)]) as [result Hr].
  - apply Forall_singleton. split_and!; [apply NoDup_singleton|by eexists|constructor].
  - simpl. rewrite Nat.add_0_r. unfold weight, traverse_fuel. cbn [length].
    by replace (S (length R) - 1) with (length R) by lia.
  - exists result. split; [done|]. intros p r.
    assert (Forall (λ q : path * F, is_Some (last q.1)) [([s], fone)]) as Hs
      by (apply Forall_singleton; by eexists).
    rewrite (traverse_loop_spec R f t _ _ _ _ Hs Hr), complete_reaches. set_solver.
Qed.

(** ** Shape of the routes *)

Lemma partial_links R f s t p r :
  partial R f s t p r → Forall (λ h, ∃ sr, usable R f h.1 h.2 sr) (pairwise p).
Proof.
  induction 1 as [|p r u v sr Hp IH Hl Hu Hv Ht]; [constructor|].
  apply (Forall_pairwise_snoc _ _ u); simpl; eauto.
Qed.

Lemma complete_shape R f s t p r :
  complete R f s t p r →
  head p = Some s ∧ last p = Some t ∧ s ≠ t ∧ NoDup p ∧
  Forall (λ h, ∃ sr, usable R f h.1 h.2 sr) (pairwise p).
Proof.
  intros (q & r0 & u & sr & Hq & Hl & Hu & Ht & -> & ->).
  pose proof (partial_head _ _ _ _ _ _ Hq) as [q' Hh].
  split_and!.
  - by rewrite Hh.
  - apply last_snoc.
  - intros ->. apply Ht. rewrite Hh. left.
  - apply NoDup_app. split_and!; [by eapply partial_NoDup|set_solver|apply NoDup_singleton].
  - apply (Forall_pairwise_snoc _ _ u); simpl; eauto. by eapply partial_links.
Qed.
End routes.

(** ** The ratio of a route in exact arithmetic *)

Lemma fmin_exact (a b : Qc) : (fmin a b <= a)%Qc ∧ (fmin a b <= b)%Qc ∧ (fmin a b = a ∨ fmin a b = b).
Proof.
  unfold fmin. destruct (flt a b) eqn:E.
  - apply flt_exact_true in E. split_and!; [apply Qcle_refl|by apply Qclt_le_weak|by left].
  - apply flt_exact_false in E. split_and!; [done|apply Qcle_refl|by right].
Qed.

(** The ratio is that of the narrowest link, and at most one. *)
Definition narrowest (R : dict (Z * Z * Z) Qc) f (p : path) (r : Qc) : Prop :=
  (r <= fone)%Qc ∧ (RATIO_THRESHOLD < r)%Qc ∧
  Forall (λ h, ∃ sr, usable R f h.1 h.2 sr ∧ (r <= sr)%Qc) (pairwise p).

Lemma narrowest_snoc R f p r u v sr :
  narrowest R f p r → last p = Some u → usable R f u v sr →
  narrowest R f (p ++ [v]) (fmin sr r).
Proof.
  intros (H1 & H2 & H3) Hl Hu. destruct (fmin_exact sr r) as (Ha & Hb & Hc).
  split_and!; [by etrans| |].
  - destruct Hc as [-> | ->]; [|done]. apply flt_exact_true, Hu.
  - apply (Forall_pairwise_snoc _ _ u); [|done|simpl; eauto].
    eapply Forall_impl; [exact H3|]. intros h (sr' & ? & ?). exists sr'. split; [done|by etrans].
Qed.

Lemma partial_ratio (R : dict (Z * Z * Z) Qc) f s t p r :
  partial R f s t p r → narrowest R f p r.
Proof.
  induction 1; [|by eapply narrowest_snoc].
  split_and!; [apply Qcle_refl| |constructor]. by vm_compute.
Qed.

Lemma complete_ratio (R : dict (Z * Z * Z) Qc) f s t p r :
  complete R f s t p r → narrowest R f p r.
Proof.
  intros (q & r0 & u & sr & Hq%partial_ratio & Hl & Hu & Ht & -> & ->).
  by eapply narrowest_snoc.
Qed.

(** * The recursive search *)

Section recursive.
Context {F : Type} `{PyFloat F}.
Implicit Types (R : dict (Z * Z * Z) F) (f s t u v : Z) (sr : F).

(** Walks to [t]; the ratio is that of the last link. *)
Inductive walk R f t : Z → F → path → F → Prop :=
  | walk_end sr : walk R f t t sr [t] sr
  | walk_step u v sr sr' p r :
      u ≠ t → usable R f u v sr' → walk R f t v sr' p r → walk R f t u sr (u :: p) r.

(** The accumulating loop over the outgoing links. *)
Lemma foldl_traverse (g : Z → F → option (list (path * F))) (ls : list (link * F)) acc ps :
  foldl (λ acc (l : link * F), let '((_, next_hop), split_ratio) := l in
    paths_to_t ← acc; more ← g next_hop split_ratio; Some (paths_to_t ++ more)) acc ls = Some ps →
  ∃ ps0, acc = Some ps0 ∧ (∀ u v sr, ((u, v), sr) ∈ ls → is_Some (g v sr)) ∧
    ∀ x, x ∈ ps ↔ x ∈ ps0 ∨ ∃ u v sr qs, ((u, v), sr) ∈ ls ∧ g v sr = Some qs ∧ x ∈ qs.
Proof.
  revert acc; induction ls as [|[[u v] sr] ls IH]; intros acc; cbn [foldl].
  { intros ->. exists ps. split_and!; [done|set_solver|set_solver]. }
  intros (ps1 & Hacc & Hdef & Hin)%IH. destruct acc as [ps0|]; [|done]. simpl in Hacc.
  destruct (g v sr) as [more|] eqn:Eg; [|done]. simpl in Hacc. injection Hacc as <-.
  exists ps0. split_and!; [done| |].
  - intros u' v' sr' [[= -> -> ->]|?]%elem_of_cons; [by rewrite Eg|by eapply Hdef].
  - intros x. rewrite Hin, elem_of_app. setoid_rewrite elem_of_cons. naive_solver.
Qed.

Lemma traverse_graph_step fuel R f s t u sr ps :
  traverse_graph (S fuel) R f s t u sr = Some ps → u ≠ t →
  ∀ v sr', usable R f u v sr' → is_Some (traverse_graph fuel R f s t v sr').
Proof.
  cbn [traverse_graph]. intros Htr Hne v sr' Hu. rewrite bool_decide_false in Htr by done.
  apply bind_Some in Htr as (qs & Hf & _).
  apply (foldl_traverse (traverse_graph fuel R f s t)) in Hf as (_ & _ & Hdef & _).
  apply (Hdef u). by apply elem_of_get_paths.
Qed.

Lemma traverse_graph_walk fuel R f s t u sr ps :
  traverse_graph fuel R f s t u sr = Some ps →
  ∀ p r, (p, r) ∈ ps ↔ walk R f t u sr p r.
Proof.
  revert u sr ps; induction fuel as [|fuel IH]; intros u sr ps; cbn [traverse_graph]; [done|].
  case_bool_decide as Hu.
  { subst u. intros [= <-] p r. rewrite list_elem_of_singleton. split.
    - intros [= -> ->]. constructor.
    - inversion 1; subst; [done|congruence]. }
  intros (qs & Hf & [= <-])%bind_Some p r.
  apply (foldl_traverse (traverse_graph fuel R f s t)) in Hf as (? & [= <-] & Hdef & Hin).
  rewrite list_elem_of_fmap. split.
  - intros ([q r'] & [= -> ->] & [?|(u' & v & sr' & qs' & Hl & Hg & Hq)]%Hin); [set_solver|].
    apply elem_of_get_paths in Hl as [-> Hl]. econstructor; [done..|]. by eapply IH.
  - inversion 1 as [|? v ? sr' q ? _ Hus Hw]; subst; [done|]. exists (q, r). split; [done|].
    apply Hin. right.
    assert (((u, v), sr') ∈ get_paths_for_flow R u f) as Hl by (by apply elem_of_get_paths).
    destruct (Hdef _ _ _ Hl) as [qs' Hqs]. exists u, v, sr', qs'. split_and!; [done..|].
    by eapply IH.
Qed.

(** ** It only returns on acyclic tables *)

Definition link_step R f t u v : Prop := u ≠ t ∧ ∃ sr, usable R f u v sr.

Lemma traverse_graph_ratio fuel R f s t u sr sr' :
  is_Some (traverse_graph fuel R f s t u sr) → is_Some (traverse_graph fuel R f s t u sr').
Proof.
  destruct fuel as [|fuel]; cbn [traverse_graph]; [done|].
  case_bool_decide; [by eexists|done].
Qed.

Lemma traverse_graph_reach R f s t u v : tc (link_step R f t) u v → ∀ n sr,
  is_Some (traverse_graph n R f s t u sr) →
  ∃ m, m < n ∧ ∀ sr', is_Some (traverse_graph m R f s t v sr').
Proof.
  induction 1 as [u v [Hne [sr1 Hu]]|u v w [Hne [sr1 Hu]] _ IH]; intros [|n] sr [ps Hs]; try done.
  - exists n. split; [lia|]. intros sr'. eapply traverse_graph_ratio, traverse_graph_step; eauto.
  - destruct (IH n sr1) as (m & Hm & Hd); [by eapply traverse_graph_step|].
    exists m. split; [lia|done].
Qed.

Lemma traverse_graph_acyclic R f s t u n sr :
  is_Some (traverse_graph n R f s t u sr) → ¬ tc (link_step R f t) u u.
Proof.
  revert sr; induction n as [n IH] using lt_wf_ind; intros sr Hs Hc.
  destruct (traverse_graph_reach R f s t u u Hc n sr Hs) as (m & Hm & Hd).
  by apply (IH m Hm sr).
Qed.

Lemma walk_reach R f t u sr p r :
  walk R f t u sr p r → ∀ v, v ∈ p → v = u ∨ tc (link_step R f t) u v.
Proof.
  induction 1 as [|u v sr sr' p r Hne Hu Hw IH]; [set_solver|].
  assert (link_step R f t u v) as Hstep by (split; eauto).
  intros w [->|Hin]%elem_of_cons; [by left|right].
  destruct (IH w Hin) as [->|Htc]; [by apply tc_once|by eapply tc_l].
Qed.

Lemma walk_NoDup R f s t u sr p r : walk R f t u sr p r → ∀ n,
  is_Some (traverse_graph n R f s t u sr) → NoDup p.
Proof.
  induction 1 as [|u v sr sr' p r Hne Hu Hw IH]; intros n Hs; [apply NoDup_singleton|].
  pose proof (traverse_graph_acyclic _ _ _ _ _ _ _ Hs) as Hac.
  assert (link_step R f t u v) as Hstep by (split; eauto). apply NoDup_cons. split.
  - intros [->|Htc]%(walk_reach _ _ _ _ _ _ _ Hw); apply Hac; [by apply tc_once|by eapply tc_l].
  - destruct n as [|n]; [by destruct Hs|]. destruct Hs as [ps Hs].
    eapply (IH n), traverse_graph_step; eauto.
Qed.

(** ** Walks without repetition and completions of incomplete paths *)

Lemma walk_from_t R f t sr p r : walk R f t t sr p r → p = [t].
Proof. by inversion 1. Qed.

Lemma walk_head R f t u sr p r : walk R f t u sr p r → ∃ p', p = u :: p'.
Proof. destruct 1; eauto. Qed.

Lemma walk_reaches R f t u sr p r : walk R f t u sr p r → u ≠ t → ∀ q r0,
  NoDup (q ++ p) → ∃ r', reaches R f t (q ++ [u]) r0 (q ++ p) r'.
Proof.
  induction 1 as [|u v sr sr' p r Hne Hu Hw IH]; [done|]. intros _ q r0 Hnd.
  assert (q ++ u :: p = (q ++ [u]) ++ p) as Heq by (by rewrite <-(assoc_L (++))).
  rewrite Heq in Hnd |- *. pose proof (walk_head _ _ _ _ _ _ _ Hw) as [p' Hp'].
  assert (v ∉ q ++ [u]) as Hv.
  { apply NoDup_app in Hnd as (_ & Hd & _). intros Hin. apply (Hd v Hin). rewrite Hp'. left. }
  destruct (decide (v = t)) as [->|Hvt].
  - apply walk_from_t in Hw as ->. eexists. by apply (reaches_done _ _ _ _ _ u); rewrite ?last_snoc.
  - destruct (IH Hvt (q ++ [u]) (fmin sr' r0) Hnd) as [r' Hr']. exists r'.
    eapply (reaches_step _ _ _ _ _ u v); rewrite ?last_snoc; eauto.
Qed.

Lemma reaches_walk R f t q r0 p r' : reaches R f t q r0 p r' →
  ∀ u, last q = Some u → u ≠ t → ∀ sr, ∃ p' r, p = q ++ p' ∧ walk R f t u sr (u :: p') r.
Proof.
  induction 1 as [q r u sr0 Hl Hu Ht|q r u v sr0 p r' Hl Hu Hv Hvt _ IH];
    intros u' Hl' Hne sr; simplify_eq.
  - exists [t]. eexists. split; [done|]. econstructor; [done..|constructor].
  - destruct (IH v ltac:(apply last_snoc) Hvt sr0) as (p' & r2 & -> & Hw).
    exists (v :: p'), r2. split; [by rewrite <-(assoc_L (++))|]. by econstructor.
Qed.
End recursive.

(** * Properties *)

(** C1: The breadth first search returns on every table, cyclic ones
    included, with the fuel the model gives it, and its result is exactly
    the set of loop free routes from [s] to [t] along links whose ratio is
    above the threshold, each with the minimum of the link ratios (and 1)
    as its own ratio; for every float arithmetic. *)
Theorem traverse_graph_iterative_correct {F} `{PyFloat F} (R : dict (Z * Z * Z) F) f s t :
  ∃ result, traverse_graph_iterative R f s t = Ok (Some result) ∧
    ∀ p r, (p, r) ∈ result ↔ complete R f s t p r.
Proof. apply traverse_iterative_spec. Qed.

(** Every route the search returns starts at the source, ends at the
    destination, visits no node twice and follows links of the flow; in
    exact arithmetic its ratio is above the threshold, at most 1 and at most
    the ratio of each of its links. *)
Theorem routes_are_simple_paths (R : dict (Z * Z * Z) Qc) f s t result :
  traverse_graph_iterative R f s t = Ok (Some result) →
  Forall (λ pr, head pr.1 = Some s ∧ last pr.1 = Some t ∧ NoDup pr.1 ∧
    (pr.2 <= fone)%Qc ∧ (RATIO_THRESHOLD < pr.2)%Qc ∧
    Forall (λ h, ∃ sr, ((f, h.1, h.2), sr) ∈ R ∧ (pr.2 <= sr)%Qc) (pairwise pr.1)) result.
Proof.
  destruct (traverse_iterative_spec R f s t) as (result' & -> & Hspec). intros [= <-].
  apply Forall_forall. intros [p r] Hc%Hspec.
  pose proof (complete_shape _ _ _ _ _ _ Hc) as (Hh & Hl & _ & Hnd & _).
  apply complete_ratio in Hc as (H1 & H2 & H3). split_and!; [done..|].
  eapply Forall_impl; [exact H3|]. intros h (sr & [Hin _] & Hle). eauto.
Qed.

(** A diamond with a cycle [2 - 3 - 2]. *)
Definition diamond : dict (Z * Z * Z) Qc :=
  [((0, 1, 2), flit 1 2); ((0, 1, 3), flit 1 2); ((0, 2, 3), flit 1 4);
   ((0, 3, 2), flit 1 8); ((0, 2, 4), flit 1 4); ((0, 3, 4), flit 3 4)]%Z.

Lemma routes_are_simple_paths_witness :
  ∃ result, traverse_graph_iterative diamond 0 1 4 = Ok (Some result) ∧ length result = 4 ∧
    Forall (λ pr, head pr.1 = Some 1%Z ∧ last pr.1 = Some 4%Z ∧ NoDup pr.1) result.
Proof.
  eexists. split; [vm_compute; reflexivity|]. split; [done|].
  eapply Forall_impl; [apply (routes_are_simple_paths diamond 0 1 4); vm_compute; reflexivity|].
  by intros [p r] (? & ? & ? & _).
Defined.



(** On a table with a cycle that the source can reach, the recursion does
    not return, whatever the recursion limit. *)
Lemma traverse_graph_diverges n sr : traverse_graph n diamond 0 1 4 1 sr = None.
Proof.
  destruct (traverse_graph n diamond 0 1 4 1 sr) as [ps|] eqn:E; [exfalso|done].
  assert (∀ u v r, ((0%Z, u, v), r) ∈ diamond → flt RATIO_THRESHOLD r = true → u ≠ 4%Z →
    link_step diamond 0 4 u v) as Hstep by (intros u v r ???; split; [done|]; by exists r).
  assert (link_step diamond 0 4 1 2) as H12 by (eapply Hstep; [left|by vm_compute|done]).
  assert (link_step diamond 0 4 2 3) as H23
    by (eapply Hstep; [do 2 right; left|by vm_compute|done]).
  assert (link_step diamond 0 4 3 2) as H32
    by (eapply Hstep; [do 3 right; left|by vm_compute|done]).
  destruct (traverse_graph_reach diamond 0 1 4 1 2 (tc_once _ _ _ H12) n sr) as (m & _ & Hm);
    [by eexists|].
  apply (traverse_graph_acyclic _ _ _ _ _ _ _ (Hm sr)). eapply tc_l; [exact H23|by apply tc_once].
Qed.

Section all_routes.
Context {F : Type} `{PyFloat F}.
Implicit Types (R : dict (Z * Z * Z) F) (flows : list (Flow F)).

Lemma elem_of_groups R i g :
  (i, g) ∈ groupby flow_selector (sorted_by flow_selector (Dict.keys R)) →
  ∃ k, k ∈ Dict.keys R ∧ flow_selector k = i.
Proof.
  intros Hin. pose proof (groupby_key _ _ _ _ Hin) as [Hne Hall].
  destruct g as [|k g]; [done|]. apply Forall_cons in Hall as [Hk _]. exists k. split; [|done].
  rewrite <-(sorted_by_perm flow_selector), <-(groupby_concat flow_selector (sorted_by _ _)).
  apply list_elem_of_In, in_concat. exists (k :: g). split; [|by left].
  apply list_elem_of_In, list_elem_of_fmap. by exists (i, k :: g).
Qed.
End all_routes.

Lemma mcf_flow_routes_spec {F} `{PyFloat F} (flows : list (Flow F)) R :
  Forall (λ k, 0 ≤ flow_selector k < Z.of_nat (length flows))%Z (Dict.keys R) →
  ∃ idxs routed, compute_mcf_flow_routes flows R = Ok (Some <$> routed) ∧
    StronglySorted Z.lt idxs ∧ (∀ i, i ∈ idxs ↔ i ∈ flow_selector <$> Dict.keys R) ∧
    Forall2 (λ i f', ∃ f rs, flows !! Z.to_nat i = Some f ∧
      source_node f' = source_node f ∧ destination_node f' = destination_node f ∧
      flow_tx_rate f' = flow_tx_rate f ∧ paths f' = Some rs.*1 ∧ splitting_ratio f' = Some rs.*2 ∧
      ∀ p r, (p, r) ∈ rs ↔ complete R i (source_node f) (destination_node f) p r) idxs routed.
Proof.
  intros Hk. unfold compute_mcf_flow_routes.
  set (gs := groupby flow_selector (sorted_by flow_selector (Dict.keys R))).
  assert (∃ routed, Forall2 (λ g f', route_flow R flows g.1 = Ok (Some f') ∧
     ∃ f rs, flows !! Z.to_nat g.1 = Some f ∧ f' = with_routes f rs ∧
      ∀ p r, (p, r) ∈ rs ↔ complete R g.1 (source_node f) (destination_node f) p r) gs routed)
    as [routed Hrouted].
  { apply Forall_exists_Forall2. apply Forall_forall. intros [i g] (k & Hkin & Hki)%elem_of_groups.
    rewrite Forall_forall in Hk. specialize (Hk k Hkin). rewrite Hki in Hk.
    destruct (py_index_nonneg flows i Hk) as (f & Hf & Hlook).
    destruct (traverse_iterative_spec R i (source_node f) (destination_node f)) as (rs & Hrs & Hspec).
    exists (with_routes f rs). simpl. split; [|by exists f, rs].
    unfold route_flow. rewrite Hf. simpl. rewrite Hrs. done. }
  exists gs.*1, routed. split_and!.
  - apply mapR_Ok, Forall2_fmap_r. eapply Forall2_impl; [exact Hrouted|]. by intros g f' [? _].
  - apply groupby_sorted, sorted_by_sorted.
  - intros i. rewrite !list_elem_of_fmap. split.
    + intros ([j g] & -> & (k & Hin & Hki)%elem_of_groups). exists k. auto.
    + intros (k & -> & Hin).
      rewrite <-(sorted_by_perm flow_selector), <-(groupby_concat flow_selector (sorted_by _ _)) in Hin.
      apply list_elem_of_In, in_concat in Hin as (g & Hg & Hin).
      apply list_elem_of_In, list_elem_of_fmap in Hg as ([j g'] & -> & Hg).
      apply list_elem_of_In in Hin. exists (j, g'). split; [|done].
      destruct (groupby_key _ _ _ _ Hg) as [_ Hall]. rewrite Forall_forall in Hall. by apply Hall.
  - apply Forall2_fmap_l. eapply Forall2_impl; [exact Hrouted|].
    intros [i g] f' (_ & f & rs & Hf & -> & Hspec). exists f, rs. by split_and!.
Qed.

(** C28: When every flow index of the table is the index of a flow,
    [compute_mcf_flow_routes] returns one routed flow for every flow index
    that occurs in the table, in increasing order of the index. It keeps the
    end points and the rate of the flow, and its paths and ratios are the
    routes of the flow in the table: exactly the loop free ones. *)
Theorem mcf_routes_correct {F} `{PyFloat F} (flows : list (Flow F)) R :
  Forall (λ k, 0 ≤ flow_selector k < Z.of_nat (length flows))%Z (Dict.keys R) →
  ∃ idxs routed, compute_mcf_flow_routes flows R = Ok (Some <$> routed) ∧
    StronglySorted Z.lt idxs ∧ (∀ i, i ∈ idxs ↔ i ∈ flow_selector <$> Dict.keys R) ∧
    Forall2 (λ i f', ∃ f rs, flows !! Z.to_nat i = Some f ∧
      source_node f' = source_node f ∧ destination_node f' = destination_node f ∧
      flow_tx_rate f' = flow_tx_rate f ∧ paths f' = Some rs.*1 ∧ splitting_ratio f' = Some rs.*2 ∧
      ∀ p r, (p, r) ∈ rs ↔ complete R i (source_node f) (destination_node f) p r) idxs routed.
Proof. apply mcf_flow_routes_spec. Qed.

Lemma mcf_routes_correct_witness :
  let flows := [mkFlow 1 4 (flit 1 2) None None]%Z in
  ∃ idxs routed, compute_mcf_flow_routes flows diamond = Ok (Some <$> routed) ∧
    StronglySorted Z.lt idxs ∧ length routed = length idxs ∧
    (∀ i, i ∈ idxs ↔ i ∈ flow_selector <$> Dict.keys diamond).
Proof.
  destruct (mcf_routes_correct (F:=Qc) [mkFlow 1 4 (flit 1 2) None None]%Z diamond)
    as (idxs & routed & H1 & H2 & H3 & H4).
  { apply (bool_decide_unpack _). by vm_compute. }
  exists idxs, routed. split_and!; [exact H1|exact H2| |exact H3].
  symmetry. exact (Forall2_length _ _ _ H4).
Defined.
