(* ===== verification/PathModels.v ===== *)
(** The optimisation models of
    [rest_client/path_hopping/flow_allocation.py] and the allocations that
    are read off their solutions.

    [create_k_paths_model] and [create_path_hopping_ilp_model] are the same
    code but for the declaration of the path variables, so both are
    instances of [capacity_model]. The optimizer is the parameter
    [optimize]: [None] for the infeasible and unbounded statuses the code
    tests for, [Some a] for a solution, where [a v] is the attribute [x] of
    the variable [v]. *)

From Stdlib Require Import QArith Qcanon Lqa Ascii.
From S2P Require Import Prelude PyDict PyFloat PyStr Accum LinProg FlowAllocation Routes.

Local Open Scope string_scope.

(** * Variable names *)

Definition nat_str (n : nat) : string := str_of_Z (Z.of_nat n).
Definition name2 (c sep : string) (i j : nat) : string :=
  c +:+ "{" +:+ nat_str i +:+ sep +:+ nat_str j +:+ "}".
Definition name1 (c : string) (i : nat) : string := c +:+ "{" +:+ nat_str i +:+ "}".

(** What [variable_name_to_index_tuple] returns. *)
Inductive var_index : Type :=
  | IdxTuple (l : list Z)
  | IdxInt (z : Z)
  | IdxNone.

Definition inner (variable_name : string) : string := str_but_last (str_drop 2 variable_name).

Definition variable_name_to_index_tuple (variable_name : string) : res var_index :=
  if str_in "X" variable_name then
    IdxTuple <$> mapR int_of_str (str_split "," (inner variable_name))
  else if str_in "Y" variable_name then
    IdxTuple <$> mapR int_of_str (str_split "," (inner variable_name))
  else if str_in "U" variable_name then IdxInt <$> int_of_str (inner variable_name)
  else if str_in "K" variable_name then IdxInt <$> int_of_str (inner variable_name)
  else Ok IdxNone.

(** * The models *)

Abbreviation flow := (Flow Qc).

(** [{tuple(sorted(link_tuple)): link_idx for ... in enumerate(edges)}] *)
Definition sorted_link_set (g : Graph) : dict link nat :=
  Dict.of_pairs ((λ ie : nat * link, (sorted_pair ie.2, ie.1)) <$> enumerate (edges g)).

(** [enumerate(flow.paths)]: iterating over [None] is a [TypeError]. *)
Definition flow_paths (f : flow) : res (list path) := or_raise TypeError (paths f).

(** The body of the loop over the paths of a flow. *)
Definition path_variable_step (xvar : nat → nat → res Var) (flow_index : nat)
    (st : dict (nat * nat) nat * LinExpr) (ip : nat * path)
    : M Model (dict (nat * nat) nat * LinExpr) :=
  let '(X, flow_routing_constraint_variable) := st in
  let '(path_index, _) := ip in
  v ← lift (xvar flow_index path_index);
  x ← addVar v;
  mret (Dict.set X (flow_index, path_index) x,
        lin_add flow_routing_constraint_variable (lin_var x)).

(** The path variables of all flows; those of one flow add up to one. *)
Definition add_path_variables (xvar : nat → nat → res Var) (fs : list flow)
    : M Model (dict (nat * nat) nat) :=
  foldS (λ X (ifl : nat * flow),
    let '(flow_index, f) := ifl in
    ps ← lift (flow_paths f);
    '(X', frc) ← foldS (path_variable_step xvar flow_index) (X, lin_const fzero) (enumerate ps);
    addConstr (mkConstr frc EQ (lin_const fone)) ≫= λ _,
    mret X') [] (enumerate fs).

(** [{key(x): value(x) for x in l}], where computing a value extends the
    model. *)
Definition dict_comp {A K V} `{Countable K} (key : A → K) (value : A → M Model V) (l : list A)
    : M Model (dict K V) :=
  foldS (λ d x, v ← value x; mret (Dict.set d (key x) v)) [] l.

(** One variable per flow and link: the dictionary holds expressions. *)
Definition flow_link_pairs (fs : list flow) (ls : dict link nat) : list (nat * nat) :=
  concat ((λ ifl : nat * flow, (λ l, (ifl.1, l)) <$> Dict.values ls) <$> enumerate fs).

Definition add_flow_link_variables (fs : list flow) (ls : dict link nat)
    : M Model (dict (nat * nat) LinExpr) :=
  dict_comp id (λ k : nat * nat,
    y ← addVar (mkVar (name2 "Y" "," k.1 k.2) CONTINUOUS fzero (Some fone));
    mret (lin_var y)) (flow_link_pairs fs ls).

(** [Y[flow_index, link_index] += X[flow_index, path_index] * rate] for
    every hop of every path of every flow. *)
Definition charge_flow_links (X : dict (nat * nat) nat) (ls : dict link nat)
    (fs : list flow) (Y : dict (nat * nat) LinExpr) : res (dict (nat * nat) LinExpr) :=
  foldM (λ Y (ifl : nat * flow),
    let '(flow_index, f) := ifl in
    ps ← flow_paths f;
    foldM (λ Y (ip : nat * path),
      let '(path_index, p) := ip in
      foldM (λ Y hop,
        link_index ← Dict.getitem ls (sorted_pair hop);
        x ← Dict.getitem X (flow_index, path_index);
        expr_at Y (flow_index, link_index) (lin_scaled x (flow_tx_rate f))) Y (pairwise p))
      Y (enumerate ps)) Y (enumerate fs).

(** One variable per flow and link that equals the expression. *)
Definition add_flow_totals (Y : dict (nat * nat) LinExpr) : M Model (dict (nat * nat) nat) :=
  dict_comp fst (λ ky : (nat * nat) * LinExpr,
    t ← addVar (mkVar (name2 "T" ", " ky.1.1 ky.1.2) CONTINUOUS fzero (Some fone));
    addConstr (mkConstr (lin_var t) EQ ky.2) ≫= λ _,
    mret t) Y.

Definition add_alpha : M Model nat :=
  alpha ← addVar (mkVar "alpha" CONTINUOUS fzero (Some fone));
  addConstr (mkConstr (lin_var alpha) GE (lin_const fzero)) ≫= λ _,
  mret alpha.

(** One variable without upper bound per link. *)
Definition add_link_variables (c : string) (ls : dict link nat) : M Model (dict nat nat) :=
  dict_comp id (λ l, addVar (mkVar (name1 c l) CONTINUOUS fzero None)) (Dict.values ls).

Definition sum_link_totals (T : dict (nat * nat) nat) (U : dict nat nat)
    : res (dict nat LinExpr) :=
  foldM (λ U (kt : (nat * nat) * nat), expr_at U kt.1.2 (lin_var kt.2))
    (prod_map id lin_var <$> U) T.

Definition add_capacity_constraints (alpha : nat) (K : dict nat nat) (U : dict nat LinExpr)
    : M Model unit :=
  for_each U (λ lu : nat * LinExpr,
    k ← lift (Dict.getitem K lu.1);
    addConstr (mkConstr (lin_var k) EQ lu.2) ≫= λ _,
    addConstr (mkConstr (lin_var k) LE (lin_scaled alpha LINK_CAPACITY))).

Definition capacity_model (xvar : nat → nat → res Var) (g : Graph) (fs : list flow)
    : M Model unit :=
  X ← add_path_variables xvar fs;
  let link_set := sorted_link_set g in
  Y ← add_flow_link_variables fs link_set;
  Y' ← lift (charge_flow_links X link_set fs Y);
  T ← add_flow_totals Y';
  alpha ← add_alpha;
  U ← add_link_variables "U" link_set;
  U' ← lift (sum_link_totals T U);
  K ← add_link_variables "K" link_set;
  add_capacity_constraints alpha K U' ≫= λ _,
  setObjective (lin_var alpha).

Definition k_paths_variable (i j : nat) : res Var :=
  Ok (mkVar (name2 "X" "," i j) CONTINUOUS fzero (Some fone)).

Definition create_k_paths_model (g : Graph) (flows : list flow) (s t : node) (rate : Qc)
    (ps : list path) : res unit * Model :=
  let potential_flow_set := (flows ++ [mkFlow s t rate (Some ps) None])%list in
  capacity_model k_paths_variable g potential_flow_set empty_model.

Definition path_hopping_variable (K : Z) (i j : nat) : res Var :=
  share ← fdiv fone (f_of_Z K);
  Ok (mkVar (name2 "X" "," i j) SEMICONT share (Some share)).

Definition create_path_hopping_ilp_model (g : Graph) (flows : list flow) (s t : node)
    (rate : Qc) (ps : list path) (K : Z) : res unit * Model :=
  let potential_flow_set := (flows ++ [mkFlow s t rate (Some ps) None])%list in
  capacity_model (path_hopping_variable K) g potential_flow_set empty_model.

(** * Reading a solution *)

(** The position [l[i]] refers to. *)
Definition py_pos {A} (l : list A) (i : Z) : nat :=
  Z.to_nat (if bool_decide (0 ≤ i)%Z then i else Z.of_nat (length l) + i)%Z.

(** [flows[flow_index].splitting_ratio.append(x)] *)
Definition append_ratio (flows : list flow) (flow_index : Z) (x : Qc) : res (list flow) :=
  f ← py_index flows flow_index;
  ratios ← or_raise AttributeError (splitting_ratio f);
  Ok (<[py_pos flows flow_index :=
        mkFlow (source_node f) (destination_node f) (flow_tx_rate f) (paths f)
          (Some (ratios ++ [x])%list)]> flows).

(** The loop body over [feasible_model.getVars()]. *)
Definition read_variable (link_set : dict Z link) (a : nat → Qc)
    (st : list flow * dict link Qc) (iv : nat * Var) : res (list flow * dict link Qc) :=
  let '(flows, U) := st in
  let '(i, v) := iv in
  if str_in "X" (varName v) then
    idx ← variable_name_to_index_tuple (varName v);
    match idx with
    | IdxTuple [flow_index; _] => flows' ← append_ratio flows flow_index (a i); Ok (flows', U)
    | IdxTuple _ => Raise ValueError
    | _ => Raise TypeError
    end
  else if str_in "K" (varName v) then
    idx ← variable_name_to_index_tuple (varName v);
    match idx with
    | IdxInt link_index => l ← Dict.getitem link_set link_index; Ok (flows, Dict.set U l (a i))
    | _ => Raise KeyError
    end
  else Ok st.

Definition read_solution (link_set : dict Z link) (flows : list flow) (m : Model) (a : nat → Qc)
    : res (list flow * dict link Qc) :=
  foldM (read_variable link_set a) (flows, []) (enumerate (vars m)).

(** [{idx: ordered_list_of_links[idx] for idx in range(...)}] *)
Definition indexed_links (g : Graph) : dict Z link :=
  (λ ie : nat * link, (Z.of_nat ie.1, ie.2)) <$> enumerate (edges g).
Definition indexed_sorted_links (g : Graph) : dict Z link :=
  (λ ie : nat * link, (Z.of_nat ie.1, sorted_pair ie.2)) <$> enumerate (edges g).

(** [link_capacity_map]: the load of the flows on every link. *)
Definition charge_link_capacity (flows : list flow) (u : dict link Qc) : res (dict link Qc) :=
  foldM (λ u f,
    ps ← flow_paths f;
    ratios ← or_raise TypeError (splitting_ratio f);
    foldM (λ u (pr : path * Qc),
      foldM (λ u hop, add_at u (sorted_pair hop) (pr.2 * flow_tx_rate f)%Qc) u (pairwise pr.1))
      u (zip ps ratios)) u flows.

(** * The allocations *)

Section solver.
Context {RNG : Type}.
Variable np_seed : Z → RNG.
Variable np_uniform : Qc → Qc → M RNG Qc.
Variable node_disjoint_paths : Graph → node → node → res (list path).
Variable optimize : Model → option (nat → Qc).

(** The loop of [compute_ilp_flows]: flows are added until the model of the
    round has no solution. *)
Fixpoint ilp_loop (flow_selection_fn : list node → M RNG (node * node)) (g : Graph) (fuel : nat)
    (flows : list flow) (feasible_model : option (Model * (nat → Qc)))
    : M RNG (option (list flow * option (Model * (nat → Qc)))) :=
  match fuel with
  | 0 => mret None
  | S fuel =>
      '(s, t) ← flow_selection_fn (nodes g);
      k_shortest_paths ← lift (node_disjoint_paths g s t);
      rate ← np_uniform FLOW_TX_RATE_LOWER_BOUND FLOW_TX_RATE_UPPER_BOUND;
      let '(r, model_for_this_round) := create_k_paths_model g flows s t rate k_shortest_paths in
      lift r ≫= λ _,
      match optimize model_for_this_round with
      | None => mret (Some (flows, feasible_model))
      | Some a =>
          ilp_loop flow_selection_fn g fuel
            (flows ++ [mkFlow s t rate (Some k_shortest_paths) (Some [])])%list
            (Some (model_for_this_round, a))
      end
  end.

Definition compute_ilp_flows (fuel : nat) (g : Graph)
    (flow_selection_fn : list node → M RNG (node * node)) (seed_number : Z)
    : M RNG (option (list flow * dict link Qc)) :=
  np_random_seed np_seed seed_number ≫= λ _,
  result ← ilp_loop flow_selection_fn g fuel [] None;
  match result with
  | None => mret None
  | Some (_, None) => mret (Some ([], []))
  | Some (flows, Some (m, a)) =>
      '(flows', _) ← lift (read_solution (indexed_links g) flows m a);
      link_capacity_map ← lift (charge_link_capacity flows'
        (Dict.of_pairs ((λ e, (e, fzero)) <$> edges g)));
      mret (Some (flows', link_capacity_map))
  end.

(** The loop of [compute_path_hopping_flows_ilp], which passes the graph to
    the selection. *)
Fixpoint path_hopping_ilp_loop (flow_selection_fn : Graph → M RNG (node * node)) (K : Z)
    (g : Graph) (fuel : nat) (flows : list flow) (feasible_model : option (Model * (nat → Qc)))
    : M RNG (option (list flow * option (Model * (nat → Qc)))) :=
  match fuel with
  | 0 => mret None
  | S fuel =>
      '(s, t) ← flow_selection_fn g;
      rate ← np_uniform FLOW_TX_RATE_LOWER_BOUND FLOW_TX_RATE_UPPER_BOUND;
      disjoint_paths ← lift (node_disjoint_paths g s t);
      let '(r, model_for_this_round) :=
        create_path_hopping_ilp_model g flows s t rate disjoint_paths K in
      lift r ≫= λ _,
      match optimize model_for_this_round with
      | None => mret (Some (flows, feasible_model))
      | Some a =>
          path_hopping_ilp_loop flow_selection_fn K g fuel
            (flows ++ [mkFlow s t rate (Some disjoint_paths) (Some [])])%list
            (Some (model_for_this_round, a))
      end
  end.

Definition compute_path_hopping_flows_ilp (fuel : nat) (g : Graph) (K : Z)
    (flow_selection_fn : Graph → M RNG (node * node)) (seed_number : Z)
    : M RNG (option (list flow * dict link Qc)) :=
  np_random_seed np_seed seed_number ≫= λ _,
  result ← path_hopping_ilp_loop flow_selection_fn K g fuel [] None;
  match result with
  | None => mret None
  | Some (_, None) => mret (Some ([], []))
  | Some (flows, Some (m, a)) =>
      r ← lift (read_solution (indexed_sorted_links g) flows m a);
      mret (Some r)
  end.
End solver.
