(* ===== verification/PathModelsProps.v ===== *)
(** What a solution of the optimisation models means: every solution of
    [capacity_model] splits each flow completely over its paths and keeps the
    load of every link within the capacity; the allocations that are read
    off a solution inherit this. *)

From Stdlib Require Import QArith Qcanon Lqa Ascii.
From S2P Require Import Prelude PyDict PyFloat PyStr Accum LinProg FlowAllocation FlowAllocationProps Routes PathModels.

(** * Variable names *)

Lemma nat_str_no c n : not_decimal c = true → str_in c (nat_str n) = false.
Proof. apply str_in_str_of_Z. Qed.

Lemma inner_name2 c i j :
  inner (name2 (String c EmptyString) "," i j) = nat_str i +:+ "," +:+ nat_str j.
Proof.
  unfold inner, name2. change (str_drop 2 _) with (nat_str i +:+ "," +:+ nat_str j +:+ "}").
  rewrite <-!str_app_assoc. by rewrite str_but_last_snoc.
Qed.

Lemma inner_name1 c i : inner (name1 (String c EmptyString) i) = nat_str i.
Proof. unfold inner, name1. change (str_drop 2 _) with (nat_str i +:+ "}"). by rewrite str_but_last_snoc. Qed.

(** Whether a character occurs in a name depends on its letter alone. *)
Lemma str_in_name2 c a sep i j :
  not_decimal c = true → str_in c "{},; " = false → str_in c sep = false →
  str_in c (name2 a sep i j) = str_in c a.
Proof.
  intros Hc Hp Hsep. unfold name2. rewrite !str_in_app, !nat_str_no by done.
  cbn [str_in] in Hp |- *. rewrite !orb_false_iff in Hp. destruct Hp as (-> & -> & _).
  by rewrite Hsep, !orb_false_r.
Qed.

Lemma str_in_name1 c a i :
  not_decimal c = true → str_in c "{},; " = false → str_in c (name1 a i) = str_in c a.
Proof.
  intros Hc Hp. unfold name1. rewrite !str_in_app, !nat_str_no by done.
  cbn [str_in] in Hp |- *. rewrite !orb_false_iff in Hp. destruct Hp as (-> & -> & _).
  by rewrite !orb_false_r.
Qed.

Lemma parse_pair i j :
  mapR int_of_str (str_split "," (nat_str i +:+ "," +:+ nat_str j))
  = Ok [Z.of_nat i; Z.of_nat j].
Proof.
  change ("," +:+ nat_str j) with (String "," (nat_str j)).
  rewrite str_split_app by (by apply nat_str_no).
  rewrite str_split_none by (by apply nat_str_no). cbn [mapR].
  unfold nat_str. by rewrite !int_of_str_of_Z.
Qed.

Lemma index_of_X i j :
  variable_name_to_index_tuple (name2 "X" "," i j) = Ok (IdxTuple [Z.of_nat i; Z.of_nat j]).
Proof.
  unfold variable_name_to_index_tuple. rewrite str_in_name2 by done.
  rewrite inner_name2, parse_pair. done.
Qed.

Lemma index_of_K i : variable_name_to_index_tuple (name1 "K" i) = Ok (IdxInt (Z.of_nat i)).
Proof.
  unfold variable_name_to_index_tuple. rewrite !str_in_name1 by done. cbn [str_in].
  rewrite inner_name1. unfold nat_str. by rewrite int_of_str_of_Z.
Qed.

(** * The path variables *)

(** The declarations of path variables with their positions, which is what
    reading a solution picks out by name. *)
Definition x_decls (m : Model) : list (nat * Var) :=
  filter (λ iv, str_in "X" (varName iv.2) = true) (enumerate (vars m)).

(** The table of path variables lists these declarations in order. *)
Definition x_match (X : dict (nat * nat) nat) (m : Model) : Prop :=
  Forall2 (λ (kx : (nat * nat) * nat) iv,
    iv.1 = kx.2 ∧ varName iv.2 = name2 "X" "," kx.1.1 kx.1.2) X (x_decls m).

Lemma x_decls_snoc m m' v :
  vars m' = vars m ++ [v] →
  x_decls m' = x_decls m ++ (if str_in "X" (varName v) then [(length (vars m), v)] else []).
Proof.
  unfold x_decls. intros ->. rewrite enumerate_snoc, filter_app. f_equal.
  rewrite filter_cons, filter_nil. simpl. destruct (str_in "X" (varName v)); by case_decide.
Qed.

Lemma x_match_other X m m' v :
  vars m' = vars m ++ [v] → str_in "X" (varName v) = false → x_match X m → x_match X m'.
Proof. intros Hv Hn. unfold x_match. by rewrite (x_decls_snoc _ _ _ Hv), Hn, app_nil_r. Qed.

Lemma x_match_same X m m' : vars m' = vars m → x_match X m → x_match X m'.
Proof. unfold x_match, x_decls. by intros ->. Qed.

(** The entries of one flow. *)
Definition row (i : nat) (ids : list nat) : dict (nat * nat) nat := imap (λ j x, ((i, j), x)) ids.

Lemma row_snoc i ids x : row i (ids ++ [x]) = row i ids ++ [((i, length ids), x)].
Proof. unfold row. rewrite imap_app. simpl. by rewrite Nat.add_0_r. Qed.

Lemma elem_of_row i ids k x : (k, x) ∈ row i ids ↔ k.1 = i ∧ ids !! k.2 = Some x.
Proof.
  unfold row. rewrite list_elem_of_lookup. setoid_rewrite list_lookup_imap. split.
  - intros (j & Hj). destruct (ids !! j) eqn:E; naive_solver.
  - destruct k as [i' j]. simpl. intros [-> Hj]. exists j. by rewrite Hj.
Qed.

Lemma row_values i ids : (row i ids).*2 = ids.
Proof.
  induction ids as [|x ids IH] using rev_ind; [done|]. by rewrite row_snoc, fmap_app, IH.
Qed.

(** The path variables of all flows: one row of variables per flow, as many
    as the flow has paths, which add up to one in every solution. *)
Definition rows_of (idss : list (list nat)) : dict (nat * nat) nat := concat (imap row idss).

Lemma rows_of_snoc idss ids :
  rows_of (idss ++ [ids]) = rows_of idss ++ row (length idss) ids.
Proof. unfold rows_of. rewrite imap_app, concat_app. simpl. by rewrite Nat.add_0_r, app_nil_r. Qed.

Lemma elem_of_rows idss k x :
  (k, x) ∈ rows_of idss ↔ ∃ ids, idss !! k.1 = Some ids ∧ ids !! k.2 = Some x.
Proof.
  induction idss as [|ids idss IH] using rev_ind; [set_solver|].
  rewrite rows_of_snoc, elem_of_app, IH, elem_of_row. setoid_rewrite lookup_app_Some. split.
  - intros [(ids' & ? & ?)|[Hk ?]]; [by eauto|]. exists ids. rewrite Hk. split; [|done].
    right. by rewrite Nat.sub_diag.
  - intros (ids' & [?|[Hle [Hs <-]%list_lookup_singleton_Some]] & ?); [by eauto|right].
    split; [lia|done].
Qed.

Lemma get_rows idss i j x :
  Dict.get (rows_of idss) (i, j) = Some x ↔ ∃ ids, idss !! i = Some ids ∧ ids !! j = Some x.
Proof.
  split; [by intros ?%Dict.get_elem_of%elem_of_rows|].
  intros Hx. destruct (Dict.get (rows_of idss) (i, j)) as [y|] eqn:E.
  - pose proof E as (ids & H1 & H2)%Dict.get_elem_of%elem_of_rows. simpl in *. naive_solver congruence.
  - apply Dict.get_None in E. destruct E. apply list_elem_of_fmap. exists ((i, j), x).
    split; [done|]. by apply elem_of_rows.
Qed.

Section path_variables.
Variable xvar : nat → nat → res Var.
Hypothesis xvar_name : ∀ i j v, xvar i j = Ok v → varName v = name2 "X" "," i j.

Definition declared (m : Model) (i : nat) (ids : list nat) : Prop :=
  ∀ j x, ids !! j = Some x → ∃ v, xvar i j = Ok v ∧ vars m !! x = Some v.

Lemma declared_extends m m' i ids : extends m m' → declared m i ids → declared m' i ids.
Proof. intros He Hd j x (v & Hv & Hx)%Hd. exists v. split; [done|]. by eapply extends_lookup. Qed.

Lemma flow_path_variables i ps X0 m0 X frc m :
  (∀ k, k ∈ Dict.keys X0 → k.1 ≠ i) → x_match X0 m0 →
  foldS (path_variable_step xvar i) (X0, lin_const fzero) (enumerate ps) m0 = (Ok (X, frc), m) →
  ∃ ids, X = X0 ++ row i ids ∧ length ids = length ps ∧ extends m0 m ∧ x_match X m ∧
    (∀ a, eval a frc = fsum (a <$> ids)) ∧ declared m i ids.
Proof.
  intros HX0 Hm0 Hfold. rewrite <-(length_enumerate ps).
  refine (foldS_inv (λ l1 '(X, frc) m, ∃ ids, X = X0 ++ row i ids ∧ length ids = length l1 ∧
    extends m0 m ∧ x_match X m ∧ (∀ a, eval a frc = fsum (a <$> ids)) ∧ declared m i ids)
    _ _ _ _ _ _ _ _ Hfold).
  - intros l1 [j p] l2 [X1 frc1] m1 [X2 frc2] m2 [-> _]%enumerate_split
      (ids & -> & Hlen & Hext & Hmatch & Heval & Hdecl).
    unfold path_variable_step.
    intros (v & m1' & [Hv ->]%lift_Ok & (x & m2' & Hadd & [= <- <- <-])%bindS_Ok)%bindS_Ok.
    apply addVar_spec in Hadd as (Hext2 & Hx & Hvars & Hid).
    assert (Dict.get (X0 ++ row i ids) (i, length l1) = None) as Hnone.
    { apply Dict.get_None. unfold Dict.keys. rewrite fmap_app, elem_of_app.
      intros [Hin|([k y] & Hk & Hin)%list_elem_of_fmap]; [by apply (HX0 _ Hin)|].
      simpl in Hk. subst k. apply elem_of_row in Hin as [_ Hin]. simpl in Hin.
      apply lookup_lt_Some in Hin. lia. }
    exists (ids ++ [x]). rewrite Dict.set_new by done. split_and!.
    + by rewrite row_snoc, (assoc_L (++)), Hlen.
    + rewrite !length_app. simpl. lia.
    + by etrans.
    + unfold x_match. rewrite (x_decls_snoc _ _ _ Hvars). rewrite (xvar_name _ _ _ Hv).
      rewrite str_in_name2 by done. apply Forall2_app; [done|]. repeat constructor.
      * simpl. done.
      * simpl. by apply xvar_name.
    + intros a. rewrite eval_add, eval_var, Heval, fmap_app, fsum_app.
      simpl. by rewrite fsum_cons, fsum_nil, exact_add_0_r.
    + intros j y [Hj|[Hj1 Hj2]]%lookup_app_Some.
      * by eapply declared_extends.
      * apply list_lookup_singleton_Some in Hj2 as [Hj2 <-].
        assert (j = length l1) as -> by lia. eauto.
  - exists []. split_and!; [by rewrite app_nil_r|done|done|done| |done].
    intros a. by rewrite eval_const.
Qed.

Definition row_of_flow (m : Model) (i : nat) (f : flow) (ids : list nat) : Prop :=
  declared m i ids ∧ (∃ ps, paths f = Some ps ∧ length ids = length ps) ∧
  ∀ a, satisfies a m → fsum (a <$> ids) = fone.

Lemma row_of_flow_extends m m' i f ids :
  extends m m' → row_of_flow m i f ids → row_of_flow m' i f ids.
Proof.
  intros He (Hd & Hp & Hs). split_and!; [by eapply declared_extends|done|].
  intros a Ha. by eapply Hs, satisfies_extends.
Qed.

Lemma add_path_variables_spec fs m0 X m :
  x_match [] m0 → add_path_variables xvar fs m0 = (Ok X, m) →
  ∃ idss, X = rows_of idss ∧ extends m0 m ∧ x_match X m ∧
    length idss = length fs ∧
    ∀ i f ids, fs !! i = Some f → idss !! i = Some ids → row_of_flow m i f ids.
Proof.
  intros Hm0 Hfold. rewrite <-(length_enumerate fs).
  cut (∃ idss, X = rows_of idss ∧ extends m0 m ∧ x_match X m ∧
    length idss = length (enumerate fs) ∧
    ∀ i f ids, enumerate fs !! i = Some (i, f) → idss !! i = Some ids → row_of_flow m i f ids).
  { intros (idss & H1 & H2 & H3 & H4 & H5). exists idss. split_and!; [done..|].
    intros i f ids Hf. apply H5. by rewrite lookup_enumerate, Hf. }
  refine (foldS_inv (λ l1 X m, ∃ idss, X = rows_of idss ∧ extends m0 m ∧ x_match X m ∧
    length idss = length l1 ∧
    ∀ i f ids, l1 !! i = Some (i, f) → idss !! i = Some ids → row_of_flow m i f ids)
    _ _ _ _ _ _ _ _ Hfold); [|by exists []].
  intros l1 [i f] l2 X1 m1 X2 m2 [-> _]%enumerate_split (idss & -> & Hext & Hmatch & Hlen & Hrows).
  intros (ps & m1' & [Hps%or_raise_Ok ->]%lift_Ok &
    ([X' frc] & m3 & Hin & ([] & m4 & Hc & [= <- <-])%bindS_Ok)%bindS_Ok)%bindS_Ok.
  apply flow_path_variables in Hin as (ids & -> & Hl & Hext3 & Hm3 & Hev & Hdecl); [| |done].
  2: { intros k ([k' x] & -> & Hk)%list_elem_of_fmap. apply elem_of_rows in Hk as (ids' & Hk & _).
       apply lookup_lt_Some in Hk. simpl in *. lia. }
  apply addConstr_spec in Hc as (Hext4 & Hv4 & Hh4).
  exists (idss ++ [ids]). split_and!.
  - by rewrite rows_of_snoc, Hlen.
  - do 2 (etrans; [done|]). done.
  - by eapply x_match_same.
  - rewrite !length_app. simpl. lia.
  - intros i f' ids' [Hi|[Hi1 Hi2]]%lookup_app_Some [Hj|[Hj1 Hj2]]%lookup_app_Some.
    + eapply row_of_flow_extends; [|by eapply Hrows]. by etrans.
    + apply lookup_lt_Some in Hi. lia.
    + apply lookup_lt_Some in Hj. lia.
    + apply list_lookup_singleton_Some in Hi2 as [Hi2 [= <- <-]].
      apply list_lookup_singleton_Some in Hj2 as [_ <-]. split_and!.
      * by eapply declared_extends.
      * eauto.
      * intros a Ha. specialize (Hh4 a Ha). unfold holds in Hh4. cbn [csense lhs rhs] in Hh4.
        by rewrite Hev, eval_const in Hh4.
Qed.
End path_variables.

(** * Tables of variables *)

(** A step that keeps the path variables. *)
Definition keeps_x (m m' : Model) : Prop := extends m m' ∧ ∀ X, x_match X m → x_match X m'.

#[export] Instance keeps_x_preorder : PreOrder keeps_x.
Proof.
  split; [by split|]. intros m1 m2 m3 [H1 H2] [H3 H4]. split; [by etrans|auto].
Qed.

Lemma addVar_keeps_x v m x m' :
  str_in "X" (varName v) = false → addVar v m = (Ok x, m') →
  keeps_x m m' ∧ vars m' !! x = Some v.
Proof.
  intros Hn (He & Hx & Hv & _)%addVar_spec. split; [|done]. split; [done|].
  intros X. by eapply x_match_other.
Qed.

Lemma addConstr_keeps_x c m m' :
  addConstr c m = (Ok tt, m') → keeps_x m m' ∧ ∀ a, satisfies a m' → holds a c.
Proof.
  intros (He & Hv & Hh)%addConstr_spec. split; [|done]. split; [done|].
  intros X. by apply x_match_same.
Qed.

(** A dictionary comprehension over distinct keys has one entry per element,
    in order, and what computing a value establishes holds at the end. *)
Lemma dict_comp_spec {A K V} `{Countable K} (key : A → K) (value : A → M Model V)
    (Q : A → V → Model → Prop) l m0 d m :
  NoDup (key <$> l) →
  (∀ x v m m', value x m = (Ok v, m') → keeps_x m m' ∧ Q x v m') →
  (∀ x v m m', extends m m' → Q x v m → Q x v m') →
  dict_comp key value l m0 = (Ok d, m) →
  keeps_x m0 m ∧ Forall2 (λ x kv, kv.1 = key x ∧ Q x kv.2 m) l d.
Proof.
  intros Hnd Hval Hmono Hfold.
  refine (foldS_inv (λ l1 d m, keeps_x m0 m ∧ Forall2 (λ x kv, kv.1 = key x ∧ Q x kv.2 m) l1 d)
    _ _ _ _ _ _ _ _ Hfold); [|split; [done|constructor]].
  intros l1 x l2 d1 m1 d2 m2 Hl [Hk1 Hall].
  intros (v & m3 & [Hk Hq]%Hval & [= <- <-])%bindS_Ok.
  assert (Dict.get d1 (key x) = None) as Hnone.
  { apply Dict.get_None. rewrite Hl, fmap_app in Hnd. apply NoDup_app in Hnd as (_ & Hd & _).
    intros ([k w] & Hkey & Hin)%list_elem_of_fmap.
    apply list_elem_of_lookup in Hin as [i Hi].
    destruct (Forall2_lookup_r _ _ _ _ _ Hall Hi) as (y & Hy & Hyk & _). simpl in *.
    apply (Hd (key x)); [|left].
    rewrite Hkey, Hyk. apply list_elem_of_fmap. exists y. split; [done|].
    by eapply list_elem_of_lookup_2. }
  rewrite Dict.set_new by done. split; [by etrans|]. apply Forall2_app.
  - eapply Forall2_impl; [exact Hall|]. intros y kv [? ?]. split; [done|].
    eapply Hmono; [apply Hk|done].
  - by repeat constructor.
Qed.

Lemma var_nonneg a m x v :
  vars m !! x = Some v → satisfies a m → var_type v = CONTINUOUS → lb v = fzero →
  (fzero <= a x)%Qc.
Proof.
  intros Hx [Hb _] Ht Hl. specialize (Hb x v Hx). unfold admissible in Hb. rewrite Ht in Hb.
  destruct Hb as [Hb _]. by rewrite Hl in Hb.
Qed.

Lemma add_flow_link_variables_spec fs ls m0 Y m :
  NoDup (flow_link_pairs fs ls) → add_flow_link_variables fs ls m0 = (Ok Y, m) →
  keeps_x m0 m ∧ Forall2 (λ k (ke : (nat * nat) * LinExpr), ke.1 = k ∧
    ∀ a, satisfies a m → (fzero <= eval a ke.2)%Qc) (flow_link_pairs fs ls) Y.
Proof.
  intros Hnd. apply (dict_comp_spec id _ (λ _ e m, ∀ a, satisfies a m → (fzero <= eval a e)%Qc)).
  - by rewrite list_fmap_id.
  - intros k e m1 m2 (y & m3 & Hadd & [= <- <-])%bindS_Ok.
    apply addVar_keeps_x in Hadd as [Hk Hy]; [|by apply str_in_name2].
    split; [done|]. intros a Ha. rewrite eval_var. by eapply var_nonneg.
  - intros k e m1 m2 He Hq a Ha. by eapply Hq, satisfies_extends.
Qed.

Lemma add_flow_totals_spec Y m0 T m :
  NoDup (Dict.keys Y) → add_flow_totals Y m0 = (Ok T, m) →
  keeps_x m0 m ∧ Forall2 (λ (ke : (nat * nat) * LinExpr) (kt : (nat * nat) * nat), kt.1 = ke.1 ∧
    ∀ a, satisfies a m → a kt.2 = eval a ke.2) Y T.
Proof.
  intros Hnd. apply (dict_comp_spec fst _ (λ ke t m, ∀ a, satisfies a m → a t = eval a ke.2)).
  - done.
  - intros k t m1 m2 (t' & m3 & Hadd & ([] & m4 & Hc & [= <- <-])%bindS_Ok)%bindS_Ok.
    apply addVar_keeps_x in Hadd as [Hk Hy]; [|by apply str_in_name2].
    apply addConstr_keeps_x in Hc as [Hk2 Hh]. split; [by etrans|]. intros a Ha.
    specialize (Hh a Ha). unfold holds in Hh. cbn [csense lhs rhs] in Hh. by rewrite eval_var in Hh.
  - intros k e m1 m2 He Hq a Ha. by eapply Hq, satisfies_extends.
Qed.

Lemma add_link_variables_spec c ls m0 U m :
  str_in "X" c = false → NoDup (Dict.values ls) → add_link_variables c ls m0 = (Ok U, m) →
  keeps_x m0 m ∧ Forall2 (λ l (lu : nat * nat), lu.1 = l ∧
    ∀ a, satisfies a m → (fzero <= a lu.2)%Qc) (Dict.values ls) U.
Proof.
  intros Hc Hnd. apply (dict_comp_spec id _ (λ _ u m, ∀ a, satisfies a m → (fzero <= a u)%Qc)).
  - by rewrite list_fmap_id.
  - intros l u m1 m2 Hadd. apply addVar_keeps_x in Hadd as [Hk Hy]; [|simpl; by rewrite str_in_name1].
    split; [done|]. intros a Ha. by eapply var_nonneg.
  - intros k e m1 m2 He Hq a Ha. by eapply Hq, satisfies_extends.
Qed.

Lemma add_alpha_spec m0 alpha m :
  add_alpha m0 = (Ok alpha, m) → keeps_x m0 m ∧ ∀ a, satisfies a m → (a alpha <= fone)%Qc.
Proof.
  intros (al & m1 & Hadd & ([] & m2 & Hc & [= <- <-])%bindS_Ok)%bindS_Ok.
  apply addVar_keeps_x in Hadd as [Hk Hy]; [|done]. apply addConstr_keeps_x in Hc as [Hk2 _].
  split; [by etrans|]. intros a [Hb _].
  specialize (Hb al _ (extends_lookup _ _ _ _ (proj1 Hk2) Hy)). apply Hb.
Qed.

Lemma add_capacity_constraints_spec alpha K U m0 m :
  add_capacity_constraints alpha K U m0 = (Ok tt, m) →
  keeps_x m0 m ∧ ∀ a, satisfies a m → Forall (λ le, (eval a le.2 <= a alpha)%Qc) U.
Proof.
  revert m0; induction U as [|[l e] U IH]; intros m0; unfold add_capacity_constraints in *; cbn [for_each].
  { intros [= <-]. split; [done|]. intros; constructor. }
  intros ([] & m3 & (k & m1 & [Hk ->]%lift_Ok & ([] & m2 & Hc1 & Hc2)%bindS_Ok)%bindS_Ok & Hrest)%bindS_Ok.
  apply addConstr_keeps_x in Hc1 as [Hk1 Hh1]. apply addConstr_keeps_x in Hc2 as [Hk2 Hh2].
  apply IH in Hrest as [Hk3 Hall]. split; [do 2 (etrans; [done|]); done|].
  intros a Ha. constructor; [|by apply Hall].
  assert (satisfies a m3) as Ha3 by (eapply satisfies_extends; [apply Hk3|done]).
  specialize (Hh2 a Ha3). specialize (Hh1 a (satisfies_extends _ _ _ (proj1 Hk2) Ha3)).
  unfold holds in Hh1, Hh2. cbn [csense lhs rhs snd] in *.
  rewrite eval_var in Hh1, Hh2. rewrite eval_scaled in Hh2. rewrite <-Hh1.
  unfold LINK_CAPACITY in Hh2. qc_lra.
Qed.

(** * The load expressions *)

(** What paths with ratios put on the links: for every hop its link and the
    share of the rate. *)
Definition hop_charges (rate : Qc) (prs : list (path * Qc)) : list (link * Qc) :=
  concat ((λ pr : path * Qc, (λ h, (h, (pr.2 * rate)%Qc)) <$> sorted_hops pr.1) <$> prs).

Definition link_index (ls : dict link nat) (h : link) : nat := default 0 (Dict.get ls h).

Definition index_charges (i : nat) (ls : dict link nat) (cs : list (link * Qc))
    : list ((nat * nat) * Qc) :=
  (λ hx : link * Qc, ((i, link_index ls hx.1), hx.2)) <$> cs.

Lemma foldM_eval_charges {A K} `{Countable K} (a : nat → Qc)
    (step : dict K LinExpr → A → res (dict K LinExpr)) (g : A → list (K * Qc)) l :
  (∀ Y x Y', x ∈ l → step Y x = Ok Y' → add_all (eval_dict a Y) (g x) = Ok (eval_dict a Y')) →
  ∀ Y Y', foldM step Y l = Ok Y' →
    add_all (eval_dict a Y) (concat (g <$> l)) = Ok (eval_dict a Y').
Proof.
  induction l as [|x l IH]; intros Hstep Y Y'; cbn [foldM]; [by intros [= <-]|].
  intros (Y1 & HY1 & Hrest)%bind_Ok. rewrite fmap_cons. cbn [concat].
  rewrite add_all_app, (Hstep Y x Y1) by (done || left). simpl.
  apply IH; [|done]. intros; apply Hstep; [by right|done].
Qed.

(** All hops that are charged are links of the graph. *)
Lemma charge_flow_links_known X ls fs Y Y' i f ps p hop :
  charge_flow_links X ls fs Y = Ok Y' → fs !! i = Some f → paths f = Some ps → p ∈ ps →
  hop ∈ pairwise p → is_Some (Dict.get ls (sorted_pair hop)).
Proof.
  unfold charge_flow_links. intros Hf Hi Hps [j Hj]%list_elem_of_lookup Hhop.
  apply (foldM_step_Ok _ _ _ _) with (x := (i, f)) in Hf as (Y1 & Y2 & Hf);
    [|by apply elem_of_enumerate].
  unfold flow_paths in Hf. rewrite Hps in Hf. simpl in Hf.
  apply (foldM_step_Ok _ _ _ _) with (x := (j, p)) in Hf as (Y3 & Y4 & Hf);
    [|by apply elem_of_enumerate].
  apply (foldM_step_Ok _ _ _ _) with (x := hop) in Hf as (Y5 & Y6 & Hf); [|done].
  apply bind_Ok in Hf as (l & Hl%Dict.getitem_Ok & _). eauto.
Qed.

(** The expressions charged for one flow. *)
Lemma zip_row idss i ids ps (a : nat → Qc) :
  idss !! i = Some ids → length ids = length ps →
  (λ jp : nat * path, (jp.2, a (default 0 (Dict.get (rows_of idss) (i, jp.1))))) <$> enumerate ps
  = zip ps (a <$> ids).
Proof.
  intros Hi Hlen. apply list_eq. intros j.
  rewrite list_lookup_fmap, lookup_enumerate, lookup_zip_with, list_lookup_fmap.
  destruct (ps !! j) as [p|] eqn:Ep; [|done]. simpl.
  assert (j < length ids) as [x Hx]%lookup_lt_is_Some_2 by (rewrite Hlen; by eapply lookup_lt_Some).
  rewrite Hx. simpl. assert (Dict.get (rows_of idss) (i, j) = Some x) as -> by (apply get_rows; eauto).
  done.
Qed.

Lemma charge_one_flow idss ls i f ids ps a Y Y' :
  idss !! i = Some ids → paths f = Some ps → length ids = length ps →
  foldM (λ Y (ip : nat * path),
      let '(path_index, p) := ip in
      foldM (λ Y hop,
        link_index ← Dict.getitem ls (sorted_pair hop);
        x ← Dict.getitem (rows_of idss) (i, path_index);
        expr_at Y (i, link_index) (lin_scaled x (flow_tx_rate f))) Y (pairwise p))
      Y (enumerate ps) = Ok Y' →
  add_all (eval_dict a Y)
    (index_charges i ls (hop_charges (flow_tx_rate f) (zip ps (a <$> ids)))) = Ok (eval_dict a Y').
Proof.
  intros Hi Hps Hlen Hf.
  apply (foldM_eval_charges a _ (λ jp : nat * path,
    (λ hop, ((i, link_index ls (sorted_pair hop)),
             (a (default 0%nat (Dict.get (rows_of idss) (i, jp.1))) * flow_tx_rate f)%Qc))
    <$> pairwise jp.2)) in Hf.
  - rewrite <-Hf. f_equal. rewrite <-(zip_row idss i ids ps a Hi Hlen).
    unfold index_charges, hop_charges. rewrite fmap_concat, <-!list_fmap_compose.
    f_equal. apply list_fmap_ext. intros k [j p] _. simpl. unfold sorted_hops.
    by rewrite <-!list_fmap_compose.
  - intros Y1 [j p] Y2 _ Hstep. cbn [fst snd].
    rewrite <-concat_fmap_singleton.
    eapply foldM_eval_charges; [|exact Hstep]. intros Y3 hop Y4 _.
    intros (l & Hl%Dict.getitem_Ok & (x & Hx%Dict.getitem_Ok & He)%bind_Ok)%bind_Ok.
    unfold add_all, link_index. cbn [foldM fst snd]. rewrite Hl, Hx. simpl.
    apply (expr_at_eval a) in He. rewrite eval_scaled in He. by rewrite He.
Qed.

(** The charges of all flows, per flow. *)
Definition flow_charges (a : nat → Qc) (idss : list (list nat)) (ifl : nat * flow)
    : list (link * Qc) :=
  hop_charges (flow_tx_rate ifl.2)
    (zip (default [] (paths ifl.2)) (a <$> default [] (idss !! ifl.1))).

Section load.
Context (ls : dict link nat) (fs : list flow) (idss : list (list nat)) (a : nat → Qc).
Hypothesis rows_ok : ∀ i f, fs !! i = Some f →
  ∃ ids ps, idss !! i = Some ids ∧ paths f = Some ps ∧ length ids = length ps.

Lemma charge_flow_links_eval Y Y' :
  charge_flow_links (rows_of idss) ls fs Y = Ok Y' →
  add_all (eval_dict a Y)
    (concat ((λ ifl, index_charges ifl.1 ls (flow_charges a idss ifl)) <$> enumerate fs))
  = Ok (eval_dict a Y').
Proof.
  intros Hf. eapply (foldM_eval_charges a); [|exact Hf].
  intros Y1 [i f] Y2 Hin%elem_of_enumerate Hstep.
  destruct (rows_ok i f Hin) as (ids & ps & Hi & Hps & Hlen).
  unfold flow_charges. cbn [fst snd]. rewrite Hps, Hi.
  unfold flow_paths in Hstep. rewrite Hps in Hstep. simpl in Hstep.
  by eapply charge_one_flow.
Qed.

(** Only flow [i] contributes to the entries of flow [i]. *)
Lemma amounts_of_flow i f l :
  fs !! i = Some f →
  amounts (i, l) (concat ((λ ifl, index_charges ifl.1 ls (flow_charges a idss ifl)) <$> enumerate fs))
  = amounts (i, l) (index_charges i ls (flow_charges a idss (i, f))).
Proof.
  intros Hi. assert ((i, f) ∈ enumerate fs) as Hin by (by apply elem_of_enumerate).
  apply list_elem_of_split in Hin as (l1 & l2 & Heq).
  assert (∀ j f', (j, f') ∈ l1 ++ l2 → j ≠ i) as Hne.
  { intros j f' Hin ->. assert (NoDup (enumerate fs).*1) as Hnd.
    { rewrite fst_enumerate. apply NoDup_seq_nat. }
    rewrite Heq, fmap_app, fmap_cons in Hnd. apply NoDup_app in Hnd as (_ & Hd & Hnd2).
    apply NoDup_cons in Hnd2 as [Hn _]. apply elem_of_app in Hin as [Hin|Hin].
    - apply (Hd i); [|simpl; left]. by apply (list_elem_of_fmap_2 fst) in Hin.
    - apply Hn. by apply (list_elem_of_fmap_2 fst) in Hin. }
  rewrite Heq, fmap_app, fmap_cons, concat_app. cbn [concat]. rewrite !amounts_app.
  assert (∀ l0, (∀ j f', (j, f') ∈ l0 → j ≠ i) → amounts (i, l)
    (concat ((λ ifl, index_charges ifl.1 ls (flow_charges a idss ifl)) <$> l0)) = []) as Hnone.
  { clear -Hne. intros l0 Hl0. apply amounts_none. apply Forall_concat, Forall_fmap, Forall_forall.
    intros [j f'] Hin. apply Forall_fmap, Forall_forall. intros hx _. simpl.
    intros [= Hji _]. by apply (Hl0 j f'). }
  rewrite !Hnone, app_nil_r; [done|..]; intros j f' ?; apply (Hne j f'); set_solver.
Qed.
End load.

(** * From the flow totals to the link totals *)

Lemma NoDup_flow_link_pairs fs ls :
  NoDup (Dict.values ls) → NoDup (flow_link_pairs fs ls).
Proof.
  intros Hnd. unfold flow_link_pairs.
  cut (NoDup (concat ((λ ifl : nat * flow, (λ l, (ifl.1, l)) <$> Dict.values ls) <$> enumerate fs)) ∧
    ∀ k, k ∈ concat ((λ ifl : nat * flow, (λ l, (ifl.1, l)) <$> Dict.values ls) <$> enumerate fs) →
      k.1 < length fs); [by intros []|].
  induction fs as [|f fs [IH1 IH2]] using rev_ind; [split; [constructor|set_solver]|].
  rewrite enumerate_snoc, fmap_app, concat_app, length_app. cbn [fmap list_fmap concat fst].
  rewrite app_nil_r. split.
  - apply NoDup_app. split_and!; [done| |by apply NoDup_fmap_2; [intros ?? [= ->]|]].
    intros k Hk (l & -> & _)%list_elem_of_fmap. apply IH2 in Hk. simpl in Hk. lia.
  - intros k [Hk%IH2|(l & -> & _)%list_elem_of_fmap]%elem_of_app; simpl; lia.
Qed.

Lemma fsum_le {A} (f g : A → Qc) l :
  (∀ x, x ∈ l → (f x <= g x)%Qc) → (fsum (f <$> l) <= fsum (g <$> l))%Qc.
Proof.
  induction l as [|x l IH]; intros Hle; [apply Qcle_refl|]. rewrite !fmap_cons, !fsum_cons.
  apply Qcplus_le_compat; [apply Hle; left|]. apply IH. intros; apply Hle; by right.
Qed.

(** The link totals add up the flow totals of the link. *)
Lemma link_total_amounts (tot : nat * nat → Qc) fs ls l :
  NoDup (Dict.values ls) → l ∈ Dict.values ls →
  amounts l ((λ k, (k.2, tot k)) <$> flow_link_pairs fs ls)
  = (λ ifl : nat * flow, tot (ifl.1, l)) <$> enumerate fs.
Proof.
  intros Hnd Hl. unfold flow_link_pairs. rewrite fmap_concat, amounts_concat, <-!list_fmap_compose.
  rewrite <-(concat_fmap_singleton (λ ifl : nat * flow, tot (ifl.1, l))). f_equal.
  apply list_fmap_ext. intros _ [i f] _. simpl. rewrite <-list_fmap_compose.
  apply (amounts_single l (λ l', tot (i, l'))); done.
Qed.

Lemma sum_link_totals_eval a T U U' :
  sum_link_totals T U = Ok U' →
  add_all (prod_map id a <$> U) ((λ kt : (nat * nat) * nat, (kt.1.2, a kt.2)) <$> T)
  = Ok (eval_dict a U').
Proof.
  unfold sum_link_totals. intros Hf.
  assert (eval_dict a (prod_map id lin_var <$> U) = prod_map id a <$> U) as <-.
  { unfold eval_dict. rewrite <-list_fmap_compose. apply list_fmap_ext.
    intros _ [l u] _. simpl. by rewrite eval_var. }
  rewrite <-(concat_fmap_singleton (λ kt : (nat * nat) * nat, (kt.1.2, a kt.2))).
  eapply foldM_eval_charges; [|exact Hf].
  intros Y1 [k t] Y2 _ He%(expr_at_eval a). cbn [fst snd] in *. rewrite eval_var in He.
  unfold add_all. cbn [foldM fst snd]. by rewrite He.
Qed.

Lemma get_fmap_snd {K V W} `{Countable K} (f : V → W) (d : dict K V) k :
  Dict.get (prod_map id f <$> d) k = f <$> Dict.get d k.
Proof.
  induction d as [|[k' v] d IH]; [done|]. rewrite fmap_cons. cbn [Dict.get prod_map fst snd id].
  by case_decide.
Qed.

(** Entries of a table described element by element. *)
Lemma Forall2_get {K V} `{Countable K} (P : K → V → Prop) ks (d : dict K V) k :
  NoDup ks → Forall2 (λ k kv, kv.1 = k ∧ P k kv.2) ks d → k ∈ ks →
  ∃ v, Dict.get d k = Some v ∧ P k v.
Proof.
  intros Hnd Hall [i Hi]%list_elem_of_lookup.
  assert (Dict.keys d = ks) as Hk.
  { clear -Hall. induction Hall as [|k [k' v] ks d [Hk _] _ IH]; [done|].
    simpl in *. by rewrite Hk, IH. }
  destruct (Forall2_lookup_l _ _ _ _ _ Hall Hi) as ([k' v] & Hv & Hk' & HP). simpl in *. subst k'.
  exists v. split; [|done]. apply Dict.elem_of_get; [unfold Dict.wf; by rewrite Hk|].
  by eapply list_elem_of_lookup_2.
Qed.

Lemma Forall2_keys {A K V} (key : A → K) (P : A → V → Prop) l (d : dict K V) :
  Forall2 (λ x kv, kv.1 = key x ∧ P x kv.2) l d → Dict.keys d = key <$> l.
Proof.
  induction 1 as [|x [k v] l d [Hk _] _ IH]; [done|]. simpl in *. by rewrite Hk, IH.
Qed.

Lemma keys_eval_dict {K} `{Countable K} a (d : dict K LinExpr) :
  Dict.keys (eval_dict a d) = Dict.keys d.
Proof. unfold Dict.keys, eval_dict. rewrite <-list_fmap_compose. by apply list_fmap_ext; intros ? []. Qed.

Lemma values_sorted_link_set g : NoDup (Dict.values (sorted_link_set g)).
Proof.
  unfold sorted_link_set. apply Dict.values_of_pairs. rewrite <-list_fmap_compose.
  change (NoDup (fst <$> enumerate (edges g))). rewrite fst_enumerate. apply NoDup_seq_nat.
Qed.

(** What the phases of [capacity_model] establish about the finished model. *)
Record capacity_facts (xvar : nat → nat → res Var) (ls : dict link nat) (fs : list flow)
    (m : Model) (idss : list (list nat)) : Prop := {
  cf_match : x_match (rows_of idss) m;
  cf_length : length idss = length fs;
  cf_rows : ∀ i f ids, fs !! i = Some f → idss !! i = Some ids → row_of_flow xvar m i f ids;
  cf_load : ∃ Y Y' T U U' alpha,
    charge_flow_links (rows_of idss) ls fs Y = Ok Y' ∧
    Forall2 (λ k (ke : (nat * nat) * LinExpr), ke.1 = k ∧
      ∀ a, satisfies a m → (fzero <= eval a ke.2)%Qc) (flow_link_pairs fs ls) Y ∧
    Forall2 (λ (ke : (nat * nat) * LinExpr) (kt : (nat * nat) * nat), kt.1 = ke.1 ∧
      ∀ a, satisfies a m → a kt.2 = eval a ke.2) Y' T ∧
    Forall2 (λ l (lu : nat * nat), lu.1 = l ∧
      ∀ a, satisfies a m → (fzero <= a lu.2)%Qc) (Dict.values ls) U ∧
    sum_link_totals T U = Ok U' ∧
    ∀ a, satisfies a m → (a alpha <= fone)%Qc ∧ Forall (λ le, (eval a le.2 <= a alpha)%Qc) U'
}.

Lemma charge_flow_links_keys X ls fs Y Y' :
  charge_flow_links X ls fs Y = Ok Y' → Dict.keys Y' = Dict.keys Y.
Proof.
  assert (∀ (Y : dict (nat * nat) LinExpr) k e Y', expr_at Y k e = Ok Y' → Dict.keys Y' = Dict.keys Y) as He.
  { intros Y1 k e Y2 (v & Hv%Dict.getitem_Ok & [= <-])%bind_Ok. apply Dict.keys_set_mem. eauto. }
  intros Hf. refine (foldM_inv (λ Z, Dict.keys Z = Dict.keys Y) _ _ _ _ _ eq_refl Hf).
  intros Y1 [i f] Y2 _ <- (ps & _ & Hf2)%bind_Ok.
  refine (foldM_inv (λ Z, Dict.keys Z = Dict.keys Y1) _ _ _ _ _ eq_refl Hf2).
  intros Y3 [j p] Y4 _ <- Hf3.
  refine (foldM_inv (λ Z, Dict.keys Z = Dict.keys Y3) _ _ _ _ _ eq_refl Hf3).
  intros Y5 hop Y6 _ <- (l & _ & (x & _ & Hx)%bind_Ok)%bind_Ok. by eapply He.
Qed.

Lemma capacity_model_facts xvar g fs m :
  (∀ i j v, xvar i j = Ok v → varName v = name2 "X" "," i j) →
  capacity_model xvar g fs empty_model = (Ok tt, m) →
  ∃ idss, capacity_facts xvar (sorted_link_set g) fs m idss.
Proof.
  intros Hname. set (ls := sorted_link_set g). unfold capacity_model. fold ls.
  pose proof (values_sorted_link_set g) as Hnd. fold ls in Hnd.
  intros (X & m1 & HX & (Y & m2 & HY & (Y' & m2' & [HY' ->]%lift_Ok & Hrest)%bindS_Ok)%bindS_Ok)%bindS_Ok.
  apply bindS_Ok in Hrest as (T & m3 & HT & (alpha & m4 & Ha & (U & m5 & HU &
    (U' & m5' & [HU' ->]%lift_Ok & (K & m6 & HK & ([] & m7 & Hc & [= <-])%bindS_Ok)%bindS_Ok)%bindS_Ok)%bindS_Ok)%bindS_Ok).
  apply add_path_variables_spec in HX as (idss & -> & Hext & Hm & Hlen & Hrows); [|done|constructor].
  apply add_flow_link_variables_spec in HY as [K2 HY]; [|by apply NoDup_flow_link_pairs].
  assert (Dict.keys Y' = flow_link_pairs fs ls) as HkY'.
  { rewrite (charge_flow_links_keys _ _ _ _ _ HY').
    erewrite (Forall2_keys (A:=nat * nat) id (λ _ e, ∀ a, satisfies a m2 → (fzero <= eval a e)%Qc));
      [by rewrite list_fmap_id|exact HY]. }
  apply add_flow_totals_spec in HT as [K3 HT]; [|rewrite HkY'; by apply NoDup_flow_link_pairs].
  apply add_alpha_spec in Ha as [K4 Ha].
  apply add_link_variables_spec in HU as [K5 HU]; [|done..].
  apply add_link_variables_spec in HK as [K6 _]; [|done..].
  apply add_capacity_constraints_spec in Hc as [K7 Hc].
  set (m' := mkModel (vars m7) (constrs m7) (Some (lin_var alpha))).
  assert (keeps_x m7 m') as K8 by (split; [by split|by intros ?; apply x_match_same]).
  assert (keeps_x m5 m') as E5 by (do 2 (etrans; [done|]); done).
  assert (keeps_x m4 m') as E4 by (by etrans). assert (keeps_x m3 m') as E3 by (by etrans).
  assert (keeps_x m2 m') as E2 by (by etrans). assert (keeps_x m1 m') as E1 by (by etrans).
  assert (∀ n a, keeps_x n m' → satisfies a m' → satisfies a n) as Hsat
    by (intros n a [He _]; by apply satisfies_extends).
  exists idss. split; [by apply E1|done| |].
  - intros i f ids Hi Hids. eapply row_of_flow_extends; [apply E1|by eapply Hrows].
  - exists Y, Y', T, U, U', alpha. split_and!; [done| | | |done|].
    + eapply Forall2_impl; [exact HY|]. intros k ke [? Hq]. split; [done|]. intros a Ha'. by eapply Hq, Hsat.
    + eapply Forall2_impl; [exact HT|]. intros k ke [? Hq]. split; [done|]. intros a Ha'. by eapply Hq, Hsat.
    + eapply Forall2_impl; [exact HU|]. intros k ke [? Hq]. split; [done|]. intros a Ha'. by eapply Hq, Hsat.
    + intros a Ha'. split; [by eapply Ha, Hsat|by eapply Hc, Hsat].
Qed.

(** ** The totals of a solution, link by link *)

Section totals.
Context (ls : dict link nat) (fs : list flow) (m : Model) (idss : list (list nat)) (a : nat → Qc).
Context (Y Y' : dict (nat * nat) LinExpr) (T : dict (nat * nat) nat).
Hypothesis Hnd : NoDup (Dict.values ls).
Hypothesis Ha : satisfies a m.
Hypothesis rows_ok : ∀ i f, fs !! i = Some f →
  ∃ ids ps, idss !! i = Some ids ∧ paths f = Some ps ∧ length ids = length ps.
Hypothesis HY' : charge_flow_links (rows_of idss) ls fs Y = Ok Y'.
Hypothesis HY : Forall2 (λ k (ke : (nat * nat) * LinExpr), ke.1 = k ∧
  ∀ a, satisfies a m → (fzero <= eval a ke.2)%Qc) (flow_link_pairs fs ls) Y.
Hypothesis HT : Forall2 (λ (ke : (nat * nat) * LinExpr) (kt : (nat * nat) * nat), kt.1 = ke.1 ∧
  ∀ a, satisfies a m → a kt.2 = eval a ke.2) Y' T.

(** The value of the expression of a flow and a link. *)
Definition tot (k : nat * nat) : Qc := default fzero (Dict.get (eval_dict a Y') k).

Lemma keys_charged : Dict.keys Y' = flow_link_pairs fs ls.
Proof.
  rewrite (charge_flow_links_keys _ _ _ _ _ HY').
  erewrite (Forall2_keys (A:=nat * nat) id (λ _ e, ∀ a, satisfies a m → (fzero <= eval a e)%Qc));
    [by rewrite list_fmap_id|exact HY].
Qed.

Lemma flow_totals_list :
  (λ kt : (nat * nat) * nat, (kt.1.2, a kt.2)) <$> T
  = (λ k, (k.2, tot k)) <$> flow_link_pairs fs ls.
Proof.
  rewrite <-keys_charged. unfold Dict.keys. rewrite <-list_fmap_compose.
  assert (∀ k e, (k, e) ∈ Y' → tot k = eval a e) as Htot.
  { intros k e Hin%Dict.elem_of_get; [unfold tot; by rewrite get_eval_dict, Hin|].
    unfold Dict.wf. rewrite keys_charged. by apply NoDup_flow_link_pairs. }
  generalize dependent tot. intros f Htot. clear HY'.
  pose proof HT as HT'. clear HT.
  induction HT' as [|[k e] [k' t] Y0 T0 [Hk Ht] _ IH]; [done|].
  rewrite !fmap_cons, IH by (intros; apply Htot; by right). simpl in *. subst k'.
  rewrite (Htot k e) by left. by rewrite (Ht a Ha).
Qed.

Lemma elem_of_flow_link_pairs i f l :
  fs !! i = Some f → l ∈ Dict.values ls → (i, l) ∈ flow_link_pairs fs ls.
Proof.
  intros Hi Hl. unfold flow_link_pairs. apply list_elem_of_In, in_concat.
  exists ((λ l, (i, l)) <$> Dict.values ls).
  split; apply list_elem_of_In; apply list_elem_of_fmap; [|by exists l].
  exists (i, f). split; [done|]. by apply elem_of_enumerate.
Qed.

(** It is at least what the paths of the flow put on the link. *)
Lemma flow_charges_le_tot i f l :
  fs !! i = Some f → l ∈ Dict.values ls →
  (fsum (amounts (i, l) (index_charges i ls (flow_charges a idss (i, f)))) <= tot (i, l))%Qc.
Proof.
  intros Hi Hl. pose proof (charge_flow_links_eval ls fs idss a rows_ok Y Y' HY') as Hadd.
  destruct (Forall2_get (λ _ e, ∀ a, satisfies a m → (fzero <= eval a e)%Qc) _ _ (i, l)
    (NoDup_flow_link_pairs fs ls Hnd) HY (elem_of_flow_link_pairs i f l Hi Hl)) as (y & Hy & Hy0).
  pose proof (add_all_get _ _ _ Hadd (i, l) (eval a y)) as Hg.
  rewrite get_eval_dict, Hy in Hg. specialize (Hg eq_refl).
  rewrite (amounts_of_flow ls fs idss a rows_ok i f l Hi) in Hg.
  unfold tot. rewrite Hg. simpl. specialize (Hy0 a Ha).
  generalize dependent (fsum (amounts (i, l) (index_charges i ls (flow_charges a idss (i, f))))).
  intros. qc_lra.
Qed.
End totals.

Lemma link_total_bound xvar ls fs m idss a l :
  NoDup (Dict.values ls) → capacity_facts xvar ls fs m idss → satisfies a m → l ∈ Dict.values ls →
  (fsum ((λ ifl : nat * flow,
     fsum (amounts (ifl.1, l) (index_charges ifl.1 ls (flow_charges a idss ifl)))) <$> enumerate fs)
   <= LINK_CAPACITY)%Qc.
Proof.
  intros Hnd [_ Hlen Hrows (Y & Y' & T & U & U' & alpha & HY' & HY & HT & HU & HU' & Hcap)] Ha Hl.
  assert (∀ i f, fs !! i = Some f →
    ∃ ids ps, idss !! i = Some ids ∧ paths f = Some ps ∧ length ids = length ps) as Hok.
  { intros i f Hf. destruct (lookup_lt_is_Some_2 idss i) as [ids Hids].
    { rewrite Hlen. by eapply lookup_lt_Some. }
    destruct (Hrows i f ids Hf Hids) as (_ & (ps & ? & ?) & _). eauto. }
  destruct (Forall2_get (λ _ u, ∀ a, satisfies a m → (fzero <= a u)%Qc) _ _ l Hnd HU Hl)
    as (u & Hu & Hu0). specialize (Hu0 a Ha).
  pose proof (sum_link_totals_eval a T U U' HU') as Hsum.
  rewrite (flow_totals_list ls fs m idss a Y Y' T) in Hsum by done.
  pose proof (add_all_get _ _ _ Hsum l (a u)) as Hget. rewrite get_fmap_snd, Hu in Hget.
  specialize (Hget eq_refl). rewrite link_total_amounts in Hget by done.
  rewrite get_eval_dict in Hget. apply fmap_Some in Hget as (e & He%Dict.get_elem_of & Heq).
  destruct (Hcap a Ha) as [Halpha Hall]. rewrite Forall_forall in Hall.
  specialize (Hall _ He). simpl in Hall. rewrite <-Heq in Hall.
  etrans; [apply (fsum_le _ (λ ifl : nat * flow, tot a Y' (ifl.1, l)))|].
  - intros [i f] Hi%elem_of_enumerate. by apply (flow_charges_le_tot ls fs m idss a Y Y').
  - unfold LINK_CAPACITY. generalize dependent (fsum ((λ ifl : nat * flow, tot a Y' (ifl.1, l)) <$> enumerate fs)).
    intros. qc_lra.
Qed.

(** * Reading the solution *)

(** The load a routed flow puts on the links. *)
Definition flow_load_charges (f : flow) : list (link * Qc) :=
  hop_charges (flow_tx_rate f) (zip (default [] (paths f)) (default [] (splitting_ratio f))).

Definition set_ratios (f : flow) (rs : list Qc) : flow :=
  mkFlow (source_node f) (destination_node f) (flow_tx_rate f) (paths f) (Some rs).

Lemma py_index_nat {A} (l : list A) n : py_index l (Z.of_nat n) = or_raise IndexError (l !! n).
Proof. unfold py_index. rewrite bool_decide_true by lia. by rewrite Nat2Z.id. Qed.

Lemma append_ratio_spec fl n x fl' :
  append_ratio fl (Z.of_nat n) x = Ok fl' →
  ∃ f rs, fl !! n = Some f ∧ splitting_ratio f = Some rs ∧
    fl' = <[n := set_ratios f (rs ++ [x])]> fl.
Proof.
  unfold append_ratio. rewrite py_index_nat.
  intros (f & Hf%or_raise_Ok & (rs & Hrs%or_raise_Ok & [= <-])%bind_Ok)%bind_Ok.
  exists f, rs. split_and!; [done..|]. unfold py_pos. rewrite bool_decide_true by lia.
  by rewrite Nat2Z.id.
Qed.

Definition append_entry (a : nat → Qc) (fl : list flow) (kx : (nat * nat) * nat) : res (list flow) :=
  append_ratio fl (Z.of_nat kx.1.1) (a kx.2).

(** Reading a solution appends the values of the path variables in order. *)
Lemma read_solution_entries links fl m a fl' U X :
  x_match X m → read_solution links fl m a = Ok (fl', U) → foldM (append_entry a) fl X = Ok fl'.
Proof.
  unfold x_match, x_decls, read_solution. generalize (@nil (link * Qc)) as U0.
  generalize (enumerate (vars m)) as l. intros l; revert fl X.
  induction l as [|[i v] l IH]; intros fl X U0; cbn [foldM].
  { rewrite filter_nil. intros ->%Forall2_nil_inv_r [= <- <-]. done. }
  rewrite filter_cons. cbn [snd]. intros Hm ([fl1 U1] & Hstep & Hrest)%bind_Ok.
  unfold read_variable in Hstep. case_decide as Hx.
  - rewrite Hx in Hstep. apply Forall2_cons_inv_r in Hm as ([[fi pj] x] & X' & [Hi Hn] & Hm & ->).
    cbn [fst snd] in Hi, Hn. subst x. rewrite Hn, index_of_X in Hstep. simpl in Hstep.
    apply bind_Ok in Hstep as (fl2 & Hfl2 & [= <- <-]).
    assert (append_entry a fl (fi, pj, i) = Ok fl2) as Hae by exact Hfl2.
    cbn [foldM]. rewrite Hae. by eapply IH.
  - apply not_true_is_false in Hx. rewrite Hx in Hstep.
    assert (fl1 = fl) as ->; [|by eapply IH].
    destruct (str_in "K" (varName v)); [|by injection Hstep].
    apply bind_Ok in Hstep as (idx & _ & Hs). destruct idx; try done.
    by apply bind_Ok in Hs as (l0 & _ & [= <- _]).
Qed.

Lemma foldM_append_entry a X fl fl' :
  foldM (append_entry a) fl X = Ok fl' →
  length fl' = length fl ∧
  ∀ i f rs, fl !! i = Some f → splitting_ratio f = Some rs →
    fl' !! i = Some (set_ratios f (rs ++ amounts i ((λ kx, (kx.1.1, a kx.2)) <$> X))).
Proof.
  revert fl; induction X as [|[[j p] x] X IH]; intros fl; cbn [foldM].
  { intros [= <-]. split; [done|]. intros i f rs Hf Hrs. change (amounts _ _) with (@nil Qc).
    rewrite app_nil_r. destruct f. simpl in *. subst. done. }
  intros (fl1 & (f0 & rs0 & Hf0 & Hrs0 & ->)%append_ratio_spec & [Hlen Hrest]%IH)%bind_Ok.
  rewrite length_insert in Hlen. split; [done|]. cbn [fst snd] in *.
  intros i f rs Hf Hrs. rewrite fmap_cons, amounts_cons. cbn [fst snd].
  destruct (decide (j = i)) as [->|Hne].
  - assert (f0 = f) as -> by congruence. assert (rs0 = rs) as -> by congruence.
    rewrite (Hrest i (set_ratios f (rs ++ [a x])) (rs ++ [a x]));
      [|by rewrite list_lookup_insert_eq by (by eapply lookup_lt_Some)|done].
    f_equal. unfold set_ratios. simpl. by rewrite <-(assoc_L (++)).
  - rewrite (Hrest i f rs); [done| |done]. by rewrite list_lookup_insert_ne.
Qed.

Lemma amounts_rows (a : nat → Qc) idss i ids :
  idss !! i = Some ids →
  amounts i ((λ kx : (nat * nat) * nat, (kx.1.1, a kx.2)) <$> rows_of idss) = a <$> ids.
Proof.
  revert i ids; induction idss as [|ids0 idss IH] using rev_ind; [done|].
  intros i ids. rewrite rows_of_snoc, fmap_app, amounts_app.
  assert (∀ n l, amounts i ((λ kx : (nat * nat) * nat, (kx.1.1, a kx.2)) <$> row n l)
    = if decide (n = i) then a <$> l else []) as Hrow.
  { intros n l. induction l as [|x l IHl] using rev_ind; [by case_decide|].
    rewrite row_snoc, fmap_app, amounts_app, IHl, fmap_app.
    cbn [fmap list_fmap fst snd]. rewrite amounts_cons. by case_decide. }
  rewrite Hrow. intros [Hi|[Hi1 [Hi2 <-]%list_lookup_singleton_Some]]%lookup_app_Some.
  - rewrite (IH i ids Hi), decide_False, app_nil_r; [done|]. apply lookup_lt_Some in Hi. lia.
  - rewrite decide_True by lia. rewrite amounts_none; [done|].
    apply Forall_fmap, Forall_forall. intros [k x] (ids' & Hk & _)%elem_of_rows. simpl.
    apply lookup_lt_Some in Hk. lia.
Qed.

(** The flows after reading: flow [i] has the values of row [i]. *)
Lemma read_solution_flows links fl m a fl' U idss :
  x_match (rows_of idss) m → length idss = length fl →
  Forall (λ f, splitting_ratio f = Some []) fl →
  read_solution links fl m a = Ok (fl', U) →
  fl' = zip_with set_ratios fl ((λ ids : list nat, a <$> ids) <$> idss).
Proof.
  intros Hm Hlen Hempty Hr. eapply read_solution_entries in Hr; [|exact Hm].
  apply foldM_append_entry in Hr as [Hl Hget]. apply list_eq. intros i.
  rewrite lookup_zip_with, list_lookup_fmap. rewrite Forall_forall in Hempty.
  destruct (fl !! i) as [f|] eqn:Ef.
  - assert (splitting_ratio f = Some []) as Hrs by (apply Hempty; by eapply list_elem_of_lookup_2).
    destruct (lookup_lt_is_Some_2 idss i) as [ids Hids]; [rewrite Hlen; by eapply lookup_lt_Some|].
    rewrite Hids. simpl. rewrite (Hget i f [] Ef Hrs). simpl. by rewrite (amounts_rows a idss i ids Hids).
  - apply lookup_ge_None in Ef. simpl. apply lookup_ge_None. lia.
Qed.

(** * Solutions are allocations *)

(** The same flow up to its splitting ratios. *)
Definition same_demand (f f' : flow) : Prop :=
  flow_tx_rate f' = flow_tx_rate f ∧ paths f' = paths f.

Lemma elem_of_hop_charges rate prs h x :
  (h, x) ∈ hop_charges rate prs → ∃ p r hop, (p, r) ∈ prs ∧ hop ∈ pairwise p ∧ h = sorted_pair hop.
Proof.
  unfold hop_charges. intros (cs & Hcs & Hin)%list_elem_of_In%in_concat.
  apply list_elem_of_In, list_elem_of_fmap in Hcs as ([p r] & -> & Hp).
  apply list_elem_of_In, list_elem_of_fmap in Hin as (h' & [= -> ->] & Hh).
  apply list_elem_of_fmap in Hh as (hop & -> & Hhop). by exists p, r, hop.
Qed.

Lemma amounts_index_charges i ls cs e l :
  NoDup (Dict.values ls) → Dict.get ls e = Some l →
  Forall (λ c : link * Qc, is_Some (Dict.get ls c.1)) cs →
  amounts (i, l) (index_charges i ls cs) = amounts e cs.
Proof.
  intros Hnd He. unfold index_charges. induction 1 as [|[h x] cs [l' Hl'] _ IH]; [done|].
  rewrite fmap_cons, !amounts_cons, IH. simpl in Hl'. unfold link_index. cbn [fst snd].
  rewrite Hl'. simpl. f_equal. destruct (decide (h = e)) as [->|Hne].
  - rewrite decide_True by congruence. done.
  - rewrite decide_False; [done|]. intros [= ->]. apply Hne. by eapply Dict.get_inj.
Qed.

Section solved.
Context (xvar : nat → nat → res Var) (ls : dict link nat) (fs fl : list flow) (m : Model).
Context (idss : list (list nat)) (a : nat → Qc).
Hypothesis Hnd : NoDup (Dict.values ls).
Hypothesis facts : capacity_facts xvar ls fs m idss.
Hypothesis Ha : satisfies a m.
Hypothesis Hsame : Forall2 same_demand fs fl.

Let solved := zip_with set_ratios fl ((λ ids : list nat, a <$> ids) <$> idss).

Lemma solved_ratios f :
  f ∈ solved → ∃ ps rs, paths f = Some ps ∧ splitting_ratio f = Some rs ∧
    length rs = length ps ∧ fsum rs = fone ∧
    Forall (λ r, ∃ i j v, xvar i j = Ok v ∧ admissible v r) rs.
Proof.
  intros [i Hi]%list_elem_of_lookup. unfold solved in Hi. rewrite lookup_zip_with, list_lookup_fmap in Hi.
  destruct (fl !! i) as [f0|] eqn:Ef0; [|done]. destruct (idss !! i) as [ids|] eqn:Eids; [|done].
  simpl in Hi. injection Hi as <-.
  destruct (Forall2_lookup_r _ _ _ _ _ Hsame Ef0) as (f1 & Hf1 & _ & Hp).
  destruct (cf_rows _ _ _ _ _ facts i f1 ids Hf1 Eids) as (Hdecl & (ps & Hps & Hlen) & Hsum).
  exists ps, (a <$> ids). simpl. split_and!; [congruence|done|by rewrite length_fmap|by apply Hsum|].
  apply Forall_fmap, Forall_forall. intros x [j Hj]%list_elem_of_lookup.
  destruct (Hdecl j x Hj) as (v & Hv & Hx). exists i, j, v. split; [done|]. by apply (proj1 Ha).
Qed.

Lemma solved_charges :
  flow_load_charges <$> solved = flow_charges a idss <$> enumerate fs.
Proof.
  apply list_eq. intros i. unfold solved.
  rewrite !list_lookup_fmap, lookup_enumerate, lookup_zip_with, list_lookup_fmap.
  destruct (fs !! i) as [f|] eqn:Ef.
  - destruct (Forall2_lookup_l _ _ _ _ _ Hsame Ef) as (f' & Ef' & Hr & Hp). rewrite Ef'. simpl.
    destruct (lookup_lt_is_Some_2 idss i) as [ids Hids].
    { rewrite (cf_length _ _ _ _ _ facts). by eapply lookup_lt_Some. }
    unfold flow_load_charges, flow_charges. rewrite Hids. simpl. by rewrite Hids, Hr, Hp.
  - assert (fl !! i = None) as ->; [|done]. apply lookup_ge_None.
    rewrite <-(Forall2_length _ _ _ Hsame). by apply lookup_ge_None.
Qed.

Lemma flow_charges_known i f :
  fs !! i = Some f → Forall (λ c : link * Qc, is_Some (Dict.get ls c.1)) (flow_charges a idss (i, f)).
Proof.
  intros Hi. apply Forall_forall. intros [h x] (p & r & hop & Hp & Hhop & ->)%elem_of_hop_charges.
  destruct facts as [_ Hlen Hrows (Y & Y' & _ & _ & _ & _ & HY' & _)].
  destruct (lookup_lt_is_Some_2 idss i) as [ids Hids].
  { rewrite Hlen. by eapply lookup_lt_Some. }
  destruct (Hrows i f ids Hi Hids) as (_ & (ps & Hps & _) & _).
  cbn [fst snd] in *. rewrite Hps in Hp. simpl in Hp. apply elem_of_zip_l in Hp.
  by eapply charge_flow_links_known.
Qed.

Lemma solved_within_capacity e :
  e ∈ Dict.keys ls →
  (fsum (amounts e (concat (flow_load_charges <$> solved))) <= LINK_CAPACITY)%Qc.
Proof.
  intros [l Hl]%Dict.elem_of_keys. rewrite solved_charges, amounts_concat, fsum_concat.
  assert (l ∈ Dict.values ls) as Hin.
  { apply Dict.get_elem_of in Hl. by apply (list_elem_of_fmap_2 snd) in Hl. }
  etrans; [|by eapply link_total_bound]. rewrite <-!list_fmap_compose. apply fsum_le.
  intros [i f] Hi%elem_of_enumerate. simpl.
  rewrite (amounts_index_charges i ls _ e l); [apply Qcle_refl|done..|by apply flow_charges_known].
Qed.
End solved.
