(* ===== verification/SolverAllocation.v ===== *)
(** The allocations computed with the optimizer, [compute_ilp_flows] and
    [compute_path_hopping_flows_ilp]: when the optimizer only returns
    solutions of the models it is given, the flows they return are split
    completely, within the capacity of every link, and the utilization they
    report is the load of the returned flows. *)

From Stdlib Require Import QArith Qcanon Lqa Ascii.
From S2P Require Import Prelude PyDict PyFloat PyStr Accum LinProg FlowAllocation FlowAllocationProps Routes PathModels PathModelsProps.

(** * The link capacity map *)

Lemma foldM_add_at_hops (hops : list link) (u : dict link Qc) x :
  foldM (λ u hop, add_at u (sorted_pair hop) x) u hops
  = add_all u ((λ h, (h, x)) <$> (sorted_pair <$> hops)).
Proof.
  revert u; induction hops as [|h hops IH]; intros u; [done|].
  unfold add_all in *. cbn [foldM fmap list_fmap fst snd].
  destruct (add_at u (sorted_pair h) x); simpl; [apply IH|done].
Qed.

Lemma charge_link_capacity_add_all flows u :
  Forall (λ f, is_Some (paths f) ∧ is_Some (splitting_ratio f)) flows →
  charge_link_capacity flows u = add_all u (concat (flow_load_charges <$> flows)).
Proof.
  intros Hall. unfold charge_link_capacity. rewrite <-foldM_add_all. apply foldM_ext.
  intros v f Hin. rewrite Forall_forall in Hall. destruct (Hall f Hin) as [[ps Hps] [rs Hrs]].
  unfold flow_paths, flow_load_charges, hop_charges. rewrite Hps, Hrs. simpl.
  rewrite <-foldM_add_all. apply foldM_ext. intros w [p r] _. cbn [fst snd].
  apply foldM_add_at_hops.
Qed.

Lemma get_zero_table (es : list link) e x :
  Dict.get (Dict.of_pairs ((λ e, (e, fzero (F:=Qc))) <$> es)) e = Some x → x = fzero.
Proof.
  intros Hin%Dict.get_elem_of. revert Hin. unfold Dict.of_pairs.
  cut (∀ d : dict link Qc, (∀ y, (e, y) ∈ d → y = fzero) →
    (e, x) ∈ foldl (λ d kv, Dict.set d kv.1 kv.2) d ((λ e, (e, fzero)) <$> es) → x = fzero);
    [intros Hc; apply Hc; intros y; set_solver|].
  induction es as [|e' es IH]; simpl; intros d Hd; [apply Hd|].
  apply IH. intros y [[_ ->]|Hin]%Dict.elem_of_set; [done|by apply Hd].
Qed.

(** * The loops *)

(** What the loops maintain: the feasible model is the one created for the
    flows admitted so far. *)
Definition solved_by (create : list flow → node → node → Qc → list path → res unit * Model)
    (optimize : Model → option (nat → Qc)) (flows : list flow)
    (feasible : option (Model * (nat → Qc))) : Prop :=
  Forall (λ f, is_Some (paths f) ∧ splitting_ratio f = Some []) flows ∧
  match feasible with
  | None => flows = []
  | Some (m, a) => ∃ init s t rate ps,
      flows = init ++ [mkFlow s t rate (Some ps) (Some [])] ∧
      create init s t rate ps = (Ok tt, m) ∧ optimize m = Some a
  end.

Lemma solved_by_step create optimize flows s t rate ps m a feasible :
  solved_by create optimize flows feasible →
  create flows s t rate ps = (Ok tt, m) → optimize m = Some a →
  solved_by create optimize (flows ++ [mkFlow s t rate (Some ps) (Some [])]) (Some (m, a)).
Proof.
  intros [Hall _] Hc Ho. split; [|naive_solver]. apply Forall_app. split; [done|].
  apply Forall_singleton. simpl. eauto.
Qed.

Section loops.
Context {RNG : Type}.
Variable np_seed : Z → RNG.
Variable np_uniform : Qc → Qc → M RNG Qc.
Variable node_disjoint_paths : Graph → node → node → res (list path).
Variable optimize : Model → option (nat → Qc).

Lemma ilp_loop_solved select g fuel flows feasible rng flows' feasible' rng' :
  solved_by (create_k_paths_model g) optimize flows feasible →
  ilp_loop np_uniform node_disjoint_paths optimize select g fuel flows feasible rng
    = (Ok (Some (flows', feasible')), rng') →
  solved_by (create_k_paths_model g) optimize flows' feasible'.
Proof.
  revert flows feasible rng; induction fuel as [|fuel IH]; intros flows feasible rng Hinv;
    cbn [ilp_loop]; [done|].
  intros ([s t] & r1 & _ & (ps & r2 & _ & (rate & r3 & _ & Hrest)%bindS_Ok)%bindS_Ok)%bindS_Ok.
  destruct (create_k_paths_model g flows s t rate ps) as [r m] eqn:Ec.
  apply bindS_Ok in Hrest as ([] & r4 & [-> ->]%lift_Ok & Hrest).
  destruct (optimize m) as [a|] eqn:Eo; [|by injection Hrest as <- <- _].
  eapply IH; [|exact Hrest]. by eapply solved_by_step.
Qed.

Lemma path_hopping_ilp_loop_solved select K g fuel flows feasible rng flows' feasible' rng' :
  solved_by (λ fl s t rate ps, create_path_hopping_ilp_model g fl s t rate ps K)
    optimize flows feasible →
  path_hopping_ilp_loop np_uniform node_disjoint_paths optimize select K g fuel flows feasible rng
    = (Ok (Some (flows', feasible')), rng') →
  solved_by (λ fl s t rate ps, create_path_hopping_ilp_model g fl s t rate ps K)
    optimize flows' feasible'.
Proof.
  revert flows feasible rng; induction fuel as [|fuel IH]; intros flows feasible rng Hinv;
    cbn [path_hopping_ilp_loop]; [done|].
  intros ([s t] & r1 & _ & (rate & r2 & _ & (ps & r3 & _ & Hrest)%bindS_Ok)%bindS_Ok)%bindS_Ok.
  destruct (create_path_hopping_ilp_model g flows s t rate ps K) as [r m] eqn:Ec.
  apply bindS_Ok in Hrest as ([] & r4 & [-> ->]%lift_Ok & Hrest).
  destruct (optimize m) as [a|] eqn:Eo; [|by injection Hrest as <- <- _].
  eapply IH; [|exact Hrest]. by eapply solved_by_step.
Qed.

(** What the loop result means, for both models. *)
Lemma solved_by_facts create xvar g flows m a :
  (∀ i j v, xvar i j = Ok v → varName v = name2 "X" "," i j) →
  (∀ fl s t rate ps, create fl s t rate ps =
     capacity_model xvar g (fl ++ [mkFlow s t rate (Some ps) None]) empty_model) →
  solved_by create optimize flows (Some (m, a)) →
  optimize m = Some a ∧ ∃ fs idss, capacity_facts xvar (sorted_link_set g) fs m idss ∧
    Forall2 same_demand fs flows ∧ length idss = length flows.
Proof.
  intros Hname Hcreate [_ (init & s & t & rate & ps & -> & Hc & Ho)]. split; [done|].
  rewrite Hcreate in Hc. apply capacity_model_facts in Hc as [idss Hf]; [|done].
  exists (init ++ [mkFlow s t rate (Some ps) None]), idss.
  assert (Forall2 same_demand (init ++ [mkFlow s t rate (Some ps) None])
    (init ++ [mkFlow s t rate (Some ps) (Some [])])) as Hsame.
  { apply Forall2_app; [|by repeat constructor]. by apply Forall_Forall2_diag, Forall_true. }
  split_and!; [done..|]. rewrite <-(Forall2_length _ _ _ Hsame). apply (cf_length _ _ _ _ _ Hf).
Qed.
End loops.

(** * Properties *)

Lemma k_paths_variable_name i j v :
  k_paths_variable i j = Ok v → varName v = name2 "X" "," i j.
Proof. by intros [= <-]. Qed.

Lemma path_hopping_variable_name K i j v :
  path_hopping_variable K i j = Ok v → varName v = name2 "X" "," i j.
Proof. by intros (sh & _ & [= <-])%bind_Ok. Qed.

Lemma keys_sorted_link_set g e : e ∈ Dict.keys (sorted_link_set g) ↔ e ∈ sorted_pair <$> edges g.
Proof.
  unfold sorted_link_set. rewrite Dict.elem_of_keys_of_pairs, <-list_fmap_compose.
  rewrite !list_elem_of_fmap. split.
  - intros ([i e'] & -> & Hin%elem_of_enumerate). exists e'. split; [done|].
    by eapply list_elem_of_lookup_2.
  - intros (e' & -> & [i Hi]%list_elem_of_lookup). exists (i, e'). split; [done|].
    by apply elem_of_enumerate.
Qed.

(** The load that flows with splitting ratios put on a link. *)
Definition link_load (flows : list flow) (e : link) : Qc :=
  fsum (amounts e (concat (flow_load_charges <$> flows))).

(** Hops of paths are sorted, so an unsorted pair carries no load. *)
Lemma link_load_unsorted flows e : sorted_pair e ≠ e → link_load flows e = fzero.
Proof.
  intros He. unfold link_load. rewrite amounts_none; [done|]. apply Forall_forall.
  intros [h x] (cs & Hcs & Hin)%list_elem_of_In%in_concat Heq. simpl in Heq. subst h.
  apply list_elem_of_In, list_elem_of_fmap in Hcs as (f & -> & _).
  apply list_elem_of_In, elem_of_hop_charges in Hin as (p & r & hop & _ & _ & ->).
  by rewrite sorted_pair_idemp in He.
Qed.

Lemma solved_flows_sound create xvar optimize g flows m a links fl' U :
  (∀ i j v, xvar i j = Ok v → varName v = name2 "X" "," i j) →
  (∀ fl s t rate ps, create fl s t rate ps =
     capacity_model xvar g (fl ++ [mkFlow s t rate (Some ps) None]) empty_model) →
  (∀ m a, optimize m = Some a → satisfies a m) →
  solved_by create optimize flows (Some (m, a)) →
  read_solution links flows m a = Ok (fl', U) →
  Forall (λ f, ∃ ps rs, paths f = Some ps ∧ splitting_ratio f = Some rs ∧
    length rs = length ps ∧ fsum rs = fone ∧
    Forall (λ r, ∃ i j v, xvar i j = Ok v ∧ admissible v r) rs) fl' ∧
  ∀ e, e ∈ sorted_pair <$> edges g → (link_load fl' e <= LINK_CAPACITY)%Qc.
Proof.
  intros Hname Hcreate Hopt Hinv Hread. pose proof Hinv as [Hall _].
  apply (solved_by_facts optimize create xvar g) in Hinv as (Ho & fs & idss & Hf & Hsame & Hlen);
    [|done..].
  apply (read_solution_flows _ _ _ _ _ _ idss) in Hread as ->;
    [|apply (cf_match _ _ _ _ _ Hf)|done|eapply Forall_impl; [exact Hall|naive_solver]].
  split.
  - apply Forall_forall. intros f Hin. eapply solved_ratios; eauto.
  - intros e He%keys_sorted_link_set.
    apply (solved_within_capacity xvar (sorted_link_set g) fs flows m idss a); auto.
    apply values_sorted_link_set.
Qed.

Lemma ilp_flows_sound {RNG} (np_seed : Z → RNG) np_uniform node_disjoint_paths
    optimize fuel g select seed rng flows u rng' :
  (∀ m a, optimize m = Some a → satisfies a m) →
  compute_ilp_flows np_seed np_uniform node_disjoint_paths optimize fuel g select seed rng
    = (Ok (Some (flows, u)), rng') →
  Forall (λ f, ∃ ps rs, paths f = Some ps ∧ splitting_ratio f = Some rs ∧
    length rs = length ps ∧ fsum rs = fone ∧
    Forall (λ r, fzero <= r ∧ r <= fone)%Qc rs) flows ∧
  ∀ e x, Dict.get u e = Some x → x = link_load flows e ∧ (x <= LINK_CAPACITY)%Qc.
Proof.
  intros Hopt. unfold compute_ilp_flows.
  intros ([] & r0 & _ & (result & r1 & Hloop & Hrest)%bindS_Ok)%bindS_Ok.
  destruct result as [[fl fm]|]; [|done].
  apply ilp_loop_solved in Hloop; [|by split; [constructor|]].
  destruct fm as [[m a]|]; [|injection Hrest as <- <- _; split; [constructor|done]].
  apply bindS_Ok in Hrest as ([fl' U] & r2 & [Hread ->]%lift_Ok & Hrest).
  apply bindS_Ok in Hrest as (u' & r3 & [Hu ->]%lift_Ok & [= -> -> _]).
  destruct (solved_flows_sound _ k_paths_variable optimize g fl m a (indexed_links g) flows U
    k_paths_variable_name (λ _ _ _ _ _, eq_refl) Hopt Hloop Hread) as [Hr Hload]. split.
  - eapply Forall_impl; [exact Hr|]. intros f (ps & rs & ? & ? & ? & ? & Hadm).
    exists ps, rs. split_and!; [done..|]. eapply Forall_impl; [exact Hadm|].
    by intros r (i & j & v & [= <-] & Hb).
  - rewrite charge_link_capacity_add_all in Hu.
    2: { eapply Forall_impl; [exact Hr|]. intros f (ps & rs & -> & -> & _). split; by eexists. }
    intros e x Hx. assert (e ∈ Dict.keys (Dict.of_pairs ((λ e, (e, fzero (F:=Qc))) <$> edges g))) as He.
    { rewrite <-(add_all_keys _ _ _ Hu). apply Dict.elem_of_keys. eauto. }
    pose proof He as [z Hz]%Dict.elem_of_keys.
    pose proof (add_all_get _ _ _ Hu e z Hz) as Hget. apply get_zero_table in Hz as ->.
    rewrite exact_add_0_l, Hx in Hget. injection Hget as Hget. split; [done|].
    rewrite Hget. change (link_load flows e <= LINK_CAPACITY)%Qc.
    destruct (decide (sorted_pair e = e)) as [Hs|Hs]; [|rewrite link_load_unsorted by done; done].
    apply Hload. rewrite Dict.elem_of_keys_of_pairs, <-list_fmap_compose in He.
    apply list_elem_of_fmap in He as (e' & -> & He'). apply list_elem_of_fmap. by exists e'.
Qed.


(** The two node graph again: with draws of [2/5] the model has a solution
    for one and for two flows. The assignment is read off the names. *)
Definition tiny_guess (m : Model) (i : nat) : Qc :=
  let n := length (x_decls m) in
  match vars m !! i with
  | None => fzero
  | Some v =>
      if str_in "X" (varName v) then fone
      else if str_in "T" (varName v) then flit 2 5
      else if str_in "K" (varName v) then (flit 2 5 * Qc_of_nat n)%Qc
      else if str_in "p" (varName v) then fone
      else fzero
  end.


(** ** Path hopping *)

(** Ratios that are zero or [1/K] and sum to one: exactly [K] of them are
    used. *)
Lemma sum_of_shares (K : nat) (rs : list Qc) :
  0 < K → Forall (λ r, r = fzero ∨ r = (fone / Qc_of_nat K)%Qc) rs → fsum rs = fone →
  length (filter (λ r, r ≠ fzero) rs) = K.
Proof.
  intros HK Hall Hsum. pose proof (Qc_of_nat_pos K HK) as Hpos.
  assert (Qc_of_nat K ≠ fzero) as Hne by (intros Hz; apply (Qclt_not_eq _ _ Hpos); by rewrite Hz).
  assert (fsum rs = Qc_of_nat (length (filter (λ r, r ≠ fzero) rs)) / Qc_of_nat K)%Qc as Hs.
  { clear Hsum. induction Hall as [|r rs Hr _ IH].
    - rewrite filter_nil, fsum_nil. cbn [length]. rewrite Qc_of_nat_0.
      change (fzero (F:=Qc)) with (Q2Qc 0). field. exact Hne.
    - rewrite fsum_cons, IH, filter_cons. destruct Hr as [-> | ->].
      + rewrite decide_False by naive_solver. by rewrite exact_add_0_l.
      + rewrite decide_True.
        * cbn [length]. rewrite Qc_of_nat_S. field. exact Hne.
        * intros Hz. assert (fone = fzero :> Qc) as Habs; [|by vm_compute in Habs].
          transitivity (fone / Qc_of_nat K * Qc_of_nat K)%Qc; [field; exact Hne|].
          rewrite Hz. change (fzero (F:=Qc)) with (Q2Qc 0). ring. }
  rewrite Hsum in Hs.
  assert (Qc_of_nat (length (filter (λ r, r ≠ fzero) rs)) = Qc_of_nat K) as Heq.
  { transitivity (fone * Qc_of_nat K)%Qc; [rewrite Hs; field; exact Hne|change (fone (F:=Qc)) with 1%Qc; ring]. }
  apply Nat.le_antisymm; apply Qc_of_nat_le_inv; rewrite Heq; apply Qcle_refl.
Qed.

(** Provided the optimizer returns solutions, every flow that
    [compute_path_hopping_flows_ilp] returns for a positive [K] uses exactly
    [K] of its disjoint paths, each with the ratio [1/K], and no link
    carries more than its capacity. *)
Theorem path_hopping_uses_K_paths {RNG} (np_seed : Z → RNG) np_uniform node_disjoint_paths
    optimize fuel g (K : nat) select seed rng flows u rng' :
  0 < K → (∀ m a, optimize m = Some a → satisfies a m) →
  compute_path_hopping_flows_ilp np_seed np_uniform node_disjoint_paths optimize fuel g
    (Z.of_nat K) select seed rng = (Ok (Some (flows, u)), rng') →
  Forall (λ f, ∃ ps rs, paths f = Some ps ∧ splitting_ratio f = Some rs ∧
    length rs = length ps ∧
    Forall (λ r, r = fzero ∨ r = (fone / Qc_of_nat K)%Qc) rs ∧
    length (filter (λ r, r ≠ fzero) rs) = K) flows ∧
  ∀ e, e ∈ sorted_pair <$> edges g → (link_load flows e <= LINK_CAPACITY)%Qc.
Proof.
  intros HK Hopt. unfold compute_path_hopping_flows_ilp.
  intros ([] & r0 & _ & (result & r1 & Hloop & Hrest)%bindS_Ok)%bindS_Ok.
  destruct result as [[fl fm]|]; [|done].
  apply path_hopping_ilp_loop_solved in Hloop; [|by split; [constructor|]].
  destruct fm as [[m a]|].
  2: { injection Hrest as <- <- _. split; [constructor|]. intros e _. by vm_compute. }
  apply bindS_Ok in Hrest as ([fl' U] & r2 & [Hread ->]%lift_Ok & [= -> -> _]).
  destruct (solved_flows_sound _ (path_hopping_variable (Z.of_nat K)) optimize g fl m a
    (indexed_sorted_links g) flows u (path_hopping_variable_name _) (λ _ _ _ _ _, eq_refl)
    Hopt Hloop Hread) as [Hr Hload]. split; [|done].
  eapply Forall_impl; [exact Hr|]. intros f (ps & rs & Hps & Hrs & Hlen & Hsum & Hadm).
  assert (Forall (λ r, r = fzero ∨ r = (fone / Qc_of_nat K)%Qc) rs) as Hall.
  { eapply Forall_impl; [exact Hadm|]. intros r (i & j & v & Hv & Hb).
    unfold path_hopping_variable in Hv. rewrite fdiv_of_nat in Hv by done. simpl in Hv.
    injection Hv as <-. unfold admissible in Hb. simpl in Hb. destruct Hb as [?|[Hb1 Hb2]]; [by left|right].
    simpl in Hb1, Hb2. by apply Qcle_antisym. }
  exists ps, rs. split_and!; [done..|]. by apply sum_of_shares.
Qed.

Lemma path_hopping_uses_K_paths_witness :
  let r := compute_path_hopping_flows_ilp id tiny_uniform tiny_paths (try_assignment tiny_guess) 4
             (mkGraph [1; 2]%Z [(2, 1)]%Z) 1 (λ g, tiny_select (nodes g)) 0%Z 0%Z in
  ∃ flows u rng', r = (Ok (Some (flows, u)), rng') ∧ length flows = 2 ∧
    ∀ e, e ∈ sorted_pair <$> [(2, 1)]%Z → (link_load flows e <= LINK_CAPACITY)%Qc.
Proof.
  intros r. destruct r as [[[[flows u]|]|] rng'] eqn:E; try (vm_compute in E; discriminate).
  exists flows, u, rng'. split; [done|]. split.
  - assert (∃ n, match r with (Ok (Some (fl, _)), _) => length fl = n | _ => False end ∧ n = 2) as (n & Hn & ->).
    { eexists. split; [vm_compute; reflexivity|done]. }
    by rewrite E in Hn.
  - refine (proj2 (path_hopping_uses_K_paths id tiny_uniform tiny_paths (try_assignment tiny_guess)
      4 (mkGraph [1; 2]%Z [(2, 1)]%Z) 1 (λ g, tiny_select (nodes g)) 0%Z 0%Z flows u rng' _ _ E)).
    + lia.
    + apply try_assignment_sound.
Defined.
