(* ===== verification/McfModel.v ===== *)
(** The multi-commodity-flow allocation of
    [rest_client/path_hopping/flow_allocation.py]: [create_mcf_model] and
    [compute_mcf_flows].

    A directed graph is a [Graph] whose edges are directed; the neighbours
    of a node are its successors, in edge order. [nx.DiGraph(target_graph)]
    and the optimizer are parameters. *)

From Stdlib Require Import QArith Qcanon Lqa Ascii.
From S2P Require Import Prelude PyDict PyFloat PyStr Accum LinProg FlowAllocation FlowAllocationProps Routes PathModels PathModelsProps SolverAllocation.

Local Open Scope string_scope.

Definition neighbors (g : Graph) (u : node) : list node :=
  snd <$> filter (λ e, e.1 = u) (edges g).

(** ["F{%d,%d,%d}"] *)
Definition name3 (c : string) (i j k : Z) : string :=
  c +:+ "{" +:+ str_of_Z i +:+ "," +:+ str_of_Z j +:+ "," +:+ str_of_Z k +:+ "}".

(** [{link_tuple: link_idx for ... in enumerate(edges)}] *)
Definition directed_link_set (g : Graph) : dict link nat :=
  Dict.of_pairs ((λ ie : nat * link, (ie.2, ie.1)) <$> enumerate (edges g)).

Definition mcf_keys (fs : list flow) (ls : dict link nat) : list (Z * Z * Z) :=
  concat ((λ ifl : nat * flow, (λ l : link, (Z.of_nat ifl.1, l.1, l.2)) <$> Dict.keys ls)
          <$> enumerate fs).

Definition add_mcf_variables (fs : list flow) (ls : dict link nat)
    : M Model (dict (Z * Z * Z) nat) :=
  dict_comp id (λ k : Z * Z * Z,
    addVar (mkVar (name3 "F" k.1.1 k.1.2 k.2) CONTINUOUS fzero None)) (mcf_keys fs ls).

(** The sums of the outgoing and of the incoming variables at [u]. *)
Definition node_flows (F : dict (Z * Z * Z) nat) (g : Graph) (flow_idx : Z) (u : node)
    : res (LinExpr * LinExpr) :=
  foldM (λ (st : LinExpr * LinExpr) v,
    out ← Dict.getitem F (flow_idx, u, v);
    in_ ← Dict.getitem F (flow_idx, v, u);
    Ok (lin_add st.1 (lin_var out), lin_add st.2 (lin_var in_)))
    (lin_const fzero, lin_const fzero) (neighbors g u).

Definition add_conservation (F : dict (Z * Z * Z) nat) (g : Graph) (fs : list flow)
    : M Model unit :=
  for_each (enumerate fs) (λ ifl : nat * flow,
    for_each (nodes g) (λ u,
      '(egress_flow, ingress_flow) ← lift (node_flows F g (Z.of_nat ifl.1) u);
      if bool_decide (u = source_node ifl.2) then
        addConstr (mkConstr (lin_sub egress_flow ingress_flow) EQ (lin_const fone))
      else if bool_decide (u = destination_node ifl.2) then
        addConstr (mkConstr (lin_sub ingress_flow egress_flow) EQ (lin_const fone))
      else
        addConstr (mkConstr (lin_sub ingress_flow egress_flow) EQ (lin_const fzero)))).

(** [U[link_index] += F[...] * potential_flow_set[flow_idx].flow_tx_rate] *)
Definition link_utilizations (F : dict (Z * Z * Z) nat) (ls : dict link nat) (fs : list flow)
    : res (dict nat LinExpr) :=
  foldM (λ U (kx : (Z * Z * Z) * nat),
    let '((flow_idx, s, t), x) := kx in
    link_index ← Dict.getitem ls (s, t);
    f ← py_index fs flow_idx;
    expr_at U link_index (lin_scaled x (flow_tx_rate f)))
    ((λ l, (l, lin_const fzero)) <$> Dict.values ls) F.

Definition add_bidirectional_capacity (alpha : nat) (U : dict nat LinExpr) (ls : dict link nat)
    : M Model unit :=
  for_each (set_of (sorted_pair <$> Dict.keys ls)) (λ e : link,
    one_direction ← lift (Dict.getitem ls (e.1, e.2));
    other_direction ← lift (Dict.getitem ls (e.2, e.1));
    u1 ← lift (Dict.getitem U one_direction);
    u2 ← lift (Dict.getitem U other_direction);
    addConstr (mkConstr (lin_add u1 u2) LE (lin_scaled alpha LINK_CAPACITY))).

Definition mcf_model (g : Graph) (fs : list flow)
    : M Model (dict nat LinExpr * dict (Z * Z * Z) nat) :=
  let link_set := directed_link_set g in
  F ← add_mcf_variables fs link_set;
  add_conservation F g fs ≫= λ _,
  U ← lift (link_utilizations F link_set fs);
  alpha ← addVar (mkVar "alpha" CONTINUOUS fzero (Some fone));
  add_bidirectional_capacity alpha U link_set ≫= λ _,
  setObjective (lin_var alpha) ≫= λ _,
  mret (U, F).

Definition create_mcf_model (g : Graph) (flows : list flow) (s t : node) (rate : Qc)
    : res (dict nat LinExpr * dict (Z * Z * Z) nat) * Model :=
  let potential_flow_set := (flows ++ [mkFlow s t rate None None])%list in
  mcf_model g potential_flow_set empty_model.

(** What a feasible round leaves behind. *)
Record mcf_solution : Type := mkMcf {
  feasible_utilization : dict nat LinExpr;
  feasible_assignment : nat → Qc;
  feasible_allocations : dict (Z * Z * Z) Qc
}.

Section mcf.
Context {RNG : Type}.
Variable np_seed : Z → RNG.
Variable np_uniform : Qc → Qc → M RNG Qc.
Variable optimize : Model → option (nat → Qc).
Variable DiGraph : Graph → Graph.

Fixpoint mcf_loop (flow_selection_fn : list node → M RNG (node * node)) (g : Graph) (fuel : nat)
    (flows : list flow) (feasible : option mcf_solution)
    : M RNG (option (list flow * option mcf_solution)) :=
  match fuel with
  | 0 => mret None
  | S fuel =>
      '(s, t) ← flow_selection_fn (nodes g);
      rate ← np_uniform FLOW_TX_RATE_LOWER_BOUND FLOW_TX_RATE_UPPER_BOUND;
      let '(r, model_for_this_round) := create_mcf_model g flows s t rate in
      '(U, F) ← lift r;
      match optimize model_for_this_round with
      | None => mret (Some (flows, feasible))
      | Some a =>
          mcf_loop flow_selection_fn g fuel (flows ++ [mkFlow s t rate None None])%list
            (Some (mkMcf U a (prod_map id a <$> F)))
      end
  end.

(** The utilization of the directed links, and of both directions. *)
Definition directed_utilization (g : Graph) (sol : mcf_solution) : res (dict link Qc) :=
  foldM (λ d (lu : nat * LinExpr),
    e ← or_raise KeyError (edges g !! lu.1);
    Ok (Dict.set d e (eval (feasible_assignment sol) lu.2))) [] (feasible_utilization sol).

Definition bidirectional_utilization (U : dict link Qc) : dict link Qc :=
  foldl (λ d (eu : link * Qc), add_default d (sorted_pair eu.1) eu.2) [] U.

Definition compute_mcf_flows (fuel : nat) (target_graph : Graph)
    (flow_selection_fn : list node → M RNG (node * node)) (seed_number : Z)
    : M RNG (option (list (option flow) * dict link Qc)) :=
  let g := DiGraph target_graph in
  np_random_seed np_seed seed_number ≫= λ _,
  result ← mcf_loop flow_selection_fn g fuel [] None;
  match result with
  | None => mret None
  | Some (_, None) => mret (Some ([], []))
  | Some (flows, Some sol) =>
      U ← lift (directed_utilization g sol);
      lift (do_f_sanity_checks flows (feasible_allocations sol)) ≫= λ _,
      flows_with_routes ← lift (compute_mcf_flow_routes flows (feasible_allocations sol));
      mret (Some (flows_with_routes, bidirectional_utilization U))
  end.
End mcf.

Local Close Scope string_scope.

(** * Meaning of the model *)

(** The share of flow [i] on a directed link. *)
Definition share_on (alloc : dict (Z * Z * Z) Qc) (i : Z) (u v : node) : Qc :=
  default fzero (Dict.get alloc (i, u, v)).

(** Outflow minus inflow of a flow at a node. *)
Definition net_outflow (g : Graph) (alloc : dict (Z * Z * Z) Qc) (i : Z) (u : node) : Qc :=
  (fsum ((λ v, share_on alloc i u v) <$> neighbors g u)
   - fsum ((λ v, share_on alloc i v u) <$> neighbors g u))%Qc.

Definition demand (f : flow) (u : node) : Qc :=
  if decide (u = source_node f) then fone
  else if decide (u = destination_node f) then (- fone)%Qc else fzero.

Lemma for_each_facts {A} (Q : A → Model → Prop) (body : A → M Model unit) l m0 m :
  (∀ x m m', body x m = (Ok tt, m') → keeps_x m m' ∧ Q x m') →
  (∀ x m m', extends m m' → Q x m → Q x m') →
  for_each l body m0 = (Ok tt, m) → keeps_x m0 m ∧ ∀ x, x ∈ l → Q x m.
Proof.
  intros Hbody Hmono. revert m0; induction l as [|x l IH]; intros m0; cbn [for_each].
  { intros [= <-]. split; [done|set_solver]. }
  intros ([] & m1 & [Hk1 Hq]%Hbody & [Hk2 Hall]%IH)%bindS_Ok. split; [by etrans|].
  intros y [->|Hin]%elem_of_cons; [|by apply Hall]. eapply Hmono; [apply Hk2|done].
Qed.

Lemma node_flows_eval F g i u eg ing a :
  node_flows F g i u = Ok (eg, ing) →
  (eval a eg - eval a ing)%Qc = net_outflow g (prod_map id a <$> F) i u.
Proof.
  unfold node_flows, net_outflow. intros Hf.
  assert (∀ vs st st', foldM (λ (st : LinExpr * LinExpr) v,
    out ← Dict.getitem F (i, u, v); in_ ← Dict.getitem F (i, v, u);
    Ok (lin_add st.1 (lin_var out), lin_add st.2 (lin_var in_))) st vs = Ok st' →
    eval a st'.1 = (eval a st.1 + fsum ((λ v, share_on (prod_map id a <$> F) i u v) <$> vs))%Qc ∧
    eval a st'.2 = (eval a st.2 + fsum ((λ v, share_on (prod_map id a <$> F) i v u) <$> vs))%Qc) as Hloop.
  { clear Hf. induction vs as [|v vs IH]; intros st st'; cbn [foldM].
    - intros [= <-]. change (fsum _) with (fzero : Qc). change (fsum _) with (fzero : Qc).
      by rewrite !exact_add_0_r.
    - intros (st1 & (x & Hx%Dict.getitem_Ok & (y & Hy%Dict.getitem_Ok & [= <-])%bind_Ok)%bind_Ok & [H1 H2]%IH)%bind_Ok.
      cbn [fst snd] in *. rewrite H1, H2, !eval_add, !eval_var, !fmap_cons, !fsum_cons.
      unfold share_on at 2 5. rewrite !get_fmap_snd, Hx, Hy. simpl. split; ring. }
  destruct (Hloop _ _ _ Hf) as [H1 H2]. cbn [fst snd] in *. rewrite H1, H2, !eval_const.
  by rewrite !exact_add_0_l.
Qed.

Lemma add_conservation_spec F g fs m0 m :
  add_conservation F g fs m0 = (Ok tt, m) →
  keeps_x m0 m ∧ ∀ i f, fs !! i = Some f → ∀ u, u ∈ nodes g → ∀ a, satisfies a m →
    net_outflow g (prod_map id a <$> F) (Z.of_nat i) u = demand f u.
Proof.
  intros Hfe.
  apply (for_each_facts (λ ifl m, ∀ u, u ∈ nodes g → ∀ a, satisfies a m →
    net_outflow g (prod_map id a <$> F) (Z.of_nat ifl.1) u = demand ifl.2 u)) in Hfe as [Hk Hall].
  - split; [done|]. intros i f Hi. apply (Hall (i, f)). by apply elem_of_enumerate.
  - intros [i f] m1 m2. apply (for_each_facts (λ u m, ∀ a, satisfies a m →
      net_outflow g (prod_map id a <$> F) (Z.of_nat i) u = demand f u)).
    + intros u m3 m4 ([eg ing] & m5 & [Hn ->]%lift_Ok & Hc)%bindS_Ok. cbn [fst snd] in *.
      unfold demand. repeat case_bool_decide; repeat case_decide; try done;
        apply addConstr_keeps_x in Hc as [Hk Hh]; (split; [done|]); intros a Ha;
        specialize (Hh a Ha); unfold holds in Hh; cbn [csense lhs rhs] in Hh;
        rewrite eval_sub, eval_const in Hh; rewrite <-(node_flows_eval _ _ _ _ _ _ a Hn).
      * done.
      * generalize dependent (eval a eg). generalize dependent (eval a ing). intros. qc_lra.
      * generalize dependent (eval a eg). generalize dependent (eval a ing). intros. qc_lra.
    + intros u m3 m4 He Hq a Ha. by eapply Hq, satisfies_extends.
  - intros [i f] m1 m2 He Hq u Hu a Ha. by eapply Hq, satisfies_extends.
Qed.

(** ** Link loads *)

(** What the shares put on the directed links. *)
Definition mcf_charges (fs : list flow) (alloc : dict (Z * Z * Z) Qc) : list (link * Qc) :=
  (λ kx : (Z * Z * Z) * Qc, ((kx.1.1.2, kx.1.2),
     (kx.2 * match fs !! Z.to_nat kx.1.1.1 with Some f => flow_tx_rate f | None => fzero end)%Qc))
  <$> alloc.

Definition directed_load (fs : list flow) (alloc : dict (Z * Z * Z) Qc) (e : link) : Qc :=
  fsum (amounts e (mcf_charges fs alloc)).

Definition in_range (fs : list flow) (F : dict (Z * Z * Z) nat) : Prop :=
  Forall (λ kx : (Z * Z * Z) * nat, 0 ≤ kx.1.1.1)%Z F.

Lemma link_utilizations_eval F ls fs U a :
  in_range fs F → link_utilizations F ls fs = Ok U →
  Forall (λ kx : (Z * Z * Z) * nat, is_Some (Dict.get ls (kx.1.1.2, kx.1.2))) F ∧
  add_all ((λ l, (l, fzero)) <$> Dict.values ls)
    ((λ c : link * Qc, (link_index ls c.1, c.2)) <$> mcf_charges fs (prod_map id a <$> F))
  = Ok (eval_dict a U).
Proof.
  intros Hr Hf. split.
  { apply Forall_forall. intros [[[i s] t] x] Hin.
    destruct (foldM_step_Ok _ _ _ _ Hf _ Hin) as (U1 & U2 & (l & Hl%Dict.getitem_Ok & _)%bind_Ok).
    eauto. }
  unfold mcf_charges. rewrite <-!list_fmap_compose.
  rewrite <-(concat_fmap_singleton _ F).
  assert ((λ l, (l, fzero)) <$> Dict.values ls
    = eval_dict a ((λ l, (l, lin_const fzero)) <$> Dict.values ls)) as ->.
  { unfold eval_dict. rewrite <-list_fmap_compose. apply list_fmap_ext. intros ? l _. simpl.
    by rewrite eval_const. }
  eapply foldM_eval_charges; [|exact Hf]. intros U1 [[[i s] t] x] U2 Hin.
  unfold in_range in Hr. rewrite Forall_forall in Hr. specialize (Hr _ Hin). cbn [fst snd] in Hr.
  intros (l & Hl%Dict.getitem_Ok & (f & Hf' & He%(expr_at_eval a))%bind_Ok)%bind_Ok.
  unfold py_index in Hf'. rewrite bool_decide_true in Hf' by done. apply or_raise_Ok in Hf'.
  rewrite eval_scaled in He. unfold add_all. cbn [foldM]. simpl. unfold link_index. simpl.
  rewrite Hl, Hf'. simpl. by rewrite He.
Qed.

Lemma amounts_reindex ls cs e l :
  NoDup (Dict.values ls) → Dict.get ls e = Some l →
  Forall (λ c : link * Qc, is_Some (Dict.get ls c.1)) cs →
  amounts l ((λ c : link * Qc, (link_index ls c.1, c.2)) <$> cs) = amounts e cs.
Proof.
  intros Hnd He. induction 1 as [|[h x] cs [l' Hl'] _ IH]; [done|].
  rewrite fmap_cons, !amounts_cons, IH. simpl in Hl'. unfold link_index. cbn [fst snd].
  rewrite Hl'. simpl. f_equal. destruct (decide (h = e)) as [->|Hne].
  - rewrite decide_True by congruence. done.
  - rewrite decide_False; [done|]. intros ->. apply Hne. by eapply Dict.get_inj.
Qed.

(** The value of the utilization of a directed link is its load. *)
Lemma utilization_value F ls fs U a e l :
  NoDup (Dict.values ls) → in_range fs F → link_utilizations F ls fs = Ok U →
  Dict.get ls e = Some l →
  ∃ ex, Dict.get U l = Some ex ∧ eval a ex = directed_load fs (prod_map id a <$> F) e.
Proof.
  intros Hnd Hr HU He. destruct (link_utilizations_eval F ls fs U a Hr HU) as [Hknown Hadd].
  assert (Dict.get ((λ l, (l, fzero (F:=Qc))) <$> Dict.values ls) l = Some fzero) as H0.
  { apply Dict.elem_of_get.
    - unfold Dict.wf, Dict.keys. rewrite <-list_fmap_compose.
      change (NoDup ((λ x, x) <$> Dict.values ls)). by rewrite list_fmap_id.
    - apply list_elem_of_fmap. exists l. split; [done|].
      apply Dict.get_elem_of in He. by apply (list_elem_of_fmap_2 snd) in He. }
  pose proof (add_all_get _ _ _ Hadd l fzero H0) as Hget.
  rewrite (amounts_reindex ls _ e l), exact_add_0_l in Hget by
    (done || (unfold mcf_charges; rewrite <-list_fmap_compose;
      apply Forall_fmap; eapply Forall_impl; [exact Hknown|]; by intros [[[]]])).
  rewrite get_eval_dict in Hget. apply fmap_Some in Hget as (ex & Hex & Heq). eauto.
Qed.

Lemma add_bidirectional_capacity_spec alpha U ls m0 m :
  add_bidirectional_capacity alpha U ls m0 = (Ok tt, m) →
  keeps_x m0 m ∧ ∀ e, e ∈ sorted_pair <$> Dict.keys ls → ∃ l1 l2 u1 u2,
    Dict.get ls e = Some l1 ∧ Dict.get ls (e.2, e.1) = Some l2 ∧
    Dict.get U l1 = Some u1 ∧ Dict.get U l2 = Some u2 ∧
    ∀ a, satisfies a m → (eval a u1 + eval a u2 <= a alpha)%Qc.
Proof.
  intros Hfe. apply (for_each_facts (λ e m, ∃ l1 l2 u1 u2,
    Dict.get ls e = Some l1 ∧ Dict.get ls (e.2, e.1) = Some l2 ∧
    Dict.get U l1 = Some u1 ∧ Dict.get U l2 = Some u2 ∧
    ∀ a, satisfies a m → (eval a u1 + eval a u2 <= a alpha)%Qc)) in Hfe as [Hk Hall].
  - split; [done|]. intros e He. apply Hall. by apply elem_of_set_of.
  - intros [u v] m1 m2 (l1 & m3 & [H1%Dict.getitem_Ok ->]%lift_Ok & (l2 & m4 & [H2%Dict.getitem_Ok ->]%lift_Ok &
      (u1 & m5 & [H3%Dict.getitem_Ok ->]%lift_Ok & (u2 & m6 & [H4%Dict.getitem_Ok ->]%lift_Ok & Hc)%bindS_Ok)%bindS_Ok)%bindS_Ok)%bindS_Ok.
    apply addConstr_keeps_x in Hc as [Hk Hh]. split; [done|].
    exists l1, l2, u1, u2. split_and!; [done..|]. intros a Ha. specialize (Hh a Ha).
    unfold holds in Hh. cbn [csense lhs rhs] in Hh. rewrite eval_add, eval_scaled in Hh.
    unfold LINK_CAPACITY in Hh. generalize dependent (eval a u1). generalize dependent (eval a u2).
    intros. qc_lra.
  - intros e m1 m2 He (l1 & l2 & u1 & u2 & ? & ? & ? & ? & Hq). exists l1, l2, u1, u2.
    split_and!; [done..|]. intros a Ha. by eapply Hq, satisfies_extends.
Qed.

(** * The finished model and the result *)

Lemma dict_comp_keys {A K V} `{Countable K} (key : A → K) (value : A → M Model V) l m0 d m :
  (∀ x v m m', value x m = (Ok v, m') → keeps_x m m') →
  dict_comp key value l m0 = (Ok d, m) →
  keeps_x m0 m ∧ ∀ k, k ∈ Dict.keys d ↔ k ∈ key <$> l.
Proof.
  intros Hval Hf. refine (foldS_inv (λ l1 d m, keeps_x m0 m ∧ ∀ k, k ∈ Dict.keys d ↔ k ∈ key <$> l1)
    _ _ _ _ _ _ _ _ Hf); [|split; [done|set_solver]].
  intros l1 x l2 d1 m1 d2 m2 _ [Hk Hin] (v & m3 & Hv%Hval & [= <- <-])%bindS_Ok.
  split; [by etrans|]. intros k. rewrite Dict.elem_of_keys_set, Hin, fmap_app. set_solver.
Qed.

Record mcf_facts (g : Graph) (fs : list flow) (U : dict nat LinExpr) (F : dict (Z * Z * Z) nat)
    (m : Model) : Prop := {
  mf_keys : ∀ k, k ∈ Dict.keys F ↔ k ∈ mcf_keys fs (directed_link_set g);
  mf_range : in_range fs F;
  mf_conservation : ∀ i f, fs !! i = Some f → ∀ u, u ∈ nodes g → ∀ a, satisfies a m →
    net_outflow g (prod_map id a <$> F) (Z.of_nat i) u = demand f u;
  mf_utilization : link_utilizations F (directed_link_set g) fs = Ok U;
  mf_capacity : ∀ e, e ∈ sorted_pair <$> Dict.keys (directed_link_set g) → ∃ l1 l2 u1 u2,
    Dict.get (directed_link_set g) e = Some l1 ∧ Dict.get (directed_link_set g) (e.2, e.1) = Some l2 ∧
    Dict.get U l1 = Some u1 ∧ Dict.get U l2 = Some u2 ∧
    ∀ a, satisfies a m → (eval a u1 + eval a u2 <= LINK_CAPACITY)%Qc
}.

Lemma str_in_name3 c a i j k :
  not_decimal c = true → str_in c "{},; " = false → str_in c (name3 a i j k) = str_in c a.
Proof.
  intros Hc Hp. unfold name3. rewrite !str_in_app, !str_in_str_of_Z by done.
  cbn [str_in] in Hp |- *. rewrite !orb_false_iff in Hp. destruct Hp as (-> & -> & -> & _).
  by rewrite !orb_false_r.
Qed.

Lemma mcf_model_facts g fs U F m :
  mcf_model g fs empty_model = (Ok (U, F), m) → mcf_facts g fs U F m.
Proof.
  intros (F' & m1 & HF & ([] & m2 & Hc & (U' & m3 & [HU ->]%lift_Ok & Hrest)%bindS_Ok)%bindS_Ok)%bindS_Ok.
  apply bindS_Ok in Hrest as (alpha & m4 & Ha & ([] & m5 & Hb & ([] & m6 & Ho & [= -> -> <-])%bindS_Ok)%bindS_Ok).
  apply dict_comp_keys in HF as [K1 HF].
  2: { intros k v n n' [Hk _]%addVar_keeps_x; [done|cbn [varName]; by rewrite str_in_name3]. }
  apply add_conservation_spec in Hc as [K2 Hc].
  apply addVar_keeps_x in Ha as [K3 Ha]; [|done].
  apply add_bidirectional_capacity_spec in Hb as [K4 Hb]. injection Ho as <-.
  set (m' := mkModel (vars m5) (constrs m5) (Some (lin_var alpha))).
  assert (extends m5 m') as E5 by (by split).
  assert (∀ a, satisfies a m' → satisfies a m5) as S5 by (intros a; by apply satisfies_extends).
  setoid_rewrite list_fmap_id in HF. split; [exact HF|..].
  - apply Forall_forall. intros [[[i s] t] x] Hin. simpl.
    assert ((i, s, t) ∈ Dict.keys F) as Hin'%HF by (apply list_elem_of_fmap; by exists (i, s, t, x)).
    clear Hin. rename Hin' into Hin. unfold mcf_keys in Hin.
    apply list_elem_of_In, in_concat in Hin as (l & Hl & Hin).
    apply list_elem_of_In, list_elem_of_fmap in Hl as ([j f] & -> & _).
    apply list_elem_of_In, list_elem_of_fmap in Hin as (e & [= -> -> ->] & _). simpl. lia.
  - intros i f Hi u Hu a Ha'%S5. apply Hc; [done..|].
    eapply satisfies_extends; [apply K3|]. eapply satisfies_extends; [apply K4|done].
  - done.
  - intros e (l1 & l2 & u1 & u2 & H1 & H2 & H3 & H4 & Hle)%Hb. exists l1, l2, u1, u2.
    split_and!; [done..|]. intros a Ha'%S5. etrans; [by apply Hle|].
    destruct Ha' as [Hbd _]. specialize (Hbd alpha _ (extends_lookup _ _ _ _ (proj1 K4) Ha)).
    apply Hbd.
Qed.

Lemma directed_link_set_NoDup g :
  NoDup (edges g) → ∀ e l, Dict.get (directed_link_set g) e = Some l ↔ edges g !! l = Some e.
Proof.
  intros Hnd e l. unfold directed_link_set.
  assert (((λ ie : nat * link, (ie.2, ie.1)) <$> enumerate (edges g)).*1 = edges g) as Hk.
  { rewrite <-list_fmap_compose. unfold enumerate.
    generalize (edges g) at 1 2. intros es. apply list_eq. intros i.
    rewrite list_lookup_fmap, list_lookup_imap. by destruct (es !! i). }
  assert (Dict.wf ((λ ie : nat * link, (ie.2, ie.1)) <$> enumerate (edges g))) as Hwf
    by (unfold Dict.wf, Dict.keys; by rewrite Hk).
  rewrite Dict.of_pairs_NoDup by (by rewrite Hk). split.
  - intros ([i e'] & [= -> ->] & Hin%elem_of_enumerate)%Dict.get_elem_of%list_elem_of_fmap. done.
  - intros Hl. apply Dict.elem_of_get; [done|]. apply list_elem_of_fmap. exists (l, e).
    split; [done|]. by apply elem_of_enumerate.
Qed.

Lemma values_directed_link_set g : NoDup (Dict.values (directed_link_set g)).
Proof.
  apply Dict.values_of_pairs. rewrite <-list_fmap_compose.
  change (NoDup (fst <$> enumerate (edges g))). rewrite fst_enumerate. apply NoDup_seq_nat.
Qed.

(** The table that lists the edges of the entries of [V], when the value of
    an entry is a function [load] of its edge. *)
Lemma edge_table (es0 : list link) (a : nat → Qc) (load : link → Qc) (V : dict nat LinExpr) d0 d1 :
  NoDup es0 → NoDup (Dict.keys V) →
  (∀ l ex e, (l, ex) ∈ V → es0 !! l = Some e → eval a ex = load e) →
  (∀ e l, e ∈ Dict.keys d0 → es0 !! l = Some e → l ∉ Dict.keys V) →
  foldM (λ d (lu : nat * LinExpr), e ← or_raise KeyError (es0 !! lu.1);
    Ok (Dict.set d e (eval a lu.2))) d0 V = Ok d1 →
  ∃ es, d1 = d0 ++ ((λ e, (e, load e)) <$> es) ∧
    Forall2 (λ l e, es0 !! l = Some e) (Dict.keys V) es.
Proof.
  intros Hnd. revert d0; induction V as [|[l ex] V IH]; intros d0 HndV Hval Hfresh; cbn [foldM].
  { intros [= <-]. exists []. rewrite app_nil_r. split; [done|constructor]. }
  intros (d2 & (e & He%or_raise_Ok & [= <-])%bind_Ok & Hrest)%bind_Ok. cbn [fst snd] in *.
  apply NoDup_cons in HndV as [Hn HndV].
  assert (Dict.get d0 e = None) as Hnone.
  { apply Dict.get_None. intros Hin. apply (Hfresh e l Hin He). left. }
  rewrite Dict.set_new, (Hval l ex e) in Hrest by (done || left).
  apply IH in Hrest as (es & -> & Hes); [|done| |].
  - exists (e :: es). split; [by rewrite <-(assoc_L (++))|]. by constructor.
  - intros l' ex' e' Hin. apply Hval. by right.
  - intros e' l' He' Hl' Hin. unfold Dict.keys in He'. rewrite fmap_app, elem_of_app in He'.
    destruct He' as [He'|He']; [apply (Hfresh e' l' He' Hl'); by right|].
    apply list_elem_of_singleton in He'. simpl in He'. subst e'.
    assert (l = l') as <- by (exact (NoDup_lookup es0 l l' e Hnd He Hl')). done.
Qed.

Lemma keys_link_utilizations F ls fs U :
  in_range fs F → link_utilizations F ls fs = Ok U → Dict.keys U = Dict.values ls.
Proof.
  intros Hr HU. destruct (link_utilizations_eval _ _ _ _ (λ _, fzero) Hr HU) as [_ Hadd].
  apply add_all_keys in Hadd. rewrite keys_eval_dict in Hadd. rewrite Hadd.
  unfold Dict.keys. rewrite <-list_fmap_compose. by rewrite list_fmap_id.
Qed.

(** With distinct edges, the directed utilization lists the edges with
    their loads. *)
Lemma directed_utilization_entries g fs U F m a d :
  NoDup (edges g) → mcf_facts g fs U F m →
  directed_utilization g (mkMcf U a (prod_map id a <$> F)) = Ok d →
  ∃ es, NoDup es ∧ (∀ e, e ∈ es ↔ e ∈ edges g) ∧
  d = (λ e, (e, directed_load fs (prod_map id a <$> F) e)) <$> es.
Proof.
  intros Hnd [_ Hr _ HU _] Hd. pose proof (values_directed_link_set g) as Hv.
  pose proof (keys_link_utilizations _ _ _ _ Hr HU) as HkU.
  apply (edge_table (edges g) a (directed_load fs (prod_map id a <$> F))) in Hd
    as (es & -> & Hes); [|done|simpl; by rewrite HkU| |set_solver].
  - simpl in *. exists es. split_and!; [| |done].
    + apply NoDup_alt. intros i j e Hi Hj.
      destruct (Forall2_lookup_r _ _ _ _ _ Hes Hi) as (l1 & Hl1 & He1).
      destruct (Forall2_lookup_r _ _ _ _ _ Hes Hj) as (l2 & Hl2 & He2).
      assert (l1 = l2) as <- by (exact (NoDup_lookup _ _ _ _ Hnd He1 He2)).
      rewrite HkU in Hl1, Hl2. exact (NoDup_lookup _ _ _ _ Hv Hl1 Hl2).
    + intros e. split.
      * intros [i Hi]%list_elem_of_lookup.
        destruct (Forall2_lookup_r _ _ _ _ _ Hes Hi) as (l1 & _ & He1). by eapply list_elem_of_lookup_2.
      * intros [l Hl]%list_elem_of_lookup. pose proof Hl as Hg%(directed_link_set_NoDup g Hnd).
        apply Dict.get_elem_of, (list_elem_of_fmap_2 snd) in Hg. simpl in Hg.
        change (l ∈ Dict.values (directed_link_set g)) in Hg. rewrite <-HkU in Hg.
        apply list_elem_of_lookup in Hg as [i Hi].
        destruct (Forall2_lookup_l _ _ _ _ _ Hes Hi) as (e' & He' & Hl'). simplify_eq.
        by eapply list_elem_of_lookup_2.
  - intros l ex e Hin He. apply (directed_link_set_NoDup g Hnd) in He.
    destruct (utilization_value F _ fs U a e l Hv Hr HU He) as (ex' & Hex' & <-).
    change ((l, ex) ∈ U) in Hin.
    apply Dict.elem_of_get in Hin; [congruence|]. unfold Dict.wf. by rewrite HkU.
Qed.

(** The two directions of a link. *)
Lemma amounts_two_directions (f : link → Qc) es u v :
  NoDup es → (u, v) ∈ es → (v, u) ∈ es → u ≠ v → sorted_pair (u, v) = (u, v) →
  fsum (amounts (u, v) ((λ e, (sorted_pair e, f e)) <$> es)) = (f (u, v) + f (v, u))%Qc.
Proof.
  intros Hnd H1 H2 Hne Hs.
  apply elem_of_Permutation in H1 as [k Hk]. rewrite Hk in H2, Hnd.
  apply elem_of_cons in H2 as [[=]|H2]; [done|]. apply NoDup_cons in Hnd as [Hn1 Hnd].
  apply elem_of_Permutation in H2 as [k' Hk']. rewrite Hk' in Hn1, Hnd.
  apply NoDup_cons in Hnd as [Hn2 Hnd].
  erewrite fsum_amounts_perm by (by rewrite Hk, Hk'). rewrite !fmap_cons, !amounts_cons.
  rewrite decide_True by done. rewrite decide_True by (by rewrite sorted_pair_comm).
  rewrite amounts_none.
  - simpl. rewrite !fsum_cons, fsum_nil, exact_add_0_r. done.
  - apply Forall_fmap, Forall_forall. intros e He. simpl. intros Heq.
    destruct (sorted_pair_cases e) as [Hc|Hc]; rewrite Hc in Heq; [subst e; set_solver|].
    destruct e as [x y]. simpl in Heq. injection Heq as -> ->. set_solver.
Qed.

(** The loop keeps the solution of the model of the flows admitted so far. *)
Definition mcf_solved (optimize : Model → option (nat → Qc)) (g : Graph) (flows : list flow)
    (feasible : option mcf_solution) : Prop :=
  match feasible with
  | None => True
  | Some sol => ∃ U F a m, mcf_facts g flows U F m ∧ optimize m = Some a ∧
      sol = mkMcf U a (prod_map id a <$> F)
  end.

Lemma mcf_loop_solved {RNG} np_uniform optimize select g fuel flows feasible (rng : RNG) flows' feasible' rng' :
  mcf_solved optimize g flows feasible →
  mcf_loop np_uniform optimize select g fuel flows feasible rng
    = (Ok (Some (flows', feasible')), rng') →
  mcf_solved optimize g flows' feasible'.
Proof.
  revert flows feasible rng; induction fuel as [|fuel IH]; intros flows feasible rng Hinv;
    cbn [mcf_loop]; [done|].
  intros ([s t] & r1 & _ & (rate & r2 & _ & Hrest)%bindS_Ok)%bindS_Ok.
  destruct (create_mcf_model g flows s t rate) as [r m] eqn:Ec.
  apply bindS_Ok in Hrest as ([U F] & r4 & [-> ->]%lift_Ok & Hrest).
  destruct (optimize m) as [a|] eqn:Eo; [|by injection Hrest as <- <- _].
  eapply IH; [|exact Hrest]. exists U, F, a, m. split_and!; [|done..].
  by apply mcf_model_facts.
Qed.

Lemma bidirectional_within_capacity g fs U F m a d e x :
  NoDup (edges g) → (∀ u, (u, u) ∉ edges g) → mcf_facts g fs U F m → satisfies a m →
  directed_utilization g (mkMcf U a (prod_map id a <$> F)) = Ok d →
  Dict.get (bidirectional_utilization d) e = Some x →
  x = (directed_load fs (prod_map id a <$> F) e
       + directed_load fs (prod_map id a <$> F) (e.2, e.1))%Qc ∧ (x <= LINK_CAPACITY)%Qc.
Proof.
  intros Hnd Hloop Hf Ha Hd Hx.
  destruct (directed_utilization_entries _ _ _ _ _ _ _ Hnd Hf Hd) as (es & Hes & Hin & ->).
  unfold bidirectional_utilization in Hx.
  assert (∀ (l : list (link * Qc)) d0, foldl (λ d (eu : link * Qc), add_default d (sorted_pair eu.1) eu.2) d0 l
    = foldl (λ d kx, add_default d kx.1 kx.2) d0 ((λ eu : link * Qc, (sorted_pair eu.1, eu.2)) <$> l)) as Hfl
    by (induction l as [|[e' y] l IH]; intros d0; [done|apply IH]).
  rewrite Hfl, <-list_fmap_compose in Hx.
  assert (e ∈ sorted_pair <$> es) as He.
  { assert (e ∈ Dict.keys (foldl (λ d (kx : link * Qc), add_default d kx.1 kx.2) []
      ((λ eu : link * Qc, (sorted_pair eu.1, eu.2)) ∘ (λ e, (e, directed_load fs (prod_map id a <$> F) e)) <$> es))) as Hk
      by (apply Dict.elem_of_keys; eauto).
    apply add_default_keys in Hk as [Hk|Hk]; [set_solver|].
    by rewrite <-list_fmap_compose in Hk. }
  pose proof (add_default_get ((λ eu : link * Qc, (sorted_pair eu.1, eu.2)) ∘
    (λ e, (e, directed_load fs (prod_map id a <$> F) e)) <$> es) [] e) as Hget.
  unfold Dict.get_default in Hget. rewrite Hx in Hget. simpl in Hget. rewrite exact_add_0_l in Hget.
  pose proof (mf_capacity _ _ _ _ _ Hf e) as Hcap. destruct Hcap as (l1 & l2 & u1 & u2 & H1 & H2 & H3 & H4 & Hle).
  { apply list_elem_of_fmap in He as (e' & -> & He'). apply list_elem_of_fmap. exists e'. split; [done|].
    apply Hin in He' as [l Hl]%list_elem_of_lookup. apply Dict.elem_of_keys. exists l.
    by apply directed_link_set_NoDup. }
  specialize (Hle a Ha).
  destruct (utilization_value _ _ _ _ a _ _ (values_directed_link_set g) (mf_range _ _ _ _ _ Hf)
    (mf_utilization _ _ _ _ _ Hf) H1) as (w1 & Hw1 & Hv1).
  destruct (utilization_value _ _ _ _ a _ _ (values_directed_link_set g) (mf_range _ _ _ _ _ Hf)
    (mf_utilization _ _ _ _ _ Hf) H2) as (w2 & Hw2 & Hv2). simplify_eq. rewrite Hv1, Hv2 in Hle.
  apply (directed_link_set_NoDup g Hnd) in H1. apply (directed_link_set_NoDup g Hnd) in H2.
  destruct e as [u v]. cbn [fst snd] in *.
  change (amounts (u, v) _) with (amounts (u, v)
    ((λ e, (sorted_pair e, directed_load fs (prod_map id a <$> F) e)) <$> es)) in Hle |- *.
  rewrite (amounts_two_directions (directed_load fs (prod_map id a <$> F)) es u v); [done|done|..].
  - apply Hin. by eapply list_elem_of_lookup_2.
  - apply Hin. by eapply list_elem_of_lookup_2.
  - intros ->. apply (Hloop v). by eapply list_elem_of_lookup_2.
  - apply list_elem_of_fmap in He as (e' & -> & _). apply sorted_pair_idemp.
Qed.

Lemma mcf_flows_sound {RNG} (np_seed : Z → RNG) np_uniform optimize DiGraph
    fuel g select seed rng flows u rng' :
  (∀ m a, optimize m = Some a → satisfies a m) →
  NoDup (edges (DiGraph g)) → (∀ n, (n, n) ∉ edges (DiGraph g)) →
  compute_mcf_flows np_seed np_uniform optimize DiGraph fuel g select seed rng
    = (Ok (Some (flows, u)), rng') →
  (flows = [] ∧ u = []) ∨
  ∃ fl alloc, compute_mcf_flow_routes fl alloc = Ok flows ∧
    (∀ i f, fl !! i = Some f → ∀ n, n ∈ nodes (DiGraph g) →
       net_outflow (DiGraph g) alloc (Z.of_nat i) n = demand f n) ∧
    ∀ e x, Dict.get u e = Some x →
      x = (directed_load fl alloc e + directed_load fl alloc (e.2, e.1))%Qc ∧
      (x <= LINK_CAPACITY)%Qc.
Proof.
  intros Hopt Hnd Hloop. unfold compute_mcf_flows.
  intros ([] & r0 & _ & (result & r1 & Hl & Hrest)%bindS_Ok)%bindS_Ok.
  destruct result as [[fl fm]|]; [|done].
  apply (mcf_loop_solved _ optimize) in Hl; [|done].
  destruct fm as [sol|]; [right|left; by injection Hrest as <- <- _].
  destruct Hl as (U & F & a & m & Hf & Ho%Hopt & ->).
  apply bindS_Ok in Hrest as (d & r2 & [Hd ->]%lift_Ok & Hrest).
  apply bindS_Ok in Hrest as (chk & r3 & [_ ->]%lift_Ok & Hrest).
  apply bindS_Ok in Hrest as (routes & r4 & [Hr ->]%lift_Ok & [= -> <- _]).
  exists fl, (prod_map id a <$> F). split_and!; [done| |].
  - intros i f Hi n Hn. by eapply mf_conservation.
  - intros e x Hx. by eapply bidirectional_within_capacity.
Qed.


Definition both_directions (g : Graph) : Graph :=
  mkGraph (nodes g) (concat ((λ e : link, [e; (e.2, e.1)]) <$> edges g)).
Definition even_guess (_ : Model) (i : nat) : Qc := if Nat.even i then fone else fzero.

