(* ===== verification/TestModel.v ===== *)
(** The experimental variant of the k-paths allocation in
    [rest_client/path_hopping/flow_allocation.py]:
    [testing_k_paths_flow_allocation] with the second definition of
    [create_test_k_paths_model], the one in effect. It cannot complete: the
    model construction ends in a [TypeError]. Also the JSON form of flows. *)

From Stdlib Require Import QArith Qcanon Lqa Ascii.
From S2P Require Import Prelude PyDict PyFloat PyStr Accum LinProg FlowAllocation FlowAllocationProps Routes PathModels.

Local Open Scope string_scope.

Definition add_Y_variables (fs : list flow) (ls : dict link nat) : M Model (dict (nat * nat) nat) :=
  dict_comp id (λ k : nat * nat,
    addVar (mkVar (name2 "Y" "," k.1 k.2) CONTINUOUS fzero (Some fone))) (flow_link_pairs fs ls).

(** The loop variable is misspelled ([flow_idnex]), so the body uses the
    value [flow_index] has after the first loop: the last index. *)
Definition charge_Y_rhs (X : dict (nat * nat) nat) (ls : dict link nat) (fs : list flow)
    (flow_index : nat) (Y_rhs : dict (nat * nat) LinExpr) : res (dict (nat * nat) LinExpr) :=
  foldM (λ Y (ifl : nat * flow),
    ps ← flow_paths ifl.2;
    foldM (λ Y (ip : nat * path),
      foldM (λ Y hop,
        link_index ← Dict.getitem ls (sorted_pair hop);
        x ← Dict.getitem X (flow_index, ip.1);
        expr_at Y (flow_index, link_index) (lin_scaled x (flow_tx_rate ifl.2))) Y (pairwise ip.2))
      Y (enumerate ps)) Y_rhs (enumerate fs).

(** [addVar("alpha", lb=0.0, ub=1.0)]: the first positional argument of
    [addVar] is [lb], which is also given by name. *)
Definition create_test_k_paths_model (g : Graph) (flows : list flow) (s t : node) (rate : Qc)
    (ps : list path) : res unit * Model :=
  let potential_flow_set := (flows ++ [mkFlow s t rate (Some ps) None])%list in
  let build : M Model unit :=
    X ← add_path_variables k_paths_variable potential_flow_set;
    let link_set := sorted_link_set g in
    Y ← add_Y_variables potential_flow_set link_set;
    let Y_rhs := Dict.of_pairs ((λ k, (k, lin_const fzero))
                                <$> flow_link_pairs potential_flow_set link_set) in
    Y_rhs' ← lift (charge_Y_rhs X link_set potential_flow_set
                     (length potential_flow_set - 1) Y_rhs);
    for_each Y_rhs' (λ ke : (nat * nat) * LinExpr,
      y ← lift (Dict.getitem Y ke.1);
      addConstr (mkConstr (lin_var y) EQ ke.2)) ≫= λ _,
    lift (Raise TypeError) in
  build empty_model.

Section testing.
Context {RNG : Type}.
Variable np_seed : Z → RNG.
Variable node_disjoint_paths : Graph → node → node → res (list path).
Variable optimize : Model → option (nat → Qc).

Fixpoint testing_loop (flow_selection_fn : list node → M RNG (node * node)) (g : Graph) (fuel : nat)
    (flows : list flow) (feasible_model : option (Model * (nat → Qc)))
    : M RNG (option (list flow * option (Model * (nat → Qc)))) :=
  match fuel with
  | 0 => mret None
  | S fuel =>
      '(s, t) ← flow_selection_fn (nodes g);
      k_shortest_paths ← lift (node_disjoint_paths g s t);
      let flow_tx_rate := flit 1 5 in
      let '(r, model_for_this_round) :=
        create_test_k_paths_model g flows s t flow_tx_rate k_shortest_paths in
      lift r ≫= λ _,
      match optimize model_for_this_round with
      | None => mret (Some (flows, feasible_model))
      | Some a =>
          testing_loop flow_selection_fn g fuel
            (flows ++ [mkFlow s t flow_tx_rate (Some k_shortest_paths) (Some [])])%list
            (Some (model_for_this_round, a))
      end
  end.

Definition testing_k_paths_flow_allocation (fuel : nat) (g : Graph)
    (flow_selection_fn : list node → M RNG (node * node)) (seed_number : Z)
    : M RNG (option (list flow * dict link Qc)) :=
  np_random_seed np_seed seed_number ≫= λ _,
  result ← testing_loop flow_selection_fn g fuel [] None;
  match result with
  | None => mret None
  | Some (_, None) => mret (Some ([], []))
  | Some (flows, Some (m, a)) =>
      '(flows', _) ← lift (read_solution (indexed_links g) flows m a);
      link_capacity_map ← lift (charge_link_capacity flows'
        (Dict.of_pairs ((λ e, (e, fzero)) <$> edges g)));
      mret (Some (flows', link_capacity_map))
  end.

Lemma create_test_model_raises g flows s t rate ps m :
  create_test_k_paths_model g flows s t rate ps ≠ (Ok tt, m).
Proof.
  unfold create_test_k_paths_model.
  intros (X & m1 & _ & (Y & m2 & _ & (Z & m3 & _ & ([] & m4 & _ & [=])%bindS_Ok)%bindS_Ok)%bindS_Ok)%bindS_Ok.
Qed.

(** The allocation never returns a result: with fuel for at least one
    iteration it raises. *)
Lemma testing_allocation_never_returns select g fuel seed rng r rng' :
  0 < fuel →
  testing_k_paths_flow_allocation fuel g select seed rng = (r, rng') → ∃ e, r = Raise e.
Proof.
  intros Hfuel Ht. destruct r as [r|e]; [|eauto]. exfalso. revert Ht.
  intros ([] & r0 & _ & (result & r1 & Hl & _)%bindS_Ok)%bindS_Ok.
  destruct fuel as [|fuel]; [lia|]. cbn [testing_loop] in Hl.
  apply bindS_Ok in Hl as ([s t] & r2 & _ & (ps & r3 & _ & Hl)%bindS_Ok).
  destruct (create_test_k_paths_model _ _ _ _ _ _) as [c m] eqn:Ec.
  apply bindS_Ok in Hl as ([] & r4 & [-> _]%lift_Ok & _). by apply create_test_model_raises in Ec.
Qed.
End testing.

(** * JSON *)

(** The object of a flow, and the text form that [json] gives to it: the
    codec is a parameter of the functions. *)
Record flow_json (F : Type) : Type := mkFlowJson {
  j_source_node : node; j_destination_node : node; j_flow_tx_rate : F }.
Arguments mkFlowJson {F}.
Arguments j_source_node {F}.
Arguments j_destination_node {F}.
Arguments j_flow_tx_rate {F}.

Section json.
Context {F : Type}.
Variable dumps : list (flow_json F) → string.
Variable loads : string → res (list (flow_json F)).

Definition create_json_for_single_flow (f : Flow F) : flow_json F :=
  mkFlowJson (source_node f) (destination_node f) (flow_tx_rate f).
Definition create_flow_json (flows : list (Flow F)) : string :=
  dumps (create_json_for_single_flow <$> flows).
Definition parse_flows_from_json (json_str : string) : res (list (Flow F)) :=
  loads json_str ≫= λ flow_list : list (flow_json F),
  Ok ((λ d, mkFlow (j_source_node d) (j_destination_node d) (j_flow_tx_rate d) None None)
      <$> flow_list).

(** Parsing what was written gives back the demands; paths and ratios are
    not part of the format. *)
Lemma parse_create_flow_json (flows : list (Flow F)) :
  (∀ l, loads (dumps l) = Ok l) →
  parse_flows_from_json (create_flow_json flows)
  = Ok ((λ f, mkFlow (source_node f) (destination_node f) (flow_tx_rate f) None None) <$> flows).
Proof.
  intros Hrt. unfold parse_flows_from_json, create_flow_json. rewrite Hrt. simpl.
  by rewrite <-list_fmap_compose.
Qed.
End json.
