(* ===== verification/Simulator.v ===== *)
(** The path hopping simulation:
    [rest_client/path_hopping_simulator/simulator.py].

    A message of a flow is split into [K] shares that travel along [K] of
    the flow's disjoint paths, one hop per tick; the flow hops to other paths
    after every tick. Nodes and flows are mutable objects in dictionaries;
    the simulation state holds their values by identifier.

    Shares are objects without [__eq__], so a Python set tells them apart by
    identity. The model compares their fields; the two agree because flow,
    sequence number and share number identify a share. *)

From Stdlib Require Import Ascii.
From S2P Require Import Prelude PyDict.

Abbreviation node := Z.
Abbreviation path := (list Z).

(** [class PathHoppingShare] *)
Record Share : Type := mkShare {
  sh_flow : Z;
  sh_seq : nat;
  sh_num : nat;
  sh_path : nat;
  sh_source : node;
  sh_sink : node
}.
#[export] Instance share_eq_dec : EqDecision Share.
Proof. solve_decision. Defined.

(** [class PathHoppingFlow] *)
Record PHFlow : Type := mkPHFlow {
  flow_id : Z;
  source_node : node;
  sink_node : node;
  data_volume : Z;
  paths : list path;
  active_paths : list nat;
  ph_N : nat;
  ph_K : nat;
  seq_num : nat;
  shares_received : dict nat nat;
  messages_tx : nat;
  messages_rx : nat
}.

(** [PathHoppingFlow.__init__], the identifier drawn from the class counter
    when none is given; returns the new counter. *)
Definition init_flow (counter : Z) (source sink : node) (volume : Z) (ps : list path) (N K : nat)
    (fid : option Z) : PHFlow * Z :=
  match fid with
  | Some i => (mkPHFlow i source sink volume ps [] N K 0 [] 0 0, counter)
  | None => (mkPHFlow counter source sink volume ps [] N K 0 [] 0 0, (counter + 1)%Z)
  end.

(** [create_shares_for]: one share per path of the message. *)
Definition create_shares_for (fid : Z) (source sink : node) (seq : nat)
    (paths_for_message : list nat) : list Share :=
  (λ kp : nat * nat, mkShare fid seq kp.1 kp.2 source sink) <$> enumerate paths_for_message.

(** [get_next_hop_for_share]: [-1] after the last node. *)
Definition get_next_hop_for_share (f : PHFlow) (s : Share) (n : node) : res Z :=
  path_for_share ← or_raise IndexError (paths f !! sh_path s);
  current_hop_idx ← list_index n path_for_share;
  if bool_decide (S current_hop_idx = length path_for_share) then Ok (-1)%Z
  else or_raise IndexError (path_for_share !! S current_hop_idx).

(** [create_shares]: a new sequence number whose shares are awaited. *)
Definition create_shares (f : PHFlow) : PHFlow * list Share :=
  let seq := seq_num f in
  (mkPHFlow (flow_id f) (source_node f) (sink_node f) (data_volume f) (paths f) (active_paths f)
     (ph_N f) (ph_K f) (S seq) (Dict.set (shares_received f) seq 0) (S (messages_tx f))
     (messages_rx f),
   create_shares_for (flow_id f) (source_node f) (sink_node f) seq (active_paths f)).

Definition with_received (f : PHFlow) (d : dict nat nat) (rx : nat) : PHFlow :=
  mkPHFlow (flow_id f) (source_node f) (sink_node f) (data_volume f) (paths f) (active_paths f)
    (ph_N f) (ph_K f) (seq_num f) d (messages_tx f) rx.

(** [receive_share] *)
Definition receive_share (f : PHFlow) (s : Share) : res PHFlow :=
  c ← Dict.getitem (shares_received f) (sh_seq s);
  let d := Dict.set (shares_received f) (sh_seq s) (S c) in
  if bool_decide (S c = ph_K f)
  then Ok (with_received f (Dict.del d (sh_seq s)) (S (messages_rx f)))
  else Ok (with_received f d (messages_rx f)).

(** [vulnerable_shares] of a node. *)
Definition vulnerable_shares (n : node) (resident : list Share) : list Share :=
  filter (λ s, sh_source s ≠ n ∧ sh_sink s ≠ n) resident.

Section simulation.
Context {RNG : Type}.
Variable np_choice : list nat → nat → M RNG (list nat).

(** [hop] *)
Definition hop (f : PHFlow) : M RNG PHFlow :=
  active ← np_choice (seq 0 (length (paths f))) (ph_K f);
  mret (mkPHFlow (flow_id f) (source_node f) (sink_node f) (data_volume f) (paths f) active
          (ph_N f) (ph_K f) (seq_num f) (shares_received f) (messages_tx f) (messages_rx f)).

(** The dictionaries of resident shares and of flows. *)
Abbreviation residents := (dict node (list Share)).
Abbreviation flow_table := (dict Z PHFlow).

(** [self._nodes[n].receive_share(share)] *)
Definition node_receive (ns : residents) (n : node) (s : Share) : res residents :=
  r ← Dict.getitem ns n; Ok (Dict.set ns n (set_add s r)).

(** First loop of [step]: inject the shares of a new message of each flow. *)
Definition inject_flow (st : flow_table * residents) (kf : Z * PHFlow)
    : res (flow_table * residents) :=
  let '(f', shares) := create_shares kf.2 in
  ns ← foldM (λ ns s, node_receive ns (source_node f') s) st.2 shares;
  Ok (st.1 ++ [(kf.1, f')], ns).
Definition inject_messages (fs : flow_table) (ns : residents) : res (flow_table * residents) :=
  foldM inject_flow ([], ns) fs.

(** Second loop: every resident share moves one hop or is delivered. The
    flow of a share is the one registered under its flow id. *)
Definition move_share (n : node) (st : flow_table * residents) (s : Share)
    : res (flow_table * residents) :=
  let '(fs, moved) := st in
  f ← Dict.getitem fs (sh_flow s);
  next_hop ← get_next_hop_for_share f s n;
  if bool_decide (next_hop = -1)%Z
  then f' ← receive_share f s; Ok (Dict.set fs (sh_flow s) f', moved)
  else Ok (fs, Dict.set moved next_hop (set_add s (Dict.get_default [] moved next_hop))).
Definition move_shares (fs : flow_table) (ns : residents) : res (flow_table * residents) :=
  foldM (λ st (nr : node * list Share), foldM (move_share nr.1) st nr.2) (fs, []) ns.

(** Third loop: the moved shares arrive at the emptied nodes. *)
Definition arrive (ns moved : residents) : res residents :=
  foldM (λ ns (nr : node * list Share), foldM (λ ns s, node_receive ns nr.1 s) ns nr.2)
    ((λ nr : node * list Share, (nr.1, [])) <$> ns) moved.

(** Fourth loop: every flow hops. *)
Definition hop_flows (fs : flow_table) : M RNG flow_table :=
  foldS (λ acc (kf : Z * PHFlow), f' ← hop kf.2; mret (acc ++ [(kf.1, f')])) [] fs.

(** The part of [step] that moves the shares. *)
Definition step_network (fs : flow_table) (ns : residents) : M RNG (flow_table * residents) :=
  '(fs1, ns1) ← lift (inject_messages fs ns);
  '(fs2, moved) ← lift (move_shares fs1 ns1);
  ns2 ← lift (arrive ns1 moved);
  fs3 ← hop_flows fs2;
  mret (fs3, ns2).
End simulation.
