(* ===== verification/SimulatorProps.v ===== *)
(** The simulation delivers every message: after [n] ticks the shares of the
    message sent at tick [s] are exactly [n - s] hops along their paths, and
    the message counts as received from the tick on at which its longest
    path has been traversed. *)

From S2P Require Import Prelude PyDict Simulator.

(** * Well-formed flows *)

(** Paths lead from the source to the sink through distinct nodes of the
    network. *)
Record wf_paths (net : list node) (f : PHFlow) : Prop := {
  wp_head : ∀ p, p ∈ paths f → head p = Some (source_node f);
  wp_NoDup : ∀ p, p ∈ paths f → NoDup p;
  wp_nodes : ∀ p v, p ∈ paths f → v ∈ p → v ∈ net ∧ (0 ≤ v)%Z;
  wp_K : 0 < ph_K f;
  wp_enough : ph_K f ≤ length (paths f)
}.

(** A choice of [K] distinct paths. *)
Definition choice_ok (f : PHFlow) (aps : list nat) : Prop :=
  length aps = ph_K f ∧ Forall (λ p, p < length (paths f)) aps.

Definition path_len (f : PHFlow) (p : nat) : nat := length (default [] (paths f !! p)).

(** How many shares of a message have arrived [d] ticks after it was sent. *)
Definition delivered (f : PHFlow) (aps : list nat) (d : nat) : nat :=
  length (filter (λ p, path_len f p ≤ d) aps).

(** Flows that differ only in what changes during a run. *)
Definition same_static (f f' : PHFlow) : Prop :=
  flow_id f' = flow_id f ∧ source_node f' = source_node f ∧ sink_node f' = sink_node f ∧
  paths f' = paths f ∧ ph_K f' = ph_K f.

Lemma same_static_refl f : same_static f f.
Proof. by split_and!. Qed.
Lemma same_static_trans f1 f2 f3 : same_static f1 f2 → same_static f2 f3 → same_static f1 f3.
Proof. unfold same_static. intuition congruence. Qed.

Lemma wf_paths_static net f f' : same_static f f' → wf_paths net f → wf_paths net f'.
Proof.
  intros (H1 & H2 & H3 & H4 & H5) [W1 W2 W3 W4 W5]. split; rewrite ?H4, ?H5, ?H2; auto.
Qed.

Lemma choice_ok_static f f' aps : same_static f f' → choice_ok f aps → choice_ok f' aps.
Proof. intros (_ & _ & _ & H4 & H5). unfold choice_ok. by rewrite H4, H5. Qed.

Lemma delivered_static f f' aps d : same_static f f' → delivered f' aps d = delivered f aps d.
Proof. intros (_ & _ & _ & H4 & _). unfold delivered, path_len. by rewrite H4. Qed.

Lemma delivered_le f aps d : choice_ok f aps → delivered f aps d ≤ ph_K f.
Proof. intros [<- _]. apply length_filter. Qed.

Lemma delivered_S f aps d :
  delivered f aps (S d) = delivered f aps d + length (filter (λ p, path_len f p = S d) aps).
Proof.
  unfold delivered. induction aps as [|p aps IH]; [done|]. rewrite !filter_cons.
  repeat case_decide; simpl; lia.
Qed.

Lemma delivered_0 net f aps : wf_paths net f → choice_ok f aps → delivered f aps 0 = 0.
Proof.
  intros Hw [_ Hc]. unfold delivered. rewrite filter_none; [done|].
  apply Forall_forall. intros p Hp. rewrite Forall_forall in Hc. specialize (Hc p Hp).
  destruct (lookup_lt_is_Some_2 _ _ Hc) as [q Hq]. unfold path_len. rewrite Hq. simpl.
  pose proof (wp_head _ _ Hw q (list_elem_of_lookup_2 _ _ _ Hq)). destruct q; [done|]. simpl. lia.
Qed.

(** * The counters of a flow *)

(** [cur s] shares of message [s] have arrived: a message is awaited until
    all [K] have, and then counted. *)
Definition flow_counts (f : PHFlow) (cur : nat → nat) : Prop :=
  (∀ s, Dict.get (shares_received f) s =
     if decide (s < seq_num f ∧ cur s ≠ ph_K f) then Some (cur s) else None) ∧
  Dict.wf (shares_received f) ∧
  messages_rx f = length (filter (λ s, cur s = ph_K f) (seq 0 (seq_num f))).

Lemma filter_seq_flip (P Q : nat → Prop) `{∀ x, Decision (P x)} `{∀ x, Decision (Q x)} n s :
  s < n → ¬ P s → Q s → (∀ x, x ≠ s → P x ↔ Q x) →
  length (filter Q (seq 0 n)) = S (length (filter P (seq 0 n))).
Proof.
  intros Hs HP HQ Hother.
  assert (∀ l, s ∉ l → length (filter Q l) = length (filter P l)) as Hl.
  { induction l as [|x l IH]; intros Hn; [done|]. rewrite !filter_cons.
    assert (x ≠ s) as Hx by set_solver. specialize (Hother x Hx).
    repeat case_decide; simpl; rewrite ?IH; try tauto; set_solver. }
  assert (s ∈ seq 0 n) as Hin by (apply elem_of_seq; lia).
  apply list_elem_of_split in Hin as (l1 & l2 & Heq). pose proof (NoDup_seq_nat 0 n) as Hnd.
  rewrite Heq in Hnd |- *. apply NoDup_app in Hnd as (_ & Hd & Hnd2). apply NoDup_cons in Hnd2 as [Hn2 _].
  rewrite !filter_app, !filter_cons, !length_app.
  rewrite (decide_True (P := Q s)), (decide_False (P := P s)) by done. simpl.
  rewrite !Hl; [lia|done|]. intros Hin. apply (Hd s Hin). left.
Qed.

Lemma receive_share_counts f cur s :
  flow_counts f cur → sh_seq s < seq_num f → cur (sh_seq s) < ph_K f →
  ∃ f', receive_share f s = Ok f' ∧ same_static f f' ∧ seq_num f' = seq_num f ∧
    messages_tx f' = messages_tx f ∧ active_paths f' = active_paths f ∧
    flow_counts f' (λ x, if decide (x = sh_seq s) then S (cur x) else cur x).
Proof.
  intros (Hget & Hwf & Hrx) Hs Hlt. unfold receive_share.
  assert (Dict.getitem (shares_received f) (sh_seq s) = Ok (cur (sh_seq s))) as ->.
  { apply Dict.getitem_Ok. rewrite Hget, decide_True; [done|]. split; [done|lia]. }
  simpl. case_bool_decide as HK.
  - eexists. split; [done|]. split_and!; [by split_and!|done..|]. split_and!; simpl.
    + intros x. destruct (decide (x = sh_seq s)) as [->|Hne].
      * rewrite Dict.get_del_eq by (by apply Dict.wf_set). rewrite decide_False; [done|].
        rewrite HK. naive_solver.
      * rewrite Dict.get_del_ne, Dict.get_set_ne, Hget by done. done.
    + apply Dict.wf_del, Dict.wf_set, Hwf.
    + rewrite Hrx. symmetry. apply (filter_seq_flip _ _ _ (sh_seq s)); [done|lia| |].
      * by rewrite decide_True.
      * intros x Hx. by rewrite decide_False.
  - eexists. split; [done|]. split_and!; [by split_and!|done..|]. split_and!; simpl.
    + intros x. rewrite Dict.get_set. case_decide as Hx; [subst x|].
      * rewrite (decide_True (P := sh_seq s = sh_seq s)) by done.
        rewrite decide_True; [done|]. split; [done|lia].
      * rewrite Hget. by rewrite (decide_False (P := x = sh_seq s)) by done.
    + by apply Dict.wf_set.
    + rewrite Hrx. f_equal. apply list_filter_iff. intros x.
      case_decide as Hx; [subst x|done]. lia.
Qed.

Lemma create_shares_counts net f cur :
  wf_paths net f → flow_counts f cur → cur (seq_num f) = 0 →
  flow_counts (create_shares f).1 cur.
Proof.
  intros Hw (Hget & Hwf & Hrx) H0. pose proof (wp_K _ _ Hw) as HK. split_and!.
  - intros s. simpl. rewrite Dict.get_set. case_decide as Hs; [subst s|].
    + rewrite H0, decide_True; [done|]. lia.
    + rewrite Hget. apply decide_ext. lia.
  - by apply Dict.wf_set.
  - change (messages_rx f = length (filter (λ s, cur s = ph_K f) (seq 0 (S (seq_num f))))).
    rewrite Hrx, seq_S, filter_app. cbn [Nat.add]. rewrite filter_cons, decide_False by lia.
    by rewrite filter_nil, app_nil_r.
Qed.

(** * Where the shares are *)

Section run.
Context (net : list node).
Implicit Types (H : Z → list (list nat)) (fs : dict Z PHFlow) (ns : dict node (list Share)).

(** [H k !! s]: the paths that flow [k] chose for message [s]. *)
Definition arrived H f (n : nat) (s : nat) : nat :=
  match H (flow_id f) !! s with Some aps => delivered f aps (n - s) | None => 0 end.

(** The share is where its path is [n - s] hops after the source. *)
Definition share_at H f (n : nat) (sh : Share) (v : node) : Prop :=
  ∃ aps p, H (sh_flow sh) !! sh_seq sh = Some aps ∧ aps !! sh_num sh = Some (sh_path sh) ∧
    paths f !! sh_path sh = Some p ∧ p !! (n - sh_seq sh) = Some v ∧
    sh_source sh = source_node f ∧ sh_sink sh = sink_node f.

(** A flow that has sent [m] messages, at time [n]. *)
Record flow_inv H (m n : nat) (k : Z) (f : PHFlow) : Prop := {
  fi_id : flow_id f = k;
  fi_wf : wf_paths net f;
  fi_hist : length (H k) = m;
  fi_seq : seq_num f = m;
  fi_tx : messages_tx f = m;
  fi_choices : ∀ s aps, H k !! s = Some aps → choice_ok f aps;
  fi_counts : flow_counts f (arrived H f n)
}.

Record inv H (m n : nat) fs ns : Prop := {
  inv_wf : Dict.wf fs;
  inv_flows : ∀ k f, Dict.get fs k = Some f → flow_inv H m n k f;
  inv_keys : Dict.keys ns = net;
  inv_net : NoDup net;
  inv_shares : ∀ v r, Dict.get ns v = Some r → NoDup r ∧
    ∀ sh, sh ∈ r ↔ ∃ f, Dict.get fs (sh_flow sh) = Some f ∧ share_at H f n sh v
}.

Lemma share_at_static H f f' n sh v : same_static f f' → share_at H f n sh v → share_at H f' n sh v.
Proof.
  intros (_ & H2 & H3 & H4 & _) (aps & p & ? & ? & ? & ? & ? & ?). exists aps, p.
  rewrite H2, H3, H4. by split_and!.
Qed.

(** All shares with the node they are at. *)
Definition located ns : list (node * Share) :=
  concat ((λ nr : node * list Share, (λ s, (nr.1, s)) <$> nr.2) <$> ns).

Lemma move_shares_located fs ns :
  move_shares fs ns = foldM (λ st vs, move_share vs.1 st vs.2) (fs, []) (located ns).
Proof.
  unfold move_shares, located. generalize (fs, @nil (node * list Share)) as st.
  induction ns as [|[v r] ns IH]; intros st; [done|]. rewrite fmap_cons. cbn [foldM concat].
  rewrite foldM_app. simpl.
  assert (foldM (λ st vs, move_share vs.1 st vs.2) st ((λ s, (v, s)) <$> r) = foldM (move_share v) st r) as ->.
  { clear. revert st. induction r as [|s r IH]; intros st; [done|]. rewrite fmap_cons. cbn [foldM fst snd].
    destruct (move_share v st s); simpl; auto. }
  destruct (foldM (move_share v) st r); simpl; auto.
Qed.

Lemma elem_of_located H m n fs ns v sh :
  inv H m n fs ns → (v, sh) ∈ located ns ↔
  v ∈ net ∧ ∃ f, Dict.get fs (sh_flow sh) = Some f ∧ share_at H f n sh v.
Proof.
  intros [_ _ Hk Hnet Hsh]. assert (Dict.wf ns) as Hwf by (unfold Dict.wf; by rewrite Hk).
  unfold located. rewrite list_elem_of_In, in_concat. split.
  - intros (l & Hl%list_elem_of_In & Hin%list_elem_of_In).
    apply list_elem_of_fmap in Hl as ([v' r] & -> & Hr).
    apply list_elem_of_fmap in Hin as (s & [= -> ->] & Hs).
    apply (Dict.elem_of_get _ _ _ Hwf) in Hr as Hg. split.
    + rewrite <-Hk. apply Dict.elem_of_keys. eauto.
    + by apply (Hsh v' r Hg).
  - intros [Hv Hf]. rewrite <-Hk in Hv. apply Dict.elem_of_keys in Hv as [r Hr].
    exists ((λ s, (v, s)) <$> r). split; apply list_elem_of_In, list_elem_of_fmap.
    + exists (v, r). split; [done|]. by apply Dict.get_elem_of.
    + exists sh. split; [done|]. by apply (Hsh v r Hr).
Qed.

Lemma share_at_unique H f n sh v v' : share_at H f n sh v → share_at H f n sh v' → v = v'.
Proof. intros (? & ? & ? & ? & ? & ? & _) (? & ? & ? & ? & ? & ? & _). congruence. Qed.

Lemma NoDup_located H m n fs ns : inv H m n fs ns → NoDup (located ns).*2.
Proof.
  intros Hinv. apply NoDup_fmap_2_strong.
  - intros [v sh] [v' sh'] Hv Hv' Heq. simpl in Heq. subst sh'.
    apply (elem_of_located _ _ _ _ _ _ _ Hinv) in Hv as (_ & f & Hf & Ha).
    apply (elem_of_located _ _ _ _ _ _ _ Hinv) in Hv' as (_ & f' & Hf' & Ha').
    simplify_eq. f_equal. by eapply share_at_unique.
  - destruct Hinv as [_ _ Hk Hnet Hsh]. rewrite <-Hk in Hnet. unfold located.
    assert (∀ v r, (v, r) ∈ ns → NoDup r) as Hr.
    { intros v r Hin. apply (Hsh v). by apply Dict.elem_of_get. }
    clear -Hnet Hr. induction ns as [|[v r] ns IH]; [constructor|]. rewrite fmap_cons. cbn [concat fst snd].
    simpl in Hnet. apply NoDup_cons in Hnet as [Hv Hnd]. apply NoDup_app. split_and!.
    + apply NoDup_fmap_2; [by intros ?? [= ->]|]. apply (Hr v). left.
    + intros [v' s] (s' & [= -> ->] & _)%list_elem_of_fmap (l & Hl & Hin)%list_elem_of_In%in_concat.
      apply list_elem_of_In, list_elem_of_fmap in Hl as ([v2 r2] & -> & Hr2).
      apply list_elem_of_In, list_elem_of_fmap in Hin as (s2 & [= -> _] & _).
      apply Hv. by apply (list_elem_of_fmap_2 fst) in Hr2.
    + apply IH; [done|]. intros v' r' ?. apply (Hr v'). by right.
Qed.

(** * Moving the shares *)

(** The share is at the last node of its path. *)
Definition last_hop fs (n : nat) (sh : Share) : bool :=
  match Dict.get fs (sh_flow sh) with
  | Some f => bool_decide (path_len f (sh_path sh) = S (n - sh_seq sh))
  | None => false
  end.

(** How many of the located shares are the last hop of message [s]. *)
Definition arrivals fs (n : nat) (L : list (node * Share)) (k : Z) (s : nat) : nat :=
  length (filter (λ vs, sh_flow vs.2 = k ∧ sh_seq vs.2 = s ∧ last_hop fs n vs.2 = true) L).

Lemma arrivals_app fs n L1 L2 k s :
  arrivals fs n (L1 ++ L2) k s = arrivals fs n L1 k s + arrivals fs n L2 k s.
Proof. unfold arrivals. by rewrite filter_app, length_app. Qed.

Lemma length_filter_enumerate {A} (P : A → Prop) `{∀ x, Decision (P x)} (l : list A) :
  length (filter (λ jx, P jx.2) (enumerate l)) = length (filter P l).
Proof.
  induction l as [|x l IH] using rev_ind; [done|].
  rewrite enumerate_snoc, !filter_app, !length_app, IH. f_equal. rewrite !filter_cons.
  simpl. by case_decide.
Qed.

Lemma arrivals_located H m n fs ns k f s aps :
  inv H m n fs ns → Dict.get fs k = Some f → H k !! s = Some aps →
  arrivals fs n (located ns) k s = length (filter (λ p, path_len f p = S (n - s)) aps).
Proof.
  intros Hinv Hf Hs. pose proof (inv_flows _ _ _ _ _ Hinv k f Hf) as Hfi.
  unfold arrivals. rewrite <-(length_filter_enumerate _ aps), <-(length_fmap snd).
  rewrite <-(length_fmap (λ jp : nat * nat, mkShare k s jp.1 jp.2 (source_node f) (sink_node f))).
  apply Permutation_length, NoDup_Permutation.
  - apply NoDup_fmap_filter. by eapply NoDup_located.
  - apply NoDup_fmap_2; [by intros [] [] [= -> ->]|]. apply NoDup_filter.
    apply (NoDup_fmap_1 fst). rewrite fst_enumerate. apply NoDup_seq_nat.
  - intros sh. rewrite !list_elem_of_fmap. split.
    + intros ([v sh'] & -> & [(Hk & Hseq & Hl) Hin]%list_elem_of_filter). simpl in *.
      apply (elem_of_located _ _ _ _ _ _ _ Hinv) in Hin as (_ & f' & Hf' & aps' & p & Ha & Hn & _ & _ & Hsrc & Hsnk).
      rewrite Hk in Hf', Ha. rewrite Hseq in Ha. simplify_eq.
      exists (sh_num sh', sh_path sh'). split.
      * destruct sh'; simpl in *; subst; done.
      * apply list_elem_of_filter. split; [|by apply elem_of_enumerate].
        unfold last_hop in Hl. rewrite Hf in Hl. simpl. by apply bool_decide_eq_true in Hl.
    + intros ([j p] & -> & [Hlen Hin%elem_of_enumerate]%list_elem_of_filter). simpl in *.
      destruct (fi_choices _ _ _ _ _ Hfi s aps Hs) as [_ Hc]. rewrite Forall_forall in Hc.
      destruct (lookup_lt_is_Some_2 (paths f) p) as [q Hq]; [apply Hc; by eapply list_elem_of_lookup_2|].
      unfold path_len in Hlen. rewrite Hq in Hlen. simpl in Hlen.
      destruct (lookup_lt_is_Some_2 q (n - s)) as [v Hv]; [lia|].
      exists (v, mkShare k s j p (source_node f) (sink_node f)). split; [done|].
      apply list_elem_of_filter. simpl. split_and!; [done|done| |].
      * unfold last_hop. simpl. rewrite Hf. apply bool_decide_eq_true.
        unfold path_len. by rewrite Hq.
      * apply (elem_of_located _ _ _ _ _ _ _ Hinv). split.
        -- eapply (wp_nodes _ _ (fi_wf _ _ _ _ _ Hfi) q); eapply list_elem_of_lookup_2; eauto.
        -- exists f. split; [done|]. exists aps, q. by split_and!.
Qed.

(** What is known of the tables while the located shares are processed. *)
Record moving H (n : nat) fs (L1 : list (node * Share)) (fs' : dict Z PHFlow)
    (moved : dict node (list Share)) : Prop := {
  mv_keys : Dict.keys fs' = Dict.keys fs;
  mv_flows : ∀ k f, Dict.get fs k = Some f → ∃ f', Dict.get fs' k = Some f' ∧ same_static f f' ∧
    seq_num f' = seq_num f ∧ messages_tx f' = messages_tx f ∧ active_paths f' = active_paths f ∧
    flow_counts f' (λ s, arrived H f n s + arrivals fs n L1 k s);
  mv_nodes : ∀ w, w ∈ Dict.keys moved → w ∈ net;
  mv_wf : Dict.wf moved;
  mv_moved : ∀ w, NoDup (Dict.get_default [] moved w) ∧
    ∀ sh, sh ∈ Dict.get_default [] moved w ↔
      ∃ v f, (v, sh) ∈ L1 ∧ Dict.get fs (sh_flow sh) = Some f ∧ share_at H f (S n) sh w
}.

(** A located share and its next hop. *)
Lemma next_hop_located H m n fs ns v sh f f' :
  inv H m n fs ns → m ≤ S n → (v, sh) ∈ located ns → Dict.get fs (sh_flow sh) = Some f →
  same_static f f' →
  (last_hop fs n sh = true ∧ get_next_hop_for_share f' sh v = Ok (-1)%Z ∧
     (∀ w, ¬ share_at H f (S n) sh w)) ∨
  (last_hop fs n sh = false ∧ ∃ w, get_next_hop_for_share f' sh v = Ok w ∧ (0 ≤ w)%Z ∧ w ∈ net ∧
     ∀ w', share_at H f (S n) sh w' ↔ w' = w).
Proof.
  intros Hinv Hm Hloc Hf Hst.
  apply (elem_of_located _ _ _ _ _ _ _ Hinv) in Hloc as (_ & f0 & Hf0 & aps & p & Haps & Hnum & Hp & Hpos & Hs1 & Hs2).
  assert (f0 = f) as -> by congruence. pose proof (inv_flows _ _ _ _ _ Hinv _ _ Hf) as Hfi.
  assert (p ∈ paths f) as Hpin by (by eapply list_elem_of_lookup_2).
  assert (sh_seq sh ≤ n) as Hle.
  { apply lookup_lt_Some in Haps. rewrite (fi_hist _ _ _ _ _ Hfi) in Haps. lia. }
  assert (S n - sh_seq sh = S (n - sh_seq sh)) as HS by lia.
  unfold get_next_hop_for_share. destruct Hst as (_ & _ & _ & -> & _). rewrite Hp. simpl.
  rewrite (list_index_NoDup v p (n - sh_seq sh)) by (done || by apply (wp_NoDup _ _ (fi_wf _ _ _ _ _ Hfi))).
  simpl. unfold last_hop. rewrite Hf. unfold path_len. rewrite Hp. simpl.
  destruct (decide (length p = S (n - sh_seq sh))) as [Heq|Hne].
  - left. rewrite !bool_decide_true by done. split_and!; [done..|].
    intros w (aps' & p' & _ & _ & Hp' & Hw & _). simplify_eq. apply lookup_lt_Some in Hw. lia.
  - right. rewrite !bool_decide_false by done. split; [done|].
    destruct (lookup_lt_is_Some_2 p (S (n - sh_seq sh))) as [w Hw].
    { apply lookup_lt_Some in Hpos. lia. }
    exists w. rewrite Hw. simpl.
    destruct (wp_nodes _ _ (fi_wf _ _ _ _ _ Hfi) p w Hpin) as [Hnet H0];
      [by eapply list_elem_of_lookup_2|]. split_and!; [done..|].
    intros w'. split.
    + intros (aps' & p' & _ & _ & Hp' & Hw' & _). rewrite HS in Hw'. simplify_eq. done.
    + intros ->. exists aps, p. rewrite HS. by split_and!.
Qed.

Lemma flow_counts_ext f cur cur' :
  (∀ s, s < seq_num f → cur s = cur' s) → flow_counts f cur → flow_counts f cur'.
Proof.
  intros Heq (Hget & Hwf & Hrx). split_and!; [|done|].
  - intros s. rewrite Hget. destruct (decide (s < seq_num f)) as [Hs|Hs].
    + by rewrite Heq.
    + rewrite !decide_False by tauto. done.
  - rewrite Hrx. f_equal. apply list_filter_iff'. intros s Hs%elem_of_seq. by rewrite Heq by lia.
Qed.

Lemma arrivals_snoc fs n L1 v sh k s :
  arrivals fs n (L1 ++ [(v, sh)]) k s = arrivals fs n L1 k s +
    (if decide (sh_flow sh = k ∧ sh_seq sh = s ∧ last_hop fs n sh = true) then 1 else 0).
Proof. rewrite arrivals_app. f_equal. unfold arrivals. rewrite filter_cons. simpl. by case_decide. Qed.

(** Never more than [K] shares of a message arrive. *)
Lemma arrivals_bound H m n fs ns L1 v sh L2 f :
  inv H m n fs ns → m ≤ S n → located ns = L1 ++ (v, sh) :: L2 →
  Dict.get fs (sh_flow sh) = Some f → last_hop fs n sh = true →
  arrived H f n (sh_seq sh) + arrivals fs n L1 (sh_flow sh) (sh_seq sh) < ph_K f ∧
  sh_seq sh < seq_num f.
Proof.
  intros Hinv Hm HL Hf Hl. pose proof (inv_flows _ _ _ _ _ Hinv _ _ Hf) as Hfi.
  assert ((v, sh) ∈ located ns) as Hin by (rewrite HL; set_solver).
  apply (elem_of_located _ _ _ _ _ _ _ Hinv) in Hin as (_ & f0 & Hf0 & aps & p & Haps & _).
  assert (f0 = f) as -> by congruence.
  pose proof (lookup_lt_Some _ _ _ Haps) as Hlt. rewrite (fi_hist _ _ _ _ _ Hfi) in Hlt.
  split; [|by rewrite (fi_seq _ _ _ _ _ Hfi)].
  pose proof (arrivals_located H m n fs ns _ f _ aps Hinv Hf Haps) as Harr.
  rewrite HL in Harr. change ((v, sh) :: L2) with ([(v, sh)] ++ L2) in Harr.
  rewrite (assoc_L (++)), arrivals_app, arrivals_snoc, decide_True in Harr by done.
  pose proof (delivered_S f aps (n - sh_seq sh)) as HdS.
  pose proof (delivered_le f aps (S (n - sh_seq sh)) (fi_choices _ _ _ _ _ Hfi _ _ Haps)) as Hle.
  unfold arrived. rewrite (fi_id _ _ _ _ _ Hfi), Haps. lia.
Qed.

(** A delivered share is counted by its flow. *)
Lemma moving_deliver H n fs L1 v sh f f' f2 fs' moved :
  moving H n fs L1 fs' moved → Dict.get fs (sh_flow sh) = Some f →
  Dict.get fs' (sh_flow sh) = Some f' → last_hop fs n sh = true →
  (∀ w, ¬ share_at H f (S n) sh w) →
  same_static f f2 → seq_num f2 = seq_num f → messages_tx f2 = messages_tx f →
  active_paths f2 = active_paths f →
  flow_counts f2 (λ x, if decide (x = sh_seq sh)
    then S (arrived H f n x + arrivals fs n L1 (sh_flow sh) x)
    else arrived H f n x + arrivals fs n L1 (sh_flow sh) x) →
  moving H n fs (L1 ++ [(v, sh)]) (Dict.set fs' (sh_flow sh) f2) moved.
Proof.
  intros [Mk Mf Mn Mwf Mm] Hf Hf' Hlast Hno Hst Hseq Htx Hact Hcnt. split; [|..|done|done|].
  - rewrite Dict.keys_set_mem by eauto. done.
  - intros k f0 Hf0. rewrite Dict.get_set. case_decide as Hk.
    + subst k. assert (f0 = f) as -> by congruence. exists f2. split_and!; [done..|].
      eapply flow_counts_ext; [|exact Hcnt]. intros s _. simpl. rewrite arrivals_snoc.
      repeat case_decide; subst; try tauto; lia.
    + destruct (Mf _ _ Hf0) as (f3 & Hf3 & H1 & H2 & H3 & H4 & H5). exists f3. split_and!; [done..|].
      eapply flow_counts_ext; [|exact H5]. intros s _. simpl. rewrite arrivals_snoc, decide_False by tauto. lia.
  - intros w. destruct (Mm w) as [Hnd Hmem]. split; [done|]. intros sh'. rewrite Hmem.
    setoid_rewrite elem_of_app. setoid_rewrite list_elem_of_singleton. split.
    + intros (v' & f0 & ? & ? & ?). exists v', f0. by auto.
    + intros (v' & f0 & [?|[= -> ->]] & Hf0 & Hat); [by eauto 10|].
      exfalso. assert (f0 = f) as -> by congruence. by apply (Hno w).
Qed.

(** Any other share waits at its next hop. *)
Lemma moving_forward H n fs L1 v sh f w fs' moved :
  moving H n fs L1 fs' moved → Dict.get fs (sh_flow sh) = Some f →
  last_hop fs n sh = false → w ∈ net → (∀ w', share_at H f (S n) sh w' ↔ w' = w) →
  moving H n fs (L1 ++ [(v, sh)]) fs'
    (Dict.set moved w (set_add sh (Dict.get_default [] moved w))).
Proof.
  intros [Mk Mf Mn Mwf Mm] Hf Hlast Hw Hnext. split; [done|..].
  - intros k f0 Hf0. destruct (Mf _ _ Hf0) as (f3 & Hf3 & H1 & H2 & H3 & H4 & H5). exists f3.
    split_and!; [done..|]. eapply flow_counts_ext; [|exact H5]. intros s _. simpl.
    rewrite arrivals_snoc, decide_False by (rewrite Hlast; naive_solver). lia.
  - intros w' Hw'. destruct (decide (w' = w)) as [->|Hne]; [done|]. apply Mn.
    rewrite Dict.elem_of_keys in Hw' |- *. by rewrite Dict.get_set_ne in Hw'.
  - by apply Dict.wf_set.
  - intros w'. rewrite Dict.get_default_set. case_decide as Hww; [subst w'|].
    + destruct (Mm w) as [Hnd Hmem]. split; [by apply NoDup_set_add|].
      intros sh'. rewrite elem_of_set_add, Hmem. setoid_rewrite elem_of_app.
      setoid_rewrite list_elem_of_singleton. split.
      * intros [->|(v' & f0 & ? & ? & ?)]; [|by eauto 10]. exists v, f.
        split_and!; [by right|done|by apply Hnext].
      * intros (v' & f0 & [?|[= -> ->]] & ? & ?); [right; by eauto 10|by left].
    + destruct (Mm w') as [Hnd Hmem]. split; [done|]. intros sh'. rewrite Hmem. setoid_rewrite elem_of_app. setoid_rewrite list_elem_of_singleton. split.
      * intros (v' & f0 & ? & ? & ?); by eauto 10.
      * intros (v' & f0 & [?|[= -> ->]] & Hf0 & Hat); [by eauto 10|].
        exfalso. assert (f0 = f) as -> by congruence. apply Hnext in Hat. congruence.
Qed.

Lemma move_share_step H m n fs ns L1 v sh L2 fs' moved :
  inv H m n fs ns → m ≤ S n → located ns = L1 ++ (v, sh) :: L2 → moving H n fs L1 fs' moved →
  ∃ fs2 moved2, move_share v (fs', moved) sh = Ok (fs2, moved2) ∧
    moving H n fs (L1 ++ [(v, sh)]) fs2 moved2.
Proof.
  intros Hinv Hm HL HM.
  assert ((v, sh) ∈ located ns) as Hin by (rewrite HL; set_solver).
  pose proof (proj1 (elem_of_located _ _ _ _ _ _ _ Hinv) Hin) as (_ & f & Hf & _).
  destruct (mv_flows _ _ _ _ _ _ HM _ _ Hf) as (f' & Hf' & Hst & Hseq & Htx & Hact & Hcnt).
  unfold move_share. rewrite (proj2 (Dict.getitem_Ok _ _ _) Hf'). simpl.
  destruct (next_hop_located H m n fs ns v sh f f' Hinv Hm Hin Hf Hst)
    as [(Hlast & -> & Hno)|(Hlast & w & -> & H0 & Hw & Hnext)]; simpl.
  - destruct (arrivals_bound H m n fs ns L1 v sh L2 f Hinv Hm HL Hf Hlast) as [Hb1 Hb2].
    destruct (receive_share_counts f' _ sh Hcnt) as (f2 & -> & Hst2 & Hseq2 & Htx2 & Hact2 & Hcnt2);
      [by rewrite Hseq|destruct Hst as (_ & _ & _ & _ & ->); done|].
    simpl. do 2 eexists. split; [done|].
    eapply moving_deliver; eauto using same_static_trans; congruence.
  - rewrite bool_decide_false by lia. do 2 eexists. split; [done|]. by eapply moving_forward.
Qed.

(** ** All shares *)

Lemma arrived_S H m n fs ns k f s :
  inv H m n fs ns → m ≤ S n → Dict.get fs k = Some f →
  arrived H f n s + arrivals fs n (located ns) k s = arrived H f (S n) s.
Proof.
  intros Hinv Hm Hf. pose proof (inv_flows _ _ _ _ _ Hinv _ _ Hf) as Hfi.
  unfold arrived. rewrite (fi_id _ _ _ _ _ Hfi). destruct (H k !! s) as [aps|] eqn:E.
  - rewrite (arrivals_located H m n fs ns k f s aps) by done.
    apply lookup_lt_Some in E. rewrite (fi_hist _ _ _ _ _ Hfi) in E.
    replace (S n - s) with (S (n - s)) by lia. by rewrite delivered_S.
  - unfold arrivals. rewrite filter_none; [done|]. apply Forall_forall. intros [v sh] Hin (Hk & Hs & _).
    simpl in *. subst.
    apply (elem_of_located _ _ _ _ _ _ _ Hinv) in Hin as (_ & f0 & _ & aps & p & Haps & _). congruence.
Qed.

Lemma move_shares_spec H m n fs ns :
  inv H m n fs ns → m ≤ S n →
  ∃ fs' moved, move_shares fs ns = Ok (fs', moved) ∧ Dict.wf fs' ∧
    (∀ k f', Dict.get fs' k = Some f' → flow_inv H m (S n) k f' ∧
       ∃ f, Dict.get fs k = Some f ∧ active_paths f' = active_paths f) ∧
    (∀ k f, Dict.get fs k = Some f → ∃ f', Dict.get fs' k = Some f' ∧ same_static f f') ∧
    (∀ w, w ∈ Dict.keys moved → w ∈ net) ∧ Dict.wf moved ∧
    ∀ w, NoDup (Dict.get_default [] moved w) ∧ ∀ sh, sh ∈ Dict.get_default [] moved w ↔
      ∃ f', Dict.get fs' (sh_flow sh) = Some f' ∧ share_at H f' (S n) sh w.
Proof.
  intros Hinv Hm. rewrite move_shares_located.
  destruct (foldM_prefix (λ L1 st, moving H n fs L1 st.1 st.2)
    (λ st vs, move_share vs.1 st vs.2) (located ns)) with (b := (fs, @nil (node * list Share)))
    as ([fs' moved] & -> & [Mk Mf Mn Mwf Mm]).
  - intros L1 [v sh] L2 [fs1 moved1] HL HM. simpl in *.
    destruct (move_share_step H m n fs ns L1 v sh L2 fs1 moved1 Hinv Hm HL HM) as (fs2 & moved2 & ? & ?).
    by exists (fs2, moved2).
  - simpl. split; [done| | |constructor|].
    + intros k f Hf. exists f. split_and!; [done|apply same_static_refl|done..|].
      eapply flow_counts_ext; [|apply (inv_flows _ _ _ _ _ Hinv _ _ Hf)]. intros; simpl.
      change (arrivals fs n [] k s) with 0. lia.
    + set_solver.
    + intros w. split; [constructor|]. set_solver.
  - simpl in *. assert (∀ k f', Dict.get fs' k = Some f' → is_Some (Dict.get fs k)) as Hback.
    { intros k f' Hf'. apply Dict.elem_of_keys. rewrite <-Mk. apply Dict.elem_of_keys. eauto. }
    exists fs', moved. split; [done|]. split_and!.
    + unfold Dict.wf. rewrite Mk. apply Hinv.
    + intros k f' Hf'. destruct (Hback k f' Hf') as [f Hf].
      destruct (Mf k f Hf) as (f0 & Hf0 & Hst & Hseq & Htx & Hact & Hcnt).
      assert (f0 = f') as -> by congruence. split; [|eauto].
      destruct (inv_flows _ _ _ _ _ Hinv _ _ Hf) as [F1 F2 F3 F4 F5 F6 F7]. split.
      * destruct Hst as (-> & _). done.
      * by eapply wf_paths_static.
      * done.
      * congruence.
      * congruence.
      * intros s aps Hs. by eapply choice_ok_static, F6.
      * eapply flow_counts_ext; [|exact Hcnt]. intros s _. simpl.
        rewrite (arrived_S H m n fs ns k f s Hinv Hm Hf). unfold arrived.
        pose proof Hst as (-> & _). case_match; [|done]. symmetry. by apply delivered_static.
    + intros k f Hf. destruct (Mf k f Hf) as (f0 & Hf0 & Hst & _). eauto.
    + done.
    + done.
    + intros w. destruct (Mm w) as [Hnd Hmem]. split; [done|]. intros sh. rewrite Hmem. split.
      * intros (v & f & _ & Hf & Hat). destruct (Mf _ f Hf) as (f0 & Hf0 & Hst & _).
        exists f0. split; [done|]. by eapply share_at_static.
      * intros (f' & Hf' & Hat). destruct (Hback _ _ Hf') as [f Hf].
        destruct (Mf _ f Hf) as (f0 & Hf0 & Hst & _). assert (f0 = f') as -> by congruence.
        assert (share_at H f (S n) sh w) as Hat'.
        { eapply share_at_static; [|exact Hat]. destruct Hst as (? & ? & ? & ? & ?). by split_and!. }
        pose proof Hat' as (aps & p & Haps & Hnum & Hp & Hpos & Hs1 & Hs2).
        pose proof (inv_flows _ _ _ _ _ Hinv _ _ Hf) as Hfi.
        pose proof (lookup_lt_Some _ _ _ Haps) as Hlt. rewrite (fi_hist _ _ _ _ _ Hfi) in Hlt.
        destruct (lookup_lt_is_Some_2 p (n - sh_seq sh)) as [v Hv].
        { apply lookup_lt_Some in Hpos. lia. }
        exists v, f. split_and!; [|done..]. apply (elem_of_located _ _ _ _ _ _ _ Hinv). split.
        -- eapply (wp_nodes _ _ (fi_wf _ _ _ _ _ Hfi) p); eapply list_elem_of_lookup_2; eauto.
        -- exists f. split; [done|]. exists aps, p. by split_and!.
Qed.

(** * Arrival and injection *)

Lemma node_receive_all (L : list (node * Share)) ns :
  Forall (λ ws, ws.1 ∈ Dict.keys ns) L →
  ∃ ns', foldM (λ ns ws, node_receive ns ws.1 ws.2) ns L = Ok ns' ∧ Dict.keys ns' = Dict.keys ns ∧
    ∀ v r, Dict.get ns v = Some r → ∃ r', Dict.get ns' v = Some r' ∧ (NoDup r → NoDup r') ∧
      ∀ sh, sh ∈ r' ↔ sh ∈ r ∨ (v, sh) ∈ L.
Proof.
  revert ns; induction L as [|[w s] L IH]; intros ns HL; cbn [foldM fst snd].
  { exists ns. split_and!; [done..|]. intros v r Hr. exists r. split_and!; [done..|set_solver]. }
  apply Forall_cons in HL as [[r0 Hr0]%Dict.elem_of_keys HL]. simpl in Hr0.
  assert (node_receive ns w s = Ok (Dict.set ns w (set_add s r0))) as ->.
  { unfold node_receive. by rewrite (proj2 (Dict.getitem_Ok _ _ _) Hr0). }
  simpl.
  assert (Dict.keys (Dict.set ns w (set_add s r0)) = Dict.keys ns) as Hk
    by (apply Dict.keys_set_mem; eauto).
  destruct (IH (Dict.set ns w (set_add s r0))) as (ns' & -> & Hk' & Hget); [by rewrite Hk|].
  exists ns'. split_and!; [done|by rewrite Hk'|]. intros v r Hr.
  destruct (decide (w = v)) as [->|Hne].
  - assert (r0 = r) as -> by congruence.
    destruct (Hget v (set_add s r)) as (r' & Hr' & Hnd & Hmem); [apply Dict.get_set_eq|].
    exists r'. split_and!; [done|auto using NoDup_set_add|]. intros sh.
    rewrite Hmem, elem_of_set_add. set_solver.
  - destruct (Hget v r) as (r' & Hr' & Hnd & Hmem); [by rewrite Dict.get_set_ne|].
    exists r'. split_and!; [done..|]. intros sh. rewrite Hmem. set_solver.
Qed.

Lemma foldM_located {A} (f : A → node → Share → res A) (moved : dict node (list Share)) a :
  foldM (λ a (nr : node * list Share), foldM (λ a s, f a nr.1 s) a nr.2) a moved
  = foldM (λ a ws, f a ws.1 ws.2) a (located moved).
Proof.
  unfold located. revert a; induction moved as [|[v r] moved IH]; intros a; [done|].
  rewrite fmap_cons. cbn [foldM concat fst snd]. rewrite foldM_app.
  assert (foldM (λ a ws, f a ws.1 ws.2) a ((λ s, (v, s)) <$> r) = foldM (λ a s, f a v s) a r) as ->.
  { clear. revert a. induction r as [|s r IH]; intros a; [done|]. rewrite fmap_cons. cbn [foldM fst snd].
    destruct (f a v s); simpl; auto. }
  destruct (foldM (λ a s, f a v s) a r); simpl; auto.
Qed.

Lemma elem_of_located_get (moved : dict node (list Share)) v sh :
  Dict.wf moved → (v, sh) ∈ located moved ↔ sh ∈ Dict.get_default [] moved v.
Proof.
  intros Hwf. unfold located. rewrite list_elem_of_In, in_concat. split.
  - intros (l & Hl%list_elem_of_In & Hin%list_elem_of_In).
    apply list_elem_of_fmap in Hl as ([v' r] & -> & Hr).
    apply list_elem_of_fmap in Hin as (s & [= -> ->] & Hs).
    apply (Dict.elem_of_get _ _ _ Hwf) in Hr. unfold Dict.get_default. by rewrite Hr.
  - unfold Dict.get_default. destruct (Dict.get moved v) as [r|] eqn:E; simpl; [|set_solver].
    intros Hs. exists ((λ s, (v, s)) <$> r). split; apply list_elem_of_In, list_elem_of_fmap.
    + exists (v, r). split; [done|]. by apply Dict.get_elem_of.
    + by exists sh.
Qed.

Lemma arrive_spec ns moved :
  Dict.wf ns → Dict.wf moved → (∀ w, w ∈ Dict.keys moved → w ∈ Dict.keys ns) →
  ∃ ns', arrive ns moved = Ok ns' ∧ Dict.keys ns' = Dict.keys ns ∧
    ∀ v r, Dict.get ns' v = Some r → NoDup r ∧ ∀ sh, sh ∈ r ↔ sh ∈ Dict.get_default [] moved v.
Proof.
  intros Hns Hwf Hsub. unfold arrive. rewrite (foldM_located node_receive).
  set (empty := (λ nr : node * list Share, (nr.1, [])) <$> ns : dict node (list Share)).
  assert (Dict.keys empty = Dict.keys ns) as Hke
    by (unfold empty, Dict.keys; by rewrite <-list_fmap_compose).
  destruct (node_receive_all (located moved) empty) as (ns' & -> & Hk' & Hget).
  { apply Forall_forall. intros [w s] Hin%(elem_of_located_get _ _ _ Hwf). simpl.
    rewrite Hke. apply Hsub, Dict.elem_of_keys. unfold Dict.get_default in Hin.
    destruct (Dict.get moved w); [by eexists|set_solver]. }
  exists ns'. split_and!; [done|by rewrite Hk', Hke|]. intros v r Hr.
  assert (∃ r0, Dict.get empty v = Some r0 ∧ r0 = []) as (r0 & Hr0 & ->).
  { assert (v ∈ Dict.keys empty) as [r0 Hr0]%Dict.elem_of_keys
      by (rewrite <-Hk'; apply Dict.elem_of_keys; eauto).
    exists r0. split; [done|]. apply Dict.get_elem_of, list_elem_of_fmap in Hr0 as (? & [= -> ->] & _). done. }
  destruct (Hget v [] Hr0) as (r' & Hr' & Hnd & Hmem). assert (r' = r) as -> by congruence.
  split; [apply Hnd; constructor|]. intros sh. rewrite Hmem, (elem_of_located_get _ _ _ Hwf). set_solver.
Qed.

(** The injected shares with their nodes. *)
Definition injected fs : list (node * Share) :=
  concat ((λ kf : Z * PHFlow, (λ s, (source_node kf.2, s)) <$> (create_shares kf.2).2) <$> fs).

Lemma inject_flow_flat acc ns k f :
  inject_flow (acc, ns) (k, f) =
  ns' ← foldM (λ ns ws, node_receive ns ws.1 ws.2) ns
          ((λ s, (source_node f, s)) <$> (create_shares f).2);
  Ok (acc ++ [(k, (create_shares f).1)], ns').
Proof.
  unfold inject_flow. cbn [create_shares fst snd source_node].
  generalize (create_shares_for (flow_id f) (source_node f) (sink_node f) (seq_num f) (active_paths f)).
  intros l. match goal with |- ?a ≫= _ = ?b ≫= _ => assert (a = b) as ->; [|done] end.
  revert ns; induction l as [|s l IH]; intros ns; [done|]. rewrite fmap_cons. cbn [foldM fst snd].
  destruct (node_receive ns (source_node f) s); simpl; auto.
Qed.

Lemma inject_messages_flat fs ns :
  inject_messages fs ns =
  ns' ← foldM (λ ns ws, node_receive ns ws.1 ws.2) ns (injected fs);
  Ok ((λ kf : Z * PHFlow, (kf.1, (create_shares kf.2).1)) <$> fs, ns').
Proof.
  unfold inject_messages, injected.
  cut (∀ acc, foldM inject_flow (acc, ns) fs =
    ns' ← foldM (λ ns ws, node_receive ns ws.1 ws.2) ns
      (concat ((λ kf : Z * PHFlow, (λ s, (source_node kf.2, s)) <$> (create_shares kf.2).2) <$> fs));
    Ok (acc ++ ((λ kf : Z * PHFlow, (kf.1, (create_shares kf.2).1)) <$> fs), ns')); [intros Hc; apply Hc|].
  revert ns; induction fs as [|[k f] fs IH]; intros ns acc; [simpl; by rewrite app_nil_r|].
  rewrite !fmap_cons. cbn [foldM concat fst snd]. rewrite foldM_app, inject_flow_flat.
  destruct (foldM (λ ns ws, node_receive ns ws.1 ws.2) ns ((λ s, (source_node f, s)) <$> (create_shares f).2))
    as [ns1|]; cbn [mbind res_bind]; [|done].
  rewrite IH. destruct (foldM _ ns1 _); cbn [mbind res_bind]; [|done]. by rewrite <-(assoc_L (++)).
Qed.

Definition extend_history H fs (k : Z) : list (list nat) :=
  match Dict.get fs k with Some f => H k ++ [active_paths f] | None => H k end.

Lemma get_fmap_flows (g : PHFlow → PHFlow) fs k :
  Dict.get ((λ kf : Z * PHFlow, (kf.1, g kf.2)) <$> fs) k = g <$> Dict.get fs k.
Proof.
  induction fs as [|[k' f] fs IH]; [done|]. rewrite fmap_cons. cbn [Dict.get fst snd].
  by case_decide.
Qed.

Lemma keys_fmap_flows (g : PHFlow → PHFlow) fs :
  Dict.keys ((λ kf : Z * PHFlow, (kf.1, g kf.2)) <$> fs) = Dict.keys fs.
Proof. unfold Dict.keys. by rewrite <-list_fmap_compose. Qed.

Lemma elem_of_injected fs v sh :
  Dict.wf fs → (v, sh) ∈ injected fs ↔
  ∃ k f, Dict.get fs k = Some f ∧ v = source_node f ∧ sh ∈ (create_shares f).2.
Proof.
  intros Hwf. unfold injected. rewrite list_elem_of_In, in_concat. split.
  - intros (l & Hl%list_elem_of_In & Hin%list_elem_of_In).
    apply list_elem_of_fmap in Hl as ([k f] & -> & Hf). apply list_elem_of_fmap in Hin as (s & [= -> ->] & Hs).
    exists k, f. split_and!; [by apply Dict.elem_of_get|done..].
  - intros (k & f & Hf%Dict.get_elem_of & -> & Hs).
    exists ((λ s, (source_node f, s)) <$> (create_shares f).2).
    split; apply list_elem_of_In, list_elem_of_fmap; [by exists (k, f)|by exists sh].
Qed.

Lemma flow_inv_inject H n k f :
  flow_inv H n n k f → choice_ok f (active_paths f) →
  ∀ fs, Dict.get fs k = Some f → flow_inv (extend_history H fs) (S n) n k (create_shares f).1.
Proof.
  intros [F1 F2 F3 F4 F5 F6 F7] Hact fs Hf.
  assert (extend_history H fs k = H k ++ [active_paths f]) as HH
    by (unfold extend_history; by rewrite Hf).
  assert (∀ s aps, extend_history H fs k !! s = Some aps → choice_ok f aps) as Hch.
  { intros s aps. rewrite HH. intros [Hs|[_ [_ <-]%list_lookup_singleton_Some]]%lookup_app_Some; eauto. }
  split; simpl; [done|by eapply wf_paths_static, F2| | | |done|].
  - rewrite HH, length_app. simpl. lia.
  - by rewrite F4.
  - by rewrite F5.
  - apply (create_shares_counts net); [done| |].
    + eapply flow_counts_ext; [|exact F7]. intros s Hs. unfold arrived. simpl. rewrite F1, HH.
      rewrite lookup_app_l by lia. done.
    + unfold arrived. simpl. rewrite F1, HH, F4, lookup_app_r, F3, Nat.sub_diag by lia. simpl.
      change (delivered f (active_paths f) 0 = 0). by apply (delivered_0 net).
Qed.


Lemma create_shares_static f : same_static f (create_shares f).1.
Proof. by split_and!. Qed.

(** The shares of a new message. *)
Lemma elem_of_create_shares f sh :
  sh ∈ (create_shares f).2 ↔ sh_flow sh = flow_id f ∧ sh_seq sh = seq_num f ∧
    active_paths f !! sh_num sh = Some (sh_path sh) ∧
    sh_source sh = source_node f ∧ sh_sink sh = sink_node f.
Proof.
  cbn [create_shares snd]. unfold create_shares_for. rewrite list_elem_of_fmap. split.
  - by intros ([j p] & -> & Hin%elem_of_enumerate).
  - intros (H1 & H2 & H3 & H4 & H5). exists (sh_num sh, sh_path sh). split.
    + destruct sh; simpl in *; congruence.
    + by apply elem_of_enumerate.
Qed.

Lemma share_at_extend H n fs k f sh v :
  flow_inv H n n k f → choice_ok f (active_paths f) → Dict.get fs k = Some f → sh_flow sh = k →
  share_at (extend_history H fs) (create_shares f).1 n sh v ↔
  share_at H f n sh v ∨ (v = source_node f ∧ sh ∈ (create_shares f).2).
Proof.
  intros [F1 F2 F3 F4 F5 F6 F7] [_ Hact] Hf Hk. rewrite elem_of_create_shares.
  assert (extend_history H fs (sh_flow sh) = H k ++ [active_paths f]) as HH
    by (unfold extend_history; by rewrite Hk, Hf).
  unfold share_at. rewrite HH, Hk. cbn [create_shares fst paths source_node sink_node]. split.
  - intros (aps & p & [Haps|[Hge Haps]]%lookup_app_Some & Hnum & Hp & Hpos & Hs1 & Hs2).
    { left. exists aps, p. by split_and!. }
    right. apply list_lookup_singleton_Some in Haps as [Hz <-]. rewrite F3 in Hge, Hz.
    assert (sh_seq sh = n) as Hseq by lia. rewrite Hseq, Nat.sub_diag in Hpos.
    pose proof (wp_head _ _ F2 p (list_elem_of_lookup_2 _ _ _ Hp)) as Hh.
    destruct p as [|x p]; [done|]. simpl in *. split; [congruence|]. split_and!; congruence.
  - intros [(aps & p & Haps & Hrest)|(-> & H1 & H2 & H3 & H4 & H5)].
    { exists aps, p. split; [|done]. by apply lookup_app_l_Some. }
    rewrite Forall_forall in Hact.
    destruct (lookup_lt_is_Some_2 (paths f) (sh_path sh)) as [p Hp];
      [apply Hact; by eapply list_elem_of_lookup_2|].
    pose proof (wp_head _ _ F2 p (list_elem_of_lookup_2 _ _ _ Hp)) as Hh.
    exists (active_paths f), p. rewrite H2, F4, Nat.sub_diag. split_and!; [|done..| |done|done].
    + rewrite lookup_app_r by lia. by rewrite F3, Nat.sub_diag.
    + by destruct p.
Qed.

Lemma inject_spec H n fs ns :
  inv H n n fs ns → (∀ k f, Dict.get fs k = Some f → choice_ok f (active_paths f)) →
  ∃ fs1 ns1, inject_messages fs ns = Ok (fs1, ns1) ∧
    inv (extend_history H fs) (S n) n fs1 ns1 ∧
    (∀ k, Dict.get fs1 k = (λ f, (create_shares f).1) <$> Dict.get fs k).
Proof.
  intros Hinv Hact. rewrite inject_messages_flat. pose proof Hinv as [Iwf Ifl Ik Inet Ish].
  destruct (node_receive_all (injected fs) ns) as (ns1 & -> & Hk1 & Hget).
  { apply Forall_forall. intros [v sh] (k & f & Hf & -> & _)%(elem_of_injected _ _ _ Iwf). simpl.
    destruct (Ifl _ _ Hf) as [_ Hw _ _ _ _ _]. rewrite Ik.
    destruct (lookup_lt_is_Some_2 (paths f) 0) as [p Hp].
    { pose proof (wp_K _ _ Hw). pose proof (wp_enough _ _ Hw). lia. }
    apply list_elem_of_lookup_2 in Hp. pose proof (wp_head _ _ Hw p Hp) as Hh.
    eapply (wp_nodes _ _ Hw p); [done|]. destruct p; [done|]. simpl in Hh. simplify_eq. left. }
  simpl. do 2 eexists. split; [done|]. split; [|intros k; apply (get_fmap_flows (λ f, (create_shares f).1))].
  split.
  - unfold Dict.wf. by rewrite (keys_fmap_flows (λ f, (create_shares f).1)).
  - intros k f'. rewrite (get_fmap_flows (λ f, (create_shares f).1)).
    intros (f & Hf & ->)%fmap_Some. by apply flow_inv_inject; [apply Ifl|eapply Hact|].
  - congruence.
  - done.
  - intros v r' Hr'. assert (v ∈ Dict.keys ns) as [r Hr]%Dict.elem_of_keys
      by (rewrite <-Hk1; apply Dict.elem_of_keys; eauto).
    destruct (Hget v r Hr) as (r2 & Hr2 & Hnd & Hmem). assert (r2 = r') as -> by congruence.
    destruct (Ish v r Hr) as [Hndr Hmr]. split; [by apply Hnd|]. intros sh.
    rewrite Hmem, Hmr, (elem_of_injected _ _ _ Iwf).
    setoid_rewrite (get_fmap_flows (λ f, (create_shares f).1)). split.
    + intros [(f & Hf & Hat)|(k & f & Hf & -> & Hs)].
      * exists (create_shares f).1. rewrite Hf. split; [done|].
        eapply share_at_extend; eauto.
      * pose proof Hs as (Hsf & _)%elem_of_create_shares. rewrite (fi_id _ _ _ _ _ (Ifl _ _ Hf)) in Hsf.
        exists (create_shares f).1. rewrite Hsf, Hf. split; [done|].
        eapply share_at_extend; eauto.
    + intros (f' & (f & Hf & ->)%fmap_Some & Hat).
      apply (share_at_extend H n fs (sh_flow sh) f) in Hat as [Hat|[-> Hs]]; eauto 10.
Qed.
End run.

(** * Whole runs *)

Section network.
Context {RNG : Type} (np_choice : list nat → nat → M RNG (list nat)) (net : list node).

(** [numpy.random.choice(..., replace=False)]: [k] distinct elements. *)
Definition draws_paths : Prop := ∀ n k rng, k ≤ n → ∃ r rng',
  np_choice (seq 0 n) k rng = (Ok r, rng') ∧ length r = k ∧ NoDup r ∧ Forall (λ p, p < n) r.

Definition set_active (f : PHFlow) (active : list nat) : PHFlow :=
  mkPHFlow (flow_id f) (source_node f) (sink_node f) (data_volume f) (paths f) active
    (ph_N f) (ph_K f) (seq_num f) (shares_received f) (messages_tx f) (messages_rx f).

Lemma hop_flows_spec (fs : dict Z PHFlow) rng :
  draws_paths → (∀ k f, (k, f) ∈ fs → ph_K f ≤ length (paths f)) →
  ∃ actives rng', hop_flows np_choice fs rng =
    (Ok (zip_with (λ kf active, (kf.1, set_active kf.2 active)) fs actives), rng') ∧
    Forall2 (λ kf active, choice_ok kf.2 active) fs actives.
Proof.
  intros Hd Hfs. unfold hop_flows.
  cut (∀ acc, ∃ actives rng', foldS (λ acc (kf : Z * PHFlow), f' ← hop np_choice kf.2;
      mret (acc ++ [(kf.1, f')])) acc fs rng =
    (Ok (acc ++ zip_with (λ kf active, (kf.1, set_active kf.2 active)) fs actives), rng') ∧
    Forall2 (λ kf active, choice_ok kf.2 active) fs actives); [intros Hc; apply (Hc [])|].
  revert rng; induction fs as [|[k f] fs IH]; intros rng acc; cbn [foldS].
  { exists [], rng. split; [by rewrite app_nil_r|constructor]. }
  destruct (Hd (length (paths f)) (ph_K f) rng) as (r & rng1 & Hr & Hlen & _ & Hall);
    [apply (Hfs k); left|].
  unfold hop, mbind, M_bind, mret, M_ret. cbn [snd fst]. rewrite Hr.
  destruct (IH ltac:(intros; eapply Hfs; by right) rng1 (acc ++ [(k, set_active f r)]))
    as (actives & rng' & Heq & Hok).
  exists (r :: actives), rng'. split.
  - rewrite <-(assoc_L (++)) in Heq. exact Heq.
  - constructor; [by split|done].
Qed.

Lemma get_zip_with_active (fs : dict Z PHFlow) actives k f' :
  length actives = length fs →
  Dict.get (zip_with (λ kf active, (kf.1, set_active kf.2 active)) fs actives) k = Some f' →
  ∃ f active, Dict.get fs k = Some f ∧ f' = set_active f active ∧
    ∃ i, fs !! i = Some (k, f) ∧ actives !! i = Some active.
Proof.
  revert actives; induction fs as [|[k' f] fs IH]; intros [|active actives] Hlen; try done.
  cbn [zip_with Dict.get fst snd]. case_decide as Hk.
  - intros [= <-]. subst. exists f, active. split_and!; [done..|]. by exists 0.
  - intros (f0 & a0 & H1 & H2 & i & H3 & H4)%IH; [|by injection Hlen].
    exists f0, a0. split_and!; [done..|]. by exists (S i).
Qed.

Lemma keys_zip_with_active (fs : dict Z PHFlow) actives :
  length actives = length fs →
  Dict.keys (zip_with (λ kf active, (kf.1, set_active kf.2 active)) fs actives) = Dict.keys fs.
Proof.
  revert actives; induction fs as [|[k f] fs IH]; intros [|a actives] Hlen; try done.
  simpl. f_equal. apply IH. by injection Hlen.
Qed.

(** The state between two ticks. *)
Definition state_inv (H : Z → list (list nat)) (n : nat) fs ns : Prop :=
  inv net H n n fs ns ∧ ∀ k f, Dict.get fs k = Some f → choice_ok f (active_paths f).

Lemma flow_inv_active H m n k f active :
  flow_inv net H m n k f → flow_inv net H m n k (set_active f active).
Proof.
  intros [F1 F2 F3 F4 F5 F6 F7]. split; try done.
  by eapply wf_paths_static, F2.
Qed.

Lemma step_network_inv H n fs ns rng :
  draws_paths → state_inv H n fs ns → ∃ fs' ns' rng',
    step_network np_choice fs ns rng = (Ok (fs', ns'), rng') ∧
    state_inv (extend_history H fs) (S n) fs' ns' ∧
    ∀ k, Dict.get fs k = None ∧ Dict.get fs' k = None ∨
      ∃ f f', Dict.get fs k = Some f ∧ Dict.get fs' k = Some f' ∧ same_static f f'.
Proof.
  intros Hd [Hinv Hact]. destruct (inject_spec net H n fs ns Hinv Hact) as (fs1 & ns1 & Hi & Hinv1 & Hget1).
  destruct (move_shares_spec net _ (S n) n fs1 ns1 Hinv1 ltac:(lia))
    as (fs2 & moved & Hm & Hwf2 & Hfl2 & Hst2 & Hnet2 & Hwfm & Hmem2).
  destruct (arrive_spec ns1 moved) as (ns2 & Ha & Hk2 & Hget2).
  { unfold Dict.wf. rewrite (inv_keys _ _ _ _ _ _ Hinv1). apply (inv_net _ _ _ _ _ _ Hinv1). }
  { done. }
  { rewrite (inv_keys _ _ _ _ _ _ Hinv1). done. }
  destruct (hop_flows_spec fs2 rng Hd) as (actives & rng' & Hh & Hok).
  { intros k f Hin. apply (wp_enough net), (fi_wf net (extend_history H fs) (S n) (S n) k).
    apply Hfl2. by apply Dict.elem_of_get. }
  pose proof (Forall2_length _ _ _ Hok) as Hlen.
  eexists _, ns2, rng'. split.
  { unfold step_network, mbind, M_bind, lift, mret, M_ret. rewrite Hi, Hm, Ha, Hh. done. }
  set (fs3 := zip_with _ fs2 actives).
  assert (∀ k f3, Dict.get fs3 k = Some f3 → ∃ f2 active, Dict.get fs2 k = Some f2 ∧
    f3 = set_active f2 active ∧ choice_ok f2 active) as Hget3.
  { intros k f3 (f & active & Hf & -> & i & H1 & H2)%get_zip_with_active; [|done].
    exists f, active. split_and!; [done..|].
    destruct (Forall2_lookup_l _ _ _ _ _ Hok H1) as (a' & ? & ?). by simplify_eq. }
  assert (Dict.keys fs3 = Dict.keys fs2) as Hk3 by (by apply keys_zip_with_active).
  assert (∀ k f2, Dict.get fs2 k = Some f2 → ∃ active, Dict.get fs3 k = Some (set_active f2 active)) as Hget23.
  { intros k f2 Hf2. assert (k ∈ Dict.keys fs3) as [f3 Hf3]%Dict.elem_of_keys
      by (rewrite Hk3; apply Dict.elem_of_keys; eauto).
    destruct (Hget3 k f3 Hf3) as (f2' & active & ? & -> & _). simplify_eq. eauto. }
  split; [split; [split|]|].
  - unfold Dict.wf. by rewrite Hk3.
  - intros k f3 (f2 & active & Hf2 & -> & _)%Hget3. apply flow_inv_active, Hfl2, Hf2.
  - rewrite Hk2. apply Hinv1.
  - apply Hinv1.
  - intros v r Hr. destruct (Hget2 v r Hr) as [Hnd Hmem]. split; [done|]. intros sh.
    rewrite Hmem. rewrite (proj2 (Hmem2 v) sh). split.
    + intros (f2 & Hf2 & Hat). destruct (Hget23 _ _ Hf2) as [active Hf3]. eauto.
    + intros (f3 & (f2 & active & Hf2 & -> & _)%Hget3 & Hat). eauto.
  - intros k f3 (f2 & active & Hf2 & -> & Hc)%Hget3. exact Hc.
  - intros k. pose proof (Hget1 k) as Hg1. destruct (Dict.get fs k) as [f|] eqn:Ef.
    + right. destruct (Hst2 k (create_shares f).1 Hg1) as (f2 & Hf2 & Hs2).
      destruct (Hget23 _ _ Hf2) as [active Hf3]. exists f, (set_active f2 active).
      split_and!; [done..|]. destruct Hs2 as (? & ? & ? & ? & ?). by split_and!.
    + left. split; [done|]. apply Dict.get_None. rewrite Hk3. intros [f2 Hf2]%Dict.elem_of_keys.
      destruct (Hfl2 k f2 Hf2) as (_ & f & Hf & _). simpl in *. congruence.
Qed.
End network.

(** [n] ticks of the network. *)
Fixpoint run_network {RNG} (np_choice : list nat → nat → M RNG (list nat)) (n : nat)
    (fs : dict Z PHFlow) (ns : dict node (list Share)) : M RNG (dict Z PHFlow * dict node (list Share)) :=
  match n with
  | 0 => mret (fs, ns)
  | S n => '(fs', ns') ← run_network np_choice n fs ns; step_network np_choice fs' ns'
  end.

(** A simulation before its first tick: every flow is fresh and has chosen
    its paths, no share is anywhere. *)
Record fresh (net : list node) (fs : dict Z PHFlow) (ns : dict node (list Share)) : Prop := {
  fr_flows : Dict.wf fs;
  fr_flow : ∀ k f, Dict.get fs k = Some f → flow_id f = k ∧ wf_paths net f ∧
    choice_ok f (active_paths f) ∧ seq_num f = 0 ∧ messages_tx f = 0 ∧ messages_rx f = 0 ∧
    shares_received f = [];
  fr_nodes : NoDup net;
  fr_empty : ns = (λ n, (n, [])) <$> net
}.

Lemma fresh_inv net fs ns : fresh net fs ns → state_inv net (λ _, []) 0 fs ns.
Proof.
  intros [Fwf Ff Fn ->]. split; [split|].
  - done.
  - intros k f Hf. destruct (Ff k f Hf) as (H1 & H2 & H3 & H4 & H5 & H6 & H7). split; try done.
    split_and!; [|rewrite H7; constructor|by rewrite H4, H6].
    intros s. rewrite H7, decide_False; [done|]. rewrite H4. lia.
  - unfold Dict.keys. rewrite <-list_fmap_compose. by rewrite list_fmap_id.
  - done.
  - intros v r (n & [= -> ->] & _)%Dict.get_elem_of%list_elem_of_fmap.
    split; [constructor|]. intros sh. split; [set_solver|]. by intros (f & _ & aps & p & ? & _).
  - intros k f Hf. by destruct (Ff k f Hf) as (_ & _ & ? & _).
Qed.

Lemma run_network_inv {RNG} (np_choice : list nat → nat → M RNG (list nat)) net n fs ns rng :
  draws_paths np_choice → fresh net fs ns → ∃ H fs' ns' rng',
    run_network np_choice n fs ns rng = (Ok (fs', ns'), rng') ∧ state_inv net H n fs' ns' ∧
    ∀ k f, Dict.get fs k = Some f → ∃ f', Dict.get fs' k = Some f' ∧ same_static f f'.
Proof.
  intros Hd Hf. induction n as [|n IH]; cbn [run_network].
  { exists (λ _, []), fs, ns, rng. split_and!; [done|by apply fresh_inv|].
    intros k f ?. exists f. split; [done|apply same_static_refl]. }
  destruct IH as (H & fs1 & ns1 & rng1 & Hrun & Hinv & Hst).
  destruct (step_network_inv np_choice net H n fs1 ns1 rng1 Hd Hinv) as (fs2 & ns2 & rng2 & Hs & Hinv2 & Hst2).
  exists (extend_history H fs1), fs2, ns2, rng2. split_and!; [|done|].
  - unfold mbind, M_bind. by rewrite Hrun.
  - intros k f Hk. destruct (Hst k f Hk) as (f1 & Hf1 & Hs1).
    destruct (Hst2 k) as [[? _]|(g & f2 & Hg & Hf2 & Hs2)]; [congruence|]. simplify_eq.
    exists f2. split; [done|]. by eapply same_static_trans.
Qed.

(** The shares of message [s] have all reached the sink after [n] ticks. *)
Definition message_complete (f : PHFlow) (history : list (list nat)) (n s : nat) : Prop :=
  Forall (λ p, path_len f p ≤ n - s) (default [] (history !! s)).

Lemma delivered_all f aps d :
  choice_ok f aps → delivered f aps d = ph_K f ↔ Forall (λ p, path_len f p ≤ d) aps.
Proof.
  intros [Hlen _]. unfold delivered. rewrite <-Hlen. clear Hlen.
  induction aps as [|p aps IH]; [done|]. rewrite filter_cons, Forall_cons.
  pose proof (length_filter (λ p, path_len f p ≤ d) aps) as Hle.
  case_decide as Hd; simpl; [rewrite <-IH|]; split; [lia|lia|lia|tauto].
Qed.

(** C3: Functional correctness of the simulation. Started with fresh flows
    whose paths run from source to sink through the network, and with draws
    of [K] distinct paths, [n] ticks never raise. Each flow has then sent
    [n] messages and has received exactly those whose longest path has been
    traversed ([length <= n - s] for the message sent at tick [s]); and a
    share is at a node exactly if its path is there [n - s] hops after the
    source. *)
Theorem simulation_delivers {RNG} (np_choice : list nat → nat → M RNG (list nat)) net fs ns n rng :
  draws_paths np_choice → fresh net fs ns →
  ∃ H fs' ns' rng', run_network np_choice n fs ns rng = (Ok (fs', ns'), rng') ∧
    (∀ k f, Dict.get fs k = Some f → ∃ f', Dict.get fs' k = Some f' ∧
       length (H k) = n ∧ Forall (choice_ok f) (H k) ∧ messages_tx f' = n ∧
       messages_rx f' = length (filter (message_complete f (H k) n) (seq 0 n))) ∧
    (∀ v r, Dict.get ns' v = Some r → NoDup r ∧
       ∀ sh, sh ∈ r ↔ ∃ f', Dict.get fs' (sh_flow sh) = Some f' ∧ share_at H f' n sh v).
Proof.
  intros Hd Hf. destruct (run_network_inv np_choice net n fs ns rng Hd Hf)
    as (H & fs' & ns' & rng' & Hrun & [Hinv _] & Hst).
  exists H, fs', ns', rng'. split; [done|]. split; [|apply Hinv].
  intros k f Hk. destruct (Hst k f Hk) as (f' & Hf' & Hs). exists f'. split; [done|].
  destruct (inv_flows _ _ _ _ _ _ Hinv k f' Hf') as [F1 F2 F3 F4 F5 F6 (_ & _ & F7)].
  assert (same_static f' f) as Hs' by (destruct Hs as (? & ? & ? & ? & ?); by split_and!).
  split_and!; [done| |done|].
  - apply Forall_forall. intros aps [s Hs2]%list_elem_of_lookup. by eapply choice_ok_static, F6.
  - rewrite F7, F4. f_equal. apply list_filter_iff'. intros s [_ Hlt]%elem_of_seq. simpl in Hlt.
    unfold arrived, message_complete. rewrite F1.
    destruct (lookup_lt_is_Some_2 (H k) s) as [aps Haps]; [lia|]. rewrite Haps. simpl.
    rewrite (delivered_all f' aps (n - s)) by (by eapply F6).
    unfold path_len. by destruct Hs as (_ & _ & _ & -> & _).
Qed.

(** ** A concrete run: two disjoint paths, one share each *)

Definition demo_flow : PHFlow :=
  mkPHFlow 0 1 4 10 [[1; 2; 4]; [1; 3; 5; 4]]%Z [0; 1] 2 2 0 [] 0 0.
Definition demo_choice (l : list nat) (k : nat) : M unit (list nat) := mret (take k l).

Lemma demo_draws : draws_paths demo_choice.
Proof.
  intros n k rng Hk. exists (take k (seq 0 n)), rng. split_and!.
  - done.
  - rewrite length_take, length_seq. lia.
  - eapply NoDup_app with (l := take k (seq 0 n)) (k := drop k (seq 0 n)).
    rewrite take_drop. apply NoDup_seq_nat.
  - apply Forall_take, Forall_forall. intros x ?%elem_of_seq. lia.
Qed.

Lemma demo_fresh : fresh [1; 2; 3; 4; 5]%Z [(0%Z, demo_flow)] ((λ n, (n, [])) <$> [1; 2; 3; 4; 5]%Z).
Proof.
  split; [apply NoDup_singleton| |apply (bool_decide_unpack _); by vm_compute|done].
  intros k f. simpl. case_decide; [|done]. intros [= <-]. subst.
  split_and!; try done.
  - split; simpl; [..|lia|lia].
    + intros p [->|[->|[]%not_elem_of_nil]%elem_of_cons]%elem_of_cons; done.
    + intros p [->|[->|[]%not_elem_of_nil]%elem_of_cons]%elem_of_cons; apply (bool_decide_unpack _); by vm_compute.
    + intros p v [->|[->|[]%not_elem_of_nil]%elem_of_cons]%elem_of_cons Hv; revert v Hv; apply Forall_forall;
        apply (bool_decide_unpack _); by vm_compute.
  - split; [done|]. simpl. repeat constructor.
Qed.

(** After five ticks two messages have arrived: those sent at ticks 0 and 1,
    because the longer path has four nodes. *)
Lemma simulation_delivers_witness :
  ∃ (H : Z → list (list nat)) fs' ns' rng', run_network demo_choice 5 [(0%Z, demo_flow)]
      ((λ n, (n, [])) <$> [1; 2; 3; 4; 5]%Z) tt = (Ok (fs', ns'), rng') ∧
    messages_rx <$> Dict.get fs' 0%Z = Some 2 ∧ messages_tx <$> Dict.get fs' 0%Z = Some 5 ∧
    length (H 0%Z) = 5.
Proof.
  destruct (simulation_delivers demo_choice [1; 2; 3; 4; 5]%Z [(0%Z, demo_flow)]
    ((λ n, (n, [])) <$> [1; 2; 3; 4; 5]%Z) 5 tt demo_draws demo_fresh)
    as (H & fs' & ns' & rng' & Hrun & Hfl & _).
  destruct (Hfl 0%Z demo_flow eq_refl) as (f' & Hf' & Hlen & _).
  exists H, fs', ns', rng'. split_and!; [exact Hrun|..|exact Hlen]; vm_compute in Hrun; by simplify_eq.
Defined.
