(* ===== verification/Attackers.v ===== *)
(** The attackers of [rest_client/path_hopping_simulator/attackers.py] and
    the complete [step] of the simulation, which lets every attacker capture
    shares and choose nodes after the shares have moved.

    The classes differ in the choice of the monitored nodes, so they are one
    record with a [kind]; attributes that a class does not have are unused.
    [numpy.random.choice] is a parameter, with and without a size. *)

From Stdlib Require Import Ascii.
From S2P Require Import Prelude PyDict Simulator.

Inductive attacker_kind : Type :=
  | RandomNodeHopping
  | RandomPathHopping
  | IdealRandomPathHopping
  | OneNodePerPath
  | Fixed
  | Planned
  | Total.

Record Attacker : Type := mkAttacker {
  a_kind : attacker_kind;
  a_N : nat;
  a_K : nat;
  hop_period : Z;
  monitored_nodes : list node;
  captured_shares : list Share;
  hop_count : nat;
  node_collection : option (list node);
  path_collection : option (list path);
  own_flows : dict Z PHFlow;
  hop_index : nat;
  planned_active : list nat;
  planned_monitored : list nat
}.

Definition init_attacker (kind : attacker_kind) (N K : nat) (period : Z) (flows : dict Z PHFlow)
    : Attacker :=
  mkAttacker kind N K period [] [] 0 None None flows 1 [] [].

Definition set_monitored (a : Attacker) (ns : list node) (hops : nat) : Attacker :=
  mkAttacker (a_kind a) (a_N a) (a_K a) (hop_period a) ns (captured_shares a) hops
    (node_collection a) (path_collection a) (own_flows a) (hop_index a)
    (planned_active a) (planned_monitored a).
Definition set_node_collection (a : Attacker) (l : list node) : Attacker :=
  mkAttacker (a_kind a) (a_N a) (a_K a) (hop_period a) (monitored_nodes a) (captured_shares a)
    (hop_count a) (Some l) (path_collection a) (own_flows a) (hop_index a)
    (planned_active a) (planned_monitored a).
Definition set_path_collection (a : Attacker) (l : list path) : Attacker :=
  mkAttacker (a_kind a) (a_N a) (a_K a) (hop_period a) (monitored_nodes a) (captured_shares a)
    (hop_count a) (node_collection a) (Some l) (own_flows a) (hop_index a)
    (planned_active a) (planned_monitored a).
Definition add_captured (a : Attacker) (l : list Share) : Attacker :=
  mkAttacker (a_kind a) (a_N a) (a_K a) (hop_period a) (monitored_nodes a)
    (captured_shares a ++ l) (hop_count a) (node_collection a) (path_collection a) (own_flows a)
    (hop_index a) (planned_active a) (planned_monitored a).
Definition set_plan (a : Attacker) (i : nat) (active monitored : list nat) : Attacker :=
  mkAttacker (a_kind a) (a_N a) (a_K a) (hop_period a) (monitored_nodes a) (captured_shares a)
    (hop_count a) (node_collection a) (path_collection a) (own_flows a) i active monitored.

(** [reconstruct_captured_messages]: the sequence numbers with [K]
    different share numbers among the captured shares. *)
Definition reconstruct_captured_messages (a : Attacker) : list Z :=
  let shares := sorted_by (λ s, Z.of_nat (sh_seq s)) (captured_shares a) in
  omap (λ g : Z * list Share,
    if bool_decide (length (set_of (sh_num <$> g.2)) = a_K a) then Some g.1 else None)
    (groupby (λ s, Z.of_nat (sh_seq s)) shares).

(** [capture_shares] of [Attacker], and the override of [PlannedAttacker],
    which also notes the path of the node: [next(...)] raises
    [StopIteration] when the node is on none of the paths. *)
Definition path_of_node (ps : list path) (n : node) : res nat :=
  or_raise StopIteration (fst <$> list_find (λ p, n ∈ p) ps).

Definition capture_shares (a : Attacker) (n : node) (resident : list Share) : res Attacker :=
  let shares := vulnerable_shares n resident in
  match a_kind a with
  | Planned =>
      target ← Dict.getitem (own_flows a) 0%Z;
      i ← path_of_node (paths target) n;
      let monitored := set_add i (planned_monitored a) in
      let active := if bool_decide (0 < length shares) then set_add i (planned_active a)
                    else planned_active a in
      Ok (add_captured (set_plan a (hop_index a) active monitored) shares)
  | _ => Ok (add_captured a shares)
  end.

(** [monitor] *)
Definition monitor (ns : dict node (list Share)) (a : Attacker) : res Attacker :=
  foldM (λ a n, r ← Dict.getitem ns n; capture_shares a n r) a (monitored_nodes a).

Section select.
Context {RNG : Type}.
Variable choice_nodes : list node → nat → M RNG (list node).
Variable choice_indices : list nat → nat → M RNG (list nat).
Variable choice_one : list node → M RNG node.

(** [simulation_time % self._hop_period == 0] *)
Definition at_period (time period : Z) : res bool :=
  if bool_decide (period = 0)%Z then Raise ZeroDivisionError
  else Ok (bool_decide (time `mod` period = 0)%Z).

(** [p_i[i]] over the paths. *)
Definition nodes_at_hop (ps : list path) (i : nat) : res (list node) :=
  set_of <$> mapR (λ p : path, or_raise IndexError (p !! i)) ps.

(** [{np.random.choice(p_i) for p_i in ...}]: one node of each path. *)
Definition one_node_each (ps : list path) : M RNG (list node) :=
  picked ← foldS (λ acc p, n ← choice_one p; mret (acc ++ [n])) [] ps;
  mret (set_of picked).

(** [select_monitored_nodes] of each class; [flow0] is [flows[0]]. *)
Definition select_random_node (nodes : list node) (flow0 : res PHFlow) (time : Z) (a : Attacker)
    : M RNG Attacker :=
  a1 ← lift (match node_collection a with
             | Some _ => Ok a
             | None => target ← flow0;
                 Ok (set_node_collection a (sorted_by id
                   (filter (λ n, n ≠ source_node target ∧ n ≠ sink_node target) nodes)))
             end);
  now ← lift (at_period time (hop_period a1));
  if (now : bool) then
    picked ← choice_nodes (default [] (node_collection a1)) (a_K a1);
    mret (set_monitored a1 (set_of picked) (S (hop_count a1)))
  else mret a1.

Definition select_random_path (flow0 : res PHFlow) (time : Z) (a : Attacker) : M RNG Attacker :=
  target ← lift flow0;
  let collection := match node_collection a with
                    | Some l => l
                    | None => omap (λ p : path, if bool_decide (length p ≤ 2) then None else p !! 1)
                                (paths target)
                    end in
  let a1 := set_node_collection a (sorted_by id collection) in
  now ← lift (at_period time (hop_period a1));
  if (now : bool) then
    picked ← choice_nodes (sorted_by id collection) (a_K a1);
    mret (set_monitored a1 (set_of picked) (S (hop_count a1)))
  else mret a1.

Definition select_ideal (flow0 : res PHFlow) (time : Z) (a : Attacker) : M RNG Attacker :=
  target ← lift flow0;
  let collection := default (interior <$> paths target) (path_collection a) in
  let a1 := set_path_collection a collection in
  now ← lift (at_period time (hop_period a1));
  if (now : bool) then
    picked ← choice_indices (seq 0 (length collection)) (a_K a1);
    ps ← lift (mapR (λ i, or_raise IndexError (collection !! i)) picked);
    mret (set_monitored a1 (set_of (concat ps)) (S (hop_count a1)))
  else mret a1.

(** The test of this class is [simulation_time & self._hop_period == 0]:
    a bitwise and, not a remainder. *)
Definition select_one_node_per_path (flow0 : res PHFlow) (time : Z) (a : Attacker)
    : M RNG Attacker :=
  target ← lift flow0;
  let collection := default (interior <$> paths target) (path_collection a) in
  let a1 := set_path_collection a collection in
  if bool_decide (Z.land time (hop_period a1) = 0)%Z then
    picked ← choice_indices (seq 0 (length collection)) (a_K a1);
    ps ← lift (mapR (λ i, or_raise IndexError (collection !! i)) picked);
    ns ← one_node_each ps;
    mret (set_monitored a1 ns (S (hop_count a1)))
  else mret a1.

Definition select_fixed (flow0 : res PHFlow) (a : Attacker) : M RNG Attacker :=
  target ← lift flow0;
  match path_collection a with
  | Some _ => mret a
  | None =>
      let collection := interior <$> paths target in
      picked ← choice_indices (seq 0 (length collection)) (a_K a);
      ps ← lift (mapR (λ i, or_raise IndexError (collection !! i)) picked);
      ns ← one_node_each ps;
      mret (set_monitored (set_path_collection a collection) ns 1)
  end.

Definition select_planned (time : Z) (a : Attacker) : M RNG Attacker :=
  target ← lift (Dict.getitem (own_flows a) 0%Z);
  now ← lift (at_period time (hop_period a));
  a1 ← (if (now : bool) then
    longest ← lift (match paths target with
                    | [] => Raise ValueError
                    | ps => Ok (foldr max 0 (length <$> ps))
                    end);
    let a0 := if bool_decide (longest ≤ hop_index a ∨ length (planned_monitored a) = a_N a)
              then set_plan a 1 [] [] else a in
    at_hop ← lift (nodes_at_hop (paths target) (hop_index a0));
    monitored ← lift (mapR (λ i, or_raise IndexError (paths target !! i)) (planned_monitored a0));
    monitored_at_hop ← lift (nodes_at_hop monitored (hop_index a0));
    let possible := filter (λ n, n ∉ monitored_at_hop) at_hop in
    if bool_decide (length possible ≤ a_K a0)
    then mret (set_monitored a0 possible (hop_count a0))
    else picked ← choice_nodes possible (a_K a0); mret (set_monitored a0 picked (hop_count a0))
  else mret a);
  mret (set_plan a1 (S (hop_index a1)) (planned_active a1) (planned_monitored a1)).

Definition select_total (flow0 : res PHFlow) (a : Attacker) : M RNG Attacker :=
  if bool_decide (length (monitored_nodes a) = 0) then
    target ← lift flow0;
    ns ← lift (nodes_at_hop (paths target) 1);
    mret (set_monitored a ns (hop_count a))
  else mret a.

Definition select_monitored_nodes (nodes : list node) (flow0 : res PHFlow) (time : Z)
    (a : Attacker) : M RNG Attacker :=
  match a_kind a with
  | RandomNodeHopping => select_random_node nodes flow0 time a
  | RandomPathHopping => select_random_path flow0 time a
  | IdealRandomPathHopping => select_ideal flow0 time a
  | OneNodePerPath => select_one_node_per_path flow0 time a
  | Fixed => select_fixed flow0 a
  | Planned => select_planned time a
  | Total => select_total flow0 a
  end.

(** [create] of the classes: the first selection is made for time 1, by the
    planned attacker for time 0. *)
Definition create_attacker (kind : attacker_kind) (N K : nat) (nodes : list node)
    (flows : dict Z PHFlow) (period : Z) : M RNG Attacker :=
  select_monitored_nodes nodes (Dict.getitem flows 0%Z)
    (match kind with Planned => 0 | _ => 1 end) (init_attacker kind N K period flows).

(** * The simulation *)

Record Simulation : Type := mkSim {
  ticks : Z;
  sim_nodes : dict node (list Share);
  sim_flows : dict Z PHFlow;
  attackers : list Attacker
}.

(** [PathHoppingSimulation.create] *)
Definition create_simulation (graph_nodes : list node) (flows : list PHFlow) : Simulation :=
  mkSim 1 (Dict.of_pairs ((λ n, (n, [])) <$> graph_nodes))
    (Dict.of_pairs ((λ f, (flow_id f, f)) <$> flows)) [].

Definition add_attacker (sim : Simulation) (a : Attacker) : Simulation :=
  mkSim (ticks sim) (sim_nodes sim) (sim_flows sim) (attackers sim ++ [a]).

(** [step] *)
Definition step (sim : Simulation) : M RNG Simulation :=
  '(fs, ns) ← step_network choice_indices (sim_flows sim) (sim_nodes sim);
  attackers' ← foldS (λ acc a,
    a1 ← lift (monitor ns a);
    a2 ← select_monitored_nodes (Dict.keys ns) (Dict.getitem fs 0%Z) (ticks sim) a1;
    mret (acc ++ [a2])) [] (attackers sim);
  mret (mkSim (ticks sim + 1) ns fs attackers').
End select.
