(* ===== verification/AttackersProps.v ===== *)
(** What the attackers recover. [reconstruct_captured_messages] returns
    exactly the sequence numbers of which [K] share numbers were captured;
    and an attacker that does not move recovers exactly the messages all of
    whose paths pass a monitored node between source and sink. *)

From S2P Require Import Prelude PyDict Simulator SimulatorProps Attackers.

(** * Reconstruction *)

Section groups.
Context {A : Type} (k : A → Z).

(** The group of a key in a sorted list is the sublist with that key. *)
Lemma groupby_filter l j g :
  StronglySorted (λ a b, k a ≤ k b)%Z l → (j, g) ∈ groupby k l → g = filter (λ x, k x = j) l.
Proof.
  intros Hs Hin. pose proof (groupby_sorted k l Hs) as Hkeys.
  rewrite <-(groupby_concat k l) at 1.
  assert (∀ j' g', (j', g') ∈ groupby k l → Forall (λ x, k x = j') g') as Hall
    by (intros j' g' ?; by eapply groupby_key).
  revert Hin Hkeys Hall. induction (groupby k l) as [|[j' g'] gs IH]; [set_solver|].
  intros Hin Hkeys Hall. simpl in Hkeys. cbn [fmap list_fmap concat snd].
  apply StronglySorted_inv in Hkeys as [Hkeys Hlt]. rewrite filter_app.
  assert (Forall (λ x, k x = j') g') as Hg' by (apply (Hall j'); left).
  apply elem_of_cons in Hin as [[= <- <-]|Hin].
  - rewrite (filter_all _ g) by done. rewrite filter_none; [by rewrite app_nil_r|].
    apply Forall_forall. intros x (g2 & Hg2 & Hx)%list_elem_of_In%in_concat Hk.
    apply list_elem_of_In, list_elem_of_fmap in Hg2 as ([j2 g3] & -> & Hin2).
    apply list_elem_of_In in Hx. rewrite Forall_forall in Hlt.
    specialize (Hlt j2 (list_elem_of_fmap_2 fst _ _ Hin2)).
    assert (Forall (λ x, k x = j2) g3) as Hg3 by (apply (Hall j2); by right).
    rewrite Forall_forall in Hg3. specialize (Hg3 x Hx). simpl in *. lia.
  - rewrite (filter_none _ g').
    + apply IH; [done..|]. intros; apply Hall; by right.
    + rewrite Forall_forall in Hlt. specialize (Hlt j (list_elem_of_fmap_2 fst _ _ Hin)). simpl in Hlt.
      eapply Forall_impl; [exact Hg'|]. simpl. lia.
Qed.

Lemma elem_of_groupby l j : (∃ g, (j, g) ∈ groupby k l) ↔ ∃ x, x ∈ l ∧ k x = j.
Proof.
  split.
  - intros [g Hin]. pose proof (groupby_key _ _ _ _ Hin) as [Hne Hall].
    destruct g as [|x g]; [done|]. apply Forall_cons in Hall as [Hx _]. exists x. split; [|done].
    rewrite <-(groupby_concat k l). apply list_elem_of_In, in_concat. exists (x :: g).
    split; [|by left]. apply list_elem_of_In, list_elem_of_fmap. by exists (j, x :: g).
  - intros (x & Hx & <-). rewrite <-(groupby_concat k l) in Hx.
    apply list_elem_of_In, in_concat in Hx as (g & Hg & Hx).
    apply list_elem_of_In, list_elem_of_fmap in Hg as ([j g'] & -> & Hg). apply list_elem_of_In in Hx.
    exists g'. pose proof (groupby_key _ _ _ _ Hg) as [_ Hall]. rewrite Forall_forall in Hall.
    by rewrite (Hall x Hx).
Qed.
End groups.

Lemma length_set_of {A} `{EqDecision A} (l l' : list A) :
  (∀ x, x ∈ l ↔ x ∈ l') → length (set_of l) = length (set_of l').
Proof.
  intros Heq. apply Permutation_length, NoDup_Permutation; auto using NoDup_set_of.
  intros x. by rewrite !elem_of_set_of.
Qed.

(** The different share numbers captured of a message. *)
Definition captured_numbers (a : Attacker) (s : nat) : list nat :=
  set_of (sh_num <$> filter (λ sh, sh_seq sh = s) (captured_shares a)).

Lemma elem_of_reconstruct a z :
  z ∈ reconstruct_captured_messages a ↔ ∃ s, z = Z.of_nat s ∧
    (∃ sh, sh ∈ captured_shares a ∧ sh_seq sh = s) ∧ length (captured_numbers a s) = a_K a.
Proof.
  unfold reconstruct_captured_messages. set (key := λ s, Z.of_nat (sh_seq s)).
  rewrite list_elem_of_omap.
  pose proof (sorted_by_sorted key (captured_shares a)) as Hs.
  pose proof (sorted_by_perm key (captured_shares a)) as Hp.
  assert (∀ s g, (Z.of_nat s, g) ∈ groupby key (sorted_by key (captured_shares a)) →
    length (set_of (sh_num <$> g)) = length (captured_numbers a s)) as Hlen.
  { intros s g ->%(groupby_filter _ _ _ _ Hs). apply length_set_of. intros x.
    rewrite !list_elem_of_fmap. setoid_rewrite list_elem_of_filter. setoid_rewrite Hp.
    unfold key. naive_solver lia. }
  split.
  - intros ([j g] & Hg & Hif). simpl in Hif. case_bool_decide as HK; [|done]. injection Hif as <-.
    destruct (proj1 (elem_of_groupby key _ j) (ex_intro _ g Hg)) as (sh & Hsh & <-).
    exists (sh_seq sh). split; [done|]. split; [exists sh; by rewrite Hp in Hsh|].
    by rewrite <-(Hlen _ _ Hg).
  - intros (s & -> & (sh & Hsh & Hseq) & HK).
    destruct (proj2 (elem_of_groupby key (sorted_by key (captured_shares a)) (Z.of_nat s))) as [g Hg].
    { exists sh. rewrite Hp. split; [done|]. unfold key. by rewrite Hseq. }
    exists (Z.of_nat s, g). split; [done|]. simpl. by rewrite bool_decide_true by (by rewrite (Hlen _ _ Hg)).
Qed.

(** An attacker recovers a message exactly if it has captured a share
    with that sequence number and, among those, [K] different share
    numbers: sorting and grouping the captured shares loses and adds
    nothing. *)
Theorem reconstruct_exact a s :
  Z.of_nat s ∈ reconstruct_captured_messages a ↔
    (∃ sh, sh ∈ captured_shares a ∧ sh_seq sh = s) ∧ length (captured_numbers a s) = a_K a.
Proof.
  rewrite elem_of_reconstruct. split.
  - by intros (s' & <-%Nat2Z.inj & ?).
  - intros ?. by exists s.
Qed.

(** The flow of a share is not looked at: one share of each of two flows
    counts as a recovered message of two shares. *)
Lemma reconstruct_mixes_flows :
  let a := add_captured (init_attacker Total 2 2 1 [])
             [mkShare 0 7 0 0 1 2; mkShare 1 7 1 0 3 4] in
  reconstruct_captured_messages a = [7%Z] ∧
  ∀ fid, length (set_of (sh_num <$> filter (λ sh, sh_flow sh = fid) (captured_shares a))) < a_K a.
Proof.
  split; [by vm_compute|]. intros fid. simpl. rewrite !filter_cons, filter_nil. simpl.
  repeat case_decide; simpl; unfold set_of; simpl; lia.
Qed.

(** * An attacker that does not move *)

Section fixed.
Context {RNG : Type}.
Variable choice_nodes : list node → nat → M RNG (list node).
Variable choice_indices : list nat → nat → M RNG (list nat).
Variable choice_one : list node → M RNG node.

(** [n] ticks of the whole simulation. *)
Fixpoint run_steps (n : nat) (sim : Simulation) : M RNG Simulation :=
  match n with
  | 0 => mret sim
  | S n => sim' ← run_steps n sim; step choice_nodes choice_indices choice_one sim'
  end.

(** Shares at a monitored node, unless it is one of the end points. *)
Definition exposed (ms : list node) (ns : dict node (list Share)) (sh : Share) : Prop :=
  ∃ v r, v ∈ ms ∧ Dict.get ns v = Some r ∧ sh ∈ r ∧ sh_source sh ≠ v ∧ sh_sink sh ≠ v.

Lemma monitor_spec ns a :
  a_kind a ≠ Planned → (∀ v, v ∈ monitored_nodes a → v ∈ Dict.keys ns) →
  ∃ caps, monitor ns a = Ok (add_captured a caps) ∧
    ∀ sh, sh ∈ caps ↔ exposed (monitored_nodes a) ns sh.
Proof.
  intros Hk. unfold monitor.
  cut (∀ ms b, a_kind b = a_kind a → (∀ v, v ∈ ms → v ∈ Dict.keys ns) → ∃ caps,
    foldM (λ a n, r ← Dict.getitem ns n; capture_shares a n r) b ms = Ok (add_captured b caps) ∧
    ∀ sh, sh ∈ caps ↔ exposed ms ns sh); [intros Hc ?; by apply Hc|].
  induction ms as [|v ms IH]; intros b Hb Hms; cbn [foldM].
  { exists []. split.
    - unfold add_captured. rewrite app_nil_r. by destruct b.
    - intros sh. split; [set_solver|]. intros (v & r & Hv & _). set_solver. }
  assert (v ∈ Dict.keys ns) as [r Hr]%Dict.elem_of_keys by (apply Hms; left).
  rewrite (proj2 (Dict.getitem_Ok _ _ _) Hr). simpl.
  assert (capture_shares b v r = Ok (add_captured b (vulnerable_shares v r))) as ->.
  { unfold capture_shares. rewrite Hb. by destruct (a_kind a). }
  simpl. destruct (IH (add_captured b (vulnerable_shares v r))) as (caps & -> & Hcaps);
    [done|intros; apply Hms; by right|].
  exists (vulnerable_shares v r ++ caps). split.
  - unfold add_captured. simpl. by rewrite (assoc_L (++)).
  - intros sh. rewrite elem_of_app, Hcaps. unfold vulnerable_shares. rewrite list_elem_of_filter. split.
    + intros [([? ?] & ?)|(v' & r' & ? & ? & ? & ? & ?)].
      * exists v, r. by split_and!; [left|..].
      * exists v', r'. by split_and!; [right|..].
    + intros (v' & r' & [->|?]%elem_of_cons & ? & ? & ? & ?); [left; by simplify_eq|].
      right. exists v', r'. by split_and!.
Qed.

(** The share was at a monitored node between its end points within the
    first [n] ticks. *)
Definition seen (H : Z → list (list nat)) (f : PHFlow) (ms : list node) (n : nat) (sh : Share) : Prop :=
  ∃ t v, sh_seq sh < t ≤ n ∧ share_at H f t sh v ∧ v ∈ ms ∧ v ≠ source_node f ∧ v ≠ sink_node f.

Lemma share_at_seq net H n fs ns k f sh v :
  inv net H n n fs ns → Dict.get fs k = Some f → sh_flow sh = k → share_at H f n sh v → sh_seq sh < n.
Proof.
  intros Hinv Hf Hk (aps & p & Haps%lookup_lt_Some & _).
  rewrite Hk, (fi_hist _ _ _ _ _ _ (inv_flows _ _ _ _ _ _ Hinv _ _ Hf)) in Haps. done.
Qed.

Lemma share_at_history H fs f t sh v :
  sh_seq sh < length (H (sh_flow sh)) →
  share_at (extend_history H fs) f t sh v ↔ share_at H f t sh v.
Proof.
  intros Hlt. assert (extend_history H fs (sh_flow sh) !! sh_seq sh = H (sh_flow sh) !! sh_seq sh) as Heq.
  { unfold extend_history. case_match; [|done]. by rewrite lookup_app_l. }
  unfold share_at. by rewrite Heq.
Qed.

(** The invariant of a run with one flow and one attacker that stays. *)
Record watched (net : list node) (f0 : PHFlow) (a0 : Attacker) (n : nat)
    (H : Z → list (list nat)) (sim : Simulation) : Prop := {
  wa_state : state_inv net H n (sim_flows sim) (sim_nodes sim);
  wa_flow : ∃ f, Dict.get (sim_flows sim) 0%Z = Some f ∧ same_static f0 f;
  wa_only : ∀ k f, Dict.get (sim_flows sim) k = Some f → k = 0%Z;
  wa_attacker : ∃ caps, attackers sim = [add_captured a0 caps] ∧
    ∀ sh, sh ∈ caps ↔ sh_flow sh = 0%Z ∧ seen H f0 (monitored_nodes a0) n sh
}.

Lemma seen_step net H n fs ns fs' ns' f0 f ms sh :
  state_inv net H n fs ns → Dict.get fs 0%Z = Some f →
  state_inv net (extend_history H fs) (S n) fs' ns' →
  (∃ f', Dict.get fs' 0%Z = Some f' ∧ same_static f0 f') →
  (∀ k f', Dict.get fs' k = Some f' → k = 0%Z) → (∀ v, v ∈ ms → v ∈ net) →
  (sh_flow sh = 0%Z ∧ seen H f0 ms n sh) ∨ exposed ms ns' sh ↔
  sh_flow sh = 0%Z ∧ seen (extend_history H fs) f0 ms (S n) sh.
Proof.
  intros [Hinv _] Hf [Hinv' _] (f' & Hf' & Hst) Honly Hms.
  pose proof (fi_hist _ _ _ _ _ _ (inv_flows _ _ _ _ _ _ Hinv _ _ Hf)) as Hlen.
  assert (same_static f' f0) as Hst' by (destruct Hst as (? & ? & ? & ? & ?); by split_and!).
  split.
  - intros [[H0 (t & v & Ht & Hat & Hv)]|(v & r & Hv & Hr & Hin & Hs1 & Hs2)].
    + split; [done|]. exists t, v. split; [lia|]. split; [|done].
      apply share_at_history; [|done]. rewrite H0, Hlen. lia.
    + destruct (inv_shares _ _ _ _ _ _ Hinv' v r Hr) as [_ Hmem].
      apply Hmem in Hin as (g & Hg & Hat). pose proof (Honly _ _ Hg) as H0.
      rewrite H0 in Hg. assert (g = f') as -> by congruence. split; [done|]. exists (S n), v.
      pose proof (share_at_seq _ _ _ _ _ _ _ _ _ Hinv' Hf' H0 Hat) as Hlt.
      destruct Hat as (aps & p & H1 & H2 & H3 & H4 & H5 & H6).
      destruct Hst' as (_ & E2 & E3 & E4 & _). split; [lia|]. split_and!; [|done|congruence|congruence].
      exists aps, p. rewrite E2, E3, E4. by split_and!.
  - intros [H0 (t & v & Ht & Hat & Hv & Hn1 & Hn2)]. destruct (decide (t = S n)) as [->|Hne].
    + right. assert (v ∈ Dict.keys ns') as [r Hr]%Dict.elem_of_keys
        by (rewrite (inv_keys _ _ _ _ _ _ Hinv'); by apply Hms).
      exists v, r. split_and!; [done..| | |].
      * apply (inv_shares _ _ _ _ _ _ Hinv' v r Hr). exists f'. rewrite H0. split; [done|].
        by eapply share_at_static.
      * destruct Hat as (? & ? & _ & _ & _ & _ & -> & _). done.
      * destruct Hat as (? & ? & _ & _ & _ & _ & _ & ->). done.
    + left. split; [done|]. exists t, v. split; [lia|]. split; [|done].
      eapply share_at_history; [|exact Hat]. rewrite H0, Hlen. lia.
Qed.

Lemma step_watched net f0 a0 n H sim rng :
  draws_paths choice_indices → a_kind a0 = Fixed → is_Some (path_collection a0) →
  (∀ v, v ∈ monitored_nodes a0 → v ∈ net) → watched net f0 a0 n H sim →
  ∃ sim' rng', step choice_nodes choice_indices choice_one sim rng = (Ok sim', rng') ∧
    watched net f0 a0 (S n) (extend_history H (sim_flows sim)) sim'.
Proof.
  intros Hd Hk [pc Hpc] Hms [Hst (f & Hf & Hs) Honly (caps & Hatt & Hcaps)].
  destruct (step_network_inv choice_indices net H n _ _ rng Hd Hst) as (fs' & ns' & rng' & Hstep & Hst' & Hget).
  assert (∃ f', Dict.get fs' 0%Z = Some f' ∧ same_static f0 f') as Hf'.
  { destruct (Hget 0%Z) as [[? _]|(g & f' & Hg & Hf' & Hs')]; [congruence|]. simplify_eq.
    exists f'. split; [done|]. by eapply same_static_trans. }
  assert (∀ k f', Dict.get fs' k = Some f' → k = 0%Z) as Honly'.
  { intros k f' Hk'. destruct (Hget k) as [[_ ?]|(g & f2 & Hg & _)]; [congruence|]. by eapply Honly. }
  destruct (monitor_spec ns' (add_captured a0 caps)) as (caps' & Hmon & Hcaps').
  { simpl. by rewrite Hk. }
  { simpl. destruct Hst' as [Hinv' _]. rewrite (inv_keys _ _ _ _ _ _ Hinv'). done. }
  destruct Hf' as (f' & Hf' & Hs').
  exists (mkSim (ticks sim + 1) ns' fs' [add_captured a0 (caps ++ caps')]), rng'. split.
  - unfold step, mbind, M_bind, lift, mret, M_ret. rewrite Hstep, Hatt. cbn [foldS].
    unfold mbind, M_bind, lift, mret, M_ret. rewrite Hmon.
    unfold select_monitored_nodes, select_fixed. cbn [a_kind add_captured path_collection]. rewrite Hk, Hpc.
    unfold lift, mbind, M_bind, mret, M_ret. rewrite (proj2 (Dict.getitem_Ok _ _ _) Hf').
    unfold add_captured. simpl. by rewrite (assoc_L (++)).
  - split; simpl; [done|by eauto|done|]. exists (caps ++ caps'). split; [done|].
    intros sh. rewrite elem_of_app, Hcaps, Hcaps'. simpl.
    eapply (seen_step net H n _ _ fs' ns'); eauto.
Qed.

Lemma run_watched net f0 a0 sim rng n :
  draws_paths choice_indices → a_kind a0 = Fixed → is_Some (path_collection a0) →
  (∀ v, v ∈ monitored_nodes a0 → v ∈ net) → watched net f0 a0 0 (λ _, []) sim →
  ∃ H sim' rng', run_steps n sim rng = (Ok sim', rng') ∧ watched net f0 a0 n H sim'.
Proof.
  intros Hd Hk Hpc Hms Hw. induction n as [|n IH]; cbn [run_steps]; [by eauto|].
  destruct IH as (H & sim1 & rng1 & Hrun & Hw1).
  destruct (step_watched net f0 a0 n H sim1 rng1 Hd Hk Hpc Hms Hw1) as (sim2 & rng2 & Hs & Hw2).
  exists (extend_history H (sim_flows sim1)), sim2, rng2. split; [|done].
  unfold mbind, M_bind. by rewrite Hrun.
Qed.

(** A path passes a monitored node after [1..d] hops, not counting the end
    points of the flow. *)
Definition crosses (f : PHFlow) (ms : list node) (d p : nat) : Prop :=
  ∃ i v, 1 ≤ i ≤ d ∧ default [] (paths f !! p) !! i = Some v ∧ v ∈ ms ∧
    v ≠ source_node f ∧ v ≠ sink_node f.

Lemma seen_crosses H f ms n sh aps :
  H (sh_flow sh) !! sh_seq sh = Some aps → Forall (λ p, p < length (paths f)) aps →
  seen H f ms n sh ↔ aps !! sh_num sh = Some (sh_path sh) ∧ sh_source sh = source_node f ∧
    sh_sink sh = sink_node f ∧ crosses f ms (n - sh_seq sh) (sh_path sh).
Proof.
  intros Haps Hall. split.
  - intros (t & v & Ht & (aps' & p & H1 & H2 & H3 & H4 & H5 & H6) & Hv & Hn1 & Hn2). simplify_eq.
    split_and!; [done..|]. exists (t - sh_seq sh), v. rewrite H3. simpl. split_and!; [lia|lia|done..].
  - intros (H2 & H5 & H6 & i & v & Hi & Hv & Hms & Hn1 & Hn2).
    rewrite Forall_forall in Hall.
    destruct (lookup_lt_is_Some_2 (paths f) (sh_path sh)) as [p Hp];
      [apply Hall; by eapply list_elem_of_lookup_2|].
    rewrite Hp in Hv. simpl in Hv. exists (sh_seq sh + i), v. split; [lia|]. split_and!; [|done..].
    exists aps, p. replace (sh_seq sh + i - sh_seq sh) with i by lia. by split_and!.
Qed.
End fixed.

(** The share numbers an attacker holds of message [s]: those whose path
    crosses a monitored node in time. *)
Lemma captured_crosses net (f : PHFlow) a caps n H fs ns aps s i :
  inv net H n n fs ns → (∃ f', Dict.get fs 0%Z = Some f' ∧ same_static f f') →
  H 0%Z !! s = Some aps → choice_ok f aps → captured_shares a = [] →
  (∀ sh, sh ∈ caps ↔ sh_flow sh = 0%Z ∧ seen H f (monitored_nodes a) n sh) →
  i ∈ captured_numbers (add_captured a caps) s ↔
    ∃ p, aps !! i = Some p ∧ crosses f (monitored_nodes a) (n - s) p.
Proof.
  intros Hinv Hf Haps [Hlen Hall] H0 Hcaps.
  unfold captured_numbers. rewrite elem_of_set_of, list_elem_of_fmap. simpl. rewrite H0. simpl.
  setoid_rewrite list_elem_of_filter. setoid_rewrite Hcaps. split.
  - intros (sh & -> & <- & Hfl & Hseen). rewrite <-Hfl in Haps.
    apply (seen_crosses _ _ _ _ _ _ Haps Hall) in Hseen as (? & _ & _ & ?). eauto.
  - intros (p & Hp & Hc). exists (mkShare 0 s i p (source_node f) (sink_node f)).
    split_and!; [done..|]. by apply (seen_crosses _ _ _ _ _ aps).
Qed.

(** A duplicate-free list of numbers below [k] has [k] elements exactly if
    it has them all. *)
Lemma NoDup_length_full (l : list nat) k :
  NoDup l → (∀ i, i ∈ l → i < k) → length l = k ↔ ∀ i, i < k → i ∈ l.
Proof.
  intros Hnd Hlt. split.
  - intros Hlen i Hi. assert (l ≡ₚ seq 0 k) as ->; [|by apply elem_of_seq; lia].
    apply submseteq_length_Permutation; [|rewrite length_seq; lia].
    apply NoDup_submseteq; [done|]. intros j ?%Hlt. apply elem_of_seq. lia.
  - intros Hin. transitivity (length (seq 0 k)); [|apply length_seq].
    apply Permutation_length, NoDup_Permutation; [done|apply NoDup_seq_nat|].
    intros j. rewrite elem_of_seq. split; [intros ?%Hlt; lia|]. intros. apply Hin. lia.
Qed.

Lemma recovered_iff net (f : PHFlow) a caps n H fs ns s :
  inv net H n n fs ns → (∃ f', Dict.get fs 0%Z = Some f' ∧ same_static f f') →
  Forall (choice_ok f) (H 0%Z) → captured_shares a = [] → a_K a = ph_K f → 0 < ph_K f →
  (∀ sh, sh ∈ caps ↔ sh_flow sh = 0%Z ∧ seen H f (monitored_nodes a) n sh) →
  Z.of_nat s ∈ reconstruct_captured_messages (add_captured a caps) ↔
    ∃ aps, H 0%Z !! s = Some aps ∧ Forall (crosses f (monitored_nodes a) (n - s)) aps.
Proof.
  intros Hinv Hf Hok H0 HK Hpos Hcaps. rewrite elem_of_reconstruct. simpl. rewrite H0, HK. simpl.
  assert (∀ aps, H 0%Z !! s = Some aps →
    length (captured_numbers (add_captured a caps) s) = ph_K f ↔
    Forall (crosses f (monitored_nodes a) (n - s)) aps) as Hiff.
  { intros aps Haps. assert (choice_ok f aps) as Hc by (eapply Forall_lookup_1; eauto).
    pose proof (captured_crosses net f a caps n H fs ns aps s) as Hmem.
    rewrite NoDup_length_full, Forall_lookup; [|apply NoDup_set_of|].
    - destruct Hc as [Hlen Hc]. split.
      + intros Hall i p Hp. destruct (proj1 (Hmem i Hinv Hf Haps (conj Hlen Hc) H0 Hcaps)) as (p' & ? & ?);
          [|by simplify_eq]. apply Hall. rewrite <-Hlen. by eapply lookup_lt_Some.
      + intros Hall i Hi. destruct (lookup_lt_is_Some_2 aps i) as [p Hp]; [lia|].
        apply (Hmem i Hinv Hf Haps (conj Hlen Hc) H0 Hcaps). eauto.
    - intros i (p & Hp & _)%(Hmem i Hinv Hf Haps Hc H0 Hcaps). destruct Hc as [<- _]. by eapply lookup_lt_Some. }
  split.
  - intros (s' & <-%Nat2Z.inj & (sh & Hsh & Hseq) & Hlen).
    apply Hcaps in Hsh as [Hfl (t & v & _ & (aps & p & Haps & _) & _)]. rewrite Hfl, Hseq in Haps.
    exists aps. split; [done|]. by apply Hiff.
  - intros (aps & Haps & Hall). exists s. split; [done|]. apply (Hiff aps Haps) in Hall. split; [|done].
    destruct (captured_numbers (add_captured a caps) s) as [|i l] eqn:Hl; [simpl in Hall; lia|].
    assert (i ∈ captured_numbers (add_captured a caps) s) as Hi by (rewrite Hl; left).
    unfold captured_numbers in Hi. apply elem_of_set_of, list_elem_of_fmap in Hi as (sh & _ & Hsh).
    apply list_elem_of_filter in Hsh as [? Hsh]. simpl in Hsh. rewrite H0 in Hsh. by exists sh.
Qed.

(** C21: What an attacker that does not move recovers. Beside one fresh flow
    that draws [K] distinct paths for each message, it has after [n] ticks
    reconstructed exactly the messages [s] every one of whose [K] paths
    passed one of its nodes, strictly between source and sink, within the
    [n - s] hops its shares have made; the simulation never raises. *)
Theorem fixed_attacker_recovers {RNG} (choice_nodes : list node → nat → M RNG (list node))
    (choice_indices : list nat → nat → M RNG (list nat)) (choice_one : list node → M RNG node)
    net f a ns n rng :
  draws_paths choice_indices → a_kind a = Fixed → is_Some (path_collection a) →
  (∀ v, v ∈ monitored_nodes a → v ∈ net) → captured_shares a = [] → a_K a = ph_K f → 0 < ph_K f →
  fresh net [(0%Z, f)] ns →
  ∃ H sim' rng' a', run_steps choice_nodes choice_indices choice_one n
      (mkSim 1 ns [(0%Z, f)] [a]) rng = (Ok sim', rng') ∧ attackers sim' = [a'] ∧
    length H = n ∧ Forall (choice_ok f) H ∧
    ∀ s, Z.of_nat s ∈ reconstruct_captured_messages a' ↔
      ∃ aps, H !! s = Some aps ∧ Forall (crosses f (monitored_nodes a) (n - s)) aps.
Proof.
  intros Hd Hk Hpc Hms H0 HK Hpos Hfr.
  destruct (run_watched choice_nodes choice_indices choice_one net f a (mkSim 1 ns [(0%Z, f)] [a]) rng n)
    as (H & sim' & rng' & Hrun & [[Hinv _] Hf Honly (caps & Hatt & Hcaps)]); [done..| |].
  { split; simpl; [by apply fresh_inv| | |].
    - exists f. split; [done|]. apply same_static_refl.
    - intros k g. simpl. by case_decide.
    - exists []. split; [unfold add_captured; rewrite app_nil_r; by destruct a|].
      intros sh. split; [set_solver|]. intros (_ & t & v & Ht & _). lia. }
  exists (H 0%Z), sim', rng', (add_captured a caps).
  destruct (Hf) as (f' & Hf' & Hst). pose proof (inv_flows _ _ _ _ _ _ Hinv _ _ Hf') as Hfi.
  assert (Forall (choice_ok f) (H 0%Z)) as Hok.
  { apply Forall_lookup. intros s aps Hs. eapply choice_ok_static; [|by eapply (fi_choices _ _ _ _ _ _ Hfi)].
    destruct Hst as (? & ? & ? & ? & ?); by split_and!. }
  split_and!; [done..|by rewrite (fi_hist _ _ _ _ _ _ Hfi)|done|].
  intros s. by eapply recovered_iff.
Qed.

(** One node on each of the two paths: every message is recovered. *)
Definition demo_attacker : Attacker :=
  mkAttacker Fixed 2 2 1 [2; 3]%Z [] 0 None (Some [[1; 2; 4]; [1; 3; 5; 4]]%Z) [] 1 [] [].

Lemma fixed_attacker_recovers_witness :
  ∃ sim' rng' a', run_steps (λ l k, mret (take k l)) demo_choice (λ l, mret (default 0%Z (head l))) 5
      (mkSim 1 ((λ n, (n, [])) <$> [1; 2; 3; 4; 5]%Z) [(0%Z, demo_flow)] [demo_attacker]) tt = (Ok sim', rng') ∧
    attackers sim' = [a'] ∧ reconstruct_captured_messages a' = [0; 1; 2; 3; 4]%Z ∧
    ∃ aps, Forall (crosses demo_flow [2; 3]%Z (5 - 3)) aps ∧ length aps = 2.
Proof.
  destruct (fixed_attacker_recovers (RNG := unit) (λ l k, mret (take k l)) demo_choice
    (λ l, mret (default 0%Z (head l))) [1; 2; 3; 4; 5]%Z demo_flow demo_attacker
    ((λ n, (n, [])) <$> [1; 2; 3; 4; 5]%Z) 5 tt) as (H & sim' & rng' & a' & Hrun & Hatt & _ & Hok & Hrec).
  - exact demo_draws.
  - reflexivity.
  - by eexists.
  - simpl. apply Forall_forall, (bool_decide_unpack _). by vm_compute.
  - reflexivity.
  - reflexivity.
  - simpl. lia.
  - exact demo_fresh.
  - exists sim', rng', a'. split; [exact Hrun|]. split; [exact Hatt|].
    assert (reconstruct_captured_messages a' = [0; 1; 2; 3; 4]%Z) as Hr.
    { vm_compute in Hrun. injection Hrun as <- <-. injection Hatt as <-. by vm_compute. }
    split; [exact Hr|]. destruct (proj1 (Hrec 3)) as (aps & Haps & Hall).
    { rewrite Hr. apply (bool_decide_unpack _). by vm_compute. }
    exists aps. split; [exact Hall|].
    assert (choice_ok demo_flow aps) as [Hl _] by (by eapply Forall_lookup_1). exact Hl.
Defined.
