(* ===== verification/TextRows.v ===== *)
(** Lemmas that the text formats of the trial files share: rows built with
    a running string, and dictionaries rebuilt row by row. *)

From Stdlib Require Import Ascii.
From S2P Require Import Prelude PyDict PyStr PyFloat PyText.
#[local] Arguments String.append !_ _ / : simpl nomatch.
Close Scope string_scope.

Lemma but_last_snoc {A} (l : list A) x : but_last (l ++ [x]) = l.
Proof.
  unfold but_last. rewrite length_app. simpl. rewrite Nat.add_sub, take_app_le by done.
  by rewrite take_ge.
Qed.

Lemma py_index_last_snoc {A} (l : list A) x : py_index (l ++ [x]) (-1) = Ok x.
Proof. apply py_index_last. by rewrite last_snoc. Qed.

(** [s += "%d " % x] over a list. *)
Lemma foldl_words {A} (f : A → string) l s x :
  foldl (λ s e, s +:+ (f e +:+ str1 space)) s l +:+ f x = s +:+ join_words (f <$> l ++ [x]).
Proof.
  revert s. induction l as [|y l IH]; intros s; [done|]. cbn [foldl]. rewrite IH.
  rewrite <-app_comm_cons, fmap_cons, (join_words_cons (f y)).
  - rewrite !str_app_assoc. done.
  - rewrite fmap_app. by destruct (f <$> l).
Qed.

(** A loop that appends one line per element. *)
Lemma foldM_append {A} (f : A → string) (g : string → A → res string) l s :
  (∀ s x, x ∈ l → g s x = Ok (s +:+ (f x +:+ str1 newline))) →
  foldM g s l = Ok (s +:+ unlines (f <$> l)).
Proof.
  revert s. induction l as [|x l IH]; intros s Hg; cbn [foldM]; [by rewrite str_app_nil_r|].
  rewrite Hg by left. cbn [mbind res_bind]. rewrite IH by (intros; apply Hg; by right).
  rewrite fmap_cons. cbn [unlines foldr]. by rewrite !str_app_assoc.
Qed.

(** A dictionary rebuilt from rows that each set one key. *)
Lemma foldM_rows {X K V} `{Countable K} (step : dict K V → X → res (dict K V)) l (l' : dict K V) :
  Forall2 (λ x kv, ∀ d, step d x = Ok (Dict.set d kv.1 kv.2)) l l' → Dict.wf l' →
  foldM step [] l = Ok l'.
Proof.
  unfold Dict.wf, Dict.keys. cut (∀ d : dict K V, NoDup (d.*1 ++ l'.*1) →
    Forall2 (λ x kv, ∀ d, step d x = Ok (Dict.set d kv.1 kv.2)) l l' → foldM step d l = Ok (d ++ l')).
  { intros Hc Hall Hnd. by apply (Hc []). }
  intros d Hnd Hall. revert d Hnd. induction Hall as [|x [k v] l l' Hx Hall IH]; intros d Hnd.
  { cbn [foldM]. by rewrite app_nil_r. }
  cbn [foldM]. rewrite Hx. cbn [mbind res_bind fst snd].
  assert (Dict.get d k = None) as Hk.
  { apply Dict.get_None. apply NoDup_app in Hnd as (_ & Hd & _). intros Hin.
    apply (Hd k Hin). rewrite fmap_cons. left. }
  rewrite Dict.set_new by done. rewrite IH.
  - by rewrite <-(assoc_L (++)).
  - rewrite fmap_app, <-(assoc_L (++)). done.
Qed.

(** The lines of a text built by such a loop. *)
Lemma splitlines_rows (ws : list (list string)) rest :
  Forall (Forall (λ w, word w = true)) ws →
  splitlines (unlines (join_words <$> ws) +:+ rest) = (join_words <$> ws) ++ splitlines rest.
Proof.
  intros Hws. apply splitlines_unlines, Forall_fmap. eapply Forall_impl; [exact Hws|].
  intros l Hl. by apply one_line_join.
Qed.

Lemma words_of_Z l : Forall (λ w, word w = true) (str_of_Z <$> l).
Proof. apply Forall_fmap, Forall_true. intros z. apply word_str_of_Z. Qed.

#[export] Hint Resolve word_str_of_Z words_of_Z word_fmt_f : testbed.
