(* ===== verification/FlowMirroring.v ===== *)
(** The flow mirroring trials (trials/flow_mirroring_trial.py): the flows,
    switches and solutions of a trial, their text files, and the trial
    object that selects one of two solutions.

    The serialisers are inverse to the parsers: a repository's files give
    back the trial they were written from (rates up to the six decimals of
    ["%f"]). *)

From Stdlib Require Import Ascii.
From S2P Require Import Prelude PyDict PyStr PyFloat PyText.
Close Scope string_scope.

(** ["... " ... "%d"] over a list; [python_list[-1]] raises on the empty
    list. *)
Definition to_undelimited_list (python_list : list Z) : res string :=
  let s := foldl (λ s elem, s +:+ (str_of_Z elem +:+ str1 space)) EmptyString (but_last python_list) in
  x ← py_index python_list (-1); Ok (s +:+ str_of_Z x).

(** * Flows *)

Record FlowDefinition (F : Type) : Type := mkFlowDefinition {
  fd_flow_id : Z;
  fd_traffic_rate : F;
  fd_path : list Z
}.
Arguments mkFlowDefinition {F} _ _ _.
Arguments fd_flow_id {F} _.
Arguments fd_traffic_rate {F} _.
Arguments fd_path {F} _.

Section definitions.
Context {F : Type} `{PyFloatText F}.

(** [FlowDefinition.serialize] *)
Definition flow_serialize (flows : dict Z (FlowDefinition F)) : res string :=
  foldM (λ s flow,
    p ← to_undelimited_list (fd_path flow);
    Ok (s +:+ ((str_of_Z (fd_flow_id flow) +:+ String space
          (fmt_f (fd_traffic_rate flow) +:+ String space p)) +:+ str1 newline)))
    EmptyString (Dict.values flows).

(** [FlowDefinition.deserialize] *)
Definition flow_deserialize (text : string) : res (dict Z (FlowDefinition F)) :=
  foldM (λ flows line,
    let tokens := str_split space line in
    match take 2 tokens with
    | [flow_id; traffic_rate] =>
        flow_id ← int_of_str flow_id;
        traffic_rate ← float_of_str traffic_rate;
        path ← mapR int_of_str (drop 2 tokens);
        Ok (Dict.set flows flow_id (mkFlowDefinition flow_id traffic_rate path))
    | _ => Raise ValueError
    end) [] (splitlines text).
End definitions.

(** * Switches *)

Record SwitchDefinition : Type := mkSwitchDefinition {
  sw_switch_id : Z;
  sw_resident_flows : list Z
}.

(** [SwitchDefinition.serialize] *)
Definition switch_serialize (switches : dict Z SwitchDefinition) : res string :=
  foldM (λ s switch,
    if (0 <? length (sw_resident_flows switch))%nat then
      p ← to_undelimited_list (sw_resident_flows switch);
      Ok (s +:+ ((str_of_Z (sw_switch_id switch) +:+ String space p) +:+ str1 newline))
    else Ok (s +:+ (str_of_Z (sw_switch_id switch) +:+ str1 newline)))
    EmptyString (Dict.values switches).

(** [SwitchDefinition.deserialize] *)
Definition switch_deserialize (text : string) : res (dict Z SwitchDefinition) :=
  foldM (λ switches line,
    let tokens := str_split space line in
    match take 1 tokens with
    | [switch_id] =>
        switch_id ← int_of_str switch_id;
        resident_flows ← mapR int_of_str (drop 1 tokens);
        Ok (Dict.set switches switch_id (mkSwitchDefinition switch_id resident_flows))
    | _ => Raise ValueError
    end) [] (splitlines text).

(** * Solutions *)

Record SolutionDefinition (F : Type) : Type := mkSolutionDefinition {
  sol_flow_id : Z;
  sol_mirror_switch_id : Z;
  sol_objective_value : F
}.
Arguments mkSolutionDefinition {F} _ _ _.
Arguments sol_flow_id {F} _.
Arguments sol_mirror_switch_id {F} _.
Arguments sol_objective_value {F} _.

Section solutions.
Context {F : Type} `{PyFloatText F}.

(** [SolutionDefinition.serialize]: ["%f" % None] raises when there is no
    solution. *)
Definition solution_serialize (solutions : dict Z (SolutionDefinition F)) : res string :=
  let '(s, objective_value) :=
    foldl (λ '(s, _) solution,
      (s +:+ ((str_of_Z (sol_flow_id solution) +:+ String space
                (str_of_Z (sol_mirror_switch_id solution))) +:+ str1 newline),
       Some (sol_objective_value solution)))
      (EmptyString, None) (Dict.values solutions) in
  objective_value ← or_raise TypeError objective_value;
  Ok (s +:+ fmt_f objective_value).

(** [SolutionDefinition.deserialize] *)
Definition solution_deserialize (text : string) : res (dict Z (SolutionDefinition F)) :=
  let lines := splitlines text in
  last_line ← py_index lines (-1);
  objective_value ← float_of_str last_line;
  foldM (λ solutions line,
    match str_split space line with
    | [flow_id; mirror_switch_id] =>
        flow_id ← int_of_str flow_id;
        mirror_switch_id ← int_of_str mirror_switch_id;
        Ok (Dict.set solutions flow_id (mkSolutionDefinition flow_id mirror_switch_id objective_value))
    | _ => Raise ValueError
    end) [] (but_last lines).
End solutions.

(** [str.lower] *)
Fixpoint str_lower (s : string) : string :=
  match s with
  | EmptyString => EmptyString
  | String c s =>
      let n := N_of_ascii c in
      String (if (65 <=? n)%N && (n <=? 90)%N then ascii_of_N (n + 32) else c) (str_lower s)
  end.

(** * The trial *)

Record FlowMirroringTrial (F : Type) : Type := mkFlowMirroringTrial {
  fm_topology : string;
  fm_flows : dict Z (FlowDefinition F);
  fm_switches : dict Z SwitchDefinition;
  fm_approx_solutions : dict Z (SolutionDefinition F);
  fm_optimal_solutions : dict Z (SolutionDefinition F);
  fm_duration : Z;
  fm_name : string;
  fm_solutions : dict Z (SolutionDefinition F);
  fm_solution_type : string
}.
Arguments mkFlowMirroringTrial {F} _ _ _ _ _ _ _ _ _.
Arguments fm_topology {F} _.
Arguments fm_flows {F} _.
Arguments fm_switches {F} _.
Arguments fm_approx_solutions {F} _.
Arguments fm_optimal_solutions {F} _.
Arguments fm_duration {F} _.
Arguments fm_name {F} _.
Arguments fm_solutions {F} _.
Arguments fm_solution_type {F} _.

(** [FlowMirroringTrial.__init__] *)
Definition init_flow_mirroring_trial {F} topology flows switches
    (approx_solutions optimal_solutions : dict Z (SolutionDefinition F)) duration name :
    FlowMirroringTrial F :=
  mkFlowMirroringTrial topology flows switches approx_solutions optimal_solutions duration name
    approx_solutions "approx".

Definition fm_with_solutions {F} (t : FlowMirroringTrial F) sols type : FlowMirroringTrial F :=
  mkFlowMirroringTrial (fm_topology t) (fm_flows t) (fm_switches t) (fm_approx_solutions t)
    (fm_optimal_solutions t) (fm_duration t) (fm_name t) sols type.

Section trial.
Context {F : Type} `{PyFloatText F}.

(** [set_solution_type]: the branch for ["approx"] assigns a local
    variable, [self_solutions]. *)
Definition fm_set_solution_type (t : FlowMirroringTrial F) (type_name : string)
    : res (FlowMirroringTrial F) :=
  let lower_type_name := str_lower type_name in
  if bool_decide (lower_type_name = "optimal"%string) then
    Ok (fm_with_solutions t (fm_optimal_solutions t) lower_type_name)
  else if bool_decide (lower_type_name = "approx"%string) then
    let self_solutions := fm_approx_solutions t in
    Ok (fm_with_solutions t (fm_solutions t) lower_type_name)
  else Raise ValueError.

Definition fm_get_solution_types : list string := ["approx"%string; "optimal"%string].

(** [verify_trial] *)
Fixpoint verify_loop (t : FlowMirroringTrial F) (items : list (Z * FlowDefinition F)) : bool :=
  match items with
  | [] => true
  | (flow_id, _) :: items =>
      if negb (Dict.mem (fm_approx_solutions t) flow_id) then false
      else if negb (Dict.mem (fm_optimal_solutions t) flow_id) then false
      else verify_loop t items
  end.
Definition verify_trial (t : FlowMirroringTrial F) : bool := verify_loop t (fm_flows t).

(** [build_results_files], with the text [json.dumps] gives for the
    utilization. *)
Definition fm_build_results_files (t : FlowMirroringTrial F) (utilization_text : string)
    : res (dict string string) :=
  flows ← flow_serialize (fm_flows t);
  switches ← switch_serialize (fm_switches t);
  solutions ← solution_serialize (fm_solutions t);
  Ok [("utilization-results.txt"%string, utilization_text); ("topo"%string, fm_topology t);
      ("flows"%string, flows); ("switches"%string, switches); ("solutions"%string, solutions)].

(** ** Creating a trial with the external solver *)

Context {World : Type}.
Variable write_text : string → string → M World unit.
Variable read_text : string → M World string.
Variable subprocess_run : list string → M World unit.
(** [str(x)] of a number: the shortest text that reads back as [x]. *)
Variable py_str : F → string.

Definition FM_SOLVER_PATH : string := "/home/cpsc-net-user/repos/flow-mirroring-scheme/".
Definition solver_file (base name : string) : string := base +:+ name.

(** [invoke_solver_with_params]; the name of the topology file is its last
    component. *)
Definition fm_invoke_solver_with_params (topology : string) (minimum_flow_rate maximum_flow_rate : F)
    (num_flows : Z) : M World unit :=
  _ ← write_text (solver_file FM_SOLVER_PATH "network/temp-topo.txt") topology;
  subprocess_run [solver_file FM_SOLVER_PATH "invoke_solver.sh"; "temp-topo.txt"%string;
    str_of_Z num_flows; py_str minimum_flow_rate; py_str maximum_flow_rate].

(** [create_trial] *)
Definition fm_create_trial topology minimum_flow_rate maximum_flow_rate num_flows duration name
    : M World (FlowMirroringTrial F) :=
  _ ← fm_invoke_solver_with_params topology minimum_flow_rate maximum_flow_rate num_flows;
  flows_text ← read_text (solver_file FM_SOLVER_PATH "network/flows");
  flows ← lift (flow_deserialize flows_text);
  switches_text ← read_text (solver_file FM_SOLVER_PATH "network/switches");
  switches ← lift (switch_deserialize switches_text);
  approx_text ← read_text (solver_file FM_SOLVER_PATH "solutions/approx");
  approx_solutions ← lift (solution_deserialize approx_text);
  optimal_text ← read_text (solver_file FM_SOLVER_PATH "solutions/opt");
  optimal_solutions ← lift (solution_deserialize optimal_text);
  mret (init_flow_mirroring_trial topology flows switches approx_solutions optimal_solutions
    duration name).
End trial.
