(* ===== verification/FlowMirroringProps.v ===== *)
(** Round trips of the flow mirroring files and the behaviour of the trial
    object. *)

From Stdlib Require Import Ascii QArith Qcanon.
From S2P Require Import Prelude PyDict PyStr PyFloat PyText TextRows FlowMirroring.
#[local] Arguments String.append !_ _ / : simpl nomatch.
Close Scope Qc_scope.
Close Scope Q_scope.
Close Scope string_scope.

Lemma to_undelimited_list_join l :
  l ≠ [] → to_undelimited_list l = Ok (join_words (str_of_Z <$> l)).
Proof.
  intros Hl. destruct l as [|x l _] using rev_ind; [done|]. unfold to_undelimited_list.
  rewrite but_last_snoc, py_index_last_snoc. cbn [mbind res_bind]. by rewrite foldl_words.
Qed.

Section roundtrip.
Context {F : Type} `{PyFloatText F}.

(** What a reader of the file gets for a flow: the rate is printed with six
    decimals. *)
Definition flow_stored (kf kf' : Z * FlowDefinition F) : Prop :=
  kf'.1 = kf.1 ∧ fd_flow_id kf.2 = kf.1 ∧ fd_flow_id kf'.2 = kf.1 ∧ fd_path kf.2 ≠ [] ∧
  fd_path kf'.2 = fd_path kf.2 ∧ reread (fd_traffic_rate kf.2) = Ok (fd_traffic_rate kf'.2).

Definition flow_words (f : FlowDefinition F) : list string :=
  str_of_Z (fd_flow_id f) :: fmt_f (fd_traffic_rate f) :: (str_of_Z <$> fd_path f).

Lemma flow_words_ok f : Forall (λ w, word w = true) (flow_words f).
Proof. unfold flow_words. auto with testbed. Qed.

Lemma flow_serialize_lines flows :
  Forall (λ kf, fd_path kf.2 ≠ []) flows →
  flow_serialize flows = Ok (unlines (join_words <$> (flow_words <$> Dict.values flows))).
Proof.
  intros Hne. unfold flow_serialize.
  rewrite (foldM_append (λ f, join_words (flow_words f)));
    [f_equal; by rewrite <-list_fmap_compose|].
  intros s f (k & Hin)%Dict.elem_of_values. rewrite Forall_forall in Hne. specialize (Hne _ Hin).
  simpl in Hne. rewrite to_undelimited_list_join by done. cbn [mbind res_bind]. f_equal.
  unfold flow_words. rewrite !join_words_cons; [done|by destruct (fd_path f)|done].
Qed.

(** C36: The flows file is read back as it was written. For a table of flows
    with non-empty paths, indexed by flow id, [deserialize] applied to the
    text of [serialize] returns the same table, the same ids and paths, and
    each rate as the six decimals of ["%f"] give it (the rate itself when it
    is a whole number of millionths). *)
Theorem flow_file_roundtrip flows flows' :
  Dict.wf flows → Forall2 flow_stored flows flows' →
  (flow_serialize flows ≫= λ text, flow_deserialize text) = Ok flows'.
Proof.
  intros Hwf Hst. rewrite flow_serialize_lines.
  2:{ clear Hwf. induction Hst as [|? ? ? ? (? & ? & ? & ? & ?)]; constructor; auto. }
  cbn [mbind res_bind]. unfold flow_deserialize.
  rewrite <-(str_app_nil_r (unlines _)), splitlines_rows
    by (apply Forall_fmap, Forall_true, flow_words_ok).
  cbn [splitlines]. rewrite app_nil_r. apply foldM_rows.
  - unfold Dict.values. rewrite <-!list_fmap_compose. apply Forall2_fmap_l.
    eapply Forall2_impl; [exact Hst|]. intros [k [i r p]] [k' [i' r' p']] (? & ? & ? & Hp & ? & Hr) d.
    cbn [fst snd fd_flow_id fd_path fd_traffic_rate] in *. subst. unfold compose. cbn [snd].
    rewrite split_join_words by (done || apply flow_words_ok).
    unfold flow_words. simpl. rewrite int_of_str_of_Z. unfold reread in Hr.
    cbn [mbind res_bind]. rewrite Hr. cbn [mbind res_bind]. rewrite drop_0, mapR_int_of_str. done.
  - unfold Dict.wf, Dict.keys in *. replace (flows'.*1) with (flows.*1); [done|]. clear Hwf.
    induction Hst as [|x y l l' (? & _) Hst IH]; [done|]. rewrite !fmap_cons. by f_equal.
Qed.
End roundtrip.

Lemma flow_file_roundtrip_witness :
  let flows := [(3%Z, mkFlowDefinition 3 (flit (F := Qc) 1500000 1000000) [1; 2; 7]%Z);
                (5%Z, mkFlowDefinition 5 (flit (F := Qc) (-12) 1000000) [4]%Z)] in
  (flow_serialize flows ≫= λ text, flow_deserialize text) = Ok flows.
Proof.
  intros flows. apply (flow_file_roundtrip flows flows).
  - apply (bool_decide_unpack _). by vm_compute.
  - constructor; [|constructor; [|constructor]]; (split_and!; [done..|apply reread_micros]).
Defined.

(** The switches file is read back as it was written: [deserialize]
    after [serialize] is the identity on tables of switches indexed by
    switch id, also for switches without resident flows. *)
Theorem switch_file_roundtrip switches :
  Dict.wf switches → Forall (λ ks, sw_switch_id ks.2 = ks.1) switches →
  (switch_serialize switches ≫= switch_deserialize) = Ok switches.
Proof.
  intros Hwf Hid. unfold switch_serialize.
  set (wds := λ sw, str_of_Z (sw_switch_id sw) :: (str_of_Z <$> sw_resident_flows sw)).
  rewrite (foldM_append (λ sw, join_words (wds sw))).
  2:{ intros s sw _. destruct sw as [i [|f fs]]; [done|]. cbn [Nat.ltb Nat.leb length sw_resident_flows].
      rewrite to_undelimited_list_join by done. cbn [mbind res_bind]. f_equal. }
  cbn [mbind res_bind]. unfold switch_deserialize. cbn [String.append].
  rewrite (list_fmap_compose wds join_words).
  rewrite <-(str_app_nil_r (unlines _)), splitlines_rows
    by (apply Forall_fmap, Forall_true; intros sw; unfold wds; auto with testbed).
  cbn [splitlines]. rewrite app_nil_r. apply foldM_rows; [|done].
  unfold Dict.values. rewrite <-!list_fmap_compose. apply Forall2_fmap_l, Forall_Forall2_diag.
  eapply Forall_impl; [exact Hid|]. intros [k [i fs]] Hk d. cbn [fst snd sw_switch_id] in *. subst. unfold compose. cbn [snd].
  rewrite split_join_words by (done || unfold wds; auto with testbed). simpl.
  rewrite int_of_str_of_Z. cbn [mbind res_bind]. by rewrite drop_0, mapR_int_of_str.
Qed.

Lemma switch_file_roundtrip_witness :
  let switches := [(1%Z, mkSwitchDefinition 1 [3; 5]%Z); (2%Z, mkSwitchDefinition 2 [])] in
  (switch_serialize switches ≫= switch_deserialize) = Ok switches.
Proof.
  intros switches. apply switch_file_roundtrip.
  - apply (bool_decide_unpack _). by vm_compute.
  - by repeat constructor.
Defined.

Section solutions.
Context {F : Type} `{PyFloatText F}.

Definition solution_words (s : SolutionDefinition F) : list string :=
  [str_of_Z (sol_flow_id s); str_of_Z (sol_mirror_switch_id s)].

(** The text is one line per solution and the objective of the last one. *)
Lemma solution_serialize_text sols o :
  sols ≠ [] → Forall (λ ks, sol_objective_value ks.2 = o) sols →
  solution_serialize sols =
    Ok (unlines (join_words <$> (solution_words <$> Dict.values sols)) +:+ fmt_f o).
Proof.
  intros Hne Ho. unfold solution_serialize. rewrite <-list_fmap_compose.
  assert (∀ vs s oo, Forall (λ v, sol_objective_value v = o) vs →
    foldl (λ '(s, _) solution,
      (s +:+ ((str_of_Z (sol_flow_id solution) +:+ String space
                (str_of_Z (sol_mirror_switch_id solution))) +:+ str1 newline),
       Some (sol_objective_value solution))) (s, oo) vs
    = (s +:+ unlines (join_words ∘ solution_words <$> vs), match vs with [] => oo | _ => Some o end)) as Hf.
  { induction vs as [|v vs IH]; intros s oo Hvs; [simpl; by rewrite str_app_nil_r|].
    apply Forall_cons in Hvs as [Hv Hvs]. cbn [foldl]. rewrite IH by done. rewrite fmap_cons, Hv.
    cbn [unlines foldr]. unfold compose at 2, solution_words at 2. cbn [join_words].
    rewrite !str_app_assoc. by destruct vs. }
  rewrite Hf by (by apply Forall_fmap). cbn [String.append].
  destruct sols as [|[k v] sols]; [done|]. done.
Qed.

(** The solutions file is read back as it was written: for a non-empty
    table of solutions that share one objective value [o], [deserialize]
    after [serialize] gives the same mirror switches and, as objective, the
    six decimals of [o]. *)
Theorem solution_file_roundtrip sols o o' :
  Dict.wf sols → sols ≠ [] → reread o = Ok o' →
  Forall (λ ks, sol_flow_id ks.2 = ks.1 ∧ sol_objective_value ks.2 = o) sols →
  (solution_serialize sols ≫= λ text, solution_deserialize text)
  = Ok ((λ ks, (ks.1, mkSolutionDefinition ks.1 (sol_mirror_switch_id ks.2) o')) <$> sols).
Proof.
  intros Hwf Hne Ho Hs. rewrite (solution_serialize_text _ o);
    [|done|by eapply Forall_impl; [exact Hs|]; intros ? [_ ?]].
  cbn [mbind res_bind]. unfold solution_deserialize.
  rewrite splitlines_rows by (apply Forall_fmap, Forall_true; intros; unfold solution_words; auto with testbed).
  rewrite (splitlines_last (fmt_f o)) by (apply fmt_f_ne || apply word_one_line, word_fmt_f).
  rewrite py_index_last_snoc. cbn [mbind res_bind]. unfold reread in Ho. rewrite Ho.
  cbn [mbind res_bind]. rewrite but_last_snoc. apply foldM_rows.
  - unfold Dict.values. rewrite <-!list_fmap_compose. apply Forall2_fmap, Forall_Forall2_diag.
    eapply Forall_impl; [exact Hs|]. intros [k [i m o1]] [Hk _] d.
    cbn [fst snd sol_flow_id sol_mirror_switch_id] in *. subst. unfold compose. cbn [snd].
    rewrite split_join_words by (done || unfold solution_words; auto with testbed).
    unfold solution_words. cbn [sol_flow_id sol_mirror_switch_id]. by rewrite !int_of_str_of_Z.
  - unfold Dict.wf, Dict.keys in *. by rewrite <-list_fmap_compose.
Qed.

(** [verify_trial] decides that every flow of the trial has a solution
    of both kinds. *)
Theorem verify_trial_spec (t : FlowMirroringTrial F) :
  verify_trial t = true ↔ ∀ k, k ∈ Dict.keys (fm_flows t) →
    k ∈ Dict.keys (fm_approx_solutions t) ∧ k ∈ Dict.keys (fm_optimal_solutions t).
Proof.
  unfold verify_trial. assert (∀ (d : dict Z (SolutionDefinition F)) k, Dict.mem d k = true ↔ k ∈ Dict.keys d) as Hmem.
  { intros d k. rewrite Dict.elem_of_keys. unfold Dict.mem. destruct (Dict.get d k); naive_solver. }
  induction (fm_flows t) as [|[k f] items IH]; simpl; [set_solver|].
  destruct (Dict.mem (fm_approx_solutions t) k) eqn:Ha; simpl.
  - destruct (Dict.mem (fm_optimal_solutions t) k) eqn:Hb; simpl.
    + rewrite IH. apply Hmem in Ha, Hb. split; [|intros Hall i Hi; apply Hall; by right].
      by intros Hall i [->|Hi]%elem_of_cons; [|apply Hall].
    + split; [done|]. intros Hall. destruct (Hall k) as [_ Hk%Hmem]; [left|congruence].
  - split; [done|]. intros Hall. destruct (Hall k) as [Hk%Hmem _]; [left|congruence].
Qed.

(** Selecting the optimal and then the approximate solutions leaves the
    optimal ones selected, under the name ["approx"]. *)
Lemma approx_selection_lost (t : FlowMirroringTrial F) :
  (fm_set_solution_type t "optimal" ≫= λ t, fm_set_solution_type t "approx")
  = Ok (fm_with_solutions t (fm_optimal_solutions t) "approx").
Proof. done. Qed.
End solutions.

Lemma solution_file_roundtrip_witness :
  let o := flit (F := Qc) 2500000 1000000 in
  let sols := [(1%Z, mkSolutionDefinition 1 4 o); (2%Z, mkSolutionDefinition 2 6 o)] in
  (solution_serialize sols ≫= λ text, solution_deserialize text) = Ok sols.
Proof.
  intros o sols. apply (solution_file_roundtrip sols o o).
  - apply (bool_decide_unpack _). by vm_compute.
  - done.
  - apply reread_micros.
  - by repeat constructor.
Defined.
