(* ===== verification/TopoMapper.v ===== *)
(** The view of the network (nw_control/topo_mapper.py): the topology file
    and the controller's links and hosts as graphs, the isomorphism that
    maps the one to the other, and the checks of flows against either.

    The ONOS controller and networkx are not part of the repository. The
    controller is the class [OnosApi] of the answers to the REST queries,
    typed as ONOS documents them (the answers do not change while a call
    runs); networkx's graphs are the class [NxGraph] with the laws
    [NxGraphLaws]; its [GraphMatcher] is a parameter of which only the
    documented meaning of the mapping is assumed. *)

From Stdlib Require Import Ascii.
From S2P Require Import Prelude PyDict PyStr PyText.
Close Scope string_scope.

(** * Graphs *)

Class NxGraph (N G : Type) : Type := {
  nx_empty : G;
  nx_add_node : N → G → G;
  nx_add_edge : N → N → G → G;
  nx_has_node : G → N → bool;
  nx_has_edge : G → N → N → bool
}.

Class NxGraphLaws (N G : Type) `{EqDecision N} `{NxGraph N G} : Prop := {
  has_node_empty (x : N) : nx_has_node nx_empty x = false;
  has_edge_empty (x y : N) : nx_has_edge nx_empty x y = false;
  has_node_add_node n g (x : N) : nx_has_node (nx_add_node n g) x = bool_decide (x = n) || nx_has_node g x;
  has_edge_add_node n g (x y : N) : nx_has_edge (nx_add_node n g) x y = nx_has_edge g x y;
  has_node_add_edge u v g (x : N) :
    nx_has_node (nx_add_edge u v g) x = bool_decide (x = u ∨ x = v) || nx_has_node g x;
  has_edge_add_edge u v g (x y : N) :
    nx_has_edge (nx_add_edge u v g) x y
    = bool_decide ((x = u ∧ y = v) ∨ (x = v ∧ y = u)) || nx_has_edge g x y
}.

(** A graph as lists of nodes and edges. *)
Record list_graph (N : Type) : Type := mkListGraph {
  lg_nodes : list N;
  lg_edges : list (N * N)
}.
Arguments mkListGraph {N} _ _.
Arguments lg_nodes {N} _.
Arguments lg_edges {N} _.

#[export] Instance list_graph_nx {N} `{EqDecision N} : NxGraph N (list_graph N) := {
  nx_empty := mkListGraph [] [];
  nx_add_node n g := mkListGraph (set_add n (lg_nodes g)) (lg_edges g);
  nx_add_edge u v g := mkListGraph (set_add v (set_add u (lg_nodes g))) ((u, v) :: lg_edges g);
  nx_has_node g x := bool_decide (x ∈ lg_nodes g);
  nx_has_edge g x y := bool_decide ((x, y) ∈ lg_edges g ∨ (y, x) ∈ lg_edges g)
}.

#[export] Instance list_graph_laws {N} `{EqDecision N} : NxGraphLaws N (list_graph N).
Proof.
  split; intros; simpl; try done.
  - rewrite <-bool_decide_or. apply bool_decide_ext. by rewrite elem_of_set_add.
  - rewrite <-bool_decide_or. apply bool_decide_ext. rewrite !elem_of_set_add. tauto.
  - rewrite <-bool_decide_or. apply bool_decide_ext. rewrite !elem_of_cons.
    split; [intros [[[= ]|]|[[= ]|]]|intros [[[-> ->]|[-> ->]]|[|]]]; tauto.
Qed.

(** * The controller *)

Record Link : Type := mkLink {
  link_type : string;
  src_device : string;
  src_port : string;
  dst_device : string;
  dst_port : string
}.

#[export] Instance link_eq_dec : EqDecision Link.
Proof. solve_decision. Defined.

Record Host : Type := mkHost {
  ipAddresses : list string;
  locations : list (string * string)
}.

(** The answer to a query: status code and body. *)
Class OnosApi : Type := {
  onos_links : res (Z * list Link);
  onos_hosts : res (Z * list Host)
}.

(** nw_control/params.py, port_mirroring/params.py *)
Definition collector_host_ip : string := "10.10.0.18".
Definition collector_ip_addr : string := "10.10.0.18".
Definition dns_server_ip : string := "10.0.0.1".

Definition check_status {A} (response : Z * A) : res A :=
  if bool_decide (response.1 ≠ 200%Z) then Raise ValueError else Ok response.2.

Section controller.
Context `{OnosApi}.

Definition get_nw_links : res (list Link) :=
  response ← onos_links;
  links ← check_status response;
  Ok (filter (λ link, link_type link ≠ "EDGE"%string) links).

Definition get_nw_hosts : res (list Host) :=
  response ← onos_hosts; check_status response.

Definition get_collector_switch_dpid : res string :=
  hosts ← get_nw_hosts;
  collector_host ← or_raise StopIteration
    (head (filter (λ host, collector_host_ip ∈ ipAddresses host) hosts));
  location ← py_index (locations collector_host) 0;
  Ok location.1.

(** [try: ... except StopIteration: ""] *)
Definition collector_or_none : res string :=
  match get_collector_switch_dpid with
  | Raise StopIteration => Ok EmptyString
  | r => r
  end.

Definition add_link {G} `{NxGraph string G} (acc : G * list string) (link : Link) : G * list string :=
  let '(graph, node_set) := acc in
  let source_dpid := src_device link in
  let destination_dpid := dst_device link in
  let '(graph, node_set) :=
    if negb (list_mem source_dpid node_set) && negb (bool_decide (source_dpid = EmptyString))
    then (nx_add_node source_dpid graph, set_add source_dpid node_set) else (graph, node_set) in
  let '(graph, node_set) :=
    if negb (list_mem destination_dpid node_set)
    then (nx_add_node destination_dpid graph, set_add destination_dpid node_set) else (graph, node_set) in
  (nx_add_edge source_dpid destination_dpid graph, node_set).

Definition core_topo_links (collector_switch_dpid : string) (links : list Link) : list Link :=
  filter (λ link, src_device link ≠ collector_switch_dpid ∧ dst_device link ≠ collector_switch_dpid) links.

Definition build_onos_topo_graph {G} `{NxGraph string G} : res G :=
  links ← get_nw_links;
  collector_switch_dpid ← collector_or_none;
  Ok (foldl add_link (nx_empty, []) (core_topo_links collector_switch_dpid links)).1.

Definition get_ports_that_connect (source_dpid destination_dpid : string) : res (Z * Z) :=
  links ← get_nw_links;
  match head (filter (λ link, src_device link = source_dpid ∧ dst_device link = destination_dpid) links) with
  | Some link => p ← int_of_str (src_port link); q ← int_of_str (dst_port link); Ok (p, q)
  | None => Raise ValueError
  end.

Definition get_host_port (switch_dpid : string) : res Z :=
  hosts ← get_nw_hosts;
  match head (filter (λ hl : Host * (string * string), hl.2.1 = switch_dpid ∧
                (collector_ip_addr ∉ ipAddresses hl.1) ∧ (dns_server_ip ∉ ipAddresses hl.1))
          (host ← hosts; (λ l, (host, l)) <$> locations host)) with
  | Some (_, host_location) => int_of_str host_location.2
  | None => Raise ValueError
  end.
End controller.

(** * The topology file *)

Definition build_graph_from_topo_string {G} `{NxGraph Z G} (topo_str : string) : res G :=
  let lines := splitlines topo_str in
  first ← py_index lines 0;
  num_nodes ← int_of_str first;
  let graph := foldl (λ g node_idx, nx_add_node (Z.of_nat node_idx) g) nx_empty
                 (seq 1 (Z.to_nat num_nodes)) in
  foldM (λ graph edge_entry,
    match str_split space edge_entry with
    | [source_node; destination_node] =>
        u ← int_of_str source_node; v ← int_of_str destination_node;
        Ok (nx_add_edge u v graph)
    | _ => Raise ValueError
    end) graph (drop 2 lines).

(** * Mapping the topology to the network *)

Section mapping.
Context `{OnosApi} {GN GT : Type} `{NxGraph string GN} `{NxGraph Z GT}.
(** [GraphMatcher(g1, g2)]: the mapping of the nodes of [g1] to those of
    [g2] when the graphs are isomorphic. *)
Variable graph_matcher : GN → GT → option (dict string Z).

Definition generate_graph_isomorphism (g1 : GN) (g2 : GT) : res (dict string Z) :=
  or_raise ValueError (graph_matcher g1 g2).

(** [{v: k for k, v in d.items()}] *)
Definition invert (dpid_to_id : dict string Z) : dict Z string :=
  Dict.of_pairs ((λ kv, (kv.2, kv.1)) <$> dpid_to_id).

(** [get_and_validate_onos_topo_x]; the [except] branch prints and raises
    the same exception again. *)
Definition get_and_validate_onos_topo_x (target_topo : GT) : res (dict Z string) :=
  current_topo ← build_onos_topo_graph;
  dpid_to_id ← generate_graph_isomorphism current_topo target_topo;
  Ok (invert dpid_to_id).

Definition get_and_validate_onos_topo (target_topo_string : string) : res (dict Z string) :=
  current_topo ← build_onos_topo_graph;
  target_topo ← build_graph_from_topo_string target_topo_string;
  dpid_to_id ← generate_graph_isomorphism current_topo target_topo;
  Ok (invert dpid_to_id).

Definition path_edges (flow_paths : list (list Z)) : list (Z * Z) :=
  p ← flow_paths; pairwise p.

(** [verify_flows_against_nw_topo]; the flows by their paths. *)
Definition verify_flows_against_nw_topo (target_topo_text : string) (flow_paths : list (list Z))
    : res (list (Z * Z)) :=
  nw_graph ← build_onos_topo_graph (G := GN);
  id_to_dpid ← get_and_validate_onos_topo target_topo_text;
  foldM (λ invalid_edges '(u, v),
    du ← Dict.getitem id_to_dpid u;
    dv ← Dict.getitem id_to_dpid v;
    Ok (if nx_has_edge nw_graph du dv then invalid_edges else set_add (u, v) invalid_edges))
    [] (path_edges flow_paths).

(** [verify_flows_against_target_topo]: the mapped names are only used in
    the message about an invalid edge. *)
Definition verify_flows_against_target_topo (target_topo_text : string) (flow_paths : list (list Z))
    : res (list (Z * Z)) :=
  target_graph ← build_graph_from_topo_string (G := GT) target_topo_text;
  id_to_dpid ← get_and_validate_onos_topo target_topo_text;
  foldM (λ invalid_edges '(u, v),
    if nx_has_edge target_graph u v then Ok invalid_edges
    else
      _ ← Dict.getitem id_to_dpid u;
      _ ← Dict.getitem id_to_dpid v;
      Ok (set_add (u, v) invalid_edges))
    [] (path_edges flow_paths).
End mapping.

(** The answer to the query of the mirroring ports is a JSON object whose
    member [result] is a JSON text again; the two decoders are arguments. *)
Definition get_switch_mirroring_ports {A} (mirroring_ports_request : res (Z * string)) (loads_object : string → res (dict string string))
    (loads : string → res A) : res A :=
  response ← mirroring_ports_request;
  text ← check_status response;
  mirroring_ports ← loads_object text;
  result ← Dict.getitem mirroring_ports "result"%string;
  loads result.
