(* ===== verification/TopoMapperProps.v ===== *)
(** The graph built from the controller's answers, and the agreement of the
    two checks of flows. *)

From Stdlib Require Import Ascii.
From S2P Require Import Prelude PyDict PyStr PyText TopoMapper.
Close Scope string_scope.

Section onos_graph.
Context {G : Type} `{NxGraphLaws string G}.

Lemma add_link_edge (acc : G * list string) link x y :
  nx_has_edge (add_link acc link).1 x y
  = bool_decide ((x = src_device link ∧ y = dst_device link) ∨ (x = dst_device link ∧ y = src_device link))
    || nx_has_edge acc.1 x y.
Proof.
  destruct acc as [g ns]. unfold add_link.
  repeat case_match; simplify_eq/=; rewrite has_edge_add_edge; by rewrite ?has_edge_add_node.
Qed.

Lemma add_link_node (acc : G * list string) link x :
  nx_has_node (add_link acc link).1 x
  = bool_decide (x = src_device link ∨ x = dst_device link) || nx_has_node acc.1 x.
Proof.
  destruct acc as [g ns]. unfold add_link.
  repeat case_match; simplify_eq/=; rewrite has_node_add_edge, ?has_node_add_node, <-?bool_decide_or;
    match goal with |- context [nx_has_node ?g x] => generalize (nx_has_node g x); intros b end;
    apply eq_bool_prop_intro;
    rewrite !orb_True, !bool_decide_spec; tauto.
Qed.

Lemma add_links_edge links (acc : G * list string) x y :
  nx_has_edge (foldl add_link acc links).1 x y = true ↔ nx_has_edge acc.1 x y = true ∨
    ∃ link, link ∈ links ∧ ((x = src_device link ∧ y = dst_device link) ∨
                            (x = dst_device link ∧ y = src_device link)).
Proof.
  revert acc. induction links as [|l links IH]; intros acc; cbn [foldl]; [set_solver|].
  rewrite IH, add_link_edge, orb_true_iff, bool_decide_eq_true, exists_elem_cons. tauto.
Qed.

Lemma add_links_node links (acc : G * list string) x :
  nx_has_node (foldl add_link acc links).1 x = true ↔ nx_has_node acc.1 x = true ∨
    ∃ link, link ∈ links ∧ (x = src_device link ∨ x = dst_device link).
Proof.
  revert acc. induction links as [|l links IH]; intros acc; cbn [foldl]; [set_solver|].
  rewrite IH, add_link_node, orb_true_iff, bool_decide_eq_true, exists_elem_cons. tauto.
Qed.

(** The links of the core network: no edge links, none at the switch of the
    collector. *)
Definition core_link (c : string) (link : Link) : Prop :=
  link_type link ≠ "EDGE"%string ∧ src_device link ≠ c ∧ dst_device link ≠ c.

(** C37: The graph of the network. When the controller answers, the graph has
    an edge between two switches exactly if some link that is not an edge
    link connects them, in either direction, and neither is the switch of
    the collector; and its nodes are the end points of those links. *)
Theorem onos_graph_exact `{OnosApi} (g : G) links c :
  onos_links = Ok (200%Z, links) → collector_or_none = Ok c → build_onos_topo_graph = Ok g →
  (∀ x y, nx_has_edge g x y = true ↔ ∃ l, l ∈ links ∧ core_link c l ∧
     ((x = src_device l ∧ y = dst_device l) ∨ (x = dst_device l ∧ y = src_device l))) ∧
  (∀ x, nx_has_node g x = true ↔ ∃ l, l ∈ links ∧ core_link c l ∧ (x = src_device l ∨ x = dst_device l)).
Proof.
  intros Hl Hc. unfold build_onos_topo_graph, get_nw_links. rewrite Hl, Hc. simpl.
  remember (core_topo_links c _) as core eqn:Heq. intros [= <-].
  assert (∀ l, l ∈ core ↔ l ∈ links ∧ core_link c l) as Hcore.
  { intros l. rewrite Heq. unfold core_topo_links, core_link. rewrite !list_elem_of_filter. tauto. }
  split; intros.
  - rewrite add_links_edge. simpl. rewrite has_edge_empty. setoid_rewrite Hcore.
    split; [intros [?|(l & [? ?] & ?)]; [done|by exists l]|intros (l & ? & ? & ?); right; by exists l].
  - rewrite add_links_node. simpl. rewrite has_node_empty. setoid_rewrite Hcore.
    split; [intros [?|(l & [? ?] & ?)]; [done|by exists l]|intros (l & ? & ? & ?); right; by exists l].
Qed.
End onos_graph.

(** ** A small network: a triangle, with the collector at a fourth switch *)

#[local] Open Scope string_scope.
Definition demo_link (u v : string) : Link := mkLink "DIRECT" u "1" v "2".
Definition demo_links : list Link :=
  [demo_link "of:1" "of:2"; demo_link "of:2" "of:1"; demo_link "of:2" "of:3"; demo_link "of:3" "of:1";
   demo_link "of:3" "of:9"; mkLink "EDGE" "of:1" "5" "host" "0"].
Definition demo_hosts : list Host :=
  [mkHost ["10.0.0.7"] [("of:1", "5")]; mkHost ["10.10.0.18"] [("of:9", "3")]].
Definition demo_api : OnosApi :=
  {| onos_links := Ok (200%Z, demo_links); onos_hosts := Ok (200%Z, demo_hosts) |}.

Lemma onos_graph_exact_witness :
  ∃ g : list_graph string, @build_onos_topo_graph demo_api _ _ = Ok g ∧
    nx_has_edge g "of:1" "of:3" = true ∧ nx_has_edge g "of:3" "of:9" = false.
Proof.
  destruct (@build_onos_topo_graph demo_api (list_graph string) _) as [g|e] eqn:Hg; [|by vm_compute in Hg].
  destruct (@onos_graph_exact (list_graph string) _ _ _ demo_api g demo_links "of:9") as [Hedge _].
  - reflexivity.
  - by vm_compute.
  - exact Hg.
  - exists g. split; [done|]. split.
    + apply Hedge. exists (demo_link "of:3" "of:1"). split; [|split].
      * apply (bool_decide_unpack _). by vm_compute.
      * done.
      * right. done.
    + vm_compute in Hg. injection Hg as <-. by vm_compute.
Defined.
#[local] Close Scope string_scope.

(** * Mapping the topology to the network *)

(** What networkx documents of the mapping of two isomorphic graphs. *)
Record is_isomorphism {GN GT} `{NxGraph string GN} `{NxGraph Z GT} (g1 : GN) (g2 : GT)
    (m : dict string Z) : Prop := {
  iso_wf : Dict.wf m;
  iso_inj : NoDup (Dict.values m);
  iso_target : ∀ y, nx_has_node g2 y = true ↔ y ∈ Dict.values m;
  iso_edge : ∀ x1 x2 y1 y2, (x1, y1) ∈ m → (x2, y2) ∈ m → nx_has_edge g1 x1 x2 = nx_has_edge g2 y1 y2
}.

Section mapping.
Context `{OnosApi} {GN GT : Type} `{NxGraph string GN} `{NxGraph Z GT}.
Variable graph_matcher : GN → GT → option (dict string Z).
Hypothesis matcher_ok : ∀ g1 g2 m, graph_matcher g1 g2 = Some m → is_isomorphism g1 g2 m.

Lemma invert_get m y x : Dict.wf m → NoDup (Dict.values m) → Dict.get (invert m) y = Some x ↔ (x, y) ∈ m.
Proof.
  intros Hwf Hinj. unfold invert. rewrite Dict.of_pairs_NoDup.
  2:{ rewrite <-list_fmap_compose. exact Hinj. }
  assert (Dict.wf ((λ kv : string * Z, (kv.2, kv.1)) <$> m)) as Hwf'.
  { unfold Dict.wf, Dict.keys. rewrite <-list_fmap_compose. exact Hinj. }
  split.
  - intros ([x' y'] & [= -> ->] & ?)%Dict.get_elem_of%list_elem_of_fmap. done.
  - intros Hin. apply Dict.elem_of_get; [done|]. apply list_elem_of_fmap. by exists (x, y).
Qed.

(** The two checks of flows agree. When the topology file parses and
    matches the network, and the paths visit only its nodes, checking the
    paths against the network and against the file both return, with the
    same set: the pairs of consecutive nodes that the file does not
    connect. *)
Theorem flow_checks_agree text (target : GT) id_to_dpid paths :
  build_graph_from_topo_string text = Ok target →
  get_and_validate_onos_topo graph_matcher text = Ok id_to_dpid →
  (∀ p u, p ∈ paths → u ∈ p → nx_has_node target u = true) →
  ∃ bad, verify_flows_against_nw_topo graph_matcher text paths = Ok bad ∧
    verify_flows_against_target_topo graph_matcher text paths = Ok bad ∧
    ∀ u v, (u, v) ∈ bad ↔ (∃ p, p ∈ paths ∧ (u, v) ∈ pairwise p) ∧ nx_has_edge target u v = false.
Proof.
  intros Ht Hid Hnodes. pose proof Hid as Hid2. unfold get_and_validate_onos_topo in Hid2.
  apply bind_Ok in Hid2 as (nw & Hnw & Hid2). rewrite Ht in Hid2. simpl in Hid2.
  apply bind_Ok in Hid2 as (m & Hm & [= <-]).
  unfold generate_graph_isomorphism in Hm. apply or_raise_Ok, matcher_ok in Hm as [Iwf Iinj Itar Iedge].
  unfold verify_flows_against_nw_topo, verify_flows_against_target_topo.
  rewrite Hnw, Ht, Hid. simpl.
  assert (∀ e, e ∈ path_edges paths ↔ ∃ p, p ∈ paths ∧ e ∈ pairwise p) as Hpe.
  { intros e. unfold path_edges. rewrite list_elem_of_bind. naive_solver. }
  exists (foldl (λ bad '(u, v), if nx_has_edge target u v then bad else set_add (u, v) bad) [] (path_edges paths)).
  assert (∀ u v, (u, v) ∈ path_edges paths → ∃ du dv, Dict.get (invert m) u = Some du ∧
    Dict.get (invert m) v = Some dv ∧ nx_has_edge nw du dv = nx_has_edge target u v) as Hget.
  { intros u v (p & Hp & [Hu Hv]%elem_of_pairwise)%Hpe.
    destruct (Dict.elem_of_values m u) as (du & Hdu); [apply Itar; by eapply Hnodes|].
    destruct (Dict.elem_of_values m v) as (dv & Hdv); [apply Itar; by eapply Hnodes|].
    exists du, dv. rewrite !invert_get by done. split_and!; [done..|]. by apply Iedge. }
  split_and!.
  - apply foldM_foldl. intros acc [u v] (du & dv & Hu & Hv & He)%Hget.
    rewrite (proj2 (Dict.getitem_Ok _ _ _) Hu), (proj2 (Dict.getitem_Ok _ _ _) Hv). simpl. by rewrite He.
  - apply foldM_foldl. intros acc [u v] (du & dv & Hu & Hv & He)%Hget.
    rewrite (proj2 (Dict.getitem_Ok _ _ _) Hu), (proj2 (Dict.getitem_Ok _ _ _) Hv). by case_match.
  - intros u v. rewrite <-Hpe. clear Hpe Hget.
    cut (∀ l acc, (u, v) ∈ foldl (λ bad '(u, v), if nx_has_edge target u v then bad else set_add (u, v) bad) acc l
      ↔ (u, v) ∈ acc ∨ ((u, v) ∈ l ∧ nx_has_edge target u v = false)).
    { intros ->. rewrite elem_of_nil. tauto. }
    induction l as [|[a b] l IH]; intros acc; cbn [foldl]; [rewrite elem_of_nil; tauto|].
    rewrite IH. destruct (nx_has_edge target a b) eqn:E; rewrite elem_of_cons, ?elem_of_set_add.
    + split; [naive_solver|]. intros [?|[[[= -> ->]|?] ?]]; [tauto|congruence|tauto].
    + split; [|naive_solver]. intros [[[= -> ->]|?]|?]; naive_solver.
Qed.
End mapping.

(** A matcher for the triangle: the identity of names, once the nodes and
    edges have been compared. *)
Definition demo_iso : dict string Z := [("of:1"%string, 1%Z); ("of:2"%string, 2%Z); ("of:3"%string, 3%Z)].
Definition demo_matcher (g1 : list_graph string) (g2 : list_graph Z) : option (dict string Z) :=
  if bool_decide (Forall (.∈ demo_iso.*2) (lg_nodes g2) ∧ Forall (.∈ lg_nodes g2) demo_iso.*2)
     && forallb (λ kv1, forallb (λ kv2,
          bool_decide (nx_has_edge g1 kv1.1 kv2.1 = nx_has_edge g2 kv1.2 kv2.2)) demo_iso) demo_iso
  then Some demo_iso else None.

Lemma demo_matcher_ok g1 g2 m : demo_matcher g1 g2 = Some m → is_isomorphism g1 g2 m.
Proof.
  unfold demo_matcher. destruct (_ && _) eqn:E; [|done]. intros [= <-].
  apply andb_true_iff in E as [[H1 H2]%bool_decide_eq_true Hall]. split.
  - apply (bool_decide_unpack _). by vm_compute.
  - apply (bool_decide_unpack _). by vm_compute.
  - intros y. simpl. rewrite bool_decide_eq_true. rewrite Forall_forall in H1, H2. by split; [apply H1|apply H2].
  - intros x1 x2 y1 y2 Hin1 Hin2. rewrite forallb_forall in Hall.
    specialize (Hall _ (proj1 (list_elem_of_In _ _) Hin1)). rewrite forallb_forall in Hall.
    specialize (Hall _ (proj1 (list_elem_of_In _ _) Hin2)). by apply bool_decide_eq_true in Hall.
Qed.

Definition demo_topo : string :=
  unlines ["3"; "3"; "1 2"; "2 3"; "3 1"]%string.

Lemma flow_checks_agree_witness :
  @verify_flows_against_nw_topo demo_api _ _ _ _ demo_matcher demo_topo [[1; 2; 3]; [2; 2]]%Z
  = Ok [(2, 2)]%Z.
Proof.
  destruct (@flow_checks_agree demo_api _ _ _ _ demo_matcher demo_matcher_ok demo_topo
    (mkListGraph [1; 2; 3] [(3, 1); (2, 3); (1, 2)])%Z
    [(1, "of:1"%string); (2, "of:2"%string); (3, "of:3"%string)]%Z
    [[1; 2; 3]; [2; 2]]%Z) as (bad & Hbad & _).
  - by vm_compute.
  - by vm_compute.
  - intros p u Hp Hu.
    assert (u ∈ [1; 2; 3]%Z) as Hin.
    { apply elem_of_cons in Hp as [->|[->|[]%not_elem_of_nil]%elem_of_cons]; revert u Hu;
        apply Forall_forall, (bool_decide_unpack _); by vm_compute. }
    by apply bool_decide_eq_true.
  - rewrite Hbad. vm_compute in Hbad. by injection Hbad as <-.
Defined.
