(* ===== verification/PortMirroring.v ===== *)
(** The data of the port mirroring trials (trials/port_mirroring_trial.py):
    flows with the egress port of every hop, switches with the flows of
    each port, the solutions, and their text files.

    After a trial has been mapped to the physical network its switches are
    named by datapath ids, so flows and solutions are parametric in the
    type [N] of switch names. *)

From Stdlib Require Import Ascii.
From S2P Require Import Prelude PyDict Groups PyStr PyFloat PyText.
Close Scope string_scope.

(** * Flows *)

Record PortMirroringFlow (N F : Type) : Type := mkPMFlow {
  pmf_flow_id : Z;
  pmf_traffic_rate : F;
  pmf_hops : list (N * Z)
}.
Arguments mkPMFlow {N F} _ _ _.
Arguments pmf_flow_id {N F} _.
Arguments pmf_traffic_rate {N F} _.
Arguments pmf_hops {N F} _.

(** The properties [path] and [ports]. *)
Definition pmf_path {N F} (f : PortMirroringFlow N F) : list N := (pmf_hops f).*1.
Definition pmf_ports {N F} (f : PortMirroringFlow N F) : list Z := (pmf_hops f).*2.

(** [path_to_str] *)
Definition path_to_str (path : list (Z * Z)) : string :=
  let s := foldl (λ s '(node_id, port_id),
             s +:+ (str_of_Z node_id +:+ String space (str_of_Z port_id +:+ str1 space)))
             EmptyString (but_last path) in
  match last path with
  | Some (node_id, port_id) => s +:+ (str_of_Z node_id +:+ String space (str_of_Z port_id))
  | None => s
  end.

(** [[(int(p[idx]), int(p[idx+1])) for idx in range(0, len(p)-1, 2)]] *)
Fixpoint int_pairs (path_str : list string) : res (list (Z * Z)) :=
  match path_str with
  | a :: b :: rest =>
      a ← int_of_str a; b ← int_of_str b; ps ← int_pairs rest; Ok ((a, b) :: ps)
  | _ => Ok []
  end.

Section files.
Context {F : Type} `{PyFloatText F}.

(** [PortMirroringFlow.serialize] *)
Definition pm_flow_serialize (flows : dict Z (PortMirroringFlow Z F)) : string :=
  foldl (λ s flow,
    s +:+ ((str_of_Z (pmf_flow_id flow) +:+ String space
      (fmt_f (pmf_traffic_rate flow) +:+ String space
        (path_to_str (zip (pmf_path flow) (pmf_ports flow))))) +:+ str1 newline))
    EmptyString (Dict.values flows).

(** [PortMirroringFlow.deserialize]: the solver writes the last switch
    without a port. *)
Definition pm_flow_deserialize (text : string) : res (dict Z (PortMirroringFlow Z F)) :=
  foldM (λ flows line,
    let tokens := str_split space line in
    match take 2 tokens with
    | [flow_id; traffic_rate] =>
        let path_str := drop 2 tokens in
        path ← int_pairs path_str;
        last_token ← py_index path_str (-1);
        last_node ← int_of_str last_token;
        flow_id ← int_of_str flow_id;
        traffic_rate ← float_of_str traffic_rate;
        Ok (Dict.set flows flow_id (mkPMFlow flow_id traffic_rate (path ++ [(last_node, 0%Z)])))
    | _ => Raise ValueError
    end) [] (splitlines text).

(** * Switches *)

Record SwitchPort : Type := mkSwitchPort {
  port_id : Z;
  flow_rate : F;
  flow_list : list Z
}.

Record PortMirroringSwitch : Type := mkPMSwitch {
  pms_switch_id : Z;
  pms_ports : list SwitchPort
}.

(** [get_port] and [rate_for_port]: the first port with the id. *)
Fixpoint find_port (ports : list SwitchPort) (id : Z) : res SwitchPort :=
  match ports with
  | [] => Raise ValueError
  | port :: ports => if bool_decide (port_id port = id) then Ok port else find_port ports id
  end.
Definition get_port (sw : PortMirroringSwitch) (id : Z) : res SwitchPort := find_port (pms_ports sw) id.
Definition rate_for_port (sw : PortMirroringSwitch) (id : Z) : res F := flow_rate <$> get_port sw id.

(** [flow_list_to_str] *)
Definition flow_list_to_str (l : list Z) : string :=
  let s := foldl (λ s flow_id, s +:+ (str_of_Z flow_id +:+ str1 space)) EmptyString (but_last l) in
  match last l with Some flow_id => s +:+ str_of_Z flow_id | None => s end.

(** [PortMirroringSwitch.serialize] *)
Definition pm_switch_serialize (switches : dict Z PortMirroringSwitch) : string :=
  foldl (λ s switch,
    foldl (λ s port,
      s +:+ ((str_of_Z (pms_switch_id switch) +:+ String space (str_of_Z (port_id port) +:+
        String space (fmt_f (flow_rate port) +:+ String space (flow_list_to_str (flow_list port)))))
        +:+ str1 newline))
      s (pms_ports switch))
    EmptyString (Dict.values switches).

(** [PortMirroringSwitch.deserialize] *)
Definition read_port_row (line : string) : res (Z * SwitchPort) :=
  let tokens := str_split space line in
  match take 3 tokens with
  | [switch_id; port_id; port_rate] =>
      switch_id ← int_of_str switch_id;
      port_id ← int_of_str port_id;
      port_rate ← float_of_str port_rate;
      flows ← mapR int_of_str (filter (λ t, t ≠ EmptyString) (drop 3 tokens));
      Ok (switch_id, mkSwitchPort port_id port_rate flows)
  | _ => Raise ValueError
  end.
Definition pm_switch_deserialize (text : string) : res (dict Z PortMirroringSwitch) :=
  ports ← foldM (λ ports line,
    row ← read_port_row line; Ok (append_to ports row.1 row.2)) [] (splitlines text);
  Ok (foldl (λ switches '(switch_id, ports),
        Dict.set switches switch_id (mkPMSwitch switch_id ports)) [] ports).
End files.
Arguments SwitchPort F : clear implicits.
Arguments PortMirroringSwitch F : clear implicits.

(** * Solutions *)

(** [PortMirroringSolution] and [RndPortMirroringSolution]: the latter has
    a coverage. *)
Record PortMirroringSolution (N F : Type) : Type := mkPMSolution {
  mirror_switch_id : N;
  mirror_switch_port : Z;
  objective_value : F;
  coverage : option F
}.
Arguments mkPMSolution {N F} _ _ _ _.
Arguments mirror_switch_id {N F} _.
Arguments mirror_switch_port {N F} _.
Arguments objective_value {N F} _.
Arguments coverage {N F} _.

Abbreviation solutions N F := (dict Z (list (PortMirroringSolution N F))).

Section solutions.
Context {F : Type} `{PyFloatText F}.

(** [PortMirroringSolution.serialize]; ["%f" % None] raises. *)
Definition pm_solution_serialize (sols : solutions Z F) : res string :=
  let '(s, objective) :=
    foldl (λ '(s, _) solution,
      (s +:+ ((str_of_Z (mirror_switch_id solution) +:+ String space
                (str_of_Z (mirror_switch_port solution))) +:+ str1 newline),
       Some (objective_value solution)))
      (EmptyString, None) (concat (Dict.values sols)) in
  objective ← or_raise TypeError objective;
  Ok (s +:+ fmt_f objective).

(** One row per mirrored port. *)
Definition read_solution_row (objective : F) (cover : option F) (acc : solutions Z F) (line : string)
    : res (solutions Z F) :=
  match str_split space line with
  | [switch_id; port_id] =>
      switch_id ← int_of_str switch_id;
      port_id ← int_of_str port_id;
      Ok (append_to acc switch_id (mkPMSolution switch_id port_id objective cover))
  | _ => Raise ValueError
  end.

(** [PortMirroringSolution.deserialize] *)
Definition pm_solution_deserialize (text : string) : res (solutions Z F) :=
  let lines := splitlines text in
  last_line ← py_index lines (-1);
  objective ← float_of_str last_line;
  foldM (read_solution_row objective None) [] (but_last lines).

(** [RndPortMirroringSolution.serialize]: the inner loop is over an
    undefined name; without solutions the objective is [None]. *)
Definition rnd_solution_serialize (rnd_solutions : solutions Z F) : res string :=
  match rnd_solutions with
  | [] => Raise TypeError
  | _ :: _ => Raise NameError
  end.

(** [RndPortMirroringSolution.deserialize] *)
Definition rnd_solution_deserialize (text : string) : res (solutions Z F) :=
  let lines := splitlines text in
  objective_line ← py_index lines (-2);
  objective ← float_of_str objective_line;
  coverage_line ← py_index lines (-1);
  cover ← float_of_str coverage_line;
  foldM (read_solution_row objective (Some cover)) [] (take (length lines - 2) lines).
End solutions.
