(* ===== verification/PortMirroringProps.v ===== *)
(** The port mirroring files: what is read back from what was written. *)

From Stdlib Require Import Ascii QArith Qcanon.
From S2P Require Import Prelude PyDict Groups PyStr PyFloat PyText TextRows PortMirroring.
#[local] Arguments String.append !_ _ / : simpl nomatch.
Close Scope Qc_scope.
Close Scope Q_scope.
Close Scope string_scope.

(** * Paths with ports *)

Definition hop_words (hops : list (Z * Z)) : list string :=
  concat ((λ np, [str_of_Z np.1; str_of_Z np.2]) <$> hops).

Lemma hop_words_ok hops : Forall (λ w, word w = true) (hop_words hops).
Proof. unfold hop_words. induction hops as [|[n p] hops IH]; simpl; auto with testbed. Qed.

Lemma hop_words_app a b : hop_words (a ++ b) = hop_words a ++ hop_words b.
Proof. unfold hop_words. by rewrite fmap_app, concat_app. Qed.

Lemma path_to_str_join hops : path_to_str hops = join_words (hop_words hops).
Proof.
  destruct hops as [|[n p] hops _] using rev_ind; [done|]. unfold path_to_str.
  rewrite but_last_snoc, last_snoc.
  cut (∀ s, foldl (λ s '(node_id, port_id),
      s +:+ (str_of_Z node_id +:+ String space (str_of_Z port_id +:+ str1 space))) s hops
      +:+ (str_of_Z n +:+ String space (str_of_Z p)) = s +:+ join_words (hop_words (hops ++ [(n, p)])));
    [intros Hc; apply Hc|].
  induction hops as [|[a b] hops IH]; intros s; [done|]. cbn [foldl]. rewrite IH.
  change (hop_words (((a, b) :: hops) ++ [(n, p)]))
    with (str_of_Z a :: str_of_Z b :: hop_words (hops ++ [(n, p)])).
  rewrite (join_words_cons (str_of_Z a)), (join_words_cons (str_of_Z b)).
  - rewrite !str_app_assoc. cbn [String.append]. by rewrite !str_app_assoc.
  - rewrite hop_words_app. by destruct (hop_words hops).
  - done.
Qed.

Lemma int_pairs_hops hops rest :
  length rest ≤ 1 → int_pairs (hop_words hops ++ rest) = Ok hops.
Proof.
  intros Hrest. induction hops as [|[n p] hops IH]; [by destruct rest as [|? [|? ?]]; simpl in *; try lia|].
  change (hop_words ((n, p) :: hops) ++ rest) with (str_of_Z n :: str_of_Z p :: (hop_words hops ++ rest)).
  cbn [int_pairs]. rewrite !int_of_str_of_Z. cbn [mbind res_bind]. by rewrite IH.
Qed.

Section flows.
Context {F : Type} `{PyFloatText F}.

Definition pm_flow_words (f : PortMirroringFlow Z F) (ws : list string) : list string :=
  str_of_Z (pmf_flow_id f) :: fmt_f (pmf_traffic_rate f) :: ws.

(** One row of the flows file. *)
Definition reads_row (ws : list string) (kf' : Z * PortMirroringFlow Z F) : Prop :=
  ∃ f ts n z body, ws = pm_flow_words f (ts ++ [n]) ∧ Forall (λ w, word w = true) (ts ++ [n]) ∧
    int_of_str n = Ok z ∧ int_pairs (ts ++ [n]) = Ok body ∧
    reread (pmf_traffic_rate f) = Ok (pmf_traffic_rate kf'.2) ∧
    kf' = (pmf_flow_id f, mkPMFlow (pmf_flow_id f) (pmf_traffic_rate kf'.2) (body ++ [(z, 0%Z)])).

Lemma pm_flow_deserialize_rows (rows : list (list string)) flows' :
  Forall2 reads_row rows flows' → Dict.wf flows' →
  pm_flow_deserialize (unlines (join_words <$> rows)) = Ok flows'.
Proof.
  intros Hrows Hwf. assert (Forall (Forall (λ w, word w = true)) rows) as Hws.
  { clear Hwf. induction Hrows as [|ws kf' rows flows' (f & ts & n & z & body & -> & Hn & _) _ IH]; constructor; [|done].
    unfold pm_flow_words. by constructor; [auto with testbed|]; constructor; [auto with testbed|]. }
  unfold pm_flow_deserialize. rewrite <-(str_app_nil_r (unlines _)), splitlines_rows by done.
  cbn [splitlines]. rewrite app_nil_r. apply foldM_rows; [|done].
  apply Forall2_fmap_l. apply Forall2_same_length_lookup_2; [by eapply Forall2_length|].
  intros i ws kf' Hi Hi' d.
  pose proof (Forall2_lookup_lr _ _ _ _ _ _ Hrows Hi Hi') as (f & ts & n & z & body & -> & Hn & Hz & Hb & Hr & Hf).
  rewrite split_join_words by (done || by eapply (Forall_lookup_1 _ _ _ _ Hws)).
  unfold pm_flow_words. cbn [take drop]. rewrite drop_0, Hb. cbn [mbind res_bind].
  rewrite py_index_last_snoc. cbn [mbind res_bind]. rewrite Hz. cbn [mbind res_bind].
  rewrite int_of_str_of_Z. cbn [mbind res_bind]. unfold reread in Hr. rewrite Hr. cbn [mbind res_bind].
  rewrite Hf. done.
Qed.

(** The row the solver writes for a flow: every hop but the last with its
    egress port. *)
Definition solver_row (kf : Z * PortMirroringFlow Z F) : list string :=
  pm_flow_words kf.2 (hop_words (but_last (pmf_hops kf.2)) ++
    match last (pmf_hops kf.2) with Some np => [str_of_Z np.1] | None => [] end).

(** The solver's flows file is parsed faithfully: from the rows of a
    table of flows (non-empty paths that end with port 0, indexed by flow
    id) [deserialize] rebuilds the table, hop by hop and port by port, with
    each rate to six decimals. *)
Theorem pm_flow_parse flows flows' :
  Dict.wf flows →
  Forall2 (λ kf kf', pmf_flow_id kf.2 = kf.1 ∧ kf'.1 = kf.1 ∧ pmf_flow_id kf'.2 = kf.1 ∧
    (∃ n, last (pmf_hops kf.2) = Some (n, 0%Z)) ∧ pmf_hops kf'.2 = pmf_hops kf.2 ∧
    reread (pmf_traffic_rate kf.2) = Ok (pmf_traffic_rate kf'.2)) flows flows' →
  pm_flow_deserialize (unlines (join_words <$> (solver_row <$> flows))) = Ok flows'.
Proof.
  intros Hwf Hst. apply pm_flow_deserialize_rows.
  - apply Forall2_fmap_l. eapply Forall2_impl; [exact Hst|].
    intros [k f] [k' [i' r' h']] (? & ? & ? & (n & Hn) & Hh & Hr). cbn [fst snd pmf_flow_id pmf_hops] in *.
    apply last_Some in Hn as [body Hb]. unfold compose, solver_row. cbn [snd].
    rewrite Hb, but_last_snoc, last_snoc. cbn [fst]. exists f, (hop_words body), (str_of_Z n), n, body.
    rewrite int_of_str_of_Z, int_pairs_hops by done. split_and!; [done| |done..|].
    + apply Forall_app. pose proof (hop_words_ok body). auto with testbed.
    + simpl. congruence.
  - unfold Dict.wf, Dict.keys in *. replace (flows'.*1) with (flows.*1); [done|]. clear Hwf.
    induction Hst as [|x y l l' (_ & ? & _) Hst IH]; [done|]. rewrite !fmap_cons. by f_equal.
Qed.

(** What reading the repository's own flows file gives: a hop too many,
    whose switch is the last port. *)
Definition extra_hop (f : PortMirroringFlow Z F) : PortMirroringFlow Z F :=
  mkPMFlow (pmf_flow_id f) (pmf_traffic_rate f)
    (pmf_hops f ++ [(default 0%Z (snd <$> last (pmf_hops f)), 0%Z)]).

Lemma pm_flow_serialize_rows flows :
  pm_flow_serialize flows
  = unlines (join_words <$> ((λ kf, pm_flow_words kf.2 (hop_words (pmf_hops kf.2))) <$> flows))
  ∨ Exists (λ kf, pmf_hops kf.2 = []) flows.
Proof.
  destruct (decide (Exists (λ kf, pmf_hops kf.2 = []) flows)) as [|Hne]; [by right|left].
  apply not_Exists_Forall in Hne; [|intros; apply _]. unfold pm_flow_serialize.
  assert (∀ l s, Forall (λ f : PortMirroringFlow Z F, pmf_hops f ≠ []) l → foldl (λ s flow,
    s +:+ ((str_of_Z (pmf_flow_id flow) +:+ String space
      (fmt_f (pmf_traffic_rate flow) +:+ String space
        (path_to_str (zip (pmf_path flow) (pmf_ports flow))))) +:+ str1 newline)) s l
    = s +:+ unlines ((λ f, join_words (pm_flow_words f (hop_words (pmf_hops f)))) <$> l)) as Hf.
  { induction l as [|f l IH]; intros s Hl; [simpl; by rewrite str_app_nil_r|].
    apply Forall_cons in Hl as [Hne' Hl]. cbn [foldl]. rewrite IH by done. rewrite fmap_cons.
    cbn [unlines foldr]. unfold pmf_path, pmf_ports. rewrite zip_fst_snd, path_to_str_join.
    unfold pm_flow_words at 2.
    rewrite !join_words_cons by (done || destruct (pmf_hops f) as [|[] ?]; done).
    rewrite !str_app_assoc. cbn [String.append]. by rewrite !str_app_assoc. }
  rewrite Hf by (by apply Forall_fmap). unfold Dict.values. by rewrite <-!list_fmap_compose.
Qed.

Lemma pm_flow_roundtrip_adds_hop flows :
  Dict.wf flows →
  Forall (λ kf, pmf_flow_id kf.2 = kf.1 ∧ pmf_hops kf.2 ≠ [] ∧
    reread (pmf_traffic_rate kf.2) = Ok (pmf_traffic_rate kf.2)) flows →
  pm_flow_deserialize (pm_flow_serialize flows) = Ok ((λ kf, (kf.1, extra_hop kf.2)) <$> flows).
Proof.
  intros Hwf Hst. destruct (pm_flow_serialize_rows flows) as [->|He].
  2:{ exfalso. apply Exists_exists in He as (kf & Hin & Hnil). rewrite Forall_forall in Hst.
      by destruct (Hst kf Hin) as (_ & ? & _). }
  apply pm_flow_deserialize_rows.
  - apply Forall2_fmap, Forall_Forall2_diag. eapply Forall_impl; [exact Hst|].
    intros [k f] (Hid & Hne & Hr). cbn [fst snd] in *.
    destruct (pmf_hops f) as [|[n p] body _] eqn:Hb using rev_ind; [done|].
    exists f, (hop_words body ++ [str_of_Z n]), (str_of_Z p), p, (body ++ [(n, p)]).
    assert (hop_words (body ++ [(n, p)]) = (hop_words body ++ [str_of_Z n]) ++ [str_of_Z p]) as Hw
      by (by rewrite hop_words_app, <-(assoc_L (++))).
    rewrite Hw, <-Hw. split_and!; [done|apply hop_words_ok|apply int_of_str_of_Z| |done|].
    + rewrite <-(app_nil_r (hop_words _)). apply int_pairs_hops. simpl. lia.
    + unfold extra_hop. simpl. rewrite Hb, last_snoc. simpl. by rewrite Hid.
  - unfold Dict.wf, Dict.keys in *. by rewrite <-list_fmap_compose.
Qed.
End flows.

Lemma pm_flow_parse_witness :
  let flows := [(3%Z, mkPMFlow 3 (flit (F := Qc) 250000 1000000) [(1, 4); (2, 6); (7, 0)]%Z);
                (5%Z, mkPMFlow 5 (flit (F := Qc) 1 1000000) [(2, 0)]%Z)] in
  pm_flow_deserialize (unlines (join_words <$> (solver_row <$> flows))) = Ok flows.
Proof.
  intros flows. apply (pm_flow_parse flows flows).
  - apply (bool_decide_unpack _). by vm_compute.
  - constructor; [|constructor; [|constructor]];
      (split_and!; [done..|by eexists|done|apply reread_micros]).
Defined.

(** * Rows grouped by switch *)

Definition grouped_rows {A} (d : dict Z (list A)) : list (Z * A) :=
  concat ((λ kl : Z * list A, (λ x, (kl.1, x)) <$> kl.2) <$> d).

Lemma append_group {A} (d : dict Z (list A)) k l x :
  Dict.get d k = None →
  foldl (λ d kx, append_to d kx.1 kx.2) (d ++ [(k, l)]) ((λ y, (k, y)) <$> x) = d ++ [(k, l ++ x)].
Proof.
  intros Hk. revert l. induction x as [|y x IH]; intros l; [by rewrite app_nil_r|].
  rewrite fmap_cons. cbn [foldl fst snd]. unfold append_to at 2.
  assert (∀ l' : list A, Dict.get (d ++ [(k, l')]) k = Some l' ∧
    ∀ l'', Dict.set (d ++ [(k, l')]) k l'' = d ++ [(k, l'')]) as Hd.
  { clear IH. intros l'. induction d as [|[k1 l1] d IHd]; simpl in *; [by case_decide|].
    case_decide; [done|]. destruct (IHd Hk) as [-> Hs]. split; [done|]. intros l''. by rewrite Hs. }
  destruct (Hd l) as [Hg Hs]. unfold Dict.get_default. rewrite Hg, Hs. simpl. rewrite IH.
  by rewrite <-(assoc_L (++)).
Qed.

(** Appending the rows of a table one by one rebuilds it. *)
Lemma append_groups {A} (d : dict Z (list A)) :
  Dict.wf d → Forall (λ kl, kl.2 ≠ []) d →
  foldl (λ d kx, append_to d kx.1 kx.2) [] (grouped_rows d) = d.
Proof.
  unfold Dict.wf, Dict.keys. cut (∀ acc : dict Z (list A), NoDup (acc.*1 ++ d.*1) → Forall (λ kl, kl.2 ≠ []) d →
    foldl (λ d kx, append_to d kx.1 kx.2) acc (grouped_rows d) = acc ++ d);
    [intros Hc ??; by apply (Hc [])|].
  induction d as [|[k l] d IH]; intros acc Hnd Hne; [by rewrite app_nil_r|].
  apply Forall_cons in Hne as [Hl Hne]. simpl in Hl. destruct l as [|x l]; [done|].
  assert (Dict.get acc k = None) as Hk.
  { apply Dict.get_None. apply NoDup_app in Hnd as (_ & Hd & _). intros Hin.
    apply (Hd k Hin). rewrite fmap_cons. left. }
  unfold grouped_rows. rewrite fmap_cons. cbn [concat fst snd]. rewrite fmap_cons, foldl_app.
  cbn [foldl fst snd]. unfold append_to at 3. unfold Dict.get_default. rewrite Hk. simpl.
  rewrite Dict.set_new, append_group by done. fold (grouped_rows d). rewrite IH.
  - by rewrite <-(assoc_L (++)).
  - rewrite fmap_app, <-(assoc_L (++)). done.
  - done.
Qed.

Section switches.
Context {F : Type} `{PyFloatText F}.

Lemma flow_list_to_str_join l : flow_list_to_str l = join_words (str_of_Z <$> l).
Proof.
  destruct l as [|x l _] using rev_ind; [done|]. unfold flow_list_to_str.
  rewrite but_last_snoc, last_snoc. by rewrite foldl_words.
Qed.

(** The tokens of a row: without flows the row ends with a blank. *)
Definition port_words (kp : Z * SwitchPort F) : list string :=
  str_of_Z kp.1 :: str_of_Z (port_id kp.2) :: fmt_f (flow_rate kp.2) ::
  match flow_list kp.2 with [] => [EmptyString] | l => str_of_Z <$> l end.

Lemma port_words_ok kp : Forall (λ w, word w = true) (port_words kp).
Proof.
  unfold port_words. repeat (constructor; [auto with testbed|]).
  destruct (flow_list kp.2); [by constructor|auto with testbed].
Qed.

Lemma port_row_text k (p : SwitchPort F) :
  str_of_Z k +:+ String space (str_of_Z (port_id p) +:+
    String space (fmt_f (flow_rate p) +:+ String space (flow_list_to_str (flow_list p))))
  = join_words (port_words (k, p)).
Proof.
  rewrite flow_list_to_str_join. unfold port_words. cbn [fst snd].
  rewrite !(join_words_cons) by (done || by destruct (flow_list p)).
  by destruct (flow_list p).
Qed.

Lemma read_port_row_words k (p : SwitchPort F) :
  reread (flow_rate p) = Ok (flow_rate p) → read_port_row (join_words (port_words (k, p))) = Ok (k, p).
Proof.
  intros Hr. unfold read_port_row. rewrite split_join_words by (done || apply port_words_ok).
  unfold port_words. cbn [take drop fst snd]. rewrite !int_of_str_of_Z. cbn [mbind res_bind].
  unfold reread in Hr. rewrite Hr. cbn [mbind res_bind].
  assert (mapR int_of_str (filter (λ t, t ≠ EmptyString)
    match flow_list p with [] => [EmptyString] | l => str_of_Z <$> l end) = Ok (flow_list p)) as Hfl.
  { destruct (flow_list p) as [|z l]; [done|]. rewrite filter_all; [apply mapR_int_of_str|].
    apply Forall_fmap, Forall_true. intros x. apply str_of_Z_ne. }
  rewrite take_0, drop_0. rewrite Hfl. by destruct p.
Qed.

(** The rows of a table of switches. *)
Definition switch_rows (switches : dict Z (PortMirroringSwitch F)) : list (Z * SwitchPort F) :=
  grouped_rows ((λ ks, (ks.1, pms_ports ks.2)) <$> switches).

Lemma pm_switch_serialize_rows switches :
  Forall (λ ks, pms_switch_id ks.2 = ks.1) switches →
  pm_switch_serialize switches = unlines (join_words <$> (port_words <$> switch_rows switches)).
Proof.
  intros Hid. rewrite <-list_fmap_compose. unfold pm_switch_serialize, Dict.values.
  cut (∀ s, foldl (λ s switch,
    foldl (λ s port,
      s +:+ ((str_of_Z (pms_switch_id switch) +:+ String space (str_of_Z (port_id port) +:+
        String space (fmt_f (flow_rate port) +:+ String space (flow_list_to_str (flow_list port)))))
        +:+ str1 newline))
      s (pms_ports switch)) s switches.*2 = s +:+ unlines (join_words ∘ port_words <$> switch_rows switches));
    [intros Hc; apply Hc|].
  induction Hid as [|[k sw] switches Hk Hid IH]; intros s; [simpl; by rewrite str_app_nil_r|].
  rewrite fmap_cons. cbn [foldl snd]. rewrite IH. unfold switch_rows. rewrite fmap_cons.
  unfold grouped_rows at 2. rewrite fmap_cons. cbn [concat fst snd]. fold (grouped_rows ((λ ks, (ks.1, pms_ports ks.2)) <$> switches)).
  rewrite (fmap_app (join_words ∘ port_words)), unlines_app, <-str_app_assoc. f_equal.
  simpl in Hk. rewrite <-list_fmap_compose.
  rewrite <-(foldl_append ((join_words ∘ port_words) ∘ (λ x, (k, x)))).
  apply foldl_ext_in. intros b p _. simpl. rewrite Hk. by rewrite port_row_text.
Qed.

Lemma read_port_rows acc rows :
  (∀ kp, kp ∈ rows → reread (flow_rate kp.2) = Ok (flow_rate kp.2)) →
  foldM (λ ports line, row ← read_port_row line; Ok (append_to ports row.1 row.2)) acc
    (join_words ∘ port_words <$> rows) = Ok (foldl (λ d kx, append_to d kx.1 kx.2) acc rows).
Proof.
  revert acc. induction rows as [|[k p] rows IH]; intros acc Hr; [done|].
  rewrite fmap_cons. cbn [foldM foldl].
  change ((join_words ∘ port_words) (k, p)) with (join_words (port_words (k, p))).
  rewrite read_port_row_words by (apply (Hr (k, p)); left).
  cbn [mbind res_bind]. apply IH. intros; apply Hr; by right.
Qed.

(** The switches file is read back as it was written: [deserialize]
    after [serialize] is the identity on tables of switches that each have
    a port, with rates of at most six decimals; the rows of one switch are
    gathered again, in order, also for ports that carry no flow. *)
Theorem pm_switch_file_roundtrip switches :
  Dict.wf switches →
  Forall (λ ks, pms_switch_id ks.2 = ks.1 ∧ pms_ports ks.2 ≠ [] ∧
    Forall (λ p, reread (flow_rate p) = Ok (flow_rate p)) (pms_ports ks.2)) switches →
  pm_switch_deserialize (pm_switch_serialize switches) = Ok switches.
Proof.
  intros Hwf Hsw. rewrite pm_switch_serialize_rows by (eapply Forall_impl; [exact Hsw|]; by intros ? [? _]).
  unfold pm_switch_deserialize. rewrite <-(str_app_nil_r (unlines _)), splitlines_rows
    by (apply Forall_fmap, Forall_true, port_words_ok).
  cbn [splitlines]. rewrite app_nil_r, <-list_fmap_compose.
  set (groups := (λ ks, (ks.1, pms_ports ks.2)) <$> switches).
  rewrite read_port_rows.
  2:{ intros [k p] (g & Hg & Hin)%list_elem_of_In%in_concat.
      apply list_elem_of_In, list_elem_of_fmap in Hg as ([k' ps] & -> & Hg). apply list_elem_of_In in Hin.
      apply list_elem_of_fmap in Hin as (p' & [= -> ->] & Hp). apply list_elem_of_fmap in Hg as (ks & [= -> ->] & Hks).
      rewrite Forall_forall in Hsw. destruct (Hsw ks Hks) as (_ & _ & Hall). rewrite Forall_forall in Hall.
      by apply Hall. }
  cbn [mbind res_bind]. unfold switch_rows. fold groups. rewrite append_groups.
  - f_equal. transitivity (Dict.of_pairs ((λ kl : Z * list (SwitchPort F), (kl.1, mkPMSwitch kl.1 kl.2)) <$> groups)).
    { unfold Dict.of_pairs. rewrite foldl_fmap. apply foldl_ext_in. by intros ? [? ?] _. }
    unfold groups. rewrite <-list_fmap_compose.
    assert ((λ ks : Z * PortMirroringSwitch F, (ks.1, mkPMSwitch ks.1 (pms_ports ks.2))) <$> switches = switches) as Heq.
    { clear Hwf groups. induction Hsw as [|[k [i ps]] l (Hi & _) Hl IH]; [done|]. simpl in Hi. rewrite fmap_cons, IH. by subst. }
    change (_ ∘ _) with (λ ks : Z * PortMirroringSwitch F, (ks.1, mkPMSwitch ks.1 (pms_ports ks.2))).
    rewrite Heq. by apply Dict.of_pairs_NoDup.
  - unfold Dict.wf, Dict.keys, groups in *. by rewrite <-list_fmap_compose.
  - apply Forall_fmap. eapply Forall_impl; [exact Hsw|]. by intros ? (_ & ? & _).
Qed.
End switches.

Lemma pm_switch_file_roundtrip_witness :
  let r := flit (F := Qc) 300000 1000000 in
  let switches := [(1%Z, mkPMSwitch 1 [mkSwitchPort 2 r [4; 5]%Z; mkSwitchPort 3 r []]);
                   (6%Z, mkPMSwitch 6 [mkSwitchPort 1 r [4]%Z])] in
  pm_switch_deserialize (pm_switch_serialize switches) = Ok switches.
Proof.
  intros r switches. apply pm_switch_file_roundtrip.
  - apply (bool_decide_unpack _). by vm_compute.
  - repeat constructor; simpl; (done || apply reread_micros).
Defined.

Section solutions.
Context {F : Type} `{PyFloatText F}.

Definition pm_solution_words (s : PortMirroringSolution Z F) : list string :=
  [str_of_Z (mirror_switch_id s); str_of_Z (mirror_switch_port s)].

Lemma pm_solution_serialize_text (sols : solutions Z F) o :
  Forall (λ s, objective_value s = o) (concat (Dict.values sols)) → concat (Dict.values sols) ≠ [] →
  pm_solution_serialize sols =
    Ok (unlines (join_words <$> (pm_solution_words <$> concat (Dict.values sols))) +:+ fmt_f o).
Proof.
  unfold pm_solution_serialize. generalize (concat (Dict.values sols)) as l. intros l Ho Hne.
  rewrite <-list_fmap_compose.
  assert (∀ vs s oo, Forall (λ v, objective_value v = o) vs →
    foldl (λ '(s, _) solution,
      (s +:+ ((str_of_Z (mirror_switch_id solution) +:+ String space
                (str_of_Z (mirror_switch_port solution))) +:+ str1 newline),
       Some (objective_value solution))) (s, oo) vs
    = (s +:+ unlines (join_words ∘ pm_solution_words <$> vs), match vs with [] => oo | _ => Some o end)) as Hf.
  { induction vs as [|v vs IH]; intros s oo Hvs; [simpl; by rewrite str_app_nil_r|].
    apply Forall_cons in Hvs as [Hv Hvs]. cbn [foldl]. rewrite IH by done. rewrite fmap_cons, Hv.
    cbn [unlines foldr]. unfold compose at 2, pm_solution_words at 2. cbn [join_words].
    rewrite !str_app_assoc. by destruct vs. }
  rewrite Hf by done. cbn [String.append]. by destruct l.
Qed.

(** The solutions of a file: one objective, switches as keys. *)
Definition file_solutions (o : F) (cover : option F) (sols : solutions Z F) : Prop :=
  Forall (λ kl, kl.2 ≠ [] ∧ Forall (λ s, mirror_switch_id s = kl.1 ∧ objective_value s = o ∧
    coverage s = cover) kl.2) sols.

Lemma read_solution_row_words (o : F) cover acc k p :
  read_solution_row o cover acc (join_words (pm_solution_words (mkPMSolution k p o cover)))
  = Ok (append_to acc k (mkPMSolution k p o cover)).
Proof.
  unfold read_solution_row. rewrite split_join_words by (done || unfold pm_solution_words; auto with testbed).
  unfold pm_solution_words. cbn [mirror_switch_id mirror_switch_port]. by rewrite !int_of_str_of_Z.
Qed.

Lemma read_solution_rows o cover (sols : solutions Z F) :
  Dict.wf sols → file_solutions o cover sols →
  foldM (read_solution_row o cover) [] (join_words ∘ pm_solution_words <$> concat (Dict.values sols)) = Ok sols.
Proof.
  intros Hwf Hs. assert (concat (Dict.values sols) = snd <$> grouped_rows sols) as ->.
  { unfold grouped_rows, Dict.values. rewrite fmap_concat. f_equal. rewrite <-list_fmap_compose.
    apply list_fmap_ext. intros i [k l] _. simpl. rewrite <-list_fmap_compose. by rewrite list_fmap_id. }
  rewrite <-list_fmap_compose.
  rewrite <-(append_groups sols) at 2; [|done|by eapply Forall_impl; [exact Hs|]; intros ? [? _]].
  assert (∀ kx, kx ∈ grouped_rows sols → ∃ p, kx = (kx.1, mkPMSolution kx.1 p o cover)) as Hall.
  { intros [k x] (g & Hg & Hin)%list_elem_of_In%in_concat.
    apply list_elem_of_In, list_elem_of_fmap in Hg as ([k' l] & -> & Hg). apply list_elem_of_In in Hin.
    apply list_elem_of_fmap in Hin as (x' & [= -> ->] & Hx). unfold file_solutions in Hs. rewrite Forall_forall in Hs.
    destruct (Hs _ Hg) as [_ Hl]. rewrite Forall_forall in Hl. destruct (Hl _ Hx) as (? & ? & ?).
    exists (mirror_switch_port x'). destruct x'; simpl in *. by subst. }
  generalize (@nil (Z * list (PortMirroringSolution Z F))). revert Hall.
  induction (grouped_rows sols) as [|[k x] rows IH]; intros Hall acc; [done|]. rewrite fmap_cons.
  cbn [foldM foldl]. destruct (Hall (k, x)) as [p Hp]; [left|]. cbn [fst] in Hp. injection Hp as ->.
  change (((join_words ∘ pm_solution_words) ∘ snd) (k, mkPMSolution k p o cover))
    with (join_words (pm_solution_words (mkPMSolution k p o cover))).
  rewrite read_solution_row_words.
  cbn [mbind res_bind]. apply IH. intros; apply Hall; by right.
Qed.

(** The solutions file is read back as it was written: for a non-empty
    table of mirrored ports, grouped by switch, with one objective of at
    most six decimals, [deserialize] after [serialize] is the identity. *)
Theorem pm_solution_file_roundtrip (sols : solutions Z F) o :
  Dict.wf sols → sols ≠ [] → reread o = Ok o → file_solutions o None sols →
  (pm_solution_serialize sols ≫= λ text, pm_solution_deserialize text) = Ok sols.
Proof.
  intros Hwf Hne Ho Hs. rewrite (pm_solution_serialize_text sols o).
  - cbn [mbind res_bind]. unfold pm_solution_deserialize.
    rewrite splitlines_rows by (apply Forall_fmap, Forall_true; intros; unfold pm_solution_words; auto with testbed).
    rewrite (splitlines_last (fmt_f o)) by (apply fmt_f_ne || apply word_one_line, word_fmt_f).
    rewrite py_index_last_snoc. cbn [mbind res_bind]. unfold reread in Ho. rewrite Ho.
    cbn [mbind res_bind]. rewrite but_last_snoc, <-list_fmap_compose. by apply read_solution_rows.
  - apply Forall_forall. intros s (l & Hl & Hin)%list_elem_of_In%in_concat.
    apply list_elem_of_In, Dict.elem_of_values in Hl as [k Hk]. apply list_elem_of_In in Hin.
    unfold file_solutions in Hs. rewrite Forall_forall in Hs. destruct (Hs _ Hk) as [_ Hl].
    rewrite Forall_forall in Hl. by apply Hl.
  - destruct sols as [|[k l] sols]; [done|]. apply Forall_cons in Hs as [[Hl _] _]. simpl in Hl.
    unfold Dict.values. rewrite fmap_cons. cbn [concat snd]. by destruct l.
Qed.

(** The serialiser of the random solutions never returns. *)
Lemma rnd_serialize_raises (sols : solutions Z F) : is_ok (rnd_solution_serialize sols) = false.
Proof. by destruct sols. Qed.
End solutions.

Lemma pm_solution_file_roundtrip_witness :
  let o := flit (F := Qc) 4250000 1000000 in
  let sols := [(2%Z, [mkPMSolution 2 1 o None; mkPMSolution 2 3 o None]); (5%Z, [mkPMSolution 5 4 o None])]%Z in
  (pm_solution_serialize sols ≫= λ text, pm_solution_deserialize text) = Ok sols.
Proof.
  intros o sols. apply (pm_solution_file_roundtrip sols o).
  - apply (bool_decide_unpack _). by vm_compute.
  - done.
  - apply reread_micros.
  - by repeat constructor.
Defined.
