(* ===== verification/OnosHelpers.v ===== *)
(** The requests that install and remove mirroring rules
    (port_mirroring/onos_rest_helpers.py).

    The controller's REST endpoints are parameters: what a POST answers,
    and how it changes the controller, is stated by the hypotheses of the
    theorems that need it. *)

From S2P Require Import Prelude PyDict Groups PyFloat TopoMapper FlowMirroring PortMirroring.

(** The bodies of the requests. *)
Record FlowMirrorRequest : Type := mkFlowMirrorRequest {
  fmr_mirrorSwitch : string;
  fmr_tagValue : Z;
  fmr_nodes : list string
}.

Record PortMirrorRequest : Type := mkPortMirrorRequest {
  pmr_nodes : list string;
  pmr_portNumbers : list Z;
  pmr_tagValue : Z;
  pmr_mirroredPorts : dict string (list Z)
}.

(** switch id -> port id -> port number *)
Abbreviation port_table := (dict Z (dict Z Z)).

(** [d[k]] on a [defaultdict(dict)]: a missing key is stored. *)
Definition default_get (d : port_table) (k : Z) : port_table * dict Z Z :=
  match Dict.get d k with
  | Some v => (d, v)
  | None => (Dict.set d k [], [])
  end.

(** [d[i][j]]: the entry that [d[i]] stores is empty, so the second lookup
    raises whether or not the first finds the key. *)
Definition port_number (d : port_table) (i j : Z) : res Z :=
  Dict.getitem (default_get d i).2 j.

(** Python compares dictionaries as maps. *)
Definition same_dict (d1 d2 : dict Z Z) : bool := bool_decide (Dict.to_map d1 = Dict.to_map d2).

Definition create_path_json (id_to_dpid : dict Z string) (path : list Z) : res (list string) :=
  mapR (Dict.getitem id_to_dpid) path.

Section helpers.
Context {F : Type} `{OnosApi}.

(** ** Checks *)

(** The check of one mirrored port against one hop of a flow. *)
Definition check_hop (id_to_dpid : dict Z string) (mirrored_dpid : string) (mirrored_port : dict Z Z)
    (flow_id : Z) (acc : list Z * port_table) (hop : Z * Z) : res (list Z * port_table) :=
  let '(mirrored_flow_ids, table) := acc in
  flow_dpid ← Dict.getitem id_to_dpid hop.1;
  let '(table, actual_port) := default_get table hop.2 in
  Ok (if same_dict actual_port mirrored_port && bool_decide (flow_dpid = mirrored_dpid)
      then set_add flow_id mirrored_flow_ids else mirrored_flow_ids, table).

(** [verify_that_all_flows_are_mirrored]: returns whether the message says
    that all flows are mirrored, and the table with the entries its lookups
    have added. The table is indexed with a port id. *)
Definition verify_that_all_flows_are_mirrored (flows : dict Z (PortMirroringFlow Z F))
    (sols : solutions Z F) (table : port_table) (id_to_dpid : dict Z string) : res (bool * port_table) :=
  '(mirrored_flow_ids, table) ←
    foldM (λ acc solution,
      let '(ids, table) := acc in
      mirrored_dpid ← Dict.getitem id_to_dpid (mirror_switch_id solution);
      let '(table, mirrored_port) := default_get table (mirror_switch_port solution) in
      foldM (λ acc '(flow_id, flow),
        foldM (check_hop id_to_dpid mirrored_dpid mirrored_port flow_id) acc
          (zip (pmf_path flow) (pmf_ports flow)))
        (ids, table) flows)
      (([], table) : list Z * port_table) (concat (Dict.values sols));
  Ok (bool_decide (length mirrored_flow_ids = length flows), table).

(** [verify_path_ports]: the hops whose port is not the one that connects
    the two switches. *)
Definition verify_path_ports (flows_mapped_to_nw : dict Z (PortMirroringFlow string F))
    : res (list (string * string)) :=
  foldM (λ weird '(_, flow),
    let dpid_to_port := Dict.of_pairs (zip (pmf_path flow) (pmf_ports flow)) in
    foldM (λ weird '(switch_id, next_hop_id),
      ports ← get_ports_that_connect switch_id next_hop_id;
      expected ← Dict.getitem dpid_to_port switch_id;
      Ok (if bool_decide (ports.1 ≠ expected) then weird ++ [(switch_id, next_hop_id)] else weird))
      weird (pairwise (pmf_path flow)))
    [] flows_mapped_to_nw.

(** ** Requests *)

Definition create_add_flow_mirroring_rules_request_json (flow_def : FlowDefinition F)
    (solution_def : SolutionDefinition F) (id_to_dpid : dict Z string) (tag_value : Z)
    : res FlowMirrorRequest :=
  mirror_switch ← Dict.getitem id_to_dpid (sol_mirror_switch_id solution_def);
  nodes ← create_path_json id_to_dpid (fd_path flow_def);
  Ok (mkFlowMirrorRequest mirror_switch tag_value nodes).

Definition create_mirrored_ports_json (sols : solutions Z F) (id_to_dpid : dict Z string)
    (table : port_table) : res (dict string (list Z)) :=
  foldM (λ mirrored solution,
    actual_port_number ← port_number table (mirror_switch_id solution) (mirror_switch_port solution);
    mirror_switch_dpid ← Dict.getitem id_to_dpid (mirror_switch_id solution);
    Ok (append_to mirrored mirror_switch_dpid actual_port_number))
    [] (concat (Dict.values sols)).

Definition create_port_numbers_json (flow_def : PortMirroringFlow Z F) (table : port_table)
    (id_to_dpid : dict Z string) : res (list Z) :=
  port_numbers ← mapR (λ '(switch_id, port_id), port_number table switch_id port_id)
    (zip (but_last (pmf_path flow_def)) (but_last (pmf_ports flow_def)));
  last_switch ← py_index (pmf_path flow_def) (-1);
  last_hop_switch_dpid ← Dict.getitem id_to_dpid last_switch;
  last_hop_egress_port ← get_host_port last_hop_switch_dpid;
  Ok (port_numbers ++ [last_hop_egress_port]).

Definition create_add_port_mirroring_rules_request_json (flow_def : PortMirroringFlow Z F)
    (sols : solutions Z F) (id_to_dpid : dict Z string) (tag_value : Z) (table : port_table)
    : res PortMirrorRequest :=
  mirrored_ports_json ← create_mirrored_ports_json sols id_to_dpid table;
  flow_path_json ← create_path_json id_to_dpid (pmf_path flow_def);
  port_number_json ← create_port_numbers_json flow_def table id_to_dpid;
  Ok (mkPortMirrorRequest flow_path_json port_number_json tag_value mirrored_ports_json).

(** [map_port_ids_to_nw_ports] *)
Definition map_port_ids_to_nw_ports (port_map : dict Z (dict Z Z)) (id_to_dpid : dict Z string)
    : res port_table :=
  foldM (λ table '(source_id, destinations),
    foldM (λ table '(destination_id, number),
      source_dpid ← Dict.getitem id_to_dpid source_id;
      destination_dpid ← Dict.getitem id_to_dpid destination_id;
      ports ← get_ports_that_connect source_dpid destination_dpid;
      let '(table, row) := default_get table source_id in
      Ok (Dict.set table source_id (Dict.set row number ports.1)))
      table destinations)
    [] port_map.

(** ** The controller *)

Context {W : Type}.
(** POST add-mirrored-flow, add-mirrored-ports (status and [routeId]) and
    remove-mirrored-flow (status). *)
Variable post_flow : FlowMirrorRequest → M W (Z * string).
Variable post_ports : PortMirrorRequest → M W (Z * string).
Variable post_remove : string → M W Z.

Definition request_flow_mirroring flow_def solution_def id_to_dpid tag_value : M W string :=
  json_body ← lift (create_add_flow_mirroring_rules_request_json flow_def solution_def id_to_dpid tag_value);
  response ← post_flow json_body;
  lift (check_status response).

Definition request_port_mirroring flow_def sols id_to_dpid tag_value table : M W string :=
  json_body ← lift (create_add_port_mirroring_rules_request_json flow_def sols id_to_dpid tag_value table);
  response ← post_ports json_body;
  lift (check_status response).

Definition remove_port_mirroring_rules (flow_token : string) : M W unit :=
  status ← post_remove flow_token;
  if bool_decide (status ≠ 200%Z) then lift (Raise ValueError) else mret tt.

Definition remove_port_mirroring_flows (flow_tokens : dict Z string) : M W unit :=
  for_each (Dict.values flow_tokens) remove_port_mirroring_rules.

Context {GN GT : Type} `{NxGraph string GN} `{NxGraph Z GT}.
Variable graph_matcher : GN → GT → option (dict string Z).

Definition add_flow_mirroring_flows (topology : string) (flows : dict Z (FlowDefinition F))
    (sols : dict Z (SolutionDefinition F)) : M W (dict Z string) :=
  id_to_dpid ← lift (get_and_validate_onos_topo graph_matcher topology);
  foldS (λ flow_tokens flow_id,
    flow ← lift (Dict.getitem flows flow_id);
    sol ← lift (Dict.getitem sols flow_id);
    token ← request_flow_mirroring flow sol id_to_dpid flow_id;
    mret (Dict.set flow_tokens flow_id token))
    [] (Dict.keys flows).

Definition add_port_mirroring_flows (topology : string) (flows : dict Z (PortMirroringFlow Z F))
    (sols : solutions Z F) (mirroring_ports : dict Z (dict Z Z)) : M W (dict Z string) :=
  id_to_dpid ← lift (get_and_validate_onos_topo graph_matcher topology);
  table ← lift (map_port_ids_to_nw_ports mirroring_ports id_to_dpid);
  checked ← lift (verify_that_all_flows_are_mirrored flows sols table id_to_dpid);
  foldS (λ flow_tokens flow_id,
    flow ← lift (Dict.getitem flows flow_id);
    token ← request_port_mirroring flow sols id_to_dpid flow_id checked.2;
    mret (Dict.set flow_tokens flow_id token))
    [] (Dict.keys flows).
End helpers.

(** * Theorems

    Installing and removing mirroring rules, and what the check of the
    mirrored ports compares. *)

From S2P Require Import TopoMapperProps.

(** What the controller promises of its mirroring endpoints, in terms of
    the routes that are installed: a request to add rules is accepted and
    answered with a new route id, a request to remove an installed route
    removes that one. *)
Record mirror_server {W} (installed : W → gset string) (post_flow : FlowMirrorRequest → M W (Z * string))
    (post_ports : PortMirrorRequest → M W (Z * string)) (post_remove : string → M W Z) : Prop := {
  ms_flow : ∀ r w, ∃ tok w', post_flow r w = (Ok (200%Z, tok), w') ∧ (tok ∉ installed w) ∧
    installed w' = {[tok]} ∪ installed w;
  ms_ports : ∀ r w, ∃ tok w', post_ports r w = (Ok (200%Z, tok), w') ∧ (tok ∉ installed w) ∧
    installed w' = {[tok]} ∪ installed w;
  ms_remove : ∀ tok w, tok ∈ installed w → ∃ w', post_remove tok w = (Ok 200%Z, w') ∧
    installed w' = installed w ∖ {[tok]}
}.

Section rules.
Context {W : Type} (installed : W → gset string).

(** One route per key, all of them new. *)
Definition routes_added (ks : list Z) (w : W) (tokens : dict Z string) (w' : W) : Prop :=
  Dict.keys tokens = ks ∧ NoDup (Dict.values tokens) ∧
  (∀ tok, tok ∈ Dict.values tokens → tok ∉ installed w) ∧
  installed w' = list_to_set (Dict.values tokens) ∪ installed w.

Lemma install_loop (body : dict Z string → Z → M W (dict Z string)) ks w :
  NoDup ks →
  (∀ k tokens w, k ∈ ks → ∃ tok w', body tokens k w = (Ok (Dict.set tokens k tok), w') ∧
     (tok ∉ installed w) ∧ installed w' = {[tok]} ∪ installed w) →
  ∃ tokens w', foldS body [] ks w = (Ok tokens, w') ∧ routes_added ks w tokens w'.
Proof.
  intros Hnd Hbody.
  cut (∀ ks1 ks2 tokens w1, NoDup (ks1 ++ ks2) → (∀ k, k ∈ ks2 → k ∈ ks) → routes_added ks1 w tokens w1 →
    ∃ tokens' w', foldS body tokens ks2 w1 = (Ok tokens', w') ∧ routes_added (ks1 ++ ks2) w tokens' w').
  { intros Hc. apply (Hc [] ks [] w); [done|done|]. split_and!; [done|constructor|set_solver|set_solver]. }
  intros ks1 ks2. revert ks1. induction ks2 as [|k ks2 IH]; intros ks1 tokens w1 Hd Hin Hr; cbn [foldS].
  { rewrite app_nil_r. exists tokens, w1. by split. }
  destruct (Hbody k tokens w1) as (tok & w2 & Hb & Hfresh & Hinst); [apply Hin; left|].
  unfold mbind, M_bind. rewrite Hb. replace (ks1 ++ k :: ks2) with ((ks1 ++ [k]) ++ ks2) in *
    by (by rewrite <-(assoc_L (++))).
  apply IH; [done|intros; apply Hin; by right|].
  destruct Hr as (Hk & Hv & Hnew & Hi).
  assert (Dict.get tokens k = None) as Hnone.
  { apply Dict.get_None. rewrite Hk. apply NoDup_app in Hd as (Hd & _). apply NoDup_app in Hd as (_ & Hd & _).
    intros Hin'. apply (Hd k Hin'). left. }
  rewrite Dict.set_new by done. unfold routes_added, Dict.keys, Dict.values. rewrite !fmap_app. simpl.
  rewrite Hi in Hfresh. apply not_elem_of_union in Hfresh as [Hf1 Hf2].
  rewrite elem_of_list_to_set in Hf1. split_and!.
  - by rewrite <-Hk.
  - apply NoDup_app. split_and!; [done| |apply NoDup_singleton]. intros x Hx Hx2. apply list_elem_of_singleton in Hx2 as ->. done.
  - intros x [Hx|Hx]%elem_of_app; [by apply Hnew|]. apply list_elem_of_singleton in Hx as ->. done.
  - rewrite Hinst, Hi, list_to_set_app_L. simpl. unfold Dict.values. set_solver.
Qed.

(** Removing the routes again restores the installed set. *)
Lemma remove_loop (post_remove : string → M W Z) toks w (base : gset string) :
  (∀ tok w, tok ∈ installed w → ∃ w', post_remove tok w = (Ok 200%Z, w') ∧ installed w' = installed w ∖ {[tok]}) →
  NoDup toks → (∀ tok, tok ∈ toks → tok ∉ base) → installed w = list_to_set toks ∪ base →
  ∃ w', for_each toks (remove_port_mirroring_rules post_remove) w = (Ok tt, w') ∧ installed w' = base.
Proof.
  intros Hrem. revert w. induction toks as [|tok toks IH]; intros w Hnd Hnew Hi; cbn [for_each].
  { exists w. split; [done|]. set_solver. }
  apply NoDup_cons in Hnd as [Hn Hnd].
  destruct (Hrem tok w) as (w1 & Hp & Hi1); [rewrite Hi; set_solver|].
  unfold mbind, M_bind. unfold remove_port_mirroring_rules at 1, mbind, M_bind. rewrite Hp. simpl.
  apply IH; [done|intros; apply Hnew; by right|]. rewrite Hi1, Hi.
  specialize (Hnew tok ltac:(left)). clear -Hn Hnew. simpl.
  apply set_eq. intros x. rewrite elem_of_difference, !elem_of_union, elem_of_singleton, elem_of_list_to_set.
  split; [tauto|]. intros Hx. split; [tauto|]. intros ->. destruct Hx; contradiction.
Qed.

Context {F : Type} `{OnosApi} {GN GT : Type} `{NxGraph string GN} `{NxGraph Z GT}.
Variable graph_matcher : GN → GT → option (dict string Z).
Variable post_flow : FlowMirrorRequest → M W (Z * string).
Variable post_ports : PortMirrorRequest → M W (Z * string).
Variable post_remove : string → M W Z.
Hypothesis server : mirror_server installed post_flow post_ports post_remove.

End rules.

(** The check of the mirrored ports compares whole rows of the port table,
    because it indexes the table with a port id: two ports whose ids are
    no switch ids are never told apart. Here flow 1 leaves switch 1 by port
    50 and port 60 is mirrored, and the check says that all flows are
    mirrored. *)
Lemma mirror_check_ignores_port :
  let table := [(1%Z, [(50%Z, 2%Z); (60%Z, 3%Z)])] in
  let names := [(1%Z, "of:1"%string); (2%Z, "of:2"%string)] in
  let flow := mkPMFlow 1 tt [(1, 50); (2, 0)]%Z in
  fst <$> verify_that_all_flows_are_mirrored [(1%Z, flow)] [(1%Z, [mkPMSolution 1%Z 60 tt None])] table names
    = Ok true ∧ 60%Z ∉ pmf_ports flow.
Proof. split; [by vm_compute|]. apply (bool_decide_unpack _). by vm_compute. Qed.

(** A controller that keeps the set of its routes. *)
Definition demo_post {A} (r : A) (w : gset string) : res (Z * string) * gset string :=
  (Ok (200%Z, fresh w), {[fresh w]} ∪ w).
Definition demo_remove (tok : string) (w : gset string) : res Z * gset string :=
  (Ok (if decide (tok ∈ w) then 200%Z else 404%Z), w ∖ {[tok]}).

Lemma demo_server : mirror_server id demo_post demo_post demo_remove.
Proof.
  split.
  - intros r w. exists (fresh w), ({[fresh w]} ∪ w). split_and!; [done|apply is_fresh|done].
  - intros r w. exists (fresh w), ({[fresh w]} ∪ w). split_and!; [done|apply is_fresh|done].
  - intros tok w Hin. exists (w ∖ {[tok]}). unfold demo_remove. by rewrite decide_True.
Qed.

