(* ===== verification/PortMirroringTrial.v ===== *)
(** The port mirroring trial (class [PortMirroringTrial] of
    trials/port_mirroring_trial.py): the five solutions, the selection of
    one, the check of the trial's state, reading and writing its files and
    mapping it to the physical network; and the provider that iterates over
    the solution types of its trials (port_mirroring/trial_provider.py). *)

From Stdlib Require Import Ascii.
From S2P Require Import Prelude PyDict Groups PyStr PyFloat PyText TopoMapper FlowMirroring PortMirroring OnosHelpers.
Close Scope string_scope.

Record PortMirroringTrial (N F : Type) : Type := mkPMTrial {
  pt_topology : string;
  pt_flows : dict Z (PortMirroringFlow N F);
  pt_switches : dict Z (PortMirroringSwitch F);
  pt_det : option (solutions N F);
  pt_df : option (solutions N F);
  pt_greedy : option (solutions N F);
  pt_optimal : option (solutions N F);
  pt_rnd : option (solutions N F);
  pt_duration : Z;
  pt_name : string;
  pt_solutions : option (solutions N F);
  pt_solution_type : string;
  pt_mirroring_ports : dict Z (dict Z Z);
  pt_solution_types : list string
}.
Arguments mkPMTrial {N F} _ _ _ _ _ _ _ _ _ _ _ _ _ _.
Arguments pt_topology {N F} _.
Arguments pt_flows {N F} _.
Arguments pt_switches {N F} _.
Arguments pt_det {N F} _.
Arguments pt_df {N F} _.
Arguments pt_greedy {N F} _.
Arguments pt_optimal {N F} _.
Arguments pt_rnd {N F} _.
Arguments pt_duration {N F} _.
Arguments pt_name {N F} _.
Arguments pt_solutions {N F} _.
Arguments pt_solution_type {N F} _.
Arguments pt_mirroring_ports {N F} _.
Arguments pt_solution_types {N F} _.

Section trial.
Context {N F : Type}.

(** [PortMirroringTrial.__init__] *)
Definition init_pm_trial topology flows switches (det df greedy optimal rnd : option (solutions N F))
    duration name mirroring_ports : PortMirroringTrial N F :=
  mkPMTrial topology flows switches det df greedy optimal rnd duration name optimal "optimal"
    mirroring_ports ["det"; "df"; "greedy"; "optimal"; "rnd"]%string.

Definition pt_select (t : PortMirroringTrial N F) sols type : PortMirroringTrial N F :=
  mkPMTrial (pt_topology t) (pt_flows t) (pt_switches t) (pt_det t) (pt_df t) (pt_greedy t)
    (pt_optimal t) (pt_rnd t) (pt_duration t) (pt_name t) sols type (pt_mirroring_ports t)
    (pt_solution_types t).
Definition pt_set_solution_types (t : PortMirroringTrial N F) types : PortMirroringTrial N F :=
  mkPMTrial (pt_topology t) (pt_flows t) (pt_switches t) (pt_det t) (pt_df t) (pt_greedy t)
    (pt_optimal t) (pt_rnd t) (pt_duration t) (pt_name t) (pt_solutions t) (pt_solution_type t)
    (pt_mirroring_ports t) types.

(** [get_solution_of_type]: [None] also for a name it does not know. *)
Definition get_solution_of_type (t : PortMirroringTrial N F) (solution_type : string)
    : option (solutions N F) :=
  if bool_decide (solution_type = "df"%string) then pt_df t
  else if bool_decide (solution_type = "optimal"%string) then pt_optimal t
  else if bool_decide (solution_type = "det"%string) then pt_det t
  else if bool_decide (solution_type = "greedy"%string) then pt_greedy t
  else if bool_decide (solution_type = "rnd"%string) then pt_rnd t
  else None.

(** [set_solution_type] *)
Definition pm_set_solution_type (t : PortMirroringTrial N F) (type_name : string)
    : res (PortMirroringTrial N F) :=
  let lower_type_name := str_lower type_name in
  if bool_decide (lower_type_name = "det"%string) then Ok (pt_select t (pt_det t) lower_type_name)
  else if bool_decide (lower_type_name = "df"%string) then Ok (pt_select t (pt_df t) lower_type_name)
  else if bool_decide (lower_type_name = "greedy"%string) then Ok (pt_select t (pt_greedy t) lower_type_name)
  else if bool_decide (lower_type_name = "optimal"%string) then Ok (pt_select t (pt_optimal t) lower_type_name)
  else if bool_decide (lower_type_name = "rnd"%string) then Ok (pt_select t (pt_rnd t) lower_type_name)
  else Raise ValueError.
End trial.

(** The flows mirrored by the solutions of one type. *)
Definition mirrored_by {F} (t : PortMirroringTrial Z F) (solution_type : string) : res (list Z) :=
  sols ← or_raise AttributeError (get_solution_of_type t solution_type);
  foldM (λ mirrored_flows solution,
    switch ← Dict.getitem (pt_switches t) (mirror_switch_id solution);
    port ← get_port switch (mirror_switch_port solution);
    Ok (foldl (λ s flow_id, set_add flow_id s) mirrored_flows (flow_list port)))
    [] (concat (Dict.values sols)).

(** [verify_trial_state]: the set is new for every type, and the value
    returned is the one of the last type. *)
Definition verify_trial_state {F} (t : PortMirroringTrial Z F) : res bool :=
  mirrored ← foldM (λ (_ : option (list Z)) solution_type,
    m ← mirrored_by t solution_type; Ok (Some m)) None (pt_solution_types t);
  mirrored_flows ← or_raise NameError mirrored;
  Ok (bool_decide (length mirrored_flows = length (pt_flows t))).

Section files.
Context {F : Type} `{PyFloatText F}.
(** [pprint.pformat] of a dictionary and [eval] of its text. *)
Variable pformat : dict Z (dict Z Z) → string.
Variable py_eval : string → res (dict Z (dict Z Z)).

(** [build_results_files] *)
Definition pm_build_results_files (t : PortMirroringTrial Z F) (utilization_text : string)
    : res (dict string string) :=
  let flow_text := pm_flow_serialize (pt_flows t) in
  let switch_text := pm_switch_serialize (pt_switches t) in
  sols ← or_raise AttributeError (pt_solutions t);
  solution_text ← pm_solution_serialize sols;
  Ok [("utilization-results.txt"%string, utilization_text); ("topo"%string, pt_topology t);
      ("flows"%string, flow_text); ("switches"%string, switch_text);
      ("solutions"%string, solution_text); ("ports"%string, pformat (pt_mirroring_ports t))].

(** [from_repository_files], with the reader of the repository. *)
Definition from_repository_files
    (read_trial_results : dict string string → list string → res (dict string string))
    (schema_variables : dict string string) (duration : Z) (name : string)
    : res (PortMirroringTrial Z F) :=
  results ← read_trial_results schema_variables ["flows"; "switches"; "solutions"; "ports"; "topo"]%string;
  flows ← Dict.getitem results "flows"%string ≫= λ text : string, pm_flow_deserialize text;
  sols ← Dict.getitem results "solutions"%string ≫= λ text : string, pm_solution_deserialize text;
  switches ← Dict.getitem results "switches"%string ≫= λ text : string, pm_switch_deserialize text;
  mirroring_ports ← Dict.getitem results "ports"%string ≫= py_eval;
  topology ← Dict.getitem results "topo"%string;
  solution_type ← Dict.getitem schema_variables "solution-type"%string;
  let at_type (name : string) := if bool_decide (solution_type = name) then Some sols else None in
  if bool_decide (solution_type ∈ ["det"; "df"; "greedy"; "optimal"; "rnd"]%string) then
    Ok (pt_set_solution_types
      (init_pm_trial topology flows switches (at_type "det"%string) (at_type "df"%string)
        (at_type "greedy"%string) (at_type "optimal"%string) (at_type "rnd"%string) duration name mirroring_ports)
      [solution_type])
  else Raise ValueError.

(** ** Creating a trial with the external solver *)

Context {World : Type}.
Variable write_text : string → string → M World unit.
Variable read_text : string → M World string.
Variable subprocess_run : list string → M World unit.
Variable py_str : F → string.

Definition PM_SOLVER_PATH : string := "/home/cpsc-net-user/repos/port-mirroring-scheme/".

Definition pm_invoke_solver_with_params (topology : string) (minimum_flow_rate maximum_flow_rate : F)
    (num_flows : Z) : M World unit :=
  _ ← write_text (solver_file PM_SOLVER_PATH "network/temp-topo.txt") topology;
  subprocess_run [solver_file PM_SOLVER_PATH "invoke_solver.sh"; "temp-topo.txt"%string;
    str_of_Z num_flows; py_str minimum_flow_rate; py_str maximum_flow_rate].

(** [create_trial] *)
Definition pm_create_trial topology minimum_flow_rate maximum_flow_rate num_flows duration name
    : M World (PortMirroringTrial Z F) :=
  let read (file : string) := read_text (solver_file PM_SOLVER_PATH file) in
  _ ← pm_invoke_solver_with_params topology minimum_flow_rate maximum_flow_rate num_flows;
  flows_text ← read "network/flows"%string;
  flows ← lift (pm_flow_deserialize flows_text);
  switches_text ← read "network/switches"%string;
  switches ← lift (pm_switch_deserialize switches_text);
  ports_text ← read "network/ports"%string;
  mirroring_ports ← lift (py_eval ports_text);
  det_text ← read "solutions/det"%string;
  det ← lift (pm_solution_deserialize det_text);
  df_text ← read "solutions/df"%string;
  df ← lift (pm_solution_deserialize df_text);
  greedy_text ← read "solutions/greedy_port"%string;
  greedy ← lift (pm_solution_deserialize greedy_text);
  optimal_text ← read "solutions/opt"%string;
  optimal ← lift (pm_solution_deserialize optimal_text);
  rnd_text ← read "solutions/rnd"%string;
  rnd ← lift (rnd_solution_deserialize rnd_text);
  mret (init_pm_trial topology flows switches (Some det) (Some df) (Some greedy) (Some optimal)
    (Some rnd) duration name mirroring_ports).
End files.

(** * Mapping to the physical network *)

Section mapping.
Context {F : Type} `{OnosApi} {GN GT : Type} `{NxGraph string GN} `{NxGraph Z GT}.
Variable graph_matcher : GN → GT → option (dict string Z).

(** The hops of a flow by datapath ids and port numbers. *)
Definition map_flow (id_to_dpid : dict Z string) (table : port_table) (flow_id : Z)
    (flow : PortMirroringFlow Z F) : res (PortMirroringFlow string F) :=
  new_path ← create_path_json id_to_dpid (pmf_path flow);
  new_ports ← mapR (λ '(switch_id, port), port_number table switch_id port)
    (zip (but_last (pmf_path flow)) (but_last (pmf_ports flow)));
  last_switch ← py_index (pmf_path flow) (-1);
  last_hop_switch_dpid ← Dict.getitem id_to_dpid last_switch;
  last_hop_egress_port ← get_host_port last_hop_switch_dpid;
  Ok (mkPMFlow flow_id (pmf_traffic_rate flow)
    (zip new_path new_ports ++ [(last_hop_switch_dpid, last_hop_egress_port)])).

Definition map_solution (id_to_dpid : dict Z string) (table : port_table)
    (solution : PortMirroringSolution Z F) : res (PortMirroringSolution string F) :=
  new_switch ← Dict.getitem id_to_dpid (mirror_switch_id solution);
  new_port ← port_number table (mirror_switch_id solution) (mirror_switch_port solution);
  Ok (mkPMSolution new_switch new_port (objective_value solution) None).

(** [map_to_physical_network] *)
Definition map_to_physical_network (t : PortMirroringTrial Z F) : res (PortMirroringTrial string F) :=
  id_to_dpid ← get_and_validate_onos_topo graph_matcher (pt_topology t);
  table ← map_port_ids_to_nw_ports (pt_mirroring_ports t) id_to_dpid;
  new_flows ← foldM (λ new_flows '(flow_id, flow),
    f ← map_flow id_to_dpid table flow_id flow; Ok (Dict.set new_flows flow_id f)) [] (pt_flows t);
  sols ← or_raise AttributeError (pt_solutions t);
  new_solutions ← foldM (λ (acc : solutions string F) '(switch_id, solution_list),
    foldM (λ acc solution,
      s ← map_solution id_to_dpid table solution; Ok (append_to acc switch_id s)) acc solution_list)
    [] sols;
  let at_type (name : string) := if bool_decide (pt_solution_type t = name) then Some new_solutions else None in
  pm_set_solution_type
    (init_pm_trial (pt_topology t) new_flows (pt_switches t) (at_type "det"%string) (at_type "df"%string)
      (at_type "greedy"%string) (at_type "optimal"%string) (at_type "rnd"%string) (pt_duration t) (pt_name t)
      (pt_mirroring_ports t))
    (pt_solution_type t).
End mapping.

(** * The provider *)

(** [TrialProvider.__iter__] of port_mirroring/trial_provider.py on one
    trial: the same object is yielded once per solution type. The list has
    the states in which it is yielded, and the state it is left in. *)
Fixpoint iterate_types {T} (set_type : T → string → res T) (t : T) (types : list string) : res (list T * T) :=
  match types with
  | [] => Ok ([], t)
  | trial_type :: types =>
      t' ← set_type t trial_type;
      rest ← iterate_types set_type t' types;
      Ok (t' :: rest.1, rest.2)
  end.

(** * Theorems

    Selection, iteration and mapping of port mirroring trials. *)

From S2P Require Import TopoMapperProps.

Close Scope string_scope.

(** * Selection *)

Definition known_types : list string := ["det"; "df"; "greedy"; "optimal"; "rnd"]%string.

Lemma pm_set_solution_type_known {N F} (t : PortMirroringTrial N F) type :
  type ∈ known_types → pm_set_solution_type t type = Ok (pt_select t (get_solution_of_type t type) type).
Proof.
  unfold known_types. rewrite !elem_of_cons, elem_of_nil. intros [->|[->|[->|[->|[->|[]]]]]]; done.
Qed.

(** Iterating over a provider yields every trial once per solution type,
    in order, and each time with the solutions of that type, whichever
    solution was selected before; the other data of the trial is the same
    in every state. *)
Theorem provider_yields_selected {N F} (t : PortMirroringTrial N F) types :
  Forall (.∈ known_types) types →
  ∃ states t', iterate_types pm_set_solution_type t types = Ok (states, t') ∧
    Forall2 (λ type st, pt_solution_type st = type ∧ pt_solutions st = get_solution_of_type t type ∧
      ∃ sols ty, st = pt_select t sols ty) types states.
Proof.
  cut (∀ t0 : PortMirroringTrial N F, (∃ sols ty, t0 = pt_select t sols ty) → Forall (.∈ known_types) types →
    ∃ states t', iterate_types pm_set_solution_type t0 types = Ok (states, t') ∧
      Forall2 (λ type st, pt_solution_type st = type ∧ pt_solutions st = get_solution_of_type t type ∧
        ∃ sols ty, st = pt_select t sols ty) types states).
  { intros Hc. apply Hc. exists (pt_solutions t), (pt_solution_type t). by destruct t. }
  induction types as [|type types IH]; intros t0 (sols & ty & ->) Htypes; cbn [iterate_types].
  { exists [], (pt_select t sols ty). by split. }
  apply Forall_cons in Htypes as [Htype Htypes]. rewrite pm_set_solution_type_known by done. simpl.
  destruct (IH (pt_select (pt_select t sols ty) (get_solution_of_type (pt_select t sols ty) type) type))
    as (states & t' & -> & Hst); [by eexists _, _|done|].
  eexists _, t'. split; [done|]. constructor; [|done]. split_and!; [done..|]. by eexists _, _.
Qed.

Definition demo_pm_trial : PortMirroringTrial Z unit :=
  init_pm_trial EmptyString [] [] (Some [(1%Z, [])]) None (Some [(2%Z, [])]) (Some [(3%Z, [])]) None 5 EmptyString [].

Lemma provider_yields_selected_witness :
  ∃ a b t', iterate_types pm_set_solution_type demo_pm_trial ["greedy"; "det"]%string = Ok ([a; b], t') ∧
    pt_solutions a = Some [(2%Z, [])] ∧ pt_solutions b = Some [(1%Z, [])].
Proof.
  destruct (provider_yields_selected demo_pm_trial ["greedy"; "det"]%string) as (states & t' & Hit & Hall).
  - apply (bool_decide_unpack _). by vm_compute.
  - apply Forall2_cons_inv_l in Hall as (a & s1 & (_ & Ha & _) & Hall & ->).
    apply Forall2_cons_inv_l in Hall as (b & s2 & (_ & Hb & _) & Hall & ->).
    apply Forall2_nil_inv_l in Hall as ->. exists a, b, t'. by split_and!.
Defined.

(** The flow mirroring trial keeps the optimal solutions: the second
    iteration over a provider runs ["approx"] with them. *)
Lemma second_iteration_keeps_optimal {F} (t : FlowMirroringTrial F) :
  fm_solutions t = fm_approx_solutions t →
  ∃ a b t1 a' b' t2, iterate_types fm_set_solution_type t fm_get_solution_types = Ok ([a; b], t1) ∧
    fm_solutions a = fm_approx_solutions t ∧ fm_solutions b = fm_optimal_solutions t ∧
    iterate_types fm_set_solution_type t1 fm_get_solution_types = Ok ([a'; b'], t2) ∧
    fm_solution_type a' = "approx"%string ∧ fm_solutions a' = fm_optimal_solutions t.
Proof.
  intros Ht. eexists _, _, _, _, _, _. split; [reflexivity|]. split; [exact Ht|]. by split_and!.
Qed.

(** * The check of a trial's state *)

(** The value returned is about the last solution type only. *)
Lemma verify_trial_state_last {F} (t : PortMirroringTrial Z F) types type b :
  pt_solution_types t = types ++ [type] → verify_trial_state t = Ok b →
  ∃ m, mirrored_by t type = Ok m ∧ b = bool_decide (length m = length (pt_flows t)).
Proof.
  intros Ht. unfold verify_trial_state. rewrite Ht, foldM_app. intros (mo & Hmo & Hb)%bind_Ok.
  apply bind_Ok in Hmo as (m1 & _ & Hmo). cbn [foldM] in Hmo.
  apply bind_Ok in Hmo as (m2 & (m & Hm & [= <-])%bind_Ok & [= <-]). exists m. split; [done|].
  simpl in Hb. by injection Hb as <-.
Qed.

(** A trial whose ["det"] solutions mirror nothing passes the check when
    its last solutions are complete. *)
Lemma incomplete_solution_passes :
  let t := pt_set_solution_types
    (init_pm_trial EmptyString [(1%Z, mkPMFlow 1 tt [(4, 2); (5, 0)]%Z)]
      [(4%Z, mkPMSwitch 4 [mkSwitchPort 2 tt [1]%Z])]
      (Some []) None None (Some [(4%Z, [mkPMSolution 4%Z 2 tt None])]) None 5 EmptyString [])
    ["det"; "optimal"]%string in
  verify_trial_state t = Ok true ∧ mirrored_by t "det"%string = Ok [].
Proof. by vm_compute. Qed.

(** * Ports of the physical network *)

(** The entries [source, destination, port id] of a port map. *)
Definition port_entries (port_map : dict Z (dict Z Z)) : list (Z * Z * Z) :=
  concat ((λ ur : Z * dict Z Z, (λ vp : Z * Z, (ur.1, vp.1, vp.2)) <$> ur.2) <$> port_map).

Lemma port_number_set table u p x u' p' :
  port_number (Dict.set (default_get table u).1 u (Dict.set (default_get table u).2 p x)) u' p'
  = if decide (u = u' ∧ p = p') then Ok x else port_number table u' p'.
Proof.
  assert (∀ k, Dict.get_default [] (default_get table u).1 k = Dict.get_default [] table k) as Hd.
  { intros k. unfold default_get. destruct (Dict.get table u) eqn:E; [done|]. simpl.
    rewrite Dict.get_default_set. case_decide; [|done]. subst. unfold Dict.get_default. by rewrite E. }
  assert (∀ d k, (default_get d k).2 = Dict.get_default [] d k) as Hsnd.
  { intros d k. unfold default_get, Dict.get_default. by destruct (Dict.get d k). }
  unfold port_number. rewrite !Hsnd, Dict.get_default_set. destruct (decide (u = u')) as [->|Hne].
  - unfold Dict.getitem. rewrite Dict.get_set. destruct (decide (p = p')) as [->|].
    + by rewrite decide_True.
    + by rewrite decide_False by naive_solver.
  - rewrite decide_False by naive_solver. by rewrite Hd.
Qed.

Section mapped.
Context {F : Type} `{OnosApi}.

(** The port number a table has for a link. *)
Definition connects (id_to_dpid : dict Z string) (table : port_table) (e : Z * Z * Z) : Prop :=
  ∃ du dv sp dp, Dict.get id_to_dpid e.1.1 = Some du ∧ Dict.get id_to_dpid e.1.2 = Some dv ∧
    get_ports_that_connect du dv = Ok (sp, dp) ∧ port_number table e.1.1 e.2 = Ok sp.

Lemma map_port_ids_spec port_map id_to_dpid table :
  map_port_ids_to_nw_ports port_map id_to_dpid = Ok table →
  NoDup ((λ e : Z * Z * Z, (e.1.1, e.2)) <$> port_entries port_map) →
  Forall (connects id_to_dpid table) (port_entries port_map).
Proof.
  unfold map_port_ids_to_nw_ports. rewrite (foldM_nested (λ table '(u, v, p),
      source_dpid ← Dict.getitem id_to_dpid u;
      destination_dpid ← Dict.getitem id_to_dpid v;
      ports ← get_ports_that_connect source_dpid destination_dpid;
      let '(table, row) := default_get table u in
      Ok (Dict.set table u (Dict.set row p ports.1))) _ (λ ur : Z * dict Z Z, (λ vp : Z * Z, (ur.1, vp.1, vp.2)) <$> ur.2)).
  2:{ intros b [u row]. rewrite foldM_fmap. apply foldM_ext. by intros b' [v p] _. }
  fold (port_entries port_map). revert table.
  induction (port_entries port_map) as [|[[u v] p] l IH] using rev_ind; intros table; [by constructor|].
  rewrite foldM_app, fmap_app. intros (t1 & Ht1 & Hlast)%bind_Ok (Hnd & Hdisj & _)%NoDup_app.
  cbn [foldM] in Hlast. apply bind_Ok in Hlast as (t2 & Hstep & [= ->]).
  apply bind_Ok in Hstep as (du & Hdu%Dict.getitem_Ok & Hstep).
  apply bind_Ok in Hstep as (dv & Hdv%Dict.getitem_Ok & Hstep).
  apply bind_Ok in Hstep as ([sp dp] & Hports & Hstep).
  rewrite (surjective_pairing (default_get t1 u)) in Hstep. injection Hstep as <-.
  apply Forall_app. split.
  - specialize (IH t1 Ht1 Hnd). rewrite Forall_forall in IH |- *. intros [[u' v'] p'] Hin.
    destruct (IH _ Hin) as (du' & dv' & sp' & dp' & ? & ? & ? & Hp). exists du', dv', sp', dp'. split_and!; [done..|].
    cbn [fst snd] in *. rewrite port_number_set, decide_False; [done|]. intros [-> ->].
    apply (Hdisj (u', p')); [|by apply list_elem_of_singleton]. apply list_elem_of_fmap. by exists (u', v', p').
  - constructor; [|constructor]. exists du, dv, sp, dp. split_and!; [done..|]. cbn [fst snd].
    by rewrite port_number_set, decide_True.
Qed.

Lemma elem_of_pairwise_lookup {A} (l : list A) a b :
  (a, b) ∈ pairwise l → ∃ i, l !! i = Some a ∧ l !! S i = Some b.
Proof.
  induction l as [|x [|y l] IH]; [by intros ?%elem_of_nil..|]. rewrite pairwise_cons.
  intros [[= -> ->]|Hin]%elem_of_cons; [by exists 0|]. destruct (IH Hin) as (i & ? & ?). by exists (S i).
Qed.

(** The hops of a flow follow the port map: the port of each hop is the one
    the map has for the next switch. *)
Definition follows_ports (port_map : dict Z (dict Z Z)) (flow : PortMirroringFlow Z F) : Prop :=
  NoDup (pmf_path flow) ∧ ∀ i u p v q, pmf_hops flow !! i = Some (u, p) → pmf_hops flow !! S i = Some (v, q) →
    (u, v, p) ∈ port_entries port_map.

(** The hops of a mapped flow. *)
Lemma map_flow_hops id_to_dpid table k (flow : PortMirroringFlow Z F) f' i u p :
  map_flow id_to_dpid table k flow = Ok f' → pmf_hops flow !! i = Some (u, p) →
  ∃ d x, pmf_hops f' !! i = Some (d, x) ∧ Dict.get id_to_dpid u = Some d ∧
    (S i < length (pmf_hops flow) → port_number table u p = Ok x).
Proof.
  unfold map_flow. intros Hmap Hi. apply bind_Ok in Hmap as (path' & Hpath & Hmap).
  apply bind_Ok in Hmap as (ports' & Hports & Hmap). apply bind_Ok in Hmap as (lst & Hl & Hmap).
  apply bind_Ok in Hmap as (ld & Hld%Dict.getitem_Ok & Hmap). apply bind_Ok in Hmap as (eg & _ & [= <-]).
  apply mapR_Ok in Hpath, Hports. unfold pmf_path, pmf_ports in *. simpl.
  destruct flow as [fid r hops]. simpl in *. destruct hops as [|[n q] body _] using rev_ind; [done|].
  rewrite !fmap_app in *. cbn [fmap list_fmap fst snd] in *.
  unfold but_last in *. rewrite !length_app, !length_fmap in *. cbn [length] in *. rewrite Nat.add_sub in *.
  rewrite !take_app_length' in Hports by (by rewrite length_fmap). rewrite zip_fst_snd in Hports.
  rewrite (py_index_last _ n) in Hl by (by rewrite last_snoc).
  injection Hl as <-.
  apply Forall2_app_inv_l in Hpath as (pb & pl & Hpb & Hpl & ->).
  apply Forall2_cons_inv_l in Hpl as (d & ? & Hd%Dict.getitem_Ok & ->%Forall2_nil_inv_l & ->).
  assert (ld = d) as -> by congruence.
  assert (length pb = length body) as Hlb by (apply Forall2_length in Hpb; by rewrite length_fmap in Hpb).
  assert (length ports' = length body) as Hlp by (by apply Forall2_length in Hports).
  assert (zip (pb ++ [d]) ports' = zip pb ports') as Hzip.
  { rewrite <-(app_nil_r ports') at 1. rewrite zip_with_app by lia. simpl. by rewrite app_nil_r. }
  rewrite Hzip. apply lookup_app_Some in Hi as [Hi|[Hge Hi]].
  - rewrite lookup_app_l by (rewrite length_zip_with; apply lookup_lt_Some in Hi; lia).
    assert (body.*1 !! i = Some u) as Hiu by (by rewrite list_lookup_fmap, Hi).
    destruct (Forall2_lookup_l _ _ _ _ _ Hpb Hiu) as (du & Hdu & Hdu2%Dict.getitem_Ok).
    destruct (Forall2_lookup_l _ _ _ _ _ Hports Hi) as (x & Hx & Hpn).
    exists du, x. rewrite lookup_zip_with, Hdu. simpl. rewrite Hx. split_and!; [done..|]. by intros _.
  - destruct (i - length body) as [|j] eqn:Hij; [|by destruct j]. injection Hi as -> ->.
    rewrite lookup_app_r by (rewrite length_zip_with; lia). rewrite length_zip_with, Hlb, Hlp, Nat.min_id, Hij.
    exists d, eg. split_and!; [done..|]. lia.
Qed.

Lemma map_flow_length id_to_dpid table k (flow : PortMirroringFlow Z F) f' :
  map_flow id_to_dpid table k flow = Ok f' → length (pmf_hops f') = length (pmf_hops flow).
Proof.
  unfold map_flow. intros Hmap. apply bind_Ok in Hmap as (path' & Hpath & Hmap).
  apply bind_Ok in Hmap as (ports' & Hports & Hmap). apply bind_Ok in Hmap as (lst & Hl & Hmap).
  apply bind_Ok in Hmap as (ld & _ & Hmap). apply bind_Ok in Hmap as (eg & _ & [= <-]).
  apply mapR_length in Hpath, Hports. unfold pmf_path, pmf_ports, but_last in *. simpl.
  rewrite length_app, length_zip_with, Hpath, Hports. rewrite length_zip_with, !length_take, !length_fmap. cbn [length].
  assert (pmf_hops flow ≠ []) as Hne by (by destruct (pmf_hops flow)).
  destruct (pmf_hops flow); [done|]. cbn [length]. lia.
Qed.

(** One mapped flow passes the check of its ports. *)
Lemma mapped_flow_ports port_map id_to_dpid table k (flow : PortMirroringFlow Z F) f' :
  map_port_ids_to_nw_ports port_map id_to_dpid = Ok table →
  NoDup ((λ e : Z * Z * Z, (e.1.1, e.2)) <$> port_entries port_map) →
  NoDup (Dict.values id_to_dpid) → follows_ports port_map flow →
  map_flow id_to_dpid table k flow = Ok f' →
  NoDup (pmf_path f') ∧ ∀ a b, (a, b) ∈ pairwise (pmf_path f') → ∃ x y,
    get_ports_that_connect a b = Ok (x, y) ∧ (a, x) ∈ pmf_hops f'.
Proof.
  intros Htable Hnd Hinj [Hsimple Hfollow] Hmap.
  pose proof (map_port_ids_spec _ _ _ Htable Hnd) as Hconn. rewrite Forall_forall in Hconn.
  pose proof (map_flow_length _ _ _ _ _ Hmap) as Hlen.
  assert (∀ i a, pmf_path f' !! i = Some a → ∃ u p x, pmf_hops flow !! i = Some (u, p) ∧
    pmf_hops f' !! i = Some (a, x) ∧ Dict.get id_to_dpid u = Some a ∧
    (S i < length (pmf_hops flow) → port_number table u p = Ok x)) as Hhop.
  { intros i a Hi. assert (i < length (pmf_hops flow)) as Hlt.
    { apply lookup_lt_Some in Hi. unfold pmf_path in Hi. rewrite length_fmap in Hi. lia. }
    apply lookup_lt_is_Some_2 in Hlt as [[u p] Hup].
    destruct (map_flow_hops _ _ _ _ _ _ _ _ Hmap Hup) as (d & x & Hd & Hu & Hx).
    unfold pmf_path in Hi. rewrite list_lookup_fmap, Hd in Hi. injection Hi as ->. by exists u, p, x. }
  split.
  - apply NoDup_alt. intros i j a Hi Hj.
    destruct (Hhop i a Hi) as (u & p & x & Hu & _ & Hdu & _).
    destruct (Hhop j a Hj) as (v & q & y & Hv & _ & Hdv & _).
    assert (u = v) as -> by (by eapply (Dict.get_inj id_to_dpid)).
    rewrite NoDup_alt in Hsimple. unfold pmf_path in Hsimple.
    apply (Hsimple i j v); by rewrite list_lookup_fmap, ?Hu, ?Hv.
  - intros a b (i & Ha & Hb)%elem_of_pairwise_lookup.
    destruct (Hhop i a Ha) as (u & p & x & Hu & Hx & Hdu & Hpn).
    destruct (Hhop (S i) b Hb) as (v & q & y & Hv & _ & Hdv & _).
    destruct (Hconn _ (Hfollow i u p v q Hu Hv)) as (du & dv & sp & dp & Hdu' & Hdv' & Hports & Hpn').
    cbn [fst snd] in *. rewrite Hpn in Hpn' by (by eapply lookup_lt_Some). simplify_eq.
    exists sp, dp. split; [done|]. by eapply list_elem_of_lookup_2.
Qed.

Lemma verify_path_ports_flow (f' : PortMirroringFlow string F) weird :
  NoDup (pmf_path f') → (∀ a b, (a, b) ∈ pairwise (pmf_path f') → ∃ x y,
    get_ports_that_connect a b = Ok (x, y) ∧ (a, x) ∈ pmf_hops f') →
  foldM (λ weird '(switch_id, next_hop_id),
      ports ← get_ports_that_connect switch_id next_hop_id;
      expected ← Dict.getitem (Dict.of_pairs (zip (pmf_path f') (pmf_ports f'))) switch_id;
      Ok (if bool_decide (ports.1 ≠ expected) then weird ++ [(switch_id, next_hop_id)] else weird))
      weird (pairwise (pmf_path f')) = Ok weird.
Proof.
  intros Hnd Hall. unfold pmf_path, pmf_ports in *. rewrite zip_fst_snd.
  rewrite Dict.of_pairs_NoDup by done. rewrite (foldM_foldl _ (λ w _, w)).
  - f_equal. induction (pairwise _); simpl; [done|]. by apply IHl; intros; apply Hall; right.
  - intros w [a b] (x & y & Hp & Hin)%Hall. rewrite Hp. simpl.
    rewrite (proj2 (Dict.getitem_Ok (pmf_hops f') a x)) by (by apply Dict.elem_of_get).
    simpl. by rewrite bool_decide_false by naive_solver.
Qed.
End mapped.

(** Mapping a trial to the physical network keeps the egress ports
    right. When the port ids of the trial's port map are distinct per
    switch and its flows follow that map on simple paths, every hop of the
    mapped flows leaves by the port of the link to the next switch, so
    [verify_path_ports] reports no hop. *)
Theorem mapped_trial_ports {F} `{OnosApi} {GN GT} `{NxGraph string GN} `{NxGraph Z GT}
    (graph_matcher : GN → GT → option (dict string Z)) (t : PortMirroringTrial Z F) t' :
  (∀ g1 g2 m, graph_matcher g1 g2 = Some m → is_isomorphism g1 g2 m) →
  NoDup ((λ e : Z * Z * Z, (e.1.1, e.2)) <$> port_entries (pt_mirroring_ports t)) →
  Forall (λ kf, follows_ports (pt_mirroring_ports t) kf.2) (pt_flows t) →
  map_to_physical_network graph_matcher t = Ok t' → verify_path_ports (pt_flows t') = Ok [].
Proof.
  intros Hiso Hnd Hfollow Hmap. unfold map_to_physical_network in Hmap.
  apply bind_Ok in Hmap as (ids & Hids & Hmap). apply bind_Ok in Hmap as (table & Htable & Hmap).
  apply bind_Ok in Hmap as (flows' & Hflows & Hmap). apply bind_Ok in Hmap as (sols & _ & Hmap).
  apply bind_Ok in Hmap as (sols' & _ & Hmap).
  assert (pt_flows t' = flows') as ->.
  { unfold pm_set_solution_type in Hmap. by repeat (case_bool_decide; [by injection Hmap as <-|]). }
  assert (NoDup (Dict.values ids)) as Hinj.
  { unfold get_and_validate_onos_topo in Hids. apply bind_Ok in Hids as (g1 & _ & Hids).
    apply bind_Ok in Hids as (g2 & _ & Hids). apply bind_Ok in Hids as (m & Hm & [= <-]).
    unfold generate_graph_isomorphism in Hm. apply or_raise_Ok, Hiso in Hm as [Mwf Minj _ _].
    unfold invert. rewrite Dict.of_pairs_NoDup by (by rewrite <-list_fmap_compose).
    unfold Dict.values. rewrite <-list_fmap_compose. exact Mwf. }
  assert (∀ k f', (k, f') ∈ flows' → ∃ flow, (k, flow) ∈ pt_flows t ∧ map_flow ids table k flow = Ok f') as Hall.
  { revert Hflows. clear -F. revert flows'. induction (pt_flows t) as [|[k f] l IH] using rev_ind; intros flows'.
    { intros [= <-] k f'. by intros ?%elem_of_nil. }
    rewrite foldM_app. intros (d & Hd & Hlast)%bind_Ok. cbn [foldM] in Hlast.
    apply bind_Ok in Hlast as (d2 & (f2 & Hf2 & [= <-])%bind_Ok & [= <-]).
    intros k' f' [[-> ->]|Hin]%Dict.elem_of_set.
    - exists f. split; [|done]. apply elem_of_app. right. by apply list_elem_of_singleton.
    - destruct (IH d Hd k' f' Hin) as (flow & ? & ?). exists flow. split; [|done]. apply elem_of_app. by left. }
  unfold verify_path_ports. rewrite (foldM_foldl _ (λ w _, w)).
  - f_equal. clear. induction flows' as [|x l IH]; [done|]. exact IH.
  - intros w [k f'] Hin. destruct (Hall k f' Hin) as (flow & Hflow & Hmf).
    rewrite Forall_forall in Hfollow. specialize (Hfollow _ Hflow).
    destruct (mapped_flow_ports _ _ _ _ _ _ Htable Hnd Hinj Hfollow Hmf) as [? ?].
    by apply verify_path_ports_flow.
Qed.

(** The triangle network: a flow from switch 2 over 3 to the host at 1. *)
Definition demo_mapped_trial : PortMirroringTrial Z unit :=
  init_pm_trial demo_topo [(7%Z, mkPMFlow 7 tt [(2, 11); (3, 12); (1, 0)]%Z)] [] None None None
    (Some [(3%Z, [mkPMSolution 3%Z 12 tt None])]) None 5 EmptyString
    [(2, [(3, 11)]); (3, [(1, 12)])]%Z.

Lemma mapped_trial_ports_witness :
  ∃ t', @map_to_physical_network unit demo_api _ _ _ _ demo_matcher demo_mapped_trial = Ok t' ∧
    length (pt_flows t') = 1 ∧ @verify_path_ports unit demo_api (pt_flows t') = Ok [].
Proof.
  destruct (@map_to_physical_network unit demo_api _ _ _ _ demo_matcher demo_mapped_trial) as [t'|e] eqn:Ht;
    [|by vm_compute in Ht].
  exists t'. split; [done|]. split; [by vm_compute in Ht; injection Ht as <-|].
  apply (@mapped_trial_ports unit demo_api _ _ _ _ demo_matcher demo_mapped_trial t').
  - exact demo_matcher_ok.
  - apply (bool_decide_unpack _). by vm_compute.
  - constructor; [|constructor]. split; [apply (bool_decide_unpack _); by vm_compute|].
    intros i u p v q. destruct i as [|[|[|i]]]; cbn; intros Hi Hj; simplify_eq;
      apply (bool_decide_unpack _); by vm_compute.
  - exact Ht.
Defined.
