(* ===== verification/StatMonitor.v ===== *)
(** Link utilization from byte counters (nw_control/stat_monitor.py): the
    rates per link and sampling period, their means, and the client of the
    controller's monitor ([OnMonitor]). *)

From Stdlib Require Import String.
From S2P Require Import Prelude PyDict PyFloat Accum.
Close Scope string_scope.

(** The counters of one interface in a snapshot. *)
Record IfaceStats : Type := mkIfaceStats {
  sourceSwitchId : string;
  destinationSwitchId : string;
  bytesSent : Z;
  bytesReceived : Z
}.

Abbreviation link_key := (string * string)%type.

(** [tuple(sorted((source_id, destination_id)))] *)
Definition compute_link_key (source_id destination_id : string) : link_key :=
  if String.ltb destination_id source_id then (destination_id, source_id) else (source_id, destination_id).

Definition find_matching_iface_stats (byte_count : list IfaceStats) (source_id destination_id : string)
    : res IfaceStats :=
  match filter (λ d_i, sourceSwitchId d_i = source_id ∧ destinationSwitchId d_i = destination_id) byte_count with
  | [d_i] => Ok d_i
  | _ => Raise ValueError
  end.

Section utilization.
Context {F : Type} `{PyFloat F}.

Definition compute_tx_rate (count_in_bytes : F) : F :=
  fquot (fquot (fmul count_in_bytes (f_of_Z 8)) (f_of_Z 10)) (f_of_Z (2 ^ 20)).

(** The bytes of one interface between two snapshots: none when the second
    does not have it exactly once. *)
Definition count_delta (t_1 : list IfaceStats) (iface_stats : IfaceStats) : Z :=
  let t_0_count := bytesSent iface_stats in
  let t_1_count :=
    match find_matching_iface_stats t_1 (sourceSwitchId iface_stats) (destinationSwitchId iface_stats) with
    | Ok t_1_stats => bytesSent t_1_stats
    | Raise _ => t_0_count
    end in
  (t_1_count - t_0_count)%Z.

Definition iface_link (iface_stats : IfaceStats) : link_key :=
  compute_link_key (sourceSwitchId iface_stats) (destinationSwitchId iface_stats).

Definition byte_count_delta (t_0 t_1 : list IfaceStats) : dict link_key F :=
  foldl (λ d iface_stats, add_default d (iface_link iface_stats) (f_of_Z (count_delta t_1 iface_stats)))
    [] t_0.

Definition compute_link_utilization_over_time (link_byte_counts : list (list IfaceStats))
    : list (dict link_key F) :=
  (λ '(t_0, t_1), (λ kv, (kv.1, compute_tx_rate kv.2)) <$> byte_count_delta t_0 t_1)
    <$> pairwise link_byte_counts.

Definition collect_all_link_keys (link_util_t : list (dict link_key F)) : list link_key :=
  foldl (λ link_keys t_i, foldl (λ s k, set_add k s) link_keys (Dict.keys t_i)) [] link_util_t.

(** [numpy.mean] *)
Variable np_mean : list F → F.

Definition compute_mean_link_utilization (link_byte_counts : list (list IfaceStats)) : dict link_key F :=
  let link_util_t := compute_link_utilization_over_time link_byte_counts in
  foldl (λ mean_link_utils link_key,
    Dict.set mean_link_utils link_key (np_mean (omap (λ d_i, Dict.get d_i link_key) link_util_t)))
    [] (collect_all_link_keys link_util_t).
End utilization.

(** * The monitor client *)

Record OnMonitor : Type := mkOnMonitor {
  monitor_token : option string;
  stop_monitor_response : option (list (list IfaceStats))
}.

Definition init_monitor : OnMonitor := mkOnMonitor None None.

Section monitor.
Context {W : Type}.
(** POST start-monitor (status and token) and stop-monitor (status and the
    snapshots). *)
Variable post_start : M W (Z * string).
Variable post_stop : string → M W (Z * list (list IfaceStats)).

(** The operations of a client, on its own state and the controller's. *)
Definition on_controller {A} (m : M W A) : M (OnMonitor * W) A := λ s,
  let '(r, w) := m s.2 in (r, (s.1, w)).

Definition start_monitor : M (OnMonitor * W) unit :=
  self ← gets fst;
  if bool_decide (monitor_token self ≠ None) then lift (Raise ValueError)
  else
    response ← on_controller post_start;
    if bool_decide (response.1 = 200%Z)
    then modify (λ s, (mkOnMonitor (Some response.2) (stop_monitor_response s.1), s.2))
    else lift (Raise ValueError).

Definition stop_monitor : M (OnMonitor * W) unit :=
  self ← gets fst;
  match monitor_token self with
  | None => lift (Raise ValueError)
  | Some token =>
      response ← on_controller (post_stop token);
      if bool_decide (response.1 = 200%Z)
      then modify (λ s, (mkOnMonitor None (Some response.2), s.2))
      else lift (Raise ValueError)
  end.

Definition get_monitor_statistics : M (OnMonitor * W) (list (list IfaceStats)) :=
  self ← gets fst;
  lift (or_raise ValueError (stop_monitor_response self)).
End monitor.
