(* ===== verification/StatMonitorProps.v ===== *)
(** Rates telescope: the mean utilization of a link depends only on the
    first and the last snapshot. The client keeps exactly one monitor of
    the controller per token it holds. *)

From Stdlib Require Import QArith Qcanon Lqa String.
From S2P Require Import Prelude PyDict PyFloat Accum StatMonitor.
Close Scope Qc_scope.
Close Scope Q_scope.
Close Scope string_scope.

(** * Integer totals *)

Definition zsum (l : list Z) : Z := foldr Z.add 0%Z l.

Lemma zsum_app l k : zsum (l ++ k) = (zsum l + zsum k)%Z.
Proof. unfold zsum. induction l as [|x l IH]; simpl; lia. Qed.

Lemma zsum_perm l k : l ≡ₚ k → zsum l = zsum k.
Proof. unfold zsum. induction 1; simpl; lia. Qed.

Definition iface (x : IfaceStats) : string * string := (sourceSwitchId x, destinationSwitchId x).

(** The bytes sent over a link, both directions, as a snapshot counts them. *)
Definition link_total (k : link_key) (t : list IfaceStats) : Z :=
  zsum (bytesSent <$> filter (λ x, iface_link x = k) t).

(** A snapshot with one entry for each interface of [D]. *)
Definition snapshot (D : list (string * string)) (t : list IfaceStats) : Prop := iface <$> t ≡ₚ D.

Lemma find_iface D t x :
  NoDup D → snapshot D t → x ∈ t →
  find_matching_iface_stats t (sourceSwitchId x) (destinationSwitchId x) = Ok x.
Proof.
  intros Hnd Ht Hx. unfold find_matching_iface_stats.
  assert (NoDup (iface <$> t)) as Hnt by (by rewrite Ht). clear Ht.
  assert (filter (λ d_i, sourceSwitchId d_i = sourceSwitchId x ∧ destinationSwitchId d_i = destinationSwitchId x) t = [x])
    as ->; [|done].
  induction t as [|y t IH]; [by apply elem_of_nil in Hx|]. rewrite fmap_cons in Hnt.
  apply NoDup_cons in Hnt as [Hn Hnt]. rewrite filter_cons. apply elem_of_cons in Hx as [->|Hx].
  - rewrite decide_True by done. f_equal. apply filter_none, Forall_forall. intros z Hz [Hs Hd].
    apply Hn. apply list_elem_of_fmap. exists z. split; [|done]. unfold iface. by rewrite Hs, Hd.
  - rewrite decide_False; [by apply IH|]. intros [Hs Hd]. apply Hn. apply list_elem_of_fmap. exists x.
    split; [|done]. unfold iface. by rewrite Hs, Hd.
Qed.

Definition key_of (e : string * string) : link_key := compute_link_key e.1 e.2.

(** Summing a function of the interface over a snapshot. *)
Lemma sum_over_ifaces D t k (g : string * string → Z) :
  snapshot D t →
  zsum ((λ x, g (iface x)) <$> filter (λ x, iface_link x = k) t) = zsum (g <$> filter (λ e, key_of e = k) D).
Proof.
  intros Ht. transitivity (zsum (g <$> filter (λ e, key_of e = k) (iface <$> t))).
  - clear Ht. induction t as [|x t IH]; [done|]. rewrite fmap_cons, !filter_cons.
    change (key_of (iface x)) with (iface_link x). case_decide; [|exact IH]. rewrite !fmap_cons.
    unfold zsum in *. simpl. by rewrite IH.
  - apply zsum_perm. unfold snapshot in Ht. by rewrite Ht.
Qed.

(** The bytes of a link between two snapshots of the same interfaces. *)
Lemma delta_total D t0 t1 k :
  NoDup D → snapshot D t0 → snapshot D t1 →
  zsum (count_delta t1 <$> filter (λ x, iface_link x = k) t0) = (link_total k t1 - link_total k t0)%Z.
Proof.
  intros Hnd H0 H1.
  set (g := λ e : string * string, match find_matching_iface_stats t1 e.1 e.2 with Ok y => bytesSent y | Raise _ => 0%Z end).
  assert (∀ x, x ∈ t0 → count_delta t1 x = (g (iface x) - bytesSent x)%Z) as Hdelta.
  { intros x Hx. assert (iface x ∈ iface <$> t1) as Hin.
    { unfold snapshot in *. rewrite H1, <-H0. by apply list_elem_of_fmap_2. }
    apply list_elem_of_fmap in Hin as (y & Hy & Hyt). injection Hy as Hs Hd.
    pose proof (find_iface D t1 y Hnd H1 Hyt) as Hf. rewrite <-Hs, <-Hd in Hf.
    unfold count_delta, g, iface. cbn [fst snd]. by rewrite Hf. }
  assert (link_total k t1 = zsum ((λ x, g (iface x)) <$> filter (λ x, iface_link x = k) t0)) as ->.
  { rewrite (sum_over_ifaces D), <-(sum_over_ifaces D t1) by done. unfold link_total. f_equal.
    apply list_fmap_ext. intros i y Hy. apply list_elem_of_lookup_2, list_elem_of_filter in Hy as [_ Hy].
    unfold g, iface. cbn [fst snd]. by rewrite (find_iface D). }
  unfold link_total. clear H0. induction t0 as [|x t0 IH]; [done|]. rewrite !filter_cons.
  case_decide; [|apply IH; intros; apply Hdelta; by right]. rewrite !fmap_cons.
  unfold zsum in *. simpl. rewrite IH by (intros; apply Hdelta; by right). rewrite Hdelta by left. lia.
Qed.

(** * Rates *)

Lemma f_of_Z_add a b : (f_of_Z (F := Qc) a + f_of_Z b)%Qc = f_of_Z (a + b).
Proof. apply Qc_is_canon. rewrite this_add, !this_of_Z. by rewrite inject_Z_plus. Qed.

Lemma fsum_of_Z l : fsum (F := Qc) (f_of_Z <$> l) = f_of_Z (zsum l).
Proof. induction l as [|x l IH]; [done|]. rewrite fmap_cons, fsum_cons, IH. apply f_of_Z_add. Qed.

Lemma tx_rate_add (a b : Qc) : (compute_tx_rate a + compute_tx_rate b)%Qc = compute_tx_rate (a + b)%Qc.
Proof.
  unfold compute_tx_rate. cbn [fquot fmul exact]. unfold Qcdiv.
  generalize (f_of_Z (F := Qc) 8) (/ f_of_Z (F := Qc) 10)%Qc (/ f_of_Z (F := Qc) (2 ^ 20))%Qc. intros. ring.
Qed.

(** The amounts a window adds, by link. *)
Definition window_rows {F} `{PyFloat F} (t0 t1 : list IfaceStats) : list (link_key * F) :=
  (λ x, (iface_link x, f_of_Z (count_delta t1 x))) <$> t0.

Lemma byte_count_delta_rows {F} `{PyFloat F} t0 t1 :
  byte_count_delta (F := F) t0 t1 = foldl (λ d kx, add_default d kx.1 kx.2) [] (window_rows t0 t1).
Proof. unfold byte_count_delta, window_rows. by rewrite foldl_fmap. Qed.

Lemma delta_keys {F} `{PyFloat F} t0 t1 k :
  k ∈ Dict.keys (byte_count_delta (F := F) t0 t1) ↔ k ∈ iface_link <$> t0.
Proof.
  rewrite byte_count_delta_rows, add_default_keys. unfold window_rows. rewrite <-list_fmap_compose. set_solver.
Qed.

Lemma delta_get D t0 t1 k :
  NoDup D → snapshot D t0 → snapshot D t1 → k ∈ key_of <$> D →
  Dict.get (byte_count_delta (F := Qc) t0 t1) k = Some (f_of_Z (link_total k t1 - link_total k t0)).
Proof.
  intros Hnd H0 H1 Hk.
  assert (k ∈ Dict.keys (byte_count_delta (F := Qc) t0 t1)) as [v Hv]%Dict.elem_of_keys.
  { apply delta_keys. apply list_elem_of_fmap in Hk as (e & -> & He). unfold snapshot in H0. rewrite <-H0 in He.
    apply list_elem_of_fmap in He as (x & -> & Hx). apply list_elem_of_fmap. by exists x. }
  rewrite Hv. f_equal. rewrite byte_count_delta_rows in Hv.
  pose proof (add_default_get (window_rows t0 t1) [] k) as Hg. unfold Dict.get_default at 1 in Hg. rewrite Hv in Hg.
  simpl in Hg. rewrite Hg, <-(delta_total D) by done.
  rewrite <-fsum_of_Z. change (Dict.get_default fzero [] k) with (fzero : Qc). rewrite exact_add_0_l. f_equal.
  unfold amounts, window_rows. clear. induction t0 as [|x t0 IH]; [done|]. rewrite fmap_cons, !filter_cons. cbn [fst].
  case_decide; [|exact IH]. rewrite !fmap_cons. by rewrite IH.
Qed.

(** * Means *)

Lemma get_map_values {K V V'} `{Countable K} (f : V → V') (d : dict K V) k :
  Dict.get ((λ kv, (kv.1, f kv.2)) <$> d) k = f <$> Dict.get d k.
Proof. induction d as [|[k' v] d IH]; [done|]. rewrite fmap_cons. simpl. by case_decide. Qed.

Lemma get_set_all {K V} `{Countable K} (f : K → V) ks (d : dict K V) k :
  Dict.get (foldl (λ d k, Dict.set d k (f k)) d ks) k = if decide (k ∈ ks) then Some (f k) else Dict.get d k.
Proof.
  revert d. induction ks as [|k' ks IH]; intros d; cbn [foldl]; [by rewrite decide_False by apply not_elem_of_nil|].
  rewrite IH, Dict.get_set. repeat case_decide; subst; try done; set_solver.
Qed.

Lemma elem_of_all_link_keys {F} (us : list (dict link_key F)) k :
  k ∈ collect_all_link_keys us ↔ ∃ d, d ∈ us ∧ k ∈ Dict.keys d.
Proof.
  unfold collect_all_link_keys.
  cut (∀ s, k ∈ foldl (λ link_keys t_i, foldl (λ s k, set_add k s) link_keys (Dict.keys t_i)) s us ↔
    k ∈ s ∨ ∃ d, d ∈ us ∧ k ∈ Dict.keys d); [intros ->; rewrite elem_of_nil; tauto|].
  induction us as [|d us IH]; intros s; cbn [foldl].
  { split; [tauto|]. intros [?|(d & Hd & _)]; [done|by apply elem_of_nil in Hd]. }
  rewrite IH, elem_of_foldl_set_add. setoid_rewrite elem_of_cons. naive_solver.
Qed.

(** The rate of a link in one window. *)
Definition window_rate (k : link_key) (w : list IfaceStats * list IfaceStats) : Qc :=
  compute_tx_rate (f_of_Z (link_total k w.2 - link_total k w.1)).

Lemma last_default {A} (l : list A) d d' : l ≠ [] → List.last l d = List.last l d'.
Proof. induction l as [|x [|y l] IH]; [done|done|]. intros _. by apply IH. Qed.

Lemma rates_telescope k first rest :
  fsum (window_rate k <$> pairwise (first :: rest))
  = compute_tx_rate (f_of_Z (link_total k (List.last rest first) - link_total k first)).
Proof.
  revert first. induction rest as [|t rest IH]; intros first.
  - simpl. rewrite Z.sub_diag. by apply Qc_is_canon; vm_compute.
  - rewrite pairwise_cons, fmap_cons, fsum_cons, IH. unfold window_rate. cbn [fst snd].
    rewrite tx_rate_add, f_of_Z_add. destruct rest as [|t' rest]; [cbn [List.last]; f_equal; f_equal; lia|].
    change (List.last (t :: t' :: rest) first) with (List.last (t' :: rest) first).
    rewrite (last_default (t' :: rest) t first) by done. f_equal. f_equal. lia.
Qed.

Lemma windows_of_link D ts k :
  NoDup D → Forall (snapshot D) ts → k ∈ key_of <$> D →
  omap (λ d, Dict.get d k) (compute_link_utilization_over_time (F := Qc) ts) = window_rate k <$> pairwise ts.
Proof.
  intros Hnd Hts Hk. unfold compute_link_utilization_over_time.
  assert (∀ t0 t1, (t0, t1) ∈ pairwise ts → snapshot D t0 ∧ snapshot D t1) as Hin.
  { intros t0 t1 [H0 H1]%elem_of_pairwise. rewrite Forall_forall in Hts. auto. }
  induction (pairwise ts) as [|[t0 t1] ws IH]; [done|]. rewrite !fmap_cons.
  destruct (Hin t0 t1) as [H0 H1]; [left|]. cbn [omap list_omap].
  rewrite get_map_values, (delta_get D) by done. cbn [fmap option_fmap option_map].
  f_equal. apply IH. intros; apply Hin; by right.
Qed.

(** C39: The mean utilization of a link is determined by the first and the
    last snapshot. When all snapshots list the same interfaces once, the
    mean over the periods of a monitored link is the rate of the bytes both
    directions have sent between the first and the last snapshot, divided
    by the number of periods (in exact arithmetic, with the documented
    meaning of [numpy.mean]). *)
Theorem mean_utilization_telescopes (np_mean : list Qc → Qc) D first second rest k :
  (∀ l, l ≠ [] → np_mean l = (fsum l / f_of_Z (Z.of_nat (length l)))%Qc) →
  NoDup D → Forall (snapshot D) (first :: second :: rest) → k ∈ key_of <$> D →
  Dict.get (compute_mean_link_utilization np_mean (first :: second :: rest)) k
  = Some (compute_tx_rate (f_of_Z (link_total k (List.last (second :: rest) first) - link_total k first))
          / f_of_Z (Z.of_nat (S (length rest))))%Qc.
Proof.
  intros Hmean Hnd Hts Hk. unfold compute_mean_link_utilization. rewrite get_set_all, decide_True.
  - rewrite (windows_of_link D) by done. rewrite Hmean by done.
    rewrite rates_telescope, length_fmap, pairwise_length. done.
  - apply elem_of_all_link_keys. unfold compute_link_utilization_over_time. rewrite pairwise_cons, fmap_cons.
    eexists. split; [left|]. unfold Dict.keys. rewrite <-list_fmap_compose.
    change (fst ∘ _) with (fst : link_key * Qc → link_key). apply delta_keys.
    apply Forall_cons in Hts as [Ht _]. apply list_elem_of_fmap in Hk as (e & -> & He).
    unfold snapshot in Ht. rewrite <-Ht in He. apply list_elem_of_fmap in He as (x & -> & Hx).
    apply list_elem_of_fmap. by exists x.
Qed.

(** Two interfaces of one link, three snapshots. *)
Definition demo_snapshot (a b : Z) : list IfaceStats :=
  [mkIfaceStats "of:1" "of:2" a 0; mkIfaceStats "of:2" "of:1" b 0].

Lemma mean_utilization_telescopes_witness :
  Dict.get (compute_mean_link_utilization (λ l, fsum l / f_of_Z (Z.of_nat (length l)))%Qc
    [demo_snapshot 0 10; demo_snapshot 500 20; demo_snapshot 1000000 2621450]) ("of:1", "of:2")
  = Some (compute_tx_rate (f_of_Z 3621440) / f_of_Z 2)%Qc.
Proof.
  apply (mean_utilization_telescopes _ [("of:1", "of:2"); ("of:2", "of:1")]).
  - done.
  - apply (bool_decide_unpack _). by vm_compute.
  - repeat constructor.
  - apply (bool_decide_unpack _). by vm_compute.
Defined.

(** * The monitor client *)

(** What the controller promises of its monitors: starting one answers with
    a new token, stopping one removes it, and a refused request changes
    nothing. *)
Record monitor_server {W} (running : W → gset string) (post_start : M W (Z * string))
    (post_stop : string → M W (Z * list (list IfaceStats))) : Prop := {
  sv_start : ∀ w r w', post_start w = (r, w') →
    match r with
    | Ok (st, tok) =>
        if decide (st = 200%Z) then (tok ∉ running w) ∧ running w' = {[tok]} ∪ running w
        else running w' = running w
    | Raise _ => running w' = running w
    end;
  sv_stop : ∀ tok w r w', post_stop tok w = (r, w') →
    match r with
    | Ok (st, _) =>
        if decide (st = 200%Z) then running w' = running w ∖ {[tok]} else running w' = running w
    | Raise _ => running w' = running w
    end
}.

Section client.
Context {W : Type} (running : W → gset string).
Variable post_start : M W (Z * string).
Variable post_stop : string → M W (Z * list (list IfaceStats)).

(** The operations, in any order. *)
Inductive op : Type := Start | Stop | Statistics.
Definition perform (o : op) : M (OnMonitor * W) unit :=
  match o with
  | Start => start_monitor post_start
  | Stop => stop_monitor post_stop
  | Statistics => _ ← get_monitor_statistics; mret tt
  end.

(** A history: each operation with the state it leads to, whether it
    returns or raises. *)
Inductive history : OnMonitor * W → list op → OnMonitor * W → Prop :=
  | history_nil s : history s [] s
  | history_snoc s os s1 o r s2 : history s os s1 → perform o s1 = (r, s2) → history s (os ++ [o]) s2.

(** The client's monitors are the one whose token it holds. *)
Definition tracks (base : gset string) (s : OnMonitor * W) : Prop :=
  match monitor_token s.1 with
  | Some tok => (tok ∉ base) ∧ running s.2 = {[tok]} ∪ base
  | None => running s.2 = base
  end.
End client.

Lemma perform_tracks {W} (running : W → gset string) post_start post_stop base o s r s' :
  monitor_server running post_start post_stop → tracks running base s →
  perform post_start post_stop o s = (r, s') → tracks running base s'.
Proof.
  intros [Sstart Sstop] Ht Hp. destruct s as [[tok resp] w]. destruct o; cbn [perform] in Hp.
  - unfold start_monitor, gets, mbind, M_bind, on_controller, lift, modify in Hp. cbn [fst snd monitor_token] in Hp.
    destruct tok as [tok|]; [rewrite bool_decide_true in Hp by done; by simplify_eq|].
    rewrite bool_decide_false in Hp by tauto. simpl in Hp. destruct (post_start w) as [[[st tok]|e] w'] eqn:E.
    + specialize (Sstart _ _ _ E). simpl in Hp, Sstart. case_bool_decide as H200; injection Hp as <- <-.
      * rewrite decide_True in Sstart by done. destruct Sstart as [Hfresh Hrun]. unfold tracks in *. simpl in *. rewrite Ht in *. by split.
      * rewrite decide_False in Sstart by done. unfold tracks in *. simpl in *. by rewrite <-Ht.
    + simplify_eq. unfold tracks in *. simpl in *. rewrite <-Ht. by apply (Sstart _ _ _ E).
  - unfold stop_monitor, gets, mbind, M_bind, on_controller, lift, modify in Hp. cbn [fst snd monitor_token] in Hp.
    destruct tok as [tok|]; [|by simplify_eq].
    simpl in Hp. destruct (post_stop tok w) as [[[st x]|e] w'] eqn:E.
    + specialize (Sstop _ _ _ _ E). simpl in Hp, Sstop. unfold tracks in Ht. simpl in Ht. destruct Ht as [Hf Ht].
      case_bool_decide as H200; injection Hp as <- <-.
      * rewrite decide_True in Sstop by done. unfold tracks. simpl. rewrite Sstop, Ht. set_solver.
      * rewrite decide_False in Sstop by done. unfold tracks. simpl. by rewrite <-Ht.
    + simplify_eq. unfold tracks in *. simpl in *. rewrite <-(proj2 Ht). split; [apply Ht|]. by apply (Sstop _ _ _ _ E).
  - unfold get_monitor_statistics, gets, mbind, M_bind, lift, mret, M_ret in Hp. cbn [fst] in Hp.
    destruct resp; simpl in Hp; by simplify_eq.
Qed.


(** A controller with one kind of monitor, and a client that starts twice. *)
Definition demo_start (w : gset string) : res (Z * string) * gset string :=
  (Ok (200%Z, fresh w), {[fresh w]} ∪ w).
Definition demo_stop (tok : string) (w : gset string) : res (Z * list (list IfaceStats)) * gset string :=
  (Ok (200%Z, [demo_snapshot 0 0]), w ∖ {[tok]}).

Lemma demo_monitor_server : monitor_server id demo_start demo_stop.
Proof.
  split.
  - intros w r w' [= <- <-]. rewrite decide_True by done. split; [apply is_fresh|done].
  - intros tok w r w' [= <- <-]. by rewrite decide_True by done.
Qed.

