(* ===== verification/TrialStore.v ===== *)
(** Trials, trial providers and the repository of results
    (nw_control/trial_provider.py, nw_control/results_repository.py).

    The file system is a set of directories and a map of files, both by
    absolute paths; a file has text or a pickled provider. *)

From Stdlib Require Import Ascii.
From S2P Require Import Prelude PyDict PyStr PyText.
Close Scope string_scope.

(** * Trials *)

(** A parameter: an integer, a string, or another object, known by its
    identity. *)
Inductive value : Type :=
  | VInt (z : Z)
  | VStr (s : string)
  | VObj (oid : nat).
#[export] Instance value_eq_dec : EqDecision value.
Proof. solve_decision. Defined.

(** A trial object; [trial_oid] is its identity, which [list.remove]
    compares because the class defines no [__eq__]. *)
Record Trial : Type := mkTrial {
  trial_oid : nat;
  trial_name : string;
  parameters : dict string value
}.

(** [Trial.__init__], with the random number drawn for the id. *)
Definition init_trial (oid : nat) (name : string) (rand_id : Z) : Trial :=
  mkTrial oid name [("trial-name"%string, VStr name); ("id"%string, VStr (str_of_Z rand_id))].

Definition set_parameters (t : Trial) (ps : dict string value) : Trial :=
  mkTrial (trial_oid t) (trial_name t) ps.

Definition has_parameter (t : Trial) (name : string) : bool := Dict.mem (parameters t) name.

Definition add_parameter (t : Trial) (name : string) (v : value) : res Trial :=
  if Dict.mem (parameters t) name then Raise ValueError
  else Ok (set_parameters t (Dict.set (parameters t) name v)).

Definition update_parameter (t : Trial) (name : string) (v : value) : res Trial :=
  if negb (Dict.mem (parameters t) name) then Raise ValueError
  else Ok (set_parameters t (Dict.set (parameters t) name v)).

Definition get_parameter (t : Trial) (name : string) : res value :=
  or_raise ValueError (Dict.get (parameters t) name).

(** * Providers *)

Record TrialProvider : Type := mkTrialProvider {
  provider_name : string;
  trials : list Trial;
  metadata : dict string value
}.

Definition init_provider (name : string) : TrialProvider := mkTrialProvider name [] [].

Definition with_trials (p : TrialProvider) (ts : list Trial) : TrialProvider :=
  mkTrialProvider (provider_name p) ts (metadata p).

Definition add_trial (p : TrialProvider) (t : Trial) : TrialProvider := with_trials p (trials p ++ [t]).

(** [list.remove] by identity *)
Fixpoint remove_object (t : Trial) (ts : list Trial) : res (list Trial) :=
  match ts with
  | [] => Raise ValueError
  | t' :: ts =>
      if bool_decide (trial_oid t = trial_oid t') then Ok ts
      else rest ← remove_object t ts; Ok (t' :: rest)
  end.

Definition remove_trial (p : TrialProvider) (t : Trial) : res TrialProvider :=
  ts ← remove_object t (trials p); Ok (with_trials p ts).

Fixpoint filterR {A} (f : A → res bool) (l : list A) : res (list A) :=
  match l with
  | [] => Ok []
  | x :: l => b ← f x; r ← filterR f l; Ok (if (b : bool) then x :: r else r)
  end.

Definition get_all_trials_that_match (p : TrialProvider) (match_fn : Trial → res bool) : res (list Trial) :=
  filterR match_fn (trials p).

Definition get_first_trial_that_matches (p : TrialProvider) (match_fn : Trial → res bool) : res Trial :=
  matching_trials ← get_all_trials_that_match p match_fn;
  or_raise ValueError (head matching_trials).

Definition remove_all_trials_that_match (p : TrialProvider) (match_fn : Trial → res bool) : res TrialProvider :=
  matching_trials ← get_all_trials_that_match p match_fn;
  foldM remove_trial p matching_trials.

Definition add_metadata (p : TrialProvider) (k : string) (v : value) : res TrialProvider :=
  if Dict.mem (metadata p) k then Raise ValueError
  else Ok (mkTrialProvider (provider_name p) (trials p) (Dict.set (metadata p) k v)).

Definition get_metadata (p : TrialProvider) (k : string) : res value :=
  or_raise ValueError (Dict.get (metadata p) k).

(** * The file system *)

Abbreviation path := (list string).

Inductive content : Type :=
  | Text (s : string)
  | Pickled (p : TrialProvider).

Record fsys : Type := mkFsys {
  dirs : gset path;
  files : gmap path content
}.

(** [Path(s)]: empty segments and ["."] disappear; joining an absolute
    path replaces the base. *)
Definition slash : ascii := ch 47.
Definition segments (s : string) : path :=
  filter (λ w, (w ≠ EmptyString) ∧ (w ≠ "."%string)) (str_split slash s).
Definition joinpath (base : path) (s : string) : path :=
  match s with
  | String c _ => if Ascii.eqb c slash then segments s else base ++ segments s
  | EmptyString => base
  end.

(** The directories above a path. *)
Definition parents (p : path) : list path := (λ n, take n p) <$> seq 0 (length p).

(** [p.mkdir(parents=True, exist_ok=...)] *)
Definition mkdir (p : path) (exist_ok : bool) : M fsys unit := λ fs,
  if bool_decide (p ∈ dirs fs) then ((if exist_ok then Ok tt else Raise FileExistsError), fs)
  else if bool_decide (is_Some (files fs !! p)) then (Raise FileExistsError, fs)
  else if existsb (λ q, bool_decide (is_Some (files fs !! q))) (parents p) then (Raise IOError, fs)
  else (Ok tt, mkFsys (list_to_set (p :: parents p) ∪ dirs fs) (files fs)).

Definition parent (p : path) : path := but_last p.

(** [open(p, "w")] and writing the whole content. *)
Definition write_file (p : path) (c : content) : M fsys unit := λ fs,
  if bool_decide (p ∈ dirs fs) then (Raise IOError, fs)
  else if bool_decide (parent p ∉ dirs fs) then (Raise FileNotFoundError, fs)
  else (Ok tt, mkFsys (dirs fs) (<[p := c]> (files fs))).
Definition write_text (p : path) (s : string) : M fsys unit := write_file p (Text s).

Definition read_file (p : path) : M fsys content := λ fs,
  if bool_decide (p ∈ dirs fs) then (Raise IOError, fs)
  else (or_raise FileNotFoundError (files fs !! p), fs).
(** Reading a pickle as text fails to decode. *)
Definition read_text (p : path) : M fsys string :=
  c ← read_file p;
  lift (match c with Text s => Ok s | Pickled _ => Raise ValueError end).
(** [pickle.load]; a text is no pickle. *)
Definition pickle_load (p : path) : M fsys TrialProvider :=
  c ← read_file p;
  lift (match c with Pickled tp => Ok tp | Text _ => Raise IOError end).

Definition path_exists (p : path) : M fsys bool := gets (λ fs,
  bool_decide (p ∈ dirs fs ∨ is_Some (files fs !! p))).

(** * The repository *)

Record ResultsRepository : Type := mkRepository {
  base_path : path;
  schema : string;
  repository_name : string
}.

Definition REPO_METADATA_FILE : string := ".results_repo".

(** [base_path / ...] *)
Definition repository_exists (base : path) : M fsys bool := gets (λ fs,
  bool_decide (base ∈ dirs fs) &&
  bool_decide (joinpath base REPO_METADATA_FILE ∈ dirs fs ∨
               is_Some (files fs !! joinpath base REPO_METADATA_FILE))).

Section repository.
(** [json.dumps] and [json.loads] on the metadata. *)
Variable dumps : dict string string → string.
Variable loads : string → res (dict string string).

Definition read_repository_metadata (base : path) : M fsys (dict string string) :=
  text ← read_text (joinpath base REPO_METADATA_FILE);
  lift (loads text).

Definition create_repository (base : path) (schema_ : string) (name : string) : M fsys ResultsRepository :=
  found ← repository_exists base;
  _ ← (if (found : bool) then
         repository_metadata ← read_repository_metadata base;
         n ← lift (Dict.getitem repository_metadata "repository_name"%string);
         if bool_decide (n ≠ name) then lift (Raise ValueError)
         else
           s ← lift (Dict.getitem repository_metadata "schema"%string);
           if bool_decide (s ≠ schema_) then lift (Raise ValueError) else mret tt
       else
         _ ← mkdir base false;
         write_text (joinpath base REPO_METADATA_FILE)
           (dumps [("repository_name"%string, name); ("schema"%string, schema_)]));
  mret (mkRepository base schema_ name).
End repository.

Definition build_output_path (r : ResultsRepository) (schema_variables : dict string string) : res path :=
  output_path_segments ← mapR (Dict.getitem schema_variables)
    (filter (λ label, label ≠ EmptyString) (str_split slash (schema r)));
  Ok (foldl joinpath (base_path r) output_path_segments).

Definition write_trial_results (r : ResultsRepository) (schema_variables : dict string string)
    (results : dict string string) (overwrite : bool) : M fsys unit :=
  output_path ← lift (build_output_path r schema_variables);
  _ ← mkdir output_path overwrite;
  for_each results (λ '(file_name, results_data), write_text (joinpath output_path file_name) results_data).

Definition read_trial_results (r : ResultsRepository) (schema_variables : dict string string)
    (file_names : list string) : M fsys (dict string string) :=
  output_path ← lift (build_output_path r schema_variables);
  foldS (λ output_files file_name,
    file_text ← read_text (joinpath output_path file_name);
    mret (Dict.set output_files file_name file_text)) [] file_names.

Definition intersection {A} `{EqDecision A} (l k : list A) : list A := filter (.∈ k) (set_of l).

(** The existing provider without the trials that the new one replaces. *)
Definition replace_existing (existing new : TrialProvider) (overwrite : bool) : res TrialProvider :=
  existing_ids ← mapR (λ t, get_parameter t "id") (trials existing);
  new_ids ← mapR (λ t, get_parameter t "id") (trials new);
  if bool_decide (intersection existing_ids new_ids ≠ []) then Raise ValueError
  else
    existing_names ← mapR (λ t, get_parameter t "trial-name") (trials existing);
    new_names ← mapR (λ t, get_parameter t "trial-name") (trials new);
    let name_intersection := intersection existing_names new_names in
    if bool_decide (name_intersection ≠ []) && negb overwrite then Raise ValueError
    else foldM (λ p duplicated_name,
           remove_all_trials_that_match p (λ t,
             n ← get_parameter t "trial-name"; Ok (bool_decide (n = duplicated_name))))
           existing name_intersection.

(** [write_trial_provider]; the result is the provider object, which the
    call extends. *)
Definition write_trial_provider (r : ResultsRepository) (schema_variables : dict string string)
    (trial_provider : TrialProvider) (overwrite merge_existing : bool) : M fsys TrialProvider :=
  output_path ← lift (build_output_path r schema_variables);
  _ ← mkdir output_path true;
  let provider_output_file := joinpath output_path "trial-provider.p" in
  found ← path_exists provider_output_file;
  provider ←
    (if (found : bool) then
       the_existing_provider ← pickle_load provider_output_file;
       rest ← lift (replace_existing the_existing_provider trial_provider overwrite);
       mret (if merge_existing then foldl add_trial trial_provider (trials rest) else trial_provider)
     else mret trial_provider);
  _ ← write_file provider_output_file (Pickled provider);
  mret provider.

Definition read_trial_provider (r : ResultsRepository) (name : string) : M fsys TrialProvider :=
  pickle_load (joinpath (joinpath (base_path r) name) "trial-provider.p").
