(* ===== verification/TrialStoreProps.v ===== *)
(** Parameters behave as a map, matching trials are removed exactly, and the
    repository gives back what was stored in it. *)

From Stdlib Require Import Ascii.
From S2P Require Import Prelude PyDict PyStr PyText TrialStore.
Close Scope string_scope.

(** * Parameters *)

(** C35: The parameters of a trial are a map that [add_parameter] only
    extends and [update_parameter] only overwrites: exactly one of the two
    returns for a given name, the one that does changes that parameter and
    no other, and what [get_parameter] returns afterwards is the value
    given. *)
Theorem parameter_store t name v :
  (has_parameter t name = true → add_parameter t name v = Raise ValueError) ∧
  (has_parameter t name = false → update_parameter t name v = Raise ValueError) ∧
  ∃ t', (if has_parameter t name then update_parameter t name v else add_parameter t name v) = Ok t' ∧
    trial_name t' = trial_name t ∧
    ∀ n, get_parameter t' n = if decide (n = name) then Ok v else get_parameter t n.
Proof.
  unfold has_parameter, add_parameter, update_parameter, get_parameter.
  destruct (Dict.mem (parameters t) name); (split; [done|split; [done|]]);
    (eexists; split; [done|]; split; [done|]); intros n; simpl; rewrite Dict.get_set;
    repeat case_decide; subst; done.
Qed.

(** * Removing trials *)

(** Equal identities are the same object. *)
Definition coherent (ts : list Trial) : Prop :=
  ∀ t t', t ∈ ts → t' ∈ ts → trial_oid t = trial_oid t' → t = t'.

Lemma filterR_pure {A} (f : A → res bool) (P : A → Prop) `{∀ x, Decision (P x)} l :
  (∀ x, x ∈ l → f x = Ok (bool_decide (P x))) → filterR f l = Ok (filter P l).
Proof.
  induction l as [|x l IH]; intros Hf; [done|]. cbn [filterR]. rewrite Hf by left. simpl.
  rewrite IH by (intros; apply Hf; by right). simpl. rewrite filter_cons.
  case_bool_decide; [by rewrite decide_True|by rewrite decide_False].
Qed.

Lemma remove_matching (P : Trial → Prop) `{∀ x, Decision (P x)} name meta ts :
  coherent ts →
  foldM remove_trial (mkTrialProvider name ts meta) (filter P ts) =
    Ok (mkTrialProvider name (filter (λ t, ¬ P t) ts) meta).
Proof.
  intros Hc.
  cut (∀ ms kept, (∀ t, t ∈ ms → P t ∧ t ∈ ts) → ∀ rest, (∀ t, t ∈ kept → ¬ P t ∧ t ∈ ts) → ms = filter P rest →
    (∀ t, t ∈ rest → t ∈ ts) →
    foldM remove_trial (mkTrialProvider name (kept ++ rest) meta) ms
    = Ok (mkTrialProvider name (kept ++ filter (λ t, ¬ P t) rest) meta)).
  { intros Hcut. apply (Hcut (filter P ts) [] (λ t Ht, proj1 (list_elem_of_filter _ _ _) Ht) ts); [|done|done].
    by intros t ?%elem_of_nil. }
  intros ms kept Hms rest. revert ms kept Hms. induction rest as [|t rest IH]; intros ms kept Hms Hkept -> Hrest.
  { done. }
  rewrite !filter_cons in *. destruct (decide (P t)) as [Ht|Ht].
  - rewrite (decide_False (P := ¬ P t)) by tauto. cbn [foldM]. unfold remove_trial at 2. cbn [trials].
    assert (remove_object t (kept ++ t :: rest) = Ok (kept ++ rest)) as ->.
    { clear -Hc Hkept Ht Hrest. induction kept as [|k kept IHk]; simpl; [by rewrite bool_decide_true|].
      destruct (Hkept k) as [Hk Hkin]; [left|]. rewrite bool_decide_false.
      - rewrite IHk by (intros; apply Hkept; by right). done.
      - intros Heq. apply Hk. rewrite <-(Hc t k); [done|apply Hrest; left|done|done]. }
    cbn [mbind res_bind]. apply (IH _ kept); [intros; apply Hms; by right|done|done|intros; apply Hrest; by right].
  - rewrite (decide_True (P := ¬ P t)) by tauto.
    replace (kept ++ t :: rest) with ((kept ++ [t]) ++ rest) by (by rewrite <-(assoc_L (++))).
    rewrite (IH _ (kept ++ [t])); [by rewrite <-(assoc_L (++))|done| |done|intros; apply Hrest; by right].
    intros x [Hx|Hx]%elem_of_app; [by apply Hkept|]. apply list_elem_of_singleton in Hx as ->.
    split; [done|]. apply Hrest. left.
Qed.

(** [remove_all_trials_that_match] removes exactly the matching trials
    and keeps the others in their order, although it removes them one by
    one from the list by identity. *)
Theorem remove_all_exact (P : Trial → Prop) `{∀ x, Decision (P x)} p f :
  coherent (trials p) → (∀ t, t ∈ trials p → f t = Ok (bool_decide (P t))) →
  remove_all_trials_that_match p f = Ok (with_trials p (filter (λ t, ¬ P t) (trials p))).
Proof.
  intros Hc Hf. unfold remove_all_trials_that_match, get_all_trials_that_match.
  rewrite (filterR_pure f P) by done. cbn [mbind res_bind]. destruct p as [n ts m]. by apply remove_matching.
Qed.

Definition demo_trial (oid : nat) (name : string) : Trial := init_trial oid name (Z.of_nat oid).

Lemma remove_all_exact_witness :
  let a := demo_trial 0 "a" in let b := demo_trial 1 "b" in
  remove_all_trials_that_match (mkTrialProvider EmptyString [a; b; a] [])
    (λ t, Ok (bool_decide (trial_name t = "a"%string))) = Ok (mkTrialProvider EmptyString [b] []).
Proof.
  intros a b. etransitivity;
    [apply (remove_all_exact (λ t, trial_name t = "a"%string) (mkTrialProvider EmptyString [a; b; a] []))|].
  - intros t t' Ht Ht' Heq. simpl in Ht, Ht'. rewrite !elem_of_cons, elem_of_nil in Ht, Ht'.
    destruct Ht as [->|[->|[->|[]]]], Ht' as [->|[->|[->|[]]]]; done.
  - done.
  - by vm_compute.
Defined.

(** * The file system *)

(** Every directory and file has its directories above it; no path is
    both. *)
Record fs_wf (fs : fsys) : Prop := {
  fw_root : [] ∈ dirs fs;
  fw_dirs : ∀ p s, p ++ [s] ∈ dirs fs → p ∈ dirs fs;
  fw_files : ∀ p c, files fs !! p = Some c → p ∉ dirs fs;
  fw_parent : ∀ p s c, files fs !! (p ++ [s]) = Some c → p ∈ dirs fs
}.

(** A file name of one segment. *)
Definition simple_name (s : string) : Prop :=
  str_in slash s = false ∧ s ≠ EmptyString ∧ s ≠ "."%string.

Lemma joinpath_simple p s : simple_name s → joinpath p s = p ++ [s].
Proof.
  intros (Hs & Hne & Hdot). unfold joinpath, segments. rewrite str_split_none by done.
  rewrite filter_cons, decide_True, filter_nil by done. destruct s as [|c s]; [done|].
  cbn [str_in] in Hs. by apply orb_false_iff in Hs as [-> _].
Qed.

Lemma but_last_app {A} (p : list A) s : but_last (p ++ [s]) = p.
Proof.
  unfold but_last. rewrite length_app. simpl. rewrite Nat.add_sub. by rewrite take_app_length'.
Qed.

Lemma elem_of_parents p q : q ∈ parents p ↔ ∃ n, n < length p ∧ q = take n p.
Proof.
  unfold parents. rewrite list_elem_of_fmap. setoid_rewrite elem_of_seq. split.
  - intros (n & -> & ?). exists n. split; [lia|done].
  - intros (n & ? & ->). exists n. split; [done|lia].
Qed.

(** A path at which a directory can be created. *)
Definition free_path (fs : fsys) (p : path) : Prop :=
  (p ∉ dirs fs) ∧ ∀ q, q ∈ p :: parents p → files fs !! q = None.

Lemma mkdir_free fs p b :
  free_path fs p → mkdir p b fs = (Ok tt, mkFsys (list_to_set (p :: parents p) ∪ dirs fs) (files fs)).
Proof.
  intros [Hd Hf]. unfold mkdir. rewrite bool_decide_false by done.
  rewrite bool_decide_false by (rewrite (Hf p) by left; by intros [? ?]).
  replace (existsb _ (parents p)) with false; [done|]. symmetry. apply not_true_is_false. rewrite existsb_exists.
  intros (q & Hq & Hs%bool_decide_eq_true). apply list_elem_of_In in Hq. rewrite (Hf q) in Hs by (by right).
  by destruct Hs.
Qed.

Lemma mkdir_wf fs p :
  fs_wf fs → free_path fs p → fs_wf (mkFsys (list_to_set (p :: parents p) ∪ dirs fs) (files fs)).
Proof.
  intros [W1 W2 W3 W4] [Hd Hf]. split; cbn [dirs files].
  - by apply elem_of_union_r.
  - intros q s. rewrite !elem_of_union, !elem_of_list_to_set, !elem_of_cons, !elem_of_parents.
    assert (∀ n, n ≤ length p → q ++ [s] = take n p → ∃ m, m < length p ∧ q = take m p) as Hup.
    { intros n Hn Heq. exists (length q). assert (length (q ++ [s]) = n) as Hl by (rewrite Heq, length_take; lia).
      rewrite length_app in Hl. simpl in Hl. split; [lia|].
      transitivity (take (length q) (q ++ [s])); [by rewrite take_app_length|].
      rewrite Heq, take_take. f_equal. lia. }
    intros [[Heq|(n & Hn & Heq)]|Hin]; [left; right..|right; by eapply W2].
    + apply (Hup (length p)); [done|]. by rewrite take_ge.
    + apply (Hup n); [lia|done].
  - intros q c Hq. rewrite elem_of_union, elem_of_list_to_set. intros [Hin|Hin]; [|by eapply W3].
    by rewrite (Hf q Hin) in Hq.
  - intros q s c Hq. apply elem_of_union_r. by eapply W4.
Qed.

(** Nothing is below a path that is no directory. *)
Lemma nothing_below fs p s : fs_wf fs → p ∉ dirs fs → (p ++ [s] ∉ dirs fs) ∧ files fs !! (p ++ [s]) = None.
Proof.
  intros [_ W2 _ W4] Hp. split; [intros Hin; by eapply Hp, W2|].
  destruct (files fs !! (p ++ [s])) eqn:E; [|done]. destruct Hp. by eapply W4.
Qed.

Lemma write_text_simple fs p n s :
  fs_wf fs → p ∈ dirs fs → (p ++ [n] ∉ dirs fs) → simple_name n →
  write_text (joinpath p n) s fs = (Ok tt, mkFsys (dirs fs) (<[p ++ [n] := Text s]> (files fs))) ∧
  fs_wf (mkFsys (dirs fs) (<[p ++ [n] := Text s]> (files fs))).
Proof.
  intros [W1 W2 W3 W4] Hp Hn Hs. unfold write_text, write_file, parent. rewrite joinpath_simple, but_last_app by done.
  rewrite bool_decide_false, bool_decide_false by (done || tauto). split; [done|]. split; simpl; [done|done| |].
  - intros q c. destruct (decide (p ++ [n] = q)) as [<-|Hne]; [done|]. rewrite lookup_insert_ne by done. apply W3.
  - intros q x c. destruct (decide (p ++ [n] = q ++ [x])) as [Heq|Hne].
    + apply app_inj_tail in Heq as [-> ->]. done.
    + rewrite lookup_insert_ne by done. apply W4.
Qed.

(** The files of a list of results. *)
Definition with_results (p : path) (results : dict string string) (m : gmap path content) : gmap path content :=
  foldl (λ m nv, <[p ++ [nv.1] := Text nv.2]> m) m results.

Lemma write_results_loop fs p results :
  fs_wf fs → p ∈ dirs fs → Forall (λ nv, simple_name nv.1 ∧ p ++ [nv.1] ∉ dirs fs) results →
  for_each results (λ '(n, v), write_text (joinpath p n) v) fs
    = (Ok tt, mkFsys (dirs fs) (with_results p results (files fs))) ∧
  fs_wf (mkFsys (dirs fs) (with_results p results (files fs))).
Proof.
  revert fs. induction results as [|[n v] results IH]; intros fs Hwf Hp Hall; cbn [for_each with_results foldl].
  { by destruct fs. }
  apply Forall_cons in Hall as [[Hn Hd] Hall]. cbn [fst snd] in *.
  destruct (write_text_simple fs p n v Hwf Hp Hd Hn) as [Hw Hwf']. unfold mbind, M_bind. rewrite Hw.
  apply (IH _ Hwf'); done.
Qed.

Lemma with_results_get p results m n v :
  Dict.wf results → (n, v) ∈ results → with_results p results m !! (p ++ [n]) = Some (Text v).
Proof.
  unfold Dict.wf, Dict.keys. revert m. induction results as [|[n' v'] results IH] using rev_ind; intros m; [by intros _ ?%elem_of_nil|].
  rewrite fmap_app. intros (Hnd & Hdis & _)%NoDup_app Hin. unfold with_results. rewrite foldl_app. simpl.
  apply elem_of_app in Hin as [Hin|Hin].
  - rewrite lookup_insert_ne; [by apply IH|]. intros Heq. apply app_inv_head in Heq as [= ->].
    apply (Hdis n); [by apply (list_elem_of_fmap_2 fst) in Hin|]. left.
  - apply list_elem_of_singleton in Hin as [= -> ->]. by rewrite lookup_insert_eq.
Qed.

Lemma with_results_other p results m q :
  (∀ n, q ≠ p ++ [n]) → with_results p results m !! q = m !! q.
Proof.
  intros Hq. unfold with_results. revert m. induction results as [|[n v] results IH]; intros m; [done|].
  cbn [foldl]. rewrite IH. by rewrite lookup_insert_ne by (symmetry; apply Hq).
Qed.

Lemma read_results_loop (fs : fsys) p results acc :
  NoDup (acc.*1 ++ results.*1) →
  Forall (λ nv, simple_name nv.1 ∧ (p ++ [nv.1] ∉ dirs fs) ∧ files fs !! (p ++ [nv.1]) = Some (Text nv.2)) results →
  foldS (λ output_files file_name,
    file_text ← read_text (joinpath p file_name);
    mret (Dict.set output_files file_name file_text)) acc results.*1 fs = (Ok (acc ++ results : dict string string), fs).
Proof.
  revert acc. induction results as [|[n v] results IH]; intros acc Hnd Hall; [by rewrite app_nil_r|].
  apply Forall_cons in Hall as [(Hn & Hd & Hf) Hall]. cbn [fst snd] in *. rewrite fmap_cons. cbn [foldS fst].
  assert (read_text (joinpath p n) fs = (Ok v, fs)) as Hread.
  { unfold read_text, read_file, mbind, M_bind, lift. rewrite joinpath_simple by done.
    rewrite bool_decide_false by done. by rewrite Hf. }
  assert (Dict.get acc n = None) as Hget.
  { apply Dict.get_None. apply NoDup_app in Hnd as (_ & Hdis & _). intros Hin. apply (Hdis n Hin). left. }
  rewrite (bindS_run _ _ fs (acc ++ [(n, v)]) fs)
    by (rewrite (bindS_run _ _ _ _ _ Hread); by rewrite Dict.set_new).
  rewrite (IH (acc ++ [(n, v)])); [by rewrite <-(assoc_L (++))| |done].
  rewrite fmap_app, <-(assoc_L (++)). done.
Qed.

(** The files after results were written to the free path [p]. *)
Definition stored (fs : fsys) (p : path) (results : dict string string) : fsys :=
  mkFsys (list_to_set (p :: parents p) ∪ dirs fs) (with_results p results (files fs)).

Lemma stored_below fs p results n : fs_wf fs → p ∉ dirs fs → p ++ [n] ∉ dirs (stored fs p results).
Proof.
  intros Hwf Hp. cbn [stored dirs]. rewrite elem_of_union, elem_of_list_to_set, elem_of_cons, elem_of_parents.
  destruct (nothing_below fs p n Hwf Hp) as [Hn _].
  intros [[Heq|(m & Hm & Heq)]|?]; [..|done]; apply (f_equal length) in Heq;
    rewrite length_app, ?length_take in Heq; simpl in Heq; lia.
Qed.

Lemma write_results_run r vars p results fs :
  fs_wf fs → build_output_path r vars = Ok p → free_path fs p → Forall (λ nv, simple_name nv.1) results →
  write_trial_results r vars results false fs = (Ok tt, stored fs p results) ∧ fs_wf (stored fs p results).
Proof.
  intros Hwf Hp Hfree Hnames. pose proof (mkdir_wf fs p Hwf Hfree) as Hwf1.
  destruct (write_results_loop (mkFsys (list_to_set (p :: parents p) ∪ dirs fs) (files fs)) p results Hwf1) as [Hloop Hwf2].
  { apply elem_of_union_l, elem_of_list_to_set. left. }
  { eapply Forall_impl; [exact Hnames|]. intros nv Hnv. split; [done|]. by apply (stored_below fs p []); [|apply Hfree]. }
  split; [|exact Hwf2]. unfold write_trial_results, mbind, M_bind, lift. rewrite Hp, mkdir_free by done. exact Hloop.
Qed.

Lemma read_results_run r vars p results fs :
  build_output_path r vars = Ok p → Dict.wf results →
  Forall (λ nv, simple_name nv.1 ∧ (p ++ [nv.1] ∉ dirs fs) ∧ files fs !! (p ++ [nv.1]) = Some (Text nv.2)) results →
  read_trial_results r vars (Dict.keys results) fs = (Ok results, fs).
Proof.
  intros Hp Hres Hall. unfold read_trial_results, mbind, M_bind, lift. rewrite Hp.
  by apply (read_results_loop _ p results []).
Qed.


Definition demo_repo : ResultsRepository := mkRepository ["results"] "/provider-name/trial-name/" "demo".
Definition demo_fs : fsys := mkFsys {[ []; ["results"] ]} ∅.

Lemma demo_fs_wf : fs_wf demo_fs.
Proof.
  split; simpl; [set_solver| |by intros ???|by intros ????].
  intros p s Hin. apply elem_of_union in Hin as [Hin|Hin]; apply elem_of_singleton in Hin.
  - by destruct p.
  - destruct p as [|a p]; [set_solver|]. by destruct p.
Qed.


(** * Providers in the repository *)

(** The name and id parameters every trial is created with. *)
Definition has_id_and_name (t : Trial) : Prop :=
  get_parameter t "trial-name" = Ok (VStr (trial_name t)) ∧ ∃ i, get_parameter t "id" = Ok (VStr i).

Definition trial_id (t : Trial) : value :=
  match get_parameter t "id" with Ok v => v | Raise _ => VObj 0 end.

Lemma mapR_names ts : Forall has_id_and_name ts →
  mapR (λ t, get_parameter t "trial-name") ts = Ok ((λ t, VStr (trial_name t)) <$> ts) ∧
  mapR (λ t, get_parameter t "id") ts = Ok (trial_id <$> ts).
Proof.
  intros Hts. rewrite Forall_forall in Hts. split; apply mapR_all_Ok; intros t Ht; destruct (Hts t Ht) as [Hn [i Hi]].
  - done.
  - unfold trial_id. by rewrite Hi.
Qed.

Lemma intersection_nil {A} `{EqDecision A} (l k : list A) : (∀ x, x ∈ l → x ∉ k) → intersection l k = [].
Proof. intros Hd. apply filter_none, Forall_forall. intros x Hx Hk. rewrite elem_of_set_of in Hx. exact (Hd x Hx Hk). Qed.

Lemma elem_of_intersection_list {A} `{EqDecision A} (l k : list A) x : x ∈ intersection l k ↔ x ∈ l ∧ x ∈ k.
Proof. unfold intersection. rewrite list_elem_of_filter, elem_of_set_of. tauto. Qed.

(** Removing the trials of a list of names, one name after the other. *)
Lemma remove_names p ns :
  coherent (trials p) → Forall has_id_and_name (trials p) →
  foldM (λ p duplicated_name,
    remove_all_trials_that_match p (λ t,
      n ← get_parameter t "trial-name"; Ok (bool_decide (n = duplicated_name)))) p ns
  = Ok (with_trials p (filter (λ t, VStr (trial_name t) ∉ ns) (trials p))).
Proof.
  revert p. induction ns as [|n ns IH]; intros p Hc Hall; cbn [foldM].
  { rewrite filter_all; [by destruct p|]. apply Forall_true. intros t. apply not_elem_of_nil. }
  unfold remove_all_trials_that_match, get_all_trials_that_match.
  rewrite (filterR_pure _ (λ t, VStr (trial_name t) = n)).
  2:{ intros t Ht. rewrite Forall_forall in Hall. destruct (Hall t Ht) as [-> _]. done. }
  cbn [mbind res_bind]. destruct p as [name ts meta]. cbn [trials] in *. rewrite remove_matching by done.
  cbn [mbind res_bind]. rewrite IH; cbn [trials].
  - f_equal. unfold with_trials. simpl. f_equal. rewrite list_filter_filter. apply list_filter_iff'.
    intros t _. rewrite not_elem_of_cons. tauto.
  - intros t t' [_ Ht]%list_elem_of_filter [_ Ht']%list_elem_of_filter. by apply Hc.
  - rewrite Forall_forall in Hall |- *. intros t [_ Ht]%list_elem_of_filter. by apply Hall.
Qed.

(** The trials kept when a provider is merged into a new one. *)
Definition kept_trials (existing new : TrialProvider) : list Trial :=
  filter (λ t, trial_name t ∉ trial_name <$> trials new) (trials existing).

Lemma replace_existing_spec existing new :
  coherent (trials existing) → Forall has_id_and_name (trials existing) → Forall has_id_and_name (trials new) →
  (∀ t t', t ∈ trials existing → t' ∈ trials new → trial_id t ≠ trial_id t') →
  replace_existing existing new true = Ok (with_trials existing (kept_trials existing new)).
Proof.
  intros Hc He Hn Hid. unfold replace_existing.
  destruct (mapR_names _ He) as [-> ->]. destruct (mapR_names _ Hn) as [-> ->]. cbn [mbind res_bind].
  rewrite intersection_nil.
  2:{ intros x Hx Hx'. apply list_elem_of_fmap in Hx as (t & -> & Ht). apply list_elem_of_fmap in Hx' as (t' & Heq & Ht').
      by eapply Hid. }
  rewrite bool_decide_false by tauto. rewrite andb_false_r, remove_names by done. f_equal. unfold with_trials, kept_trials.
  f_equal. apply list_filter_iff'. intros t Ht. rewrite elem_of_intersection_list.
  assert (VStr (trial_name t) ∈ (λ t, VStr (trial_name t)) <$> trials existing) by (apply list_elem_of_fmap; by exists t).
  assert (VStr (trial_name t) ∈ (λ t, VStr (trial_name t)) <$> trials new ↔ trial_name t ∈ trial_name <$> trials new) as ->
    by (rewrite !list_elem_of_fmap; split; intros (t' & Heq & Ht'); exists t'; split; congruence). tauto.
Qed.

Lemma foldl_add_trial p ts : foldl add_trial p ts = with_trials p (trials p ++ ts).
Proof.
  revert p. induction ts as [|t ts IH]; intros p; [simpl; rewrite app_nil_r; by destruct p|].
  cbn [foldl]. rewrite IH. unfold add_trial, with_trials. simpl. by rewrite <-(assoc_L (++)).
Qed.

(** The provider file of an output path. *)
Definition provider_file (p : path) : path := p ++ ["trial-provider.p"%string].

Lemma provider_file_eq p : joinpath p "trial-provider.p" = provider_file p.
Proof. by apply joinpath_simple. Qed.

(** Writing over an existing provider, with or without merging. *)
Lemma write_over_existing r vars p fs existing new (merge : bool) :
  build_output_path r vars = Ok p → p ∈ dirs fs → (provider_file p ∉ dirs fs) →
  files fs !! provider_file p = Some (Pickled existing) →
  coherent (trials existing) → Forall has_id_and_name (trials existing) → Forall has_id_and_name (trials new) →
  (∀ t t', t ∈ trials existing → t' ∈ trials new → trial_id t ≠ trial_id t') →
  let stored := if merge then with_trials new (trials new ++ kept_trials existing new) else new in
  write_trial_provider r vars new true merge fs
  = (Ok stored, mkFsys (dirs fs) (<[provider_file p := Pickled stored]> (files fs))).
Proof.
  intros Hp Hd Hnd Hf Hc He Hn Hid stored. unfold write_trial_provider.
  rewrite (bindS_run _ _ _ p fs) by (unfold lift; by rewrite Hp).
  rewrite (bindS_run _ _ _ tt fs) by (unfold mkdir; by rewrite bool_decide_true).
  rewrite provider_file_eq. rewrite (bindS_run _ _ _ true fs)
    by (unfold path_exists, gets; by rewrite bool_decide_true by (right; rewrite Hf; eauto)).
  rewrite (bindS_run _ _ _ stored fs).
  2:{ rewrite (bindS_run _ _ _ existing fs).
      2:{ unfold pickle_load, read_file, mbind, M_bind, lift. rewrite bool_decide_false by done. by rewrite Hf. }
      unfold lift, mbind, M_bind, mret, M_ret. rewrite replace_existing_spec by done.
      unfold stored. rewrite foldl_add_trial. by destruct merge. }
  unfold write_file, parent, provider_file, mbind, M_bind, mret, M_ret. rewrite but_last_app.
  rewrite !bool_decide_false by (done || tauto). done.
Qed.

(** Merging providers. When a provider is written over an existing one
    with [overwrite] and [merge_existing], and no trial of the one has the
    id of a trial of the other, the file then has the new trials followed
    by exactly the old trials whose names are not among the new ones, in
    their order; no other file changes, and reading the provider returns
    what was stored. *)
Theorem provider_merge r vars p fs existing new :
  build_output_path r vars = Ok p → p ∈ dirs fs → (provider_file p ∉ dirs fs) →
  files fs !! provider_file p = Some (Pickled existing) →
  coherent (trials existing) → Forall has_id_and_name (trials existing) → Forall has_id_and_name (trials new) →
  (∀ t t', t ∈ trials existing → t' ∈ trials new → trial_id t ≠ trial_id t') →
  ∃ stored fs', write_trial_provider r vars new true true fs = (Ok stored, fs') ∧
    trials stored = trials new ++ filter (λ t, trial_name t ∉ trial_name <$> trials new) (trials existing) ∧
    pickle_load (provider_file p) fs' = (Ok stored, fs') ∧
    (∀ q, q ≠ provider_file p → files fs' !! q = files fs !! q).
Proof.
  intros Hp Hd Hnd Hf Hc He Hn Hid.
  pose proof (write_over_existing r vars p fs existing new true Hp Hd Hnd Hf Hc He Hn Hid) as Hw. simpl in Hw.
  eexists _, _. split; [exact Hw|]. split; [done|]. split.
  - unfold pickle_load, read_file, mbind, M_bind, lift. cbn [dirs files].
    rewrite bool_decide_false by done. by rewrite lookup_insert_eq.
  - intros q Hq. cbn [files]. by rewrite lookup_insert_ne.
Qed.

(** Without [merge_existing] the existing trials are dropped, also those
    with other names. *)
Lemma provider_overwrite_drops r vars p fs existing new t :
  build_output_path r vars = Ok p → p ∈ dirs fs → (provider_file p ∉ dirs fs) →
  files fs !! provider_file p = Some (Pickled existing) →
  coherent (trials existing) → Forall has_id_and_name (trials existing) → Forall has_id_and_name (trials new) →
  (∀ t t', t ∈ trials existing → t' ∈ trials new → trial_id t ≠ trial_id t') →
  t ∈ trials existing → trial_name t ∉ trial_name <$> trials new →
  ∃ fs', write_trial_provider r vars new true false fs = (Ok new, fs') ∧
    files fs' !! provider_file p = Some (Pickled new) ∧ t ∉ trials new.
Proof.
  intros Hp Hd Hnd Hf Hc He Hn Hid Ht Hname.
  pose proof (write_over_existing r vars p fs existing new false Hp Hd Hnd Hf Hc He Hn Hid) as Hw. simpl in Hw.
  eexists. split; [exact Hw|]. cbn [files]. split; [by rewrite lookup_insert_eq|].
  intros Hin. apply Hname. by apply list_elem_of_fmap_2.
Qed.

Definition demo_store (existing : TrialProvider) : fsys :=
  mkFsys {[ []; ["results"]; ["results"; "run-0"]; ["results"; "run-0"; "t"] ]}
    {[ provider_file ["results"; "run-0"; "t"] := Pickled existing ]}.

Lemma provider_merge_witness :
  let old := mkTrialProvider "run-0" [demo_trial 0 "a"; demo_trial 1 "b"] [] in
  let new := mkTrialProvider "run-0" [demo_trial 2 "a"; demo_trial 3 "c"] [] in
  ∃ stored fs', write_trial_provider demo_repo [("provider-name", "run-0"); ("trial-name", "t")] new true true
      (demo_store old) = (Ok stored, fs') ∧ trial_name <$> trials stored = ["a"; "c"; "b"].
Proof.
  intros old new.
  assert (Forall has_id_and_name (trials old) ∧ Forall has_id_and_name (trials new)) as [Ho Hn]
    by (split; repeat constructor; simpl; eauto).
  destruct (provider_merge demo_repo [("provider-name", "run-0"); ("trial-name", "t")] ["results"; "run-0"; "t"]
    (demo_store old) old new) as (stored & fs' & Hw & Hts & _).
  - by vm_compute.
  - apply (bool_decide_unpack _). by vm_compute.
  - apply (bool_decide_unpack _). by vm_compute.
  - by vm_compute.
  - intros t t' Ht Ht' Heq. simpl in Ht, Ht'. rewrite !elem_of_cons, elem_of_nil in Ht, Ht'.
    destruct Ht as [->|[->|[]]], Ht' as [->|[->|[]]]; done.
  - exact Ho.
  - exact Hn.
  - intros t t' Ht Ht'. simpl in Ht, Ht'. rewrite !elem_of_cons, elem_of_nil in Ht, Ht'.
    destruct Ht as [->|[->|[]]], Ht' as [->|[->|[]]]; by vm_compute.
  - exists stored, fs'. split; [exact Hw|]. rewrite Hts. by vm_compute.
Defined.

(** * Creating a repository *)

Lemma metadata_file base : joinpath base REPO_METADATA_FILE = base ++ [REPO_METADATA_FILE].
Proof. by apply joinpath_simple. Qed.

(** Opening a repository that exists. *)
Lemma create_existing dumps loads base schema name schema' name' fs text :
  base ∈ dirs fs → (base ++ [REPO_METADATA_FILE] ∉ dirs fs) →
  files fs !! (base ++ [REPO_METADATA_FILE]) = Some (Text text) →
  loads text = Ok [("repository_name"%string, name); ("schema"%string, schema)] →
  create_repository dumps loads base schema' name' fs =
    (if bool_decide (name = name' ∧ schema = schema') then Ok (mkRepository base schema' name') else Raise ValueError, fs).
Proof.
  intros Hb Hd Hf Hl. unfold create_repository. rewrite (bindS_run _ _ _ true fs).
  2:{ unfold repository_exists, gets. rewrite metadata_file, !bool_decide_true; [done|right; rewrite Hf; eauto|done]. }
  assert (read_repository_metadata loads base fs
    = (Ok [("repository_name"%string, name); ("schema"%string, schema)], fs)) as Hread.
  { unfold read_repository_metadata, read_text, read_file, mbind, M_bind, lift. rewrite metadata_file.
    rewrite bool_decide_false by done. rewrite Hf. simpl. by rewrite Hl. }
  unfold mbind at 1, M_bind at 1. rewrite (bindS_run _ _ _ _ _ Hread). unfold lift, mret, M_ret, mbind, M_bind. simpl.
  destruct (decide (name = name')) as [->|Hn]; [|by rewrite bool_decide_true, bool_decide_false by naive_solver].
  rewrite bool_decide_false by tauto. destruct (decide (schema = schema')) as [->|Hs].
  - by rewrite bool_decide_false, bool_decide_true by tauto.
  - by rewrite bool_decide_true, bool_decide_false by naive_solver.
Qed.

(** A handle to a repository. Where the path is free,
    [create_repository] creates the repository; called again with the same
    name and schema it returns a handle to it and changes nothing, and with
    another name or schema it raises [ValueError] and changes nothing. *)
Theorem repository_handle dumps loads base schema name fs :
  (∀ d, loads (dumps d) = Ok d) → fs_wf fs → free_path fs base →
  ∃ fs', create_repository dumps loads base schema name fs = (Ok (mkRepository base schema name), fs') ∧
    fs_wf fs' ∧ ∀ schema' name', create_repository dumps loads base schema' name' fs' =
      (if bool_decide (name = name' ∧ schema = schema') then Ok (mkRepository base schema' name')
       else Raise ValueError, fs').
Proof.
  intros Hjson Hwf Hfree. set (fs1 := mkFsys (list_to_set (base :: parents base) ∪ dirs fs) (files fs)).
  assert (fs_wf fs1) as Hwf1 by (by apply mkdir_wf).
  assert (base ∈ dirs fs1) as Hb1 by (apply elem_of_union_l, elem_of_list_to_set; left).
  destruct (nothing_below fs base REPO_METADATA_FILE Hwf) as [Hn _]; [apply Hfree|].
  assert (base ++ [REPO_METADATA_FILE] ∉ dirs fs1) as Hnd.
  { unfold fs1. cbn [dirs]. rewrite elem_of_union, elem_of_list_to_set, elem_of_cons, elem_of_parents.
    intros [[Heq|(m & Hm & Heq)]|?]; [..|done]; apply (f_equal length) in Heq;
      rewrite length_app, ?length_take in Heq; simpl in Heq; lia. }
  destruct (write_text_simple fs1 base REPO_METADATA_FILE
    (dumps [("repository_name"%string, name); ("schema"%string, schema)]) Hwf1 Hb1 Hnd) as [Hw Hwf2]; [done|].
  eexists. split; [|split; [exact Hwf2|]].
  - unfold create_repository. rewrite (bindS_run _ _ _ false fs).
    2:{ unfold repository_exists, gets. by rewrite bool_decide_false by apply Hfree. }
    erewrite bindS_run; [reflexivity|]. rewrite (bindS_run _ _ _ tt fs1) by (by apply mkdir_free). exact Hw.
  - intros schema' name'. eapply create_existing; [exact Hb1|exact Hnd|cbn [files]; by rewrite lookup_insert_eq|apply Hjson].
Qed.

(** A text form of the metadata that can be read back. *)
Definition demo_dumps (d : dict string string) : string :=
  str_of_Z (Zpos (encode d)).
Definition demo_loads (s : string) : res (dict string string) :=
  z ← int_of_str s;
  or_raise ValueError (match z with Zpos p => decode p | _ => None end).

Lemma repository_handle_witness :
  ∃ fs', create_repository demo_dumps demo_loads ["repo"] "/provider-name/" "sim" demo_fs
      = (Ok (mkRepository ["repo"] "/provider-name/" "sim"), fs') ∧
    create_repository demo_dumps demo_loads ["repo"] "/other/" "sim" fs' = (Raise ValueError, fs').
Proof.
  destruct (repository_handle demo_dumps demo_loads ["repo"] "/provider-name/" "sim" demo_fs) as (fs' & Hc & _ & Hagain).
  - intros d. unfold demo_loads, demo_dumps. rewrite int_of_str_of_Z. simpl. by rewrite decode_encode.
  - exact demo_fs_wf.
  - split; [apply (bool_decide_unpack _); by vm_compute|done].
  - exists fs'. split; [exact Hc|]. rewrite Hagain. by rewrite bool_decide_false by naive_solver.
Defined.
