(* ===== verification/Codec.v ===== *)
(** A text codec for any countable type: the decimal numeral of the code of
    a value. It stands for [json.dumps] and [json.loads] where a concrete
    pair of functions is needed to show that their specification can be
    met. *)

From Stdlib Require Import SpecFloat.
From S2P Require Import Prelude PyStr.

Section codec.
Context {A : Type} `{Countable A}.

Definition code_dumps (a : A) : string := str_of_Z (Zpos (encode a)).
Definition code_loads (s : string) : res A :=
  z ← int_of_str s; or_raise ValueError (decode (Z.to_pos z)).

Lemma code_loads_dumps a : code_loads (code_dumps a) = Ok a.
Proof. unfold code_loads, code_dumps. rewrite int_of_str_of_Z. simpl. by rewrite decode_encode. Qed.
End codec.

#[export] Instance spec_float_eq_dec : EqDecision spec_float.
Proof. solve_decision. Defined.

#[export] Instance spec_float_countable : Countable spec_float :=
  inj_countable'
    (λ x, match x with
          | S754_zero b => inl (inl b)
          | S754_infinity b => inl (inr (Some b))
          | S754_nan => inl (inr None)
          | S754_finite b m e => inr (b, m, e)
          end)
    (λ c, match c with
          | inl (inl b) => S754_zero b
          | inl (inr (Some b)) => S754_infinity b
          | inl (inr None) => S754_nan
          | inr (b, m, e) => S754_finite b m e
          end)
    ltac:(by intros []).
