(* ===== verification/MpTrial.v ===== *)
(** Multipath trials (mp_routing/trial.py): flows with the paths that carry
    their fractions, trials, and their conversion to dictionaries and JSON.

    The dictionaries that the conversions build have a fixed set of keys, so
    they are records; [json.dumps] and [json.loads] are parameters. *)

From S2P Require Import Prelude PyFloat Codec.

Record Path (F : Type) : Type := mkPath { path_nodes : list Z; path_fraction : F }.
Arguments mkPath {F} _ _.
Arguments path_nodes {F} _.
Arguments path_fraction {F} _.

Record MpFlow (F : Type) : Type := mkMpFlow {
  mp_source_node : Z;
  mp_destination_node : Z;
  mp_paths : list (Path F);
  mp_rate : F;
  mp_variance : F;
  mp_actual_tx_rates : list F
}.
Arguments mkMpFlow {F} _ _ _ _ _ _.
Arguments mp_source_node {F} _.
Arguments mp_destination_node {F} _.
Arguments mp_paths {F} _.
Arguments mp_rate {F} _.
Arguments mp_variance {F} _.
Arguments mp_actual_tx_rates {F} _.

(** [{"nodes": ..., "fraction": ...}] and the dictionary of a flow. *)
Record path_dict (F : Type) : Type := mkPathDict { pd_nodes : list Z; pd_fraction : F }.
Arguments mkPathDict {F} _ _.
Arguments pd_nodes {F} _.
Arguments pd_fraction {F} _.
Record flow_dict (F : Type) : Type := mkFlowDict {
  d_source_node : Z;
  d_destination_node : Z;
  d_paths : list (path_dict F);
  d_rate : F;
  d_variance : F;
  d_actual_tx_rates : list F
}.
Arguments mkFlowDict {F} _ _ _ _ _ _.
Arguments d_source_node {F} _.
Arguments d_destination_node {F} _.
Arguments d_paths {F} _.
Arguments d_rate {F} _.
Arguments d_variance {F} _.
Arguments d_actual_tx_rates {F} _.

Record MpTrial (F : Type) : Type := mkMpTrial {
  mp_flows : list (MpFlow F);
  mp_seed : Z;
  mp_solution_time : F
}.
Arguments mkMpTrial {F} _ _ _.
Arguments mp_flows {F} _.
Arguments mp_seed {F} _.
Arguments mp_solution_time {F} _.

Record trial_dict (F : Type) : Type := mkTrialDict {
  d_flows : list (flow_dict F);
  d_seed : Z;
  d_solution_time : F
}.
Arguments mkTrialDict {F} _ _ _.
Arguments d_flows {F} _.
Arguments d_seed {F} _.
Arguments d_solution_time {F} _.

Section trial.
Context {F : Type} `{PyFloat F}.

Definition init_mp_flow (source_node destination_node : Z) (rate variance : F) (actual_tx_rates : list F)
    : MpFlow F :=
  mkMpFlow source_node destination_node [] rate variance actual_tx_rates.

Definition add_path (flow : MpFlow F) (nodes : list Z) (demand_fraction : F) : res (MpFlow F) :=
  if bool_decide (length nodes < 2) || bool_decide (head nodes ≠ Some (mp_source_node flow)) ||
     bool_decide (last nodes ≠ Some (mp_destination_node flow))
  then Raise ValueError
  else Ok (mkMpFlow (mp_source_node flow) (mp_destination_node flow)
             (mp_paths flow ++ [mkPath nodes demand_fraction])
             (mp_rate flow) (mp_variance flow) (mp_actual_tx_rates flow)).

Definition flow_to_dict (flow_object : MpFlow F) : flow_dict F :=
  let paths := foldl (λ paths path, paths ++ [mkPathDict (path_nodes path) (path_fraction path)])
                 [] (mp_paths flow_object) in
  mkFlowDict (mp_source_node flow_object) (mp_destination_node flow_object) paths
    (mp_rate flow_object) (mp_variance flow_object) (mp_actual_tx_rates flow_object).

Definition flow_from_dict (d : flow_dict F) : res (MpFlow F) :=
  foldM (λ flow path, add_path flow (pd_nodes path) (pd_fraction path))
    (init_mp_flow (d_source_node d) (d_destination_node d) (d_rate d) (d_variance d) (d_actual_tx_rates d))
    (d_paths d).

(** [to_json] and [from_json] of a flow have the bodies of [to_dict] and
    [from_dict]. *)
Definition flow_to_json (flow_object : MpFlow F) : flow_dict F := flow_to_dict flow_object.
Definition flow_from_json (json_object : flow_dict F) : res (MpFlow F) := flow_from_dict json_object.

(** The tolerance is the literal [1**-10], which is [1.0]. *)
Definition verify_flow (flow : MpFlow F) : bool :=
  flt (fsub (fsum (path_fraction <$> mp_paths flow)) fone) fone.

Definition init_mp_trial (seed : Z) (solution_time : F) : MpTrial F := mkMpTrial [] seed solution_time.

Definition set_solution_time (trial : MpTrial F) (the_time : F) : MpTrial F :=
  mkMpTrial (mp_flows trial) (mp_seed trial) the_time.

Definition mp_add_flow (trial : MpTrial F) (flow : MpFlow F) : res (MpTrial F) :=
  if negb (verify_flow flow) then Raise ValueError
  else Ok (mkMpTrial (mp_flows trial ++ [flow]) (mp_seed trial) (mp_solution_time trial)).

Definition get_flow_defs (trial : MpTrial F) : list (Z * Z * list F * (F * F)) :=
  (λ flow, (mp_source_node flow, mp_destination_node flow, path_fraction <$> mp_paths flow,
            (mp_rate flow, mp_variance flow))) <$> mp_flows trial.

Definition trial_to_dict (trial_object : MpTrial F) : trial_dict F :=
  mkTrialDict (flow_to_dict <$> mp_flows trial_object) (mp_seed trial_object)
    (mp_solution_time trial_object).

Definition trial_from_dict (d : trial_dict F) : res (MpTrial F) :=
  foldM (λ trial flow_json, flow ← flow_from_json flow_json; mp_add_flow trial flow)
    (init_mp_trial (d_seed d) (d_solution_time d)) (d_flows d).

Variable json_dumps : trial_dict F → string.
Variable json_loads : string → res (trial_dict F).

Definition trial_to_json (trial_object : MpTrial F) : string := json_dumps (trial_to_dict trial_object).
Definition trial_from_json (json_str : string) : res (MpTrial F) :=
  json_object ← json_loads json_str;
  trial_from_dict json_object.
End trial.

(** * Properties *)

(** What [add_path] and [add_flow] check. *)
Definition path_ok {F} (s t : Z) (p : Path F) : Prop :=
  2 ≤ length (path_nodes p) ∧ head (path_nodes p) = Some s ∧ last (path_nodes p) = Some t.
Definition flow_ok {F} `{PyFloat F} (f : MpFlow F) : Prop :=
  Forall (path_ok (mp_source_node f) (mp_destination_node f)) (mp_paths f).

Section props.
Context {F : Type} `{PyFloat F}.
Implicit Types (f : MpFlow F) (t : MpTrial F).

Lemma add_path_spec f nodes x f' :
  add_path f nodes x = Ok f' ↔
    path_ok (mp_source_node f) (mp_destination_node f) (mkPath nodes x) ∧
    f' = mkMpFlow (mp_source_node f) (mp_destination_node f) (mp_paths f ++ [mkPath nodes x])
           (mp_rate f) (mp_variance f) (mp_actual_tx_rates f).
Proof.
  unfold add_path, path_ok. simpl. repeat case_bool_decide; simpl; split;
    try done; intros; destruct_and?; simplify_eq; split_and?; try done; lia.
Qed.

Definition to_path (p : path_dict F) : Path F := mkPath (pd_nodes p) (pd_fraction p).

(** Reading the paths: every one is checked and appended. *)
Lemma add_paths_spec ps f f' :
  foldM (λ flow path, add_path flow (pd_nodes path) (pd_fraction path)) f ps = Ok f' ↔
    Forall (path_ok (mp_source_node f) (mp_destination_node f)) (to_path <$> ps) ∧
    f' = mkMpFlow (mp_source_node f) (mp_destination_node f) (mp_paths f ++ (to_path <$> ps))
           (mp_rate f) (mp_variance f) (mp_actual_tx_rates f).
Proof.
  revert f. induction ps as [|p ps IH]; intros f; cbn [foldM].
  - rewrite app_nil_r. destruct f; simpl. split; [by intros [= <-]|by intros [_ ->]].
  - rewrite bind_Ok. setoid_rewrite add_path_spec. rewrite fmap_cons, Forall_cons. split.
    + intros (f1 & [Hp ->] & [Hps ->]%IH). simpl in *. rewrite <-(assoc_L (++)). done.
    + intros [[Hp Hps] ->]. eexists. split; [done|]. apply IH. simpl.
      by rewrite <-(assoc_L (++)).
Qed.

Lemma foldl_append_fmap {A B} (g : A → B) l acc :
  foldl (λ acc x, acc ++ [g x]) acc l = acc ++ (g <$> l).
Proof.
  revert acc. induction l as [|x l IH]; intros acc; cbn [foldl]; [by rewrite app_nil_r|].
  by rewrite IH, fmap_cons, <-(assoc_L (++)).
Qed.

Lemma flow_roundtrip f : flow_ok f → flow_from_dict (flow_to_dict f) = Ok f.
Proof.
  intros Hf. unfold flow_from_dict, flow_to_dict. cbn [d_paths]. rewrite foldl_append_fmap. simpl.
  apply add_paths_spec. rewrite <-list_fmap_compose. replace (_ <$> mp_paths f) with (mp_paths f).
  - split; [done|]. by destruct f.
  - symmetry. etrans; [|apply list_fmap_id]. apply list_fmap_ext. intros ? [??] _. done.
Qed.

Lemma flow_from_dict_ok (d : flow_dict F) f : flow_from_dict d = Ok f → flow_ok f.
Proof. intros [Hps ->]%add_paths_spec. exact Hps. Qed.

(** Loading the flows of a dictionary: each is read and verified. *)
Lemma load_flows ds t t' :
  foldM (λ trial flow_json, flow ← flow_from_json flow_json; mp_add_flow trial flow) t ds = Ok t' ↔
  ∃ fs, Forall2 (λ d f, flow_from_dict d = Ok f ∧ verify_flow f = true) ds fs ∧
    t' = mkMpTrial (mp_flows t ++ fs) (mp_seed t) (mp_solution_time t).
Proof.
  revert t. induction ds as [|d ds IH]; intros t; cbn [foldM].
  - split.
    + intros [= <-]. exists []. rewrite app_nil_r. by destruct t.
    + intros (fs & ->%Forall2_nil_inv_l & ->). rewrite app_nil_r. by destruct t.
  - rewrite bind_Ok. setoid_rewrite bind_Ok. unfold mp_add_flow. split.
    + intros (t1 & (f & Hf & Ht1) & (fs & Hfs & ->)%IH). destruct (verify_flow f) eqn:Hv; simplify_eq/=.
      exists (f :: fs). split; [by constructor|]. by rewrite <-(assoc_L (++)).
    + intros (fs & (f & fs' & [Hf Hv] & Hfs & ->)%Forall2_cons_inv_l & ->).
      eexists. split; [exists f; split; [exact Hf|]; by rewrite Hv|].
      apply IH. exists fs'. split; [done|]. simpl. by rewrite <-(assoc_L (++)).
Qed.

Definition valid_trial t : Prop := Forall (λ f, flow_ok f ∧ verify_flow f = true) (mp_flows t).

Lemma trial_dict_roundtrip t : valid_trial t → trial_from_dict (trial_to_dict t) = Ok t.
Proof.
  intros Hv. apply load_flows.
  exists (mp_flows t). split; [|by destruct t]. apply Forall2_fmap_l, Forall_Forall2_diag.
  eapply Forall_impl; [exact Hv|]. intros f [Hf ?]. split; [by apply flow_roundtrip|done].
Qed.

Lemma trial_from_dict_valid d t : trial_from_dict d = Ok t → valid_trial t.
Proof.
  intros (fs & Hfs & ->)%load_flows. unfold valid_trial. simpl.
  clear -Hfs. induction Hfs as [|d0 f ds fs [Hd Hv] _ IH]; constructor; [|done].
  split; [by eapply flow_from_dict_ok|done].
Qed.

(** C32: Multipath trials survive serialization, and only valid ones can be
    loaded: for a JSON codec whose [loads] inverts [dumps], [from_json] of
    [to_json] returns every trial whose paths join their flow's end points
    and whose flows pass [verify_flow]; and whatever text [from_json]
    accepts gives such a trial. *)
Theorem mp_trial_roundtrip (json_dumps : trial_dict F → string) (json_loads : string → res (trial_dict F)) t :
  (∀ d, json_loads (json_dumps d) = Ok d) →
  let valid t := Forall (λ f, flow_ok f ∧ verify_flow f = true) (mp_flows t) in
  (valid t → trial_from_json json_loads (trial_to_json json_dumps t) = Ok t) ∧
  (∀ text t', trial_from_json json_loads text = Ok t' → valid t').
Proof.
  intros Hcodec valid. split.
  - intros Hv. unfold trial_from_json, trial_to_json. rewrite Hcodec. by apply trial_dict_roundtrip.
  - intros text t' (d & _ & Hd)%bind_Ok. by eapply trial_from_dict_valid.
Qed.
End props.

(** The tolerance of [verify_flow] is one, not [10**-10]: a flow whose
    fractions add up to 1.9 is accepted. *)
Definition overfull_flow : MpFlow SpecFloat.spec_float :=
  mkMpFlow 1 2 [mkPath [1; 2]%Z (flit 19 10)] fone fzero [].
Lemma overfull_flow_verified : verify_flow overfull_flow = true.
Proof. by vm_compute. Qed.

(** ** A codec for the dictionaries *)

#[export] Instance path_dict_eq_dec {F} `{EqDecision F} : EqDecision (path_dict F).
Proof. solve_decision. Defined.
#[export] Instance path_dict_countable {F} `{Countable F} : Countable (path_dict F).
Proof.
  refine (inj_countable' (λ p, (pd_nodes p, pd_fraction p)) (λ c, mkPathDict c.1 c.2) _). by intros [].
Defined.
#[export] Instance flow_dict_eq_dec {F} `{EqDecision F} : EqDecision (flow_dict F).
Proof. solve_decision. Defined.
#[export] Instance flow_dict_countable {F} `{Countable F} : Countable (flow_dict F).
Proof.
  refine (inj_countable' (λ f, (d_source_node f, d_destination_node f, d_paths f, (d_rate f, d_variance f, d_actual_tx_rates f)))
    (λ '(s, t, ps, (r, v, rs)), mkFlowDict s t ps r v rs) _). by intros [].
Defined.
#[export] Instance trial_dict_eq_dec {F} `{EqDecision F} : EqDecision (trial_dict F).
Proof. solve_decision. Defined.
#[export] Instance trial_dict_countable {F} `{Countable F} : Countable (trial_dict F).
Proof.
  refine (inj_countable' (λ t, (d_flows t, d_seed t, d_solution_time t)) (λ '(fs, s, x), mkTrialDict fs s x) _).
  by intros [].
Defined.

Definition demo_mp_trial : MpTrial SpecFloat.spec_float :=
  mkMpTrial [mkMpFlow 1 3 [mkPath [1; 2; 3]%Z (flit 1 2); mkPath [1; 3]%Z (flit 1 2)] fone fzero [fone]] 4065 fone.

Lemma mp_trial_roundtrip_witness :
  trial_from_json code_loads (trial_to_json code_dumps demo_mp_trial) = Ok demo_mp_trial.
Proof.
  apply (mp_trial_roundtrip code_dumps code_loads demo_mp_trial).
  - apply code_loads_dumps.
  - constructor; [|constructor]. split; [|by vm_compute].
    repeat constructor.
Defined.
