(* ===== verification/RouteAdder.v ===== *)
(** Installing multipath routes in the controller
    (mp_routing/onos_route_adder.py): the class [OnosRouteAdder], which
    numbers the paths of each pair of end points with tags, and the functions
    [install_flow] and [uninstall_flow].

    The controller is the interface [RouteApi]; [map_sw_to_dpid] of the
    mapper is a parameter. *)

From S2P Require Import Prelude PyDict PyStr MpTrial.

(** [{"nodes": ..., "tagValue": ...}] *)
Record PathJson : Type := mkPathJson { pj_nodes : list string; pj_tagValue : Z }.

(** The status and the member [routeId] of the answer's JSON. *)
Record RouteResponse : Type := mkRouteResponse { rr_status : Z; rr_routeId : option string }.

Class RouteApi (W : Type) : Type := {
  route_post : string → option (list PathJson) → M W RouteResponse
}.

Local Open Scope string_scope.

(** nw_control/params.py *)
Definition cfg_of_controller_ip : string := "127.0.0.1".
Definition cfg_of_controller_port : Z := 8181.
Definition cfg_onos_url : string :=
  "http://" +:+ cfg_of_controller_ip +:+ ":" +:+ str_of_Z cfg_of_controller_port +:+ "/onos/".

Definition add_route_url : string := cfg_onos_url +:+ "multipath-routing/v1/add-route".
Definition remove_route_url (token : string) : string :=
  cfg_onos_url +:+ "multipath-routing/v1/remove-route?route-id=" +:+ token.

(** The class has its own copy of the two URLs. *)
Definition adder_add_url : string := "http://127.0.0.1:8181/onos/multipath-routing/v1/add-route".
Definition adder_remove_url (token : string) : string :=
  "http://127.0.0.1:8181/onos/multipath-routing/v1/remove-route?route-id=" +:+ token.
Close Scope string_scope.

Section flows.
Context {W : Type} `{RouteApi W}.

Definition install_flow (flow_json : list PathJson) : M W string :=
  response ← route_post add_route_url (Some flow_json);
  if bool_decide (400 ≤ rr_status response)%Z then lift (Raise ValueError)
  else lift (or_raise KeyError (rr_routeId response)).

Definition uninstall_flow (flow_token : string) : M W unit :=
  response ← route_post (remove_route_url flow_token) None;
  if bool_decide (400 ≤ rr_status response)%Z then lift (Raise ValueError) else mret tt.
End flows.

(** * OnosRouteAdder *)

Record OnosRouteAdder (F : Type) : Type := mkRouteAdder {
  ra_flows : list (MpFlow F);
  installed_route_tokens : list string
}.
Arguments mkRouteAdder {F} _ _.
Arguments ra_flows {F} _.
Arguments installed_route_tokens {F} _.

Abbreviation tag_counts := (dict (Z * Z) Z).
Abbreviation flow_tags := (dict nat (list Z)).

Section adder.
Context {W : Type} `{RouteApi W} {F : Type}.
Variable map_sw_to_dpid : Z → res string.

Definition init_route_adder (route_provider : MpTrial F) : OnosRouteAdder F :=
  mkRouteAdder (mp_flows route_provider) [].

(** [tag_counters[s, t]] of the [defaultdict(lambda: 1)]. *)
Definition tag_counter (counters : tag_counts) (flow : MpFlow F) : Z :=
  Dict.get_default 1%Z counters (mp_source_node flow, mp_destination_node flow).

(** One path of [install_route]: its dictionary, its tag, the next tag. *)
Definition tag_path (flow : MpFlow F) (acc : list PathJson * list Z * tag_counts) (path : Path F)
    : res (list PathJson * list Z * tag_counts) :=
  let '(paths_dicts, tags, tag_counters) := acc in
  nodes ← mapR map_sw_to_dpid (path_nodes path);
  let tag := tag_counter tag_counters flow in
  Ok (paths_dicts ++ [mkPathJson nodes tag], tags ++ [tag],
      Dict.set tag_counters (mp_source_node flow, mp_destination_node flow) (tag + 1)%Z).

(** A status other than 200 ends in a format string with three places for
    two values: [TypeError], not the intended [ValueError]. *)
Definition install_route (route_id : nat) (route : list (Path F)) (tag_values : flow_tags)
    (tag_counters : tag_counts) (flow : MpFlow F) : M (OnosRouteAdder F * W) (flow_tags * tag_counts) :=
  '(paths_dicts, tags, tag_counters) ← lift (foldM (tag_path flow) ([], [], tag_counters) route);
  response ← (λ s, let '(r, w) := route_post adder_add_url (Some paths_dicts) s.2 in (r, (s.1, w)));
  if bool_decide (rr_status response = 200%Z) then
    route_token ← lift (or_raise KeyError (rr_routeId response));
    modify (λ s, (mkRouteAdder (ra_flows s.1) (set_add route_token (installed_route_tokens s.1)), s.2)) ≫= λ _,
    mret (Dict.set tag_values route_id tags, tag_counters)
  else lift (Raise TypeError).

Definition install_routes : M (OnosRouteAdder F * W) flow_tags :=
  self ← gets fst;
  '(tag_values, _) ← foldS (λ '(tag_values, tag_counters) '(flow_id, flow),
    install_route flow_id (mp_paths flow) tag_values tag_counters flow) ([], []) (enumerate (ra_flows self));
  mret tag_values.

(** The answer is not looked at. *)
Definition remove_route (route_token : string) : M (OnosRouteAdder F * W) unit := λ s,
  match route_post (adder_remove_url route_token) None s.2 with
  | (Ok _, w) => (Ok tt, (s.1, w))
  | (Raise e, w) => (Raise e, (s.1, w))
  end.

Definition remove_routes : M (OnosRouteAdder F * W) unit :=
  self ← gets fst;
  for_each (installed_route_tokens self) remove_route.

Definition get_src_dst_pairs (self : OnosRouteAdder F) : list (Z * Z) :=
  set_of ((λ flow, (mp_source_node flow, mp_destination_node flow)) <$> ra_flows self).
End adder.
