(* ===== verification/Keeps.v ===== *)
(** Invariants of stateful code that hold when it returns and when it
    raises, and the bookkeeping of resources that a program adds to and
    removes from a set it shares with others. *)

From S2P Require Import Prelude.

(** * Invariants *)

(** [m] keeps [I] whether it returns or raises. *)
Definition keeps {S A} (I : S → Prop) (m : M S A) : Prop := ∀ s, I s → I (m s).2.

Section keeps.
Context {S : Type} (I : S → Prop).

Lemma keeps_ret {A} (a : A) : keeps I (mret a).
Proof. by intros s. Qed.

Lemma keeps_lift {A} (r : res A) : keeps I (lift r).
Proof. by intros s. Qed.

Lemma keeps_gets {A} (f : S → A) : keeps I (gets f).
Proof. by intros s. Qed.

Lemma keeps_modify (f : S → S) : (∀ s, I s → I (f s)) → keeps I (modify f).
Proof. intros Hf s. apply Hf. Qed.

Lemma keeps_bind {A B} (m : M S A) (f : A → M S B) :
  keeps I m → (∀ a, keeps I (f a)) → keeps I (m ≫= f).
Proof.
  intros Hm Hf s Hs. unfold mbind, M_bind. specialize (Hm s Hs).
  destruct (m s) as [[a|e] s']; [by apply Hf|done].
Qed.

(** The continuation may use what the first part is known to return. *)
Lemma keeps_bind_when {A B} (Q : A → S → Prop) (m : M S A) (f : A → M S B) :
  keeps I m → (∀ s a s', I s → m s = (Ok a, s') → Q a s') →
  (∀ a s, I s → Q a s → I (f a s).2) → keeps I (m ≫= f).
Proof.
  intros Hm Hq Hf s Hs. unfold mbind, M_bind. pose proof (Hm s Hs) as Hs'.
  destruct (m s) as [[a|e] s'] eqn:E; [|exact Hs']. exact (Hf a s' Hs' (Hq s a s' Hs E)).
Qed.

Lemma keeps_if {A} (b : bool) (m1 m2 : M S A) :
  keeps I m1 → keeps I m2 → keeps I (if b then m1 else m2).
Proof. by destruct b. Qed.

Lemma keeps_for_each {A} (body : A → M S unit) l :
  (∀ x, x ∈ l → keeps I (body x)) → keeps I (for_each l body).
Proof.
  induction l as [|x l IH]; intros Hb; cbn [for_each]; [apply keeps_ret|].
  apply keeps_bind; [apply Hb; left|]. intros _. apply IH. intros; apply Hb; by right.
Qed.

Lemma keeps_foldS {A B} (f : B → A → M S B) b l :
  (∀ b x, x ∈ l → keeps I (f b x)) → keeps I (foldS f b l).
Proof.
  revert b. induction l as [|x l IH]; intros b Hf; cbn [foldS]; [apply keeps_ret|].
  apply keeps_bind; [apply Hf; left|]. intros b'. apply IH. intros; apply Hf; by right.
Qed.

(** The first part keeps [I], which is enough for [Q] if it raises. *)
Lemma leads_bind {A B} (Q : res B → S → Prop) (m : M S A) (f : A → M S B) :
  (∀ e s, I s → Q (Raise e) s) → keeps I m → (∀ a s, I s → Q (f a s).1 (f a s).2) →
  ∀ s, I s → Q ((m ≫= f) s).1 ((m ≫= f) s).2.
Proof.
  intros HIQ Hm Hf s Hs. unfold mbind, M_bind. specialize (Hm s Hs).
  destruct (m s) as [[a|e] s']; [by apply Hf|by apply HIQ].
Qed.
End keeps.

#[export] Hint Resolve keeps_ret keeps_lift keeps_gets keeps_modify keeps_bind keeps_if : testbed.

(** * Methods of an object and the world *)

Lemma keeps_on_world {O W A} (J : O * W → Prop) (m : M W A) :
  (∀ o w, J (o, w) → J (o, (m w).2)) → keeps J (on_world m).
Proof. intros Hm [o w] HJ. unfold on_world. specialize (Hm o w HJ). simpl. by destruct (m w). Qed.

Lemma keeps_set_self {O W} (J : O * W → Prop) (f : O → O) :
  (∀ o w, J (o, w) → J (f o, w)) → keeps J (set_self f).
Proof. intros Hf [o w] HJ. by apply Hf. Qed.

#[export] Hint Resolve keeps_on_world keeps_set_self : testbed.

(** * Added resources *)

(** [cur] is [base] and the members of [l], all of them new. *)
Definition adds {A} `{Countable A} (l : list A) (base cur : gset A) : Prop :=
  NoDup l ∧ (∀ x, x ∈ l → x ∉ base) ∧ cur = list_to_set l ∪ base.

Section adds.
Context {A : Type} `{Countable A}.
Implicit Types (l : list A) (base cur : gset A).

Lemma adds_nil base : adds [] base base.
Proof. split_and!; [constructor|set_solver|set_solver]. Qed.

Lemma adds_nil_inv base cur : adds [] base cur → cur = base.
Proof. intros (_ & _ & ->). set_solver. Qed.

Lemma adds_notin l base cur x : adds l base cur → x ∉ cur → x ∉ l.
Proof. intros (_ & _ & ->). set_solver. Qed.

Lemma adds_snoc l base cur x : adds l base cur → x ∉ cur → adds (l ++ [x]) base ({[x]} ∪ cur).
Proof.
  intros Ha Hx. pose proof (adds_notin _ _ _ _ Ha Hx) as Hl. destruct Ha as (Hnd & Hnew & ->).
  split_and!.
  - apply NoDup_app. split_and!; [done| |apply NoDup_singleton].
    intros y Hy ->%list_elem_of_singleton. done.
  - intros y [Hy|Hy]%elem_of_app; [by apply Hnew|]. apply list_elem_of_singleton in Hy as ->. set_solver.
  - rewrite list_to_set_app_L. simpl. set_solver.
Qed.

Lemma adds_cons x l base cur : adds (x :: l) base cur → x ∈ cur ∧ adds l base (cur ∖ {[x]}).
Proof.
  intros ([Hx Hnd]%NoDup_cons & Hnew & ->). split; [set_solver|]. split_and!; [done|intros; apply Hnew; by right|].
  specialize (Hnew x ltac:(left)). apply set_eq. intros y.
  rewrite elem_of_difference, !elem_of_union, elem_of_singleton, !elem_of_list_to_set, elem_of_cons.
  split; [tauto|]. intros Hy. split; [tauto|]. intros ->. tauto.
Qed.

Lemma adds_set_add l base cur x : adds l base cur → x ∉ cur → adds (set_add x l) base ({[x]} ∪ cur).
Proof.
  intros Ha Hx. unfold set_add. rewrite decide_False by (by eapply adds_notin).
  by apply adds_snoc.
Qed.
End adds.
