(* ===== verification/RouteAdderProps.v ===== *)
(** The tags that [install_routes] hands out, and that [remove_routes]
    undoes it, also when it stopped half way. *)

From S2P Require Import Prelude PyDict PyStr PyFloat MpTrial Keeps RouteAdder.

(** What the controller promises of the multipath-routing endpoints, in
    terms of the set of installed routes: a request to add a route is
    answered with 200 and a new route id, or refused; a request to remove an
    installed route removes it. *)
Record route_server {W} `{RouteApi W} (routes : W → gset string) : Prop := {
  rs_add : ∀ ps w, match route_post add_route_url (Some ps) w with
    | (Ok r, w') =>
        (rr_status r = 200%Z ∧ ∃ tok, rr_routeId r = Some tok ∧ (tok ∉ routes w) ∧ routes w' = {[tok]} ∪ routes w)
        ∨ ((400 ≤ rr_status r)%Z ∧ routes w' = routes w)
    | (Raise _, w') => routes w' = routes w
    end;
  rs_remove : ∀ tok w, tok ∈ routes w → ∃ r w', route_post (remove_route_url tok) None w = (Ok r, w') ∧
    (rr_status r < 400)%Z ∧ routes w' = routes w ∖ {[tok]}
}.

Lemma adder_add_url_eq : adder_add_url = add_route_url.
Proof. by vm_compute. Qed.
Lemma adder_remove_url_eq tok : adder_remove_url tok = remove_route_url tok.
Proof. by vm_compute. Qed.

(** The tags of the flows with end points [st], in the order of the flows. *)
Definition ends {F} (f : MpFlow F) : Z * Z := (mp_source_node f, mp_destination_node f).
Definition tags_of {F} (st : Z * Z) (flows : list (MpFlow F)) (tagss : list (list Z)) : list Z :=
  concat ((λ ft : MpFlow F * list Z, if decide (ends ft.1 = st) then ft.2 else []) <$> zip flows tagss).

(** Every path has a tag, and the paths between two end points have the
    tags 1, 2, 3, ... *)
Definition tags_ok {F} (flows : list (MpFlow F)) (tag_values : flow_tags) : Prop :=
  ∃ tagss, tag_values = zip (seq 0 (length flows)) tagss ∧
    Forall2 (λ f tags, length tags = length (mp_paths f)) flows tagss ∧
    ∀ st, tags_of st flows tagss = seqZ 1 (Z.of_nat (length (tags_of st flows tagss))).

Section adder.
Context {W : Type} `{RouteApi W} {F : Type}.
Variable map_sw_to_dpid : Z → res string.
Variable routes : W → gset string.
Hypothesis server : route_server routes.
Implicit Types (flow f : MpFlow F).
Abbreviation install_route := (install_route (F:=F) map_sw_to_dpid).
Abbreviation install_routes := (install_routes (F:=F) map_sw_to_dpid).

(** ** Tags *)

Lemma tag_path_loop flow route pd tags c pd' tags' c' :
  foldM (tag_path map_sw_to_dpid flow) (pd, tags, c) route = Ok (pd', tags', c') →
  tags' = tags ++ seqZ (tag_counter c flow) (Z.of_nat (length route)) ∧
  ∀ st, Dict.get_default 1%Z c' st = (Dict.get_default 1 c st +
    if decide (ends flow = st) then Z.of_nat (length route) else 0)%Z.
Proof.
  revert pd tags c. induction route as [|p route IH]; intros pd tags c; cbn [foldM].
  - intros [= <- <- <-]. split; [by rewrite app_nil_r|]. intros st. case_decide; simpl; lia.
  - intros ([[pd1 tags1] c1] & H1 & Hrest)%bind_Ok. unfold tag_path in H1.
    apply bind_Ok in H1 as (nodes & _ & [= <- <- <-]).
    apply IH in Hrest as [-> Hc].
    assert (∀ st, Dict.get_default 1%Z (Dict.set c (ends flow) (tag_counter c flow + 1)%Z) st =
      (Dict.get_default 1 c st + if decide (ends flow = st) then 1 else 0)%Z) as Hset.
    { intros st. unfold Dict.get_default. rewrite Dict.get_set. case_decide as Hst; simpl; [|lia].
      subst st. done. }
    split.
    + rewrite <-(assoc_L (++)). f_equal. unfold tag_counter at 2. fold (ends flow).
      rewrite Hset, decide_True by done. fold (tag_counter c flow).
      rewrite (seqZ_cons (tag_counter c flow)) by (simpl length; lia). simpl. f_equal.
      unfold tag_counter, ends. f_equal; lia.
    + intros st. rewrite Hc. unfold ends in *. rewrite Hset. case_decide; simpl length; lia.
Qed.

Lemma install_route_Ok route_id flow tv c self w tv' c' self' w' :
  install_route route_id (mp_paths flow) tv c flow (self, w) = (Ok (tv', c'), (self', w')) →
  ra_flows self' = ra_flows self ∧
  tv' = Dict.set tv route_id (seqZ (tag_counter c flow) (Z.of_nat (length (mp_paths flow)))) ∧
  (∀ st, Dict.get_default 1%Z c' st = (Dict.get_default 1 c st +
    if decide (ends flow = st) then Z.of_nat (length (mp_paths flow)) else 0)%Z) ∧
  ∃ tok, installed_route_tokens self' = set_add tok (installed_route_tokens self).
Proof.
  unfold RouteAdder.install_route.
  intros ([[pd tags] c1] & s1 & [Hloop ->]%lift_Ok & Hrest)%bindS_Ok.
  apply tag_path_loop in Hloop as [-> Hc].
  apply bindS_Ok in Hrest as (r & s2 & Hpost & Hrest). simpl in Hpost.
  destruct (route_post _ _ w) as [r0 w0]. simplify_eq/=.
  case_bool_decide; [|done]. apply bindS_Ok in Hrest as (tok & s3 & [_ ->]%lift_Ok & Hrest).
  apply bindS_Ok in Hrest as ([] & s4 & Hmod & Hret). unfold modify in Hmod. simplify_eq/=.
  unfold mret, M_ret in Hret. simplify_eq. split_and!; [done..|]. by exists tok.
Qed.

Lemma tags_of_snoc st fs tagss f (tags : list Z) :
  length fs = length tagss →
  tags_of st (fs ++ [f]) (tagss ++ [tags]) = tags_of st fs tagss ++ (if decide (@ends F f = st) then tags else []).
Proof.
  intros Hl. unfold tags_of. rewrite zip_with_app by done. rewrite fmap_app, concat_app. simpl.
  by rewrite app_nil_r.
Qed.

(** What the loop of [install_routes] has established for a prefix of the
    flows. *)
Definition tagged (flows : list (MpFlow F)) (tv : flow_tags) (c : tag_counts) : Prop :=
  ∃ tagss, tv = zip (seq 0 (length flows)) tagss ∧
    Forall2 (λ f tags, length tags = length (mp_paths f)) flows tagss ∧
    ∀ st, tags_of st flows tagss = seqZ 1 (Z.of_nat (length (tags_of st flows tagss))) ∧
      Dict.get_default 1%Z c st = (1 + Z.of_nat (length (tags_of st flows tagss)))%Z.

Lemma tagged_snoc flows tv c f tv' c' :
  tagged flows tv c →
  tv' = Dict.set tv (length flows) (seqZ (tag_counter c f) (Z.of_nat (length (mp_paths f)))) →
  (∀ st, Dict.get_default 1%Z c' st = (Dict.get_default 1 c st +
    if decide (ends f = st) then Z.of_nat (length (mp_paths f)) else 0)%Z) →
  tagged (flows ++ [f]) tv' c'.
Proof.
  intros (tagss & -> & Hlen & Hst) -> Hc. pose proof (Forall2_length _ _ _ Hlen) as Hl.
  set (tags := seqZ _ _). assert (length tags = length (mp_paths f)) as Htl by (unfold tags; rewrite length_seqZ; lia).
  exists (tagss ++ [tags]). split_and!.
  - rewrite Dict.set_new.
    + rewrite length_app, seq_app, zip_with_app by (by rewrite length_seq). done.
    + apply Dict.get_None. unfold Dict.keys. rewrite fst_zip by (rewrite length_seq; lia).
      rewrite elem_of_seq. lia.
  - apply Forall2_app; [done|]. by repeat constructor.
  - intros st. rewrite tags_of_snoc by done. destruct (Hst st) as [Ht Hn]. rewrite Hc, Hn, length_app.
    case_decide as He; simpl; [|rewrite app_nil_r, Nat.add_0_r; split; [done|lia]].
    rewrite Htl. split; [|lia]. rewrite Ht at 1. unfold tags, tag_counter. fold (ends f). rewrite He, Hn.
    rewrite Nat2Z.inj_add, seqZ_app by lia. by f_equal.
Qed.

(** ** Tokens *)

(** The tokens of the object are the routes that were added to [base]. *)
Definition owns_routes (base : gset string) (s : OnosRouteAdder F * W) : Prop :=
  adds (installed_route_tokens s.1) base (routes s.2).

Lemma install_route_keeps base route_id route tv c flow :
  keeps (owns_routes base) (install_route route_id route tv c flow).
Proof.
  unfold RouteAdder.install_route. apply keeps_bind; [auto with testbed|]. intros [[pd tags] c'].
  intros [self w] Hs. unfold mbind, M_bind. simpl. rewrite adder_add_url_eq.
  pose proof (rs_add _ server pd w) as Hadd. destruct (route_post _ _ w) as [[r|e] w'].
  - destruct Hadd as [[Hr (tok & Htok & Hnew & Hroutes)]|[Hr Hsame]].
    + rewrite bool_decide_true by done. unfold owns_routes in *. rewrite Htok. simpl in *. rewrite Hroutes.
      by apply adds_set_add.
    + rewrite bool_decide_false by lia. unfold owns_routes in *. simpl in *. by rewrite Hsame.
  - unfold owns_routes in *. simpl in *. by rewrite Hadd.
Qed.

Lemma install_routes_keeps base : keeps (owns_routes base) install_routes.
Proof.
  unfold RouteAdder.install_routes. apply keeps_bind; [auto with testbed|]. intros self.
  apply keeps_bind; [|intros [tv c]; auto with testbed]. apply keeps_foldS.
  intros [tv c] [i f] _. apply install_route_keeps.
Qed.

Lemma remove_routes_all base toks (self : OnosRouteAdder F) w :
  adds toks base (routes w) →
  ∃ w', for_each toks remove_route (self, w) = (Ok tt, (self, w')) ∧ routes w' = base.
Proof.
  revert w. induction toks as [|tok toks IH]; intros w Ha; cbn [for_each].
  - exists w. split; [done|]. by apply adds_nil_inv.
  - apply adds_cons in Ha as [Hin Ha]. destruct (rs_remove _ server tok w Hin) as (r & w1 & Hr & _ & Hw1).
    rewrite (bindS_run _ _ _ tt (self, w1)).
    + apply IH. by rewrite Hw1.
    + unfold remove_route. simpl. by rewrite adder_remove_url_eq, Hr.
Qed.

End adder.

(** A controller with room for three routes. *)
Definition demo_route_post (url : string) (body : option (list PathJson)) (w : gset string)
    : res RouteResponse * gset string :=
  match body with
  | Some _ => if decide (size w < 3) then (Ok (mkRouteResponse 200 (Some (fresh w))), {[fresh w]} ∪ w)
              else (Ok (mkRouteResponse 507 None), w)
  | None => (Ok (mkRouteResponse 200 None), filter (λ tok, remove_route_url tok ≠ url) w)
  end.
#[export] Instance demo_route_api : RouteApi (gset string) := {| route_post := demo_route_post |}.

Lemma remove_route_url_inj tok tok' : remove_route_url tok = remove_route_url tok' → tok = tok'.
Proof. unfold remove_route_url. intros Heq. by apply (inj _), (inj _) in Heq. Qed.

Lemma demo_route_server : route_server (W := gset string) id.
Proof.
  split.
  - intros ps w. unfold route_post, demo_route_api, demo_route_post. case_decide; [left|right; done]. split; [done|].
    exists (fresh w). split_and!; [done|apply is_fresh|done].
  - intros tok w _. exists (mkRouteResponse 200 None), (filter (λ t, remove_route_url t ≠ remove_route_url tok) w).
    split; [reflexivity|]. split; [done|]. unfold id. apply set_eq. intros x.
    rewrite elem_of_filter, elem_of_difference, elem_of_singleton. split.
    + intros [Hne ?]. split; [done|]. by intros ->.
    + intros [? Hne]. split; [|done]. by intros ?%remove_route_url_inj.
Qed.

Definition demo_route_flow (s t : Z) : MpFlow unit := mkMpFlow s t [mkPath [s; t] tt; mkPath [s; 9%Z; t] tt] tt tt [].
Definition demo_names (n : Z) : res string := Ok (str_of_Z n).

