(* ===== verification/VirtualHost.v ===== *)
(** The virtual hosts of [rest_client/virtual_hosts/virtual_host.py]: an
    address on a local interface and a rewriting rule in the controller,
    created together and destroyed together, and the processes that the
    three subclasses run on such a host.

    The operating system ([subprocess], [netifaces]) and the controller
    ([requests.post]) are an interface [HostEnv] over a state [W]; an
    operation of it can raise. Printing is not modelled. *)

From Stdlib Require Import Ascii.
From S2P Require Import Prelude PyDict PyStr PyFloat PyText.

(** The body of [create-virtual-host]. *)
Record VirtualHostRequest : Type := mkVirtualHostRequest {
  vr_ingressNode : string;
  vr_virtualHostMacAddress : string;
  vr_actualHostMacAddress : string;
  vr_virtualHostIpAddress : string;
  vr_actualHostIpAddress : string
}.

(** An answer: the status, and the member [virtual-host-id] of its JSON. *)
Record VirtualHostResponse : Type := mkVirtualHostResponse {
  vresp_status : Z;
  vresp_host_id : option string
}.

(** [bool(response)] of requests: not a client or server error. *)
Definition response_ok (r : VirtualHostResponse) : bool := bool_decide (vresp_status r < 400)%Z.

Class HostEnv (W : Type) : Type := {
  subprocess_run : list string → M W Z;
  iface_mac_address : string → M W string;
  requests_post : string → option VirtualHostRequest → M W VirtualHostResponse;
  popen : list string → M W nat;
  send_sigint : nat → M W unit;
  terminate : nat → M W unit;
  communicate : nat → M W unit;
  returncode : nat → M W (option Z);
  process_wait : nat → M W Z
}.

Local Open Scope string_scope.

(** ** virtual_hosts/params.py *)

Definition iface_name : string := "ens192".
Definition of_controller_ip : string := "10.0.0.8".
Definition of_controller_port : Z := 8181.
Definition onos_url : string :=
  "http://" +:+ of_controller_ip +:+ ":" +:+ str_of_Z of_controller_port +:+ "/onos/".

(** [urljoin] of a base that ends in a slash and a relative path. *)
Definition create_host_url : string := onos_url +:+ "virtual-hosts/v1/create-virtual-host".
Definition destroy_host_url (token : string) : string :=
  onos_url +:+ "virtual-hosts/v1/destroy-virtual-host?virtual-host-id=" +:+ token.

Definition build_ip_addr_add_cmd (ip : string) (mask_length : Z) (iface : string) : list string :=
  str_split space ("ip addr add " +:+ ip +:+ "/" +:+ str_of_Z mask_length +:+ " dev " +:+ iface).
Definition build_del_ip_addr_cmd (ip : string) (mask_length : Z) (iface : string) : list string :=
  str_split space ("ip addr del " +:+ ip +:+ "/" +:+ str_of_Z mask_length +:+ " dev " +:+ iface).

(** * The host *)

Record VirtualHost : Type := mkVirtualHost {
  vh_actual_host_mac : string;
  vh_actual_host_ip : string;
  vh_virtual_host_mac : string;
  vh_virtual_host_ip : string;
  vh_ingress_node_device_id : string;
  vh_token : string
}.

Section host.
Context {W : Type} `{HostEnv W}.

Definition _install_virtual_host (actual_host_mac actual_host_ip virtual_host_mac virtual_host_ip
    ingress_node_device_id : string) : M W string :=
  response ← requests_post create_host_url (Some (mkVirtualHostRequest ingress_node_device_id
    virtual_host_mac actual_host_mac virtual_host_ip actual_host_ip));
  if negb (response_ok response) then lift (Raise ValueError)
  else lift (or_raise KeyError (vresp_host_id response)).

Definition _initialize_local_network_interface (iface actual_host_ip_address : string) : M W string :=
  code ← subprocess_run (build_ip_addr_add_cmd actual_host_ip_address 24 iface);
  if bool_decide (code ≠ 0%Z) then lift (Raise ValueError)
  else iface_mac_address iface.

Definition _remove_local_network_interface (iface actual_host_ip_address : string) : M W unit :=
  code ← subprocess_run (build_del_ip_addr_cmd actual_host_ip_address 24 iface);
  if bool_decide (code ≠ 0%Z) then lift (Raise ValueError) else mret tt.

Definition _uninstall_virtual_host (virtual_host_token : string) : M W unit :=
  response ← requests_post (destroy_host_url virtual_host_token) None;
  if negb (response_ok response) then lift (Raise ValueError) else mret tt.

(** The handler of [initialize_virtual_host_persistent_state], on the values
    its two variables have when the exception is raised. An exception of the
    handler itself replaces [ex]. *)
Definition rollback {A} (actual_host_mac virtual_host_token : option string) (actual_host_ip : string)
    (ex : exn) : M W A :=
  (if bool_decide (actual_host_mac ≠ None)
   then _remove_local_network_interface iface_name actual_host_ip else mret tt) ≫= λ _,
  (match virtual_host_token with
   | Some token => _uninstall_virtual_host token
   | None => mret tt
   end) ≫= λ _,
  lift (Raise ex).

Definition initialize_virtual_host_persistent_state (virtual_host_mac virtual_host_ip actual_host_ip
    ingress_node_device_id : string) : M W (string * string) := λ w,
  match _initialize_local_network_interface iface_name actual_host_ip w with
  | (Raise ex, w) => rollback None None actual_host_ip ex w
  | (Ok actual_host_mac, w) =>
      match _install_virtual_host actual_host_mac actual_host_ip virtual_host_mac virtual_host_ip
              ingress_node_device_id w with
      | (Raise ex, w) => rollback (Some actual_host_mac) None actual_host_ip ex w
      | (Ok virtual_host_token, w) => (Ok (actual_host_mac, virtual_host_token), w)
      end
  end.

Definition destroy_virtual_host (self : VirtualHost) : M W unit :=
  _uninstall_virtual_host (vh_token self) ≫= λ _,
  _remove_local_network_interface iface_name (vh_actual_host_ip self).

(** The part of [create_virtual_host] that the three subclasses share. *)
Definition create_host (virtual_host_mac virtual_host_ip actual_host_ip ingress_node_device_id : string)
    : M W VirtualHost :=
  '(actual_host_mac, virtual_host_token) ← initialize_virtual_host_persistent_state virtual_host_mac
    virtual_host_ip actual_host_ip ingress_node_device_id;
  mret (mkVirtualHost actual_host_mac actual_host_ip virtual_host_mac virtual_host_ip
    ingress_node_device_id virtual_host_token).
End host.

(** [subprocess.Popen] refuses an argument that is not a string. *)
Definition popen_args (args : list (option string)) : res (list string) :=
  mapR (or_raise TypeError) args.

(** * TrafficGenerationVirtualHost *)

(** One entry of the list that is passed to traffic_gen.py as JSON. *)
Record ClientArgs (F : Type) : Type := mkClientArgs {
  ca_dest_port : Z;
  ca_dest_addr : string;
  ca_prob_mat : option (list F);
  ca_tx_rate : F;
  ca_variance : F;
  ca_traffic_model : string;
  ca_packet_len : Z;
  ca_src_host : Z;
  ca_time_slice : Z;
  ca_tag_value : list Z;
  ca_source_addr : string
}.
Arguments mkClientArgs {F} _ _ _ _ _ _ _ _ _ _ _.
Arguments ca_dest_port {F} _.
Arguments ca_dest_addr {F} _.
Arguments ca_prob_mat {F} _.
Arguments ca_tx_rate {F} _.
Arguments ca_variance {F} _.
Arguments ca_traffic_model {F} _.
Arguments ca_packet_len {F} _.
Arguments ca_src_host {F} _.
Arguments ca_time_slice {F} _.
Arguments ca_tag_value {F} _.
Arguments ca_source_addr {F} _.

Record TrafficGenerationVirtualHost (F : Type) : Type := mkTrafficHost {
  tg_host : VirtualHost;
  tg_host_id : Z;
  tg_server_process : option nat;
  tg_client_process : option nat;
  tg_configured_flows : list (ClientArgs F)
}.
Arguments mkTrafficHost {F} _ _ _ _ _.
Arguments tg_host {F} _.
Arguments tg_host_id {F} _.
Arguments tg_server_process {F} _.
Arguments tg_client_process {F} _.
Arguments tg_configured_flows {F} _.

Definition TG_BIN_DIR : string := "/home/cpsc-net-user/repos/cpsc_of_testbed/traffic_generation/".

Section traffic_host.
Context {W : Type} `{HostEnv W} {F : Type} `{PyFloat F}.
Variable json_dumps : list (ClientArgs F) → string.
Abbreviation Self := (TrafficGenerationVirtualHost F).

Definition tg_create_virtual_host (host_id : Z) (virtual_host_mac virtual_host_ip actual_host_ip
    ingress_node_device_id : string) : M W Self :=
  host ← create_host virtual_host_mac virtual_host_ip actual_host_ip ingress_node_device_id;
  mret (mkTrafficHost host host_id None None []).

Definition start_traffic_generation_server : M (Self * W) unit :=
  self ← gets fst;
  process ← on_world (popen [TG_BIN_DIR +:+ "traffic_server.py"; "-host"; str_of_Z (tg_host_id self);
    "-source_addr"; vh_actual_host_ip (tg_host self)]);
  set_self (λ self, mkTrafficHost (tg_host self) (tg_host_id self) (Some process)
    (tg_client_process self) (tg_configured_flows self)).

Definition stop_traffic_generation_server : M (Self * W) unit :=
  self ← gets fst;
  match tg_server_process self with
  | None => lift (Raise ValueError)
  | Some process => on_world (send_sigint process)
  end.

Definition configure_flow (tx_rate tx_rate_std_dev : F) (traffic_model dest_ip : string) (port_num : Z)
    (k_mat : option (list F)) (time_slice : Z) (tag_values : list Z) (pkt_len : Z) (self : Self) : Self :=
  let client_args := mkClientArgs port_num dest_ip k_mat tx_rate (fmul tx_rate_std_dev tx_rate_std_dev)
    traffic_model pkt_len (tg_host_id self) time_slice tag_values (vh_actual_host_ip (tg_host self)) in
  mkTrafficHost (tg_host self) (tg_host_id self) (tg_server_process self) (tg_client_process self)
    (tg_configured_flows self ++ [client_args]).

Definition start_traffic_generation_client : M (Self * W) unit :=
  self ← gets fst;
  if bool_decide (0 < length (tg_configured_flows self)) then
    process ← on_world (popen [TG_BIN_DIR +:+ "traffic_gen.py"; json_dumps (tg_configured_flows self)]);
    set_self (λ self, mkTrafficHost (tg_host self) (tg_host_id self) (tg_server_process self)
      (Some process) (tg_configured_flows self))
  else mret tt.

Definition stop_traffic_generation_client : M (Self * W) unit :=
  self ← gets fst;
  if bool_decide (length (tg_configured_flows self) = 0) then mret tt
  else match tg_client_process self with
  | None => lift (Raise ValueError)
  | Some process =>
      on_world (send_sigint process) ≫= λ _,
      code ← on_world (returncode process);
      if bool_decide (code ≠ Some 0%Z) then on_world (communicate process) else mret tt
  end.

Definition tg_destroy_virtual_host : M (Self * W) unit :=
  self ← gets fst;
  on_world (destroy_virtual_host (tg_host self)) ≫= λ _,
  (if bool_decide (tg_client_process self ≠ None) then stop_traffic_generation_client else mret tt) ≫= λ _,
  (if bool_decide (tg_server_process self ≠ None) then stop_traffic_generation_server else mret tt).
End traffic_host.

(** * PathHoppingSender and PathHoppingReceiver *)

(** Both have one process: [_sender_process] and [_receiver_process]. *)
Record PathHoppingHost : Type := mkPathHoppingHost {
  php_host : VirtualHost;
  php_host_id : Z;
  php_process : option nat
}.

Definition SENDER_BIN_DIR : string := "/home/cpsc-net-user/repos/mtd-crypto-impl/endpoint/sender".
Definition RECEIVER_BIN_DIR : string := "/home/cpsc-net-user/repos/mtd-crypto-impl/endpoint/receiver".

Section path_hopping_host.
Context {W : Type} `{HostEnv W}.

Definition ph_create_virtual_host (host_id : Z) (virtual_host_mac virtual_host_ip actual_host_ip
    ingress_node_device_id : string) : M W PathHoppingHost :=
  host ← create_host virtual_host_mac virtual_host_ip actual_host_ip ingress_node_device_id;
  mret (mkPathHoppingHost host host_id None).

(** [if self._process != None: raise ...; self._process = Popen(args)] *)
Definition start_process (args : VirtualHost → list (option string)) : M (PathHoppingHost * W) unit :=
  self ← gets fst;
  if bool_decide (php_process self ≠ None) then lift (Raise ValueError)
  else
    words ← lift (popen_args (args (php_host self)));
    process ← on_world (popen words);
    set_self (λ self, mkPathHoppingHost (php_host self) (php_host_id self) (Some process)).

(** Terminates the process and waits; a non-zero return code is printed. *)
Definition stop_process : M (PathHoppingHost * W) unit :=
  self ← gets fst;
  match php_process self with
  | None => lift (Raise ValueError)
  | Some process => on_world (terminate process) ≫= λ _, on_world (communicate process)
  end.

Definition start_path_hopping_sender (port K N data_file message_size timestep hop_probability reliable
    hop_method : option string) : M (PathHoppingHost * W) unit :=
  start_process (λ host,
    [Some SENDER_BIN_DIR; Some "-h"; Some (vh_actual_host_ip host); Some "-p"; port; Some "-k"; K;
     Some "-n"; N; Some "-file"; data_file; Some "-m"; message_size; Some "-timestep"; timestep;
     Some "-lambda"; hop_probability; Some "-reliable"; reliable; Some "-hop"; hop_method]).

Definition stop_path_hopping_sender : M (PathHoppingHost * W) unit := stop_process.

Definition start_path_hopping_receiver (sender_ip port data_file timestep hopping_probability
    : option string) : M (PathHoppingHost * W) unit :=
  start_process (λ host,
    [Some RECEIVER_BIN_DIR; Some "-h"; sender_ip; Some "-p"; port; Some "-file"; data_file;
     Some "-timestep"; timestep; Some "-lambda"; hopping_probability; Some "-local_addr";
     Some (vh_actual_host_ip host)]).

Definition stop_path_hopping_receiver : M (PathHoppingHost * W) unit := stop_process.

Definition ph_destroy_virtual_host : M (PathHoppingHost * W) unit :=
  self ← gets fst;
  on_world (destroy_virtual_host (php_host self)) ≫= λ _,
  if bool_decide (php_process self ≠ None) then stop_process else mret tt.

(** The receiver's class repeats the two methods of the sender's. *)
Definition receiver_create_virtual_host (host_id : Z) (virtual_host_mac virtual_host_ip actual_host_ip
    ingress_node_device_id : string) : M W PathHoppingHost :=
  ph_create_virtual_host host_id virtual_host_mac virtual_host_ip actual_host_ip ingress_node_device_id.
Definition receiver_destroy_virtual_host : M (PathHoppingHost * W) unit := ph_destroy_virtual_host.

Definition wait_until_done : M (PathHoppingHost * W) Z :=
  self ← gets fst;
  match php_process self with
  | None => lift (Raise ValueError)
  | Some process => on_world (process_wait process)
  end.
End path_hopping_host.
