(* ===== verification/VirtualHostProps.v ===== *)
(** Creating and destroying virtual hosts: both parts of a host, the address
    on the interface and the rule in the controller, come and go together. *)

From Stdlib Require Import Ascii.
From S2P Require Import Prelude PyDict PyStr PyFloat PyText Keeps VirtualHost.

(** ** The command lines *)

Definition ip_addr_words (op ip iface : string) : list string :=
  ["ip"; "addr"; op; ip +:+ "/24"; "dev"; iface]%string.

Lemma ip_addr_split op ip iface cmd :
  word op = true → word ip = true → word iface = true → cmd = join_words (ip_addr_words op ip iface) →
  str_split space cmd = ip_addr_words op ip iface.
Proof.
  intros Hop Hip Hif ->. apply split_join_words; [done|]. repeat constructor; try done.
  unfold word in *. by rewrite str_all_app, Hip.
Qed.

Lemma ip_addr_add_words ip iface :
  word ip = true → word iface = true → build_ip_addr_add_cmd ip 24 iface = ip_addr_words "add" ip iface.
Proof.
  intros Hip Hif. apply ip_addr_split; [done..|]. unfold ip_addr_words. cbn [join_words].
  by rewrite str_app_assoc.
Qed.

Lemma ip_addr_del_words ip iface :
  word ip = true → word iface = true → build_del_ip_addr_cmd ip 24 iface = ip_addr_words "del" ip iface.
Proof.
  intros Hip Hif. apply ip_addr_split; [done..|]. unfold ip_addr_words. cbn [join_words].
  by rewrite str_app_assoc.
Qed.

(** * What the operating system and the controller promise *)

(** The addresses of the interfaces, the virtual hosts of the controller,
    and the rest of the state that is of interest. *)
Section laws.
Context {W : Type} `{HostEnv W} {X : Type}.
Variable addrs : W → gset (string * string).
Variable vhosts : W → gset string.
Variable other : W → X.

Definition see (w : W) : gset (string * string) * gset string * X := (addrs w, vhosts w, other w).

(** [ip addr add] fails or adds a new address, [ip addr del] removes an
    address, [create-virtual-host] is refused or answered with a new id,
    [destroy-virtual-host] removes an existing host; the interface has a
    hardware address; processes do not change addresses or hosts. *)
Record host_env_laws : Prop := {
  he_addr_add : ∀ ip iface w, match subprocess_run (ip_addr_words "add" ip iface) w with
    | (Ok code, w') => if decide (code = 0%Z)
        then ((iface, ip) ∉ addrs w) ∧ see w' = ({[(iface, ip)]} ∪ addrs w, vhosts w, other w)
        else see w' = see w
    | (Raise _, w') => see w' = see w
    end;
  he_addr_del : ∀ ip iface w, (iface, ip) ∈ addrs w → ∃ w',
    subprocess_run (ip_addr_words "del" ip iface) w = (Ok 0%Z, w') ∧
    see w' = (addrs w ∖ {[(iface, ip)]}, vhosts w, other w);
  he_mac : ∀ iface w, ∃ mac w', iface_mac_address iface w = (Ok mac, w') ∧ see w' = see w;
  he_create : ∀ r w, match requests_post create_host_url (Some r) w with
    | (Ok resp, w') => if response_ok resp
        then ∃ tok, vresp_host_id resp = Some tok ∧ (tok ∉ vhosts w) ∧
          see w' = (addrs w, {[tok]} ∪ vhosts w, other w)
        else see w' = see w
    | (Raise _, w') => see w' = see w
    end;
  he_destroy : ∀ tok w, tok ∈ vhosts w → ∃ resp w',
    requests_post (destroy_host_url tok) None w = (Ok resp, w') ∧ response_ok resp = true ∧
    see w' = (addrs w, vhosts w ∖ {[tok]}, other w);
  he_popen : ∀ args w, see (popen args w).2 = see w;
  he_sigint : ∀ p w, see (send_sigint p w).2 = see w;
  he_terminate : ∀ p w, see (terminate p w).2 = see w;
  he_communicate : ∀ p w, see (communicate p w).2 = see w;
  he_returncode : ∀ p w, see (returncode p w).2 = see w;
  he_wait : ∀ p w, see (process_wait p w).2 = see w
}.

Hypothesis laws : host_env_laws.

Lemma add_interface ip w :
  word ip = true → match _initialize_local_network_interface iface_name ip w with
  | (Ok _, w') => ((iface_name, ip) ∉ addrs w) ∧ see w' = ({[(iface_name, ip)]} ∪ addrs w, vhosts w, other w)
  | (Raise _, w') => see w' = see w
  end.
Proof.
  intros Hip. unfold _initialize_local_network_interface, mbind, M_bind.
  rewrite ip_addr_add_words by done. pose proof (he_addr_add laws ip iface_name w) as Hadd.
  destruct (subprocess_run _ w) as [[code|e] w1]; [|done].
  case_decide; subst.
  - destruct Hadd as [Hnew Hsee]. rewrite bool_decide_false by tauto.
    destruct (he_mac laws iface_name w1) as (mac & w2 & -> & ->). done.
  - by rewrite bool_decide_true by done.
Qed.

Lemma remove_interface ip w :
  word ip = true → (iface_name, ip) ∈ addrs w → ∃ w',
    _remove_local_network_interface iface_name ip w = (Ok tt, w') ∧
    see w' = (addrs w ∖ {[(iface_name, ip)]}, vhosts w, other w).
Proof.
  intros Hip Hin. destruct (he_addr_del laws ip iface_name w Hin) as (w1 & Hrun & Hsee).
  exists w1. split; [|done]. unfold _remove_local_network_interface, mbind, M_bind.
  rewrite ip_addr_del_words by done. by rewrite Hrun.
Qed.

Lemma install_host mac ip vmac vip dev w :
  match _install_virtual_host mac ip vmac vip dev w with
  | (Ok tok, w') => (tok ∉ vhosts w) ∧ see w' = (addrs w, {[tok]} ∪ vhosts w, other w)
  | (Raise _, w') => see w' = see w
  end.
Proof.
  unfold _install_virtual_host, mbind, M_bind. pose proof (he_create laws (mkVirtualHostRequest dev vmac mac vip ip) w) as Hc.
  destruct (requests_post _ _ w) as [[resp|e] w1]; [|done].
  destruct (response_ok resp); [|done]. destruct Hc as (tok & Htok & Hnew & Hsee). simpl. by rewrite Htok.
Qed.

Lemma uninstall_host tok w :
  tok ∈ vhosts w → ∃ w', _uninstall_virtual_host tok w = (Ok tt, w') ∧
    see w' = (addrs w, vhosts w ∖ {[tok]}, other w).
Proof.
  intros Hin. destruct (he_destroy laws tok w Hin) as (resp & w1 & Hrun & Hok & Hsee).
  exists w1. split; [|done]. unfold _uninstall_virtual_host, mbind, M_bind. by rewrite Hrun, Hok.
Qed.

Lemma initialize_spec vmac vip ip dev w :
  word ip = true → match initialize_virtual_host_persistent_state vmac vip ip dev w with
  | (Ok (_, tok), w') => ((iface_name, ip) ∉ addrs w) ∧ (tok ∉ vhosts w) ∧
      see w' = ({[(iface_name, ip)]} ∪ addrs w, {[tok]} ∪ vhosts w, other w)
  | (Raise _, w') => see w' = see w
  end.
Proof.
  intros Hip. unfold initialize_virtual_host_persistent_state.
  pose proof (add_interface ip w Hip) as Hadd.
  destruct (_initialize_local_network_interface iface_name ip w) as [[mac|e] w1]; [|exact Hadd].
  destruct Hadd as [Hnew Hw1]. pose proof (install_host mac ip vmac vip dev w1) as Hinst.
  unfold see in Hw1. simplify_eq.
  destruct (_install_virtual_host mac ip vmac vip dev w1) as [[tok|e] w2].
  - destruct Hinst as [Htok ->]. split_and!; congruence.
  - unfold see in Hinst. simplify_eq. unfold rollback, mbind, M_bind. rewrite bool_decide_true by done.
    destruct (remove_interface ip w2 Hip) as (w3 & -> & Hw3); [set_solver|]. simpl.
    rewrite Hw3. unfold see. f_equal; [f_equal|]; [|congruence..]. set_solver.
Qed.
End laws.
