(* ===== verification/PathHoppingTrial.v ===== *)
(** The driver of the path hopping trials on the testbed (path_hopping.py):
    it creates the virtual hosts, installs the flows, measures the links and
    removes everything again. It composes the virtual hosts, the routes, the
    monitor, the topology mapping and the trials of the other files.

    One state [W] stands for the network and the machine, seen through the
    interfaces of those components. The parameters of a trial that are
    objects live in a heap. Waiting and printing are not modelled. *)

From Stdlib Require Import Ascii.
From S2P Require Import Prelude PyDict PyStr PyFloat Accum FlowAllocation TopoMapper StatMonitor TrialStore MpTrial RouteAdder VirtualHost.
Close Scope string_scope.

(** [nx.complete_graph(n)] *)
Definition complete_graph {G} `{NxGraph Z G} (n : nat) : G :=
  foldl (λ g e, nx_add_edge e.1 e.2 g) (foldl (λ g v, nx_add_node v g) nx_empty (seqZ 0 (Z.of_nat n)))
    (filter (λ e, e.1 < e.2)%Z (u ← seqZ 0 (Z.of_nat n); (λ v, (u, v)) <$> seqZ 0 (Z.of_nat n))).

(** ["%02d" % z] for a non-negative number. *)
Definition fmt_02d (z : Z) : string :=
  if bool_decide (z < 10)%Z then String.append "0" (str_of_Z z) else str_of_Z z.

(** The objects that are parameters of the trials. *)
Inductive object (F : Type) : Type :=
  | OFlowSet (flows : list (Flow F))
  | OByteCounts (counts : list (list IfaceStats))
  | OLinkRates (rates : list (dict link_key F))
  | OMeanRates (means : dict link_key F).
Arguments OFlowSet {F} _.
Arguments OByteCounts {F} _.
Arguments OLinkRates {F} _.
Arguments OMeanRates {F} _.

(** The variables of [conduct_path_hopping_trial]. *)
Record TrialRun (F : Type) : Type := mkTrialRun {
  tr_hosts : dict Z (TrafficGenerationVirtualHost F);
  tr_flow_tokens : list string;
  tr_tag_values : dict (Z * Z) Z;
  tr_monitor : OnMonitor;
  tr_trial : Trial;
  tr_heap : list (object F)
}.
Arguments mkTrialRun {F} _ _ _ _ _ _.
Arguments tr_hosts {F} _.
Arguments tr_flow_tokens {F} _.
Arguments tr_tag_values {F} _.
Arguments tr_monitor {F} _.
Arguments tr_trial {F} _.
Arguments tr_heap {F} _.

Section rates.
Context {F : Type} `{PyFloat F}.

(** The driver's copies of the functions of stat_monitor.py count the bytes
    of both directions and use another unit. *)
Definition ph_compute_tx_rate (count_in_bytes : F) : F :=
  fquot (fmul count_in_bytes (f_of_Z 8)) (f_of_Z (10 ^ 7)).

Definition ph_count_delta (t_1 : list IfaceStats) (iface_stats : IfaceStats) : Z :=
  let t_0_count := (bytesSent iface_stats + bytesReceived iface_stats)%Z in
  let t_1_count :=
    match find_matching_iface_stats t_1 (sourceSwitchId iface_stats) (destinationSwitchId iface_stats) with
    | Ok t_1_stats => (bytesSent t_1_stats + bytesReceived t_1_stats)%Z
    | Raise _ => t_0_count
    end in
  (t_1_count - t_0_count)%Z.

Definition ph_byte_count_delta (t_0 t_1 : list IfaceStats) : dict link_key F :=
  foldl (λ d iface_stats, add_default d (iface_link iface_stats) (f_of_Z (ph_count_delta t_1 iface_stats)))
    [] t_0.

(** [link_byte_counts[0]] is printed: [IndexError] without a snapshot. *)
Definition ph_link_utilization_over_time (link_byte_counts : list (list IfaceStats))
    : res (list (dict link_key F)) :=
  _ ← py_index link_byte_counts 0;
  Ok ((λ '(t_0, t_1), (λ kv, (kv.1, ph_compute_tx_rate kv.2)) <$> ph_byte_count_delta t_0 t_1)
        <$> pairwise link_byte_counts).

Variable np_mean : list F → F.

Definition ph_mean_link_utilization (link_byte_counts : list (list IfaceStats)) : res (dict link_key F) :=
  link_util_t ← ph_link_utilization_over_time link_byte_counts;
  Ok (foldl (λ mean_link_utils link_key,
        Dict.set mean_link_utils link_key (np_mean (omap (λ d_i, Dict.get d_i link_key) link_util_t)))
      [] (collect_all_link_keys link_util_t)).

Definition scale_flow_tx_rate (normalized_flow_tx_rate : F) : F :=
  fquot (fmul normalized_flow_tx_rate (f_of_Z (10 ^ 7))) (f_of_Z 8).
End rates.

(** One path: its nodes and the next tag of its end points, from the
    [defaultdict(int)] that all flows of a trial share. *)
Definition path_to_json (id_to_dpid : dict Z string) (acc : list PathJson * list Z) (path : list Z)
    : M (dict (Z * Z) Z) (list PathJson * list Z) :=
  source_node ← lift (py_index path 0);
  destination_node ← lift (py_index path (-1));
  nodes ← lift (mapR (Dict.getitem id_to_dpid) path);
  tag_values ← get_st;
  let tag := Dict.get_default 0%Z tag_values (source_node, destination_node) in
  modify (λ d, Dict.set d (source_node, destination_node) (tag + 1)%Z) ≫= λ _,
  mret (acc.1 ++ [mkPathJson nodes tag], acc.2 ++ [tag]).

Definition simple_paths_to_flow_json (id_to_dpid : dict Z string) (simple_paths : list (list Z))
    : M (dict (Z * Z) Z) (list PathJson * list Z) :=
  foldS (path_to_json id_to_dpid) ([], []) simple_paths.

Section driver.
Context {W : Type} `{HostEnv W} `{RouteApi W} {F : Type} `{PyFloat F}.
Variable json_dumps : list (ClientArgs F) → string.
Abbreviation Hosts := (dict Z (TrafficGenerationVirtualHost F)).

(** An exception of a host is printed. *)
Definition destroy_all_hosts (hosts : Hosts) : M W unit :=
  for_each (Dict.values hosts) (λ host w, (Ok tt, (tg_destroy_virtual_host (host, w)).2.2)).

Definition remove_all_flows (flow_tokens : list string) : M W unit :=
  for_each flow_tokens (λ flow_token w, (Ok tt, (uninstall_flow flow_token w).2)).

Definition create_next_host (id_to_dpid : dict Z string) (host_id : Z) : M (Hosts * W) unit :=
  ingress_node_device_id ← lift (Dict.getitem id_to_dpid (host_id - 1)%Z);
  the_virtual_host ← on_world (tg_create_virtual_host host_id
    (String.append "00:02:00:00:00:" (fmt_02d host_id)) (String.append "10.10.0." (str_of_Z host_id))
    (String.append "192.168.1." (str_of_Z host_id)) ingress_node_device_id);
  set_self (λ hosts, Dict.set hosts host_id the_virtual_host).

Definition create_virtual_hosts (id_to_dpid : dict Z string) : M W Hosts := λ w,
  match for_each (seqZ 1 10) (create_next_host id_to_dpid) ([], w) with
  | (Ok _, (hosts, w)) => (Ok hosts, w)
  | (Raise ex, (hosts, w)) => (destroy_all_hosts hosts ≫= λ _, lift (Raise ex)) w
  end.

(** ** The trial *)

Abbreviation State := (TrialRun F * W)%type.

Definition set_hosts (hosts : Hosts) (st : TrialRun F) : TrialRun F :=
  mkTrialRun hosts (tr_flow_tokens st) (tr_tag_values st) (tr_monitor st) (tr_trial st) (tr_heap st).

(** A method of [hosts[host_id]]: the object keeps what the method changed
    before it raised. *)
Definition on_host (host_id : Z) (m : M (TrafficGenerationVirtualHost F * W) unit) : M State unit := λ s,
  match Dict.get (tr_hosts s.1) host_id with
  | None => (Raise KeyError, s)
  | Some host =>
      let '(r, (host, w)) := m (host, s.2) in
      (r, (set_hosts (Dict.set (tr_hosts s.1) host_id host) s.1, w))
  end.

Definition on_all_hosts (m : M (TrafficGenerationVirtualHost F * W) unit) : M State unit :=
  st ← gets fst;
  for_each (Dict.keys (tr_hosts st)) (λ host_id, on_host host_id m).

Definition on_monitor {A} (m : M (OnMonitor * W) A) : M State A := λ s,
  let '(r, (mon, w)) := m (tr_monitor s.1, s.2) in
  (r, (mkTrialRun (tr_hosts s.1) (tr_flow_tokens s.1) (tr_tag_values s.1) mon (tr_trial s.1) (tr_heap s.1), w)).

Definition on_tags {A} (m : M (dict (Z * Z) Z) A) : M State A := λ s,
  let '(r, tags) := m (tr_tag_values s.1) in
  (r, (mkTrialRun (tr_hosts s.1) (tr_flow_tokens s.1) tags (tr_monitor s.1) (tr_trial s.1) (tr_heap s.1), s.2)).

(** [the_trial.add_parameter(name, o)] for a new object [o]. *)
Definition add_object (name : string) (o : object F) : M State unit := λ s,
  match add_parameter (tr_trial s.1) name (VObj (length (tr_heap s.1))) with
  | Raise e => (Raise e, s)
  | Ok trial => (Ok tt, (mkTrialRun (tr_hosts s.1) (tr_flow_tokens s.1) (tr_tag_values s.1) (tr_monitor s.1)
                           trial (tr_heap s.1 ++ [o]), s.2))
  end.

(** [for flow in v] and [time.sleep(v)] *)
Definition flow_set_of (heap : list (object F)) (v : value) : res (list (Flow F)) :=
  match v with
  | VObj oid => match heap !! oid with Some (OFlowSet flows) => Ok flows | _ => Raise TypeError end
  | _ => Raise TypeError
  end.
Definition sleep (v : value) : res unit :=
  match v with
  | VInt z => if bool_decide (z < 0)%Z then Raise ValueError else Ok tt
  | _ => Raise TypeError
  end.

Definition add_token (token : string) (st : TrialRun F) : TrialRun F :=
  mkTrialRun (tr_hosts st) (set_add token (tr_flow_tokens st)) (tr_tag_values st) (tr_monitor st)
    (tr_trial st) (tr_heap st).

Definition install_trial_flow (id_to_dpid : dict Z string) (flow : Flow F) : M State unit :=
  simple_paths ← lift (or_raise TypeError (paths flow));
  '(flow_json, tag_values_for_flow) ← on_tags (simple_paths_to_flow_json id_to_dpid simple_paths);
  flow_token ← on_world (install_flow flow_json);
  set_self (add_token flow_token) ≫= λ _,
  st ← gets fst;
  destination ← lift (Dict.getitem (tr_hosts st) (destination_node flow + 1)%Z);
  on_host (source_node flow + 1)%Z (set_self (configure_flow (scale_flow_tx_rate (flow_tx_rate flow)) fzero
    "uniform" (vh_virtual_host_ip (tg_host destination)) 50000 (splitting_ratio flow) 10
    tag_values_for_flow 1066)).

Context `{OnosApi} {GN GT : Type} `{NxGraph string GN} `{NxGraph Z GT}.
Variable graph_matcher : GN → GT → option (dict string Z).
Variable post_start : M W (Z * string).
Variable post_stop : string → M W (Z * list (list IfaceStats)).
Variable np_mean : list F → F.

(** The body of [try]. *)
Definition trial_body (flows : value) : M State unit :=
  id_to_dpid ← lift (get_and_validate_onos_topo_x graph_matcher (complete_graph 10));
  hosts ← on_world (create_virtual_hosts id_to_dpid);
  set_self (set_hosts hosts) ≫= λ _,
  on_all_hosts start_traffic_generation_server ≫= λ _,
  st ← gets fst;
  flow_list ← lift (flow_set_of (tr_heap st) flows);
  for_each flow_list (install_trial_flow id_to_dpid) ≫= λ _,
  on_monitor (start_monitor post_start) ≫= λ _,
  on_all_hosts (start_traffic_generation_client json_dumps) ≫= λ _,
  st ← gets fst;
  duration ← lift (get_parameter (tr_trial st) "duration");
  lift (sleep duration) ≫= λ _,
  on_monitor (stop_monitor post_stop) ≫= λ _,
  utilization_results ← on_monitor get_monitor_statistics;
  add_object "byte-counts-over-time" (OByteCounts utilization_results) ≫= λ _,
  link_rates ← lift (ph_link_utilization_over_time utilization_results);
  add_object "link-utilization-over-time" (OLinkRates link_rates) ≫= λ _,
  means ← lift (ph_mean_link_utilization np_mean utilization_results);
  add_object "measured-link-utilization" (OMeanRates means).

(** Every exception of the body is printed; the two cleaning functions
    follow in all cases. *)
Definition run_trial (the_trial : Trial) (heap : list (object F)) (flows : value)
    : M W (Trial * list (object F)) := λ w,
  let '(_, (st, w)) := trial_body flows (mkTrialRun [] [] [] init_monitor the_trial heap, w) in
  (destroy_all_hosts (tr_hosts st) ≫= λ _,
   remove_all_flows (tr_flow_tokens st) ≫= λ _,
   mret (tr_trial st, tr_heap st)) w.

Definition conduct_path_hopping_trial (the_trial : Trial) (heap : list (object F)) : M W (Trial * list (object F)) :=
  _ ← lift (get_parameter the_trial "seed-number");
  flows ← lift (get_parameter the_trial "flow-set");
  run_trial the_trial heap flows.
End driver.
