(* ===== verification/PathHoppingTrialProps.v ===== *)
(** Whatever happens during a path hopping trial, the testbed is left as it
    was found: the addresses of the machine, the virtual hosts and the
    routes of the controller. *)

From Stdlib Require Import Ascii.
From S2P Require Import Prelude PyDict PyStr PyFloat PyText FlowAllocation TopoMapper StatMonitor TrialStore MpTrial Keeps RouteAdder RouteAdderProps VirtualHost VirtualHostProps PathHoppingTrial.
Close Scope string_scope.

Section testbed.
Context {W : Type} `{HostEnv W} `{RouteApi W} {F : Type} `{PyFloat F}.
Variable json_dumps : list (ClientArgs F) → string.
Variable post_start : M W (Z * string).
Variable post_stop : string → M W (Z * list (list IfaceStats)).
Variable addrs : W → gset (string * string).
Variable vhosts routes : W → gset string.
Abbreviation see := (see addrs vhosts routes).
Abbreviation Hosts := (dict Z (TrafficGenerationVirtualHost F)).

(** The promises of the components together: each leaves the resources of
    the others alone. *)
Record testbed_laws : Prop := {
  tl_hosts : host_env_laws addrs vhosts routes;
  tl_routes : route_server routes;
  tl_route_frame : ∀ url body w,
    addrs (route_post url body w).2 = addrs w ∧ vhosts (route_post url body w).2 = vhosts w;
  tl_start : ∀ w, see (post_start w).2 = see w;
  tl_stop : ∀ tok w, see (post_stop tok w).2 = see w
}.
Hypothesis laws : testbed_laws.

(** * Hosts *)

(** The virtual hosts [vs] are exactly what was added to [A] and [V]. *)
Definition host_addr (v : VirtualHost) : string * string := (iface_name, vh_actual_host_ip v).
Definition owns_hosts (A : gset (string * string)) (V : gset string) (vs : list VirtualHost) (w : W) : Prop :=
  adds (host_addr <$> vs) A (addrs w) ∧ adds (vh_token <$> vs) V (vhosts w) ∧
  Forall (λ v, word (vh_actual_host_ip v) = true) vs.
Definition vhs (hosts : Hosts) : list VirtualHost := tg_host <$> Dict.values hosts.

Lemma see_inv w a v x : see w = (a, v, x) → addrs w = a ∧ vhosts w = v ∧ routes w = x.
Proof. by intros [= -> -> ->]. Qed.

(** A method that keeps the identity of its host and what is seen of the
    world. *)
Definition quiet (m : M (TrafficGenerationVirtualHost F * W) unit) : Prop :=
  ∀ v x, keeps (λ hw, tg_host hw.1 = v ∧ see hw.2 = x) m.

(** A call of the operating system that concerns processes. *)
Ltac quiet_call :=
  apply keeps_on_world; intros o w [? ?]; cbn [fst snd] in *; (split; [done|]);
  by rewrite ?(he_popen _ _ _ (tl_hosts laws)), ?(he_sigint _ _ _ (tl_hosts laws)),
    ?(he_returncode _ _ _ (tl_hosts laws)), ?(he_communicate _ _ _ (tl_hosts laws)).

Lemma start_server_quiet : quiet start_traffic_generation_server.
Proof.
  intros v x. unfold start_traffic_generation_server. apply keeps_bind; [auto with testbed|]. intros self.
  apply keeps_bind; [|intros p; apply keeps_set_self; by intros []].
  quiet_call.
Qed.

Lemma start_client_quiet : quiet (start_traffic_generation_client json_dumps).
Proof.
  intros v x. unfold start_traffic_generation_client. apply keeps_bind; [auto with testbed|]. intros self.
  apply keeps_if; [|auto with testbed]. apply keeps_bind; [|intros p; apply keeps_set_self; by intros []].
  quiet_call.
Qed.

Lemma stop_server_quiet : quiet stop_traffic_generation_server.
Proof.
  intros v x. unfold stop_traffic_generation_server. apply keeps_bind; [auto with testbed|]. intros self.
  destruct (tg_server_process self); [|auto with testbed].
  quiet_call.
Qed.

Lemma stop_client_quiet : quiet stop_traffic_generation_client.
Proof.
  intros v x. unfold stop_traffic_generation_client. apply keeps_bind; [auto with testbed|]. intros self.
  apply keeps_if; [auto with testbed|]. destruct (tg_client_process self); [|auto with testbed].
  apply keeps_bind; [|intros _; apply keeps_bind; [|intros code; apply keeps_if; [|auto with testbed]]];
    quiet_call.
Qed.

Lemma configure_quiet tx dev model ip port k slice tags len :
  quiet (set_self (configure_flow tx dev model ip port k slice tags len)).
Proof. intros v x. apply keeps_set_self. by intros []. Qed.

(** Destroying the first of the hosts. *)
Lemma destroy_host A V (h : TrafficGenerationVirtualHost F) vs w :
  owns_hosts A V (tg_host h :: vs) w →
  let w' := (tg_destroy_virtual_host (h, w)).2.2 in
  owns_hosts A V vs w' ∧ routes w' = routes w.
Proof.
  intros (Ha & Hv & [Hw Hws]%Forall_cons). rewrite fmap_cons in Ha. rewrite fmap_cons in Hv.
  apply adds_cons in Ha as [Hin Ha]. apply adds_cons in Hv as [Htok Hv].
  destruct (uninstall_host _ _ _ (tl_hosts laws) (vh_token (tg_host h)) w Htok) as (w1 & Hun & Hw1).
  apply see_inv in Hw1 as (Ha1 & Hv1 & Hr1).
  destruct (remove_interface _ _ _ (tl_hosts laws) (vh_actual_host_ip (tg_host h)) w1 Hw) as (w2 & Hrm & Hw2);
    [by rewrite Ha1|].
  intros w'. assert (see w' = see w2) as Hsee.
  { unfold w', tg_destroy_virtual_host. rewrite (bindS_run _ _ _ h (h, w)) by done.
    rewrite (bindS_run _ _ _ tt (h, w2)).
    2:{ unfold on_world, destroy_virtual_host, mbind, M_bind. simpl. by rewrite Hun, Hrm. }
    refine (proj2 (keeps_bind (λ hw, tg_host hw.1 = tg_host h ∧ see hw.2 = see w2) _ _ _ _ (h, w2) _)); [..|done].
    - apply keeps_if; [apply stop_client_quiet|auto with testbed].
    - intros _. apply keeps_if; [apply stop_server_quiet|auto with testbed]. }
  rewrite Hw2 in Hsee. apply see_inv in Hsee as (Ha2 & Hv2 & Hr2).
  unfold owns_hosts. rewrite Ha2, Hv2, Hr2, Ha1, Hv1. done.
Qed.

Lemma destroy_all A V (hosts : Hosts) w :
  owns_hosts A V (vhs hosts) w → ∃ w', destroy_all_hosts hosts w = (Ok tt, w') ∧
    addrs w' = A ∧ vhosts w' = V ∧ routes w' = routes w.
Proof.
  unfold destroy_all_hosts, vhs. generalize (Dict.values hosts). intros hs. revert w.
  induction hs as [|h hs IH]; intros w Hown; cbn [for_each].
  - destruct Hown as (Ha & Hv & _). exists w. split_and!; [done|by apply adds_nil_inv..|done].
  - rewrite fmap_cons in Hown. destruct (destroy_host _ _ _ _ _ Hown) as [Hown1 Hr1].
    destruct (IH _ Hown1) as (w2 & Hw2 & ? & ? & ?). exists w2.
    rewrite (bindS_run _ _ _ tt (tg_destroy_virtual_host (h, w)).2.2) by done.
    split_and!; [exact Hw2|done|done|congruence].
Qed.

Lemma create_next A V id_to_dpid i (hosts : Hosts) w :
  i ∉ Dict.keys hosts → owns_hosts A V (vhs hosts) w →
  let '(r, (hosts', w')) := create_next_host id_to_dpid i (hosts, w) in
  owns_hosts A V (vhs hosts') w' ∧ routes w' = routes w ∧
  ∀ j, j ∈ Dict.keys hosts' → j = i ∨ j ∈ Dict.keys hosts.
Proof.
  intros Hnew Hown. unfold create_next_host.
  destruct (Dict.getitem id_to_dpid (i - 1)%Z) as [dev|e]; [|simpl; split_and!; auto].
  rewrite (bindS_run _ _ _ dev (hosts, w)) by done.
  unfold on_world, mbind, M_bind. cbn [fst snd]. set (ip := String.append "192.168.1." _).
  assert (word ip = true) as Hip.
  { unfold ip, word. rewrite str_all_app. apply andb_true_iff. split; [by vm_compute|apply word_str_of_Z]. }
  set (vmac := String.append "00:02:00:00:00:" _). set (vip := String.append "10.10.0." _).
  pose proof (initialize_spec _ _ _ (tl_hosts laws) vmac vip ip dev w Hip) as Hinit.
  unfold tg_create_virtual_host, create_host, mbind, M_bind.
  destruct (initialize_virtual_host_persistent_state vmac vip ip dev w) as [[[mac tok]|e] w1].
  - destruct Hinit as (Hip' & Htok & (Ha1 & Hv1 & Hr1)%see_inv).
    simpl. apply Dict.get_None in Hnew. rewrite Dict.set_new by done.
    unfold vhs, Dict.values, Dict.keys. rewrite !fmap_app. simpl.
    destruct Hown as (Ha & Hv & Hws). split_and!; [|done|set_solver].
    unfold owns_hosts. rewrite !fmap_app. simpl. split_and!.
    + rewrite Ha1. by apply adds_snoc.
    + rewrite Hv1. by apply adds_snoc.
    + apply Forall_app. split; [done|]. by constructor.
  - apply see_inv in Hinit as (Ha1 & Hv1 & Hr1). simpl. split_and!; [|done|auto].
    unfold owns_hosts. by rewrite Ha1, Hv1.
Qed.

Lemma create_loop A V id_to_dpid ids (hosts : Hosts) w :
  NoDup ids → (∀ i, i ∈ ids → i ∉ Dict.keys hosts) → owns_hosts A V (vhs hosts) w →
  let '(r, (hosts', w')) := for_each ids (create_next_host id_to_dpid) (hosts, w) in
  owns_hosts A V (vhs hosts') w' ∧ routes w' = routes w.
Proof.
  revert hosts w. induction ids as [|i ids IH]; intros hosts w Hnd Hnew Hown; cbn [for_each]; [done|].
  apply NoDup_cons in Hnd as [Hi Hnd].
  pose proof (create_next A V id_to_dpid i hosts w ltac:(apply Hnew; left) Hown) as Hstep.
  unfold mbind, M_bind. destruct (create_next_host id_to_dpid i (hosts, w)) as [[[]|e] [hosts1 w1]].
  - destruct Hstep as (Hown1 & Hr1 & Hk). specialize (IH hosts1 w1 Hnd).
    destruct (for_each ids _ (hosts1, w1)) as [r2 [hosts2 w2]].
    rewrite <-Hr1. apply IH; [|done]. intros j Hj [->|Hj']%Hk; [done|]. apply (Hnew j); [by right|done].
  - by destruct Hstep as (? & ? & _).
Qed.

Lemma create_hosts_spec id_to_dpid w :
  match create_virtual_hosts (F:=F) id_to_dpid w with
  | (Ok hosts, w') => owns_hosts (addrs w) (vhosts w) (vhs hosts) w' ∧ routes w' = routes w
  | (Raise _, w') => see w' = see w
  end.
Proof.
  unfold create_virtual_hosts.
  pose proof (create_loop (addrs w) (vhosts w) id_to_dpid (seqZ 1 10) [] w (NoDup_seqZ _ _)
    (λ i _, not_elem_of_nil i) (conj (adds_nil _) (conj (adds_nil _) (Forall_nil_2 _)))) as Hloop.
  destruct (for_each _ _ _) as [[[]|e] [hosts w1]]; [exact Hloop|]. destruct Hloop as [Hown Hr].
  destruct (destroy_all _ _ _ _ Hown) as (w2 & Hd & Ha & Hv & Hr2).
  unfold mbind, M_bind. rewrite Hd. unfold VirtualHostProps.see, lift. simpl. congruence.
Qed.

(** * The trial *)

(** Every parameter of [t] is a parameter of [t'], with its value. *)
Definition params_kept (t t' : Trial) : Prop :=
  ∀ k v, Dict.get (parameters t) k = Some v → Dict.get (parameters t') k = Some v.

(** What a trial that started in [w0] with [t0] owns. *)
Definition owns (w0 : W) (t0 : Trial) (s : TrialRun F * W) : Prop :=
  owns_hosts (addrs w0) (vhosts w0) (vhs (tr_hosts s.1)) s.2 ∧
  adds (tr_flow_tokens s.1) (routes w0) (routes s.2) ∧ params_kept t0 (tr_trial s.1).

Lemma vhs_set (hosts : Hosts) k h h' :
  Dict.get hosts k = Some h → tg_host h' = tg_host h → vhs (Dict.set hosts k h') = vhs hosts.
Proof.
  intros Hget Heq. unfold vhs, Dict.values. induction hosts as [|[k1 h1] hosts IH]; [done|].
  cbn [Dict.set Dict.get] in *. case_decide; rewrite !fmap_cons; cbn [snd]; [congruence|]. by rewrite IH.
Qed.

(** What is seen of the world determines what is owned. *)
Lemma owns_see w0 t0 st st' w w' :
  owns w0 t0 (st, w) → see w' = see w → vhs (tr_hosts st') = vhs (tr_hosts st) →
  tr_flow_tokens st' = tr_flow_tokens st → tr_trial st' = tr_trial st → owns w0 t0 (st', w').
Proof.
  unfold owns, owns_hosts. cbn [fst snd]. intros Hown (Ha & Hv & Hr)%see_inv -> -> ->. by rewrite Ha, Hv, Hr.
Qed.

Lemma on_host_keeps w0 t0 k m : quiet m → keeps (owns w0 t0) (on_host k m).
Proof.
  intros Hm [st w] Hown. unfold on_host. cbn [fst snd]. destruct (Dict.get (tr_hosts st) k) as [h|] eqn:Hk; [|done].
  pose proof (Hm (tg_host h) (see w) (h, w) (conj eq_refl eq_refl)) as Hq.
  destruct (m (h, w)) as [r [h' w']]. destruct Hq as [Hh Hsee].
  eapply owns_see; [exact Hown|done|by eapply vhs_set|done|done].
Qed.

Lemma on_all_hosts_keeps w0 t0 m : quiet m → keeps (owns w0 t0) (on_all_hosts m).
Proof.
  intros Hm. unfold on_all_hosts. apply keeps_bind; [auto with testbed|]. intros st.
  apply keeps_for_each. intros k _. by apply on_host_keeps.
Qed.

Lemma on_monitor_keeps {A} w0 t0 (m : M (OnMonitor * W) A) :
  (∀ x, keeps (λ mw, see mw.2 = x) m) → keeps (owns w0 t0) (on_monitor m).
Proof.
  intros Hm [st w] Hown. unfold on_monitor. cbn [fst snd].
  specialize (Hm (see w) (tr_monitor st, w) eq_refl). destruct (m (tr_monitor st, w)) as [r [mon w']].
  by eapply owns_see.
Qed.

Lemma monitor_quiet {A} (m : M W A) x :
  (∀ w, see (m w).2 = see w) → keeps (λ mw, see mw.2 = x) (on_controller m).
Proof. intros Hm [mon w] <-. unfold on_controller. cbn [snd]. specialize (Hm w). by destruct (m w). Qed.

Lemma start_monitor_quiet x : keeps (λ mw : OnMonitor * W, see mw.2 = x) (start_monitor post_start).
Proof.
  unfold start_monitor. apply keeps_bind; [auto with testbed|]. intros self. apply keeps_if; [auto with testbed|].
  apply keeps_bind; [apply monitor_quiet, tl_start, laws|]. intros r. apply keeps_if; auto with testbed.
Qed.

Lemma stop_monitor_quiet x : keeps (λ mw : OnMonitor * W, see mw.2 = x) (stop_monitor post_stop).
Proof.
  unfold stop_monitor. apply keeps_bind; [auto with testbed|]. intros self.
  destruct (monitor_token self); [|auto with testbed].
  apply keeps_bind; [apply monitor_quiet, tl_stop, laws|]. intros r. apply keeps_if; auto with testbed.
Qed.

Lemma on_tags_keeps {A} w0 t0 (m : M (dict (Z * Z) Z) A) : keeps (owns w0 t0) (on_tags m).
Proof. intros [st w] Hown. unfold on_tags. cbn [fst snd]. destruct (m (tr_tag_values st)). by eapply owns_see. Qed.

Lemma add_object_keeps w0 t0 name (o : object F) : keeps (owns w0 t0) (add_object (W:=W) name o).
Proof.
  intros [st w] Hown. unfold add_object, add_parameter. cbn [fst snd].
  destruct (Dict.mem _ name) eqn:Hmem; [done|]. destruct Hown as (? & ? & Hk). split_and!; [done..|].
  intros k v Hkv. specialize (Hk k v Hkv). cbn [fst snd tr_trial parameters set_parameters] in *.
  rewrite Dict.get_set_ne; [done|]. intros ->. unfold Dict.mem in Hmem. cbn [fst] in Hk. by rewrite Hk in Hmem.
Qed.

(** Installing a flow and noting its token are one step. *)
Lemma install_flow_keeps {A} w0 t0 flow_json (k : M (TrialRun F * W) A) :
  keeps (owns w0 t0) k →
  keeps (owns w0 t0) (on_world (install_flow flow_json) ≫= λ token, set_self (add_token token) ≫= λ _, k).
Proof.
  intros Hk [st w] Hown. unfold on_world, install_flow, mbind, M_bind. cbn [fst snd].
  pose proof (rs_add _ (tl_routes laws) flow_json w) as Hadd.
  pose proof (tl_route_frame laws add_route_url (Some flow_json) w) as [Ha Hv].
  destruct (route_post _ _ w) as [[r|e] w1]; cbn [fst snd] in *.
  - destruct Hadd as [[Hs (tok & Htok & Hnew & Hr)]|[Hs Hr]].
    + destruct Hown as ((Hoa & Hov & Hw) & Ht & Hp). cbn [fst snd] in *. rewrite bool_decide_false by lia. rewrite Htok. apply Hk.
      split_and!; [split_and!; cbn [fst snd tr_hosts add_token]; congruence || done| |done].
      cbn [fst snd tr_flow_tokens add_token]. rewrite Hr. by apply adds_set_add.
    + rewrite bool_decide_true by lia. eapply owns_see; [exact Hown| |done..].
      unfold VirtualHostProps.see. congruence.
  - eapply owns_see; [exact Hown| |done..]. unfold VirtualHostProps.see. congruence.
Qed.

Lemma install_trial_flow_keeps w0 t0 id_to_dpid (flow : Flow F) :
  keeps (owns w0 t0) (install_trial_flow id_to_dpid flow).
Proof.
  unfold install_trial_flow. apply keeps_bind; [auto with testbed|]. intros ps.
  apply keeps_bind; [apply on_tags_keeps|]. intros [flow_json tags]. apply install_flow_keeps.
  apply keeps_bind; [auto with testbed|]. intros st. apply keeps_bind; [auto with testbed|]. intros dst.
  apply on_host_keeps, configure_quiet.
Qed.

Lemma remove_all w0 (toks : list string) w :
  adds toks (routes w0) (routes w) → ∃ w', remove_all_flows toks w = (Ok tt, w') ∧
    addrs w' = addrs w ∧ vhosts w' = vhosts w ∧ routes w' = routes w0.
Proof.
  unfold remove_all_flows. revert w. induction toks as [|tok toks IH]; intros w Ha; cbn [for_each].
  - exists w. split_and!; [done..|]. by apply adds_nil_inv.
  - apply adds_cons in Ha as [Hin Ha]. destruct (rs_remove _ (tl_routes laws) tok w Hin) as (r & w1 & Hr & Hs & Hw1).
    pose proof (tl_route_frame laws (remove_route_url tok) None w) as [Hfa Hfv]. rewrite Hr in Hfa, Hfv. simpl in Hfa, Hfv.
    destruct (IH w1) as (w2 & Hw2 & ? & ? & ?); [by rewrite Hw1|]. exists w2.
    rewrite (bindS_run _ _ _ tt w1); [split_and!; [exact Hw2|congruence..]|].
    unfold uninstall_flow, mbind, M_bind. rewrite Hr. by rewrite bool_decide_false by lia.
Qed.

Context `{OnosApi} {GN GT : Type} `{NxGraph string GN} `{NxGraph Z GT}.
Variable graph_matcher : GN → GT → option (dict string Z).
Variable np_mean : list F → F.

Lemma trial_body_owns flows t heap w :
  owns w t (trial_body json_dumps graph_matcher post_start post_stop np_mean flows
              (mkTrialRun [] [] [] init_monitor t heap, w)).2.
Proof.
  set (s0 := mkTrialRun [] [] [] init_monitor t heap).
  assert (owns w t (s0, w)) as H0w.
  { split_and!; [exact (conj (adds_nil _) (conj (adds_nil _) (Forall_nil_2 _)))|apply adds_nil|by intros k v]. }
  unfold trial_body. destruct (get_and_validate_onos_topo_x _ _) as [id_to_dpid|e]; [|exact H0w].
  rewrite (bindS_run _ _ _ id_to_dpid (s0, w)) by done. unfold on_world at 1, mbind at 1, M_bind at 1. cbn [fst snd].
  pose proof (create_hosts_spec id_to_dpid w) as Hcreate.
  destruct (create_virtual_hosts id_to_dpid w) as [[hosts|e] w1].
  2:{ eapply owns_see; [exact H0w|done..]. }
  destruct Hcreate as [Hown Hr]. rewrite (bindS_run _ _ _ tt (set_hosts hosts s0, w1)) by done.
  assert (owns w t (set_hosts hosts s0, w1)) as H1w.
  { split_and!; [exact Hown|cbn [snd]; rewrite Hr; apply adds_nil|by intros k v]. }
  eapply keeps_bind; [by apply on_all_hosts_keeps, start_server_quiet|intros _|exact H1w].
  apply keeps_bind; [auto with testbed|]. intros st. apply keeps_bind; [auto with testbed|]. intros flow_list.
  apply keeps_bind; [apply keeps_for_each; intros ? _; apply install_trial_flow_keeps|]. intros _.
  apply keeps_bind; [apply on_monitor_keeps, start_monitor_quiet|]. intros _.
  apply keeps_bind; [apply on_all_hosts_keeps, start_client_quiet|]. intros _.
  apply keeps_bind; [auto with testbed|]. intros st'. apply keeps_bind; [auto with testbed|]. intros duration.
  apply keeps_bind; [auto with testbed|]. intros _.
  apply keeps_bind; [apply on_monitor_keeps, stop_monitor_quiet|]. intros _.
  apply keeps_bind; [apply on_monitor_keeps; unfold get_monitor_statistics; auto with testbed|]. intros results.
  apply keeps_bind; [apply add_object_keeps|]. intros _. apply keeps_bind; [auto with testbed|]. intros rates.
  apply keeps_bind; [apply add_object_keeps|]. intros _. apply keeps_bind; [auto with testbed|]. intros means.
  apply add_object_keeps.
Qed.

(** What the trial leaves, for its driver too. *)
Lemma trial_cleans_up t heap w :
  let '(r, w') := conduct_path_hopping_trial json_dumps graph_matcher post_start post_stop np_mean t heap w in
  addrs w' = addrs w ∧ vhosts w' = vhosts w ∧ routes w' = routes w ∧
  (has_parameter t "seed-number" = true → has_parameter t "flow-set" = true →
   ∃ t' heap', r = Ok (t', heap') ∧ params_kept t t').
Proof.
  unfold conduct_path_hopping_trial, mbind at 1, M_bind at 1, lift, has_parameter, get_parameter, Dict.mem.
  destruct (Dict.get (parameters t) "seed-number"); cbn [or_raise]; [|by split_and!].
  unfold mbind at 1, M_bind at 1.
  destruct (Dict.get (parameters t) "flow-set") as [flows|]; cbn [or_raise]; [|by split_and!].
  unfold run_trial. pose proof (trial_body_owns flows t heap w) as Hown.
  destruct (trial_body _ _ _ _ _ _ _) as [r [st w1]]. destruct Hown as (Hhosts & Htoks & Hkept). cbn [fst snd] in *.
  destruct (destroy_all _ _ _ _ Hhosts) as (w2 & Hd & Ha & Hv & Hr).
  rewrite (bindS_run _ _ _ tt w2) by done. rewrite <-Hr in Htoks.
  destruct (remove_all w _ w2 Htoks) as (w3 & Hrm & Ha3 & Hv3 & Hr3).
  rewrite (bindS_run _ _ _ tt w3) by done. split_and!; [congruence..|]. intros _ _. by eexists _, _.
Qed.

End testbed.

(** * A testbed *)

(** Addresses, virtual hosts and at most three routes; a process number is
    never looked at. *)
Record demo_world : Type := mkDemoWorld {
  dw_addrs : gset (string * string);
  dw_hosts : gset string;
  dw_routes : gset string
}.

Definition demo_run (words : list string) (w : demo_world) : res Z * demo_world :=
  match words with
  | [_; _; op; a; _; iface] =>
      let ip := str_but_last (str_but_last (str_but_last a)) in
      if decide (op = "add"%string) then
        if decide ((iface, ip) ∈ dw_addrs w) then (Ok 2%Z, w)
        else (Ok 0%Z, mkDemoWorld ({[(iface, ip)]} ∪ dw_addrs w) (dw_hosts w) (dw_routes w))
      else (Ok 0%Z, mkDemoWorld (dw_addrs w ∖ {[(iface, ip)]}) (dw_hosts w) (dw_routes w))
  | _ => (Ok 1%Z, w)
  end.

Definition demo_host_post (url : string) (body : option VirtualHostRequest) (w : demo_world)
    : res VirtualHostResponse * demo_world :=
  match body with
  | Some _ => (Ok (mkVirtualHostResponse 200 (Some (fresh (dw_hosts w)))),
               mkDemoWorld (dw_addrs w) ({[fresh (dw_hosts w)]} ∪ dw_hosts w) (dw_routes w))
  | None => (Ok (mkVirtualHostResponse 200 None),
             mkDemoWorld (dw_addrs w) (filter (λ tok, destroy_host_url tok ≠ url) (dw_hosts w)) (dw_routes w))
  end.

#[export] Instance demo_env : HostEnv demo_world := {|
  subprocess_run := demo_run;
  iface_mac_address _ := mret "00:11:22:33:44:55"%string;
  requests_post := demo_host_post;
  popen _ := mret 1;
  send_sigint _ := mret tt;
  terminate _ := mret tt;
  communicate _ := mret tt;
  returncode _ := mret None;
  process_wait _ := mret 0%Z
|}.

#[export] Instance demo_world_routes : RouteApi demo_world := {|
  route_post url body w :=
    let '(r, routes) := demo_route_post url body (dw_routes w) in
    (r, mkDemoWorld (dw_addrs w) (dw_hosts w) routes)
|}.

Lemma strip_mask s : str_but_last (str_but_last (str_but_last (s +:+ "/24"))) = s.
Proof.
  change "/24"%string with ("/" +:+ ("2" +:+ "4"))%string. rewrite <-!str_app_assoc.
  by rewrite !str_but_last_snoc.
Qed.

Lemma destroy_host_url_inj tok tok' : destroy_host_url tok = destroy_host_url tok' → tok = tok'.
Proof. unfold destroy_host_url. intros Heq. by apply (inj _), (inj _) in Heq. Qed.

Lemma demo_env_laws : host_env_laws dw_addrs dw_hosts dw_routes.
Proof.
  split; try by intros.
  - intros ip iface w. unfold subprocess_run, demo_env, demo_run, ip_addr_words. rewrite strip_mask.
    rewrite decide_True by done. case_decide; [by rewrite decide_False|]. by rewrite decide_True.
  - intros ip iface w _. unfold subprocess_run, demo_env, demo_run, ip_addr_words. rewrite strip_mask.
    rewrite decide_False by done. by eexists.
  - intros iface w. by eexists _, w.
  - intros r w. unfold requests_post, demo_env, demo_host_post. unfold response_ok. rewrite bool_decide_true by (cbn; lia).
    exists (fresh (dw_hosts w)). split_and!; [done|apply is_fresh|done].
  - intros tok w _. exists (mkVirtualHostResponse 200 None),
      (mkDemoWorld (dw_addrs w) (filter (λ t, destroy_host_url t ≠ destroy_host_url tok) (dw_hosts w)) (dw_routes w)).
    split; [reflexivity|]. split; [reflexivity|]. unfold see. cbn [dw_addrs dw_hosts dw_routes]. do 2 f_equal.
    apply set_eq. intros x. rewrite elem_of_filter, elem_of_difference, elem_of_singleton. split.
    + intros [Hne ?]. split; [done|]. by intros ->.
    + intros [? Hne]. split; [|done]. by intros ?%destroy_host_url_inj.
Qed.

Lemma demo_world_route_server : route_server dw_routes.
Proof.
  destruct demo_route_server as [Hadd Hrem]. split.
  - intros ps w. specialize (Hadd ps (dw_routes w)). unfold route_post, demo_world_routes.
    unfold route_post, demo_route_api in Hadd. destruct (demo_route_post _ _ (dw_routes w)) as [[r|e] routes]; exact Hadd.
  - intros tok w Hin. destruct (Hrem tok (dw_routes w) Hin) as (r & routes & Hrun & Hs & Hr).
    exists r, (mkDemoWorld (dw_addrs w) (dw_hosts w) routes). unfold route_post, demo_world_routes.
    unfold route_post, demo_route_api in Hrun. rewrite Hrun. done.
Qed.

Definition demo_start : M demo_world (Z * string) := mret (200%Z, "monitor"%string).
Definition demo_stop (tok : string) : M demo_world (Z * list (list IfaceStats)) := mret (200%Z, [[]; []]).

Lemma demo_testbed : testbed_laws demo_start demo_stop dw_addrs dw_hosts dw_routes.
Proof.
  split; [apply demo_env_laws|apply demo_world_route_server| |done..].
  intros url body w. unfold route_post, demo_world_routes. by destruct (demo_route_post _ _ _).
Qed.

#[export] Instance demo_onos : OnosApi := {| onos_links := Ok (200%Z, []); onos_hosts := Ok (200%Z, []) |}.
Definition demo_isomorphism (_ : list_graph string) (_ : list_graph Z) : option (dict string Z) :=
  Some ((λ i, (String.append "of:" (str_of_Z i), i)) <$> seqZ 0 10).

(** The second flow has no paths: the trial fails after the hosts and the
    first flow have been set up. *)
Definition demo_ph_trial : Trial :=
  mkTrial 0 "demo" [("seed-number"%string, VInt 7); ("flow-set"%string, VObj 0); ("duration"%string, VInt 1)].
Definition demo_ph_flows : list (object SpecFloat.spec_float) :=
  [OFlowSet [mkFlow 0%Z 1%Z fone (Some [[0; 1]; [0; 2; 1]]%Z) (Some [flit 1 2; flit 1 2]); mkFlow 1%Z 2%Z fone None None]].
Definition demo_ph_world : demo_world :=
  mkDemoWorld {[("ens192"%string, "192.168.1.200"%string)]} {["other-host"%string]} {["other-route"%string]}.


(** The rollback of [initialize_virtual_host_persistent_state] does not see
    an exception between the command that adds the address and the end of
    [_initialize_local_network_interface]: when the hardware address cannot
    be read, the address stays. *)
Definition no_mac_env : HostEnv demo_world := {|
  subprocess_run := demo_run;
  iface_mac_address _ := lift (Raise ValueError);
  requests_post := demo_host_post;
  popen _ := mret 1;
  send_sigint _ := mret tt;
  terminate _ := mret tt;
  communicate _ := mret tt;
  returncode _ := mret None;
  process_wait _ := mret 0%Z
|}.

Lemma mac_failure_leaks_address :
  let '(r, w') := @initialize_virtual_host_persistent_state demo_world no_mac_env "00:02:00:00:00:01" "10.10.0.1"
    "192.168.1.1" "of:0" demo_ph_world in
  r = Raise ValueError ∧ elements (dw_addrs w') = elements ({[("ens192"%string, "192.168.1.1"%string)]} ∪ dw_addrs demo_ph_world).
Proof. by vm_compute. Qed.

(** A trial that fails after the monitor was started does not stop it: here
    the duration is missing. *)
Definition demo_quiet_trial : Trial :=
  mkTrial 0 "demo" [("seed-number"%string, VInt 7); ("flow-set"%string, VObj 0)].
Lemma failed_trial_keeps_monitor :
  let '(r, (st, _)) := trial_body (λ _, EmptyString) demo_isomorphism demo_start demo_stop fsum (VObj 0)
    (mkTrialRun [] [] [] init_monitor demo_quiet_trial [OFlowSet []], demo_ph_world) in
  r = Raise (A:=unit) ValueError ∧ monitor_token (tr_monitor (F:=SpecFloat.spec_float) st) = Some "monitor"%string.
Proof. by vm_compute. Qed.
