(* ===== verification/Json.v ===== *)
(** JSON values as [json.loads] and [response.json()] build them, the
    operations the sources apply to them, and hexadecimal numbers. *)

From Stdlib Require Import Ascii.
From S2P Require Import Prelude PyDict PyStr.

#[warnings="-register-all"]
Inductive json : Type :=
  | JNull
  | JInt (z : Z)
  | JStr (s : string)
  | JList (l : list json)
  | JObj (d : list (string * json)).

(** [j[k]] for a string [k]. *)
Definition jkey (j : json) (k : string) : res json :=
  match j with JObj d => Dict.getitem d k | _ => Raise TypeError end.

(** [j.items()]: only an object has the method. *)
Definition jitems (j : json) : res (dict string json) :=
  match j with JObj d => Ok d | _ => Raise AttributeError end.

(** Iteration over a list; iterating over the other values is not modelled
    and counts as an error. *)
Definition jlist (j : json) : res (list json) :=
  match j with JList l => Ok l | _ => Raise TypeError end.

(** [str(j)] for numbers and strings, [int(j)] *)
Definition jstr (j : json) : res string :=
  match j with JStr s => Ok s | JInt z => Ok (str_of_Z z) | _ => Raise TypeError end.
Definition jint (j : json) : res Z :=
  match j with JInt z => Ok z | JStr s => int_of_str s | _ => Raise TypeError end.

(** [int(s, 16)] for a non-empty string of hexadecimal digits. *)
Definition hex_val (c : ascii) : option Z :=
  let n := Z.of_N (N_of_ascii c) in
  if bool_decide (48 ≤ n ≤ 57)%Z then Some (n - 48)%Z
  else if bool_decide (97 ≤ n ≤ 102)%Z then Some (n - 87)%Z
  else if bool_decide (65 ≤ n ≤ 70)%Z then Some (n - 55)%Z
  else None.
Fixpoint hex_digits (acc : Z) (s : string) : option Z :=
  match s with
  | EmptyString => Some acc
  | String c s => v ← hex_val c; hex_digits (16 * acc + v)%Z s
  end.
Definition int_of_hex (s : string) : res Z :=
  match s with EmptyString => Raise ValueError | _ => or_raise ValueError (hex_digits 0 s) end.

(** [int(j, 16)] *)
Definition jhex (j : json) : res Z :=
  match j with JStr s => int_of_hex s | _ => Raise TypeError end.

(** ['{:016x}'.format(z)] for [0 <= z < 2**64]: the sixteen digits. *)
Definition hex_char (v : Z) : ascii :=
  ascii_of_N (Z.to_N (if bool_decide (v < 10)%Z then v + 48 else v + 87)%Z).
Fixpoint hex_fmt (n : nat) (z : Z) : string :=
  match n with
  | O => EmptyString
  | S n => String (hex_char (z / 16 ^ Z.of_nat n mod 16)%Z) (hex_fmt n z)
  end.
Definition dpid_fmt (dpid : Z) : string := hex_fmt 16 dpid.

Lemma hex_val_char v : (0 ≤ v < 16)%Z → hex_val (hex_char v) = Some v.
Proof.
  intros Hv. assert (v ∈ seqZ 0 16) as Hin by (apply elem_of_seqZ; lia).
  clear Hv. revert v Hin. apply Forall_forall, (bool_decide_unpack _). by vm_compute.
Qed.

Lemma hex_digits_fmt n z acc :
  (0 ≤ z)%Z → hex_digits acc (hex_fmt n z) = Some (acc * 16 ^ Z.of_nat n + z mod 16 ^ Z.of_nat n)%Z.
Proof.
  intros Hz. revert acc. induction n as [|n IH]; intros acc; cbn [hex_fmt hex_digits].
  - f_equal. rewrite Z.mod_1_r. lia.
  - rewrite hex_val_char by (apply Z.mod_pos_bound; lia). simpl. rewrite IH. f_equal.
    rewrite Nat2Z.inj_succ, Z.pow_succ_r by lia. set (p := (16 ^ Z.of_nat n)%Z).
    assert (0 < p)%Z by (apply Z.pow_pos_nonneg; lia).
    rewrite (Z.mul_comm 16 p), Z.rem_mul_r by lia. lia.
Qed.

(** Data path ids are read back as they are formatted. *)
Lemma int_of_dpid_fmt z : (0 ≤ z < 2 ^ 64)%Z → int_of_hex (dpid_fmt z) = Ok z.
Proof.
  intros Hz. change (int_of_hex (dpid_fmt z)) with (or_raise ValueError (hex_digits 0 (dpid_fmt z))).
  unfold dpid_fmt. rewrite hex_digits_fmt by lia. simpl. rewrite Z.mod_small; [done|]. lia.
Qed.
