(* ===== verification/OpenFlow.v ===== *)
(** The REST client of the OpenFlow controller: flow modification messages
    (nw_control/flowmod.py), requests and responses
    (nw_control/of_rest_client.py) and the operations of [OFProcessor]
    (nw_control/of_processor.py).

    The controller is the interface [RyuApi]: a request has a method, a URL
    and parameters, an answer a status and a JSON body. Logging and the
    string representations for printing are not modelled. *)

From Stdlib Require Import Ascii.
From S2P Require Import Prelude PyDict PyStr Json.

Local Open Scope string_scope.

(** * flowmod.py *)

Inductive MatchTypes : Type :=
  | in_port | eth_dst | eth_src | eth_type | vlan_vid | vlan_pcp | ip_dscp | ip_ecn | ip_proto
  | ipv4_src | ipv4_dst | tcp_src | tcp_dst | udp_src | udp_dst | icmpv4_code | icmpv4_type
  | arp_op | arp_spa | arp_tpa | arp_sha | arp_tha.

Definition match_to_string (match_type : MatchTypes) : string :=
  match match_type with
  | in_port => "in_port" | eth_dst => "eth_dst" | eth_src => "eth_src" | eth_type => "eth_type"
  | vlan_vid => "vlan_vid" | vlan_pcp => "vlan_pcp" | ip_dscp => "ip_dscp" | ip_ecn => "ip_ecn"
  | ip_proto => "ip_proto" | ipv4_src => "ipv4_src" | ipv4_dst => "ipv4_dst" | tcp_src => "tcp_src"
  | tcp_dst => "tcp_dst" | udp_src => "udp_src" | udp_dst => "udp_dst" | icmpv4_code => "icmpv4_code"
  | icmpv4_type => "icmpv4_type" | arp_op => "arp_op" | arp_spa => "arp_spa" | arp_tpa => "arp_tpa"
  | arp_sha => "arp_sha" | arp_tha => "arp_tha"
  end.

Inductive ActionTypes : Type := Output | SetField | GotoTable.

Definition action_to_string (action_type : ActionTypes) : string :=
  match action_type with Output => "OUTPUT" | SetField => "SET_FIELD" | GotoTable => "GOTO_TABLE" end.

(** [Match]: the criteria by their names. *)
Record Match : Type := mkMatch { match_dict : dict string json }.
Definition init_match (match_type : MatchTypes) (match_value : json) : Match :=
  mkMatch [(match_to_string match_type, match_value)].
Definition get_match_params (m : Match) : dict string json := match_dict m.
Definition add_criteria (m : Match) (match_type : MatchTypes) (match_value : json) : Match :=
  mkMatch (Dict.set (match_dict m) (match_to_string match_type) match_value).

Record Action : Type := mkAction { action_type : ActionTypes; action_values : dict string json }.
Definition get_dict (a : Action) : dict string json :=
  foldl (λ d kv, Dict.set d kv.1 kv.2) [("type", JStr (action_to_string (action_type a)))] (action_values a).

Record Flowmod : Type := mkFlowmod {
  fm_dpid : Z;
  fm_cookie : option Z;
  fm_cookie_mask : option Z;
  fm_table_id : option Z;
  fm_idle_timeout : option Z;
  fm_hard_timeout : option Z;
  fm_priority : option Z;
  fm_flags : option Z;
  fm_match : dict string json;
  fm_actions : list (dict string json)
}.

(** [Flowmod(dpid, table_id=..., priority=...)], the arguments callers use. *)
Definition init_flowmod (dpid : Z) (table_id priority : option Z) : Flowmod :=
  mkFlowmod dpid None None table_id None None priority None [] [].

Definition add_match (fm : Flowmod) (m : Match) : Flowmod :=
  mkFlowmod (fm_dpid fm) (fm_cookie fm) (fm_cookie_mask fm) (fm_table_id fm) (fm_idle_timeout fm)
    (fm_hard_timeout fm) (fm_priority fm) (fm_flags fm)
    (foldl (λ d kv, Dict.set d kv.1 kv.2) (fm_match fm) (get_match_params m)) (fm_actions fm).

Definition add_action (fm : Flowmod) (action : Action) : Flowmod :=
  mkFlowmod (fm_dpid fm) (fm_cookie fm) (fm_cookie_mask fm) (fm_table_id fm) (fm_idle_timeout fm)
    (fm_hard_timeout fm) (fm_priority fm) (fm_flags fm) (fm_match fm)
    (fm_actions fm ++ [get_dict action]).

(** [util.set_field] *)
Definition set_field (d : dict string json) (k : string) (v : option Z) : dict string json :=
  match v with Some z => Dict.set d k (JInt z) | None => d end.

(** [get_json], with what the global name [set_field] is bound to. *)
Definition get_json_with (set_field : option (dict string json → string → option Z → dict string json))
    (fm : Flowmod) : res (dict string json) :=
  set ← or_raise NameError set_field;
  let d := set [("dpid", JInt (fm_dpid fm))] "dpid" (Some (fm_dpid fm)) in
  let d := set d "cookie" (fm_cookie fm) in
  let d := set d "cookie_mask" (fm_cookie_mask fm) in
  let d := set d "table_id" (fm_table_id fm) in
  let d := set d "idle_timeout" (fm_idle_timeout fm) in
  let d := set d "hard_timeout" (fm_hard_timeout fm) in
  let d := set d "priority" (fm_priority fm) in
  let d := set d "flags" (fm_flags fm) in
  let d := Dict.set d "match" (JObj (fm_match fm)) in
  Ok (Dict.set d "actions" (JList (JObj <$> fm_actions fm))).

(** flowmod.py imports [util], not [set_field]: the name is not bound. *)
Definition get_json (fm : Flowmod) : res (dict string json) := get_json_with None fm.

(** * of_rest_client.py *)

Inductive HttpReqType : Type := GET | POST | DELETE.

Inductive OFRequestType : Type :=
  | TSwitchList | TSwitchFlows | TPushFlowmod | TTopologyLinks | TSwitchDesc | TRemoveAllFlows
  | TRemoveFlow | TGetPortStats.

Definition get_http_req_type (req_type : OFRequestType) : HttpReqType :=
  match req_type with
  | TSwitchList => GET
  | TSwitchFlows => GET
  | TPushFlowmod => POST
  | TTopologyLinks => GET
  | TSwitchDesc => GET
  | TRemoveAllFlows => DELETE
  | TRemoveFlow => POST
  | TGetPortStats => GET
  end.

(** ** Responses *)

Record HttpResponse : Type := mkHttpResponse { status_code : Z; body : json }.

Inductive OFResponse : Type :=
  | OFStatusResponse (response_code : Z)
  | OFResponseSwitchList (response_code : Z) (switches : json)
  | OFResponseSwitchFlows (response_code : Z) (resp : json)
  | OFResponseTopologyLinks (response_code : Z) (resp : json)
  | OFResponseSwitchDesc (response_code : Z) (resp : json)
  | OFPortStatsResponse (response_code : Z) (resp : json).

(** The parsers of [get_type_parser]. *)
Definition parse_status (r : HttpResponse) : OFResponse := OFStatusResponse (status_code r).
Definition parse_switch_list (r : HttpResponse) : OFResponse := OFResponseSwitchList (status_code r) (body r).
Definition parse_switch_flows (r : HttpResponse) : OFResponse := OFResponseSwitchFlows (status_code r) (body r).
Definition parse_topology_links (r : HttpResponse) : OFResponse :=
  OFResponseTopologyLinks (status_code r) (body r).
Definition parse_switch_desc (r : HttpResponse) : OFResponse := OFResponseSwitchDesc (status_code r) (body r).
Definition parse_port_stats (r : HttpResponse) : OFResponse := OFPortStatsResponse (status_code r) (body r).

Definition get_type_parser (req_type : OFRequestType) : HttpResponse → OFResponse :=
  match req_type with
  | TSwitchList => parse_switch_list
  | TSwitchFlows => parse_switch_flows
  | TPushFlowmod => parse_status
  | TTopologyLinks => parse_topology_links
  | TSwitchDesc => parse_switch_desc
  | TRemoveAllFlows => parse_status
  | TRemoveFlow => parse_status
  | TGetPortStats => parse_port_stats
  end.

Definition from_json (r : HttpResponse) (req_type : OFRequestType) : res OFResponse :=
  if bool_decide (status_code r ≠ 200%Z) then Raise IOError else Ok (get_type_parser req_type r).

(** The accessors; a method that a class does not have is [AttributeError]. *)
Definition get_sw_list (r : OFResponse) : res json :=
  match r with OFResponseSwitchList _ switches => Ok switches | _ => Raise AttributeError end.

Definition get_flows (r : OFResponse) : res (list json) :=
  match r with
  | OFResponseSwitchFlows _ resp =>
      d ← jitems resp;
      foldM (λ flow_list sw_dpid, flows ← jlist sw_dpid; Ok (flow_list ++ flows)%list) [] (Dict.values d)
  | _ => Raise AttributeError
  end.
Definition get_flow_count (r : OFResponse) : res nat := flows ← get_flows r; Ok (length flows).

(** switch id -> neighbour id -> port of the switch *)
Abbreviation adjacency := (dict Z (dict Z Z)).

Definition add_adjacency (adj_mat : adjacency) (entry : json) : res adjacency :=
  dst ← jkey entry "dst"; dst_dpid ← jkey dst "dpid"; dst_id ← jhex dst_dpid;
  src ← jkey entry "src"; src_dpid ← jkey src "dpid"; src_id ← jhex src_dpid;
  port ← jkey dst "port_no"; port_no ← jhex port;
  Ok (Dict.set adj_mat dst_id (Dict.set (Dict.get_default [] adj_mat dst_id) src_id port_no)).

Definition get_adj_mat (r : OFResponse) : res adjacency :=
  match r with
  | OFResponseTopologyLinks _ resp => entries ← jlist resp; foldM add_adjacency [] entries
  | _ => Raise AttributeError
  end.

(** The last key; [None] without keys. *)
Definition get_sw_dpid (r : OFResponse) : res (option string) :=
  match r with
  | OFResponseSwitchDesc _ resp => d ← jitems resp; Ok (last (Dict.keys d))
  | _ => Raise AttributeError
  end.

Definition get_sw_name (r : OFResponse) : res json :=
  match r with
  | OFResponseSwitchDesc _ resp =>
      dpid ← get_sw_dpid r;
      k ← or_raise KeyError dpid;
      desc ← jkey resp k;
      jkey desc "dp_desc"
  | _ => Raise AttributeError
  end.

Definition build_port_dict (r : OFResponse) (field_accessor : json → res json) : res (dict Z json) :=
  match r with
  | OFPortStatsResponse _ resp =>
      d ← jitems resp;
      foldM (λ ret lst, ports ← jlist lst;
        foldM (λ ret port_desc,
          port ← jkey port_desc "port_no"; port_no ← jint port;
          field_val ← field_accessor port_desc;
          Ok (Dict.set ret port_no field_val)) ret ports) [] (Dict.values d)
  | _ => Raise AttributeError
  end.
Definition get_tx_packets (r : OFResponse) : res (dict Z json) := build_port_dict r (λ d, jkey d "tx_packets").
Definition get_rx_packets (r : OFResponse) : res (dict Z json) := build_port_dict r (λ d, jkey d "rx_packets").

(** ** Requests *)

(** The subclasses of [OFRequest]; a data path id is used as [str(dpid)]. *)
Inductive OFRequest : Type :=
  | SwitchList
  | SwitchFlows (sw_dpid : Z)
  | PushFlowmod (flowmod : Flowmod)
  | TopologyLinks
  | SwitchDesc (dpid : string)
  | RemoveAllFlows (dpid : string)
  | RemoveFlow (dpid : string) (flow_mod : Flowmod)
  | GetPortStats (dpid : string).

Definition req_type (r : OFRequest) : OFRequestType :=
  match r with
  | SwitchList => TSwitchList
  | SwitchFlows _ => TSwitchFlows
  | PushFlowmod _ => TPushFlowmod
  | TopologyLinks => TTopologyLinks
  | SwitchDesc _ => TSwitchDesc
  | RemoveAllFlows _ => TRemoveAllFlows
  | RemoveFlow _ _ => TRemoveFlow
  | GetPortStats _ => TGetPortStats
  end.

Definition get_host_url (host : string) (port_no : Z) (req_str : string) : string :=
  "http://" +:+ host +:+ ":" +:+ str_of_Z port_no +:+ req_str.

Definition get_request_url (host : string) (port_no : Z) (r : OFRequest) : string :=
  get_host_url host port_no
    (match r with
     | SwitchList => "/stats/switches"
     | SwitchFlows sw_dpid => "/stats/flow/" +:+ str_of_Z sw_dpid
     | PushFlowmod _ => "/stats/flowentry/add"
     | TopologyLinks => "/v1.0/topology/links"
     | SwitchDesc dpid => "/stats/desc/" +:+ dpid
     | RemoveAllFlows dpid => "/stats/flowentry/clear/" +:+ dpid
     | RemoveFlow _ _ => "/stats/flowentry/delete"
     | GetPortStats dpid => "/stats/port/" +:+ dpid
     end).

Definition get_request_params (r : OFRequest) : res (dict string json) :=
  match r with
  | PushFlowmod flowmod => get_json flowmod
  | RemoveFlow _ flow_mod => get_json flow_mod
  | _ => Ok []
  end.

(** The controller: method, URL and parameters. *)
Class RyuApi (W : Type) : Type := {
  http_request : HttpReqType → string → dict string json → M W HttpResponse
}.

Section client.
Context {W : Type} `{RyuApi W}.
Variables (host : string) (port_no : Z).

Definition get_response (r : OFRequest) : M W OFResponse :=
  of_params ← lift (get_request_params r);
  resp ← http_request (get_http_req_type (req_type r)) (get_request_url host port_no r) of_params;
  lift (from_json resp (req_type r)).

(** * of_processor.py *)

Definition get_switch_list : M W json := resp ← get_response SwitchList; lift (get_sw_list resp).
Definition get_switch_flows (dpid : Z) : M W OFResponse := get_response (SwitchFlows dpid).
Definition push_flow_mod (dpid : Z) (flow_mod : Flowmod) : M W OFResponse := get_response (PushFlowmod flow_mod).
Definition get_topo_links : M W OFResponse := get_response TopologyLinks.
Definition get_switch_desc (dpid : string) : M W OFResponse := get_response (SwitchDesc dpid).
Definition remove_all_flows (dpid : string) : M W OFResponse := get_response (RemoveAllFlows dpid).
Definition remove_flow (dpid : string) (flow_mod : Flowmod) : M W OFResponse :=
  get_response (RemoveFlow dpid flow_mod).
Definition get_port_stats (dpid : string) : M W OFResponse := get_response (GetPortStats dpid).
Definition remove_table_flows (dpid : Z) (table_id : Z) : M W OFResponse :=
  remove_flow (str_of_Z dpid) (init_flowmod dpid (Some table_id) None).

(** The table is always 100. *)
Definition add_default_route (dpid : Z) (table_id : Z) : M W unit :=
  let flow_mod := init_flowmod dpid (Some 100%Z) (Some 1%Z) in
  let flow_mod := add_action flow_mod (mkAction Output [("port", JInt 4294967293)]) in
  _ ← push_flow_mod dpid flow_mod;
  mret tt.
End client.
