(* ===== verification/HostMapper.v ===== *)
(** The mapping between switches, data path ids and hosts
    (nw_control/host_mapper.py): [HostMapper], which asks the OpenFlow
    controller and the name server, [OnosMapper], which uses the isomorphism
    of topo_mapper.py, and [MininetHostMapper].

    The name server is the interface [DnsApi]. *)

From Stdlib Require Import Ascii.
From S2P Require Import Prelude PyDict PyStr PyText Json OpenFlow TopoMapper.

Local Open Scope string_scope.

(** Queries for A and PTR records, and [dns.reversename.from_address]. *)
Class DnsApi (W : Type) : Type := {
  dns_query_a : string → M W (list string);
  dns_query_ptr : string → M W (list string);
  reverse_name : string → res string
}.

Definition underscore : ascii := "_"%char.

(** [s.split('_')] on the value of [dp_desc]. *)
Definition name_parts (sw_name : json) : res (list string) :=
  match sw_name with JStr s => Ok (str_split underscore s) | _ => Raise AttributeError end.

(** [util.sw_name_to_no] *)
Definition sw_name_to_no (sw_name : json) : res string :=
  parts ← name_parts sw_name; py_index parts 1.

(** [s[-1]] *)
Fixpoint str_last (s : string) : res ascii :=
  match s with
  | EmptyString => Raise IndexError
  | String c EmptyString => Ok c
  | String _ s => str_last s
  end.

Definition map_sw_to_host (sw_no : string) : res string :=
  n ← int_of_str sw_no; Ok ("host" +:+ str_of_Z n).

Definition qualify_host_domain (domain hostname : string) : res string :=
  c ← str_last hostname;
  if bool_decide (c = dot) then Ok hostname else Ok (hostname +:+ "." +:+ domain).

(** The default of the parameter [domain]. *)
Definition default_domain : string := "data.sdn.".

Section mapper.
Context {W : Type} `{RyuApi W} `{DnsApi W}.
Variables (host : string) (port_no : Z) (domain : string).

(** Every exception of the query becomes an [IOError]. *)
Definition or_io_error {A} (m : M W A) : M W A := λ w,
  match m w with (Raise _, w) => (Raise IOError, w) | r => r end.

Definition resolve_hostname (hostname : string) : M W (option string) :=
  query_str ← lift (qualify_host_domain domain hostname);
  answers ← or_io_error (dns_query_a query_str);
  mret (head answers).

Definition get_ip_address_for_host_number (host_number : Z) : M W (option string) :=
  hostname ← lift (map_sw_to_host (str_of_Z host_number));
  resolve_hostname hostname.

Definition reverse_lookup (ip_addr : string) : M W (option string) :=
  name ← lift (reverse_name ip_addr);
  answers ← or_io_error (dns_query_ptr name);
  mret (head answers).

Definition map_dpid_to_sw (dpid : string) : M W json :=
  resp ← get_response host port_no (SwitchDesc dpid);
  lift (get_sw_name resp).

Definition map_dpid_to_sw_num (dpid : string) : M W Z :=
  sw_name ← map_dpid_to_sw dpid;
  num ← lift (sw_name_to_no sw_name);
  lift (int_of_str num).

(** The loop over the switches, with its early return. *)
Fixpoint find_switch (sw_no : string) (switch_list : list json) : M W (option string) :=
  match switch_list with
  | [] => mret None
  | sw :: switch_list =>
      dpid ← lift (jstr sw);
      resp ← get_response host port_no (SwitchDesc dpid);
      sw_name ← lift (get_sw_name resp);
      curr_no ← lift (sw_name_to_no sw_name);
      if bool_decide (curr_no = sw_no) then lift (get_sw_dpid resp) else find_switch sw_no switch_list
  end.

Definition map_sw_to_dpid (sw_no : string) : M W (option string) :=
  resp ← get_response host port_no SwitchList;
  sw_list ← lift (get_sw_list resp);
  switch_list ← lift (jlist sw_list);
  find_switch sw_no switch_list.

Definition add_switch_host (acc : dict Z (option string)) (sw_dpid : json) : M W (dict Z (option string)) :=
  dec_dpid ← lift (jstr sw_dpid);
  sw_name ← map_dpid_to_sw dec_dpid;
  parts ← lift (name_parts sw_name);
  sw_num ← lift (py_index parts (-1));
  host_name ← lift (map_sw_to_host sw_num);
  fqdn ← lift (qualify_host_domain domain host_name);
  host_ip ← resolve_hostname fqdn;
  key ← lift (jint sw_dpid);
  mret (Dict.set acc key host_ip).

Definition get_switch_to_host_map : M W (dict Z (option string)) :=
  resp ← get_response host port_no SwitchList;
  sw_list ← lift (get_sw_list resp);
  switches ← lift (jlist sw_list);
  foldS add_switch_host [] switches.
End mapper.

(** * OnosMapper *)

Record OnosMapper : Type := mkOnosMapper { switch_to_dpid_map : dict Z string }.

Definition init_onos_mapper `{OnosApi} {GN GT} `{NxGraph string GN} `{NxGraph Z GT}
    (graph_matcher : GN → GT → option (dict string Z)) (target_topo_file : string) : res OnosMapper :=
  m ← get_and_validate_onos_topo graph_matcher target_topo_file; Ok (mkOnosMapper m).

Definition onos_map_sw_to_dpid (self : OnosMapper) (sw_num : Z) : res string :=
  Dict.getitem (switch_to_dpid_map self) sw_num.

(** * MininetHostMapper *)

Record MininetHostMapper : Type := mkMininetHostMapper { connected_hosts : list Host }.

Definition init_mininet_mapper `{OnosApi} : res MininetHostMapper :=
  hosts ← get_nw_hosts; Ok (mkMininetHostMapper hosts).

(** [next(...)] over the hosts; reading the location of a host without one
    raises [IndexError]. *)
Fixpoint find_host_in (hosts : list Host) (switch_dpid : string) : res Host :=
  match hosts with
  | [] => Raise ValueError
  | h :: hosts =>
      location ← py_index (locations h) 0;
      if bool_decide (location.1 = switch_dpid) && bool_decide (0 < length (ipAddresses h)) &&
         bool_decide ("10.123.123.1" ∉ ipAddresses h)
      then Ok h else find_host_in hosts switch_dpid
  end.
Definition find_host (self : MininetHostMapper) (switch_dpid : string) : res Host :=
  find_host_in (connected_hosts self) switch_dpid.

Definition get_ip_of_connected_host (self : MininetHostMapper) (switch_dpid : string) : res string :=
  attached_host ← find_host self switch_dpid;
  py_index (ipAddresses attached_host) 0.

Definition mininet_resolve_hostname (hostname : string) : res string :=
  n ← int_of_str (str_drop 1 hostname); Ok ("10.0.0." +:+ str_of_Z (n + 1)).

(** * Theorems

    The two directions of the switch mapping agree, and no flow
    modification can be sent. *)

Close Scope string_scope.

(** What the controller reports of its switches: the list of the data path
    ids, and for each the description [of_<number>]. *)
Definition switch_name (n : Z) : string := "of_" +:+ str_of_Z n.
Definition desc_body (d n : Z) : json :=
  JObj [(str_of_Z d, JObj [("dp_desc"%string, JStr (switch_name n))])].

Record reports_switches {W} `{RyuApi W} (host : string) (port_no : Z) (numbers : dict Z Z) : Prop := {
  rsw_list : ∀ w, ∃ w', http_request GET (get_request_url host port_no SwitchList) [] w
    = (Ok (mkHttpResponse 200 (JList (JInt <$> Dict.keys numbers))), w');
  rsw_desc : ∀ d n w, Dict.get numbers d = Some n → ∃ w',
    http_request GET (get_request_url host port_no (SwitchDesc (str_of_Z d))) [] w
    = (Ok (mkHttpResponse 200 (desc_body d n)), w')
}.

Lemma switch_name_no n : sw_name_to_no (JStr (switch_name n)) = Ok (str_of_Z n).
Proof.
  unfold sw_name_to_no, name_parts, switch_name.
  change ("of_" +:+ str_of_Z n) with ("of" +:+ String underscore (str_of_Z n))%string.
  rewrite str_split_app by done. rewrite str_split_none by (by apply str_in_str_of_Z). done.
Qed.

Section mapper.
Context {W : Type} `{RyuApi W}.
Variables (host : string) (port_no : Z) (numbers : dict Z Z).
Hypothesis controller : reports_switches (W:=W) host port_no numbers.

Lemma describe d n w :
  Dict.get numbers d = Some n → ∃ w', get_response host port_no (SwitchDesc (str_of_Z d)) w
    = (Ok (OFResponseSwitchDesc 200 (desc_body d n)), w').
Proof.
  intros Hd. destruct (rsw_desc _ _ _ controller d n w Hd) as [w' Hw']. exists w'.
  unfold get_response. rewrite (bindS_run _ _ _ [] w) by done.
  rewrite (bindS_run _ _ _ _ _ Hw'). done.
Qed.

Lemma desc_name c d n : get_sw_name (OFResponseSwitchDesc c (desc_body d n)) = Ok (JStr (switch_name n)).
Proof.
  unfold get_sw_name, get_sw_dpid, desc_body, Dict.keys.
  cbn [jitems mbind res_bind fmap list_fmap fst last or_raise jkey]. unfold Dict.getitem. cbn [Dict.get].
  by rewrite decide_True.
Qed.

Lemma dpid_to_sw_num d n w :
  Dict.get numbers d = Some n → ∃ w', map_dpid_to_sw_num host port_no (str_of_Z d) w = (Ok n, w').
Proof.
  intros Hd. destruct (describe d n w Hd) as [w' Hw']. exists w'.
  unfold map_dpid_to_sw_num, map_dpid_to_sw.
  rewrite (bindS_run _ _ _ (JStr (switch_name n)) w').
  - rewrite switch_name_no. rewrite (bindS_run _ _ _ (str_of_Z n) w') by done. unfold lift. by rewrite int_of_str_of_Z.
  - rewrite (bindS_run _ _ _ _ _ Hw'). unfold lift. by rewrite desc_name.
Qed.

Lemma find_switch_spec n ds w :
  (∀ d, d ∈ ds → is_Some (Dict.get numbers d)) →
  ∃ r w', find_switch host port_no (str_of_Z n) (JInt <$> ds) w = (Ok r, w') ∧
    match r with
    | Some s => ∃ d, d ∈ ds ∧ s = str_of_Z d ∧ Dict.get numbers d = Some n
    | None => ∀ d, d ∈ ds → Dict.get numbers d ≠ Some n
    end.
Proof.
  revert w. induction ds as [|d ds IH]; intros w Hds.
  { exists None, w. split; [done|]. intros d Hd. by apply elem_of_nil in Hd. }
  destruct (Hds d) as [n' Hn']; [left|]. destruct (describe d n' w Hn') as [w1 Hw1].
  rewrite fmap_cons. cbn [find_switch]. rewrite (bindS_run _ _ _ (str_of_Z d) w) by done.
  rewrite (bindS_run _ _ _ _ _ Hw1). rewrite (bindS_run _ _ _ (JStr (switch_name n')) w1) by (unfold lift; by rewrite desc_name).
  rewrite (bindS_run _ _ _ (str_of_Z n') w1) by (unfold lift; by rewrite switch_name_no).
  case_bool_decide as Heq.
  - apply str_of_Z_inj in Heq as ->. exists (Some (str_of_Z d)), w1. split; [done|]. exists d. split; [left|done].
  - destruct (IH w1) as (r & w2 & Hw2 & Hr); [intros; apply Hds; by right|]. exists r, w2. split; [done|].
    destruct r as [s|].
    + destruct Hr as (d0 & ? & ? & ?). exists d0. split; [by right|done].
    + intros d0 [->|Hd0]%elem_of_cons; [|by apply Hr]. intros ?. apply Heq. congruence.
Qed.

(** The switch mapping is consistent in both directions. For a
    controller that describes its switches as [of_<number>],
    [map_dpid_to_sw_num] returns the number of every switch;
    [map_sw_to_dpid] always returns, finds a switch exactly if one has the
    number, and the data path id it finds is mapped back to that number. *)
Theorem switch_mapping_consistent :
  (∀ d n w, Dict.get numbers d = Some n →
     ∃ w', map_dpid_to_sw_num host port_no (str_of_Z d) w = (Ok n, w')) ∧
  (∀ n w, ∃ r w', map_sw_to_dpid host port_no (str_of_Z n) w = (Ok r, w') ∧
     match r with
     | Some s => ∃ d, s = str_of_Z d ∧ Dict.get numbers d = Some n ∧
         ∀ w1, ∃ w2, map_dpid_to_sw_num host port_no s w1 = (Ok n, w2)
     | None => ∀ d, Dict.get numbers d ≠ Some n
     end).
Proof.
  split; [apply dpid_to_sw_num|]. intros n w.
  destruct (rsw_list _ _ _ controller w) as [w1 Hw1].
  destruct (find_switch_spec n (Dict.keys numbers) w1) as (r & w2 & Hw2 & Hr); [by intros d ?%Dict.elem_of_keys|].
  exists r, w2. split.
  - unfold map_sw_to_dpid. rewrite (bindS_run _ _ _ (OFResponseSwitchList 200 (JList (JInt <$> Dict.keys numbers))) w1).
    + rewrite (bindS_run _ _ _ (JList (JInt <$> Dict.keys numbers)) w1) by done. by rewrite (bindS_run _ _ _ (JInt <$> Dict.keys numbers) w1).
    + unfold get_response. rewrite (bindS_run _ _ _ [] w) by done. by rewrite (bindS_run _ _ _ _ _ Hw1).
  - destruct r as [s|].
    + destruct Hr as (d & _ & -> & Hd). exists d. split_and!; [done..|]. intros w3. by apply dpid_to_sw_num.
    + intros d Hd. apply (Hr d); [|done]. apply Dict.elem_of_keys. by eexists.
Qed.
End mapper.

(** A controller with two switches. *)
Definition demo_numbers : dict Z Z := [(17, 3); (42, 1)]%Z.
Definition demo_http (_ : HttpReqType) (url : string) (_ : dict string json) : M unit HttpResponse :=
  if decide (url = get_request_url "c" 8080 SwitchList)
  then mret (mkHttpResponse 200 (JList (JInt <$> Dict.keys demo_numbers)))
  else match filter (λ dn, get_request_url "c" 8080 (SwitchDesc (str_of_Z dn.1)) = url) demo_numbers with
       | (d, n) :: _ => mret (mkHttpResponse 200 (desc_body d n))
       | [] => mret (mkHttpResponse 404 JNull)
       end.
#[export] Instance demo_ryu : RyuApi unit := {| http_request := demo_http |}.

Lemma demo_reports : reports_switches (W:=unit) "c" 8080 demo_numbers.
Proof.
  split.
  - intros []. exists tt. by vm_compute.
  - intros d n []. unfold demo_numbers at 1. cbn [Dict.get]. repeat case_decide; intros [= <-]; subst;
      exists tt; by vm_compute.
Qed.

Lemma switch_mapping_consistent_witness :
  map_dpid_to_sw_num "c" 8080 (str_of_Z 17) tt = (Ok 3%Z, tt) ∧
  ∃ r, map_sw_to_dpid "c" 8080 (str_of_Z 1) tt = (Ok r, tt).
Proof.
  destruct (switch_mapping_consistent "c" 8080 demo_numbers demo_reports) as [H1 H2]. split.
  - destruct (H1 17%Z 3%Z tt) as [[] Hw]; [by vm_compute|exact Hw].
  - destruct (H2 1%Z tt) as (r & [] & Hw & _). exists r. exact Hw.
Defined.

(** [Flowmod.get_json] uses a name that flowmod.py does not define: every
    request that carries a flow modification raises [NameError] and sends
    nothing. *)
Lemma flow_mods_never_sent {W} `{RyuApi W} host port_no dpid table_id fm (w : W) :
  push_flow_mod host port_no dpid fm w = (Raise NameError, w) ∧
  remove_flow host port_no (str_of_Z dpid) fm w = (Raise NameError, w) ∧
  remove_table_flows host port_no dpid table_id w = (Raise NameError, w) ∧
  add_default_route host port_no dpid table_id w = (Raise NameError, w).
Proof. done. Qed.
