(* ===== verification/StatsProcessor.v ===== *)
(** Link utilization, flow rates and packet loss of the multipath trials
    (mp_routing/stats_processor.py): counters per switch port, the topology
    of the OpenFlow controller and the packet counts of the hosts.

    Packet counts are floats, which represent them exactly up to 2^53.
    [statistics.mean] is a parameter. The pickled files are their contents
    with their names. Printing and plotting are not modelled. *)

From Stdlib Require Import Ascii.
From S2P Require Import Prelude PyDict PyStr PyFloat PyText Json OpenFlow HostMapper.
Close Scope string_scope.

Inductive Units : Type :=
  | PacketsPerSecond | MegaBitsPerSecond | BitsPerSecond | BytesPerSecond | MegaBytesPerSecond.

(** * Nested dictionaries *)

(** [d[i][j] = v] on a [defaultdict(dict)]. *)
Definition set2 {A B V} `{Countable A} `{Countable B} (d : dict A (dict B V)) (i : A) (j : B) (v : V)
    : dict A (dict B V) :=
  Dict.set d i (Dict.set (Dict.get_default [] d i) j v).

(** [d[i][j][k] = v] and [d[i][j][k]] on a
    [defaultdict(lambda: defaultdict(dict))]; the empty dictionaries that a
    lookup stores are never read. *)
Definition set3 {A B C V} `{Countable A} `{Countable B} `{Countable C}
    (d : dict A (dict B (dict C V))) (i : A) (j : B) (k : C) (v : V) : dict A (dict B (dict C V)) :=
  Dict.set d i (set2 (Dict.get_default [] d i) j k v).
Definition get3 {A B C V} `{Countable A} `{Countable B} `{Countable C}
    (d : dict A (dict B (dict C V))) (i : A) (j : B) (k : C) : option V :=
  Dict.get (Dict.get_default [] (Dict.get_default [] d i) j) k.

Section processor.
Context {W : Type} `{RyuApi W} `{DnsApi W} {F : Type} `{PyFloat F}.
Variables (host : string) (port_no : Z) (domain : string).

(** * Links *)

(** The neighbour of [src_dpid] at a port, in the adjacency matrix. *)
Definition link_at (topo : adjacency) (src_dpid port : Z) : res (Z * Z) :=
  match filter (λ t, t.2 = port) (Dict.get_default [] topo src_dpid) with
  | (neighbour, _) :: _ => Ok (src_dpid, neighbour)
  | [] => Raise ValueError
  end.

Definition _get_link (src_dpid port : Z) : M W (Z * Z) :=
  resp ← get_topo_links host port_no;
  topo ← lift (get_adj_mat resp);
  lift (link_at topo src_dpid port).

(** The names are keys of dictionaries. *)
Definition sw_name (dpid : Z) : M W string :=
  name ← map_dpid_to_sw host port_no (str_of_Z dpid);
  lift (match name with JStr s => Ok s | _ => Raise TypeError end).

Definition _get_friendly_link (src_dpid port : Z) : M W (string * string) :=
  '(u, v) ← _get_link src_dpid port;
  src_nm ← sw_name u;
  dst_nm ← sw_name v;
  mret (src_nm, dst_nm).

(** [try: m except ValueError: None] *)
Definition catch_value_error {A} (m : M W A) : M W (option A) := λ w,
  match m w with
  | (Ok a, w) => (Ok (Some a), w)
  | (Raise ValueError, w) => (Ok None, w)
  | (Raise e, w) => (Raise e, w)
  end.

Definition _is_core_port (dpid port : Z) : M W bool :=
  r ← catch_value_error (_get_link dpid port);
  mret (match r with Some _ => true | None => false end).

Definition _is_host_port (dpid port : Z) : M W bool :=
  b ← _is_core_port dpid port; mret (negb b).

(** * Utilization *)

Abbreviation counters := (dict (Z * Z) (list F)).
Variable stat_mean : list F → res F.

Definition _compute_timeframes (results_store : counters) : counters :=
  (λ kv, (kv.1, (λ t : F * F, fsub t.2 t.1) <$> pairwise kv.2)) <$> results_store.

(** The loop of the two functions that follow; a port without a link is
    skipped. *)
Definition link_stats {V} (value : list F → res V) (stats_dict : counters)
    : M W (dict string (dict string V)) :=
  foldS (λ link_utils '((sw_dpid, egress_port), count_list),
    names ← catch_value_error (_get_friendly_link sw_dpid egress_port);
    match names with
    | None => mret link_utils
    | Some (src_nm, dst_nm) => v ← lift (value count_list); mret (set2 link_utils src_nm dst_nm v)
    end) [] (_compute_timeframes stats_dict).

Definition _calc_link_util_pps (stats_dict : counters) : M W (dict string (dict string F)) :=
  link_stats stat_mean stats_dict.

Definition _calc_link_util_pps_t (stats_dict : counters) : M W (dict string (dict string (list F))) :=
  link_stats Ok stats_dict.

Definition _calc_uplink_port_util_pps {V} (transf_fn : list F → res V) (stats_dict : counters)
    : M W (dict string (dict Z V)) :=
  foldS (λ link_utils '((sw_dpid, egress_port), count_list),
    is_host ← _is_host_port sw_dpid egress_port;
    if is_host : bool then
      name ← sw_name sw_dpid;
      v ← lift (transf_fn count_list);
      mret (set2 link_utils name egress_port v)
    else mret link_utils) [] (_compute_timeframes stats_dict).

Definition _convert_stats {K} `{Countable K} (stats_dict : dict string (dict K F)) (conv_fn : F → res F)
    : res (dict string (dict K F)) :=
  foldM (λ ret '(src_sw, v),
    foldM (λ ret '(dst_sw, count), c ← conv_fn count; Ok (set2 ret src_sw dst_sw c)) ret v) [] stats_dict.

Definition _convert_stats_list {K} `{Countable K} (stats_dict : dict string (dict K (list F)))
    (conv_fn : F → res F) : res (dict string (dict K (list F))) :=
  foldM (λ ret '(src_sw, v),
    foldM (λ ret '(dst_sw, count_list), cs ← mapR conv_fn count_list; Ok (set2 ret src_sw dst_sw cs)) ret v)
    [] stats_dict.

Definition _build_conv_fn (pkt_size time_frame : F) (units : Units) (pkts : F) : res F :=
  match units with
  | PacketsPerSecond => fdiv pkts time_frame
  | BitsPerSecond => fdiv (fmul (fmul pkts pkt_size) (f_of_Z 8)) time_frame
  | MegaBitsPerSecond =>
      x ← fdiv (fmul (fmul pkts pkt_size) (f_of_Z 8)) (f_of_Z (10 ^ 6)); fdiv x time_frame
  | BytesPerSecond => fdiv (fmul pkts (f_of_Z 1066)) time_frame
  | MegaBytesPerSecond => x ← fdiv (fmul pkts (f_of_Z 1066)) (f_of_Z (10 ^ 6)); fdiv x time_frame
  end.

Definition _calc_link_util {K} `{Countable K} (pps_stats : dict string (dict K F)) (pkt_size time_frame : F)
    (units : Units) : res (dict string (dict K F)) :=
  _convert_stats pps_stats (_build_conv_fn pkt_size time_frame units).

Definition _calc_link_util_list {K} `{Countable K} (pps_stats : dict string (dict K (list F)))
    (pkt_size time_frame : F) (units : Units) : res (dict string (dict K (list F))) :=
  _convert_stats_list pps_stats (_build_conv_fn pkt_size time_frame units).

Definition calc_link_util (stats_dict : counters) (pkt_size time_frame : F) (units : Units)
    : M W (dict string (dict string F)) :=
  pps_stats ← _calc_link_util_pps stats_dict;
  lift (_calc_link_util pps_stats pkt_size time_frame units).

Definition calc_link_util_per_t (stats_dict : counters) (pkt_size time_frame : F) (units : Units)
    : M W (dict string (dict string (list F))) :=
  pps_stats ← _calc_link_util_pps_t stats_dict;
  lift (_calc_link_util_list pps_stats pkt_size time_frame units).

Definition calc_ingress_util (stats_dict : counters) (pkt_size time_frame : F) (units : Units)
    : M W (dict string (dict Z F)) :=
  pps_stats ← _calc_uplink_port_util_pps stat_mean stats_dict;
  lift (_calc_link_util pps_stats pkt_size time_frame units).

Definition calc_ingress_util_per_t (stats_dict : counters) (pkt_size time_frame : F) (units : Units)
    : M W (dict string (dict Z (list F))) :=
  pps_stats ← _calc_uplink_port_util_pps Ok stats_dict;
  lift (_calc_link_util_list pps_stats pkt_size time_frame units).

(** * Packet loss *)

(** source host -> destination host -> source port -> packets *)
Abbreviation packet_counts := (dict string (dict string (dict Z F))).

(** The dictionary a sender has pickled for one flow. *)
Record FlowInfo : Type := mkFlowInfo {
  fi_src_host : string;
  fi_dst_ip : string;
  fi_src_port : Z;
  fi_pkt_count : F
}.

Definition of_cpsc : string := ".of.cpsc."%string.

(** [split('.')] and the names of hosts that resolve to private addresses. *)
Definition short_name (hname : string) : res string :=
  let tok_list := str_split dot hname in
  tok ← py_index tok_list 2;
  if bool_decide (tok = "168"%string) then first ← py_index tok_list 0; Ok (first +:+ of_cpsc) else Ok hname.

(** An address of 192.168.0.* that was written backwards. *)
Definition unreverse_ip (dst_ip : string) : res string :=
  let toks := str_split dot dst_ip in
  b ← py_index toks 1;
  if bool_decide (b = "0"%string) then
    c ← py_index toks 2;
    if bool_decide (c = "168"%string) then
      d ← py_index toks 3;
      if bool_decide (d = "192"%string) then
        a ← py_index toks 0;
        Ok (d +:+ "." +:+ c +:+ "." +:+ b +:+ "." +:+ a)%string
      else Ok dst_ip
    else Ok dst_ip
  else Ok dst_ip.

(** [None.split] is an [AttributeError]. *)
Definition host_of_ip (ip : string) : M W string :=
  hname ← reverse_lookup ip;
  hname ← lift (or_raise AttributeError hname);
  lift (short_name hname).

Definition qualified_host (sw_no : string) : res string :=
  h ← map_sw_to_host sw_no; qualify_host_domain domain h.

Definition add_tx (tx_dict : packet_counts) (flow_info : FlowInfo) : M W packet_counts :=
  dst_ip ← lift (unreverse_ip (fi_dst_ip flow_info));
  dst_hname ← host_of_ip dst_ip;
  src_hname ← lift (qualified_host (fi_src_host flow_info));
  mret (set3 tx_dict src_hname dst_hname (fi_src_port flow_info) (fi_pkt_count flow_info)).

Definition _mk_tx_dict (tx_files : list (dict Z FlowInfo)) : M W packet_counts :=
  foldS (λ tx_dict flow_dict, foldS add_tx tx_dict (Dict.values flow_dict)) [] tx_files.

(** The receiver's number is in the name of its file; the argument is the
    base name without extension. *)
Definition add_rx (base : string) (rx_dict : packet_counts) (info : (string * Z) * F) : M W packet_counts :=
  let '((src_ip, src_port), pkt_count) := info in
  rx_er ← lift (py_index (str_split underscore base) 1);
  rx_host ← lift (qualified_host rx_er);
  hostname ← host_of_ip src_ip;
  mret (set3 rx_dict rx_host hostname src_port pkt_count).

Definition _mk_rx_dict (rx_files : list (string * dict (string * Z) F)) : M W packet_counts :=
  foldS (λ rx_dict '(base, infos), foldS (add_rx base) rx_dict infos) [] rx_files.

Definition calc_pkt_loss (tx_pkts rx_pkts : F) : res F := fdiv (fsub tx_pkts rx_pkts) tx_pkts.

(** A flow without received packets is left out. *)
Definition add_loss (rx_dict : packet_counts) (src_host dst_host : string) (loss_dict : packet_counts)
    (flow : Z * F) : res packet_counts :=
  match get3 rx_dict dst_host src_host flow.1 with
  | None => Ok loss_dict
  | Some rx_pkts => x ← calc_pkt_loss flow.2 rx_pkts; Ok (set3 loss_dict src_host dst_host flow.1 x)
  end.

Definition _mk_loss_dict (tx_dict rx_dict : packet_counts) : res packet_counts :=
  foldM (λ loss_dict '(src_host, vs),
    foldM (λ loss_dict '(dst_host, flows),
      foldM (add_loss rx_dict src_host dst_host) loss_dict flows) loss_dict vs) [] tx_dict.

Definition calc_loss_rates (tx_files : list (dict Z FlowInfo)) (rx_files : list (string * dict (string * Z) F))
    : M W packet_counts :=
  tx_dict ← _mk_tx_dict tx_files;
  rx_dict ← _mk_rx_dict rx_files;
  lift (_mk_loss_dict tx_dict rx_dict).

Definition calc_flow_rate (pkt_size trial_len : F) (tx_files : list (dict Z FlowInfo))
    (rx_files : list (string * dict (string * Z) F)) : M W packet_counts :=
  rx_dict ← _mk_rx_dict rx_files;
  _ ← _mk_tx_dict tx_files;
  lift (foldM (λ rx_stats '(rx_host, v),
    foldM (λ rx_stats '(tx_host, flows),
      foldM (λ rx_stats '(src_port, rx_count),
        x ← fdiv rx_count trial_len;
        y ← fdiv (fmul (fmul x pkt_size) (f_of_Z 8)) (f_of_Z (10 ^ 6));
        Ok (set3 rx_stats tx_host rx_host src_port y)) rx_stats flows) rx_stats v) [] rx_dict).
End processor.

(** * Theorems

    The loss rates are computed for exactly the flows that were sent and
    received, and the core ports are those where a link ends. *)


Close Scope string_scope.

(** * Nested dictionaries *)

Lemma elem_of_concat_fmap {A B} (f : A → list B) l x : x ∈ concat (f <$> l) ↔ ∃ y, y ∈ l ∧ x ∈ f y.
Proof.
  rewrite list_elem_of_In, in_concat. split.
  - intros (k & (y & -> & Hy)%list_elem_of_In%list_elem_of_fmap & Hx%list_elem_of_In). by exists y.
  - intros (y & Hy & Hx). exists (f y). rewrite <-!list_elem_of_In. split; [|done].
    apply list_elem_of_fmap. by exists y.
Qed.

Section nested.
Context {A B C V : Type} `{Countable A} `{Countable B} `{Countable C}.
Implicit Types (d : dict A (dict B (dict C V))).

Lemma get_default_set2 (e : dict B (dict C V)) j k v j' :
  Dict.get_default [] (set2 e j k v) j'
  = if decide (j = j') then Dict.set (Dict.get_default [] e j) k v else Dict.get_default [] e j'.
Proof. unfold set2. by rewrite Dict.get_default_set. Qed.

Lemma get3_set3 d i j k v i' j' k' :
  get3 (set3 d i j k v) i' j' k' = if decide ((i, j, k) = (i', j', k')) then Some v else get3 d i' j' k'.
Proof.
  unfold get3, set3. rewrite Dict.get_default_set. destruct (decide (i = i')) as [->|Hi].
  - rewrite get_default_set2. destruct (decide (j = j')) as [->|Hj].
    + rewrite Dict.get_set. repeat case_decide; naive_solver.
    + by rewrite decide_False by naive_solver.
  - by rewrite decide_False by naive_solver.
Qed.

Definition wf3 d : Prop :=
  Dict.wf d ∧ Forall (λ kv : A * dict B (dict C V), Dict.wf kv.2 ∧ Forall (λ kv : B * dict C V, Dict.wf kv.2) kv.2) d.

(** The entries, with their three keys. *)
Definition entries3 d : list (A * B * C * V) :=
  concat ((λ id, concat ((λ jd : B * dict C V, (λ kv, (id.1, jd.1, kv.1, kv.2)) <$> jd.2) <$> id.2)) <$> d).

Lemma elem_of_entries3 d i j k v : wf3 d → (i, j, k, v) ∈ entries3 d ↔ get3 d i j k = Some v.
Proof.
  intros [Hwf Hin]. unfold entries3, get3, Dict.get_default. rewrite elem_of_concat_fmap. split.
  - intros ([i0 d1] & Hd1 & ([j0 d2] & Hd2 & ([k0 v0] & [= -> -> -> ->] & Hv)%list_elem_of_fmap)%elem_of_concat_fmap).
    rewrite Forall_forall in Hin. destruct (Hin _ Hd1) as [Hwf1 Hin1].
    rewrite Forall_forall in Hin1. specialize (Hin1 _ Hd2). simpl in *.
    rewrite (Dict.elem_of_get d i0 d1) by done. simpl. rewrite (Dict.elem_of_get d1 j0 d2) by done. simpl.
    by apply Dict.elem_of_get.
  - intros Hget. destruct (Dict.get d i) as [d1|] eqn:E1; [|done]. simpl in Hget.
    destruct (Dict.get d1 j) as [d2|] eqn:E2; [|done]. simpl in Hget.
    apply Dict.get_elem_of in Hget, E1, E2. exists (i, d1). split; [done|]. apply elem_of_concat_fmap.
    exists (j, d2). split; [done|]. apply list_elem_of_fmap. by exists (k, v).
Qed.
End nested.

(** * Packet loss *)

Section loss.
Context {F : Type} `{PyFloat F}.
Implicit Types (tx rx : dict string (dict string (dict Z F))).

(** What the loss of a flow should be: defined when it was sent and
    received. *)
Definition loss_spec tx rx (s d : string) (p : Z) : option F :=
  n ← get3 tx s d p; m ← get3 rx d s p; Some (fquot (fsub n m) n).

Lemma mk_loss_entries tx rx :
  _mk_loss_dict tx rx = foldM (λ L '(s, d, p, n), add_loss rx s d L (p, n)) [] (entries3 tx).
Proof.
  unfold _mk_loss_dict, entries3. apply foldM_nested. intros L [s vs]. apply foldM_nested.
  intros L' [d flows]. cbn [fst snd]. rewrite foldM_fmap. apply foldM_ext. by intros b [p n] _.
Qed.

(** C33: The loss rates are exact. When no flow has sent zero packets,
    [_mk_loss_dict] returns, and the loss of source, destination and port is
    [(sent - received) / sent] when the flow was both sent and received, and
    is missing otherwise. *)
Theorem loss_rates_exact tx rx :
  wf3 tx → (∀ s d p n, get3 tx s d p = Some n → feq n fzero = false) →
  ∃ L, _mk_loss_dict tx rx = Ok L ∧ ∀ s d p, get3 L s d p = loss_spec tx rx s d p.
Proof.
  intros Hwf Hnz. rewrite mk_loss_entries.
  destruct (foldM_prefix (λ l1 L, ∀ s d p, get3 L s d p =
      if decide ((s, d, p) ∈ l1.*1) then loss_spec tx rx s d p else None)
    (λ L '(s, d, p, n), add_loss rx s d L (p, n)) (entries3 tx)) with (b := @nil (string * dict string (dict Z F)))
    as (L & -> & HL).
  - intros l1 [[[s d] p] n] l2 L Hsplit HP.
    assert (get3 tx s d p = Some n) as Hn.
    { apply elem_of_entries3; [done|]. rewrite Hsplit. apply elem_of_app. right. left. }
    unfold add_loss. cbn [fst snd]. destruct (get3 rx d s p) as [m|] eqn:Hm.
    + unfold calc_pkt_loss, fdiv. rewrite (Hnz s d p n Hn). simpl. eexists. split; [done|].
      intros s' d' p'. rewrite get3_set3, HP, fmap_app. simpl. destruct (decide ((s, d, p) = (s', d', p'))) as [[= <- <- <-]|Hne].
      * rewrite decide_True by set_solver. unfold loss_spec. by rewrite Hn, Hm.
      * repeat case_decide; set_solver.
    + exists L. split; [done|]. intros s' d' p'. rewrite HP, fmap_app. simpl.
      destruct (decide ((s', d', p') = (s, d, p))) as [[= -> -> ->]|Hne].
      * rewrite (decide_True _ _ (P := _ ∈ _ ++ _)) by set_solver. unfold loss_spec. rewrite Hn, Hm. by case_decide.
      * repeat case_decide; set_solver.
  - by intros s d p.
  - exists L. split; [done|]. intros s d p. rewrite HL. case_decide as Hin; [done|].
    unfold loss_spec. destruct (get3 tx s d p) as [n|] eqn:Hn; [|done]. exfalso. apply Hin.
    apply elem_of_entries3 in Hn; [|done]. apply list_elem_of_fmap. by exists (s, d, p, n).
Qed.
End loss.

Definition demo_tx : dict string (dict string (dict Z SpecFloat.spec_float)) :=
  [("h1", [("h2", [(50000%Z, f_of_Z 100); (50001%Z, f_of_Z 10)])])]%string.
Definition demo_rx : dict string (dict string (dict Z SpecFloat.spec_float)) :=
  [("h2", [("h1", [(50000%Z, f_of_Z 75)])])]%string.

Lemma loss_rates_exact_witness :
  ∃ L, _mk_loss_dict demo_tx demo_rx = Ok L ∧ get3 L "h1"%string "h2"%string 50000%Z = Some (flit 1 4) ∧
    get3 L "h1"%string "h2"%string 50001%Z = None.
Proof.
  destruct (loss_rates_exact demo_tx demo_rx) as (L & HL & Hspec).
  - split; [apply NoDup_singleton|]. constructor; [|constructor]. split; [apply NoDup_singleton|].
    constructor; [|constructor]. apply (bool_decide_unpack _). by vm_compute.
  - intros s d p n Hn. apply elem_of_entries3 in Hn.
    + revert Hn. change (entries3 demo_tx) with
        [("h1", "h2", 50000%Z, f_of_Z (F:=SpecFloat.spec_float) 100); ("h1", "h2", 50001%Z, f_of_Z 10)]%string.
      intros [[= -> -> -> ->]|[[= -> -> -> ->]|Hnil%elem_of_nil]%elem_of_cons]%elem_of_cons; [by vm_compute..|done].
    + split; [apply NoDup_singleton|]. constructor; [|constructor]. split; [apply NoDup_singleton|].
      constructor; [|constructor]. apply (bool_decide_unpack _). by vm_compute.
  - exists L. split; [exact HL|]. rewrite !Hspec. by vm_compute.
Defined.

(** * Core ports *)

(** A link as the controller reports it: from switch [ol_src] to the port
    [ol_port] of switch [ol_dst]. *)
Record of_link : Type := mkOfLink { ol_src : Z; ol_dst : Z; ol_port : Z }.
Definition of_link_ok (l : of_link) : Prop :=
  (0 ≤ ol_src l < 2 ^ 64)%Z ∧ (0 ≤ ol_dst l < 2 ^ 64)%Z ∧ (0 ≤ ol_port l < 2 ^ 64)%Z.
Definition link_json (l : of_link) : json :=
  JObj [("dst", JObj [("dpid", JStr (dpid_fmt (ol_dst l))); ("port_no", JStr (dpid_fmt (ol_port l)))]);
        ("src", JObj [("dpid", JStr (dpid_fmt (ol_src l)))])]%string.

Definition add_of_link (adj : adjacency) (l : of_link) : adjacency :=
  Dict.set adj (ol_dst l) (Dict.set (Dict.get_default [] adj (ol_dst l)) (ol_src l) (ol_port l)).

Lemma add_adjacency_link adj l : of_link_ok l → add_adjacency adj (link_json l) = Ok (add_of_link adj l).
Proof.
  intros (Hs & Hd & Hp).
  assert (jkey (link_json l) "dst" = Ok (JObj [("dpid", JStr (dpid_fmt (ol_dst l))); ("port_no", JStr (dpid_fmt (ol_port l)))]%string)) as H1 by reflexivity.
  assert (jkey (link_json l) "src" = Ok (JObj [("dpid", JStr (dpid_fmt (ol_src l)))]%string)) as H2 by reflexivity.
  unfold add_adjacency. rewrite H1, H2. cbn [mbind res_bind].
  change (jkey (JObj [("dpid", JStr ?x); ?y]%string) "dpid") with (Ok (JStr x)).
  change (jkey (JObj [("dpid", JStr ?x)]%string) "dpid") with (Ok (JStr x)).
  change (jkey (JObj [?y; ("port_no", JStr ?x)]%string) "port_no") with (Ok (JStr x)).
  cbn [mbind res_bind jhex]. by rewrite !int_of_dpid_fmt.
Qed.

Definition neighbours (adj : adjacency) (d : Z) : dict Z Z := Dict.get_default [] adj d.

Lemma get_add_of_link adj l d s :
  Dict.get (neighbours (add_of_link adj l) d) s =
  if decide ((ol_dst l, ol_src l) = (d, s)) then Some (ol_port l) else Dict.get (neighbours adj d) s.
Proof.
  unfold neighbours, add_of_link. rewrite Dict.get_default_set. destruct (decide (ol_dst l = d)) as [->|Hd].
  - rewrite Dict.get_set. repeat case_decide; naive_solver.
  - by rewrite decide_False by naive_solver.
Qed.

(** The adjacency matrix of the reported links. *)
Lemma adjacency_spec c links :
  Forall of_link_ok links → NoDup ((λ l, (ol_dst l, ol_src l)) <$> links) →
  ∃ adj, get_adj_mat (OFResponseTopologyLinks c (JList (link_json <$> links))) = Ok adj ∧
    (∀ d, Dict.wf (neighbours adj d)) ∧
    ∀ d s p, Dict.get (neighbours adj d) s = Some p ↔ mkOfLink s d p ∈ links.
Proof.
  intros Hok Hnd. unfold get_adj_mat. cbn [jlist mbind res_bind]. rewrite foldM_fmap.
  destruct (foldM_prefix (λ l1 adj, (∀ d, Dict.wf (neighbours adj d)) ∧
      ∀ d s p, Dict.get (neighbours adj d) s = Some p ↔ mkOfLink s d p ∈ l1)
    (λ adj l, add_adjacency adj (link_json l)) links) with (b := @nil (Z * dict Z Z)) as (adj & -> & Hadj).
  - intros l1 l l2 adj Hsplit [Hwf Hget]. exists (add_of_link adj l). split; [|split].
    + apply add_adjacency_link. rewrite Forall_forall in Hok. apply Hok. rewrite Hsplit. set_solver.
    + intros d. unfold neighbours, add_of_link. rewrite Dict.get_default_set.
      case_decide; [|apply Hwf]. apply Dict.wf_set, Hwf.
    + intros d s p. rewrite get_add_of_link. case_decide as Heq.
      * injection Heq as <- <-. rewrite elem_of_app, list_elem_of_singleton. split.
        -- intros [= <-]. right. by destruct l.
        -- intros [Hin|Hl]; [|by rewrite <-Hl]. exfalso. rewrite Hsplit, fmap_app, fmap_cons in Hnd.
           apply NoDup_app in Hnd as (_ & Hd & _). apply (Hd (ol_dst l, ol_src l)); [|left].
           apply list_elem_of_fmap. by exists (mkOfLink (ol_src l) (ol_dst l) p).
      * rewrite Hget, elem_of_app, list_elem_of_singleton. split; [auto|]. intros [?|<-]; [done|]. by destruct Heq.
  - split; [intros d; constructor|]. intros d s p. split; [done|]. by intros ?%elem_of_nil.
  - by exists adj.
Qed.

Lemma link_at_spec adj d p :
  Dict.wf (neighbours adj d) →
  match link_at adj d p with
  | Ok (u, n) => u = d ∧ Dict.get (neighbours adj d) n = Some p
  | Raise e => e = ValueError ∧ ∀ n, Dict.get (neighbours adj d) n ≠ Some p
  end.
Proof.
  intros Hwf. unfold link_at. fold (neighbours adj d).
  destruct (filter (λ t, t.2 = p) (neighbours adj d)) as [|[n q] l] eqn:Hf.
  - split; [done|]. intros n Hn%Dict.get_elem_of.
    assert ((n, p) ∈ filter (λ t, t.2 = p) (neighbours adj d)) as Hin by (by apply list_elem_of_filter).
    rewrite Hf in Hin. by apply elem_of_nil in Hin.
  - split; [done|]. assert ((n, q) ∈ filter (λ t, t.2 = p) (neighbours adj d)) as Hin by (rewrite Hf; left).
    apply list_elem_of_filter in Hin as [Hq Hin]. simpl in Hq. subst q. by apply Dict.elem_of_get.
Qed.

(** Core ports are exactly the ports where a link ends. When the
    controller reports its links, at most one for each pair of switches,
    [_is_core_port] is true of a port exactly if some link ends there, and
    [_get_link] then returns the switch at the other end of such a link. *)
Theorem core_ports_exact {W} `{RyuApi W} host port_no links :
  (∀ w, ∃ w', http_request GET (get_request_url host port_no TopologyLinks) [] w
     = (Ok (mkHttpResponse 200 (JList (link_json <$> links))), w')) →
  Forall of_link_ok links → NoDup ((λ l, (ol_dst l, ol_src l)) <$> links) →
  ∀ d p w, ∃ b w', _is_core_port host port_no d p w = (Ok b, w') ∧
    (b = true ↔ ∃ l, l ∈ links ∧ ol_dst l = d ∧ ol_port l = p) ∧
    (b = true → ∃ n, _get_link host port_no d p w = (Ok (d, n), w') ∧ mkOfLink n d p ∈ links).
Proof.
  intros Hctl Hok Hnd d p w. destruct (Hctl w) as [w1 Hw1].
  destruct (adjacency_spec 200 links Hok Hnd) as (adj & Hadj & Hwf & Hget).
  assert (_get_link host port_no d p w = (link_at adj d p, w1)) as Hlink.
  { unfold _get_link, get_topo_links. rewrite (bindS_run _ _ _ (OFResponseTopologyLinks 200 (JList (link_json <$> links))) w1).
    - by rewrite (bindS_run _ _ _ adj w1) by (unfold lift; by rewrite Hadj).
    - unfold get_response. rewrite (bindS_run _ _ _ [] w) by done. by rewrite (bindS_run _ _ _ _ _ Hw1). }
  unfold _is_core_port, catch_value_error, mbind, M_bind. rewrite Hlink.
  pose proof (link_at_spec adj d p (Hwf d)) as Hat. destruct (link_at adj d p) as [[u n]|e].
  - destruct Hat as [-> Hn%Hget]. exists true, w1. split_and!; [done| |intros _; by exists n].
    split; [intros _|done]. by exists (mkOfLink n d p).
  - destruct Hat as [-> Hno]. exists false, w1. split_and!; [done| |done].
    split; [done|]. intros ([s d' p'] & Hl & <- & <-). exfalso. by apply (Hno s), Hget.
Qed.

Definition demo_links : list of_link := [mkOfLink 1 2 3; mkOfLink 2 1 4].
Definition demo_topo_api : RyuApi unit :=
  {| http_request _ _ _ := mret (mkHttpResponse 200 (JList (link_json <$> demo_links))) |}.

Lemma core_ports_exact_witness :
  ∃ b n, @_is_core_port unit demo_topo_api "c" 8080 2 3 tt = (Ok b, tt) ∧ b = true ∧
    @_get_link unit demo_topo_api "c" 8080 2 3 tt = (Ok (2%Z, n), tt).
Proof.
  destruct (@core_ports_exact unit demo_topo_api "c" 8080 demo_links) with (d := 2%Z) (p := 3%Z) (w := tt)
    as (b & [] & Hb & [_ Hiff] & Hlink).
  - intros []. by exists tt.
  - repeat constructor; simpl; lia.
  - apply (bool_decide_unpack _). by vm_compute.
  - assert (b = true) as -> by (apply Hiff; exists (mkOfLink 1 2 3); split; [left|done]).
    destruct (Hlink eq_refl) as (n & Hn & _). by exists true, n.
Defined.
