(* ===== verification/TrafficGen.v ===== *)
(** The traffic generator and its receiver (traffic_generation/traffic_gen.py
    and traffic_server.py).

    A flow sends bursts of ten packets whenever its timer has expired. The
    clock is external: [transmit] takes the list of the times that the rounds
    of its loop took. [random], the samples of the [scipy] distributions and
    [sqrt] are parameters; the packets that are sent are a log. *)

From Stdlib Require Import Ascii.
From S2P Require Import Prelude PyDict PyStr PyFloat FlowMirroring VirtualHost.
Close Scope string_scope.

(** * Parameters *)

Inductive TrafficModels : Type :=
  | UNIFORM | TRUNC_NORM | RANDOM_SAMPLING | TRUNC_NORM_SYMMETRIC | GAMMA | PRECOMPUTED.

Definition traffic_model_from_str (string_rep : string) : res TrafficModels :=
  let s := str_lower string_rep in
  if bool_decide (s = "uniform"%string) then Ok UNIFORM
  else if bool_decide (s = "trunc_norm"%string) then Ok TRUNC_NORM
  else if bool_decide (s = "random_sampling"%string) then Ok RANDOM_SAMPLING
  else if bool_decide (s = "trunc_norm_symmetric"%string) then Ok TRUNC_NORM_SYMMETRIC
  else if bool_decide (s = "gamma"%string) then Ok GAMMA
  else if bool_decide (s = "precomputed"%string) then Ok PRECOMPUTED
  else Raise ValueError.

Record FlowParameters (F : Type) : Type := mkFlowParameters {
  fp_dest_port : Z;
  fp_dest_addr : string;
  fp_prob_mat : option (list F);
  fp_tx_rate : F;
  fp_variance : F;
  fp_traffic_model : TrafficModels;
  fp_packet_len : Z;
  fp_src_host : Z;
  fp_time_slice : Z;
  fp_tag_value : option (list Z);
  fp_transmit_rates : option (list F);
  fp_source_addr : option string;
  fp_flow_id : Z
}.
Arguments mkFlowParameters {F} _ _ _ _ _ _ _ _ _ _ _ _ _.
Arguments fp_dest_port {F} _.
Arguments fp_dest_addr {F} _.
Arguments fp_prob_mat {F} _.
Arguments fp_tx_rate {F} _.
Arguments fp_variance {F} _.
Arguments fp_traffic_model {F} _.
Arguments fp_packet_len {F} _.
Arguments fp_src_host {F} _.
Arguments fp_time_slice {F} _.
Arguments fp_tag_value {F} _.
Arguments fp_transmit_rates {F} _.
Arguments fp_source_addr {F} _.
Arguments fp_flow_id {F} _.

(** The loop of [get_args] on the entries that [configure_flow] of the
    virtual hosts writes; the other parameters have their defaults. *)
Definition flow_parameters {F} (d : ClientArgs F) : res (FlowParameters F) :=
  traffic_model ← traffic_model_from_str (ca_traffic_model d);
  Ok (mkFlowParameters (ca_dest_port d) (ca_dest_addr d) (ca_prob_mat d) (ca_tx_rate d) (ca_variance d)
        traffic_model (ca_packet_len d) (ca_src_host d) (ca_time_slice d) (Some (ca_tag_value d)) None
        (Some (ca_source_addr d)) 0).
Definition get_args {F} (argument_dicts : list (ClientArgs F)) : res (dict nat (FlowParameters F)) :=
  fps ← mapR flow_parameters argument_dicts; Ok (enumerate fps).

Definition BURST_COUNT : nat := 10.

Section generator.
Context {F : Type} `{PyFloat F} {RNG : Type}.

(** * Rates *)

Inductive Distribution : Type :=
  | truncnorm (a b loc scale : F)
  | uniform (loc scale : F)
  | gamma (a scale : F)
  | PrecomputedTapDistribution (rates_list : list F) (rate_idx : nat).

Variable sqrt : F → res F.
Variable rvs : Distribution → M RNG F.
Variable random_choice : list Z → M RNG Z.
Variable random_uniform : F → F → M RNG F.

Definition uniform_paramaters (mu sigma2 : F) : res (F * F) :=
  r ← sqrt (fmul (f_of_Z 12) sigma2);
  b ← fdiv (fadd r (fmul (f_of_Z 2) mu)) (f_of_Z 2);
  let a := fsub (fmul (f_of_Z 2) mu) b in
  Ok (a, b).

Definition truncated (mu sigma max_dist_val : F) : res Distribution :=
  a ← fdiv (fsub fzero mu) sigma;
  b ← fdiv (fsub max_dist_val mu) sigma;
  Ok (truncnorm a b mu sigma).

Definition create_distribution (mu sigma : F) (traffic_model : TrafficModels) (transmit_rates : option (list F))
    : res Distribution :=
  match traffic_model with
  | TRUNC_NORM | RANDOM_SAMPLING => truncated mu sigma (f_of_Z (2 ^ 32 - 1))
  | TRUNC_NORM_SYMMETRIC => truncated mu sigma (fmul mu (f_of_Z 2))
  | UNIFORM => '(a, b) ← uniform_paramaters mu sigma; Ok (uniform a (fsub b a))
  | GAMMA =>
      theta ← fdiv sigma mu;
      shape ← fdiv sigma (fmul theta theta);
      Ok (gamma shape theta)
  | PRECOMPUTED =>
      rates ← or_raise ValueError transmit_rates;
      Ok (PrecomputedTapDistribution rates 0)
  end.

(** [next(distr)]: only the precomputed rates are an iterator. *)
Definition tap_next (distr : Distribution) : res (F * Distribution) :=
  match distr with
  | PrecomputedTapDistribution rates_list rate_idx =>
      rate ← or_raise IndexError (rates_list !! rate_idx);
      Ok (rate, PrecomputedTapDistribution rates_list ((rate_idx + 1) mod length rates_list))
  | _ => Raise TypeError
  end.

Definition select_tx_rate (args : FlowParameters F) (old_rate : F) (distr : Distribution)
    : M RNG (F * Distribution) :=
  match fp_traffic_model args with
  | UNIFORM | TRUNC_NORM | TRUNC_NORM_SYMMETRIC | GAMMA => r ← rvs distr; mret (r, distr)
  | RANDOM_SAMPLING =>
      c ← random_choice [0; 1]%Z;
      if bool_decide (c = 0%Z) then r ← rvs distr; mret (r, distr) else mret (old_rate, distr)
  | PRECOMPUTED => lift (tap_next distr)
  end.

Definition compute_inter_pkt_delay (pkt_len : Z) (tx_rate time_slice_duration : F) : res F :=
  if feq tx_rate fzero then Ok time_slice_duration
  else d ← fdiv (f_of_Z pkt_len) tx_rate; Ok (fmul d (f_of_Z (Z.of_nat BURST_COUNT))).

(** * Tags *)

Definition calc_dscp_val (flow_num : nat) (tag_values : list Z) : res Z :=
  tag ← or_raise IndexError (tag_values !! flow_num); Ok (Z.shiftl tag 2).

(** The loop of [select_dscp]: [None] when the pick is above the total. *)
Fixpoint pick_path (random_pick accumulator : F) (flow_num : nat) (prob_matrix : list F) : option nat :=
  match prob_matrix with
  | [] => None
  | proportion :: prob_matrix =>
      let accumulator := fadd accumulator proportion in
      if fle random_pick accumulator then Some flow_num
      else pick_path random_pick accumulator (S flow_num) prob_matrix
  end.

Definition select_dscp (prob_matrix : option (list F)) (tag_values : option (list Z)) : M RNG (option Z) :=
  random_pick ← random_uniform fzero fone;
  prob_matrix ← lift (or_raise TypeError prob_matrix);
  match pick_path random_pick fzero 0 prob_matrix with
  | Some flow_num =>
      tags ← lift (or_raise TypeError tag_values);
      v ← lift (calc_dscp_val flow_num tags);
      mret (Some v)
  | None => mret None
  end.

(** * Sending *)

(** The timers of [transmit], the packets sent (flow and DSCP value) and the
    global [pkt_count]. *)
Record Sender : Type := mkSender {
  timers : dict nat F;
  sent : list (nat * Z);
  pkt_count : dict nat Z
}.

(** [set_dscp] refuses [None]. *)
Definition send_packet (flow_params : dict nat (FlowParameters F)) (i : nat) (s : Sender) : M RNG Sender :=
  fp ← lift (Dict.getitem flow_params i);
  dscp ← select_dscp (fp_prob_mat fp) (fp_tag_value fp);
  v ← lift (or_raise TypeError dscp);
  mret (mkSender (timers s) (sent s ++ [(i, v)]) (pkt_count s)).

Definition inc_pkt_count (flow_num : nat) (s : Sender) : Sender :=
  mkSender (timers s) (sent s)
    (Dict.set (pkt_count s) flow_num (Dict.get_default 0%Z (pkt_count s) flow_num + Z.of_nat BURST_COUNT)%Z).

Definition set_timer (i : nat) (t : F) (s : Sender) : Sender :=
  mkSender (Dict.set (timers s) i t) (sent s) (pkt_count s).

Definition send_burst (flow_params : dict nat (FlowParameters F)) (ipd_list : list F) (s : Sender) (i : nat)
    : M RNG Sender :=
  s ← foldS (λ s _, send_packet flow_params i s) s (seq 0 BURST_COUNT);
  ipd ← lift (or_raise IndexError (ipd_list !! i));
  mret (set_timer i ipd (inc_pkt_count i s)).

(** One round of the loop, which took [actual_wait]. [min] raises without
    timers. *)
Definition transmit_round (flow_params : dict nat (FlowParameters F)) (ipd_list : list F) (s : Sender)
    (actual_wait : F) : M RNG Sender :=
  let expired := (filter (λ it, fle it.2 fzero = true) (timers s)).*1 in
  s ← foldS (send_burst flow_params ipd_list) s expired;
  if bool_decide (timers s = []) then lift (Raise ValueError)
  else mret (mkSender ((λ it, (it.1, fsub it.2 actual_wait)) <$> timers s) (sent s) (pkt_count s)).

Definition transmit (flow_params : dict nat (FlowParameters F)) (ipd_list : list F) (waits : list F) (s : Sender)
    : M RNG Sender :=
  let s := mkSender (enumerate ipd_list) (sent s) (pkt_count s) in
  if bool_decide (timers s = []) then lift (Raise ValueError)
  else foldS (transmit_round flow_params ipd_list) s waits.

(** One iteration of [generate_traffic]: a rate for every flow, then
    [transmit] for one time slice. *)
Definition select_delays (flow_params : dict nat (FlowParameters F)) (distrs : dict nat Distribution)
    : M RNG (list F * dict nat Distribution) :=
  foldS (λ '(ipd_list, distrs) '(i, fp),
    distr ← lift (Dict.getitem distrs i);
    '(r, distr) ← select_tx_rate fp (fp_tx_rate fp) distr;
    ipd ← lift (compute_inter_pkt_delay (fp_packet_len fp) r (f_of_Z (fp_time_slice fp)));
    mret (ipd_list ++ [ipd], Dict.set distrs i distr)) ([], distrs) flow_params.

Definition create_distributions (flow_params : dict nat (FlowParameters F)) : res (dict nat Distribution) :=
  mapR (λ '(i, fp), d ← create_distribution (fp_tx_rate fp) (fp_variance fp) (fp_traffic_model fp)
    (fp_transmit_rates fp); Ok (i, d)) flow_params.

(** [generate_traffic] for as many time slices as [slices] has clocks; the
    length of a slice is that of the first flow. *)
Definition generate_traffic (flow_params : dict nat (FlowParameters F)) (slices : list (list F)) : M RNG Sender :=
  distrs ← lift (create_distributions flow_params);
  '(s, _) ← foldS (λ '(s, distrs) waits,
    '(ipd_list, distrs) ← select_delays flow_params distrs;
    _ ← lift (Dict.getitem flow_params 0);
    s ← transmit flow_params ipd_list waits s;
    mret (s, distrs)) (mkSender [] [] [], distrs) slices;
  mret s.

(** ** The report *)

Record SenderReport : Type := mkSenderReport {
  rp_pkt_count : Z;
  rp_src_port : Z;
  rp_src_host : Z;
  rp_dst_ip : string;
  rp_flow_id : Z
}.

(** [handle_sig_int]: the flows, with the ports of their sockets, and the
    host of the last flow for the name of the file. *)
Definition sender_report (flow_params : dict nat (FlowParameters F)) (port_of : nat → Z) (counts : dict nat Z)
    : dict nat SenderReport * option Z :=
  foldl (λ '(flow_info, _) '(flow_num, fp),
    (Dict.set flow_info flow_num (mkSenderReport (Dict.get_default 0%Z counts flow_num) (port_of flow_num)
       (fp_src_host fp) (fp_dest_addr fp) (fp_flow_id fp)), Some (fp_src_host fp)))
    ([], None) flow_params.
End generator.

(** * traffic_server.py *)

(** [inc_pkt_counts]: the length of the datagram is not used. *)
Definition inc_pkt_counts (byte_counts : dict (string * Z) Z) (src : string * Z) : dict (string * Z) Z :=
  Dict.set byte_counts src (Dict.get_default 0%Z byte_counts src + 1)%Z.

(** The loop of [main] on the sources of the datagrams, and the dictionary
    that [handle_sig_int] writes to [/tmp/receiver_<host>.p]. *)
Definition receive (datagrams : list (string * Z)) : dict (string * Z) Z := foldl inc_pkt_counts [] datagrams.
Definition receiver_report (host : Z) (byte_counts : dict (string * Z) Z) : string * dict (string * Z) Z :=
  (("/tmp/receiver_" +:+ str_of_Z host +:+ ".p")%string, Dict.of_pairs byte_counts).
