(* ===== verification/TrafficGenProps.v ===== *)
(** The traffic generator never sends faster than the rate it selected, and
    only with the tags of its flows. *)

From Stdlib Require Import QArith Qcanon Lqa.
From S2P Require Import Prelude PyDict PyStr PyFloat VirtualHost TrafficGen.
Close Scope string_scope.
Local Open Scope nat_scope.

(** * Choosing a path *)

Lemma fle_exact_true (x y : Qc) : fle x y = true ↔ (x <= y)%Qc.
Proof.
  unfold fle. rewrite orb_true_iff, flt_exact_true, feq_exact_true. split.
  - intros [?%Qclt_le_weak| ->]; [done|apply Qcle_refl].
  - intros Hle. destruct (decide (x = y)) as [|Hne]; [by right|left]. by apply Qcle_lt_or_eq in Hle as [?|?].
Qed.
Lemma fle_exact_false (x y : Qc) : fle x y = false ↔ (y < x)%Qc.
Proof.
  rewrite <-not_true_iff_false, fle_exact_true. split; [apply Qcnot_le_lt|]. intros Hlt Hle. by apply (Qclt_not_le _ _ Hlt).
Qed.

(** The proportions are laid end to end; the path is the one whose interval
    holds the pick. *)
Lemma pick_path_spec ps : ∀ (r acc : Qc) n,
  (r <= acc + fsum ps)%Qc → ps ≠ [] →
  ∃ k, pick_path r acc n ps = Some (n + k) ∧ k < length ps ∧ (r <= acc + fsum (take (S k) ps))%Qc ∧
    ∀ j, j < k → (acc + fsum (take (S j) ps) < r)%Qc.
Proof.
  induction ps as [|p ps IH]; intros r acc n Hr Hne; [done|]. cbn [pick_path length].
  change (fadd acc p) with (acc + p)%Qc. destruct (fle r (acc + p)%Qc) eqn:E.
  - exists 0. rewrite Nat.add_0_r. split; [done|]. split; [lia|]. split; [|lia].
    apply fle_exact_true in E. change (take 1 (p :: ps)) with [p]. rewrite fsum_cons, fsum_nil. qc_lra.
  - apply fle_exact_false in E. rewrite fsum_cons in Hr.
    assert (ps ≠ []) as Hps by (intros ->; rewrite fsum_nil in Hr; qc_lra).
    destruct (IH r (acc + p)%Qc (S n)) as (k & -> & Hk & Hin & Hbefore); [qc_lra|done|].
    exists (S k). split; [f_equal; lia|]. split; [lia|]. split.
    + change (take (S (S k)) (p :: ps)) with (p :: take (S k) ps). rewrite fsum_cons. qc_lra.
    + intros [|j] Hj.
      * change (take 1 (p :: ps)) with [p]. rewrite fsum_cons, fsum_nil. qc_lra.
      * change (take (S (S j)) (p :: ps)) with (p :: take (S j) ps). rewrite fsum_cons.
        assert (acc + p + fsum (take (S j) ps) < r)%Qc by (apply Hbefore; lia). qc_lra.
Qed.

Section sender.
Context {RNG : Type}.
Variable random_uniform : Qc → Qc → M RNG Qc.
Hypothesis uniform_range : ∀ a b g, (a <= b)%Qc →
  ∃ r g', random_uniform a b g = (Ok r, g') ∧ (a <= r)%Qc ∧ (r <= b)%Qc.

(** A flow whose proportions sum to one, with a tag for every path. *)
Definition sendable (fp : FlowParameters Qc) : Prop :=
  ∃ ps tags, fp_prob_mat fp = Some ps ∧ fp_tag_value fp = Some tags ∧ fsum ps = fone ∧ length ps ≤ length tags.

(** A packet with a tag of its flow, in the upper six bits of the byte. *)
Definition tagged (flow_params : dict nat (FlowParameters Qc)) (p : nat * Z) : Prop :=
  ∃ fp tags tag, Dict.get flow_params p.1 = Some fp ∧ fp_tag_value fp = Some tags ∧ tag ∈ tags ∧
    p.2 = Z.shiftl tag 2.

Lemma select_dscp_total fp g :
  sendable fp → ∃ v g' tags tag, select_dscp random_uniform (fp_prob_mat fp) (fp_tag_value fp) g = (Ok (Some v), g') ∧
    fp_tag_value fp = Some tags ∧ tag ∈ tags ∧ v = Z.shiftl tag 2.
Proof.
  intros (ps & tags & Hps & Htags & Hsum & Hlen). rewrite Hps, Htags. unfold select_dscp.
  destruct (uniform_range fzero fone g) as (r & g' & Hr & H0 & H1); [qc_lra|].
  rewrite (bindS_run _ _ _ r g') by done. rewrite (bindS_run _ _ _ ps g') by done.
  destruct (pick_path_spec ps r fzero 0) as (k & Hk & Hkl & _ & _).
  { rewrite Hsum. qc_lra. }
  { intros ->. rewrite fsum_nil in Hsum. qc_lra. }
  rewrite Hk. rewrite (bindS_run _ _ _ tags g') by done.
  destruct (lookup_lt_is_Some_2 tags k) as [tag Htag]; [lia|].
  assert (calc_dscp_val (0 + k) tags = Ok (Z.shiftl tag 2)) as Hd by (unfold calc_dscp_val; simpl; by rewrite Htag).
  rewrite (bindS_run _ _ _ (Z.shiftl tag 2) g') by (unfold lift; by rewrite Hd).
  exists (Z.shiftl tag 2), g', tags, tag. repeat split; try done. by eapply list_elem_of_lookup_2.
Qed.

(** * Bursts *)

(** The number of packets of a flow. *)
Definition packets_of (i : nat) (l : list (nat * Z)) : nat := length (filter (λ p, p.1 = i) l).

Lemma packets_of_app i l k : packets_of i (l ++ k) = packets_of i l + packets_of i k.
Proof. unfold packets_of. by rewrite filter_app, length_app. Qed.

Lemma packets_of_all i j l : Forall (λ p, p.1 = j) l → packets_of i l = if decide (j = i) then length l else 0.
Proof.
  unfold packets_of. induction 1 as [|p l Hp _ IH]; [by case_decide|]. rewrite filter_cons, Hp.
  repeat case_decide; simpl; congruence.
Qed.

Variables (flow_params : dict nat (FlowParameters Qc)) (ipd_list : list Qc).
Hypothesis flows_sendable : ∀ i, i < length ipd_list → ∃ fp, Dict.get flow_params i = Some fp ∧ sendable fp.

Lemma send_packet_total i s g :
  i < length ipd_list →
  ∃ v g', send_packet random_uniform flow_params i s g = (Ok (mkSender (timers s) (sent s ++ [(i, v)]) (pkt_count s)), g') ∧
    tagged flow_params (i, v).
Proof.
  intros (fp & Hfp & Hs)%flows_sendable. unfold send_packet.
  rewrite (bindS_run _ _ _ fp g) by (unfold lift; by rewrite (proj2 (Dict.getitem_Ok _ _ _) Hfp)).
  destruct (select_dscp_total fp g Hs) as (v & g' & tags & tag & Hv & Htags & Hin & ->).
  rewrite (bindS_run _ _ _ _ g') by exact Hv. exists (Z.shiftl tag 2), g'. split; [done|].
  by exists fp, tags, tag.
Qed.

(** A burst is ten packets of the flow; its timer restarts. *)
Lemma send_burst_total i ipd s g :
  ipd_list !! i = Some ipd →
  ∃ new g', send_burst random_uniform flow_params ipd_list s i g =
      (Ok (set_timer i ipd (inc_pkt_count i (mkSender (timers s) (sent s ++ new) (pkt_count s)))), g') ∧
    length new = BURST_COUNT ∧ Forall (λ p, p.1 = i) new ∧ Forall (tagged flow_params) new.
Proof.
  intros Hi. unfold send_burst.
  destruct (foldS_prefix (λ (done : list nat) s', ∃ new, s' = mkSender (timers s) (sent s ++ new) (pkt_count s) ∧
      length new = length done ∧ Forall (λ p, p.1 = i) new ∧ Forall (tagged flow_params) new)
    (λ s _, send_packet random_uniform flow_params i s) (seq 0 BURST_COUNT)) with (b := s) (s := g)
    as (s1 & g1 & Hs1 & new & -> & Hlen & Hflow & Htag).
  - intros l1 x l2 b g1 _ (new & -> & Hlen & Hflow & Htag).
    destruct (send_packet_total i (mkSender (timers s) (sent s ++ new) (pkt_count s)) g1) as (v & g2 & Hv & Ht).
    { by eapply lookup_lt_Some. }
    exists (mkSender (timers s) (sent s ++ (new ++ [(i, v)])) (pkt_count s)), g2. split.
    { rewrite Hv. cbn [timers sent pkt_count]. by rewrite (assoc_L (++)). }
    exists (new ++ [(i, v)]). rewrite !length_app, Hlen. split; [done|]. split; [done|].
    split; (apply Forall_app_2; [done|by constructor]).
  - exists []. rewrite app_nil_r. destruct s. split; [done|]. done.
  - rewrite (bindS_run _ _ _ _ g1) by exact Hs1. rewrite (bindS_run _ _ _ ipd g1) by (unfold lift; by rewrite Hi).
    exists new, g1. by rewrite length_seq in Hlen.
Qed.

(** ** The accounting of a flow

    After [b] bursts, [elapsed] is at least [b] delays and the part of the
    current delay that has run. *)
Definition flow_inv (s0 : Sender (F:=Qc)) (elapsed : Qc) (s : Sender (F:=Qc)) (i : nat) : Prop :=
  ∃ ipd t b, ipd_list !! i = Some ipd ∧ Dict.get (timers s) i = Some t ∧
    (Dict.get_default 0 (pkt_count s) i = Dict.get_default 0 (pkt_count s0) i + Z.of_nat (10 * b))%Z ∧
    packets_of i (sent s) = packets_of i (sent s0) + 10 * b ∧
    (Qc_of_nat b * ipd + (ipd - t) <= elapsed)%Qc ∧ (t <= ipd)%Qc.

Definition sender_inv (s0 : Sender (F:=Qc)) (elapsed : Qc) (s : Sender (F:=Qc)) : Prop :=
  Dict.keys (timers s) = seq 0 (length ipd_list) ∧
  (∃ new, sent s = sent s0 ++ new ∧ Forall (tagged flow_params) new) ∧
  ∀ i, i < length ipd_list → flow_inv s0 elapsed s i.

Lemma send_burst_inv s0 e s i t g :
  sender_inv s0 e s → i < length ipd_list → Dict.get (timers s) i = Some t → (t <= fzero)%Qc →
  ∃ s' g', send_burst random_uniform flow_params ipd_list s i g = (Ok s', g') ∧ sender_inv s0 e s' ∧
    ∀ j, j ≠ i → Dict.get (timers s') j = Dict.get (timers s) j.
Proof.
  intros (Hkeys & (new0 & Hnew0 & Htag0) & Hinv) Hi Ht Hle.
  destruct (Hinv i Hi) as (ipd & t' & b & Hipd & Ht' & Hcount & Hsent & Hacc & Htl). simplify_eq.
  destruct (send_burst_total i ipd s g Hipd) as (new & g' & Hrun & Hlen & Hflow & Htag).
  eexists _, g'. split; [exact Hrun|]. split; [split_and!|]; cbn [timers sent pkt_count set_timer inc_pkt_count].
  - rewrite Dict.keys_set_mem by eauto. done.
  - exists (new0 ++ new). rewrite Hnew0, (assoc_L (++)). split; [done|]. by apply Forall_app_2.
  - intros j Hj. destruct (decide (i = j)) as [<-|Hne].
    + exists ipd, ipd, (S b). cbn [timers sent pkt_count set_timer inc_pkt_count]. split; [done|]. split; [apply Dict.get_set_eq|].
      split; [rewrite Dict.get_default_set, decide_True, Hcount by done; unfold BURST_COUNT; lia|].
      split; [rewrite packets_of_app, (packets_of_all i i new), decide_True, Hlen, Hsent by done; unfold BURST_COUNT; lia|].
      split; [|apply Qcle_refl]. rewrite Qc_of_nat_S. qc_nra.
    + destruct (Hinv j Hj) as (ipd' & t' & b' & Hipd' & Ht'' & Hcount' & Hsent' & Hacc' & Htl').
      exists ipd', t', b'. cbn [timers sent pkt_count set_timer inc_pkt_count]. split; [done|]. rewrite Dict.get_set_ne by done. split; [done|].
      split; [by rewrite Dict.get_default_set, decide_False by done|].
      split; [rewrite packets_of_app, (packets_of_all j i new), decide_False, Hsent' by done; lia|done].
  - intros j Hj. by rewrite Dict.get_set_ne.
Qed.

(** Every flow whose timer expired sends one burst. *)
Lemma send_expired s0 e l g : ∀ s,
  NoDup l → sender_inv s0 e s → (∀ i, i ∈ l → i < length ipd_list ∧ ∃ t, Dict.get (timers s) i = Some t ∧ (t <= fzero)%Qc) →
  ∃ s' g', foldS (send_burst random_uniform flow_params ipd_list) s l g = (Ok s', g') ∧ sender_inv s0 e s'.
Proof.
  revert g. induction l as [|i l IH]; intros g s Hnd Hinv Hl; [by exists s, g|]. cbn [foldS].
  apply NoDup_cons in Hnd as [Hni Hnd]. destruct (Hl i) as (Hi & t & Ht & Hle); [left|].
  destruct (send_burst_inv s0 e s i t g Hinv Hi Ht Hle) as (s1 & g1 & Hs1 & Hinv1 & Hother).
  rewrite (bindS_run _ _ _ s1 g1) by done. apply IH; [done..|].
  intros j Hj. rewrite Hother by (intros ->; done). apply Hl. by right.
Qed.

Lemma get_elapse (d : dict nat Qc) (w : Qc) i :
  Dict.get ((λ it : nat * Qc, (it.1, fsub it.2 w)) <$> d) i = (λ t, fsub t w) <$> Dict.get d i.
Proof. induction d as [|[k t] d IH]; [done|]. rewrite fmap_cons. cbn [Dict.get fst snd]. by case_decide. Qed.

Lemma transmit_round_inv s0 e s w g :
  ipd_list ≠ [] → sender_inv s0 e s → (fzero <= w)%Qc →
  ∃ s' g', transmit_round random_uniform flow_params ipd_list s w g = (Ok s', g') ∧ sender_inv s0 (e + w)%Qc s'.
Proof.
  intros Hne Hinv Hw. unfold transmit_round. pose proof (proj1 Hinv) as Hkeys.
  assert (Dict.wf (timers s)) as Hwf by (unfold Dict.wf; rewrite Hkeys; apply NoDup_seq).
  destruct (send_expired s0 e (filter (λ it, fle it.2 fzero = true) (timers s)).*1 g s) as (s1 & g1 & Hs1 & Hinv1).
  - eapply sublist_NoDup; [exact Hwf|]. apply fmap_sublist, sublist_filter.
  - done.
  - intros i ([i' t] & -> & [Hle Hin]%list_elem_of_filter)%list_elem_of_fmap. cbn [fst snd] in *. split.
    + assert (i' ∈ Dict.keys (timers s)) as Hk by (apply list_elem_of_fmap; by exists (i', t)).
      rewrite Hkeys in Hk. apply elem_of_seq in Hk. lia.
    + exists t. split; [by apply Dict.elem_of_get|]. by apply fle_exact_true.
  - rewrite (bindS_run _ _ _ s1 g1) by exact Hs1. destruct Hinv1 as (Hkeys1 & Hnew & Hflows).
    rewrite bool_decide_eq_false_2.
    2: { intros Hnil. rewrite Hnil in Hkeys1. destruct ipd_list; done. }
    eexists _, g1. split; [done|]. split; [|split; [exact Hnew|]].
    + cbn [timers]. unfold Dict.keys in *. rewrite <-list_fmap_compose, <-Hkeys1. by apply list_fmap_ext.
    + intros i Hi. destruct (Hflows i Hi) as (ipd & t & b & Hipd & Ht & Hcount & Hsent & Hacc & Htl).
      exists ipd, (t - w)%Qc, b. cbn [timers sent pkt_count]. rewrite get_elapse, Ht.
      repeat split; try done; qc_lra.
Qed.

Lemma transmit_inv waits s g :
  ipd_list ≠ [] → Forall (λ w, fzero <= w)%Qc waits →
  ∃ s' g', transmit random_uniform flow_params ipd_list waits s g = (Ok s', g') ∧ sender_inv s (fsum waits) s'.
Proof.
  intros Hne Hwaits. unfold transmit. rewrite bool_decide_eq_false_2.
  2: { cbn [timers]. intros Hnil. apply (f_equal length) in Hnil. rewrite length_enumerate in Hnil. by destruct ipd_list. }
  destruct (foldS_prefix (λ l1 s', sender_inv s (fsum l1) s') (transmit_round random_uniform flow_params ipd_list)
    waits) with (b := mkSender (enumerate ipd_list) (sent s) (pkt_count s)) (s := g) as (s' & g' & Hrun & Hinv).
  - intros l1 w l2 b g1 Hsplit HP. rewrite fsum_app, fsum_cons, fsum_nil, exact_add_0_r.
    apply transmit_round_inv; [done..|]. rewrite Hsplit in Hwaits.
    apply Forall_app in Hwaits as [_ [Hw _]%Forall_cons]. done.
  - split; [apply fst_enumerate|]. split; [exists []; split; [by rewrite app_nil_r|done]|].
    intros i [ipd Hipd]%lookup_lt_is_Some_2. exists ipd, ipd, 0. cbn [timers sent pkt_count]. split; [done|]. split.
    + apply Dict.elem_of_get; [unfold Dict.wf, Dict.keys; rewrite fst_enumerate; apply NoDup_seq|].
      by apply elem_of_enumerate.
    + rewrite Qc_of_nat_0, fsum_nil. split; [lia|]. split; [lia|]. split; qc_lra.
  - by exists s', g'.
Qed.

(** The delay between bursts, for a positive rate. *)
Lemma inter_pkt_delay_rate (pkt_len : Z) (r slice : Qc) :
  (fzero < r)%Qc → ∃ ipd, compute_inter_pkt_delay pkt_len r slice = Ok ipd ∧ (ipd * r = f_of_Z pkt_len * Qc_of_nat 10)%Qc.
Proof.
  intros Hr. assert (r ≠ fzero) as Hne by (intros ->; qc_lra).
  assert (feq r fzero = false) as Hf by (apply not_true_iff_false; by rewrite feq_exact_true).
  unfold compute_inter_pkt_delay, fdiv. rewrite Hf. eexists. split; [done|].
  change (fquot (f_of_Z pkt_len) r) with (f_of_Z pkt_len / r)%Qc.
  change (f_of_Z (Z.of_nat BURST_COUNT)) with (Qc_of_nat 10).
  change (fmul ?x ?y) with (x * y)%Qc. field. exact Hne.
Qed.
End sender.

(** The delays of a slice, for the rates that were selected. *)
Definition slice_delays (slice : Qc) (fps : list (FlowParameters Qc)) (rates : list Qc) : res (list Qc) :=
  mapR (λ fr : FlowParameters Qc * Qc, compute_inter_pkt_delay (fp_packet_len fr.1) fr.2 slice) (zip fps rates).

Lemma slice_delays_total slice fps rates :
  length rates = length fps → Forall (λ r, fzero < r)%Qc rates →
  ∃ ipds, slice_delays slice fps rates = Ok ipds ∧ length ipds = length fps ∧
    ∀ i fp r ipd, fps !! i = Some fp → rates !! i = Some r → ipds !! i = Some ipd →
      (ipd * r = f_of_Z (fp_packet_len fp) * Qc_of_nat 10)%Qc.
Proof.
  unfold slice_delays. revert rates. induction fps as [|fp fps IH]; intros [|r rates] Hlen Hpos; try done.
  - by exists [].
  - apply Forall_cons in Hpos as [Hr Hpos]. destruct (IH rates) as (ipds & Hipds & Hl & Hspec); [by injection Hlen|done|].
    destruct (inter_pkt_delay_rate (fp_packet_len fp) r slice Hr) as (ipd & Hipd & Heq).
    cbn [zip_with mapR fst snd]. rewrite Hipd. cbn [mbind res_bind]. rewrite Hipds. exists (ipd :: ipds).
    split; [done|]. split; [by cbn; rewrite Hl|]. intros [|i] fp' r' ipd'; [by intros [= <-] [= <-] [= <-]|apply Hspec].
Qed.


(** Two paths, half of the packets each; the picks are zero. *)
Definition demo_flow : FlowParameters Qc :=
  mkFlowParameters 50000 "192.168.0.7"%string (Some [Q2Qc (1 # 2); Q2Qc (1 # 2)]) (f_of_Z 1000) fzero PRECOMPUTED
    100 1 10 (Some [1; 2]%Z) (Some [f_of_Z 1000]) None 0.

Definition demo_sender : Sender (F:=Qc) := mkSender [] [] [].


(** * The distributions and the counters *)

(** The interval of the uniform distribution has the mean and, with a square
    root, the variance it was made for: [(b - a)^2 = 12 sigma2]. *)
Lemma uniform_paramaters_mean (sqrt : Qc → res Qc) mu sigma2 r :
  sqrt (f_of_Z 12 * sigma2)%Qc = Ok r → (r * r = f_of_Z 12 * sigma2)%Qc →
  ∃ a b, uniform_paramaters sqrt mu sigma2 = Ok (a, b) ∧ (a + b = f_of_Z 2 * mu)%Qc ∧
    ((b - a) * (b - a) = f_of_Z 12 * sigma2)%Qc.
Proof.
  intros Hr Hsq. unfold uniform_paramaters. change (fmul (f_of_Z 12) sigma2) with (f_of_Z 12 * sigma2)%Qc. rewrite Hr.
  cbn [mbind res_bind]. change (fdiv ?x (f_of_Z 2)) with (Ok (x / f_of_Z 2)%Qc). cbn [mbind res_bind].
  eexists _, _. split; [reflexivity|]. change (@fadd Qc exact) with Qcplus. change (@fmul Qc exact) with Qcmult.
  change (@fsub Qc exact) with Qcminus. split; [ring|]. rewrite <-Hsq.
  assert (f_of_Z 2 = 1 + 1)%Qc as -> by (by apply Qc_is_canon). field. by intros [=].
Qed.

(** The receiver counts the datagrams of every source. *)
Lemma receive_counts datagrams src :
  Dict.get_default 0%Z (receive datagrams) src = Z.of_nat (length (filter (λ d, d = src) datagrams)).
Proof.
  unfold receive. induction datagrams as [|d l IH] using rev_ind; [done|].
  rewrite foldl_app, filter_app, length_app. cbn [foldl].
  unfold inc_pkt_counts at 1. rewrite Dict.get_default_set.
  rewrite filter_cons, filter_nil. case_decide as Hd.
  - rewrite Hd, IH. simpl. lia.
  - rewrite IH. simpl. lia.
Qed.
