(* ===== verification/AttackerRuns.v ===== *)
(** Runs of the simulation beside all kinds of attackers. An attacker that
    is [ready] can always go on; and whatever nodes it monitors from tick to
    tick, it holds exactly the shares that passed them, so that it recovers
    exactly the messages all of whose shares did. *)

From S2P Require Import Prelude PyDict Simulator SimulatorProps Attackers AttackersProps.

Section runs.
Context {RNG : Type}.
Variable choice_nodes : list node → nat → M RNG (list node).
Variable choice_indices : list nat → nat → M RNG (list nat).
Variable choice_one : list node → M RNG node.

(** [numpy.random.choice]: distinct elements of the list, or one of them. *)
Record draws : Prop := {
  dr_paths : draws_paths choice_indices;
  dr_nodes : ∀ l k rng, NoDup l → k ≤ length l → ∃ r rng',
    choice_nodes l k rng = (Ok r, rng') ∧ length r = k ∧ ∀ v, v ∈ r → v ∈ l;
  dr_one : ∀ l rng, l ≠ [] → ∃ v rng', choice_one l rng = (Ok v, rng') ∧ v ∈ l
}.
Hypothesis Hdraws : draws.

(** * A flow over disjoint paths of equal length *)

Record target_ok (net : list node) (f : PHFlow) (L : nat) : Prop := {
  to_wf : wf_paths net f;
  to_len : ∀ p, p ∈ paths f → length p = S (S L);
  to_pos : 0 < L;
  to_last : ∀ p, p ∈ paths f → last p = Some (sink_node f);
  to_second : NoDup (omap (λ p : path, p !! 1) (paths f))
}.

Lemma length_set_of_le {A} `{EqDecision A} (l : list A) : length (set_of l) ≤ length l.
Proof. apply submseteq_length, NoDup_submseteq; [apply NoDup_set_of|]. intros x. by rewrite elem_of_set_of. Qed.

Section target.
Context (net : list node) (f : PHFlow) (L : nat).
Hypothesis Hf : target_ok net f L.
Hypothesis Hnet : NoDup net.

Lemma path_second p : p ∈ paths f → ∃ v, p !! 1 = Some v ∧ v ∈ net ∧ v ≠ source_node f ∧ v ≠ sink_node f.
Proof.
  intros Hp. pose proof (to_len _ _ _ Hf p Hp) as Hlen. pose proof (to_pos _ _ _ Hf) as HL.
  destruct (lookup_lt_is_Some_2 p 1) as [v Hv]; [lia|]. exists v. split; [done|].
  pose proof (wp_NoDup _ _ (to_wf _ _ _ Hf) p Hp) as Hnd. split; [|split].
  - apply (wp_nodes _ _ (to_wf _ _ _ Hf) p v Hp). by eapply list_elem_of_lookup_2.
  - intros ->. pose proof (wp_head _ _ (to_wf _ _ _ Hf) p Hp) as Hh. rewrite head_lookup in Hh.
    pose proof (NoDup_lookup _ _ _ _ Hnd Hv Hh). done.
  - intros ->. pose proof (to_last _ _ _ Hf p Hp) as Hl. rewrite last_lookup in Hl.
    pose proof (NoDup_lookup _ _ _ _ Hnd Hv Hl). lia.
Qed.

Definition second_nodes : list node := omap (λ p : path, if bool_decide (length p ≤ 2) then None else p !! 1) (paths f).

Lemma second_nodes_eq : second_nodes = omap (λ p : path, p !! 1) (paths f).
Proof.
  unfold second_nodes. pose proof (to_len _ _ _ Hf) as Hlen. pose proof (to_pos _ _ _ Hf).
  induction (paths f) as [|p ps IH]; [done|]. unfold omap in *. simpl.
  rewrite bool_decide_eq_false_2 by (rewrite Hlen by left; lia). rewrite IH by (intros; apply Hlen; by right). done.
Qed.

Lemma length_second : length second_nodes = length (paths f).
Proof.
  rewrite second_nodes_eq. pose proof path_second as Hs. induction (paths f) as [|p ps IH]; [done|]. unfold omap in *. simpl.
  destruct (Hs p) as (v & -> & _); [left|]. simpl. f_equal. apply IH. intros; apply Hs. by right.
Qed.

Lemma elem_of_second v : v ∈ second_nodes → v ∈ net ∧ v ≠ source_node f ∧ v ≠ sink_node f.
Proof.
  rewrite second_nodes_eq. intros (p & Hp & Hv)%list_elem_of_omap. destruct (path_second p Hp) as (w & Hw & ?).
  by simplify_eq.
Qed.

(** * Attackers that can go on *)

Definition collection_ok (l : list node) : Prop := NoDup l ∧ ph_K f ≤ length l ∧ ∀ v, v ∈ l → v ∈ net.

Record ready (a : Attacker) : Prop := {
  rd_K : a_K a = ph_K f;
  rd_period : hop_period a ≠ 0%Z;
  rd_nodes : ∀ v, v ∈ monitored_nodes a → v ∈ net;
  rd_bound : a_kind a ≠ IdealRandomPathHopping → a_kind a ≠ Total → length (monitored_nodes a) ≤ ph_K f;
  rd_collection : ∀ l, node_collection a = Some l → collection_ok l;
  rd_paths : ∀ ps, path_collection a = Some ps → ps = interior <$> paths f;
  rd_flow : a_kind a = Planned → ∃ f', Dict.get (own_flows a) 0%Z = Some f' ∧ paths f' = paths f;
  rd_hop : 1 ≤ hop_index a;
  rd_seen : Forall (λ i, i < length (paths f)) (planned_monitored a);
  rd_on_path : a_kind a = Planned → ∀ v, v ∈ monitored_nodes a → ∃ p, p ∈ paths f ∧ v ∈ p
}.

Lemma second_collection : collection_ok second_nodes.
Proof.
  split; [rewrite second_nodes_eq; apply (to_second _ _ _ Hf)|].
  split; [rewrite length_second; apply (wp_enough _ _ (to_wf _ _ _ Hf))|]. by intros v [? _]%elem_of_second.
Qed.

Lemma collection_perm l l' : l ≡ₚ l' → collection_ok l → collection_ok l'.
Proof. intros Hp (? & ? & ?). split; [by rewrite <-Hp|]. split; [by rewrite <-Hp|]. intros v. rewrite <-Hp. auto. Qed.

Lemma inner_collection nodes : nodes = net →
  collection_ok (filter (λ n, n ≠ source_node f ∧ n ≠ sink_node f) nodes).
Proof.
  intros ->. split; [by apply NoDup_filter|]. split; [|by intros v [_ ?]%list_elem_of_filter].
  transitivity (length second_nodes); [apply second_collection|].
  apply submseteq_length, NoDup_submseteq; [apply second_collection|].
  intros v (? & ? & ?)%elem_of_second. by apply list_elem_of_filter.
Qed.

(** The interiors of drawn paths. *)
Lemma drawn_interiors r : Forall (λ p, p < length (paths f)) r →
  ∃ ps, mapR (λ i, or_raise IndexError ((interior <$> paths f) !! i)) r = Ok ps ∧ length ps = length r ∧
    ∀ q, q ∈ ps → q ≠ [] ∧ ∀ v, v ∈ q → v ∈ net.
Proof.
  induction 1 as [|i r Hi _ (ps & Hps & Hlen & Hq)]; [exists []; split; [done|]; split; [done|]; by intros q ?%elem_of_nil|].
  cbn [mapR]. destruct (lookup_lt_is_Some_2 _ _ Hi) as [p Hp]. rewrite list_lookup_fmap, Hp. cbn. rewrite Hps.
  exists (interior p :: ps). split; [done|]. split; [simpl; by rewrite Hlen|].
  intros q [->|?]%elem_of_cons; [|by apply Hq].
  assert (p ∈ paths f) as Hin by (by eapply list_elem_of_lookup_2).
  pose proof (to_len _ _ _ Hf p Hin) as Hl. pose proof (to_pos _ _ _ Hf).
  destruct p as [|x [|y p]]; [done..|]. split.
  - unfold interior, but_last. simpl in *. destruct p; [simpl in *; lia|]. done.
  - intros v Hv. apply (wp_nodes _ _ (to_wf _ _ _ Hf) _ v Hin). right.
    unfold interior, but_last in Hv. simpl in Hv. eapply elem_of_take in Hv as (j & Hj & _). by eapply list_elem_of_lookup_2.
Qed.

Lemma one_node_each_total ps rng : (∀ q, q ∈ ps → q ≠ [] ∧ ∀ v, v ∈ q → v ∈ net) →
  ∃ ns rng', one_node_each choice_one ps rng = (Ok ns, rng') ∧ length ns ≤ length ps ∧ ∀ v, v ∈ ns → v ∈ net.
Proof.
  intros Hps. unfold one_node_each.
  destruct (foldS_prefix (λ l1 acc, length acc = length l1 ∧ ∀ v, v ∈ acc → v ∈ net)
    (λ acc p, n ← choice_one p; mret (acc ++ [n])) ps) with (b := @nil node) (s := rng) as (acc & rng' & Hrun & Hlen & Hin).
  - intros l1 q l2 acc s Hsplit [Hlen Hin]. destruct (Hps q) as [Hne Hq]; [rewrite Hsplit; set_solver|].
    destruct (dr_one Hdraws q s Hne) as (v & s' & Hv & Hvq). exists (acc ++ [v]), s'.
    rewrite (bindS_run _ _ _ v s') by done. split; [done|]. rewrite !length_app, Hlen. split; [done|].
    intros w [?|Hw%list_elem_of_singleton]%elem_of_app; [auto|subst w; auto].
  - split; [done|]. by intros v ?%elem_of_nil.
  - rewrite (bindS_run _ _ _ acc rng') by exact Hrun. exists (set_of acc), rng'. split; [done|].
    split; [rewrite <-Hlen; apply length_set_of_le|]. intros v. rewrite elem_of_set_of. auto.
Qed.

Lemma ready_monitored a ms h :
  ready a → (∀ v, v ∈ ms → v ∈ net) →
  (a_kind a ≠ IdealRandomPathHopping → a_kind a ≠ Total → length ms ≤ ph_K f) →
  (a_kind a = Planned → ∀ v, v ∈ ms → ∃ p, p ∈ paths f ∧ v ∈ p) → ready (set_monitored a ms h).
Proof. intros [] ? ? ?. by split. Qed.
Lemma ready_node_collection a l : ready a → collection_ok l → ready (set_node_collection a l).
Proof. intros [] ?. split; try done. by intros ? [= <-]. Qed.
Lemma ready_path_collection a : ready a → ready (set_path_collection a (interior <$> paths f)).
Proof. intros []. split; try done. by intros ? [= <-]. Qed.
Lemma ready_plan a i act mon :
  ready a → 1 ≤ i → Forall (λ i, i < length (paths f)) mon → ready (set_plan a i act mon).
Proof. intros [] ? ?. by split. Qed.

(** What [select_monitored_nodes] keeps. *)
Record moved_on (a a' : Attacker) : Prop := {
  mo_ready : ready a';
  mo_kind : a_kind a' = a_kind a;
  mo_captured : captured_shares a' = captured_shares a;
  mo_fixed : a_kind a = Fixed → is_Some (path_collection a') ∧ (is_Some (path_collection a) → a' = a)
}.

Lemma at_period_total time a : ready a → ∃ b, at_period time (hop_period a) = Ok b.
Proof. intros Ha. unfold at_period. rewrite bool_decide_eq_false_2 by apply (rd_period _ Ha). eauto. Qed.

Lemma select_random_node_ready f' nodes time a rng :
  ready a → a_kind a = RandomNodeHopping → nodes = net → same_static f f' →
  ∃ a' rng', select_random_node choice_nodes nodes (Ok f') time a rng = (Ok a', rng') ∧ moved_on a a'.
Proof.
  intros Ha Hk Hnodes (_ & Hs1 & Hs2 & _ & _). unfold select_random_node.
  assert (∃ a1 l, (match node_collection a with
      | Some _ => Ok a
      | None => target ← Ok f'; Ok (set_node_collection a (sorted_by id
          (filter (λ n, n ≠ source_node target ∧ n ≠ sink_node target) nodes))) end) = Ok a1 ∧
      node_collection a1 = Some l ∧ ready a1 ∧ a_kind a1 = a_kind a ∧ captured_shares a1 = captured_shares a)
    as (a1 & l & -> & Hl & Hr1 & Hk1 & Hc1).
  { destruct (node_collection a) as [l|] eqn:E; [by exists a, l|]. cbn [mbind res_bind]. eexists _, _. split; [done|].
    split; [done|]. split; [|done]. apply ready_node_collection; [done|]. rewrite Hs1, Hs2.
    eapply collection_perm; [symmetry; apply sorted_by_perm|]. by apply inner_collection. }
  rewrite (bindS_run _ _ _ a1 rng) by done. destruct (at_period_total time a1 Hr1) as [now Hnow].
  rewrite (bindS_run _ _ _ now rng) by (unfold lift; by rewrite Hnow).
  destruct now.
  - rewrite Hl. cbn [default from_option id]. destruct (rd_collection _ Hr1 l Hl) as (Hnd & HK & Hin).
    destruct (dr_nodes Hdraws l (a_K a1) rng Hnd) as (r & rng' & Hr & Hlen & Hsub); [by rewrite (rd_K _ Hr1)|].
    rewrite (bindS_run _ _ _ r rng') by done. eexists _, rng'. split; [done|]. split.
    + apply ready_monitored; [done|intros v; rewrite elem_of_set_of; auto| |by rewrite Hk1, Hk].
      intros _ _. rewrite <-(rd_K _ Hr1), <-Hlen. apply length_set_of_le.
    + done.
    + done.
    + by rewrite Hk.
  - exists a1, rng. split; [done|]. split; [done..|by rewrite Hk].
Qed.

Lemma select_random_path_ready f' time a rng :
  ready a → a_kind a = RandomPathHopping → same_static f f' →
  ∃ a' rng', select_random_path choice_nodes (Ok f') time a rng = (Ok a', rng') ∧ moved_on a a'.
Proof.
  intros Ha Hk (_ & _ & _ & Hp & _). unfold select_random_path. rewrite (bindS_run _ _ _ f' rng) by done.
  rewrite Hp. fold second_nodes.
  assert (∃ l, sorted_by id (match node_collection a with Some l => l | None => second_nodes end) = l ∧ collection_ok l)
    as (l & -> & Hl).
  { eexists. split; [done|]. eapply collection_perm; [symmetry; apply sorted_by_perm|].
    destruct (node_collection a) as [l|] eqn:E; [by apply (rd_collection _ Ha)|apply second_collection]. }
  pose proof (ready_node_collection a l Ha Hl) as Hr1.
  destruct (at_period_total time _ Hr1) as [now Hnow].
  rewrite (bindS_run _ _ _ now rng) by (unfold lift; by rewrite Hnow). destruct now.
  - destruct Hl as (Hnd & HK & Hin).
    destruct (dr_nodes Hdraws l (a_K (set_node_collection a l)) rng Hnd) as (r & rng' & Hr & Hlen & Hsub);
      [by rewrite (rd_K _ Hr1)|].
    rewrite (bindS_run _ _ _ r rng') by done. eexists _, rng'. split; [done|]. split; [|done..|by rewrite Hk].
    apply ready_monitored; [done|intros v; rewrite elem_of_set_of; auto| |simpl; by rewrite Hk].
    intros _ _. rewrite <-(rd_K _ Hr1), <-Hlen. apply length_set_of_le.
  - eexists _, rng. split; [done|]. split; [done..|by rewrite Hk].
Qed.

Lemma draw_paths k rng : k = ph_K f → ∃ r rng' ps,
  choice_indices (seq 0 (length (interior <$> paths f))) k rng = (Ok r, rng') ∧
  mapR (λ i, or_raise IndexError ((interior <$> paths f) !! i)) r = Ok ps ∧ length ps = ph_K f ∧
  ∀ q, q ∈ ps → q ≠ [] ∧ ∀ v, v ∈ q → v ∈ net.
Proof.
  intros ->. rewrite length_fmap.
  destruct (dr_paths Hdraws (length (paths f)) (ph_K f) rng) as (r & rng' & Hr & Hlen & _ & Hall);
    [apply (wp_enough _ _ (to_wf _ _ _ Hf))|].
  destruct (drawn_interiors r Hall) as (ps & Hps & Hl & Hq). exists r, rng', ps. split; [done|]. split; [done|].
  split; [congruence|done].
Qed.

Lemma collection_default a : ready a → default (interior <$> paths f) (path_collection a) = interior <$> paths f.
Proof. intros Ha. destruct (path_collection a) as [ps|] eqn:E; [|done]. by apply (rd_paths _ Ha). Qed.

Lemma select_ideal_ready f' time a rng :
  ready a → a_kind a = IdealRandomPathHopping → same_static f f' →
  ∃ a' rng', select_ideal choice_indices (Ok f') time a rng = (Ok a', rng') ∧ moved_on a a'.
Proof.
  intros Ha Hk (_ & _ & _ & Hp & _). unfold select_ideal. rewrite (bindS_run _ _ _ f' rng) by done.
  rewrite Hp, (collection_default a Ha). pose proof (ready_path_collection a Ha) as Hr1.
  destruct (at_period_total time _ Hr1) as [now Hnow].
  rewrite (bindS_run _ _ _ now rng) by (unfold lift; by rewrite Hnow). destruct now.
  - destruct (draw_paths (a_K (set_path_collection a (interior <$> paths f))) rng) as (r & rng' & ps & Hr & Hps & _ & Hq);
      [apply (rd_K _ Hr1)|].
    rewrite (bindS_run _ _ _ r rng') by exact Hr. rewrite (bindS_run _ _ _ ps rng') by (unfold lift; by rewrite Hps).
    eexists _, rng'. split; [done|]. split; [|done..|by rewrite Hk].
    apply ready_monitored; [done| |simpl; by rewrite Hk|simpl; by rewrite Hk].
    intros v. rewrite elem_of_set_of, list_elem_of_In, in_concat.
    intros (q & Hin%list_elem_of_In & Hv%list_elem_of_In). by apply (Hq q).
  - eexists _, rng. split; [done|]. split; [done..|by rewrite Hk].
Qed.

Lemma select_one_node_ready f' time a rng :
  ready a → a_kind a = OneNodePerPath → same_static f f' →
  ∃ a' rng', select_one_node_per_path choice_indices choice_one (Ok f') time a rng = (Ok a', rng') ∧ moved_on a a'.
Proof.
  intros Ha Hk (_ & _ & _ & Hp & _). unfold select_one_node_per_path. rewrite (bindS_run _ _ _ f' rng) by done.
  rewrite Hp, (collection_default a Ha). pose proof (ready_path_collection a Ha) as Hr1. case_bool_decide.
  - destruct (draw_paths (a_K (set_path_collection a (interior <$> paths f))) rng) as (r & rng' & ps & Hr & Hps & Hlen & Hq);
      [apply (rd_K _ Hr1)|].
    rewrite (bindS_run _ _ _ r rng') by exact Hr. rewrite (bindS_run _ _ _ ps rng') by (unfold lift; by rewrite Hps).
    destruct (one_node_each_total ps rng' Hq) as (ns & rng2 & Hns & Hl & Hin). rewrite (bindS_run _ _ _ ns rng2) by done.
    eexists _, rng2. split; [done|]. split; [|done..|by rewrite Hk].
    apply ready_monitored; [done|done|intros _ _; lia|simpl; by rewrite Hk].
  - eexists _, rng. split; [done|]. split; [done..|by rewrite Hk].
Qed.

Lemma select_fixed_ready f' a rng :
  ready a → a_kind a = Fixed → same_static f f' →
  ∃ a' rng', select_fixed choice_indices choice_one (Ok f') a rng = (Ok a', rng') ∧ moved_on a a'.
Proof.
  intros Ha Hk (_ & _ & _ & Hp & _). unfold select_fixed. rewrite (bindS_run _ _ _ f' rng) by done.
  destruct (path_collection a) as [pc|] eqn:E.
  { exists a, rng. split; [done|]. split; [done..|]. intros _. split; [by rewrite E|done]. }
  rewrite Hp. destruct (draw_paths (a_K a) rng) as (r & rng' & ps & Hr & Hps & Hlen & Hq); [apply (rd_K _ Ha)|].
  rewrite (bindS_run _ _ _ r rng') by exact Hr. rewrite (bindS_run _ _ _ ps rng') by (unfold lift; by rewrite Hps).
  destruct (one_node_each_total ps rng' Hq) as (ns & rng2 & Hns & Hl & Hin). rewrite (bindS_run _ _ _ ns rng2) by done.
  eexists _, rng2. split; [done|]. split; [|done..|].
  - apply ready_monitored; [by apply ready_path_collection|done|intros _ _; lia|simpl; by rewrite Hk].
  - intros _. split; [by eexists|]. intros [? ?]. congruence.
Qed.

Lemma nodes_at_hop_total ps i : i < S (S L) → (∀ p, p ∈ ps → p ∈ paths f) →
  ∃ ns, nodes_at_hop ps i = Ok ns ∧ NoDup ns ∧ ∀ v, v ∈ ns → v ∈ net ∧ ∃ p, p ∈ paths f ∧ v ∈ p.
Proof.
  intros Hi Hps. unfold nodes_at_hop.
  assert (∃ l, mapR (λ p : path, or_raise IndexError (p !! i)) ps = Ok l ∧
    ∀ v, v ∈ l → v ∈ net ∧ ∃ p, p ∈ paths f ∧ v ∈ p) as (l & -> & Hl).
  { induction ps as [|p ps IH]; [exists []; split; [done|]; by intros v ?%elem_of_nil|].
    destruct IH as (l & Hl & Hin); [intros; apply Hps; by right|]. assert (p ∈ paths f) as Hp by (apply Hps; left).
    destruct (lookup_lt_is_Some_2 p i) as [v Hv]; [by rewrite (to_len _ _ _ Hf p Hp)|].
    cbn [mapR]. rewrite Hv. cbn [or_raise mbind res_bind]. rewrite Hl. exists (v :: l). split; [done|].
    assert (v ∈ p) by (by eapply list_elem_of_lookup_2).
    intros w [->|?]%elem_of_cons; [|by apply Hin]. split; [by apply (wp_nodes _ _ (to_wf _ _ _ Hf) p v)|by exists p]. }
  exists (set_of l). split; [done|]. split; [apply NoDup_set_of|]. intros v. rewrite elem_of_set_of. apply Hl.
Qed.

Lemma longest_path : foldr max 0 (length <$> paths f) = S (S L) ∧ paths f ≠ [].
Proof.
  pose proof (wp_enough _ _ (to_wf _ _ _ Hf)) as Henough. pose proof (wp_K _ _ (to_wf _ _ _ Hf)) as HK.
  pose proof (to_len _ _ _ Hf) as Hlen. destruct (paths f) as [|p ps]; [simpl in *; lia|]. split; [|done].
  clear Henough. induction ps as [|q ps IH] in p, Hlen |- *; simpl in *; rewrite (Hlen p) by left; [done|].
  specialize (IH q ltac:(intros; apply Hlen; by right)). simpl in IH. rewrite IH. lia.
Qed.

Lemma select_planned_ready time a rng :
  ready a → a_kind a = Planned →
  ∃ a' rng', select_planned choice_nodes time a rng = (Ok a', rng') ∧ moved_on a a'.
Proof.
  intros Ha Hk. destruct (rd_flow _ Ha Hk) as (f' & Hf' & Hp). unfold select_planned.
  rewrite (bindS_run _ _ _ f' rng) by (unfold lift; by rewrite (proj2 (Dict.getitem_Ok _ _ _) Hf')).
  destruct (at_period_total time a Ha) as [now Hnow].
  rewrite (bindS_run _ _ _ now rng) by (unfold lift; by rewrite Hnow).
  assert (∃ a1 rng1, (if now then
      longest ← lift (match paths f' with [] => Raise ValueError | ps => Ok (foldr max 0 (length <$> ps)) end);
      let a0 := if bool_decide (longest ≤ hop_index a ∨ length (planned_monitored a) = a_N a) then set_plan a 1 [] [] else a in
      at_hop ← lift (nodes_at_hop (paths f') (hop_index a0));
      monitored ← lift (mapR (λ i, or_raise IndexError (paths f' !! i)) (planned_monitored a0));
      monitored_at_hop ← lift (nodes_at_hop monitored (hop_index a0));
      let possible := filter (λ n, n ∉ monitored_at_hop) at_hop in
      if bool_decide (length possible ≤ a_K a0) then mret (set_monitored a0 possible (hop_count a0))
      else picked ← choice_nodes possible (a_K a0); mret (set_monitored a0 picked (hop_count a0))
    else mret a) rng = (Ok a1, rng1) ∧ moved_on a a1) as (a1 & rng1 & Hrun & Hmo).
  2: { rewrite (bindS_run _ _ _ a1 rng1) by exact Hrun. eexists _, rng1. split; [done|]. destruct Hmo as [Hr ? ? ?].
       split; [|done..|by rewrite Hk]. apply ready_plan; [done|lia|apply (rd_seen _ Hr)]. }
  destruct now; [|exists a, rng; split; [done|]; split; [done..|by rewrite Hk]].
  destruct longest_path as [Hlong Hne]. rewrite Hp.
  rewrite (bindS_run _ _ _ (S (S L)) rng) by (unfold lift; destruct (paths f); [done|by rewrite <-Hlong]).
  set (a0 := if bool_decide _ then _ else _).
  assert (ready a0 ∧ hop_index a0 < S (S L) ∧ a_kind a0 = Planned ∧ captured_shares a0 = captured_shares a) as (Hr0 & Hi0 & Hk0 & Hc0).
  { unfold a0. case_bool_decide as Hcase.
    - split; [apply ready_plan; [done|lia|constructor]|]. simpl. split; [lia|done].
    - split; [done|]. split; [|done]. apply Decidable.not_or in Hcase. lia. }
  destruct (nodes_at_hop_total (paths f) (hop_index a0) Hi0) as (at_hop & Hat & Hnd & Hin); [done|].
  cbn zeta. rewrite (bindS_run _ _ _ at_hop rng) by (unfold lift; by rewrite Hat).
  assert (∃ ps, mapR (λ i, or_raise IndexError (paths f !! i)) (planned_monitored a0) = Ok ps ∧ ∀ p, p ∈ ps → p ∈ paths f)
    as (ps & Hps & Hpsin).
  { induction (rd_seen _ Hr0) as [|i r Hi _ (ps & Hps & Hq)]; [exists []; split; [done|]; by intros p ?%elem_of_nil|].
    destruct (lookup_lt_is_Some_2 _ _ Hi) as [p Hpi]. cbn [mapR]. rewrite Hpi. cbn. rewrite Hps. exists (p :: ps).
    split; [done|]. intros q [->|?]%elem_of_cons; [by eapply list_elem_of_lookup_2|auto]. }
  rewrite (bindS_run _ _ _ ps rng) by (unfold lift; by rewrite Hps).
  destruct (nodes_at_hop_total ps (hop_index a0) Hi0 Hpsin) as (mah & Hmah & _ & _).
  rewrite (bindS_run _ _ _ mah rng) by (unfold lift; by rewrite Hmah).
  case_bool_decide as HK.
  - eexists _, rng. split; [done|]. split; [|by simpl; congruence|done|by rewrite Hk].
    apply ready_monitored; [done|by intros v [_ [? _]%Hin]%list_elem_of_filter|intros _ _; by rewrite <-(rd_K _ Hr0)|].
    by intros _ v [_ [_ ?]%Hin]%list_elem_of_filter.
  - destruct (dr_nodes Hdraws (filter (λ n, n ∉ mah) at_hop) (a_K a0) rng) as (r & rng' & Hr & Hlen & Hsub);
      [by apply NoDup_filter|lia|].
    rewrite (bindS_run _ _ _ r rng') by done. eexists _, rng'. split; [done|].
    split; [|by simpl; congruence|done|by rewrite Hk].
    apply ready_monitored; [done|by intros v [_ [? _]%Hin]%Hsub%list_elem_of_filter|intros _ _; by rewrite Hlen, (rd_K _ Hr0)|].
    by intros _ v [_ [_ ?]%Hin]%Hsub%list_elem_of_filter.
Qed.

Lemma select_total_ready f' a (rng : RNG) :
  ready a → a_kind a = Total → same_static f f' →
  ∃ a' rng', select_total (Ok f') a rng = (Ok a', rng') ∧ moved_on a a'.
Proof.
  intros Ha Hk (_ & _ & _ & Hp & _). unfold select_total. case_bool_decide.
  - rewrite (bindS_run _ _ _ f' rng) by done. rewrite Hp.
    destruct (nodes_at_hop_total (paths f) 1) as (ns & Hns & _ & Hin); [lia|done|].
    rewrite (bindS_run _ _ _ ns rng) by (unfold lift; by rewrite Hns). eexists _, rng. split; [done|].
    split; [|done..|by rewrite Hk]. apply ready_monitored; [done|by intros v [? _]%Hin|simpl; by rewrite Hk|simpl; by rewrite Hk].
  - exists a, rng. split; [done|]. split; [done..|by rewrite Hk].
Qed.

(** Every attacker can always choose its nodes. *)
Lemma select_ready f' nodes time a rng :
  ready a → nodes = net → same_static f f' →
  ∃ a' rng', select_monitored_nodes choice_nodes choice_indices choice_one nodes (Ok f') time a rng = (Ok a', rng') ∧
    moved_on a a'.
Proof.
  intros Ha Hn Hs. unfold select_monitored_nodes. destruct (a_kind a) eqn:Hk.
  - by apply (select_random_node_ready f').
  - by apply (select_random_path_ready f').
  - by apply (select_ideal_ready f').
  - by apply (select_one_node_ready f').
  - by apply (select_fixed_ready f').
  - by apply select_planned_ready.
  - by apply (select_total_ready f').
Qed.

(** * Capturing *)

Lemma path_of_node_total ps v p : p ∈ ps → v ∈ p → ∃ i, path_of_node ps v = Ok i ∧ i < length ps.
Proof.
  intros Hp Hv. unfold path_of_node. destruct (list_find_elem_of (λ p, v ∈ p) ps p Hp Hv) as [[i q] Hi].
  rewrite Hi. exists i. split; [done|]. apply list_find_Some in Hi as (Hq & _). by eapply lookup_lt_Some.
Qed.

Record watching (a a' : Attacker) (caps : list Share) : Prop := {
  wt_ready : ready a';
  wt_kind : a_kind a' = a_kind a;
  wt_captured : captured_shares a' = captured_shares a ++ caps;
  wt_monitored : monitored_nodes a' = monitored_nodes a;
  wt_paths : path_collection a' = path_collection a
}.

Lemma ready_captured a caps : ready a → ready (add_captured a caps).
Proof. intros []. by split. Qed.

Lemma capture_ready a v r :
  ready a → (a_kind a = Planned → ∃ p, p ∈ paths f ∧ v ∈ p) →
  ∃ a', capture_shares a v r = Ok a' ∧ watching a a' (vulnerable_shares v r).
Proof.
  intros Ha Hon. unfold capture_shares.
  destruct (a_kind a) eqn:Hk; try (eexists; split; [done|]; split; [by apply ready_captured|done..]).
  destruct (rd_flow _ Ha Hk) as (f' & Hf' & Hp). rewrite (proj2 (Dict.getitem_Ok _ _ _) Hf'). cbn [mbind res_bind].
  destruct (Hon eq_refl) as (p & Hpin & Hv). rewrite Hp. destruct (path_of_node_total _ _ _ Hpin Hv) as (i & -> & Hi).
  cbn [mbind res_bind]. eexists. split; [done|]. split; [|done..].
  apply ready_captured, ready_plan; [done|apply (rd_hop _ Ha)|]. apply Forall_forall. intros j [->|Hj]%elem_of_set_add; [done|].
  pose proof (rd_seen _ Ha) as Hs. rewrite Forall_forall in Hs. auto.
Qed.

Lemma monitor_ready ns a :
  ready a → Dict.keys ns = net →
  ∃ a' caps, monitor ns a = Ok a' ∧ watching a a' caps ∧ ∀ sh, sh ∈ caps ↔ exposed (monitored_nodes a) ns sh.
Proof.
  intros Ha Hkeys. unfold monitor.
  destruct (foldM_prefix (λ ms b, ∃ caps, watching a b caps ∧ ∀ sh, sh ∈ caps ↔ exposed ms ns sh)
    (λ a n, r ← Dict.getitem ns n; capture_shares a n r) (monitored_nodes a)) with (b := a) as (a' & Hrun & caps & Hw & Hcaps).
  - intros l1 v l2 b Hsplit (caps & Hw & Hcaps). assert (v ∈ monitored_nodes a) as Hv by (rewrite Hsplit; set_solver).
    pose proof (rd_nodes _ Ha v Hv) as Hvn. rewrite <-Hkeys in Hvn. apply Dict.elem_of_keys in Hvn as [r Hr].
    rewrite (proj2 (Dict.getitem_Ok _ _ _) Hr). cbn [mbind res_bind]. destruct Hw as [Hb1 Hb2 Hb3 Hb4 Hb5].
    destruct (capture_ready b v r Hb1) as (b' & Hb' & [Hc1 Hc2 Hc3 Hc4 Hc5]).
    { rewrite Hb2. intros Hk. by apply (rd_on_path _ Ha Hk). }
    exists b'. split; [done|]. exists (caps ++ vulnerable_shares v r). split.
    + split; [done|congruence|by rewrite Hc3, Hb3, (assoc_L (++))|congruence|congruence].
    + intros sh. rewrite elem_of_app, Hcaps. unfold vulnerable_shares. rewrite list_elem_of_filter. unfold exposed. split.
      * intros [(w & rw & Hw & ?)|[[? ?] ?]]; [exists w, rw; split; [set_solver|done]|exists v, r; split; [set_solver|done]].
      * intros (w & rw & [Hw|Hw%list_elem_of_singleton]%elem_of_app & Hg & ?); [left; by exists w, rw|]. subst w.
        right. simplify_eq. naive_solver.
  - exists []. split; [split; [done..|by rewrite app_nil_r|done|done]|]. intros sh. split; [by intros ?%elem_of_nil|].
    intros (v & r & ?%elem_of_nil & _). done.
  - by exists a', caps.
Qed.

(** A new attacker, after its first choice of nodes. *)
Lemma create_ready kind N K nodes flows f' period rng :
  K = ph_K f → nodes = net → Dict.get flows 0%Z = Some f' → same_static f f' → period ≠ 0%Z →
  ∃ a rng', create_attacker choice_nodes choice_indices choice_one kind N K nodes flows period rng = (Ok a, rng') ∧
    ready a ∧ a_kind a = kind ∧ captured_shares a = [] ∧ (kind = Fixed → is_Some (path_collection a)).
Proof.
  intros HK Hn Hget Hs Hper. unfold create_attacker. rewrite (proj2 (Dict.getitem_Ok _ _ _) Hget).
  assert (ready (init_attacker kind N K period flows)) as Hi.
  { split; simpl; try done.
    - by intros v ?%elem_of_nil.
    - intros _ _. lia.
    - intros _. exists f'. split; [done|]. by destruct Hs as (_ & _ & _ & -> & _).
    - by intros _ v ?%elem_of_nil. }
  destruct (select_ready f' nodes (match kind with Planned => 0 | _ => 1 end) _ rng Hi Hn Hs) as (a & rng' & Ha & [H1 H2 H3 H4]).
  exists a, rng'. split; [done|]. split; [done|]. split; [done|]. split; [done|]. intros ->. by apply H4.
Qed.

(** * Runs *)

(** The share is at one of the nodes at tick [t], not at an end point. *)
Definition seen_at (H : Z → list (list nat)) (ms : list node) (t : nat) (sh : Share) : Prop :=
  ∃ v, share_at H f t sh v ∧ v ∈ ms ∧ v ≠ source_node f ∧ v ≠ sink_node f.

(** [W !! t]: the nodes that are monitored at tick [t + 1]. *)
Definition watched_by (H : Z → list (list nat)) (W : list (list node)) (n : nat) (sh : Share) : Prop :=
  sh_flow sh = 0%Z ∧ ∃ t ms, sh_seq sh < S t ≤ n ∧ W !! t = Some ms ∧ seen_at H ms (S t) sh.

Record tracked (H : Z → list (list nat)) (n : nat) (W : list (list node)) (a : Attacker) : Prop := {
  tr_ready : ready a;
  tr_length : length W = n;
  tr_caps : ∀ sh, sh ∈ captured_shares a ↔ watched_by H W n sh;
  tr_sets : ∀ ms, ms ∈ W → (∀ v, v ∈ ms → v ∈ net) ∧
    (a_kind a ≠ IdealRandomPathHopping → a_kind a ≠ Total → length ms ≤ ph_K f);
  tr_fixed : a_kind a = Fixed → is_Some (path_collection a) ∧ ∀ ms, ms ∈ W → ms = monitored_nodes a
}.

Lemma exposed_seen H n fs ns ms sh :
  state_inv net H n fs ns → (∃ f', Dict.get fs 0%Z = Some f' ∧ same_static f f') →
  (∀ k f', Dict.get fs k = Some f' → k = 0%Z) → (∀ v, v ∈ ms → v ∈ net) →
  exposed ms ns sh ↔ sh_flow sh = 0%Z ∧ sh_seq sh < n ∧ seen_at H ms n sh.
Proof.
  intros [Hinv _] (f' & Hf' & Hst) Honly Hms.
  assert (same_static f' f) as Hst' by (destruct Hst as (? & ? & ? & ? & ?); by split_and!). split.
  - intros (v & r & Hv & Hr & Hin & Hs1 & Hs2). destruct (inv_shares _ _ _ _ _ _ Hinv v r Hr) as [_ Hmem].
    apply Hmem in Hin as (g & Hg & Hat). pose proof (Honly _ _ Hg) as H0. rewrite H0 in Hg.
    assert (g = f') as -> by congruence. split; [done|].
    split; [by eapply share_at_seq|]. exists v. split; [by eapply share_at_static|].
    destruct Hat as (_ & _ & _ & _ & _ & _ & Hss & Hsk). destruct Hst' as (_ & E1 & E2 & _).
    split; [done|]. split; congruence.
  - intros (H0 & Hlt & v & Hat & Hv & Hn1 & Hn2).
    assert (v ∈ Dict.keys ns) as [r Hr]%Dict.elem_of_keys by (rewrite (inv_keys _ _ _ _ _ _ Hinv); by apply Hms).
    exists v, r. split_and!; [done..| | |].
    + apply (inv_shares _ _ _ _ _ _ Hinv v r Hr). exists f'. rewrite H0. split; [done|]. by eapply share_at_static.
    + destruct Hat as (? & ? & _ & _ & _ & _ & -> & _). done.
    + destruct Hat as (? & ? & _ & _ & _ & _ & _ & ->). done.
Qed.

Lemma watched_step H fs W ms n sh :
  length (H 0%Z) = n → length W = n →
  watched_by (extend_history H fs) (W ++ [ms]) (S n) sh ↔
  watched_by H W n sh ∨ (sh_flow sh = 0%Z ∧ sh_seq sh < S n ∧ seen_at (extend_history H fs) ms (S n) sh).
Proof.
  intros HH HW.
  assert (∀ t ms', sh_flow sh = 0%Z → sh_seq sh < n →
    seen_at (extend_history H fs) ms' t sh ↔ seen_at H ms' t sh) as Hold.
  { intros t ms' H0 Hlt. unfold seen_at. setoid_rewrite share_at_history; [done|]. by rewrite H0, HH. }
  split.
  - intros (H0 & t & ms' & Ht & Hms & Hseen). apply lookup_app_Some in Hms as [Hms|[Hge Hms]].
    + left. pose proof (lookup_lt_Some _ _ _ Hms). split; [done|]. exists t, ms'. split; [lia|]. split; [done|].
      apply Hold; [done|lia|done].
    + right. apply list_lookup_singleton_Some in Hms as [Hz ->]. split; [done|]. split; [lia|].
      by replace (S n) with (S t) by lia.
  - intros [(H0 & t & ms' & Ht & Hms & Hseen)|(H0 & Hlt & Hseen)]; (split; [done|]).
    + exists t, ms'. split; [lia|]. split; [by apply lookup_app_l_Some|]. apply Hold; [done|lia|done].
    + exists n, ms. split; [lia|]. split; [|done]. rewrite lookup_app_r by lia. by rewrite HW, Nat.sub_diag.
Qed.

Record sim_inv (H : Z → list (list nat)) (n : nat) (Ws : list (list (list node))) (sim : Simulation) : Prop := {
  si_state : state_inv net H n (sim_flows sim) (sim_nodes sim);
  si_flow : ∃ f', Dict.get (sim_flows sim) 0%Z = Some f' ∧ same_static f f';
  si_only : ∀ k f', Dict.get (sim_flows sim) k = Some f' → k = 0%Z;
  si_attackers : Forall2 (tracked H n) Ws (attackers sim)
}.

(** One attacker in one tick: it looks, then it chooses. *)
Lemma attacker_step H n fs0 fs ns f' W a time rng :
  tracked H n W a → length (H 0%Z) = n → state_inv net (extend_history H fs0) (S n) fs ns →
  Dict.get fs 0%Z = Some f' → same_static f f' → (∀ k g, Dict.get fs k = Some g → k = 0%Z) →
  ∃ a' rng' ms, (a1 ← lift (monitor ns a);
      select_monitored_nodes choice_nodes choice_indices choice_one (Dict.keys ns) (Dict.getitem fs 0%Z) time a1) rng
      = (Ok a', rng') ∧
    tracked (extend_history H fs0) (S n) (W ++ [ms]) a' ∧ a_kind a' = a_kind a.
Proof.
  intros [Hr Hlen Hcaps Hsets Hfix] HH Hst Hf' Hs Honly.
  pose proof (inv_keys _ _ _ _ _ _ (proj1 Hst)) as Hkeys.
  destruct (monitor_ready ns a Hr Hkeys) as (a1 & caps & Hm & [W1 W2 W3 W4 W5] & Hc).
  rewrite (bindS_run _ _ _ a1 rng) by (unfold lift; by rewrite Hm). rewrite (proj2 (Dict.getitem_Ok _ _ _) Hf').
  destruct (select_ready f' (Dict.keys ns) time a1 rng W1 Hkeys Hs) as (a' & rng' & Ha' & [M1 M2 M3 M4]).
  exists a', rng', (monitored_nodes a). split; [done|]. split; [|congruence]. split.
  - done.
  - rewrite length_app. simpl. lia.
  - intros sh. rewrite M3, W3, elem_of_app, Hcaps, Hc, (watched_step H fs0 W _ n) by done.
    rewrite (exposed_seen _ (S n) fs ns) by (eauto using rd_nodes). done.
  - intros ms [Hms|Hms%list_elem_of_singleton]%elem_of_app; rewrite M2, W2; [by apply Hsets|]. subst ms.
    split; [apply (rd_nodes _ Hr)|apply (rd_bound _ Hr)].
  - rewrite M2, W2. intros Hk. destruct (Hfix Hk) as [Hpc Hconst]. rewrite <-W5 in Hpc.
    rewrite W2 in M4. destruct (M4 Hk) as [_ Heq]. rewrite (Heq Hpc), W4. split; [done|].
    intros ms [Hms|Hms%list_elem_of_singleton]%elem_of_app; [by apply Hconst|done].
Qed.

Lemma attackers_step H n fs0 fs ns f' Ws ats time rng :
  Forall2 (tracked H n) Ws ats → length (H 0%Z) = n → state_inv net (extend_history H fs0) (S n) fs ns →
  Dict.get fs 0%Z = Some f' → same_static f f' → (∀ k g, Dict.get fs k = Some g → k = 0%Z) →
  ∃ ats' rng' Ws', foldS (λ acc a,
      a1 ← lift (monitor ns a);
      a2 ← select_monitored_nodes choice_nodes choice_indices choice_one (Dict.keys ns) (Dict.getitem fs 0%Z) time a1;
      mret (acc ++ [a2])) [] ats rng = (Ok ats', rng') ∧
    Forall2 (tracked (extend_history H fs0) (S n)) Ws' ats' ∧ a_kind <$> ats' = a_kind <$> ats.
Proof.
  intros Htr HH Hst Hf' Hs Honly.
  cut (∀ acc, ∃ ats' rng' Ws', foldS (λ acc a,
      a1 ← lift (monitor ns a);
      a2 ← select_monitored_nodes choice_nodes choice_indices choice_one (Dict.keys ns) (Dict.getitem fs 0%Z) time a1;
      mret (acc ++ [a2])) acc ats rng = (Ok (acc ++ ats'), rng') ∧
    Forall2 (tracked (extend_history H fs0) (S n)) Ws' ats' ∧ a_kind <$> ats' = a_kind <$> ats).
  { intros Hc. by apply (Hc []). }
  revert rng. induction Htr as [|W a Ws ats Ha _ IH]; intros rng acc.
  { exists [], rng, []. rewrite app_nil_r. split; [done|]. split; [constructor|done]. }
  destruct (attacker_step H n fs0 fs ns f' W a time rng Ha HH Hst Hf' Hs Honly) as (a' & rng1 & ms & Hrun & Ha' & Hk).
  cbn [foldS]. apply bindS_Ok in Hrun as (a1 & s1 & Hmon & Hsel).
  destruct (IH rng1 (acc ++ [a'])) as (ats' & rng' & Ws' & Hrest & HWs & Hks).
  exists (a' :: ats'), rng', ((W ++ [ms]) :: Ws'). split.
  - rewrite (bindS_run _ _ _ (acc ++ [a']) rng1).
    + rewrite Hrest. by rewrite <-(assoc_L (++)).
    + rewrite (bindS_run _ _ _ a1 s1) by exact Hmon. by rewrite (bindS_run _ _ _ a' rng1) by exact Hsel.
  - split; [by constructor|]. rewrite !fmap_cons. by rewrite Hk, Hks.
Qed.

Lemma step_inv H n Ws sim rng :
  sim_inv H n Ws sim → ∃ H' Ws' sim' rng',
    step choice_nodes choice_indices choice_one sim rng = (Ok sim', rng') ∧ sim_inv H' (S n) Ws' sim' ∧
    a_kind <$> attackers sim' = a_kind <$> attackers sim.
Proof.
  intros [Hst (g & Hg & Hs) Honly Hat].
  destruct (step_network_inv choice_indices net H n _ _ rng (dr_paths Hdraws) Hst) as (fs & ns & rng1 & Hstep & Hst' & Hget).
  assert (∃ f', Dict.get fs 0%Z = Some f' ∧ same_static f f') as (f' & Hf' & Hs').
  { destruct (Hget 0%Z) as [[? _]|(g' & f' & Hg' & Hf' & Hs')]; [congruence|]. simplify_eq.
    exists f'. split; [done|]. by eapply same_static_trans. }
  assert (∀ k f', Dict.get fs k = Some f' → k = 0%Z) as Honly'.
  { intros k h Hk. destruct (Hget k) as [[_ ?]|(g' & f2 & Hg' & _)]; [congruence|]. by eapply Honly. }
  pose proof (fi_hist _ _ _ _ _ _ (inv_flows _ _ _ _ _ _ (proj1 Hst) _ _ Hg)) as HH.
  destruct (attackers_step H n (sim_flows sim) fs ns f' Ws (attackers sim) (ticks sim) rng1)
    as (ats' & rng' & Ws' & Hats & HWs & Hks); [done..|].
  exists (extend_history H (sim_flows sim)), Ws', (mkSim (ticks sim + 1) ns fs ats'), rng'. split.
  - unfold step. rewrite (bindS_run _ _ _ (fs, ns) rng1) by exact Hstep. by rewrite (bindS_run _ _ _ ats' rng') by exact Hats.
  - split; [|done]. split; simpl; [done|by exists f'|done|done].
Qed.

(** ** What is recovered *)

(** A path passes a monitored node [d] hops after the message was sent. *)
Definition crosses_watched (W : list (list node)) (n s p : nat) : Prop :=
  ∃ d v ms, S d ≤ n - s ∧ default [] (paths f !! p) !! S d = Some v ∧ W !! (s + d) = Some ms ∧ v ∈ ms ∧
    v ≠ source_node f ∧ v ≠ sink_node f.

Lemma captured_watched H n W a aps s i :
  tracked H n W a → H 0%Z !! s = Some aps → choice_ok f aps →
  i ∈ captured_numbers a s ↔ ∃ p, aps !! i = Some p ∧ crosses_watched W n s p.
Proof.
  intros Htr Haps [Hlen Hall]. unfold captured_numbers. rewrite elem_of_set_of, list_elem_of_fmap.
  setoid_rewrite list_elem_of_filter. setoid_rewrite (tr_caps _ _ _ _ Htr). split.
  - intros (sh & -> & <- & H0 & t & ms & Ht & Hms & v & (aps' & p & A1 & A2 & A3 & A4 & _) & Hv & Hn1 & Hn2).
    rewrite H0 in A1. simplify_eq. exists (sh_path sh). split; [done|]. exists (t - sh_seq sh), v, ms.
    split; [lia|]. rewrite A3. cbn [default from_option id].
    replace (S (t - sh_seq sh)) with (S t - sh_seq sh) by lia. split; [done|].
    replace (sh_seq sh + (t - sh_seq sh)) with t by lia. done.
  - intros (p & Hp & d & v & ms & Hd & Hv & Hms & Hin & Hn1 & Hn2).
    exists (mkShare 0 s i p (source_node f) (sink_node f)). cbn. split; [done|]. split; [done|]. split; [done|].
    exists (s + d), ms. cbn. split; [lia|]. split; [done|]. exists v. split; [|done].
    rewrite Forall_forall in Hall. destruct (lookup_lt_is_Some_2 (paths f) p) as [q Hq];
      [apply Hall; by eapply list_elem_of_lookup_2|]. rewrite Hq in Hv. cbn [default from_option id] in Hv.
    exists aps, q. cbn. replace (S (s + d) - s) with (S d) by lia. done.
Qed.

Lemma recovered_watched H n W a z :
  tracked H n W a → length (H 0%Z) = n → Forall (choice_ok f) (H 0%Z) → 
  z ∈ reconstruct_captured_messages a ↔
    ∃ s aps, z = Z.of_nat s ∧ H 0%Z !! s = Some aps ∧ Forall (crosses_watched W n s) aps.
Proof.
  intros Htr HH Hok. rewrite elem_of_reconstruct. pose proof (rd_K _ (tr_ready _ _ _ _ Htr)) as HK. rewrite HK.
  pose proof (wp_K _ _ (to_wf _ _ _ Hf)) as Hpos.
  assert (∀ s aps, H 0%Z !! s = Some aps →
    length (captured_numbers a s) = ph_K f ↔ Forall (crosses_watched W n s) aps) as Hiff.
  { intros s aps Haps. assert (choice_ok f aps) as Hc by (eapply Forall_lookup_1; eauto).
    pose proof (λ i, captured_watched H n W a aps s i Htr Haps Hc) as Hmem. destruct Hc as [Hlen _].
    rewrite NoDup_length_full, Forall_lookup; [|apply NoDup_set_of|].
    - setoid_rewrite Hmem. split.
      + intros Hall i p Hp. destruct (Hall i) as (p' & ? & ?); [rewrite <-Hlen; by eapply lookup_lt_Some|by simplify_eq].
      + intros Hall i Hi. destruct (lookup_lt_is_Some_2 aps i) as [p Hp]; [lia|]. eauto.
    - intros i (p & Hp & _)%Hmem. rewrite <-Hlen. by eapply lookup_lt_Some. }
  split.
  - intros (s & -> & (sh & Hsh & Hseq) & Hlen). exists s.
    apply (tr_caps _ _ _ _ Htr) in Hsh as (H0 & t & ms & _ & _ & v & (aps & p & Haps & _) & _).
    rewrite H0, Hseq in Haps. exists aps. split; [done|]. split; [done|]. by apply (Hiff s).
  - intros (s & aps & -> & Haps & Hall). exists s. split; [done|]. apply (Hiff s aps Haps) in Hall. split; [|done].
    destruct (captured_numbers a s) as [|i l] eqn:Hl; [simpl in Hall; lia|].
    assert (i ∈ captured_numbers a s) as Hi by (rewrite Hl; left).
    unfold captured_numbers in Hi. apply elem_of_set_of, list_elem_of_fmap in Hi as (sh & _ & Hsh).
    apply list_elem_of_filter in Hsh as [? Hsh]. by exists sh.
Qed.

(** ** What is received *)

Lemma delivered_equal aps d f' : same_static f f' → choice_ok f aps →
  delivered f' aps d = if decide (S (S L) ≤ d) then ph_K f else 0.
Proof.
  intros Hs [Hlen Hall]. rewrite (delivered_static f f') by done. unfold delivered.
  assert (∀ p, p ∈ aps → path_len f p = S (S L)) as Hpl.
  { intros p Hp. rewrite Forall_forall in Hall. destruct (lookup_lt_is_Some_2 _ _ (Hall p Hp)) as [q Hq].
    unfold path_len. rewrite Hq. simpl. apply (to_len _ _ _ Hf). by eapply list_elem_of_lookup_2. }
  case_decide.
  - rewrite filter_all; [done|]. apply Forall_forall. intros p Hp. by rewrite Hpl.
  - rewrite filter_none; [done|]. apply Forall_forall. intros p Hp. by rewrite Hpl.
Qed.

Lemma length_filter_below m n : length (filter (λ s, s < m) (seq 0 n)) = min m n.
Proof.
  induction n as [|n IH]; [simpl; lia|]. rewrite seq_S, filter_app, length_app, IH, filter_cons. simpl.
  case_decide; simpl; lia.
Qed.

Lemma received_count H n fs ns f' :
  state_inv net H n fs ns → Dict.get fs 0%Z = Some f' → same_static f f' →
  messages_tx f' = n ∧ messages_rx f' = n - S L ∧ length (H 0%Z) = n ∧ Forall (choice_ok f) (H 0%Z).
Proof.
  intros [Hinv _] Hf' Hs. pose proof (inv_flows _ _ _ _ _ _ Hinv _ _ Hf') as [F1 F2 F3 F4 F5 F6 (_ & _ & Hrx)].
  assert (Forall (choice_ok f) (H 0%Z)) as Hok.
  { apply Forall_lookup. intros s aps Haps. eapply choice_ok_static; [|by eapply F6].
    destruct Hs as (? & ? & ? & ? & ?); by split_and!. }
  split; [done|]. split; [|done]. rewrite Hrx, F4. transitivity (length (filter (λ s, s < n - S L) (seq 0 n))).
  - f_equal. apply list_filter_iff'. intros s Hin. apply elem_of_seq in Hin. unfold arrived. rewrite F1.
    destruct (lookup_lt_is_Some_2 (H 0%Z) s) as [aps Haps]; [lia|]. rewrite Haps.
    rewrite (delivered_equal aps (n - s) f' Hs) by (eapply Forall_lookup_1; eauto).
    destruct Hs as (_ & _ & _ & _ & HK). rewrite HK. pose proof (wp_K _ _ (to_wf _ _ _ Hf)). case_decide; lia.
  - rewrite length_filter_below. lia.
Qed.
End target.
End runs.
