(* ===== verification/SimExperiment.v ===== *)
(** The simulated path hopping experiment (path_hopping_simulator.py): a
    graph of parallel paths, one flow over all of them, seven attackers, and
    the messages that six of them recover, as parameters of the trial. Also
    [PathHoppingFlow.create_random_flow] of simulator.py.

    networkx is the interface [NxGraph] of [TopoMapper] with the nodes of a
    graph; [node_disjoint_paths] and numpy's random numbers are parameters.
    Lists that are parameters of a trial live in a heap. *)

From S2P Require Import Prelude PyDict TopoMapper Simulator Attackers TrialStore.
Close Scope string_scope.

(** [G.nodes] *)
Class NxNodes (N G : Type) : Type := { nx_nodes : G → list N }.
Class NxNodesLaws (N G : Type) `{NxGraph N G} `{NxNodes N G} : Prop := {
  nx_nodes_NoDup (g : G) : NoDup (nx_nodes (N:=N) g);
  elem_of_nx_nodes (g : G) (x : N) : x ∈ nx_nodes g ↔ nx_has_node g x = true
}.
#[export] Instance list_graph_nodes {N} `{EqDecision N} : NxNodes N (list_graph N) :=
  {| nx_nodes g := set_of (lg_nodes g) |}.
#[export] Instance list_graph_nodes_laws {N} `{EqDecision N} : NxNodesLaws N (list_graph N).
Proof.
  split; intros; [apply NoDup_set_of|]. simpl. by rewrite elem_of_set_of, bool_decide_eq_true.
Qed.

Section experiment.
Context {G RNG : Type} `{NxGraph Z G} `{NxNodes Z G}.
Variable node_disjoint_paths : G → Z → Z → list (list Z).
Variable np_seed : Z → M RNG unit.
Variable np_randint : Z → Z → M RNG Z.
Variable choice_nodes : list node → nat → M RNG (list node).
Variable choice_indices : list nat → nat → M RNG (list nat).
Variable choice_one : list node → M RNG node.

(** * The graph *)

(** The nodes of one path: the loop over [h_i]. *)
Definition add_path_nodes (path_length : Z) (st : G * list (list Z) * Z) (n_i : Z) : G * list (list Z) * Z :=
  let '(g, paths, counter) := st in
  let '(g, p_i, counter) := foldl (λ '(g, p_i, counter) (_ : Z),
      (nx_add_node counter g, p_i ++ [counter], (counter + 1)%Z)) (g, [], counter) (seqZ 0 path_length) in
  (g, paths ++ [p_i], counter).

(** The edges of one path, from the source and to the sink. *)
Definition add_path_edges (source_node sink_node : Z) (g : G) (p_i : list Z) : res G :=
  first ← py_index p_i 0;
  let g := nx_add_edge source_node first g in
  last ← py_index p_i (-1);
  let g := nx_add_edge sink_node last g in
  Ok (foldl (λ g uv, nx_add_edge uv.1 uv.2 g) g (pairwise p_i)).

Definition build_n_parallel_graph (number_of_paths path_length : Z) : res (G * Z * Z) :=
  let '(g, paths, node_id_counter) :=
    foldl (add_path_nodes path_length) (nx_empty, [], 0%Z) (seqZ 0 number_of_paths) in
  let source_node := node_id_counter in
  let sink_node := (node_id_counter + 1)%Z in
  g ← foldM (add_path_edges source_node sink_node) g paths;
  Ok (g, source_node, sink_node).

(** * The flow *)

(** [create_random_flow] with the end points and the flow id given, as the
    experiment calls it. numpy refuses a negative number of samples. *)
Definition create_random_flow (g : G) (N K : Z) (min_data_volume max_data_volume : Z) (source_node sink_node : Z)
    (fid : Z) : M RNG PHFlow :=
  if negb (nx_has_node g source_node) then lift (Raise ValueError)
  else if negb (nx_has_node g sink_node) then lift (Raise ValueError)
  else
    flow_data_volume ← np_randint min_data_volume (max_data_volume + 1)%Z;
    let paths := node_disjoint_paths g source_node sink_node in
    if bool_decide (Z.of_nat (length paths) < N)%Z then lift (Raise ValueError)
    else if bool_decide (K < 0)%Z then lift (Raise ValueError)
    else hop choice_indices
      (init_flow 0 source_node sink_node flow_data_volume paths (Z.to_nat N) (Z.to_nat K) (Some fid)).1.

(** * The experiment *)

(** A parameter that is used as a number. *)
Definition int_parameter (t : Trial) (name : string) : res Z :=
  v ← get_parameter t name; match v with VInt z => Ok z | _ => Raise TypeError end.

(** [create] of the seven attackers, in this order. *)
Definition attacker_kinds : list attacker_kind :=
  [RandomPathHopping; RandomNodeHopping; IdealRandomPathHopping; OneNodePerPath; Fixed; Planned; Total].

Definition create_attackers (N K : nat) (nodes : list node) (flows : dict Z PHFlow) (period : Z)
    : M RNG (list Attacker) :=
  foldS (λ acc kind,
    a ← create_attacker choice_nodes choice_indices choice_one kind N K nodes flows period;
    mret (acc ++ [a])) [] attacker_kinds.

(** [for _ in range(sim_duration): simulation.step()] *)
Definition run_simulation (duration : Z) (sim : Simulation) : M RNG Simulation :=
  foldS (λ sim (_ : Z), step choice_nodes choice_indices choice_one sim) sim (seqZ 0 duration).

(** The attackers whose messages are recorded, by their position. *)
Definition recorded_attackers : list (string * nat) :=
  [("random-path-hopping-attacker-recovered-messages", 0);
   ("random-node-hopping-attacker-recovered-messages", 1);
   ("ideal-random-path-hopping-attacker-recovered-messages", 2);
   ("one-node-per-path-attacker-recovered-messages", 3);
   ("fixed-attacker-recovered-messages", 4);
   ("planned-attacker-recovered-messages", 5)]%string.

(** [the_trial.add_parameter(name, attacker.reconstruct_captured_messages())] *)
Definition record_messages (sim : Simulation) (st : Trial * list (list Z)) (entry : string * nat)
    : res (Trial * list (list Z)) :=
  let '(the_trial, heap) := st in
  a ← or_raise IndexError (attackers sim !! entry.2);
  t ← add_parameter the_trial entry.1 (VObj (length heap));
  Ok (t, heap ++ [reconstruct_captured_messages a]).

Definition conduct_path_hopping_simulation (the_trial : Trial) (heap : list (list Z))
    : M RNG (Simulation * (Trial * list (list Z))) :=
  N ← lift (int_parameter the_trial "N");
  K ← lift (int_parameter the_trial "K");
  seed_number ← lift (int_parameter the_trial "seed_number");
  _ ← np_seed seed_number;
  path_length ← lift (int_parameter the_trial "path_length");
  '(g, source_id, sink_id) ← lift (build_n_parallel_graph N path_length);
  flow ← create_random_flow g N K 1 100 source_id sink_id 0;
  let simulation := create_simulation (nx_nodes g) [flow] in
  attacker_hop_period ← lift (int_parameter the_trial "attacker_hop_period");
  attackers ← create_attackers (Z.to_nat N) (Z.to_nat K) (nx_nodes g) (sim_flows simulation) attacker_hop_period;
  let simulation := foldl add_attacker simulation attackers in
  sim_duration ← lift (int_parameter the_trial "sim_duration");
  simulation ← run_simulation sim_duration simulation;
  result ← lift (foldM (record_messages simulation) (the_trial, heap) recorded_attackers);
  mret (simulation, result).
End experiment.
