(* ===== verification/SimExperimentProps.v ===== *)
(** The simulated experiment from end to end: the graph has exactly the
    parallel paths, the simulation never raises, and what is recorded for
    each attacker are the messages all of whose shares it has seen. *)

From S2P Require Import Prelude PyDict TopoMapper Simulator SimulatorProps Attackers AttackersProps AttackerRuns TrialStore SimExperiment.
Close Scope string_scope.
Local Open Scope Z_scope.

(** * The parallel graph *)

Lemma interior_ends {A} (x y : A) l : interior (x :: l ++ [y]) = l.
Proof. unfold interior, but_last. cbn [tail]. rewrite length_app. simpl. by rewrite take_app_length' by lia. Qed.

(** A path of the graph without repetition, and a family of paths that share
    nothing but their ends. *)
Definition simple_path {G} `{NxGraph Z G} (g : G) (s t : Z) (q : list Z) : Prop :=
  head q = Some s ∧ last q = Some t ∧ NoDup q ∧ Forall (λ uv, nx_has_edge g uv.1 uv.2 = true) (pairwise q).
Definition disjoint_paths {G} `{NxGraph Z G} (g : G) (s t : Z) (qs : list (list Z)) : Prop :=
  Forall (simple_path g s t) qs ∧ NoDup qs ∧ NoDup (concat (interior <$> qs)).
(** What [node_disjoint_paths] promises: as many paths as possible. *)
Definition most_disjoint_paths {G} `{NxGraph Z G} (g : G) (s t : Z) (qs : list (list Z)) : Prop :=
  disjoint_paths g s t qs ∧ ∀ qs', disjoint_paths g s t qs' → (length qs' ≤ length qs)%nat.

Section graph.
Context {G : Type} `{NxGraph Z G} `{!NxGraphLaws Z G}.
Implicit Types (g : G) (u v x : Z).

Definition node_count (n l : Z) : Z := n * l.

Lemma path_nodes_loop (l : list Z) : ∀ g p c,
  ∃ g', foldl (λ '(g, p_i, counter) (_ : Z), (nx_add_node counter g, p_i ++ [counter], counter + 1)) (g, p, c) l
    = (g', p ++ seqZ c (Z.of_nat (length l)), c + Z.of_nat (length l)) ∧
  (∀ x, nx_has_node g' x = true ↔ c ≤ x < c + Z.of_nat (length l) ∨ nx_has_node g x = true) ∧
  ∀ x y, nx_has_edge g' x y = nx_has_edge g x y.
Proof.
  induction l as [|z l IH]; intros g p c; cbn [foldl length].
  - exists g. rewrite app_nil_r, Z.add_0_r. split; [done|]. split; [|done]. intros x. split; [by right|].
    intros [?|?]; [lia|done].
  - destruct (IH (nx_add_node c g) (p ++ [c]) (c + 1)) as (g' & -> & Hn & He). exists g'. split; [|split].
    + rewrite (seqZ_cons c) by lia. rewrite <-(assoc_L (++)). cbn [app].
      replace (Z.pred (Z.of_nat (S (length l)))) with (Z.of_nat (length l)) by lia.
      replace (c + Z.of_nat (S (length l))) with (c + 1 + Z.of_nat (length l)) by lia. done.
    + intros x. rewrite Hn, has_node_add_node, orb_true_iff, bool_decide_eq_true. split.
      * intros [?|[->|?]]; [left; lia|left; lia|by right].
      * intros [?|?]; [|by right; right]. destruct (decide (x = c)); [by right; left|left; lia].
    + intros x y. by rewrite He, has_edge_add_node.
Qed.

Definition parallel_paths (n l : Z) : list (list Z) := (λ i, seqZ (i * l) l) <$> seqZ 0 n.

Lemma paths_loop (l : Z) : 0 ≤ l → ∀ (k : list Z) i g ps,
  ∃ g', foldl (add_path_nodes l) (g, ps, i * l) k
    = (g', ps ++ ((λ i, seqZ (i * l) l) <$> seqZ i (Z.of_nat (length k))), (i + Z.of_nat (length k)) * l) ∧
  (∀ x, nx_has_node g' x = true ↔ i * l ≤ x < (i + Z.of_nat (length k)) * l ∨ nx_has_node g x = true) ∧
  ∀ x y, nx_has_edge g' x y = nx_has_edge g x y.
Proof.
  intros Hl. induction k as [|z k IH]; intros i g ps; cbn [foldl length].
  - exists g. rewrite app_nil_r, Z.add_0_r. split; [done|]. split; [|done]. intros x. split; [by right|].
    intros [?|?]; [lia|done].
  - unfold add_path_nodes at 2.
    destruct (path_nodes_loop (seqZ 0 l) g [] (i * l)) as (g1 & -> & Hn1 & He1). rewrite length_seqZ in *.
    rewrite Z2Nat.id in * by done. replace (i * l + l) with ((i + 1) * l) in * by lia.
    destruct (IH (i + 1) g1 (ps ++ [seqZ (i * l) l])) as (g' & Hf & Hn & He). cbn [app] in *. rewrite Hf.
    exists g'. split; [|split].
    + rewrite (seqZ_cons i) by lia. rewrite <-(assoc_L (++)), fmap_cons. cbn [app].
      replace (Z.pred (Z.of_nat (S (length k)))) with (Z.of_nat (length k)) by lia.
      replace (i + Z.of_nat (S (length k))) with (i + 1 + Z.of_nat (length k)) by lia. done.
    + intros x. rewrite Hn, Hn1. replace (i + 1 + Z.of_nat (length k)) with (i + Z.of_nat (S (length k))) by lia.
      split; [intros [?|[?|?]]; [left; nia|left; nia|by right]|intros [?|?]; [|by right; right]].
      destruct (decide (x < (i + 1) * l)); [right; left|left]; lia.
    + intros x y. by rewrite He, He1.
Qed.

(** ** Edges *)

Section edges.
Variables (n l : Z).
Hypotheses (Hn : 1 ≤ n) (Hl : 1 ≤ l).
Abbreviation src := (n * l).
Abbreviation snk := (n * l + 1).

Definition path_edge (i u v : Z) : Prop :=
  (u = src ∧ v = i * l) ∨ (u = snk ∧ v = i * l + l - 1) ∨ (v = u + 1 ∧ i * l ≤ u ∧ v < i * l + l).

Definition par_edge (u v : Z) : Prop :=
  (u = src ∧ 0 ≤ v < src ∧ v mod l = 0) ∨ (u = snk ∧ 0 ≤ v < src ∧ (v + 1) mod l = 0) ∨
  (v = u + 1 ∧ 0 ≤ u ∧ v < src ∧ v mod l ≠ 0).

Lemma pairwise_seqZ (k : nat) : ∀ a u v,
  (u, v) ∈ pairwise (seqZ a (Z.of_nat k)) ↔ v = u + 1 ∧ a ≤ u ∧ v < a + Z.of_nat k.
Proof.
  induction k as [|[|k] IH]; intros a u v.
  - split; [by intros ?%elem_of_nil|lia].
  - split; [by intros ?%elem_of_nil|lia].
  - rewrite (seqZ_cons a) by lia. replace (Z.pred (Z.of_nat (S (S k)))) with (Z.of_nat (S k)) by lia.
    rewrite (seqZ_cons (Z.succ a)) by lia. rewrite pairwise_cons. rewrite <-(seqZ_cons (Z.succ a)) by lia.
    rewrite elem_of_cons, IH. split.
    + intros [[= -> ->]|?]; lia.
    + intros ?. destruct (decide (u = a)) as [->|]; [left; f_equal; lia|right; lia].
Qed.

Lemma fold_edges_has (es : list (Z * Z)) : ∀ g u v,
  nx_has_edge (foldl (λ g uv, nx_add_edge uv.1 uv.2 g) g es) u v = true ↔
  ((u, v) ∈ es ∨ (v, u) ∈ es) ∨ nx_has_edge g u v = true.
Proof.
  induction es as [|[a b] es IH]; intros g u v; cbn [foldl fst snd].
  - split; [by right|]. by intros [[?%elem_of_nil|?%elem_of_nil]|?].
  - rewrite IH, has_edge_add_edge, orb_true_iff, bool_decide_eq_true, !elem_of_cons, !pair_equal_spec. tauto.
Qed.
Lemma fold_edges_node (es : list (Z * Z)) : ∀ g x,
  nx_has_node (foldl (λ g uv, nx_add_edge uv.1 uv.2 g) g es) x = true ↔
  (∃ u v, (u, v) ∈ es ∧ (x = u ∨ x = v)) ∨ nx_has_node g x = true.
Proof.
  induction es as [|[a b] es IH]; intros g x; cbn [foldl fst snd].
  - split; [by right|]. by intros [(u & v & ?%elem_of_nil & _)|?].
  - rewrite IH, has_node_add_edge, orb_true_iff, bool_decide_eq_true. setoid_rewrite elem_of_cons. split.
    + intros [(u & v & ? & ?)|[?|?]]; [left; by exists u, v; auto|left; exists a, b; auto|by right].
    + intros [(u & v & [[= -> ->]|?] & ?)|?]; [right; by left|left; by exists u, v|by right; right].
Qed.

Lemma add_path_edges_spec g i :
  ∃ g', add_path_edges src snk g (seqZ (i * l) l) = Ok g' ∧
    (∀ u v, nx_has_edge g' u v = true ↔ (path_edge i u v ∨ path_edge i v u) ∨ nx_has_edge g u v = true) ∧
    ∀ x, nx_has_node g' x = true ↔ (x = src ∨ x = snk ∨ i * l ≤ x < i * l + l) ∨ nx_has_node g x = true.
Proof.
  unfold add_path_edges.
  assert (py_index (seqZ (i * l) l) 0 = Ok (i * l)) as ->.
  { rewrite (seqZ_cons (i * l)) by lia. done. }
  cbn [mbind res_bind]. rewrite (py_index_last _ (i * l + l - 1)).
  2: { rewrite last_lookup, length_seqZ. rewrite lookup_seqZ_lt by lia. f_equal. lia. }
  cbn [mbind res_bind]. eexists. split; [done|].
  assert (∀ u v, (u, v) ∈ pairwise (seqZ (i * l) l) ↔ v = u + 1 ∧ i * l ≤ u ∧ v < i * l + l) as Hpw.
  { intros u v. pose proof (pairwise_seqZ (Z.to_nat l) (i * l) u v) as Hp. by rewrite Z2Nat.id in Hp by lia. }
  split.
  - intros u v. rewrite fold_edges_has, !has_edge_add_edge, !orb_true_iff, !bool_decide_eq_true, !Hpw.
    unfold path_edge. intuition lia.
  - intros x. rewrite fold_edges_node, !has_node_add_edge, !orb_true_iff, !bool_decide_eq_true. setoid_rewrite Hpw.
    split.
    + intros [(u & v & ? & ?)|?]; [left; right; right; lia|intuition lia].
    + intros [[?|[?|?]]|?]; [tauto..| |tauto]. destruct (decide (x = i * l)); [tauto|].
      left. exists (x - 1), x. split; [lia|by right].
Qed.

Lemma add_paths_edges (idx : list Z) : ∀ g, ∃ g',
  foldM (add_path_edges src snk) g ((λ i, seqZ (i * l) l) <$> idx) = Ok g' ∧
    (∀ u v, nx_has_edge g' u v = true ↔ (∃ i, i ∈ idx ∧ (path_edge i u v ∨ path_edge i v u)) ∨ nx_has_edge g u v = true) ∧
    ∀ x, nx_has_node g' x = true ↔ (∃ i, i ∈ idx ∧ (x = src ∨ x = snk ∨ i * l ≤ x < i * l + l)) ∨ nx_has_node g x = true.
Proof.
  induction idx as [|i idx IH]; intros g; rewrite ?fmap_cons; cbn [foldM].
  - exists g. split; [done|]. split; intros; (split; [by right|]); intros [(i & ?%elem_of_nil & _)|?]; done.
  - destruct (add_path_edges_spec g i) as (g1 & -> & He1 & Hn1). cbn [mbind res_bind].
    destruct (IH g1) as (g' & -> & He & Hn'). exists g'. split; [done|].
    split; intros; rewrite ?He, ?He1, ?Hn', ?Hn1, exists_elem_cons; tauto.
Qed.

Lemma path_edge_par u v : (∃ i, i ∈ seqZ 0 n ∧ path_edge i u v) ↔ par_edge u v.
Proof.
  unfold path_edge, par_edge. split.
  - intros (i & Hi%elem_of_seqZ & [[-> ->]|[[-> ->]|(-> & ? & ?)]]).
    + left. split; [done|]. split; [nia|]. apply Z_mod_mult.
    + right; left. split; [done|]. split; [nia|]. replace (i * l + l - 1 + 1) with ((i + 1) * l) by lia. apply Z_mod_mult.
    + right; right. split; [done|]. split; [nia|]. split; [nia|].
      replace (u + 1) with ((u + 1 - i * l) + i * l) by lia. rewrite Z_mod_plus_full, Z.mod_small by lia. lia.
  - intros [(-> & ? & Hm)|[(-> & ? & Hm)|(-> & ? & ? & Hm)]].
    + exists (v / l). pose proof (Z.div_mod v l ltac:(lia)). split; [apply elem_of_seqZ; nia|]. left. split; [done|nia].
    + exists (v / l). pose proof (Z.div_mod v l ltac:(lia)). pose proof (Z.mod_pos_bound v l ltac:(lia)).
      split; [apply elem_of_seqZ; nia|]. right; left. split; [done|].
      destruct (decide (v mod l = l - 1)); [nia|].
      rewrite <-Zplus_mod_idemp_l, Z.mod_small in Hm by lia. lia.
    + exists (u / l). pose proof (Z.div_mod u l ltac:(lia)). pose proof (Z.mod_pos_bound u l ltac:(lia)).
      split; [apply elem_of_seqZ; nia|]. right; right. split; [done|]. split; [nia|].
      destruct (decide (u mod l = l - 1)) as [Hu|]; [|nia].
      exfalso. apply Hm. rewrite <-Zplus_mod_idemp_l, Hu. replace (l - 1 + 1) with l by lia. apply Z_mod_same_full.
Qed.

Lemma build_spec :
  ∃ g, build_n_parallel_graph n l = Ok (g, src, snk) ∧
    (∀ u v, nx_has_edge g u v = true ↔ par_edge u v ∨ par_edge v u) ∧
    ∀ x, nx_has_node g x = true ↔ 0 ≤ x ≤ snk.
Proof.
  unfold build_n_parallel_graph. destruct (paths_loop l ltac:(lia) (seqZ 0 n) 0 nx_empty []) as (g1 & Hf & Hn1 & He1).
  rewrite Z.mul_0_l in Hf. rewrite Hf. rewrite length_seqZ, Z2Nat.id in * by lia. cbn [app]. rewrite Z.add_0_l in *.
  destruct (add_paths_edges (seqZ 0 n) g1) as (g & -> & He & Hg). cbn [mbind res_bind]. exists g. split; [done|]. split.
  - intros u v. rewrite He, He1, has_edge_empty, <-!path_edge_par. split.
    + intros [(i & ? & [?|?])|?]; [left; by exists i|right; by exists i|done].
    + intros [(i & ? & ?)|(i & ? & ?)]; left; exists i; tauto.
  - intros x. rewrite Hg, Hn1, has_node_empty. setoid_rewrite elem_of_seqZ. split.
    + intros [(i & ? & ?)|[?|?]]; [nia|nia|done].
    + intros ?. destruct (decide (x < src)); [right; left; lia|]. left. exists 0. split; [lia|].
      destruct (decide (x = src)); [by left|right; left; lia].
Qed.

(** ** Paths *)

Definition parallel_path (h : Z) : list Z := src :: seqZ h l ++ [snk].
Definition path_start (h : Z) : Prop := 0 ≤ h < src ∧ h mod l = 0.

Lemma mod_succ x : (x + 1) mod l ≠ 0 → (x + 1) mod l = x mod l + 1.
Proof.
  intros Hm. pose proof (Z.mod_pos_bound x l ltac:(lia)). rewrite <-Zplus_mod_idemp_l in Hm |- *.
  destruct (decide (x mod l = l - 1)) as [Hx|Hx].
  - exfalso. apply Hm. rewrite Hx. replace (l - 1 + 1) with l by lia. apply Z_mod_same_full.
  - apply Z.mod_small. lia.
Qed.
Lemma mod_last x : (x + 1) mod l = 0 → x mod l = l - 1.
Proof.
  intros Hm. pose proof (Z.mod_pos_bound x l ltac:(lia)). rewrite <-Zplus_mod_idemp_l in Hm.
  destruct (decide (x mod l = l - 1)); [done|]. rewrite Z.mod_small in Hm by lia. lia.
Qed.

Section paths.
Variable g : G.
Hypothesis g_edges : ∀ u v, nx_has_edge g u v = true ↔ par_edge u v ∨ par_edge v u.

(** From a node between the ends, a path can only go on to the sink. *)
Lemma walk_to_sink rest : ∀ pre x,
  0 ≤ x < src → NoDup (pre ++ x :: rest) → (x mod l = 0 → src ∈ pre) → (x mod l ≠ 0 → x - 1 ∈ pre) →
  last (x :: rest) = Some snk → Forall (λ uv, nx_has_edge g uv.1 uv.2 = true) (pairwise (x :: rest)) →
  rest = seqZ (x + 1) (l - 1 - x mod l) ++ [snk].
Proof.
  induction rest as [|y rest IH]; intros pre x Hx Hnd Hz Hnz Hlast Hedges.
  { injection Hlast as Hs. lia. }
  rewrite pairwise_cons in Hedges. apply Forall_cons in Hedges as [Hxy Hedges]. cbn [fst snd] in Hxy.
  assert (y ∉ pre) as Hy.
  { apply NoDup_app in Hnd as (_ & Hd & _). intros Hin. apply (Hd y Hin). right. left. }
  apply g_edges in Hxy. unfold par_edge in Hxy. destruct Hxy as [Hxy|Hxy].
  - destruct Hxy as [(? & _)|[(? & _)|(-> & _ & Hlt & Hm)]]; [lia..|].
    rewrite (IH (pre ++ [x]) (x + 1)); [|lia| | | |done|done].
    + rewrite (mod_succ x Hm), (seqZ_cons (x + 1)) by (pose proof (Z.mod_pos_bound (x + 1) l ltac:(lia)); rewrite (mod_succ x Hm) in *; lia).
      replace (Z.succ (x + 1)) with (x + 1 + 1) by lia.
      replace (Z.pred (l - 1 - x mod l)) with (l - 1 - (x mod l + 1)) by lia. done.
    + by rewrite <-(assoc_L (++)).
    + done.
    + intros _. apply elem_of_app. right. apply list_elem_of_singleton. lia.
  - destruct Hxy as [(-> & _ & Hm)|[(-> & _ & Hm)|(-> & _ & _ & Hm)]].
    + by destruct Hy; apply Hz.
    + destruct rest as [|z rest].
      * rewrite (mod_last x Hm). replace (l - 1 - (l - 1)) with 0 by lia. done.
      * exfalso. apply NoDup_app in Hnd as (_ & _ & [_ [Hn2 _]%NoDup_cons]%NoDup_cons). apply Hn2.
        apply last_Some_elem_of. done.
    + destruct Hy. replace y with (y + 1 - 1) by lia. by apply Hnz.
Qed.

Lemma simple_path_parallel q : simple_path g src snk q → ∃ h, path_start h ∧ q = parallel_path h.
Proof.
  intros (Hh & Hlast & Hnd & Hedges). destruct q as [|s [|v rest]]; [done|injection Hh as ->; injection Hlast as ?; lia|].
  injection Hh as ->. rewrite pairwise_cons in Hedges. apply Forall_cons in Hedges as [Hv Hedges].
  apply g_edges in Hv. cbn [fst snd] in Hv. unfold par_edge in Hv.
  assert (path_start v) as Hs by (unfold path_start; lia). exists v. split; [done|]. destruct Hs as [Hr Hm].
  unfold parallel_path. rewrite (seqZ_cons v) by lia. cbn [app]. do 2 f_equal.
  rewrite (walk_to_sink rest [src] v); [|done|done|set_solver|done|done|done].
  rewrite Hm. replace (l - 1 - 0) with (Z.pred l) by lia. done.
Qed.

Lemma parallel_path_simple h : path_start h → simple_path g src snk (parallel_path h).
Proof.
  intros [Hr Hm]. unfold parallel_path.
  assert (h + l ≤ src) as Hend.
  { pose proof (Z.div_mod h l ltac:(lia)). assert (h / l < n) by nia. nia. }
  split; [done|]. split; [by rewrite app_comm_cons, last_snoc|]. split.
  - apply NoDup_cons. rewrite elem_of_app, elem_of_seqZ, list_elem_of_singleton. split; [lia|].
    apply NoDup_app. split; [apply NoDup_seqZ|]. split; [|apply NoDup_singleton].
    intros x Hx%elem_of_seqZ ->%list_elem_of_singleton. lia.
  - assert (seqZ h l = seqZ h (l - 1) ++ [h + l - 1]) as Hs.
    { replace l with (l - 1 + 1) at 1 by lia. rewrite (seqZ_app h) by lia. f_equal.
      rewrite (seqZ_cons (h + (l - 1))) by lia. simpl. f_equal. lia. }
    rewrite Hs, <-(assoc_L (++)). cbn [app]. rewrite app_comm_cons, pairwise_snoc. apply Forall_app. split.
    + rewrite <-app_comm_cons, <-Hs, (seqZ_cons h) by lia. rewrite pairwise_cons. rewrite <-(seqZ_cons h) by lia.
      apply Forall_cons. split; [apply g_edges; left; left; done|].
      apply Forall_forall. intros [u v] Huv. pose proof (pairwise_seqZ (Z.to_nat l) h u v) as Hp. rewrite Z2Nat.id in Hp by lia.
      apply Hp in Huv. apply g_edges. left. right. right. cbn [fst snd]. split; [lia|]. split; [lia|]. split; [lia|].
      replace v with ((v - h) + (h / l) * l) by (pose proof (Z.div_mod h l ltac:(lia)); lia).
      rewrite Z_mod_plus_full, Z.mod_small by lia. lia.
    + apply Forall_singleton. apply g_edges. right. right. left. cbn [fst snd]. split; [done|]. split; [lia|].
      replace (h + l - 1 + 1) with (h + 1 * l) by lia. by rewrite Z_mod_plus_full.
Qed.

Lemma interior_parallel h : interior (parallel_path h) = seqZ h l.
Proof. apply interior_ends. Qed.

(** The starts of the parallel paths. *)
Definition path_starts : list Z := (λ i, i * l) <$> seqZ 0 n.

Lemma elem_of_path_starts h : h ∈ path_starts ↔ path_start h.
Proof.
  unfold path_starts, path_start. rewrite list_elem_of_fmap. setoid_rewrite elem_of_seqZ. split.
  - intros (i & -> & Hi). split; [nia|]. apply Z_mod_mult.
  - intros [Hr Hm]. exists (h / l). pose proof (Z.div_mod h l ltac:(lia)). split; [lia|nia].
Qed.

Lemma starts_of qs : Forall (simple_path g src snk) qs →
  ∃ hs, qs = parallel_path <$> hs ∧ Forall path_start hs.
Proof.
  induction 1 as [|q qs (h & Hh & ->)%simple_path_parallel _ (hs & -> & Hhs)]; [by exists []|].
  exists (h :: hs). split; [done|]. by constructor.
Qed.

(** There are at most [n] disjoint paths, and the parallel ones are [n]. *)
Lemma disjoint_at_most qs : disjoint_paths g src snk qs → (length qs ≤ Z.to_nat n)%nat.
Proof.
  intros (Hq & Hnd & _). apply starts_of in Hq as (hs & -> & Hhs). rewrite length_fmap.
  apply NoDup_fmap_1 in Hnd. replace (Z.to_nat n) with (length path_starts) by (unfold path_starts; by rewrite length_fmap, length_seqZ).
  apply submseteq_length, NoDup_submseteq; [done|]. intros h Hh. apply elem_of_path_starts.
  rewrite Forall_forall in Hhs. by apply Hhs.
Qed.

Lemma concat_seqZ (k : nat) : concat ((λ i, seqZ (i * l) l) <$> seqZ 0 (Z.of_nat k)) = seqZ 0 (Z.of_nat k * l).
Proof.
  induction k as [|k IH]; [done|]. replace (Z.of_nat (S k)) with (Z.of_nat k + 1) by lia.
  rewrite (seqZ_app 0) by lia. rewrite fmap_app, concat_app, IH.
  rewrite Z.mul_add_distr_r, Z.mul_1_l, (seqZ_app 0) by lia. f_equal.
  assert (seqZ (0 + Z.of_nat k) 1 = [Z.of_nat k]) as -> by (unfold seqZ; simpl; f_equal; lia).
  cbn. by rewrite app_nil_r.
Qed.

Lemma parallel_paths_disjoint : disjoint_paths g src snk (parallel_path <$> path_starts).
Proof.
  split; [|split].
  - apply Forall_fmap, Forall_forall. intros h Hh%elem_of_path_starts. by apply parallel_path_simple.
  - apply NoDup_fmap_2_strong.
    + intros x y _ _ Heq. apply (f_equal (λ p, p !! 1%nat)) in Heq. unfold parallel_path in Heq. cbn in Heq.
      rewrite (seqZ_cons x), (seqZ_cons y) in Heq by lia. by injection Heq.
    + unfold path_starts. apply NoDup_fmap_2_strong; [|apply NoDup_seqZ]. intros x y _ _ Heq. nia.
  - rewrite <-list_fmap_compose. unfold path_starts. rewrite <-list_fmap_compose.
    rewrite (list_fmap_ext _ (λ i, seqZ (i * l) l)) by (intros; apply interior_parallel).
    replace n with (Z.of_nat (Z.to_nat n)) at 1 by lia. rewrite concat_seqZ. apply NoDup_seqZ.
Qed.

Lemma parallel_paths_most : most_disjoint_paths g src snk (parallel_path <$> path_starts).
Proof.
  split; [apply parallel_paths_disjoint|]. intros qs' Hq. rewrite length_fmap. unfold path_starts.
  rewrite length_fmap, length_seqZ. by apply disjoint_at_most.
Qed.

(** Whatever family is computed, it is the [n] parallel paths. *)
Lemma most_disjoint_parallel qs : most_disjoint_paths g src snk qs →
  ∃ hs, qs = parallel_path <$> hs ∧ Forall path_start hs ∧ NoDup hs ∧ length hs = Z.to_nat n.
Proof.
  intros [Hd Hmax]. pose proof (disjoint_at_most _ Hd) as Hle. specialize (Hmax _ parallel_paths_disjoint).
  destruct Hd as (Hq & Hnd & _). apply starts_of in Hq as (hs & -> & Hhs). exists hs.
  split; [done|]. split; [done|]. split; [by apply NoDup_fmap_1 in Hnd|].
  rewrite !length_fmap in *. unfold path_starts in Hmax. rewrite length_fmap, length_seqZ in Hmax. lia.
Qed.
End paths.
End edges.
End graph.

(** * The trial *)

(** A trial that the experiment can run, with its parameters. *)
Record runnable (t : Trial) (N K l period T : Z) : Prop := {
  ru_N : int_parameter t "N" = Ok N;
  ru_K : int_parameter t "K" = Ok K;
  ru_seed : ∃ seed, int_parameter t "seed_number" = Ok seed ∧ 0 ≤ seed < 2 ^ 32;
  ru_length : int_parameter t "path_length" = Ok l;
  ru_period : int_parameter t "attacker_hop_period" = Ok period;
  ru_duration : int_parameter t "sim_duration" = Ok T;
  ru_K_range : 1 ≤ K ≤ N;
  ru_length_pos : 1 ≤ l;
  ru_period_nz : period ≠ 0;
  ru_new : ∀ e, e ∈ recorded_attackers → has_parameter t e.1 = false
}.

(** * The flow *)

Section experiment.
Context {G RNG : Type} `{NxGraph Z G} `{!NxGraphLaws Z G} `{!NxNodes Z G} `{!NxNodesLaws Z G}.
Variable node_disjoint_paths : G → Z → Z → list (list Z).
Variable np_seed : Z → M RNG unit.
Variable np_randint : Z → Z → M RNG Z.
Variable choice_nodes : list node → nat → M RNG (list node).
Variable choice_indices : list nat → nat → M RNG (list nat).
Variable choice_one : list node → M RNG node.

(** What the experiment relies on: numpy's generators draw, they take a seed of 32 bits, and
    [node_disjoint_paths] finds as many paths as there are in the graph of
    the experiment. *)
Record libraries (N l : Z) : Prop := {
  lib_draws : draws choice_nodes choice_indices choice_one;
  lib_seed : ∀ z rng, 0 ≤ z < 2 ^ 32 → ∃ rng', np_seed z rng = (Ok tt, rng');
  lib_randint : ∀ a b rng, a < b → ∃ z rng', np_randint a b rng = (Ok z, rng');
  lib_paths : ∀ (g : G) s t, build_n_parallel_graph N l = Ok (g, s, t) → most_disjoint_paths g s t (node_disjoint_paths g s t)
}.

Lemma parallel_target (N l : Z) (net : list Z) (f : PHFlow) hs :
  1 ≤ N → 1 ≤ l → (∀ x, x ∈ net ↔ 0 ≤ x ≤ N * l + 1) →
  paths f = parallel_path N l <$> hs → Forall (path_start N l) hs → NoDup hs → length hs = Z.to_nat N →
  source_node f = N * l → sink_node f = N * l + 1 → (0 < ph_K f ≤ length hs)%nat →
  target_ok net f (Z.to_nat l).
Proof.
  intros HN Hl Hnet Hps Hhs Hnd Hlen Hsrc Hsnk HK.
  assert (∀ p, p ∈ paths f → ∃ h, path_start N l h ∧ p = parallel_path N l h) as Hp.
  { intros p. rewrite Hps. intros (h & -> & Hh)%list_elem_of_fmap. exists h. rewrite Forall_forall in Hhs. auto. }
  assert (∀ h, path_start N l h → 0 ≤ h ∧ h + l ≤ N * l) as Hrange.
  { intros h [Hr Hm]. split; [lia|]. pose proof (Z.div_mod h l ltac:(lia)). assert (h / l < N) by nia. nia. }
  split; [split| | | |].
  - intros p (h & _ & ->)%Hp. by rewrite Hsrc.
  - intros p (h & Hh%Hrange & ->)%Hp. unfold parallel_path. apply NoDup_cons.
    rewrite elem_of_app, elem_of_seqZ, list_elem_of_singleton. split; [lia|].
    apply NoDup_app. split; [apply NoDup_seqZ|]. split; [|apply NoDup_singleton].
    intros x Hx%elem_of_seqZ Hx'%list_elem_of_singleton. lia.
  - intros p v (h & Hh%Hrange & ->)%Hp. unfold parallel_path.
    rewrite elem_of_cons, elem_of_app, elem_of_seqZ, list_elem_of_singleton, Hnet. nia.
  - lia.
  - rewrite Hps, length_fmap. lia.
  - intros p (h & _ & ->)%Hp. unfold parallel_path. cbn [length]. rewrite length_app, length_seqZ. simpl. lia.
  - lia.
  - intros p (h & _ & ->)%Hp. unfold parallel_path. by rewrite app_comm_cons, last_snoc, Hsnk.
  - rewrite Hps. assert (omap (λ p : list Z, p !! 1%nat) (parallel_path N l <$> hs) = hs) as ->; [|done].
    clear -Hl. induction hs as [|h hs IH]; [done|]. rewrite fmap_cons. unfold omap in *. simpl.
    rewrite (seqZ_cons h) by lia. simpl. by rewrite IH.
Qed.

Section run.
Variables (N l K : Z).
Hypotheses (HN : 1 ≤ N) (Hl : 1 ≤ l) (HK : 1 ≤ K ≤ N).
Hypothesis Hlib : libraries N l.

(** The graph and the flow of the experiment. *)
Lemma experiment_flow rng :
  ∃ (g : G) f rng', build_n_parallel_graph N l = Ok (g, N * l, N * l + 1) ∧
    create_random_flow node_disjoint_paths np_randint choice_indices g N K 1 100 (N * l) (N * l + 1) 0 rng = (Ok f, rng') ∧
    length (paths f) = Z.to_nat N ∧ ph_K f = Z.to_nat K ∧ target_ok (nx_nodes g) f (Z.to_nat l) ∧
    fresh (nx_nodes g) [(0, f)] ((λ n, (n, [])) <$> nx_nodes g).
Proof.
  destruct (build_spec (G:=G) N l HN Hl) as (g & Hg & Hedges & Hnodes).
  destruct (most_disjoint_parallel N l HN Hl g Hedges _ (lib_paths _ _ Hlib g _ _ Hg)) as (hs & Hps & Hhs & Hnd & Hlen).
  destruct (lib_randint _ _ Hlib 1 101 rng) as (vol & rng1 & Hvol); [lia|].
  destruct (dr_paths _ _ _ (lib_draws _ _ Hlib) (length hs) (Z.to_nat K) rng1) as (act & rng2 & Hact & Hal & _ & Hall); [lia|].
  set (f := mkPHFlow 0 (N * l) (N * l + 1) vol (parallel_path N l <$> hs) act (Z.to_nat N) (Z.to_nat K) 0 [] 0 0).
  assert (target_ok (nx_nodes g) f (Z.to_nat l)) as Htarget.
  { eapply (parallel_target N l _ f hs); try done; [|simpl; lia]. intros x. by rewrite elem_of_nx_nodes, Hnodes. }
  exists g, f, rng2. split; [done|]. split; [|split; [simpl; by rewrite length_fmap|split; [done|split; [done|]]]].
  - unfold create_random_flow. rewrite (proj2 (Hnodes (N * l))) by nia. rewrite (proj2 (Hnodes (N * l + 1))) by nia.
    cbn [negb]. rewrite (bindS_run _ _ _ vol rng1) by exact Hvol. cbn zeta. rewrite Hps, length_fmap.
    rewrite bool_decide_eq_false_2 by lia. rewrite bool_decide_eq_false_2 by lia.
    unfold hop. cbn [init_flow fst paths ph_K]. rewrite length_fmap. by rewrite (bindS_run _ _ _ act rng2) by exact Hact.
  - split.
    + apply NoDup_singleton.
    + intros k f'. cbn [Dict.get]. case_decide; [|done]. intros [= <-]. split; [done|]. split; [apply (to_wf _ _ _ Htarget)|].
      split; [|done]. split; [done|]. simpl. by rewrite length_fmap.
    + apply nx_nodes_NoDup.
    + done.
Qed.

Lemma experiment_attackers g f n rng period :
  target_ok (nx_nodes (G:=G) g) f (Z.to_nat l) → ph_K f = Z.to_nat K → period ≠ 0 →
  ∃ ats rng', create_attackers choice_nodes choice_indices choice_one n (Z.to_nat K) (nx_nodes g) [(0, f)] period rng
      = (Ok ats, rng') ∧
    a_kind <$> ats = attacker_kinds ∧ Forall (tracked (nx_nodes g) f (λ _, []) 0 []) ats.
Proof.
  intros Hf HKf Hper. unfold create_attackers.
  destruct (foldS_prefix (λ kinds ats, a_kind <$> ats = kinds ∧ Forall (tracked (nx_nodes g) f (λ _, []) 0 []) ats)
    (λ acc kind, a ← create_attacker choice_nodes choice_indices choice_one kind n (Z.to_nat K) (nx_nodes g) [(0, f)] period;
       mret (acc ++ [a])) attacker_kinds) with (b := @nil Attacker) (s := rng) as (ats & rng' & Hrun & Hk & Hall).
  - intros l1 kind l2 acc s _ [Hk Hall].
    destruct (create_ready _ _ _ (lib_draws _ _ Hlib) (nx_nodes g) f _ Hf (nx_nodes_NoDup g) kind n (Z.to_nat K)
      (nx_nodes g) [(0, f)] f period s) as (a & s' & Ha & Hr & Hka & Hc & Hfix); [done|done|done|apply same_static_refl|done|].
    exists (acc ++ [a]), s'. rewrite (bindS_run _ _ _ a s') by exact Ha. split; [done|].
    rewrite fmap_app, Hk. split; [by rewrite <-Hka|]. apply Forall_app. split; [done|]. apply Forall_singleton. split.
    + done.
    + done.
    + intros sh. rewrite Hc. split; [by intros ?%elem_of_nil|]. intros (_ & t & ms & _ & Hms & _). by rewrite lookup_nil in Hms.
    + by intros ms ?%elem_of_nil.
    + intros Hkf. split; [apply Hfix; congruence|]. by intros ms ?%elem_of_nil.
  - split; [done|constructor].
  - by exists ats, rng'.
Qed.

Lemma experiment_run g f ats period T rng :
  target_ok (nx_nodes (G:=G) g) f (Z.to_nat l) → fresh (nx_nodes g) [(0, f)] ((λ n, (n, [])) <$> nx_nodes g) →
  Forall (tracked (nx_nodes g) f (λ _, []) 0 []) ats →
  ∃ sim rng' H Ws, run_simulation choice_nodes choice_indices choice_one T
      (mkSim period ((λ n, (n, [])) <$> nx_nodes g) [(0, f)] ats) rng = (Ok sim, rng') ∧
    sim_inv (nx_nodes g) f H (Z.to_nat T) Ws sim ∧ a_kind <$> attackers sim = a_kind <$> ats.
Proof.
  intros Hf Hfr Hats. unfold run_simulation.
  destruct (foldS_prefix (λ done sim, (∃ H Ws, sim_inv (nx_nodes g) f H (length done) Ws sim) ∧
      a_kind <$> attackers sim = a_kind <$> ats)
    (λ sim (_ : Z), step choice_nodes choice_indices choice_one sim) (seqZ 0 T))
    with (b := mkSim period ((λ n, (n, [])) <$> nx_nodes g) [(0, f)] ats) (s := rng)
    as (sim & rng' & Hrun & (H' & Ws & Hinv) & Hk).
  - intros l1 x l2 sim s _ [(H' & Ws & Hinv) Hk].
    destruct (step_inv _ _ _ (lib_draws _ _ Hlib) (nx_nodes g) f _ Hf (nx_nodes_NoDup g) H' _ Ws sim s Hinv)
      as (H2 & Ws2 & sim2 & s2 & Hstep & Hinv2 & Hk2).
    exists sim2, s2. split; [done|]. rewrite length_app, Nat.add_1_r. split; [by exists H2, Ws2|congruence].
  - split; [|done]. exists (λ _, []), (replicate (length ats) []). split; simpl.
    + by apply fresh_inv.
    + exists f. split; [done|apply same_static_refl].
    + intros k f'. by case_decide.
    + clear -Hats. induction Hats; simpl; by constructor.
  - rewrite length_seqZ in Hinv. by exists sim, rng', H', Ws.
Qed.
End run.

(** * The record *)

Lemma record_all sim t heap entries :
  NoDup entries.*1 → (∀ e, e ∈ entries → has_parameter t e.1 = false ∧ (e.2 < length (attackers sim))%nat) →
  ∃ t' recs, foldM (record_messages sim) (t, heap) entries = Ok (t', heap ++ recs) ∧
    (∀ i e, entries !! i = Some e → get_parameter t' e.1 = Ok (VObj (length heap + i)) ∧
       ∃ a, attackers sim !! e.2 = Some a ∧ recs !! i = Some (reconstruct_captured_messages a)) ∧
    ∀ name, name ∉ entries.*1 → get_parameter t' name = get_parameter t name.
Proof.
  intros Hnd Hok.
  destruct (foldM_prefix (λ l1 st, ∃ recs, st.2 = heap ++ recs ∧ length recs = length l1 ∧
      (∀ i e, l1 !! i = Some e → get_parameter st.1 e.1 = Ok (VObj (length heap + i)) ∧
         ∃ a, attackers sim !! e.2 = Some a ∧ recs !! i = Some (reconstruct_captured_messages a)) ∧
      ∀ name, name ∉ l1.*1 → get_parameter st.1 name = get_parameter t name)
    (record_messages sim) entries) with (b := (t, heap)) as ([t' heap'] & Hrun & recs & Hheap & _ & Hrec & Hother).
  - intros l1 e l2 [t1 h1] Hsplit (recs & Hh & Hlen & Hrec & Hother). cbn [fst snd] in *. subst h1.
    assert (e ∈ entries) as He by (rewrite Hsplit; set_solver). destruct (Hok e He) as [Hnew Hidx].
    assert (e.1 ∉ l1.*1) as Hfresh.
    { rewrite Hsplit, fmap_app, fmap_cons in Hnd. apply NoDup_app in Hnd as (_ & Hd & _). intros Hin. apply (Hd _ Hin). left. }
    destruct (lookup_lt_is_Some_2 _ _ Hidx) as [a Ha].
    unfold record_messages. rewrite Ha. cbn [or_raise mbind res_bind].
    assert (Dict.mem (parameters t1) e.1 = false) as Hmem.
    { pose proof (Hother _ Hfresh) as Hg. unfold get_parameter, has_parameter, Dict.mem in *.
      destruct (Dict.get (parameters t) e.1); [done|]. by destruct (Dict.get (parameters t1) e.1). }
    unfold add_parameter. rewrite Hmem. cbn [mbind res_bind]. eexists. split; [done|].
    exists (recs ++ [reconstruct_captured_messages a]). cbn [fst snd]. rewrite <-(assoc_L (++)), !length_app, Hlen.
    split; [done|]. split; [done|].
    assert (∀ name, get_parameter (set_parameters t1 (Dict.set (parameters t1) e.1 (VObj (length heap + length l1)))) name
      = if decide (e.1 = name) then Ok (VObj (length heap + length l1)) else get_parameter t1 name) as Hget.
    { intros name. unfold get_parameter. cbn [set_parameters parameters]. rewrite Dict.get_set. by case_decide. }
    split.
    + intros i e' [Hi|[Hge Hi]]%lookup_app_Some.
      * destruct (Hrec i e' Hi) as (Hp & a' & Ha' & Hr). rewrite Hget, decide_False.
        -- split; [done|]. exists a'. split; [done|]. by apply lookup_app_l_Some.
        -- intros Heq. apply Hfresh. rewrite Heq. apply list_elem_of_fmap. exists e'. split; [done|]. by eapply list_elem_of_lookup_2.
      * apply list_lookup_singleton_Some in Hi as [Hz <-]. replace i with (length l1) by lia.
        rewrite Hget, decide_True by done. split; [done|]. exists a. split; [done|].
        rewrite lookup_app_r by lia. by rewrite Hlen, Nat.sub_diag.
    + intros name Hname. rewrite Hget. rewrite fmap_app in Hname. rewrite decide_False by set_solver. apply Hother. set_solver.
  - exists []. rewrite app_nil_r. cbn [fst snd]. split; [done|]. split; [done|]. split; [|done]. intros i e Hi. by rewrite lookup_nil in Hi.
  - cbn [fst snd] in *. subst heap'. by exists t', recs.
Qed.

Lemma crosses_static f f' W n s p : same_static f f' → crosses_watched f' W n s p ↔ crosses_watched f W n s p.
Proof. intros (_ & H1 & H2 & H3 & _). unfold crosses_watched. by rewrite H1, H2, H3. Qed.

Lemma create_simulation_one g f : flow_id f = 0 →
  create_simulation (nx_nodes g) [f] = mkSim 1 ((λ n, (n, [])) <$> nx_nodes g) [(0, f)] [].
Proof.
  intros Hid. unfold create_simulation. rewrite Dict.of_pairs_NoDup; [cbn; by rewrite Hid|].
  rewrite <-list_fmap_compose. rewrite (list_fmap_ext _ id) by done. rewrite list_fmap_id. apply nx_nodes_NoDup.
Qed.

Lemma add_attackers s ats :
  foldl add_attacker s ats = mkSim (ticks s) (sim_nodes s) (sim_flows s) (attackers s ++ ats).
Proof.
  revert s. induction ats as [|a ats IH]; intros s; cbn [foldl]; [rewrite app_nil_r; by destruct s|].
  rewrite IH. cbn. by rewrite <-(assoc_L (++)).
Qed.

(** The recorded attackers are the first ones, in order. *)
Lemma recorded_position i e : recorded_attackers !! i = Some e → e.2 = i.
Proof. intros Hi. do 6 (destruct i as [|i]; [by injection Hi as <-|]). done. Qed.

End experiment.

(** ** An experiment: two of three paths of two nodes, for eight ticks *)

Definition demo_paths (g : list_graph Z) (s t : Z) : list (list Z) := [[6; 0; 1; 7]; [6; 2; 3; 7]; [6; 4; 5; 7]].
Definition demo_trial : Trial :=
  mkTrial 0 "demo" [("N", VInt 3); ("K", VInt 2); ("path_length", VInt 2); ("attacker_hop_period", VInt 1);
    ("seed_number", VInt 7); ("sim_duration", VInt 8)]%string.
Definition demo_take {A} (l : list A) (k : nat) : M unit (list A) := mret (take k l).
Definition demo_head (l : list Z) : M unit Z := mret (default 0 (head l)).

Lemma demo_libraries :
  libraries demo_paths (λ _ (u : unit), (Ok tt, u)) (λ a _ (u : unit), (Ok a, u)) demo_take demo_take demo_head 3 2.
Proof.
  split.
  - split.
    + exact demo_draws.
    + intros l k [] _ Hk. exists (take k l), tt. split; [done|]. rewrite length_take. split; [lia|].
      intros v (i & Hi & _)%elem_of_take. by eapply list_elem_of_lookup_2.
    + intros [|v l] [] Hne; [done|]. exists v, tt. split; [done|left].
  - intros z [] _. by exists tt.
  - intros a b [] _. by exists a, tt.
  - intros g s t Hg. destruct (build_spec (G := list_graph Z) 3 2) as (g' & Hg' & He & _); [lia..|].
    rewrite Hg in Hg'. injection Hg' as -> -> ->.
    exact (parallel_paths_most (G := list_graph Z) 3 2 ltac:(lia) ltac:(lia) g' He).
Qed.

