(* ===== verification/SimTrials.v ===== *)
(** The trials of the simulated experiments
    (path_hopping_simulator/trials.py): a provider has one trial for every
    combination of its varying parameters.

    [random.randint] is a parameter. The identity of a trial is its position
    in the provider. *)

From Stdlib Require Import Ascii.
From S2P Require Import Prelude PyDict PyStr PyText TrialStore.

Local Open Scope string_scope.

(** * Python's standard library *)

(** [s.format] with keyword arguments for integers and places [{name}]: it
    collects the name up to the closing brace. *)
Definition open_brace : ascii := ch 123.
Definition close_brace : ascii := ch 125.

Fixpoint str_format (params : dict string Z) (name : option string) (s : string) : res string :=
  match s with
  | EmptyString => match name with None => Ok EmptyString | Some _ => Raise ValueError end
  | String c s =>
      match name with
      | None =>
          if bool_decide (c = open_brace) then str_format params (Some EmptyString) s
          else rest ← str_format params None s; Ok (String c rest)
      | Some n =>
          if bool_decide (c = close_brace) then
            v ← Dict.getitem params n;
            rest ← str_format params None s;
            Ok (str_of_Z v +:+ rest)
          else str_format params (Some (n +:+ String c EmptyString)) s
      end
  end.

(** [itertools.product] *)
Fixpoint product {A} (ls : list (list A)) : list (list A) :=
  match ls with
  | [] => [[]]
  | l :: ls => concat ((λ x, (λ r, x :: r) <$> product ls) <$> l)
  end.

Section trials.
Context {RNG : Type}.
Variable randint : Z → Z → M RNG Z.

(** [Trial(name)]: its id is a random number. *)
Definition new_trial (oid : nat) (name : string) : M RNG Trial :=
  rand_id ← randint 0 (2 ^ 64); mret (init_trial oid name rand_id).

(** [{**parameter_pack, **per_trial_params}] with the index of the run. *)
Definition all_parameters (parameter_pack : list (string * Z)) (per_trial_params : dict string Z) (run_idx : nat)
    : dict string Z :=
  Dict.set (foldl (λ d kv, Dict.set d kv.1 kv.2) (Dict.of_pairs parameter_pack) per_trial_params)
    "run_idx" (Z.of_nat run_idx).

Definition add_parameters (t : Trial) (params : dict string Z) : res Trial :=
  foldM (λ t kv, add_parameter t kv.1 (VInt kv.2)) t params.

Definition mk_trial_provider_with_params (basis_params : list (list (string * Z))) (per_trial_params : dict string Z)
    (title_fmt_string provider_name : string) : M RNG TrialProvider :=
  foldS (λ the_trial_provider '(run_idx, parameter_pack),
    let params := all_parameters parameter_pack per_trial_params run_idx in
    title ← lift (str_format params None title_fmt_string);
    the_trial ← new_trial run_idx title;
    the_trial ← lift (add_parameters the_trial params);
    mret (add_trial the_trial_provider the_trial))
    (init_provider provider_name) (enumerate (product basis_params)).

(** [[rand.randint(0, 2**32) for _ in range(number_of_runs)]] *)
Definition seed_numbers (number_of_runs : nat) : M RNG (list Z) :=
  foldS (λ acc _, s ← randint 0 (2 ^ 32); mret (acc ++ [s])%list) [] (seq 0 number_of_runs).

(** [[(name, v) for v in range(1, 11)]] *)
Definition one_to_ten (name : string) : list (string * Z) := (λ v, (name, v)) <$> seqZ 1 10.

Definition varying (basis : string) (per_trial_params : dict string Z) (title_fmt_string provider_name : string)
    : M RNG TrialProvider :=
  seeds ← seed_numbers 10;
  mk_trial_provider_with_params [one_to_ten basis; (λ s, ("seed_number", s)) <$> seeds] per_trial_params
    title_fmt_string provider_name.

Definition varying_path_length_fast_hops : M RNG TrialProvider :=
  varying "path_length" [("K", 5); ("N", 10); ("attacker_hop_period", 1); ("sim_duration", 10 ^ 4)]%Z
    "path-length-{path_length}-run-{run_idx}" "sim-path-length-fast-hops".

Definition varying_path_length_slow_hops : M RNG TrialProvider :=
  varying "path_length" [("K", 5); ("N", 10); ("attacker_hop_period", 10); ("sim_duration", 10 ^ 4)]%Z
    "path-length-{path_length}-run-{run_idx}" "sim-path-length-slow-hops".

Definition varying_hop_period_long_paths : M RNG TrialProvider :=
  varying "attacker_hop_period" [("K", 5); ("N", 10); ("path_length", 10); ("sim_duration", 10 ^ 4)]%Z
    "hop-period-{attacker_hop_period}-run-{run_idx}" "sim-hop-period-long-paths".

Definition varying_hop_period_short_paths : M RNG TrialProvider :=
  varying "attacker_hop_period" [("K", 5); ("N", 10); ("path_length", 1); ("sim_duration", 10 ^ 4)]%Z
    "hop-period-{hop_period}-run-{run_idx}" "sim-hop-period-short-paths".

Definition delay_to_hop_period_ratio_testing : M RNG TrialProvider :=
  varying "path_length" [("K", 5); ("N", 10); ("attacker_hop_period", 5); ("sim_duration", 10 ^ 4)]%Z
    "path-length-{path_length}-run-{run_idx}" "sim-delay-to-hop-period-ratio-testing".

(** The two functions that vary the number of paths differ in the hop period
    and the name of the provider. *)
Definition number_of_paths_trial (hop_period number_of_paths seed_number : Z) (t : Trial) : res Trial :=
  add_parameters t [("path_length", 5); ("K", number_of_paths / 2); ("N", number_of_paths);
    ("attacker_hop_period", hop_period); ("seed_number", seed_number); ("sim_duration", 10 ^ 4)]%Z.

Definition varying_number_of_paths (hop_period : Z) (provider_name : string) : M RNG TrialProvider :=
  foldS (λ the_trial_provider number_of_paths,
    seeds ← seed_numbers 10;
    foldS (λ the_trial_provider '(run_idx, seed_number),
      the_trial ← new_trial (length (trials the_trial_provider))
        ("number-of-paths-" +:+ str_of_Z number_of_paths +:+ "-run-" +:+ str_of_Z (Z.of_nat run_idx));
      the_trial ← lift (number_of_paths_trial hop_period number_of_paths seed_number the_trial);
      mret (add_trial the_trial_provider the_trial)) the_trial_provider (enumerate seeds))
    (init_provider provider_name) ((λ i, i * 10)%Z <$> seqZ 1 10).

Definition varying_number_of_paths_slow_hopping : M RNG TrialProvider :=
  varying_number_of_paths 10 "sim-number-of-paths-slow-hops".
Definition varying_number_of_paths_fast_hopping : M RNG TrialProvider :=
  varying_number_of_paths 1 "sim-number-of-paths-fast-hops".
End trials.

(** * Theorems

    The providers of the simulated experiments: six of them have a hundred
    trials that the experiment can run, the seventh cannot be made. *)

From S2P Require Import SimExperiment SimExperimentProps.

Close Scope string_scope.

Lemma length_product2 {A} (l1 l2 : list A) : length (product [l1; l2]) = length l1 * length l2.
Proof.
  cbn [product]. assert (length (concat ((λ x, (λ r, x :: r) <$> [[]]) <$> l2)) = length l2) as H2.
  { induction l2 as [|y l2 IH]; [done|]. rewrite fmap_cons. cbn [concat]. rewrite length_app, IH. done. }
  induction l1 as [|x l1 IH]; [done|]. rewrite fmap_cons. cbn [concat length].
  rewrite length_app, IH, length_fmap, H2. lia.
Qed.

Lemma elem_of_product2 {A} (l1 l2 : list A) r : r ∈ product [l1; l2] → ∃ x y, r = [x; y] ∧ x ∈ l1 ∧ y ∈ l2.
Proof.
  cbn [product]. rewrite list_elem_of_In, in_concat. intros (k & Hk%list_elem_of_In & Hr%list_elem_of_In).
  apply list_elem_of_fmap in Hk as (x & -> & Hx). apply list_elem_of_fmap in Hr as (r' & -> & Hr').
  rewrite list_elem_of_In, in_concat in Hr'. destruct Hr' as (k & Hk%list_elem_of_In & Hr%list_elem_of_In).
  apply list_elem_of_fmap in Hk as (y & -> & Hy). apply list_elem_of_singleton in Hr as ->. by exists x, y.
Qed.

(** The parameters are added one by one. *)
Lemma add_parameters_spec params t :
  Dict.wf params → (∀ k, k ∈ Dict.keys params → has_parameter t k = false) →
  ∃ t', add_parameters t params = Ok t' ∧
    ∀ k, get_parameter t' k = match Dict.get params k with Some v => Ok (VInt v) | None => get_parameter t k end.
Proof.
  unfold Dict.wf, Dict.keys, add_parameters. revert t. induction params as [|[k v] params IH]; intros t Hnd Hnew; [by exists t|].
  rewrite fmap_cons in *. apply NoDup_cons in Hnd as [Hk Hnd]. cbn [foldM fst snd] in *.
  assert (Dict.mem (parameters t) k = false) as Hm by (apply Hnew; left).
  assert (add_parameter t k (VInt v) = Ok (set_parameters t (Dict.set (parameters t) k (VInt v)))) as ->
    by (unfold add_parameter; by rewrite Hm).
  cbn [mbind res_bind].
  assert (∀ j, Dict.get (Dict.set (parameters t) k (VInt v)) j = if decide (k = j) then Some (VInt v) else Dict.get (parameters t) j)
    as Hget by (intros j; apply Dict.get_set).
  destruct (IH (set_parameters t (Dict.set (parameters t) k (VInt v))) Hnd) as (t' & Ht' & Hspec).
  { intros j Hj. unfold has_parameter, Dict.mem. cbn [parameters set_parameters]. rewrite Hget, decide_False by (intros ->; done).
    apply Hnew. by right. }
  exists t'. split; [done|]. intros j. rewrite Hspec. cbn [Dict.get]. unfold get_parameter. cbn [parameters set_parameters].
  rewrite Hget. destruct (decide (j = k)) as [->|Hne].
  - rewrite decide_True by done. by rewrite (proj2 (Dict.get_None params k) Hk).
  - destruct (Dict.get params j); [done|]. by rewrite decide_False.
Qed.

(** A set of parameters with which a trial is runnable, whatever its name
    and id, if its seed is one that numpy takes. *)
Record complete (params : dict string Z) (N K l period T seed : Z) : Prop := {
  co_wf : Dict.wf params;
  co_names : ∀ k, k ∈ Dict.keys params → k ≠ "trial-name"%string ∧ k ≠ "id"%string ∧ k ∉ recorded_attackers.*1;
  co_N : Dict.get params "N"%string = Some N;
  co_K : Dict.get params "K"%string = Some K;
  co_seed : Dict.get params "seed_number"%string = Some seed;
  co_length : Dict.get params "path_length"%string = Some l;
  co_period : Dict.get params "attacker_hop_period"%string = Some period;
  co_duration : Dict.get params "sim_duration"%string = Some T;
  co_range : (1 ≤ K ≤ N ∧ 1 ≤ l ∧ period ≠ 0)%Z
}.

(** A trial that is runnable if numpy takes its seed, a number that is too
    large by at most one. *)
Definition seeded (t : Trial) : Prop :=
  ∃ N K l period T seed, int_parameter t "seed_number" = Ok seed ∧ (0 ≤ seed ≤ 2 ^ 32)%Z ∧
    (seed ≠ (2 ^ 32)%Z → runnable t N K l period T).

Lemma recorded_names e : e ∈ recorded_attackers → e.1 ≠ "trial-name"%string ∧ e.1 ≠ "id"%string.
Proof. revert e. apply Forall_forall, (bool_decide_unpack _). by vm_compute. Qed.

Lemma complete_seeded params N K l period T seed oid name id :
  complete params N K l period T seed → (0 ≤ seed ≤ 2 ^ 32)%Z →
  ∃ t, add_parameters (init_trial oid name id) params = Ok t ∧ seeded t.
Proof.
  intros [Hwf Hn HN HK Hs Hl Hp HT (HR & Hl1 & Hp0)] Hrange.
  assert (∀ k, k ≠ "trial-name"%string → k ≠ "id"%string → Dict.get (parameters (init_trial oid name id)) k = None) as Hinit.
  { intros k H1 H2. cbn. by rewrite !decide_False. }
  destruct (add_parameters_spec params (init_trial oid name id) Hwf) as (t & Ht & Hget).
  { intros k (H1 & H2 & _)%Hn. unfold has_parameter, Dict.mem. by rewrite Hinit. }
  assert (∀ k v, Dict.get params k = Some v → int_parameter t k = Ok v) as Hint.
  { intros k v Hk. unfold int_parameter. by rewrite Hget, Hk. }
  exists t. split; [done|]. exists N, K, l, period, T, seed. split; [by apply Hint|]. split; [done|].
  intros Hne. split; [by apply Hint|by apply Hint| |by apply Hint|by apply Hint|by apply Hint|lia|done|done|].
  - exists seed. split; [by apply Hint|lia].
  - intros e He. assert (e.1 ∈ recorded_attackers.*1) as Hin by (apply list_elem_of_fmap; by exists e).
    specialize (Hget e.1). unfold get_parameter in Hget. unfold has_parameter, Dict.mem.
    destruct (Dict.get params e.1) as [v|] eqn:E.
    { exfalso. assert (e.1 ∈ Dict.keys params) as (_ & _ & Hno)%Hn by (apply Dict.elem_of_keys; eauto). done. }
    destruct (recorded_names e He) as [H1 H2].
    rewrite (Hinit _ H1 H2) in Hget. by destruct (Dict.get (parameters t) e.1).
Qed.

Section providers.
Context {RNG : Type}.
Variable randint : Z → Z → M RNG Z.
Hypothesis randint_total : ∀ a b rng, (a ≤ b)%Z → ∃ z rng', randint a b rng = (Ok z, rng') ∧ (a ≤ z ≤ b)%Z.

Lemma seed_numbers_total n rng :
  ∃ seeds rng', seed_numbers randint n rng = (Ok seeds, rng') ∧ length seeds = n ∧ Forall (λ s, 0 ≤ s ≤ 2 ^ 32)%Z seeds.
Proof.
  unfold seed_numbers. destruct (foldS_prefix (λ l1 acc, length acc = length l1 ∧ Forall (λ s, 0 ≤ s ≤ 2 ^ 32)%Z acc)
    (λ acc (_ : nat), s ← randint 0 (2 ^ 32); mret (acc ++ [s])) (seq 0 n)) with (b := @nil Z) (s := rng)
    as (seeds & rng' & Hrun & Hlen & Hall).
  - intros l1 x l2 acc s _ [Hlen Hall]. destruct (randint_total 0 (2 ^ 32) s) as (z & s' & Hz & Hr); [lia|].
    exists (acc ++ [z]), s'. rewrite (bindS_run _ _ _ z s') by exact Hz. split; [done|]. rewrite !length_app, Hlen.
    split; [done|]. apply Forall_app. split; [done|]. by apply Forall_singleton.
  - by split; [|constructor].
  - exists seeds, rng'. split; [exact Hrun|]. by rewrite Hlen, length_seq.
Qed.

Lemma new_trial_total oid name rng : ∃ id rng', new_trial randint oid name rng = (Ok (init_trial oid name id), rng').
Proof.
  destruct (randint_total 0 (2 ^ 64) rng) as (z & rng' & Hz & _); [lia|]. exists z, rng'. unfold new_trial.
  by rewrite (bindS_run _ _ _ z rng') by exact Hz.
Qed.

(** A provider of such trials. *)
Definition provides (m : M RNG TrialProvider) (name : string) (count : nat) : Prop :=
  ∀ rng, ∃ p rng', m rng = (Ok p, rng') ∧ provider_name p = name ∧ length (trials p) = count ∧ Forall seeded (trials p).

Lemma mk_provider_seeded basis per title name :
  (∀ i pack, pack ∈ product basis → ∃ s N K l period T seed, (0 ≤ seed ≤ 2 ^ 32)%Z ∧
     str_format (all_parameters pack per i) None title = Ok s ∧ complete (all_parameters pack per i) N K l period T seed) →
  provides (mk_trial_provider_with_params randint basis per title name) name (length (product basis)).
Proof.
  intros Hpack rng. unfold mk_trial_provider_with_params.
  destruct (foldS_prefix (λ l1 p, provider_name p = name ∧ length (trials p) = length l1 ∧ Forall seeded (trials p))
    (λ p '(run_idx, pack), let params := all_parameters pack per run_idx in
      title ← lift (str_format params None title); t ← new_trial randint run_idx title;
      t ← lift (add_parameters t params); mret (add_trial p t)) (enumerate (product basis)))
    with (b := init_provider name) (s := rng) as (p & rng' & Hrun & Hname & Hlen & Hall).
  - intros l1 [i pack] l2 p s Hsplit (Hname & Hlen & Hall).
    assert (pack ∈ product basis) as Hin.
    { assert ((i, pack) ∈ enumerate (product basis)) as Hi by (rewrite Hsplit; set_solver).
      apply elem_of_enumerate in Hi. by eapply list_elem_of_lookup_2. }
    destruct (Hpack i pack Hin) as (str & N & K & l & period & T & seed & Hr & Hfmt & Hco). cbn zeta.
    rewrite (bindS_run _ _ _ str s) by (unfold lift; by rewrite Hfmt).
    destruct (new_trial_total i str s) as (id & s1 & Ht). rewrite (bindS_run _ _ _ _ s1) by exact Ht.
    destruct (complete_seeded _ _ _ _ _ _ _ i str id Hco Hr) as (t & Hadd & Hrun).
    rewrite (bindS_run _ _ _ t s1) by (unfold lift; by rewrite Hadd).
    exists (add_trial p t), s1. split; [done|]. unfold add_trial, with_trials. cbn [provider_name trials].
    split; [done|]. rewrite !length_app, Hlen. split; [done|]. apply Forall_app. split; [done|].
    by apply Forall_singleton.
  - split; [done|]. split; [done|constructor].
  - exists p, rng'. split; [exact Hrun|]. by rewrite length_enumerate in Hlen.
Qed.

(** The providers that vary one parameter from 1 to 10. *)
Lemma varying_seeded basis per title name :
  (∀ v s i, (1 ≤ v ≤ 10)%Z → ∃ str N K l period T,
     str_format (all_parameters [(basis, v); ("seed_number"%string, s)] per i) None title = Ok str ∧
     complete (all_parameters [(basis, v); ("seed_number"%string, s)] per i) N K l period T s) →
  provides (varying randint basis per title name) name 100.
Proof.
  intros Hpack rng. unfold varying. destruct (seed_numbers_total 10 rng) as (seeds & rng1 & Hs & Hlen & Hseeds).
  rewrite (bindS_run _ _ _ seeds rng1) by exact Hs.
  destruct (mk_provider_seeded [one_to_ten basis; (λ s, ("seed_number"%string, s)) <$> seeds] per title name) with (rng := rng1)
    as (p & rng' & Hrun & Hname & Hl & Hall).
  - intros i pack (x & y & -> & Hx & Hy)%elem_of_product2. unfold one_to_ten in Hx.
    apply list_elem_of_fmap in Hx as (v & -> & Hv%elem_of_seqZ). apply list_elem_of_fmap in Hy as (s & -> & Hsin).
    rewrite Forall_forall in Hseeds. destruct (Hpack v s i) as (str & N & K & l & period & T & H1 & H2); [lia|].
    exists str, N, K, l, period, T, s. split; [by apply Hseeds|]. done.
  - exists p, rng'. split; [exact Hrun|]. split; [done|]. split; [|done].
    rewrite Hl, length_product2. unfold one_to_ten. by rewrite !length_fmap, Hlen.
Qed.

(** The providers that vary the number of paths. *)
Lemma number_of_paths_complete hop n seed : (10 ≤ n)%Z → hop ≠ 0%Z →
  complete [("path_length", 5); ("K", n / 2); ("N", n); ("attacker_hop_period", hop);
    ("seed_number", seed); ("sim_duration", 10 ^ 4)]%string%Z n (n / 2) 5 hop (10 ^ 4) seed.
Proof.
  intros Hn Hhop. split; try done.
  - apply (bool_decide_unpack _). by vm_compute.
  - apply Forall_forall, (bool_decide_unpack _). by vm_compute.
  - split; [|done]. split; [apply Z.div_le_lower_bound; lia|]. apply Z.div_le_upper_bound; lia.
Qed.

Lemma varying_number_of_paths_seeded hop name : hop ≠ 0%Z →
  provides (varying_number_of_paths randint hop name) name 100.
Proof.
  intros Hhop rng. unfold varying_number_of_paths.
  set (inv := λ (p : TrialProvider) n, provider_name p = name ∧ length (trials p) = n ∧ Forall seeded (trials p)).
  set (body := λ (n : Z) (the_trial_provider : TrialProvider) '(run_idx, seed_number),
      the_trial ← new_trial randint (length (trials the_trial_provider))
        ("number-of-paths-" +:+ str_of_Z n +:+ "-run-" +:+ str_of_Z (Z.of_nat run_idx));
      the_trial ← lift (number_of_paths_trial hop n seed_number the_trial);
      mret (add_trial the_trial_provider the_trial)).
  assert (∀ n p s seeds count, (10 ≤ n)%Z → inv p count → Forall (λ s, 0 ≤ s ≤ 2 ^ 32)%Z seeds →
    ∃ p' s', foldS (body n) p (enumerate seeds) s = (Ok p', s') ∧ inv p' (count + length seeds)) as Hinner.
  { intros n p s seeds count Hn Hp Hseeds.
    destruct (foldS_prefix (λ l1 p, inv p (count + length l1)) (body n) (enumerate seeds)) with (b := p) (s := s)
      as (p' & s' & Hrun & Hinv).
    - intros l1 [i seed] l2 q s1 Hsplit (Hq1 & Hq2 & Hq3). cbn [body].
      destruct (new_trial_total (length (trials q)) ("number-of-paths-" +:+ str_of_Z n +:+ "-run-" +:+ str_of_Z (Z.of_nat i)) s1)
        as (id & s2 & Ht). rewrite (bindS_run _ _ _ _ s2) by exact Ht.
      destruct (complete_seeded _ _ _ _ _ _ _ (length (trials q))
        ("number-of-paths-" +:+ str_of_Z n +:+ "-run-" +:+ str_of_Z (Z.of_nat i)) id
        (number_of_paths_complete hop n seed Hn Hhop)) as (t & Hadd & Hok).
      { rewrite Forall_forall in Hseeds. apply Hseeds. assert ((i, seed) ∈ enumerate seeds) as Hi by (rewrite Hsplit; set_solver).
        apply elem_of_enumerate in Hi. by eapply list_elem_of_lookup_2. }
      rewrite (bindS_run _ _ _ t s2) by (unfold lift, number_of_paths_trial; by rewrite Hadd).
      exists (add_trial q t), s2. split; [done|]. unfold inv, add_trial, with_trials. cbn [provider_name trials].
      split; [done|]. rewrite !length_app, Hq2. split; [simpl; lia|]. apply Forall_app. split; [done|]. by apply Forall_singleton.
    - by rewrite Nat.add_0_r.
    - exists p', s'. split; [exact Hrun|]. by rewrite length_enumerate in Hinv. }
  destruct (foldS_prefix (λ l1 p, inv p (length l1 * 10))
    (λ p n, seeds ← seed_numbers randint 10; foldS (body n) p (enumerate seeds)) ((λ i, i * 10)%Z <$> seqZ 1 10))
    with (b := init_provider name) (s := rng) as (p & rng' & Hrun & Hinv).
  - intros l1 n l2 q s Hsplit Hq. destruct (seed_numbers_total 10 s) as (seeds & s1 & Hs & Hlen & Hseeds).
    rewrite (bindS_run _ _ _ seeds s1) by exact Hs.
    assert (10 ≤ n)%Z as Hn.
    { assert (n ∈ ((λ i, i * 10)%Z <$> seqZ 1 10)) as Hin by (rewrite Hsplit; set_solver).
      apply list_elem_of_fmap in Hin as (i & -> & Hi%elem_of_seqZ). lia. }
    destruct (Hinner n q s1 seeds _ Hn Hq Hseeds) as (q' & s2 & Hrun & Hinv). exists q', s2. split; [exact Hrun|].
    rewrite Hlen in Hinv. rewrite length_app. cbn [length]. by replace ((length l1 + 1) * 10) with (length l1 * 10 + 10) by lia.
  - split; [done|]. split; [done|constructor].
  - exists p, rng'. split; [exact Hrun|]. done.
Qed.

(** The parameters of the providers that vary one. *)
Ltac complete_parameters :=
  let v := fresh "v" in let s := fresh "s" in let i := fresh "i" in let Hv := fresh "Hv" in
  intros v s i Hv; eexists; do 5 eexists;
  split; [cbv -[str_of_Z Z.of_nat String.append]; reflexivity|];
  split; [apply (bool_decide_unpack _); by vm_compute|apply Forall_forall, (bool_decide_unpack _); by vm_compute
         |reflexivity|reflexivity|reflexivity|reflexivity|reflexivity|reflexivity|cbn; lia].

(** C24: The providers of the simulated experiments. With Python's
    [random.randint] drawing from its closed range, each of six of the
    providers has 100 trials, and each trial is [runnable] if its seed is not
    [2 ** 32], the one number of the range that numpy does not take as a
    seed. The seventh, [varying_hop_period_short_paths], raises [KeyError]:
    its title names the parameter [hop_period], which no trial has. *)
Theorem sim_trials_runnable :
  provides (varying_path_length_fast_hops randint) "sim-path-length-fast-hops" 100 ∧
  provides (varying_path_length_slow_hops randint) "sim-path-length-slow-hops" 100 ∧
  provides (varying_hop_period_long_paths randint) "sim-hop-period-long-paths" 100 ∧
  provides (delay_to_hop_period_ratio_testing randint) "sim-delay-to-hop-period-ratio-testing" 100 ∧
  provides (varying_number_of_paths_slow_hopping randint) "sim-number-of-paths-slow-hops" 100 ∧
  provides (varying_number_of_paths_fast_hopping randint) "sim-number-of-paths-fast-hops" 100 ∧
  ∀ rng, ∃ rng', varying_hop_period_short_paths randint rng = (Raise KeyError, rng').
Proof.
  split; [apply varying_seeded; complete_parameters|].
  split; [apply varying_seeded; complete_parameters|].
  split; [apply varying_seeded; complete_parameters|].
  split; [apply varying_seeded; complete_parameters|].
  split; [by apply varying_number_of_paths_seeded|].
  split; [by apply varying_number_of_paths_seeded|].
  intros rng. unfold varying_hop_period_short_paths, varying.
  destruct (seed_numbers_total 10 rng) as ([|s seeds] & rng1 & Hs & Hlen & _); [done|].
  rewrite (bindS_run _ _ _ _ rng1) by exact Hs. exists rng1. reflexivity.
Qed.
End providers.

Lemma sim_trials_runnable_witness :
  ∃ p, varying_path_length_fast_hops (λ a _ (n : nat), (Ok a, n)) 0 = (Ok p, 0) ∧ length (trials p) = 100 ∧
    Forall seeded (trials p) ∧ varying_hop_period_short_paths (λ a _ (n : nat), (Ok a, n)) 0 = (Raise KeyError, 0).
Proof.
  destruct (sim_trials_runnable (λ a _ (n : nat), (Ok a, n))) as (H1 & _ & _ & _ & _ & _ & H7).
  - intros a b n Hab. exists a, n. split; [reflexivity|lia].
  - destruct (H1 0) as (p & n & Hp & _ & Hlen & Hall). destruct (H7 0) as (n' & H7').
    exists p. split; [|split; [exact Hlen|split; [exact Hall|vm_compute; reflexivity]]].
    assert ((varying_path_length_fast_hops (λ a _ (n : nat), (Ok a, n)) 0).2 = 0) as Hn by (vm_compute; reflexivity).
    rewrite Hp in Hn. cbn in Hn. by subst n.
Defined.
