(* ===== verification/AttackerTest.v ===== *)
(** The attacker tests on the testbed: path_hopping_attacker_testing.py, the
    packet capture of nw_control/packet_capture.py and the trials of
    attacker_tests/trials.py. A test runs a sender and a receiver on two
    virtual hosts while the interface is captured and the links are
    monitored.

    Files, the clock, the keyboard and shell commands are the interface
    [TestEnv], Python's [eval] of the packet list and [str] of an object are
    parameters. Waiting and printing are not modelled. *)

From Stdlib Require Import Ascii.
From S2P Require Import Prelude PyDict PyStr PyFloat PyText Accum TopoMapper StatMonitor TrialStore VirtualHost PathHoppingTrial.

Class TestEnv (W F : Type) : Type := {
  env_randint : Z → Z → M W Z;
  env_time : M W F;
  env_read_text : string → M W string;
  env_unlink : string → M W unit;
  env_input : M W unit;
  env_shell : list string → M W string
}.

Local Open Scope string_scope.

(** * packet_capture.py *)

(** The seven fields of a packet; their values are not looked at. *)
Record PacketInfo (L : Type) : Type := mkPacketInfo {
  pk_source_ip : L;
  pk_destination_ip : L;
  pk_source_port : L;
  pk_destination_port : L;
  pk_seq_num : L;
  pk_share_num : L;
  pk_timestamp : L
}.
Arguments mkPacketInfo {L} _ _ _ _ _ _ _.

(** [PacketInfo] of the members of [t_i]. *)
Definition packet_info {L} (t : list L) : res (PacketInfo L) :=
  match t with
  | [a; b; c; d; e; f; g] => Ok (mkPacketInfo a b c d e f g)
  | _ => Raise TypeError
  end.

Record InterfaceCapture : Type := mkCapture {
  cap_iface_name : string;
  cap_tcpdump_process : option nat;
  cap_file_name : string
}.

Definition PROCESS_CAP_BIN : string :=
  "/home/cpsc-net-user/repos/physical-testbed-testing/pcap-analysis/src/cap_analysis".
Definition PROCESS_CAP_OUT_FILE : string := "/home/cpsc-net-user/repos/cpsc_of_testbed/rest_client/output.txt".
Definition CAPTURE_OUTPUT_FILE_PATH : string := "/home/cpsc-net-user/capture-files/".

Section capture.
Context {W F L : Type} `{HostEnv W} `{TestEnv W F}.
Variable eval_literal : string → res (list (list L)).

Definition read_literal_from_file (file_path : string) : M W (list (list L)) :=
  file_bytes ← env_read_text file_path; lift (eval_literal file_bytes).

Definition read_packet_dump_info_from_file (file_path : string) : M W (list (PacketInfo L)) :=
  list_literal ← read_literal_from_file file_path; lift (mapR packet_info list_literal).

Definition init_capture (iface : string) : M W InterfaceCapture :=
  n ← env_randint 0 (2 ^ 32);
  mret (mkCapture iface None (CAPTURE_OUTPUT_FILE_PATH +:+ "cap-file-" +:+ str_of_Z n +:+ ".pcap")).

Definition build_tcpdump_cmd (iface capture_file : string) : list string :=
  str_split space ("tcpdump -i " +:+ iface +:+ " -w " +:+ capture_file).

Definition start_capture : M (InterfaceCapture * W) unit :=
  self ← gets fst;
  let tcpdump_cmd := build_tcpdump_cmd (cap_iface_name self) (cap_file_name self) in
  if bool_decide (cap_tcpdump_process self ≠ None) then lift (Raise ValueError)
  else
    process ← on_world (popen tcpdump_cmd);
    set_self (λ self, mkCapture (cap_iface_name self) (Some process) (cap_file_name self)).

Definition stop_capture : M (InterfaceCapture * W) unit :=
  self ← gets fst;
  match cap_tcpdump_process self with
  | None => lift (Raise ValueError)
  | Some process =>
      on_world (terminate process) ≫= λ _,
      set_self (λ self, mkCapture (cap_iface_name self) None (cap_file_name self))
  end.

Definition is_capture_running (self : InterfaceCapture) : bool := bool_decide (cap_tcpdump_process self ≠ None).

Definition process_capture_data : M (InterfaceCapture * W) (list (PacketInfo L)) :=
  self ← gets fst;
  let cap_analysis_cmd := str_split space (PROCESS_CAP_BIN +:+ " " +:+ cap_file_name self) in
  cap_analysis_proc ← on_world (popen cap_analysis_cmd);
  on_world (process_wait cap_analysis_proc) ≫= λ _,
  on_world (read_packet_dump_info_from_file PROCESS_CAP_OUT_FILE).
End capture.

(** * path_hopping_attacker_testing.py *)

(** The objects that are parameters of the trials. *)
Inductive test_object (F L : Type) : Type :=
  | TPath (p : string)
  | TPackets (packets : list (PacketInfo L))
  | TByteCounts (counts : list (list IfaceStats))
  | TLinkRates (rates : list (dict link_key F))
  | TSeconds (t : F)
  | TTimes (times : list Z).
Arguments TPath {F L} _.
Arguments TPackets {F L} _.
Arguments TByteCounts {F L} _.
Arguments TLinkRates {F L} _.
Arguments TSeconds {F L} _.
Arguments TTimes {F L} _.

(** The variables of [conduct_path_hopping_trial]. *)
Record TestRun (F L : Type) : Type := mkTestRun {
  ts_sender : option PathHoppingHost;
  ts_receiver : option PathHoppingHost;
  ts_capture : option InterfaceCapture;
  ts_monitor : OnMonitor;
  ts_trial : Trial;
  ts_heap : list (test_object F L)
}.
Arguments mkTestRun {F L} _ _ _ _ _ _.
Arguments ts_sender {F L} _.
Arguments ts_receiver {F L} _.
Arguments ts_capture {F L} _.
Arguments ts_monitor {F L} _.
Arguments ts_trial {F L} _.
Arguments ts_heap {F L} _.

(** The copy of the driver's function, without its print. *)
Definition test_link_utilization_over_time {F} `{PyFloat F} (link_byte_counts : list (list IfaceStats))
    : list (dict link_key F) :=
  (λ '(t_0, t_1), (λ kv, (kv.1, ph_compute_tx_rate kv.2)) <$> ph_byte_count_delta t_0 t_1)
    <$> pairwise link_byte_counts.

Section pair.
Context {W : Type} `{HostEnv W}.

Definition destroy_member (host : option PathHoppingHost) : M W unit := λ w,
  match host with
  | Some host => let '(r, (_, w)) := ph_destroy_virtual_host (host, w) in (r, w)
  | None => (Ok tt, w)
  end.

Definition destroy_sender_receiver_pair (sender receiver : option PathHoppingHost) : M W unit :=
  destroy_member sender ≫= λ _, destroy_member receiver.

(** One round of the loop: the two hosts and [last_ex]. *)
Abbreviation Attempt := (option PathHoppingHost * option PathHoppingHost * option exn)%type.

Definition failed_attempt (sender receiver : option PathHoppingHost) (ex : exn) : M W Attempt :=
  destroy_sender_receiver_pair sender receiver ≫= λ _, mret (sender, receiver, Some ex).

Definition create_member (id_to_dpid : dict Z string) (host_id : Z) : M W PathHoppingHost :=
  dpid ← lift (Dict.getitem id_to_dpid (host_id - 1)%Z);
  ph_create_virtual_host host_id ("00:02:00:00:00:" +:+ fmt_02d host_id) ("10.10.0." +:+ str_of_Z host_id)
    ("192.168.1." +:+ str_of_Z host_id) dpid.

Definition create_attempt (id_to_dpid : dict Z string) (acc : Attempt) : M W Attempt := λ w,
  let '(sender_host, receiver_host, last_ex) := acc in
  match create_member id_to_dpid 1 w with
  | (Raise ex, w) => failed_attempt sender_host receiver_host ex w
  | (Ok sender_host, w) =>
      match create_member id_to_dpid 2 w with
      | (Raise ex, w) => failed_attempt (Some sender_host) receiver_host ex w
      | (Ok receiver_host, w) => (Ok (Some sender_host, Some receiver_host, last_ex), w)
      end
  end.

Definition CREATE_VHOST_RETRY_COUNT : nat := 1.

(** [raise None] is a [TypeError]. *)
Definition create_sender_receiver_pair (id_to_dpid : dict Z string) : M W (PathHoppingHost * PathHoppingHost) :=
  '(sender_host, receiver_host, last_ex) ← foldS (λ acc _, create_attempt id_to_dpid acc) (None, None, None)
    (seq 0 CREATE_VHOST_RETRY_COUNT);
  match sender_host, receiver_host with
  | Some sender_host, Some receiver_host => mret (sender_host, receiver_host)
  | _, _ => lift (Raise (default TypeError last_ex))
  end.
End pair.

Section test.
Context {W F L : Type} `{HostEnv W} `{TestEnv W F} `{PyFloat F}.
Variable eval_literal : string → res (list (list L)).
Variable str_object : test_object F L → string.
Abbreviation State := (TestRun F L * W)%type.

Definition stringify (heap : list (test_object F L)) (v : value) : string :=
  match v with
  | VStr s => s
  | VInt z => str_of_Z z
  | VObj oid =>
      match heap !! oid with
      | Some (TPath p) => p
      | Some o => str_object o
      | None => EmptyString
      end
  end.

(** The value of a keyword argument; every parameter is read before any is
    passed. *)
Definition kwarg (name : string) : M State string :=
  st ← gets fst;
  v ← lift (get_parameter (ts_trial st) name);
  mret (stringify (ts_heap st) v).

(** A method of the sender, the receiver, the capture or the monitor. The
    driver calls them when the variable is set. *)
Definition on_sender {A} (m : M (PathHoppingHost * W) A) : M State A := λ s,
  match ts_sender s.1 with
  | None => (Raise AttributeError, s)
  | Some h =>
      let '(r, (h, w)) := m (h, s.2) in
      (r, (mkTestRun (Some h) (ts_receiver s.1) (ts_capture s.1) (ts_monitor s.1) (ts_trial s.1) (ts_heap s.1), w))
  end.
Definition on_receiver {A} (m : M (PathHoppingHost * W) A) : M State A := λ s,
  match ts_receiver s.1 with
  | None => (Raise AttributeError, s)
  | Some h =>
      let '(r, (h, w)) := m (h, s.2) in
      (r, (mkTestRun (ts_sender s.1) (Some h) (ts_capture s.1) (ts_monitor s.1) (ts_trial s.1) (ts_heap s.1), w))
  end.
Definition on_capture {A} (m : M (InterfaceCapture * W) A) : M State A := λ s,
  match ts_capture s.1 with
  | None => (Raise AttributeError, s)
  | Some c =>
      let '(r, (c, w)) := m (c, s.2) in
      (r, (mkTestRun (ts_sender s.1) (ts_receiver s.1) (Some c) (ts_monitor s.1) (ts_trial s.1) (ts_heap s.1), w))
  end.
Definition on_test_monitor {A} (m : M (OnMonitor * W) A) : M State A := λ s,
  let '(r, (mon, w)) := m (ts_monitor s.1, s.2) in
  (r, (mkTestRun (ts_sender s.1) (ts_receiver s.1) (ts_capture s.1) mon (ts_trial s.1) (ts_heap s.1), w)).

Definition set_pair (p : PathHoppingHost * PathHoppingHost) (st : TestRun F L) : TestRun F L :=
  mkTestRun (Some p.1) (Some p.2) (ts_capture st) (ts_monitor st) (ts_trial st) (ts_heap st).
Definition set_capture (c : InterfaceCapture) (st : TestRun F L) : TestRun F L :=
  mkTestRun (ts_sender st) (ts_receiver st) (Some c) (ts_monitor st) (ts_trial st) (ts_heap st).

(** [the_trial.add_parameter(name, o)] for a new object [o]. *)
Definition add_test_object (name : string) (o : test_object F L) : M State unit := λ s,
  match add_parameter (ts_trial s.1) name (VObj (length (ts_heap s.1))) with
  | Raise e => (Raise e, s)
  | Ok trial => (Ok tt, (mkTestRun (ts_sender s.1) (ts_receiver s.1) (ts_capture s.1) (ts_monitor s.1) trial
                           (ts_heap s.1 ++ [o]), s.2))
  end.

Definition start_test_sender : M State unit :=
  port ← kwarg "port"; K ← kwarg "K"; N ← kwarg "N"; data_file ← kwarg "input-file";
  message_size ← kwarg "message-size"; timestep ← kwarg "timestep"; hop_probability ← kwarg "lambda";
  reliable ← kwarg "reliable"; hop_method ← kwarg "hop";
  on_sender (start_path_hopping_sender (Some port) (Some K) (Some N) (Some data_file) (Some message_size)
    (Some timestep) (Some hop_probability) (Some reliable) (Some hop_method)).

Definition start_test_receiver (sender_ip : string) : M State unit :=
  port ← kwarg "port"; data_file ← kwarg "output-file"; timestep ← kwarg "timestep";
  hopping_probability ← kwarg "lambda";
  on_receiver (start_path_hopping_receiver (Some sender_ip) (Some port) (Some data_file) (Some timestep)
    (Some hopping_probability)).

Definition hopping_times_record : string := "./hopping-time-record.txt".
Definition collect_mpc_sender_hopping_times : M W (list Z) :=
  hopping_times_text ← env_read_text hopping_times_record;
  hopping_times ← lift (mapR int_of_str (splitlines hopping_times_text));
  env_unlink hopping_times_record ≫= λ _,
  mret hopping_times.

Context `{OnosApi} {GN GT : Type} `{NxGraph string GN} `{NxGraph Z GT}.
Variable graph_matcher : GN → GT → option (dict string Z).
Variable post_start : M W (Z * string).
Variable post_stop : string → M W (Z * list (list IfaceStats)).

(** The body of [try]. *)
Definition test_body : M State unit :=
  id_to_dpid ← lift (get_and_validate_onos_topo_x graph_matcher (complete_graph 10));
  pair ← on_world (create_sender_receiver_pair id_to_dpid);
  set_self (set_pair pair) ≫= λ _,
  capture ← on_world (init_capture "ens192");
  set_self (set_capture capture) ≫= λ _,
  on_capture start_capture ≫= λ _,
  on_test_monitor (start_monitor post_start) ≫= λ _,
  start_test_sender ≫= λ _,
  start_time ← on_world env_time;
  st ← gets fst;
  sender ← lift (or_raise AttributeError (ts_sender st));
  start_test_receiver (vh_virtual_host_ip (php_host sender)) ≫= λ _,
  on_receiver wait_until_done ≫= λ _,
  end_time ← on_world env_time;
  on_test_monitor (stop_monitor post_stop) ≫= λ _,
  utilization_results ← on_test_monitor get_monitor_statistics;
  on_capture stop_capture ≫= λ _,
  packets ← on_capture (process_capture_data eval_literal);
  hopping_times ← on_world collect_mpc_sender_hopping_times;
  add_test_object "packet-dump" (TPackets packets) ≫= λ _,
  add_test_object "measured-link-utilization" (TByteCounts utilization_results) ≫= λ _,
  add_test_object "link-utilization-over-time" (TLinkRates (test_link_utilization_over_time utilization_results)) ≫= λ _,
  add_test_object "elapsed-tx-time" (TSeconds (fsub end_time start_time)) ≫= λ _,
  add_test_object "hopping-times" (TTimes hopping_times).

(** The body of [finally]. *)
Definition test_cleanup : M State unit :=
  st ← gets fst;
  on_world (destroy_sender_receiver_pair (ts_sender st) (ts_receiver st)) ≫= λ _,
  if from_option is_capture_running false (ts_capture st) then on_capture stop_capture else mret tt.

(** Every exception of the body is printed and waits for a key; an exception
    of the handler is raised after [finally]. *)
Definition conduct_attacker_test : M State unit := λ s,
  let '(r, s) := test_body s in
  let '(r, s) := match r with Ok _ => (Ok tt, s) | Raise _ => on_world env_input s end in
  (test_cleanup ≫= λ _, lift r) s.

Definition init_test (the_trial : Trial) (heap : list (test_object F L)) : TestRun F L :=
  mkTestRun None None None init_monitor the_trial heap.

(** [test_virtual_host_installation]: both exceptions are caught. *)
Definition try_create_pair (id_to_dpid : dict Z string)
    : M W (option PathHoppingHost * option PathHoppingHost) := λ w,
  match create_sender_receiver_pair id_to_dpid w with
  | (Ok (sender, receiver), w) => (Ok (Some sender, Some receiver), w)
  | (Raise _, w) => (Ok (None, None), w)
  end.

Definition try_destroy_pair (sender receiver : option PathHoppingHost) : M W unit := λ w,
  (Ok tt, (destroy_sender_receiver_pair sender receiver w).2).

Definition test_virtual_host_installation : M W unit :=
  id_to_dpid ← lift (get_and_validate_onos_topo_x graph_matcher (complete_graph 10));
  pair ← try_create_pair id_to_dpid;
  env_input ≫= λ _,
  try_destroy_pair pair.1 pair.2.

(** ** Delays with tc *)

(** [shlex.split] of a command without quotes. *)
Definition shlex_split (cmd : string) : list string := filter (λ s, s ≠ EmptyString) (str_split space cmd).
Definition execute_shell_command (cmd_to_exec : string) : M W string := env_shell (shlex_split cmd_to_exec).

(** ["root" in line] *)
Fixpoint str_contains (needle s : string) : bool :=
  String.prefix needle s || match s with EmptyString => false | String _ s => str_contains needle s end.

Definition get_root_qdisc_handle (iface : string) : M W string :=
  cmd_output ← execute_shell_command ("tc qdisc show dev " +:+ iface);
  root_line ← lift (py_index (filter (λ line, str_contains "root" line) (splitlines cmd_output)) 0);
  qdisc_id ← lift (py_index (str_split space root_line) 2);
  mret (str_but_last qdisc_id).

Definition udp_ports : list Z := (λ i, 50200 + i)%Z <$> seqZ 0 9.

Definition add_path_hopping_delays (iface : string) (N : Z) (delay_fn : M W Z) : M W unit :=
  execute_shell_command ("sudo tc qdisc add dev " +:+ iface +:+ " root prio bands " +:+ str_of_Z N +:+
    " priomap 0 0 0 0 0 0 0 0 0 0 0 0 0 0 0 0") ≫= λ _,
  classful_major ← get_root_qdisc_handle iface;
  for_each (seqZ 1 N) (λ child_qdisc_id,
    delay_ms ← delay_fn;
    execute_shell_command ("sudo tc qdisc add dev " +:+ iface +:+ " parent " +:+ classful_major +:+ ":" +:+
      str_of_Z child_qdisc_id +:+ " netem delay " +:+ str_of_Z delay_ms +:+ "ms") ≫= λ _, mret tt) ≫= λ _,
  for_each (zip (seqZ 1 N) udp_ports) (λ '(child_qdisc_id, udp_port_num),
    execute_shell_command ("sudo tc filter add dev " +:+ iface +:+ " parent " +:+ classful_major +:+
      ":0 prio 99 protocol ip u32 match ip sport " +:+ str_of_Z udp_port_num +:+ " 0xffff flowid " +:+
      classful_major +:+ ":" +:+ str_of_Z child_qdisc_id) ≫= λ _, mret tt).

Definition remove_path_hopping_delays (iface : string) : M W unit :=
  execute_shell_command ("sudo tc qdisc del dev " +:+ iface +:+ " root") ≫= λ _, mret tt.
End test.

(** * attacker_tests/trials.py *)

Inductive parameter : Type :=
  | PInt (z : Z)
  | PStr (s : string)
  | PPath (p : string).

Section trials.
Context {RNG F L : Type}.
Variable randint : Z → Z → M RNG Z.
Abbreviation Heap := (list (test_object F L)).

Definition add_test_parameter (t : Trial) (kv : string * parameter) : M (Heap * RNG) Trial := λ s,
  match kv.2 with
  | PInt z => (add_parameter t kv.1 (VInt z), s)
  | PStr v => (add_parameter t kv.1 (VStr v), s)
  | PPath p => (add_parameter t kv.1 (VObj (length s.1)), (s.1 ++ [TPath p], s.2))%list
  end.

Definition make_test_trial (oid : nat) (name : string) (ps : list (string * parameter)) : M (Heap * RNG) Trial :=
  rand_id ← on_world (randint 0 (2 ^ 64));
  foldS add_test_parameter (init_trial oid name rand_id) ps.

Definition input_file : string := "/home/cpsc-net-user/repos/mtd-crypto-impl/data/random_byte_20MB.dat".
(** [path.Path("./out.dat")] normalizes its argument. *)
Definition output_file : string := "out.dat".

Definition single_parameters : list (string * parameter) :=
  [("K", PInt 5); ("N", PInt 9); ("port", PInt 11111); ("input-file", PPath input_file);
   ("output-file", PPath output_file); ("message-size", PInt 256); ("timestep", PInt 100); ("lambda", PInt 0);
   ("reliable", PStr "False"); ("hop", PStr "host")].

Definition varied_parameters (K timestep : Z) : list (string * parameter) :=
  [("K", PInt K); ("port", PInt 11111); ("N", PInt 9); ("input-file", PPath input_file);
   ("output-file", PPath output_file); ("timestep", PInt timestep); ("lambda", PInt 0);
   ("reliable", PStr "False"); ("hop", PStr "host"); ("message-size", PInt 256)].

Definition test_with_single_trial : M (Heap * RNG) TrialProvider :=
  the_trial ← make_test_trial 0 "attacker-testing" single_parameters;
  mret (add_trial (init_provider "attacker-testing-latency") the_trial).

Definition test_with_varying_k_values : M (Heap * RNG) TrialProvider :=
  foldS (λ p k_value,
    the_trial ← make_test_trial (length (trials p)) ("k-" +:+ str_of_Z k_value) (varied_parameters k_value 100);
    mret (add_trial p the_trial)) (init_provider "k-values-discrete-delay") (seqZ 1 9).

Definition test_with_varying_delta_values : M (Heap * RNG) TrialProvider :=
  foldS (λ p delta_value,
    the_trial ← make_test_trial (length (trials p)) ("delta-" +:+ str_of_Z delta_value) (varied_parameters 5 delta_value);
    mret (add_trial p the_trial)) (init_provider "delta-values-discrete-delay") [10; 100; 1000]%Z.
End trials.
