(* ===== verification/AttackerTestProps.v ===== *)
(** Whatever happens during an attacker test, the machine and the controller
    are left as they were: addresses, virtual hosts and processes. *)

From Stdlib Require Import Ascii.
From S2P Require Import Prelude PyDict PyStr PyFloat PyText TopoMapper StatMonitor TrialStore Keeps RouteAdderProps VirtualHost VirtualHostProps PathHoppingTrial PathHoppingTrialProps AttackerTest.
Close Scope string_scope.

(** * Processes *)

Definition opt_set (o : option nat) : gset nat := match o with Some p => {[p]} | None => ∅ end.

(** The processes [P] are those of [base] and some of [S], which are new. *)
Definition among (base S P : gset nat) : Prop := base ⊆ P ∧ P ⊆ base ∪ S ∧ S ## base.

(** A step of an object with one process. *)
Definition process_step (o o' : option nat) (P P' : gset nat) : Prop :=
  ∀ base S, among base (opt_set o ∪ S) P → among base (opt_set o' ∪ S) P'.

Lemma process_same o P : process_step o o P P.
Proof. by intros base S. Qed.
Lemma process_started p P : p ∉ P → process_step None (Some p) P ({[p]} ∪ P).
Proof. intros Hp base S. unfold among, opt_set. set_solver. Qed.
Lemma process_ended p P : process_step (Some p) (Some p) P (P ∖ {[p]}).
Proof. intros base S. unfold among, opt_set. set_solver. Qed.
Lemma process_forgotten p P : process_step (Some p) None P (P ∖ {[p]}).
Proof. intros base S. unfold among, opt_set. set_solver. Qed.
#[export] Hint Resolve process_same process_started process_ended process_forgotten : testbed.

Lemma among_empty base P : among base ∅ P → P = base.
Proof. unfold among. intros (H1 & H2 & _). apply set_eq. set_solver. Qed.

Lemma among_swap base S1 S2 S3 P : among base (S1 ∪ (S2 ∪ S3)) P ↔ among base (S2 ∪ (S1 ∪ S3)) P.
Proof. by rewrite (assoc_L (∪) S1), (comm_L (∪) S1), <-(assoc_L (∪)). Qed.
Lemma among_last base S1 S2 S3 P : among base (S1 ∪ (S2 ∪ S3)) P ↔ among base (S3 ∪ (S1 ∪ S2)) P.
Proof. by rewrite (assoc_L (∪) S1), (comm_L (∪)). Qed.

Section testbed.
Context {W F L : Type} `{HostEnv W} `{TestEnv W F} `{PyFloat F}.
Variable post_start : M W (Z * string).
Variable post_stop : string → M W (Z * list (list IfaceStats)).
Variable addrs : W → gset (string * string).
Variable vhosts : W → gset string.
Variable procs : W → gset nat.

Definition no_more (w : W) : unit := tt.
Abbreviation see := (see addrs vhosts no_more).
Abbreviation owns_hosts := (owns_hosts addrs vhosts).
Definition all (w : W) : gset (string * string) * gset string * gset nat := (addrs w, vhosts w, procs w).
Definition quiet_call {A} (m : M W A) : Prop := ∀ w, all (m w).2 = all w.

(** What the tests rely on: a started process is a new one, [terminate],
    [communicate] and [wait] end the process and return, and nothing else
    changes processes, addresses or hosts. *)
Record test_laws : Prop := {
  te_hosts : host_env_laws addrs vhosts no_more;
  te_run : ∀ cmd w, procs (subprocess_run cmd w).2 = procs w;
  te_mac : ∀ iface w, procs (iface_mac_address iface w).2 = procs w;
  te_post : ∀ url body w, procs (requests_post url body w).2 = procs w;
  te_popen : ∀ args w, match popen args w with
    | (Ok p, w') => (p ∉ procs w) ∧ procs w' = {[p]} ∪ procs w
    | (Raise _, w') => procs w' = procs w
    end;
  te_terminate : ∀ p w, ∃ w', terminate p w = (Ok tt, w') ∧ procs w' = procs w ∖ {[p]};
  te_communicate : ∀ p w, ∃ w', communicate p w = (Ok tt, w') ∧ procs w' = procs w ∖ {[p]};
  te_wait : ∀ p w, ∃ z w', process_wait p w = (Ok z, w') ∧ procs w' = procs w ∖ {[p]};
  te_randint : ∀ a b, quiet_call (env_randint a b);
  te_time : quiet_call env_time;
  te_read : ∀ f, quiet_call (env_read_text f);
  te_unlink : ∀ f, quiet_call (env_unlink f);
  te_input : quiet_call env_input;
  te_start : quiet_call post_start;
  te_stop : ∀ tok, quiet_call (post_stop tok)
}.
Hypothesis laws : test_laws.

Lemma all_inv w a v p : all w = (a, v, p) → addrs w = a ∧ vhosts w = v ∧ procs w = p.
Proof. by intros [= -> -> ->]. Qed.
Lemma see_pair w w' : see w' = see w → addrs w' = addrs w ∧ vhosts w' = vhosts w.
Proof. by intros [= -> ->]. Qed.

(** * Hosts *)

Lemma create_frame vmac vip ip dev x : keeps (λ w, procs w = x) (initialize_virtual_host_persistent_state vmac vip ip dev).
Proof.
  assert (∀ cmd, keeps (λ w, procs w = x) (subprocess_run cmd)) as Hrun by (intros cmd w <-; apply (te_run laws)).
  assert (∀ url body, keeps (λ w, procs w = x) (requests_post url body)) as Hpost by (intros url body w <-; apply (te_post laws)).
  assert (keeps (λ w, procs w = x) (_initialize_local_network_interface iface_name ip)) as Hadd.
  { apply keeps_bind; [apply Hrun|]. intros code. apply keeps_if; [auto with testbed|]. intros w <-. apply (te_mac laws). }
  assert (∀ mac, keeps (λ w, procs w = x) (_install_virtual_host mac ip vmac vip dev)) as Hinst.
  { intros mac. apply keeps_bind; [apply Hpost|]. intros resp. apply keeps_if; auto with testbed. }
  assert (∀ mac ex, keeps (λ w, procs w = x) (rollback (A := string * string) mac None ip ex)) as Hroll.
  { intros mac ex. apply keeps_bind; [|intros _; auto with testbed]. apply keeps_if; [|auto with testbed].
    apply keeps_bind; [apply Hrun|]. intros code. apply keeps_if; auto with testbed. }
  intros w Hw. unfold initialize_virtual_host_persistent_state. specialize (Hadd w Hw).
  destruct (_initialize_local_network_interface iface_name ip w) as [[mac|e] w1]; [|by apply Hroll].
  specialize (Hinst mac w1 Hadd). destruct (_install_virtual_host mac ip vmac vip dev w1) as [[tok|e] w2]; [done|by apply Hroll].
Qed.

Lemma create_member_spec A V vs id_to_dpid i w :
  owns_hosts A V vs w →
  match create_member id_to_dpid i w with
  | (Ok h, w') => owns_hosts A V (vs ++ [php_host h]) w' ∧ php_process h = None ∧ procs w' = procs w
  | (Raise _, w') => all w' = all w
  end.
Proof.
  intros Hown. unfold create_member. destruct (Dict.getitem id_to_dpid (i - 1)%Z) as [dev|e]; [|done].
  rewrite (bindS_run _ _ _ dev w) by done. set (ip := String.append "192.168.1." _).
  assert (word ip = true) as Hip.
  { unfold ip, word. rewrite str_all_app. apply andb_true_iff. split; [by vm_compute|apply word_str_of_Z]. }
  set (vmac := String.append "00:02:00:00:00:" _). set (vip := String.append "10.10.0." _).
  pose proof (initialize_spec _ _ _ (te_hosts laws) vmac vip ip dev w Hip) as Hinit.
  pose proof (create_frame vmac vip ip dev (procs w) w eq_refl) as Hframe.
  unfold ph_create_virtual_host, create_host, mbind, M_bind.
  destruct (initialize_virtual_host_persistent_state vmac vip ip dev w) as [[[mac tok]|e] w1]; cbn [snd] in Hframe.
  - destruct Hinit as (Hip' & Htok & Hsee). injection Hsee as Ha1 Hv1. simpl. split_and!; [|done|done].
    destruct Hown as (Ha & Hv & Hws). unfold PathHoppingTrialProps.owns_hosts. rewrite !fmap_app. simpl. split_and!.
    + rewrite Ha1. by apply adds_snoc.
    + rewrite Hv1. by apply adds_snoc.
    + apply Forall_app. split; [done|]. by constructor.
  - apply see_pair in Hinit as [Ha1 Hv1]. unfold all. simpl. congruence.
Qed.

(** Destroying a host ends its process too. *)
Lemma destroy_member_spec A V h vs w :
  owns_hosts A V (php_host h :: vs) w → ∃ w', destroy_member (Some h) w = (Ok tt, w') ∧
    owns_hosts A V vs w' ∧ procs w' = procs w ∖ opt_set (php_process h).
Proof.
  intros (Ha & Hv & [Hw Hws]%Forall_cons). rewrite fmap_cons in Ha. rewrite fmap_cons in Hv.
  apply adds_cons in Ha as [Hin Ha]. apply adds_cons in Hv as [Htok Hv].
  destruct (uninstall_host _ _ _ (te_hosts laws) (vh_token (php_host h)) w Htok) as (w1 & Hun & Hs1). injection Hs1 as Ha1 Hv1.
  destruct (remove_interface _ _ _ (te_hosts laws) (vh_actual_host_ip (php_host h)) w1 Hw) as (w2 & Hrm & Hs2);
    [by rewrite Ha1|]. injection Hs2 as Ha2 Hv2.
  assert (procs w1 = procs w) as Hp1.
  { assert (keeps (λ w', procs w' = procs w) (_uninstall_virtual_host (vh_token (php_host h)))) as Hk.
    { apply keeps_bind; [intros w' <-; apply (te_post laws)|]. intros resp. apply keeps_if; auto with testbed. }
    specialize (Hk w eq_refl). by rewrite Hun in Hk. }
  assert (procs w2 = procs w1) as Hp2.
  { assert (keeps (λ w', procs w' = procs w1) (_remove_local_network_interface iface_name (vh_actual_host_ip (php_host h)))) as Hk.
    { apply keeps_bind; [intros w' <-; apply (te_run laws)|]. intros code. apply keeps_if; auto with testbed. }
    specialize (Hk w1 eq_refl). by rewrite Hrm in Hk. }
  assert (owns_hosts A V vs w2) as Hown by (unfold PathHoppingTrialProps.owns_hosts; by rewrite Ha2, Hv2, Ha1, Hv1).
  unfold destroy_member, ph_destroy_virtual_host. rewrite (bindS_run _ _ _ h (h, w)) by done.
  rewrite (bindS_run _ _ _ tt (h, w2)).
  2:{ unfold on_world, destroy_virtual_host, mbind, M_bind. simpl. by rewrite Hun, Hrm. }
  destruct (php_process h) as [p|] eqn:Hp.
  - rewrite bool_decide_true by done. unfold stop_process. rewrite (bindS_run _ _ _ h (h, w2)) by done. rewrite Hp.
    destruct (te_terminate laws p w2) as (w3 & Hw3 & Hp3). destruct (te_communicate laws p w3) as (w4 & Hw4 & Hp4).
    rewrite (bindS_run _ _ _ tt (h, w3)) by (unfold on_world; simpl; by rewrite Hw3).
    unfold on_world. simpl. rewrite Hw4. exists w4. split; [done|].
    pose proof (he_terminate _ _ _ (te_hosts laws) p w2) as Hs3. rewrite Hw3 in Hs3. apply see_pair in Hs3 as [Ha3 Hv3].
    pose proof (he_communicate _ _ _ (te_hosts laws) p w3) as Hs4. rewrite Hw4 in Hs4. apply see_pair in Hs4 as [Ha4 Hv4].
    cbn [snd] in *. split; [unfold PathHoppingTrialProps.owns_hosts; by rewrite Ha4, Hv4, Ha3, Hv3|].
    rewrite Hp4, Hp3, Hp2, Hp1. set_solver.
  - rewrite bool_decide_false by (by intros []). exists w2. split; [done|]. split; [done|]. rewrite Hp2, Hp1. simpl. set_solver.
Qed.

Definition members (st : TestRun F L) : list PathHoppingHost := option_list (ts_sender st) ++ option_list (ts_receiver st).

Lemma destroy_pair_spec A V s r w :
  owns_hosts A V (php_host <$> option_list s ++ option_list r) w → ∃ w', destroy_sender_receiver_pair s r w = (Ok tt, w') ∧
    addrs w' = A ∧ vhosts w' = V ∧ procs w' = procs w ∖ (opt_set (s ≫= php_process) ∪ opt_set (r ≫= php_process)).
Proof.
  assert (∀ o vs w, owns_hosts A V ((php_host <$> option_list o) ++ vs) w → ∃ w', destroy_member o w = (Ok tt, w') ∧
    owns_hosts A V vs w' ∧ procs w' = procs w ∖ opt_set (o ≫= php_process)) as Hone.
  { intros [h|] vs w0 Hown; [by apply destroy_member_spec|]. exists w0. split; [done|]. split; [done|]. simpl. set_solver. }
  rewrite fmap_app. intros (w1 & Hw1 & Hown1 & Hp1)%Hone.
  rewrite <-(app_nil_r (php_host <$> option_list r)) in Hown1. apply Hone in Hown1 as (w2 & Hw2 & (Ha & Hv & _) & Hp2).
  exists w2. unfold destroy_sender_receiver_pair. rewrite (bindS_run _ _ _ tt w1) by done.
  split_and!; [done|by apply adds_nil_inv..|]. rewrite Hp2, Hp1. set_solver.
Qed.

Lemma owns_none w : owns_hosts (addrs w) (vhosts w) [] w.
Proof. exact (conj (adds_nil _) (conj (adds_nil _) (Forall_nil_2 _))). Qed.

Lemma create_pair_spec id_to_dpid w :
  match create_sender_receiver_pair id_to_dpid w with
  | (Ok (s, r), w') => owns_hosts (addrs w) (vhosts w) [php_host s; php_host r] w' ∧
      php_process s = None ∧ php_process r = None ∧ procs w' = procs w
  | (Raise _, w') => all w' = all w
  end.
Proof.
  unfold create_sender_receiver_pair, CREATE_VHOST_RETRY_COUNT. cbn [seq foldS].
  unfold mbind at 1, M_bind at 1, mbind at 1, M_bind at 1, create_attempt.
  pose proof (create_member_spec _ _ _ id_to_dpid 1 w (owns_none w)) as H1w.
  destruct (create_member id_to_dpid 1 w) as [[s|e] w1].
  - destruct H1w as (Hown1 & Hs & Hp1). pose proof (create_member_spec _ _ _ id_to_dpid 2 w1 Hown1) as H2w.
    destruct (create_member id_to_dpid 2 w1) as [[r|e] w2].
    + simpl. destruct H2w as (Hown2 & Hr & Hp2). split_and!; [done..|congruence].
    + apply all_inv in H2w as (Ha2 & Hv2 & Hp2). unfold failed_attempt.
      destruct (destroy_pair_spec (addrs w) (vhosts w) (Some s) None w2) as (w3 & Hw3 & Ha3 & Hv3 & Hp3).
      { unfold PathHoppingTrialProps.owns_hosts in *. by rewrite Ha2, Hv2. }
      rewrite (bindS_run _ _ _ tt w3) by done. simpl. unfold all. rewrite Ha3, Hv3, Hp3. simpl. rewrite Hs. simpl. f_equal. set_solver.
  - simpl. done.
Qed.

(** * The test *)

Definition capture_process (st : TestRun F L) : option nat := ts_capture st ≫= cap_tcpdump_process.

(** What a test that started in [w0] with [t0] owns. *)
Definition owns_test (w0 : W) (t0 : Trial) (s : TestRun F L * W) : Prop :=
  owns_hosts (addrs w0) (vhosts w0) (php_host <$> members s.1) s.2 ∧
  among (procs w0) (opt_set (ts_sender s.1 ≫= php_process) ∪ (opt_set (ts_receiver s.1 ≫= php_process) ∪
    opt_set (capture_process s.1))) (procs s.2) ∧
  params_kept t0 (ts_trial s.1).

(** A method of a host, of the capture. *)
Definition host_step {A} (m : M (PathHoppingHost * W) A) : Prop := ∀ h w,
  let '(_, (h', w')) := m (h, w) in
  php_host h' = php_host h ∧ see w' = see w ∧ process_step (php_process h) (php_process h') (procs w) (procs w').
Definition capture_step {A} (m : M (InterfaceCapture * W) A) : Prop := ∀ c w,
  let '(_, (c', w')) := m (c, w) in
  see w' = see w ∧ process_step (cap_tcpdump_process c) (cap_tcpdump_process c') (procs w) (procs w').

Lemma owns_hosts_see A V vs w w' : see w' = see w → owns_hosts A V vs w → owns_hosts A V vs w'.
Proof. intros [Ha Hv]%see_pair. unfold PathHoppingTrialProps.owns_hosts. by rewrite Ha, Hv. Qed.

Lemma on_sender_keeps {A} w0 t0 (m : M (PathHoppingHost * W) A) : host_step m → keeps (owns_test w0 t0) (on_sender m).
Proof.
  intros Hm [st w] (Hh & Hp & Hk). unfold on_sender. cbn [fst snd]. destruct (ts_sender st) as [h|] eqn:E; [|done].
  specialize (Hm h w). destruct (m (h, w)) as [r [h' w']]. destruct Hm as (Hid & Hsee & Hstep).
  split_and!; [|cbn [fst snd] in Hp; rewrite E in Hp; exact (Hstep _ _ Hp)|done].
  apply (owns_hosts_see _ _ _ _ _ Hsee). unfold members in *. simpl in *. rewrite E in Hh. simpl in Hh. by rewrite Hid.
Qed.

Lemma on_receiver_keeps {A} w0 t0 (m : M (PathHoppingHost * W) A) : host_step m → keeps (owns_test w0 t0) (on_receiver m).
Proof.
  intros Hm [st w] (Hh & Hp & Hk). unfold on_receiver. cbn [fst snd]. destruct (ts_receiver st) as [h|] eqn:E; [|done].
  cbn [fst snd] in *.
  specialize (Hm h w). destruct (m (h, w)) as [r [h' w']]. destruct Hm as (Hid & Hsee & Hstep).
  split_and!; [| |done].
  - apply (owns_hosts_see _ _ _ _ _ Hsee). unfold members in *. simpl in *. rewrite E in Hh. rewrite !fmap_app in *. simpl in *.
    by rewrite Hid.
  - rewrite E in Hp. apply among_swap in Hp. apply among_swap. exact (Hstep _ _ Hp).
Qed.

Lemma on_capture_keeps {A} w0 t0 (m : M (InterfaceCapture * W) A) : capture_step m → keeps (owns_test w0 t0) (on_capture m).
Proof.
  intros Hm [st w] (Hh & Hp & Hk). unfold on_capture. cbn [fst snd]. destruct (ts_capture st) as [c|] eqn:E; [|done].
  cbn [fst snd] in *.
  specialize (Hm c w). destruct (m (c, w)) as [r [c' w']]. destruct Hm as (Hsee & Hstep).
  split_and!; [by apply (owns_hosts_see _ _ _ _ _ Hsee)| |done].
  unfold capture_process in *. cbn [fst snd ts_sender ts_receiver ts_capture mbind option_bind] in *. rewrite E in Hp.
  rewrite among_last in Hp. rewrite among_last. exact (Hstep _ _ Hp).
Qed.

Lemma start_process_step args : host_step (start_process args).
Proof.
  intros h w. unfold start_process. rewrite (bindS_run _ _ _ h (h, w)) by done.
  destruct (php_process h) as [p|] eqn:E; [rewrite bool_decide_true by done; simpl; rewrite E; auto with testbed|].
  rewrite bool_decide_false by (by intros []). destruct (popen_args _) as [words|e]; [|simpl; rewrite E; auto with testbed].
  rewrite (bindS_run _ _ _ words (h, w)) by done. unfold on_world, mbind, M_bind. cbn [fst snd].
  pose proof (te_popen laws words w) as Hp. pose proof (he_popen _ _ _ (te_hosts laws) words w) as Hsee.
  destruct (popen words w) as [[p|e] w1]; simpl in *.
  - destruct Hp as [Hnew ->]. split_and!; [done..|]. by apply process_started.
  - rewrite Hp, E. auto with testbed.
Qed.

Lemma wait_step : host_step wait_until_done.
Proof.
  intros h w. unfold wait_until_done. rewrite (bindS_run _ _ _ h (h, w)) by done.
  destruct (php_process h) as [p|] eqn:E; [|simpl; rewrite E; auto with testbed].
  unfold on_world. cbn [fst snd]. destruct (te_wait laws p w) as (z & w' & Hw & Hp).
  pose proof (he_wait _ _ _ (te_hosts laws) p w) as Hsee. rewrite Hw in *. simpl in *. rewrite E, Hp. auto with testbed.
Qed.

Lemma start_capture_step : capture_step start_capture.
Proof.
  intros c w. unfold start_capture. rewrite (bindS_run _ _ _ c (c, w)) by done. cbn zeta.
  destruct (cap_tcpdump_process c) as [p|] eqn:E; [rewrite bool_decide_true by done; simpl; rewrite E; auto with testbed|].
  rewrite bool_decide_false by (by intros []). unfold on_world, mbind, M_bind. cbn [fst snd].
  pose proof (te_popen laws (build_tcpdump_cmd (cap_iface_name c) (cap_file_name c)) w) as Hp.
  pose proof (he_popen _ _ _ (te_hosts laws) (build_tcpdump_cmd (cap_iface_name c) (cap_file_name c)) w) as Hsee.
  destruct (popen _ w) as [[p|e] w1]; simpl in *.
  - destruct Hp as [Hnew ->]. split; [done|]. by apply process_started.
  - rewrite Hp, E. auto with testbed.
Qed.

Lemma stop_capture_run c w p : cap_tcpdump_process c = Some p → ∃ w',
  stop_capture (c, w) = (Ok tt, (mkCapture (cap_iface_name c) None (cap_file_name c), w')) ∧
  see w' = see w ∧ procs w' = procs w ∖ {[p]}.
Proof.
  intros E. unfold stop_capture. rewrite (bindS_run _ _ _ c (c, w)) by done. rewrite E.
  destruct (te_terminate laws p w) as (w' & Hw & Hp). pose proof (he_terminate _ _ _ (te_hosts laws) p w) as Hsee.
  rewrite (bindS_run _ _ _ tt (c, w')) by (unfold on_world; simpl; by rewrite Hw). rewrite Hw in Hsee. by exists w'.
Qed.

Lemma stop_capture_step : capture_step stop_capture.
Proof.
  intros c w. destruct (cap_tcpdump_process c) as [p|] eqn:E.
  - destruct (stop_capture_run c w p E) as (w' & -> & Hsee & ->). auto with testbed.
  - unfold stop_capture. rewrite (bindS_run _ _ _ c (c, w)) by done. rewrite E. simpl. rewrite E. auto with testbed.
Qed.

Variable eval_literal : string → res (list (list L)).

Lemma process_capture_step : capture_step (process_capture_data eval_literal).
Proof.
  intros c w. unfold process_capture_data. rewrite (bindS_run _ _ _ c (c, w)) by done. cbn zeta.
  set (cmd := str_split _ _).
  pose proof (te_popen laws cmd w) as Hp. pose proof (he_popen _ _ _ (te_hosts laws) cmd w) as Hsee.
  destruct (popen cmd w) as [[p|e] w1] eqn:Hrun; cbn [snd] in Hsee.
  2:{ rewrite (bindS_raise _ _ _ e (c, w1)) by (unfold on_world; simpl; by rewrite Hrun). rewrite Hp. auto with testbed. }
  rewrite (bindS_run _ _ _ p (c, w1)) by (unfold on_world; simpl; by rewrite Hrun).
  destruct Hp as [Hnew Hp]. destruct (te_wait laws p w1) as (z & w2 & Hw & Hp2).
  pose proof (he_wait _ _ _ (te_hosts laws) p w1) as Hsee2. rewrite Hw in Hsee2.
  rewrite (bindS_run _ _ _ z (c, w2)) by (unfold on_world; simpl; by rewrite Hw).
  assert (keeps (λ w', all w' = all w2) (read_packet_dump_info_from_file eval_literal PROCESS_CAP_OUT_FILE)) as Hread.
  { apply keeps_bind; [|auto with testbed]. apply keeps_bind; [|auto with testbed]. intros w' <-. apply (te_read laws). }
  specialize (Hread w2 eq_refl). unfold on_world. cbn [fst snd].
  destruct (read_packet_dump_info_from_file _ _ w2) as [r w3]. apply all_inv in Hread as (Ha & Hv & Hpr). cbn [snd] in *.
  split; [unfold VirtualHostProps.see; rewrite Ha, Hv; exact (eq_trans Hsee2 Hsee)|].
  rewrite Hpr, Hp2, Hp. assert (({[p]} ∪ procs w) ∖ {[p]} = procs w) as -> by set_solver. auto with testbed.
Qed.

Lemma owns_test_all w0 t0 st st' w w' :
  owns_test w0 t0 (st, w) → all w' = all w → members st' = members st →
  ts_sender st' = ts_sender st → ts_receiver st' = ts_receiver st → ts_capture st' = ts_capture st →
  ts_trial st' = ts_trial st → owns_test w0 t0 (st', w').
Proof.
  intros (Hh & Hp & Hk) (Ha & Hv & Hpr)%all_inv Hm H1' H2' H3' H4'. unfold owns_test, capture_process in *. cbn [fst snd] in *.
  rewrite Hm, H1', H2', H3', H4', Hpr. split_and!; [|done..]. unfold PathHoppingTrialProps.owns_hosts in *. by rewrite Ha, Hv.
Qed.

Lemma quiet_keeps {A} w0 t0 (m : M W A) : quiet_call m → keeps (owns_test w0 t0) (on_world m).
Proof. intros Hm. apply keeps_on_world. intros o w Hown. by eapply owns_test_all. Qed.

Lemma quiet_lift {A} (r : res A) : quiet_call (lift r).
Proof. done. Qed.
Lemma quiet_bind {A B} (m : M W A) (f : A → M W B) : quiet_call m → (∀ a, quiet_call (f a)) → quiet_call (m ≫= f).
Proof.
  intros Hm Hf w. refine (keeps_bind (λ w', all w' = all w) m f _ _ w eq_refl).
  - intros w' <-. apply Hm.
  - intros a w' <-. apply Hf.
Qed.

Lemma monitor_keeps {A} w0 t0 (m : M (OnMonitor * W) A) :
  (∀ x, keeps (λ mw, all mw.2 = x) m) → keeps (owns_test w0 t0) (on_test_monitor m).
Proof.
  intros Hm [st w] Hown. unfold on_test_monitor. cbn [fst snd].
  specialize (Hm (all w) (ts_monitor st, w) eq_refl). destruct (m (ts_monitor st, w)) as [r [mon w']].
  by eapply owns_test_all.
Qed.

Lemma controller_quiet {A} (m : M W A) x : quiet_call m → keeps (λ mw : OnMonitor * W, all mw.2 = x) (on_controller m).
Proof. intros Hm [mon w] <-. unfold on_controller. cbn [snd]. specialize (Hm w). by destruct (m w). Qed.

Lemma start_monitor_all x : keeps (λ mw : OnMonitor * W, all mw.2 = x) (start_monitor post_start).
Proof.
  apply keeps_bind; [auto with testbed|]. intros self. apply keeps_if; [auto with testbed|].
  apply keeps_bind; [apply controller_quiet, te_start, laws|]. intros r. apply keeps_if; auto with testbed.
Qed.

Lemma stop_monitor_all x : keeps (λ mw : OnMonitor * W, all mw.2 = x) (stop_monitor post_stop).
Proof.
  apply keeps_bind; [auto with testbed|]. intros self. destruct (monitor_token self); [|auto with testbed].
  apply keeps_bind; [apply controller_quiet, te_stop, laws|]. intros r. apply keeps_if; auto with testbed.
Qed.

Lemma add_test_object_keeps w0 t0 name (o : test_object F L) : keeps (owns_test w0 t0) (add_test_object (W:=W) name o).
Proof.
  intros [st w] Hown. unfold add_test_object, add_parameter. cbn [fst snd].
  destruct (Dict.mem _ name) eqn:Hmem; [done|]. destruct Hown as (? & ? & Hk). split_and!; [done..|].
  intros k v Hkv. specialize (Hk k v Hkv). cbn [fst snd ts_trial parameters set_parameters] in *.
  rewrite Dict.get_set_ne; [done|]. intros ->. unfold Dict.mem in Hmem. by rewrite Hk in Hmem.
Qed.

Variable str_object : test_object F L → string.
Context `{OnosApi} {GN GT : Type} `{NxGraph string GN} `{NxGraph Z GT}.
Variable graph_matcher : GN → GT → option (dict string Z).

Lemma kwarg_keeps w0 t0 name : keeps (owns_test w0 t0) (kwarg (W:=W) str_object name).
Proof. apply keeps_bind; [auto with testbed|]. intros st. apply keeps_bind; auto with testbed. Qed.

Lemma start_sender_keeps w0 t0 : keeps (owns_test w0 t0) (start_test_sender str_object).
Proof.
  unfold start_test_sender. do 9 (apply keeps_bind; [apply kwarg_keeps|]; intros ?).
  apply on_sender_keeps, start_process_step.
Qed.

Lemma start_receiver_keeps w0 t0 ip : keeps (owns_test w0 t0) (start_test_receiver str_object ip).
Proof.
  unfold start_test_receiver. do 4 (apply keeps_bind; [apply kwarg_keeps|]; intros ?).
  apply on_receiver_keeps, start_process_step.
Qed.

Lemma collect_quiet : quiet_call collect_mpc_sender_hopping_times.
Proof.
  apply quiet_bind; [apply (te_read laws)|]. intros text. apply quiet_bind; [apply quiet_lift|]. intros ts.
  apply quiet_bind; [apply (te_unlink laws)|]. intros _. done.
Qed.

(** The part of the body after the capture has been made. *)
Lemma measured_keeps w0 t0 : keeps (owns_test w0 t0) (
  on_capture start_capture ≫= λ _,
  on_test_monitor (start_monitor post_start) ≫= λ _,
  start_test_sender str_object ≫= λ _,
  start_time ← on_world env_time;
  st ← gets fst;
  sender ← lift (or_raise AttributeError (ts_sender st));
  start_test_receiver str_object (vh_virtual_host_ip (php_host sender)) ≫= λ _,
  on_receiver wait_until_done ≫= λ _,
  end_time ← on_world env_time;
  on_test_monitor (stop_monitor post_stop) ≫= λ _,
  utilization_results ← on_test_monitor get_monitor_statistics;
  on_capture stop_capture ≫= λ _,
  packets ← on_capture (process_capture_data eval_literal);
  hopping_times ← on_world collect_mpc_sender_hopping_times;
  add_test_object "packet-dump" (TPackets packets) ≫= λ _,
  add_test_object "measured-link-utilization" (TByteCounts utilization_results) ≫= λ _,
  add_test_object "link-utilization-over-time" (TLinkRates (test_link_utilization_over_time utilization_results)) ≫= λ _,
  add_test_object "elapsed-tx-time" (TSeconds (fsub end_time start_time)) ≫= λ _,
  add_test_object "hopping-times" (TTimes hopping_times)).
Proof.
  apply keeps_bind; [apply on_capture_keeps, start_capture_step|]. intros _.
  apply keeps_bind; [apply monitor_keeps, start_monitor_all|]. intros _.
  apply keeps_bind; [apply start_sender_keeps|]. intros _. apply keeps_bind; [apply quiet_keeps, (te_time laws)|]. intros t1.
  apply keeps_bind; [auto with testbed|]. intros st. apply keeps_bind; [auto with testbed|]. intros sender.
  apply keeps_bind; [apply start_receiver_keeps|]. intros _. apply keeps_bind; [apply on_receiver_keeps, wait_step|]. intros z.
  apply keeps_bind; [apply quiet_keeps, (te_time laws)|]. intros t2.
  apply keeps_bind; [apply monitor_keeps, stop_monitor_all|]. intros _.
  apply keeps_bind; [apply monitor_keeps; unfold get_monitor_statistics; auto with testbed|]. intros results.
  apply keeps_bind; [apply on_capture_keeps, stop_capture_step|]. intros _.
  apply keeps_bind; [apply on_capture_keeps, process_capture_step|]. intros packets.
  apply keeps_bind; [apply quiet_keeps, collect_quiet|]. intros times.
  do 4 (apply keeps_bind; [apply add_test_object_keeps|]; intros _). apply add_test_object_keeps.
Qed.

Lemma init_capture_spec w : match init_capture "ens192" w with
  | (Ok c, w') => all w' = all w ∧ cap_tcpdump_process c = None
  | (Raise _, w') => all w' = all w
  end.
Proof.
  unfold init_capture, mbind, M_bind. pose proof (te_randint laws 0 (2 ^ 32) w) as Hr.
  by destruct (env_randint 0 (2 ^ 32) w) as [[n|e] w'].
Qed.

Lemma test_body_owns t heap w :
  owns_test w t (test_body eval_literal str_object graph_matcher post_start post_stop (init_test t heap, w)).2.
Proof.
  assert (owns_test w t (init_test t heap, w)) as H0w.
  { split_and!; [apply owns_none|unfold among; simpl; set_solver|by intros k v]. }
  unfold test_body. destruct (get_and_validate_onos_topo_x _ _) as [id_to_dpid|e]; [|exact H0w].
  rewrite (bindS_run _ _ _ id_to_dpid (init_test t heap, w)) by done.
  pose proof (create_pair_spec id_to_dpid w) as Hpair. set (create := create_sender_receiver_pair id_to_dpid) in *.
  destruct (create w) as [[[s r]|e] w1] eqn:Hcreate.
  2:{ rewrite (bindS_raise _ _ _ e (init_test t heap, w1)) by (unfold on_world; simpl; by rewrite Hcreate). by eapply owns_test_all. }
  rewrite (bindS_run _ _ _ (s, r) (init_test t heap, w1)) by (unfold on_world; simpl; by rewrite Hcreate).
  destruct Hpair as (Hown & Hs & Hr & Hp). rewrite (bindS_run _ _ _ tt (set_pair (s, r) (init_test t heap), w1)) by done.
  assert (owns_test w t (set_pair (s, r) (init_test t heap), w1)) as H1w.
  { split_and!; [exact Hown| |by intros k v]. cbn. rewrite Hs, Hr, Hp. unfold among. simpl. set_solver. }
  set (s1 := set_pair (s, r) (init_test t heap)) in *.
  destruct (init_capture "ens192" w1) as [[c|e] w2] eqn:Hinit; pose proof (init_capture_spec w1) as Hc; rewrite Hinit in Hc.
  2:{ rewrite (bindS_raise _ _ _ e (s1, w2)) by (unfold on_world; simpl; by rewrite Hinit). by eapply owns_test_all. }
  destruct Hc as [Hall Hc]. rewrite (bindS_run _ _ _ c (s1, w2)) by (unfold on_world; simpl; by rewrite Hinit).
  rewrite (bindS_run _ _ _ tt (set_capture c s1, w2)) by done.
  apply measured_keeps. apply (owns_test_all _ _ _ s1 _ w2) in H1w as (Hh & Hp' & Hk); [|done..].
  split_and!; [exact Hh| |exact Hk]. unfold capture_process in *. cbn in *. by rewrite Hc.
Qed.

(** The two hosts, their processes and the capture go. *)
Lemma cleanup_spec w0 t0 st w :
  owns_test w0 t0 (st, w) → ∃ st' w', test_cleanup (st, w) = (Ok tt, (st', w')) ∧ all w' = all w0 ∧ ts_trial st' = ts_trial st.
Proof.
  intros (Hh & Hp & _). cbn [fst snd] in *. unfold test_cleanup. rewrite (bindS_run _ _ _ st (st, w)) by done.
  destruct (destroy_pair_spec _ _ _ _ _ Hh) as (w1 & Hw1 & Ha & Hv & Hp1).
  rewrite (bindS_run _ _ _ tt (st, w1)) by (unfold on_world; simpl; by rewrite Hw1).
  unfold among, capture_process in Hp. destruct (ts_capture st) as [c|] eqn:Ec; cbn [from_option].
  - unfold is_capture_running. destruct (cap_tcpdump_process c) as [p|] eqn:Ep.
    + rewrite bool_decide_true by done. unfold on_capture. cbn [fst snd]. rewrite Ec.
      destruct (stop_capture_run c w1 p Ep) as (w2 & -> & [Ha2 Hv2]%see_pair & Hp2).
      eexists _, w2. split; [done|]. split; [|done]. unfold all. rewrite Ha2, Hv2, Ha, Hv, Hp2, Hp1. f_equal. simpl in *.
      rewrite Ep in Hp. apply set_eq. set_solver.
    + rewrite bool_decide_false by (by intros []). exists st, w1. split; [done|]. split; [|done]. unfold all. rewrite Ha, Hv, Hp1. f_equal.
      simpl in *. rewrite Ep in Hp. apply set_eq. set_solver.
  - exists st, w1. split; [done|]. split; [|done]. unfold all. rewrite Ha, Hv, Hp1. f_equal. simpl in *. apply set_eq. set_solver.
Qed.

(** C7: An attacker test leaves no trace, whatever fails. On a machine and
    controller that keep [test_laws] (commands and requests that fail change
    nothing, those that remove what is there succeed, a terminated or awaited
    process is gone), for every trial and whichever step of it raises (a host
    that cannot be created, a missing parameter, a process that does not
    start, the monitor, the capture or its analysis), the addresses of the
    machine, the virtual hosts of the controller and the running processes
    are the same after [conduct_path_hopping_trial] as before, among them no
    sender, receiver or capture that the test has started. The trial keeps
    every parameter it had, and the test returns, unless the handler of an
    exception raises while it waits for a key. *)
Theorem attacker_test_leaves_no_trace t heap w :
  let '(r, (st, w')) := conduct_attacker_test eval_literal str_object graph_matcher post_start post_stop (init_test t heap, w) in
  addrs w' = addrs w ∧ vhosts w' = vhosts w ∧ procs w' = procs w ∧ params_kept t (ts_trial st) ∧
  ∀ e, r = Raise e → ∃ w1, (env_input w1).1 = Raise e.
Proof.
  unfold conduct_attacker_test. pose proof (test_body_owns t heap w) as Hown.
  destruct (test_body _ _ _ _ _ _) as [r0 [st1 w1]]. cbn [snd] in Hown.
  assert (∃ r st2 w2, match r0 with Ok _ => (Ok tt, (st1, w1)) | Raise _ => on_world env_input (st1, w1) end = (r, (st2, w2)) ∧
    owns_test w t (st2, w2) ∧ ∀ e, r = Raise e → ∃ w1, (env_input w1).1 = Raise e) as (r & st2 & w2 & -> & Hown2 & Hr).
  { destruct r0; [exists (Ok tt), st1, w1; by split_and!|]. unfold on_world. cbn [fst snd].
    pose proof (te_input laws w1) as Hin. destruct (env_input w1) as [r w2] eqn:E. exists r, st1, w2. split; [done|].
    split; [by eapply owns_test_all|]. intros e' ->. exists w1. by rewrite E. }
  destruct (cleanup_spec _ _ _ _ Hown2) as (st3 & w3 & Hclean & (Ha & Hv & Hp)%all_inv & Ht).
  rewrite (bindS_run _ _ _ tt (st3, w3)) by exact Hclean. simpl. split_and!; [done..| |exact Hr].
  rewrite Ht. by destruct Hown2 as (_ & _ & Hk).
Qed.
End testbed.

(** * A testbed with processes *)

Definition test_world : Type := demo_world * gset nat.
Definition on_demo {A} (m : M demo_world A) : M test_world A := λ s, let '(r, w) := m s.1 in (r, (w, s.2)).
Definition end_process {A} (a : A) (p : nat) : M test_world A := λ s, (Ok a, (s.1, s.2 ∖ {[p]})).

#[export] Instance test_world_env : HostEnv test_world := {|
  subprocess_run cmd := on_demo (demo_run cmd);
  iface_mac_address _ := mret "00:11:22:33:44:55"%string;
  requests_post url body := on_demo (demo_host_post url body);
  popen _ s := (Ok (fresh s.2), (s.1, {[fresh s.2]} ∪ s.2));
  send_sigint _ := mret tt;
  terminate := end_process tt;
  communicate := end_process tt;
  returncode _ := mret None;
  process_wait := end_process 0%Z
|}.

#[export] Instance test_world_files : TestEnv test_world SpecFloat.spec_float := {|
  env_randint a _ := mret a;
  env_time := mret fone;
  env_read_text _ := mret (unlines ["10"; "250"]%string);
  env_unlink _ := mret tt;
  env_input := mret tt;
  env_shell _ := mret EmptyString
|}.

Definition tw_addrs (s : test_world) : gset (string * string) := dw_addrs s.1.
Definition tw_hosts (s : test_world) : gset string := dw_hosts s.1.
Definition tw_start : M test_world (Z * string) := mret (200%Z, "monitor"%string).
Definition tw_stop (tok : string) : M test_world (Z * list (list IfaceStats)) := mret (200%Z, [[]; []]).

Ltac see_demo := unfold see, no_more, tw_addrs, tw_hosts in *; cbn [fst snd] in *; congruence.

Lemma test_world_host_laws : host_env_laws tw_addrs tw_hosts no_more.
Proof.
  pose proof demo_env_laws as D. split; try by intros.
  - intros ip iface [w P]. pose proof (he_addr_add _ _ _ D ip iface w) as Hadd. unfold subprocess_run, test_world_env, on_demo. cbn [fst].
    unfold subprocess_run, demo_env in Hadd. destruct (demo_run _ w) as [[code|e] w']; cbn [fst snd].
    + case_decide; [destruct Hadd as [? Hs]; split; [done|]; see_demo|].
      see_demo.
    + see_demo.
  - intros ip iface [w P] Hin. destruct (he_addr_del _ _ _ D ip iface w Hin) as (w' & Hrun & Hs). exists (w', P).
    unfold subprocess_run, test_world_env, on_demo. cbn [fst]. unfold subprocess_run, demo_env in Hrun. rewrite Hrun. split; [done|].
    see_demo.
  - intros iface w. by eexists _, w.
  - intros r [w P]. pose proof (he_create _ _ _ D r w) as Hc. unfold requests_post, test_world_env, on_demo. cbn [fst].
    unfold requests_post, demo_env in Hc. destruct (demo_host_post _ _ w) as [[resp|e] w']; cbn [fst snd].
    + destruct (response_ok resp).
      * destruct Hc as (tok & Htok & Hnew & Hs). exists tok. split_and!; [done..|]. see_demo.
      * see_demo.
    + see_demo.
  - intros tok [w P] Hin. destruct (he_destroy _ _ _ D tok w Hin) as (resp & w' & Hrun & Hok & Hs). exists resp, (w', P).
    unfold requests_post, test_world_env, on_demo. cbn [fst]. unfold requests_post, demo_env in Hrun. rewrite Hrun. split_and!; [done..|].
    see_demo.
Qed.

Lemma test_world_laws : test_laws tw_start tw_stop tw_addrs tw_hosts snd.
Proof.
  split; try done.
  - exact test_world_host_laws.
  - intros cmd [w P]. unfold subprocess_run, test_world_env, on_demo. cbn [fst]. by destruct (demo_run cmd w).
  - intros url body [w P]. unfold requests_post, test_world_env, on_demo. cbn [fst]. by destruct (demo_host_post url body w).
  - intros args [w P]. cbn. split; [apply is_fresh|done].
  - intros p [w P]. by eexists.
  - intros p [w P]. by eexists.
  - intros p [w P]. by eexists _, _.
Qed.

Definition tw_str (_ : test_object SpecFloat.spec_float Z) : string := EmptyString.
Definition tw_eval (_ : string) : res (list (list Z)) := Ok [[1; 2; 3; 4; 5; 6; 7]%Z].
Definition tw_world : test_world := (demo_ph_world, {[5]}).

(** The trial of [test_with_single_trial] and a test that fails because a
    parameter of the receiver is missing, when sender and capture run. *)
Definition tw_trial : Trial * list (test_object SpecFloat.spec_float Z) :=
  match test_with_single_trial (λ a _ (u : unit), (Ok a, u)) ([], tt) with
  | (Ok p, (heap, _)) => (default (init_trial 0 EmptyString 0) (head (trials p)), heap)
  | _ => (init_trial 0 EmptyString 0, [])
  end.
Definition tw_broken : Trial := set_parameters tw_trial.1 (filter (λ kv, kv.1 ≠ "output-file"%string) (parameters tw_trial.1)).

Lemma attacker_test_leaves_no_trace_witness :
  let '(r, (st, w')) := conduct_attacker_test tw_eval tw_str demo_isomorphism tw_start tw_stop (init_test tw_broken tw_trial.2, tw_world) in
  w'.2 = {[5]} ∧ tw_addrs w' = tw_addrs tw_world ∧ tw_hosts w' = tw_hosts tw_world ∧ params_kept tw_broken (ts_trial st) ∧ r = Ok tt.
Proof.
  pose proof (attacker_test_leaves_no_trace tw_start tw_stop tw_addrs tw_hosts snd test_world_laws tw_eval tw_str demo_isomorphism
    tw_broken tw_trial.2 tw_world) as Hthm.
  destruct (conduct_attacker_test _ _ _ _ _ _) as [r [st w']].
  destruct Hthm as (Ha & Hv & Hp & Hk & Hr). split; [exact Hp|]. split; [exact Ha|]. split; [exact Hv|]. split; [exact Hk|].
  destruct r as [[]|e]; [reflexivity|]. destruct (Hr e eq_refl) as (w1 & Hw1). discriminate.
Defined.

(** The test of [test_with_single_trial] runs to its end and records the
    five measurements. *)
Lemma single_test_records :
  let '(r, (st, _)) := conduct_attacker_test tw_eval tw_str demo_isomorphism tw_start tw_stop (init_test tw_trial.1 tw_trial.2, tw_world) in
  r = Ok tt ∧ drop (length (parameters tw_trial.1)) (Dict.keys (parameters (ts_trial st))) =
    ["packet-dump"; "measured-link-utilization"; "link-utilization-over-time"; "elapsed-tx-time"; "hopping-times"]%string ∧
  drop (length tw_trial.2) (ts_heap st) =
    [TPackets [mkPacketInfo 1 2 3 4 5 6 7]%Z; TByteCounts [[]; []]; TLinkRates [[]]; TSeconds fzero; TTimes [10; 250]%Z].
Proof. by vm_compute. Qed.
