(* ===== verification/AllocationTrials.v ===== *)
(** The trials of the path hopping experiments (path_hopping/trials.py): each
    function runs allocations of [flow_allocation] and stores the flows and
    the link utilization in trials.

    The state of a run is the heap with the objects that are parameters of
    trials, and the states of the two random generators, [random] and
    [numpy.random]. An allocation whose iterations are used up gives [None].
    Numbers are exact rationals, as in the optimization models. *)

From Stdlib Require Import Ascii QArith Qcanon.
From S2P Require Import Prelude PyDict PyStr PyFloat TrialStore FlowAllocation LinProg PathModels McfModel TestModel.
Close Scope string_scope.

Inductive alloc_object : Type :=
  | AFlowSet (flows : list (option flow))
  | AUtilization (u : dict link Qc)
  | ADistribution (p : list Qc)
  | AGraph (g : Graph).

Record AllocState (R RNG : Type) : Type := mkAllocState {
  al_heap : list alloc_object;
  al_rand : R;
  al_np : RNG
}.
Arguments mkAllocState {R RNG} _ _ _.
Arguments al_heap {R RNG} _.
Arguments al_rand {R RNG} _.
Arguments al_np {R RNG} _.

(** A value passed to [add_parameter]. *)
Inductive alloc_value : Type :=
  | AInt (z : Z)
  | AStr (s : string)
  | AObj (o : alloc_object).

Section trials.
Context {R RNG : Type}.
Abbreviation S := (AllocState R RNG).
Variable randint : Z → Z → M R Z.
Variable np_seed : Z → RNG.
Variable np_uniform : Qc → Qc → M RNG Qc.
Variable np_choice : list node → nat → M RNG (list node).
Variable np_choice_p : list Qc → list node → nat → M RNG (list node).
Variable binom_pmf : node → nat → Qc.
Variable node_disjoint_paths : Graph → node → node → res (list path).
Variable all_simple_paths : Graph → node → node → nat → res (list path).
Variable optimize : Model → option (nat → Qc).
Variable DiGraph : Graph → Graph.
Variable fuel : nat.

Definition on_rand {A} (m : M R A) : M S A := λ s,
  let '(r, x) := m (al_rand s) in (r, mkAllocState (al_heap s) x (al_np s)).
Definition on_np {A} (m : M RNG A) : M S A := λ s,
  let '(r, x) := m (al_np s) in (r, mkAllocState (al_heap s) (al_rand s) x).

(** The reference to a value; an object is put on the heap. *)
Definition store (v : alloc_value) : M S value := λ s,
  match v with
  | AInt z => (Ok (VInt z), s)
  | AStr t => (Ok (VStr t), s)
  | AObj o => (Ok (VObj (length (al_heap s))), mkAllocState (al_heap s ++ [o]) (al_rand s) (al_np s))
  end.

Definition Trial_ (oid : nat) (name : string) : M S Trial :=
  rand_id ← on_rand (randint 0 (2 ^ 64)); mret (init_trial oid name rand_id).

Definition add_parameters_to (t : Trial) (ps : list (string * alloc_value)) : M S Trial :=
  foldS (λ t kv, v ← store kv.2; lift (add_parameter t kv.1 v)) t ps.

Definition add_metadata_to (p : TrialProvider) (ps : list (string * alloc_value)) : M S TrialProvider :=
  foldS (λ p kv, v ← store kv.2; lift (add_metadata p kv.1 v)) p ps.

(** [flow_set.add_flows(flows)] on a new [FlowSet]. *)
Definition flow_set (flows : list flow) : alloc_value := AObj (AFlowSet (Some <$> flows)).

(** ** The selections *)

Definition two_nodes (picked : list node) : M RNG (node * node) :=
  match picked with
  | [source_node; destination_node] => mret (source_node, destination_node)
  | _ => lift (Raise ValueError)
  end.

Definition uniform_selection (node_list : list node) : M RNG (node * node) :=
  np_choice node_list 2 ≫= two_nodes.

Definition non_uniform_selection (p : list Qc) (node_list : list node) : M RNG (node * node) :=
  np_choice_p p node_list 2 ≫= two_nodes.

Definition constant_selection (node_list : list node) : M RNG (node * node) :=
  source_node ← lift (py_index node_list 0);
  destination_node ← lift (py_index node_list 1);
  mret (source_node, destination_node).

(** [p[-1] += 1 - sum(p)] *)
Definition mk_binomial_probability_distribution (node_set : list node) : res (list Qc) :=
  let p := (λ n, binom_pmf n (length node_set)) <$> node_set in
  l ← or_raise IndexError (last p);
  Ok (take (length p - 1) p ++ [(l + (fone - fsum p))%Qc]).

Definition mk_uniform_probability_distribution (node_set : list node) : res (list Qc) :=
  mapR (λ _, fdiv fone (f_of_Z (Z.of_nat (length node_set)))) node_set.

(** ** The providers *)

Definition various_k_trial (g : Graph) (oid : nat) (k_value : Z) : M S Trial :=
  the_trial ← Trial_ oid (String.append "varying-k-values-" (str_of_Z k_value));
  the_trial ← add_parameters_to the_trial [("K"%string, AInt k_value)];
  '(seed_number, flows) ← on_np (compute_equal_flow_allocations np_seed np_choice all_simple_paths g (Z.to_nat k_value));
  add_parameters_to the_trial
    [("duration", AInt 180); ("flow-set", flow_set flows); ("seed-number", AInt seed_number)]%string.

Definition path_hopping_various_k_values (g : Graph) : M S TrialProvider :=
  foldS (λ the_trial_provider k_value,
    the_trial ← various_k_trial g (length (trials the_trial_provider)) k_value;
    mret (add_trial the_trial_provider the_trial)) (init_provider "varying-k-values") [3; 5; 7; 9]%Z.

Definition single_path_routing (g : Graph) : M S TrialProvider :=
  the_trial ← Trial_ 0 "single-path-routing";
  '(seed_number, flows) ← on_np (compute_equal_flow_allocations np_seed np_choice all_simple_paths g 1);
  the_trial ← add_parameters_to the_trial
    [("K", AInt 1); ("duration", AInt 180); ("flow-set", flow_set flows); ("seed-number", AInt seed_number)]%string;
  mret (add_trial (init_provider "single-path-routing") the_trial).

(** [compute_path_hopping_flows_ilp] has three arguments without a default;
    this call has two. *)
Definition path_hopping_flows (g : Graph) (K : Z) : M S TrialProvider :=
  Trial_ 0 "path-hopping" ≫= λ _, lift (Raise TypeError).

Definition flow_allocation_tests (g : Graph) (number_of_flows : nat) : M S TrialProvider :=
  the_trial ← Trial_ 0 "testing";
  '(seed_number, flows, link_utilization) ←
    on_np (compute_test_flow_allocations np_seed np_choice all_simple_paths g number_of_flows 3);
  the_trial ← add_parameters_to the_trial
    [("K", AInt 3); ("duration", AInt 180); ("flow-set", flow_set flows); ("seed-number", AInt seed_number);
     ("link-utilization", AObj (AUtilization link_utilization))]%string;
  mret (add_trial (init_provider "testing") the_trial).

(** The module [flow_allocation] has no [compute_optimal_flow_allocations]. *)
Definition greedy_path_hopping_flows (g : Graph) (K : Z) : M S TrialProvider :=
  Trial_ 0 "greedy" ≫= λ _, lift (Raise AttributeError).

Definition attempted_optimal_flows (g : Graph) : M S TrialProvider :=
  foldS (λ _ K, Trial_ 0 (String.append "optimal-" (str_of_Z K)) ≫= λ _, lift (Raise AttributeError))
    (init_provider "optimal-varying-k") [3%Z].

Definition ilp_flows (g : Graph) : M S (option TrialProvider) :=
  let flow_selection_fn node_list :=
    p ← lift (mk_uniform_probability_distribution node_list); non_uniform_selection p node_list in
  the_trial ← Trial_ 0 "ilp";
  let seed_number := 0xDEADBEEF%Z in
  result ← on_np (compute_ilp_flows np_seed np_uniform node_disjoint_paths optimize fuel g flow_selection_fn seed_number);
  match result with
  | None => mret None
  | Some (flows, link_utilization) =>
      the_trial ← add_parameters_to the_trial
        [("duration", AInt 180); ("flow-set", flow_set flows); ("seed-number", AInt seed_number);
         ("link-utilization", AObj (AUtilization link_utilization))]%string;
      mret (Some (add_trial (init_provider "ilp-flows") the_trial))
  end.

Definition mcf_flows (g : Graph) : M S (option TrialProvider) :=
  let flow_selection_fn node_list :=
    p ← lift (mk_binomial_probability_distribution node_list); non_uniform_selection p node_list in
  the_trial ← Trial_ 0 "mcf";
  let seed_number := 0xCAFEBABE%Z in
  result ← on_np (compute_mcf_flows np_seed np_uniform optimize DiGraph fuel g flow_selection_fn seed_number);
  match result with
  | None => mret None
  | Some (flows, link_utilization) =>
      the_trial ← add_parameters_to the_trial
        [("duration", AInt 180); ("flow-set", AObj (AFlowSet flows)); ("seed-number", AInt seed_number);
         ("link-utilization", AObj (AUtilization link_utilization))]%string;
      mret (Some (add_trial (init_provider "multiflow-tests") the_trial))
  end.

(** Two of three arguments again. *)
Definition path_hopping_mcf_flows (g : Graph) (K : Z) : M S TrialProvider :=
  Trial_ 0 "path-hopping-mcf" ≫= λ _, lift (Raise TypeError).

(** ** multiflow_tests *)

Abbreviation Selector := (list node → M RNG (node * node)).

(** The variable [FLOW_SELECTOR] of the enclosing function, which is not
    always set. *)
Definition selector_value (FLOW_SELECTOR : option Selector) : M S Selector :=
  lift (or_raise NameError FLOW_SELECTOR).

Definition k_paths_allocation (FLOW_SELECTOR : option Selector) (oid : nat) (g : Graph) (K seed_number : Z)
    : M S (option Trial) :=
  k_paths_trial ← Trial_ oid "k-paths-allocation";
  selector ← selector_value FLOW_SELECTOR;
  result ← on_np (compute_ilp_flows np_seed np_uniform node_disjoint_paths optimize fuel g selector seed_number);
  match result with
  | None => mret None
  | Some (flows, link_utilization) =>
      k_paths_trial ← add_parameters_to k_paths_trial
        [("duration", AInt 180); ("flow-set", flow_set flows); ("seed-number", AInt seed_number);
         ("link-utilization", AObj (AUtilization link_utilization)); ("K", AInt K)]%string;
      mret (Some k_paths_trial)
  end.

Definition mcf_allocation (FLOW_SELECTOR : option Selector) (oid : nat) (g : Graph) (seed_number : Z)
    : M S (option Trial) :=
  mcf_trial ← Trial_ oid "mcf-trial";
  selector ← selector_value FLOW_SELECTOR;
  result ← on_np (compute_mcf_flows np_seed np_uniform optimize DiGraph fuel g selector seed_number);
  match result with
  | None => mret None
  | Some (flows, link_utilization) =>
      mcf_trial ← add_parameters_to mcf_trial
        [("duration", AInt 180); ("flow-set", AObj (AFlowSet flows)); ("seed-number", AInt seed_number);
         ("link-utilization", AObj (AUtilization link_utilization))]%string;
      mret (Some mcf_trial)
  end.

Definition greedy_path_hopping_allocation (FLOW_SELECTOR : option Selector) (oid : nat) (g : Graph) (seed_number : Z)
    : M S (option Trial) :=
  path_hopping_trial ← Trial_ oid "greedy-path-hopping";
  selector ← selector_value FLOW_SELECTOR;
  result ← on_np (compute_greedy_flow_allocations np_seed np_uniform node_disjoint_paths fuel g selector seed_number);
  match result with
  | None => mret None
  | Some (flows, link_utilization) =>
      path_hopping_trial ← add_parameters_to path_hopping_trial
        [("duration", AInt 180); ("flow-set", flow_set flows); ("seed-number", AInt seed_number);
         ("link-utilization", AObj (AUtilization link_utilization))]%string;
      mret (Some path_hopping_trial)
  end.

(** [path_hopping_allocation] is defined and not used by [multiflow_tests]. *)
Definition path_hopping_allocation (FLOW_SELECTOR : option (Graph → M RNG (node * node))) (oid : nat) (g : Graph)
    (K seed_number : Z) : M S (option Trial) :=
  path_hopping_trial ← Trial_ oid "path-hopping-allocation";
  selector ← lift (or_raise NameError FLOW_SELECTOR);
  result ← on_np (compute_path_hopping_flows_ilp np_seed np_uniform node_disjoint_paths optimize fuel g K selector seed_number);
  match result with
  | None => mret None
  | Some (flows, link_utilization) =>
      path_hopping_trial ← add_parameters_to path_hopping_trial
        [("duration", AInt 180); ("flow-set", flow_set flows); ("seed-number", AInt seed_number);
         ("link-utilization", AObj (AUtilization link_utilization)); ("K", AInt K)]%string;
      mret (Some path_hopping_trial)
  end.

(** [the_trial_provider.add_trial(m)], where [m] may have run out of fuel. *)
Definition add_allocated (p : option TrialProvider) (m : nat → M S (option Trial)) : M S (option TrialProvider) :=
  match p with
  | None => mret None
  | Some p => t ← m (length (trials p)); mret (add_trial p <$> t)
  end.

Definition multiflow_round (FLOW_SELECTOR : option Selector) (g : Graph) (K : Z) (p : option TrialProvider)
    : M S (option TrialProvider) :=
  seed_number ← on_rand (randint 0 (2 ^ 32));
  p ← add_allocated p (λ oid, k_paths_allocation FLOW_SELECTOR oid g K seed_number);
  p ← add_allocated p (λ oid, mcf_allocation FLOW_SELECTOR oid g seed_number);
  add_allocated p (λ oid, greedy_path_hopping_allocation FLOW_SELECTOR oid g seed_number).

Definition NUMBER_OF_TRIALS : nat := 10.

(** The distribution and the selection for a type; neither is set for an
    unknown type. *)
Definition select_distribution (g : Graph) (node_selection_type : string) : res (option (list Qc * Selector)) :=
  if bool_decide (node_selection_type = "binomial"%string) then
    p ← mk_binomial_probability_distribution (nodes g); Ok (Some (p, non_uniform_selection p))
  else if bool_decide (node_selection_type = "uniform"%string) then
    p ← mk_uniform_probability_distribution (nodes g); Ok (Some (p, uniform_selection))
  else Ok None.

Definition multiflow_tests (g : Graph) (node_selection_type : string) (K : Z) : M S (option TrialProvider) :=
  choice ← lift (select_distribution g node_selection_type);
  p ← foldS (λ p _, multiflow_round (snd <$> choice) g K p)
    (Some (init_provider (String.append "multiflow-tests-" node_selection_type))) (seq 0 NUMBER_OF_TRIALS);
  match p with
  | None => mret None
  | Some p =>
      distribution ← lift (or_raise NameError (fst <$> choice));
      p ← add_metadata_to p [("node-probability-distribution", AObj (ADistribution distribution));
        ("substrate-topology", AObj (AGraph g)); ("node-selection-type", AStr node_selection_type)]%string;
      mret (Some p)
  end.

Definition multiflow_tests_binomial (g : Graph) : M S (option TrialProvider) := multiflow_tests g "binomial" 3.
Definition multiflow_tests_uniform (g : Graph) : M S (option TrialProvider) := multiflow_tests g "uniform" 3.

(** [add_flows] extends the set with the pair that [single_flow] returns, the
    next call lacks an argument. *)
Definition single_flow_test (g : Graph) : M S TrialProvider :=
  Trial_ 0 "single-flow-test" ≫= λ _,
  on_np (single_flow np_seed np_choice node_disjoint_paths g (F := Qc)) ≫= λ _,
  lift (Raise TypeError).

Definition k_flows_tests (g : Graph) : M S (option TrialProvider) :=
  k_paths_trial ← Trial_ 0 "k-paths-allocation";
  result ← on_np (testing_k_paths_flow_allocation np_seed node_disjoint_paths optimize fuel g constant_selection DEFAULT_SEED_NUMBER);
  match result with
  | None => mret None
  | Some (flows, link_utilization) =>
      k_paths_trial ← add_parameters_to k_paths_trial
        [("duration", AInt 180); ("flow-set", flow_set flows); ("seed-number", AInt DEFAULT_SEED_NUMBER);
         ("link-utilization", AObj (AUtilization link_utilization))]%string;
      p ← add_metadata_to (init_provider "k-paths-testing") [("node-selection-type", AStr "constant")]%string;
      mret (Some (add_trial p k_paths_trial))
  end.

Definition sanity_test_trial (g : Graph) : M S TrialProvider :=
  the_trial ← Trial_ 0 "sanity-test";
  the_trial ← add_parameters_to the_trial [("duration"%string, AInt 180)];
  '(seed_number, flows) ← on_np (single_flow np_seed np_choice node_disjoint_paths g);
  the_trial ← add_parameters_to the_trial [("flow-set", flow_set flows); ("seed-number", AInt seed_number)]%string;
  mret (add_trial (init_provider "sanity-test-trial") the_trial).
End trials.

(** * Theorems

    The trials of [multiflow_tests]: in every group of three the allocations
    are made for the same sequence of requests, and none uses more of a link
    than there is. *)

From S2P Require Import FlowAllocationProps Routes PathModelsProps SolverAllocation.

Close Scope string_scope.

(** ** Increasing lists of integers *)

Lemma StronglySorted_seqZ_lt m n : StronglySorted Z.lt (seqZ m n).
Proof.
  destruct (Z_le_gt_dec 0 n) as [Hn|Hn]; [|rewrite seqZ_nil by lia; constructor]. revert m. pattern n.
  apply natlike_ind; [intros m; constructor| |done]. intros k Hk IH m. rewrite (seqZ_cons m) by lia.
  replace (Z.pred (Z.succ k)) with k by lia. constructor; [apply IH|].
  apply Forall_forall. intros x Hx%elem_of_seqZ. lia.
Qed.

Lemma StronglySorted_lt_NoDup (l : list Z) : StronglySorted Z.lt l → NoDup l.
Proof.
  induction 1 as [|x l _ IH Hx]; constructor; [|done]. intros Hin. rewrite Forall_forall in Hx. specialize (Hx x Hin). lia.
Qed.

(** * Requests *)

(** The end points and the rate of a flow are what is drawn for it. *)
Definition request : Type := node * node * Qc.
Definition request_of (f : flow) : request := (source_node f, destination_node f, flow_tx_rate f).

Section requests.
Context {RNG : Type}.
Variable np_seed : Z → RNG.
Variable np_uniform : Qc → Qc → M RNG Qc.
Variable node_disjoint_paths : Graph → node → node → res (list path).
Variable optimize : Model → option (nat → Qc).
Variable select : list node → M RNG (node * node).

(** The next [n] requests. *)
Fixpoint requests (ns : list node) (n : nat) : M RNG (list request) :=
  match n with
  | 0 => mret []
  | S n =>
      '(s, t) ← select ns;
      rate ← np_uniform FLOW_TX_RATE_LOWER_BOUND FLOW_TX_RATE_UPPER_BOUND;
      rest ← requests ns n;
      mret ((s, t, rate) :: rest)
  end.

(** Fewer requests are the first ones. *)
Lemma requests_prefix ns n m rng l1 r1 l2 r2 :
  n ≤ m → requests ns n rng = (Ok l1, r1) → requests ns m rng = (Ok l2, r2) → l1 `prefix_of` l2.
Proof.
  revert m rng l1 r1 l2 r2. induction n as [|n IH]; intros m rng l1 r1 l2 r2 Hle.
  { intros [= <- _] _. apply prefix_nil. }
  destruct m as [|m]; [lia|]. cbn [requests].
  intros ([s t] & ra & Hs & (rate & rb & Hr & (rest & rc & Hrest & [= <- _])%bindS_Ok)%bindS_Ok)%bindS_Ok.
  intros ([s' t'] & ra' & Hs' & (rate' & rb' & Hr' & (rest' & rc' & Hrest' & [= <- _])%bindS_Ok)%bindS_Ok)%bindS_Ok.
  rewrite Hs in Hs'. injection Hs' as <- <- <-. rewrite Hr in Hr'. injection Hr' as <- <-.
  apply prefix_cons, (IH m rb rest rc rest' rc'); [lia|done..].
Qed.

(** The flows [fs] are made for the next requests. *)
Definition serves (ns : list node) (rng : RNG) (fs : list flow) : Prop :=
  ∃ n reqs rng', requests ns n rng = (Ok reqs, rng') ∧ request_of <$> fs `prefix_of` reqs.

Lemma serves_nil ns rng : serves ns rng [].
Proof. exists 0, [], rng. split; [done|]. apply prefix_nil. Qed.

Lemma serves_cons ns rng s t r1 rate r2 f fs :
  select ns rng = (Ok (s, t), r1) →
  np_uniform FLOW_TX_RATE_LOWER_BOUND FLOW_TX_RATE_UPPER_BOUND r1 = (Ok rate, r2) →
  request_of f = (s, t, rate) → serves ns r2 fs → serves ns rng (f :: fs).
Proof.
  intros Hs Hr Hf (n & reqs & r3 & Hreq & Hpre). exists (S n), ((s, t, rate) :: reqs), r3. split.
  - cbn [requests]. rewrite (bindS_run _ _ _ (s, t) r1) by done. rewrite (bindS_run _ _ _ rate r2) by done.
    by rewrite (bindS_run _ _ _ reqs r3) by done.
  - rewrite fmap_cons, Hf. by apply prefix_cons.
Qed.

(** Two allocations for requests from the same state of the generator: one
    list of requests covers both. *)
Lemma serves_common ns rng (fss : list (list flow)) :
  Forall (serves ns rng) fss → ∃ reqs, Forall (λ fs, request_of <$> fs `prefix_of` reqs) fss.
Proof.
  intros Hall. cut (∃ n reqs rng', requests ns n rng = (Ok reqs, rng') ∧ Forall (λ fs, request_of <$> fs `prefix_of` reqs) fss).
  { intros (n & reqs & rng' & _ & Hreqs). by exists reqs. }
  induction Hall as [|fs fss (n & reqs & r1 & Hn & Hp) _ (m & reqs' & r2 & Hm & Hps)].
  { exists 0, [], rng. split; [done|constructor]. }
  destruct (decide (n ≤ m)) as [Hle|Hle].
  - exists m, reqs', r2. split; [done|]. constructor; [|done].
    etrans; [exact Hp|]. by eapply (requests_prefix ns n m rng).
  - exists n, reqs, r1. split; [done|]. constructor; [done|]. eapply Forall_impl; [exact Hps|].
    intros fs' Hfs'. cbn in *. etrans; [exact Hfs'|]. eapply (requests_prefix ns m n rng); [lia|done..].
Qed.

(** ** The three loops *)

Lemma greedy_loop_serves g fuel u flows rng flows' u' rng' :
  greedy_loop np_uniform node_disjoint_paths select g fuel u flows rng = (Ok (Some (flows', u')), rng') →
  ∃ fs, flows' = flows ++ fs ∧ serves (nodes g) rng fs.
Proof.
  revert u flows rng. induction fuel as [|fuel IH]; intros u flows rng; cbn [greedy_loop]; [done|].
  intros ([added u1] & r1 & Hround & Hrest)%bindS_Ok. unfold greedy_round in Hround.
  apply bindS_Ok in Hround as ([s t] & ra & Hs & (rate & rb & Hr & (ps & rc & [_ ->]%lift_Ok & Hround)%bindS_Ok)%bindS_Ok).
  cbn zeta in Hround. apply bindS_Ok in Hround as (share & rd & [_ ->]%lift_Ok & ([exceeded u2] & re & [_ ->]%lift_Ok & Hround)%bindS_Ok).
  destruct exceeded; [injection Hround as <- _ _; injection Hrest as <- _ _; exists []; rewrite app_nil_r; split; [done|apply serves_nil]|].
  apply bindS_Ok in Hround as (share' & rf & [_ ->]%lift_Ok & [= <- <- <-]).
  apply IH in Hrest as (fs & -> & Hfs). eexists (_ :: fs). split; [by rewrite <-(assoc_L (++))|].
  by eapply serves_cons.
Qed.

Lemma ilp_loop_serves g fuel flows feasible rng flows' feasible' rng' :
  ilp_loop np_uniform node_disjoint_paths optimize select g fuel flows feasible rng = (Ok (Some (flows', feasible')), rng') →
  ∃ fs, flows' = flows ++ fs ∧ serves (nodes g) rng fs.
Proof.
  revert flows feasible rng. induction fuel as [|fuel IH]; intros flows feasible rng; cbn [ilp_loop]; [done|].
  intros ([s t] & r1 & Hs & (ps & r2 & [_ ->]%lift_Ok & (rate & r3 & Hr & Hrest)%bindS_Ok)%bindS_Ok)%bindS_Ok.
  destruct (create_k_paths_model g flows s t rate ps) as [r m].
  apply bindS_Ok in Hrest as ([] & r4 & [_ ->]%lift_Ok & Hrest).
  destruct (optimize m) as [a|]; [|injection Hrest as <- _ _; exists []; rewrite app_nil_r; split; [done|apply serves_nil]].
  apply IH in Hrest as (fs & -> & Hfs). eexists (_ :: fs). split; [by rewrite <-(assoc_L (++))|].
  by eapply serves_cons.
Qed.

Lemma mcf_loop_serves g fuel flows feasible rng flows' feasible' rng' :
  mcf_loop np_uniform optimize select g fuel flows feasible rng = (Ok (Some (flows', feasible')), rng') →
  ∃ fs, flows' = flows ++ fs ∧ serves (nodes g) rng fs.
Proof.
  revert flows feasible rng. induction fuel as [|fuel IH]; intros flows feasible rng; cbn [mcf_loop]; [done|].
  intros ([s t] & r1 & Hs & (rate & r2 & Hr & Hrest)%bindS_Ok)%bindS_Ok.
  destruct (create_mcf_model g flows s t rate) as [r m].
  apply bindS_Ok in Hrest as ([U F] & r4 & [_ ->]%lift_Ok & Hrest).
  destruct (optimize m) as [a|]; [|injection Hrest as <- _ _; exists []; rewrite app_nil_r; split; [done|apply serves_nil]].
  apply IH in Hrest as (fs & -> & Hfs). eexists (_ :: fs). split; [by rewrite <-(assoc_L (++))|].
  by eapply serves_cons.
Qed.

Lemma seed_Ok n rng r rng' : np_random_seed np_seed n rng = (Ok r, rng') → rng' = np_seed n.
Proof. unfold np_random_seed. case_bool_decide; [by intros [= _ <-]|done]. Qed.

Lemma serves_same ns rng fs fs' : request_of <$> fs' = request_of <$> fs → serves ns rng fs → serves ns rng fs'.
Proof. unfold serves. by intros ->. Qed.

(** ** The three allocations *)

Lemma append_ratio_requests fl i x fl' : append_ratio fl i x = Ok fl' → request_of <$> fl' = request_of <$> fl.
Proof.
  intros (f & Hf & (rs & Hrs & [= <-])%bind_Ok)%bind_Ok. rewrite list_fmap_insert. apply list_insert_id.
  rewrite list_lookup_fmap. assert (fl !! py_pos fl i = Some f) as ->; [|done].
  revert Hf. unfold py_index, py_pos. case_bool_decide; [|case_bool_decide; [|done]]; destruct (fl !! _); naive_solver.
Qed.

Lemma read_solution_requests links fl m a fl' U :
  read_solution links fl m a = Ok (fl', U) → request_of <$> fl' = request_of <$> fl.
Proof.
  intros Hr. refine (foldM_inv (λ st : list flow * dict link Qc, request_of <$> st.1 = request_of <$> fl) _ _ _ _ _ _ Hr); [|done].
  intros [fl1 U1] [i v] [fl2 U2] _ Hfl. unfold read_variable. cbn [fst] in *. destruct (str_in "X" (varName v)).
  - intros (idx & _ & Hrest)%bind_Ok. destruct idx as [[|j [|k [|? ?]]]| |]; try done.
    apply bind_Ok in Hrest as (fl3 & Ha%append_ratio_requests & [= <- _]). by rewrite Ha.
  - destruct (str_in "K" (varName v)); [|by intros [= <- _]].
    intros (idx & _ & Hrest)%bind_Ok. destruct idx; try done. by apply bind_Ok in Hrest as (l & _ & [= <- _]).
Qed.

Definition within (u : dict link Qc) : Prop := ∀ e x, Dict.get u e = Some x → (x <= LINK_CAPACITY)%Qc.

Lemma greedy_allocated fuel g seed rng flows u rng' :
  compute_greedy_flow_allocations np_seed np_uniform node_disjoint_paths fuel g select seed rng
    = (Ok (Some (flows, u)), rng') →
  serves (nodes g) (np_seed seed) flows ∧ within u.
Proof.
  intros Hrun. split.
  - apply bindS_Ok in Hrun as ([] & r1 & ->%seed_Ok & (fs & -> & Hfs)%greedy_loop_serves). done.
  - apply compute_greedy_run in Hrun. intros e x Hx%Dict.get_elem_of. apply flt_exact_false.
    apply (run_within _ _ _ _ _ Hrun) in Hx; [done|].
    pose proof (within_capacity_initial (F:=Qc) (sorted_pair <$> edges g)) as Hi.
    by rewrite <-list_fmap_compose in Hi.
Qed.

Hypothesis optimize_sound : ∀ m a, optimize m = Some a → satisfies a m.

Lemma ilp_allocated fuel g seed rng flows u rng' :
  compute_ilp_flows np_seed np_uniform node_disjoint_paths optimize fuel g select seed rng = (Ok (Some (flows, u)), rng') →
  serves (nodes g) (np_seed seed) flows ∧ within u.
Proof.
  intros Hrun. split.
  - apply bindS_Ok in Hrun as ([] & r1 & ->%seed_Ok & (result & r2 & Hloop & Hrest)%bindS_Ok).
    destruct result as [[fl fm]|]; [|done]. apply ilp_loop_serves in Hloop as (fs & -> & Hfs).
    destruct fm as [[m a]|]; [|injection Hrest as <- _ _; apply serves_nil].
    apply bindS_Ok in Hrest as ([fl' U] & r3 & [Hread ->]%lift_Ok & (u' & r4 & _ & [= -> _ _])%bindS_Ok).
    eapply serves_same; [by eapply read_solution_requests|done].
  - destruct (ilp_flows_sound np_seed np_uniform node_disjoint_paths optimize fuel g select seed rng flows u rng' optimize_sound Hrun)
      as [_ Hu]. intros e x Hx. exact (proj2 (Hu e x Hx)).
Qed.

(** The table of shares has every flow, or there are no links. *)
Lemma mcf_key_indices fs ls i :
  i ∈ flow_selector <$> mcf_keys fs ls ↔ ls ≠ [] ∧ (0 ≤ i < Z.of_nat (length fs))%Z.
Proof.
  unfold mcf_keys. rewrite list_elem_of_fmap. split.
  - intros (k & -> & Hk). apply list_elem_of_In, in_concat in Hk as (l & Hl & Hk).
    apply list_elem_of_In, list_elem_of_fmap in Hl as ([j f] & -> & Hj%elem_of_enumerate%lookup_lt_Some).
    apply list_elem_of_In, list_elem_of_fmap in Hk as (e & -> & He). cbn. split; [|lia]. intros ->. by apply not_elem_of_nil in He.
  - intros [Hls Hi]. destruct ls as [|[e x] ls]; [done|].
    destruct (lookup_lt_is_Some_2 fs (Z.to_nat i)) as [f Hf]; [lia|]. exists (i, e.1, e.2). split; [done|].
    apply list_elem_of_In, in_concat. eexists. split.
    + apply list_elem_of_In, list_elem_of_fmap. exists (Z.to_nat i, f). split; [reflexivity|]. by apply elem_of_enumerate.
    + apply list_elem_of_In, list_elem_of_fmap. exists e. cbn. rewrite Z2Nat.id by lia. split; [done|left].
Qed.

Lemma routed_requests (fl : list flow) (alloc : dict (Z * Z * Z) Qc) ls flows :
  (∀ k, k ∈ Dict.keys alloc ↔ k ∈ mcf_keys fl ls) → compute_mcf_flow_routes fl alloc = Ok flows →
  ∃ fs, flows = Some <$> fs ∧ request_of <$> fs `prefix_of` request_of <$> fl.
Proof.
  intros Hk Hflows. assert (∀ i, i ∈ flow_selector <$> Dict.keys alloc ↔ ls ≠ [] ∧ (0 ≤ i < Z.of_nat (length fl))%Z) as Hidx.
  { intros i. rewrite <-mcf_key_indices, !list_elem_of_fmap. split; intros (k & -> & Hin); exists k; (split; [done|]); by apply Hk. }
  destruct (mcf_flow_routes_spec fl alloc) as (idxs & routed & Hroutes & Hsorted & Hmem & Hall).
  { apply Forall_forall. intros k Hin. apply Hidx, list_elem_of_fmap. by exists k. }
  rewrite Hroutes in Hflows. injection Hflows as <-. exists routed. split; [done|].
  setoid_rewrite Hidx in Hmem. destruct (decide (ls = [])) as [->|Hls].
  { destruct Hall as [|i f idxs fs]; [apply prefix_nil|]. exfalso. by destruct (proj1 (Hmem i) ltac:(left)). }
  assert (idxs = seqZ 0 (Z.of_nat (length fl))) as ->.
  { apply (StronglySorted_unique_strong Z.lt); [intros x1 x2 _ _; lia|done|apply StronglySorted_seqZ_lt|].
    apply NoDup_Permutation; [by apply StronglySorted_lt_NoDup|apply NoDup_seqZ|].
    intros i. rewrite Hmem, elem_of_seqZ. split; [intros [_ ?]; lia|intros ?; split; [done|lia]]. }
  assert (request_of <$> routed = request_of <$> fl) as ->; [|done].
  apply list_eq_same_length with (n := length fl); [by rewrite length_fmap| |].
  { rewrite length_fmap, <-(Forall2_length _ _ _ Hall), length_seqZ. lia. }
  intros i r1 r2 Hi. rewrite !list_lookup_fmap. intros (f' & Hf' & ->)%fmap_Some (f & Hf & ->)%fmap_Some.
  destruct (Forall2_lookup_r _ _ _ _ _ Hall Hf') as (j & Hj & (f0 & rs & Hf0 & H1 & H2 & H3 & _)).
  apply lookup_seqZ in Hj as [-> _]. rewrite Z.add_0_l, Nat2Z.id, Hf in Hf0. injection Hf0 as ->.
  unfold request_of. congruence.
Qed.

Variable DiGraph : Graph → Graph.

Lemma mcf_allocated fuel g seed rng flows u rng' :
  NoDup (edges (DiGraph g)) → (∀ n, (n, n) ∉ edges (DiGraph g)) →
  compute_mcf_flows np_seed np_uniform optimize DiGraph fuel g select seed rng = (Ok (Some (flows, u)), rng') →
  ∃ fs, flows = Some <$> fs ∧ serves (nodes (DiGraph g)) (np_seed seed) fs ∧ within u.
Proof.
  intros Hnd Hno Hrun. assert (within u) as Hu.
  { destruct (mcf_flows_sound np_seed np_uniform optimize DiGraph fuel g select seed rng flows u rng' optimize_sound Hnd Hno Hrun)
      as [[_ ->]|(fl & alloc & _ & _ & Hx)]; [done|]. intros e x He. exact (proj2 (Hx e x He)). }
  apply bindS_Ok in Hrun as ([] & r1 & ->%seed_Ok & (result & r2 & Hloop & Hrest)%bindS_Ok).
  destruct result as [[fl fm]|]; [|done]. pose proof Hloop as (fs & -> & n & reqs & r3 & Hreqs & Hpre)%mcf_loop_serves.
  apply (mcf_loop_solved _ optimize) in Hloop; [|done].
  destruct fm as [sol|]; [|injection Hrest as <- _ _; exists []; split; [done|]; split; [apply serves_nil|done]].
  destruct Hloop as (U & F & a & m & Hf & _ & ->).
  apply bindS_Ok in Hrest as (d & r4 & _ & (chk & r5 & _ & (routes & r6 & [Hr ->]%lift_Ok & [= -> _ _])%bindS_Ok)%bindS_Ok).
  apply (routed_requests _ _ (directed_link_set (DiGraph g))) in Hr as (routed & -> & Hrouted).
  - exists routed. split; [done|]. split; [|done]. exists n, reqs, r3. split; [done|]. by etrans.
  - intros k. rewrite <-(mf_keys _ _ _ _ _ Hf). unfold Dict.keys. cbn [feasible_allocations]. rewrite <-list_fmap_compose.
    rewrite (list_fmap_ext (fst ∘ prod_map id a) fst F); [done|by intros i []].
Qed.
End requests.

(** * The trials *)

(** The trial [t] has the seed, the flows and the utilization of an
    allocation. *)
Record holds (heap : list alloc_object) (name : string) (seed : Z) (t : Trial) (fs : list flow) (u : dict link Qc) : Prop := {
  ho_name : trial_name t = name;
  ho_duration : get_parameter t "duration" = Ok (VInt 180);
  ho_seed : get_parameter t "seed-number" = Ok (VInt seed);
  ho_flows : ∃ i, get_parameter t "flow-set" = Ok (VObj i) ∧ heap !! i = Some (AFlowSet (Some <$> fs));
  ho_utilization : ∃ j, get_parameter t "link-utilization" = Ok (VObj j) ∧ heap !! j = Some (AUtilization u)
}.

(** Three trials of one round: the same seed, requests of one sequence, and
    no link is overfull. *)
Definition group (heap : list alloc_object) (ts : list Trial) : Prop :=
  ∃ seed t1 t2 t3 fs1 fs2 fs3 u1 u2 u3 reqs, ts = [t1; t2; t3] ∧
    holds heap "k-paths-allocation" seed t1 fs1 u1 ∧ holds heap "mcf-trial" seed t2 fs2 u2 ∧
    holds heap "greedy-path-hopping" seed t3 fs3 u3 ∧
    Forall (λ fs, request_of <$> fs `prefix_of` reqs) [fs1; fs2; fs3] ∧ Forall within [u1; u2; u3].

Lemma holds_prefix heap heap' name seed t fs u : heap `prefix_of` heap' → holds heap name seed t fs u → holds heap' name seed t fs u.
Proof.
  intros Hp [H1 H2 H3 (i & H4 & H5) (j & H6 & H7)]. split; [done..|exists i|exists j];
    (split; [done|]; by eapply prefix_lookup_Some).
Qed.

Lemma group_prefix heap heap' ts : heap `prefix_of` heap' → group heap ts → group heap' ts.
Proof.
  intros Hp (seed & t1 & t2 & t3 & fs1 & fs2 & fs3 & u1 & u2 & u3 & reqs & -> & H1 & H2 & H3 & Hr & Hu).
  exists seed, t1, t2, t3, fs1, fs2, fs3, u1, u2, u3, reqs. split_and!; [done|by eapply holds_prefix..|done|done].
Qed.

Section trials.
Context {R RNG : Type}.
Abbreviation S := (AllocState R RNG).
Variable randint : Z → Z → M R Z.
Variable np_seed : Z → RNG.
Variable np_uniform : Qc → Qc → M RNG Qc.
Variable node_disjoint_paths : Graph → node → node → res (list path).
Variable optimize : Model → option (nat → Qc).
Variable DiGraph : Graph → Graph.
Variable fuel : nat.
Hypothesis optimize_sound : ∀ m a, optimize m = Some a → satisfies a m.

Lemma on_np_Ok {A} (m : M RNG A) (s : S) a s' :
  on_np m s = (Ok a, s') → ∃ rng', m (al_np s) = (Ok a, rng') ∧ s' = mkAllocState (al_heap s) (al_rand s) rng'.
Proof. unfold on_np. destruct (m (al_np s)) as [r rng']. intros [= -> <-]. by exists rng'. Qed.

Lemma on_rand_heap {A} (m : M R A) (s : S) r s' : on_rand m s = (r, s') → al_heap s' = al_heap s.
Proof. unfold on_rand. destruct (m (al_rand s)). by intros [= _ <-]. Qed.

Lemma Trial_Ok oid name (s : S) t s' :
  Trial_ randint oid name s = (Ok t, s') → (∃ id, t = init_trial oid name id) ∧ al_heap s' = al_heap s.
Proof. intros (id & s1 & Hs1%on_rand_heap & [= <- <-])%bindS_Ok. split; [by exists id|done]. Qed.

(** The parameters of an allocation are stored, [extra] ones too. *)
Lemma stored_allocation extra oid name id seed fs u (s : S) t s' :
  (extra = [] ∨ ∃ K, extra = [("K"%string, AInt K)]) →
  add_parameters_to (init_trial oid name id) ([("duration", AInt 180); ("flow-set", AObj (AFlowSet (Some <$> fs)));
    ("seed-number", AInt seed); ("link-utilization", AObj (AUtilization u))]%string ++ extra) s = (Ok t, s') →
  al_heap s `prefix_of` al_heap s' ∧ holds (al_heap s') name seed t fs u.
Proof.
  intros Hextra Hadd.
  assert (al_heap s' = (al_heap s ++ [AFlowSet (Some <$> fs)]) ++ [AUtilization u] ∧ trial_name t = name ∧
    ∀ k, k ∈ ["duration"; "flow-set"; "seed-number"; "link-utilization"]%string →
      get_parameter t k = get_parameter (mkTrial oid name [("duration", VInt 180); ("flow-set", VObj (length (al_heap s)));
        ("seed-number", VInt seed); ("link-utilization", VObj (length (al_heap s ++ [AFlowSet (Some <$> fs)])))]%string) k)
    as (Hheap & Hname & Hget).
  { destruct Hextra as [->|[K ->]]; injection Hadd as <- <-; (split; [reflexivity|]); (split; [reflexivity|]);
      apply Forall_forall; repeat constructor. }
  split; [rewrite Hheap, <-(assoc_L (++)); by eexists|].
  split; [done|by rewrite Hget by set_solver|by rewrite Hget by set_solver|eexists|eexists];
    (split; [by rewrite Hget by set_solver|]); rewrite Hheap.
  - rewrite lookup_app_l by (rewrite length_app; simpl; lia). by rewrite lookup_app_r, Nat.sub_diag by lia.
  - by rewrite lookup_app_r, Nat.sub_diag by lia.
Qed.

Variable g : Graph.
Hypothesis digraph_edges : NoDup (edges (DiGraph g)).
Hypothesis digraph_loops : ∀ n, (n, n) ∉ edges (DiGraph g).
Hypothesis digraph_nodes : nodes (DiGraph g) = nodes g.
Variable selector : list node → M RNG (node * node).

(** What a trial of [seed] holds. *)
Definition made (name : string) (seed : Z) (s s' : S) (t : Trial) : Prop :=
  al_heap s `prefix_of` al_heap s' ∧ ∃ fs u, holds (al_heap s') name seed t fs u ∧
    serves np_uniform selector (nodes g) (np_seed seed) fs ∧ within u.

Lemma k_paths_made oid K seed s t s' :
  k_paths_allocation randint np_seed np_uniform node_disjoint_paths optimize fuel (Some selector) oid g K seed s = (Ok (Some t), s') →
  made "k-paths-allocation" seed s s' t.
Proof.
  intros (t0 & s1 & [[id ->] H1]%Trial_Ok & (sel & s2 & [[= <-] ->]%lift_Ok & (result & s3 & Hrun & Hrest)%bindS_Ok)%bindS_Ok)%bindS_Ok.
  apply on_np_Ok in Hrun as (rng & Hrun & ->). destruct result as [[flows u]|]; [|done].
  apply bindS_Ok in Hrest as (t1 & s4 & Hadd & [= -> ->]).
  apply ilp_allocated in Hrun as [Hserves Hu]; [|done].
  apply (stored_allocation [("K"%string, AInt K)]) in Hadd as [Hp Hh]; [|by eauto]. cbn [al_heap] in Hp. rewrite H1 in Hp.
  split; [done|]. by exists flows, u.
Qed.

Lemma mcf_made oid seed s t s' :
  mcf_allocation randint np_seed np_uniform optimize DiGraph fuel (Some selector) oid g seed s = (Ok (Some t), s') →
  made "mcf-trial" seed s s' t.
Proof.
  intros (t0 & s1 & [[id ->] H1]%Trial_Ok & (sel & s2 & [[= <-] ->]%lift_Ok & (result & s3 & Hrun & Hrest)%bindS_Ok)%bindS_Ok)%bindS_Ok.
  apply on_np_Ok in Hrun as (rng & Hrun & ->). destruct result as [[flows u]|]; [|done].
  apply bindS_Ok in Hrest as (t1 & s4 & Hadd & [= -> ->]).
  apply mcf_allocated in Hrun as (fs & -> & Hserves & Hu); [|done..]. rewrite digraph_nodes in Hserves.
  apply (stored_allocation []) in Hadd as [Hp Hh]; [|by left]. cbn [al_heap] in Hp. rewrite H1 in Hp.
  split; [done|]. by exists fs, u.
Qed.

Lemma greedy_made oid seed s t s' :
  greedy_path_hopping_allocation randint np_seed np_uniform node_disjoint_paths fuel (Some selector) oid g seed s = (Ok (Some t), s') →
  made "greedy-path-hopping" seed s s' t.
Proof.
  intros (t0 & s1 & [[id ->] H1]%Trial_Ok & (sel & s2 & [[= <-] ->]%lift_Ok & (result & s3 & Hrun & Hrest)%bindS_Ok)%bindS_Ok)%bindS_Ok.
  apply on_np_Ok in Hrun as (rng & Hrun & ->). destruct result as [[flows u]|]; [|done].
  apply bindS_Ok in Hrest as (t1 & s4 & Hadd & [= -> ->]).
  apply greedy_allocated in Hrun as [Hserves Hu].
  apply (stored_allocation []) in Hadd as [Hp Hh]; [|by left]. cbn [al_heap] in Hp. rewrite H1 in Hp.
  split; [done|]. by exists flows, u.
Qed.

Lemma add_allocated_Ok p m (s : S) p' s' :
  add_allocated p m s = (Ok (Some p'), s') → ∃ q t, p = Some q ∧ m (length (trials q)) s = (Ok (Some t), s') ∧ p' = add_trial q t.
Proof.
  destruct p as [q|]; [|done]. intros ([t|] & s1 & Hm & [= <- <-])%bindS_Ok. by exists q, t.
Qed.

Lemma round_group K p s p' s' :
  multiflow_round randint np_seed np_uniform node_disjoint_paths optimize DiGraph fuel (Some selector) g K p s = (Ok (Some p'), s') →
  ∃ q ts, p = Some q ∧ trials p' = trials q ++ ts ∧ group (al_heap s') ts ∧ al_heap s `prefix_of` al_heap s' ∧
    provider_name p' = provider_name q ∧ metadata p' = metadata q.
Proof.
  intros (seed & s1 & Hseed%on_rand_heap & (p1 & s2 & H1 & (p2 & s3 & H2 & H3)%bindS_Ok)%bindS_Ok)%bindS_Ok.
  apply add_allocated_Ok in H3 as (q2 & t3 & -> & (Hp3 & fs3 & u3 & Hh3 & Hs3 & Hu3)%greedy_made & ->).
  apply add_allocated_Ok in H2 as (q1 & t2 & -> & (Hp2 & fs2 & u2 & Hh2 & Hs2 & Hu2)%mcf_made & ->).
  apply add_allocated_Ok in H1 as (q & t1 & -> & (Hp1 & fs1 & u1 & Hh1 & Hs1 & Hu1)%k_paths_made & ->).
  exists q, [t1; t2; t3]. cbn [add_trial with_trials trials provider_name metadata].
  rewrite Hseed in Hp1. split_and!; [done|by rewrite <-!(assoc_L (++))| |by do 2 (etrans; [eassumption|])|done|done].
  destruct (serves_common np_uniform selector (nodes g) (np_seed seed) [fs1; fs2; fs3]) as [reqs Hreqs]; [by repeat constructor|].
  exists seed, t1, t2, t3, fs1, fs2, fs3, u1, u2, u3, reqs.
  split_and!; [done|eapply holds_prefix, Hh1; by etrans|by eapply holds_prefix|done|done|by repeat constructor].
Qed.

Lemma rounds_groups K p0 s p s' :
  foldS (λ p (_ : nat), multiflow_round randint np_seed np_uniform node_disjoint_paths optimize DiGraph fuel (Some selector) g K p)
    (Some p0) (seq 0 NUMBER_OF_TRIALS) s = (Ok (Some p), s') →
  ∃ groups, trials p = trials p0 ++ concat groups ∧ length groups = NUMBER_OF_TRIALS ∧ Forall (group (al_heap s')) groups ∧
    provider_name p = provider_name p0 ∧ metadata p = metadata p0.
Proof.
  intros Hrun. refine (foldS_inv (λ l1 p s, ∀ q, p = Some q → ∃ groups, trials q = trials p0 ++ concat groups ∧
      length groups = length l1 ∧ Forall (group (al_heap s)) groups ∧ provider_name q = provider_name p0 ∧ metadata q = metadata p0)
    _ _ _ _ _ _ _ _ Hrun p eq_refl).
  - intros l1 i l2 p1 s1 p2 s2 _ HP Hround q ->. apply round_group in Hround as (q1 & ts & -> & Hts & Hg & Hpre & Hn & Hm).
    destruct (HP q1 eq_refl) as (groups & Hq & Hlen & Hall & Hn1 & Hm1). exists (groups ++ [ts]).
    rewrite Hts, Hq, concat_app, <-(assoc_L (++)), !length_app, Hlen. cbn [concat]. rewrite app_nil_r. split_and!; [done|done| |congruence..].
    apply Forall_app. split; [|by apply Forall_singleton]. eapply Forall_impl; [exact Hall|]. intros ts'. by apply group_prefix.
  - intros q [= <-]. exists []. cbn. rewrite app_nil_r. split_and!; [done|done|constructor|done|done].
Qed.

Lemma store_heap v (s : S) r s' : store v s = (r, s') → al_heap s `prefix_of` al_heap s'.
Proof. destruct v; intros [= _ <-]; [done|done|]. by eexists. Qed.

End trials.


(** ** Two nodes and one link *)

Definition demo_graph : Graph := mkGraph [1; 2]%Z [(1, 2)]%Z.
Definition demo_optimize (m : Model) : option (nat → Qc) :=
  match try_assignment tiny_guess m with
  | Some a => Some a
  | None => try_assignment even_guess m
  end.
Definition demo_choice (l : list node) (k : nat) : M Z (list node) := mret (take k l).
Lemma demo_optimize_sound m a : demo_optimize m = Some a → satisfies a m.
Proof.
  unfold demo_optimize. destruct (try_assignment tiny_guess m) as [a'|] eqn:Ea; [|apply try_assignment_sound].
  intros [= <-]. exact (try_assignment_sound tiny_guess m a' Ea).
Qed.

Lemma demo_no_loops n : (n, n) ∉ edges (both_directions demo_graph).
Proof.
  change (edges (both_directions demo_graph)) with [(1, 2); (2, 1)]%Z.
  intros [[= H1 H2]|[[= H1 H2]|Hin]%elem_of_cons]%elem_of_cons; [lia|lia|by apply not_elem_of_nil in Hin].
Qed.

Lemma demo_returns :
  ∃ p s', multiflow_tests (λ a _ (u : unit), (Ok a, u)) id tiny_uniform demo_choice (λ _, demo_choice) (λ _ _, fzero) tiny_paths
    demo_optimize both_directions 4 demo_graph "uniform" 3 (mkAllocState [] tt 0%Z) = (Ok (Some p), s') ∧
    length (trials p) = 30.
Proof. eexists _, _. split; vm_compute; reflexivity. Qed.


(** ** Functions that never return *)

(** [k_flows_tests] uses the model whose construction always raises. *)
Lemma k_flows_tests_raises {R RNG} (randint : Z → Z → M R Z) (np_seed : Z → RNG) node_disjoint_paths optimize fuel g s r s' :
  0 < fuel → k_flows_tests randint np_seed node_disjoint_paths optimize fuel g s = (r, s') → ∃ e, r = Raise e.
Proof.
  intros Hfuel Hrun. destruct r as [r|e]; [|by exists e]. exfalso.
  apply bindS_Ok in Hrun as (t & s1 & _ & (result & s2 & Hnp & _)%bindS_Ok).
  apply on_np_Ok in Hnp as (rng & Hnp & _). apply testing_allocation_never_returns in Hnp as [e He]; [done|done].
Qed.
