(* ===== verification/Orchestrator.v ===== *)
(** The orchestrator of the multipath experiments on the OpenFlow controller
    (mp_routing/multipath_orchestrator.py): the rules of the routes, and the
    statistics monitor, whose timer thread runs beside the thread that
    starts and stops it.

    The file parser that provides the routes is an argument. *)

From Stdlib Require Import Ascii.
From S2P Require Import Prelude PyDict PyStr Json OpenFlow HostMapper.

Local Open Scope string_scope.

(** [d[k].append(x)] on a [defaultdict(list)]. *)
Definition append_default {K V} `{Countable K} (d : dict K (list V)) (k : K) (x : V) : dict K (list V) :=
  Dict.set d k (Dict.get_default [] d k ++ [x])%list.

(** * MPRouteAdder *)

Definition calculate_dscp_value (flow_num : Z) : Z := flow_num + 1.

(** A host name that was not resolved is [None]. *)
Definition json_of_option (o : option string) : json :=
  match o with Some s => JStr s | None => JNull end.

Section routes.
Context {W : Type} `{RyuApi W} `{DnsApi W}.
Variables (host : string) (port_no : Z) (domain : string).
(** [installed_routes] and the controller. *)
Abbreviation S := (dict string (list Flowmod) * W)%type.

Definition host_ip (sw : Z) : M W (option string) :=
  hostname ← lift (map_sw_to_host (str_of_Z sw)); resolve_hostname domain hostname.

(** [int(self._mapper.map_sw_to_dpid(sw))] *)
Definition int_dpid (sw : Z) : M W Z :=
  dpid ← map_sw_to_dpid host port_no (str_of_Z sw);
  dpid ← lift (or_raise TypeError dpid);
  lift (int_of_str dpid).

Definition route_match (src_ip dst_ip : option string) (dscp_val : Z) : Match :=
  add_criteria (add_criteria (add_criteria (add_criteria (init_match eth_type (JInt 2048))
    ipv4_src (json_of_option src_ip)) ipv4_dst (json_of_option dst_ip)) ip_dscp (JInt dscp_val)) ip_proto (JInt 17).

Definition route_flowmod (src_dpid : Z) (m : Match) (out_port : Z) : Flowmod :=
  add_action (add_match (mkFlowmod src_dpid None None (Some 100%Z) (Some 240%Z) None (Some 20%Z) None [] []) m)
    (mkAction Output [("port", JInt out_port)]).

(** One hop; a pair without a link is skipped. *)
Definition install_hop (adj_mat : adjacency) (src_ip dst_ip : option string) (dscp_val : Z) (hop : Z * Z) : M S unit :=
  src_dpid ← on_world (int_dpid hop.1);
  dst_dpid ← on_world (int_dpid hop.2);
  match Dict.get (Dict.get_default [] adj_mat src_dpid) dst_dpid with
  | None => mret tt
  | Some out_port =>
      sw_dpid ← on_world (map_sw_to_dpid host port_no (str_of_Z hop.1));
      sw_dpid ← lift (or_raise TypeError sw_dpid);
      let flow_mod := route_flowmod src_dpid (route_match src_ip dst_ip dscp_val) out_port in
      on_world (push_flow_mod host port_no src_dpid flow_mod) ≫= λ _,
      set_self (λ installed_routes, append_default installed_routes sw_dpid flow_mod)
  end.

Definition mp_install_route (route : list Z) (adj_mat : adjacency) (dscp_val : Z) : M S unit :=
  src_sw ← lift (py_index route 0);
  dst_sw ← lift (py_index route (-1));
  src_ip ← on_world (host_ip src_sw);
  dst_ip ← on_world (host_ip dst_sw);
  for_each (pairwise route) (install_hop adj_mat src_ip dst_ip dscp_val).

Definition mp_install_routes (get_routes : res (list (Z * list Z))) : M S unit :=
  routes ← lift get_routes;
  links ← on_world (get_topo_links host port_no);
  adj_mat ← lift (get_adj_mat links);
  for_each routes (λ '(path_id, route), mp_install_route route adj_mat (calculate_dscp_value path_id)).

Definition mp_remove_routes : M S unit :=
  installed_routes ← gets fst;
  for_each installed_routes (λ '(sw_dpid, route_list),
    for_each route_list (λ route, on_world (remove_flow host port_no sw_dpid route) ≫= λ _, mret tt)).

(** The set is kept in the order of insertion. *)
Definition mp_src_dst_pairs (get_routes : res (list (Z * list Z))) : res (list (Z * Z)) :=
  routes ← get_routes;
  foldM (λ pairs r, a ← py_index r.2 0; b ← py_index r.2 (-1); Ok (set_add (a, b) pairs)) [] routes.
End routes.

(** * MPStatMonitor *)

(** [_rx_stats_list] and [_tx_stats_list] *)
Record Stats : Type := mkStats {
  rx_stats_list : dict (string * Z) (list json);
  tx_stats_list : dict (string * Z) (list json)
}.

Section statistics.
Context {W : Type} `{RyuApi W}.
Variables (host : string) (port_no : Z).
Variable mon_dpids : list string.

Definition _request_port_stats (dpid : string) : M W (dict Z json * dict Z json) :=
  resp ← get_port_stats host port_no dpid;
  tx_pkts ← lift (get_tx_packets resp);
  rx_pkts ← lift (get_rx_packets resp);
  mret (rx_pkts, tx_pkts).

Definition append_counts (dpid : string) (counts : dict Z json) (d : dict (string * Z) (list json))
    : dict (string * Z) (list json) :=
  foldl (λ d pc, append_default d (dpid, pc.1) pc.2) d counts.

Definition update_dpid (dpid : string) : M (Stats * W) unit :=
  '(rx_pkts, tx_pkts) ← on_world (_request_port_stats dpid);
  set_self (λ s, mkStats (append_counts dpid rx_pkts (rx_stats_list s)) (append_counts dpid tx_pkts (tx_stats_list s))).

Definition _update_stat_lists : M (Stats * W) unit := for_each mon_dpids update_dpid.

(** [MPStatMonitor.__init__] takes the first sample. *)
Definition init_mp_monitor : M (Stats * W) unit := _update_stat_lists.

(** ** The two threads *)

(** Where the timer thread is: no timer exists, the timer waits, it has
    called [_retrieve_stats], the lists are updated, the event was not set,
    the event was set. *)
Inductive timer_at : Type := NoTimer | Waiting | Called | Updated | Rearming | Clearing.

(** Where the other thread is: the monitor is wanted, it waits in the loop
    of [stop_monitor], [stop_monitor] has returned. *)
Inductive main_at : Type := Working | Spinning | Returned.

(** [mo_samples] counts the samples taken. *)
Record Monitor : Type := mkMonitor {
  mo_stats : Stats;
  mo_world : W;
  mo_stop_event : bool;
  mo_timer : timer_at;
  mo_main : main_at;
  mo_samples : nat
}.

Definition with_timer (t : timer_at) (s : Monitor) : Monitor :=
  mkMonitor (mo_stats s) (mo_world s) (mo_stop_event s) t (mo_main s) (mo_samples s).

(** [start_monitor] on a monitor with [samples] samples. *)
Definition mp_start_monitor (stats : Stats) (w : W) (samples : nat) : Monitor :=
  mkMonitor stats w false Waiting Working samples.

(** A step of the timer thread; an exception ends the thread. *)
Definition timer_step (s : Monitor) : option Monitor :=
  match mo_timer s with
  | NoTimer => None
  | Waiting => Some (with_timer Called s)
  | Called =>
      match _update_stat_lists (mo_stats s, mo_world s) with
      | (Ok _, (stats, w)) => Some (mkMonitor stats w (mo_stop_event s) Updated (mo_main s) (1 + mo_samples s))
      | (Raise _, (stats, w)) => Some (mkMonitor stats w (mo_stop_event s) NoTimer (mo_main s) (mo_samples s))
      end
  | Updated => Some (with_timer (if mo_stop_event s then Clearing else Rearming) s)
  | Rearming => Some (with_timer Waiting s)
  | Clearing => Some (mkMonitor (mo_stats s) (mo_world s) false NoTimer (mo_main s) (mo_samples s))
  end.

(** The steps of the other thread: [stop_monitor] sets the event, and looks
    at it until it is clear. *)
Definition stop_step (s : Monitor) : option Monitor :=
  match mo_main s with
  | Working => Some (mkMonitor (mo_stats s) (mo_world s) true (mo_timer s) Spinning (mo_samples s))
  | _ => None
  end.

Definition poll_step (s : Monitor) : option Monitor :=
  match mo_main s with
  | Spinning => Some (if mo_stop_event s then s
      else mkMonitor (mo_stats s) (mo_world s) (mo_stop_event s) (mo_timer s) Returned (mo_samples s))
  | _ => None
  end.

Inductive label : Type := Timer | Stop | Poll | Controller.
#[export] Instance label_eq_dec : EqDecision label.
Proof. solve_decision. Defined.

(** The controller changes its own state at any time. *)
Inductive step : label → Monitor → Monitor → Prop :=
  | step_timer s s' : timer_step s = Some s' → step Timer s s'
  | step_stop s s' : stop_step s = Some s' → step Stop s s'
  | step_poll s s' : poll_step s = Some s' → step Poll s s'
  | step_controller s w :
      step Controller s (mkMonitor (mo_stats s) w (mo_stop_event s) (mo_timer s) (mo_main s) (mo_samples s)).

Definition retrieve_results (s : Monitor) : dict (string * Z) (list json) * dict (string * Z) (list json) :=
  (rx_stats_list (mo_stats s), tx_stats_list (mo_stats s)).
End statistics.

(** * Theorems

    The two threads of the statistics monitor of
    mp_routing/multipath_orchestrator.py: under fair scheduling
    [stop_monitor] returns, with complete series; it does not when the timer
    thread has died. *)

Close Scope string_scope.

(** What the controller reports of a port. *)
Definition describes_port (p : Z) (desc : json) : Prop :=
  jkey desc "port_no"%string = Ok (JInt p) ∧
  (∃ n, jkey desc "rx_packets"%string = Ok n) ∧ (∃ n, jkey desc "tx_packets"%string = Ok n).

(** The controller answers every request for the statistics of a monitored
    switch with all the ports of the switch. *)
Definition reports_ports {W} `{RyuApi W} (host : string) (port_no : Z) (mon_dpids : list string)
    (ports : string → list Z) : Prop :=
  ∀ dpid w, dpid ∈ mon_dpids → ∃ descs w',
    http_request GET (get_request_url host port_no (GetPortStats dpid)) [] w
      = (Ok (mkHttpResponse 200 (JObj [(dpid, JList descs)])), w') ∧
    Forall2 describes_port (ports dpid) descs.

(** * Executions *)

Section executions.
Context {W : Type} `{RyuApi W}.
Variables (host : string) (port_no : Z) (mon_dpids : list string).
Implicit Types (e : nat → Monitor (W:=W)) (l : nat → option label).

(** An infinite execution; [None] is a step of neither thread. *)
Definition execution e l : Prop := ∀ n,
  match l n with Some a => step host port_no mon_dpids a (e n) (e (S n)) | None => e (S n) = e n end.

(** Both threads run again and again while they can. *)
Definition fair e l : Prop :=
  (∀ n, ∃ m, n ≤ m ∧ (l m = Some Timer ∨ mo_timer (e m) = NoTimer)) ∧
  (∀ n, ∃ m, n ≤ m ∧ (l m = Some Poll ∨ mo_main (e m) ≠ Spinning)).

(** What a step does to the parts of the monitor the threads share. *)
Definition core (s : Monitor (W:=W)) : bool * timer_at * main_at * nat * Stats :=
  (mo_stop_event s, mo_timer s, mo_main s, mo_samples s, mo_stats s).

(** A thread that runs again and again while the core does not change
    otherwise takes its step in the present core. *)
Lemma next_step e l (a : label) (stuck : Monitor (W:=W) → Prop) n :
  (∀ n, ∃ m, n ≤ m ∧ (l m = Some a ∨ stuck (e m))) →
  (∀ s s', core s = core s' → stuck s' → stuck s) → ¬ stuck (e n) →
  (∀ m, core (e m) = core (e n) → l m ≠ Some a → core (e (S m)) = core (e m)) →
  ∃ m, n ≤ m ∧ l m = Some a ∧ core (e m) = core (e n).
Proof.
  intros Hfair Hstuck Hn Hkeep. destruct (Hfair n) as (m & Hnm & Hm).
  cut (∀ d k, k + d = m → n ≤ k → core (e k) = core (e n) →
    ∃ m, n ≤ m ∧ l m = Some a ∧ core (e m) = core (e n)).
  { intros Hc. apply (Hc (m - n) n); [lia|lia|done]. }
  induction d as [|d IH]; intros k Hk Hnk Hcore.
  - assert (k = m) as -> by lia. destruct Hm as [Hm|Hm]; [by eauto|]. destruct Hn. by eapply Hstuck.
  - destruct (decide (l k = Some a)) as [Hl|Hl]; [by eauto|].
    apply (IH (S k)); [lia|lia|]. rewrite Hkeep; done.
Qed.
End executions.

(** * Samples *)

Lemma append_default_length {K V} `{Countable K} (d : dict K (list V)) k x j :
  length (Dict.get_default [] (append_default d k x) j)
  = length (Dict.get_default [] d j) + (if decide (j = k) then 1 else 0).
Proof.
  unfold append_default. rewrite Dict.get_default_set. destruct (decide (j = k)) as [->|Hne].
  - rewrite decide_True by done. by rewrite length_app.
  - rewrite decide_False by congruence. lia.
Qed.

Lemma append_counts_length dpid counts d j :
  NoDup (Dict.keys counts) →
  length (Dict.get_default [] (append_counts dpid counts d) j)
  = length (Dict.get_default [] d j) + (if decide (j.1 = dpid ∧ j.2 ∈ Dict.keys counts) then 1 else 0).
Proof.
  unfold append_counts, Dict.keys. destruct j as [jd jp]. revert d.
  induction counts as [|[p c] counts IH]; intros d.
  - intros _. cbn [foldl fmap list_fmap]. case_decide as Hd; [destruct Hd as [_ Hd]; by apply elem_of_nil in Hd|lia].
  - cbn [fmap list_fmap foldl fst snd]. intros [Hp Hnd]%NoDup_cons. rewrite IH, append_default_length by done.
    cbn [fst snd]. repeat case_decide; simplify_eq; try lia; exfalso; set_solver.
Qed.

Section samples.
Context {W : Type} `{RyuApi W}.
Variables (host : string) (port_no : Z) (mon_dpids : list string) (ports : string → list Z).
Hypothesis controller : reports_ports (W:=W) host port_no mon_dpids ports.
Hypothesis ports_distinct : ∀ dpid, NoDup (ports dpid).
Hypothesis dpids_distinct : NoDup mon_dpids.

Definition watched (ds : list string) (j : string * Z) : Prop := j.1 ∈ ds ∧ j.2 ∈ ports j.1.
#[local] Instance watched_dec ds j : Decision (watched ds j).
Proof. unfold watched. apply _. Defined.

(** [s'] has one more entry than [s] in the series of the ports of [ds]. *)
Definition one_more (ds : list string) (s s' : Stats) : Prop := ∀ j,
  let more := if decide (watched ds j) then 1 else 0 in
  length (Dict.get_default [] (rx_stats_list s') j) = length (Dict.get_default [] (rx_stats_list s) j) + more ∧
  length (Dict.get_default [] (tx_stats_list s') j) = length (Dict.get_default [] (tx_stats_list s) j) + more.

Lemma port_dict_keys c dpid descs ps field :
  Forall2 describes_port ps descs → NoDup ps → (field = "rx_packets"%string ∨ field = "tx_packets"%string) →
  ∃ d, build_port_dict (OFPortStatsResponse c (JObj [(dpid, JList descs)])) (λ d, jkey d field) = Ok d ∧
    Dict.keys d = ps.
Proof.
  intros Hall Hnd Hf. unfold build_port_dict. cbn [jitems mbind res_bind Dict.values fmap list_fmap snd foldM jlist].
  match goal with |- context [foldM ?f [] descs] =>
    cut (∀ d0, NoDup (Dict.keys d0 ++ ps) → ∃ d, foldM f d0 descs = Ok d ∧ Dict.keys d = (Dict.keys d0 ++ ps)%list);
      [intros Hc; destruct (Hc [] Hnd) as (d & -> & Hk); by exists d|] end.
  clear Hnd. induction Hall as [|p desc ps descs (Hp & (rx & Hrx) & (tx & Htx)) Hall IH]; intros d0 Hnd.
  { exists d0. by rewrite app_nil_r. }
  cbn [foldM]. rewrite Hp. cbn [mbind res_bind jint].
  assert (∃ v, jkey desc field = Ok v) as (v & ->) by (destruct Hf as [-> | ->]; eauto). cbn [mbind res_bind].
  apply NoDup_app in Hnd as Hnd'. destruct Hnd' as (_ & Hd & _).
  assert (Dict.keys (Dict.set d0 p v) = (Dict.keys d0 ++ [p])%list) as Hk.
  { apply Dict.keys_set_new, Dict.get_None. intros Hin. apply (Hd p Hin). left. }
  destruct (IH (Dict.set d0 p v)) as (d & Hd' & Hkd); [by rewrite Hk, <-(assoc_L (++))|].
  exists d. split; [done|]. by rewrite Hkd, Hk, <-(assoc_L (++)).
Qed.

Lemma request_port_stats_run dpid w :
  dpid ∈ mon_dpids → ∃ rx tx w', _request_port_stats host port_no dpid w = (Ok (rx, tx), w') ∧
    Dict.keys rx = ports dpid ∧ Dict.keys tx = ports dpid.
Proof.
  intros Hin. destruct (controller dpid w Hin) as (descs & w' & Hw' & Hall).
  destruct (port_dict_keys 200 dpid descs (ports dpid) "tx_packets"%string) as (tx & Htx & Hktx); [auto..|].
  destruct (port_dict_keys 200 dpid descs (ports dpid) "rx_packets"%string) as (rx & Hrx & Hkrx); [auto..|].
  exists rx, tx, w'. split; [|done]. unfold _request_port_stats, get_port_stats.
  rewrite (bindS_run _ _ _ (OFPortStatsResponse 200 (JObj [(dpid, JList descs)])) w').
  - unfold get_tx_packets, get_rx_packets. rewrite Htx, Hrx. done.
  - unfold get_response. rewrite (bindS_run _ _ _ [] w) by done. by rewrite (bindS_run _ _ _ _ _ Hw').
Qed.

Lemma update_dpid_run dpid s w :
  dpid ∈ mon_dpids → ∃ s' w', update_dpid host port_no dpid (s, w) = (Ok tt, (s', w')) ∧ one_more [dpid] s s'.
Proof.
  intros Hin. destruct (request_port_stats_run dpid w Hin) as (rx & tx & w' & Hrun & Hrx & Htx).
  eexists _, w'. unfold update_dpid. split.
  - rewrite (bindS_run _ _ _ (rx, tx) (s, w')) by (unfold on_world; cbn [snd fst]; by rewrite Hrun). done.
  - intros j more. cbn [rx_stats_list tx_stats_list fst]. rewrite !append_counts_length by (by rewrite ?Hrx, ?Htx).
    rewrite Hrx, Htx. subst more. destruct j as [jd jp]. unfold watched. cbn [fst snd].
    repeat case_decide; try lia; exfalso; naive_solver set_solver.
Qed.

Lemma update_stat_lists_run s w :
  ∃ s' w', _update_stat_lists host port_no mon_dpids (s, w) = (Ok tt, (s', w')) ∧ one_more mon_dpids s s'.
Proof.
  unfold _update_stat_lists. cut (∀ ds s w, ds ⊆ mon_dpids → NoDup ds →
    ∃ s' w', for_each ds (update_dpid host port_no) (s, w) = (Ok tt, (s', w')) ∧ one_more ds s s'); [eauto|].
  clear s w. induction ds as [|dpid ds IH]; intros s w Hsub Hnd.
  { exists s, w. split; [done|]. intros j. cbv zeta. rewrite decide_False; [lia|]. unfold watched. set_solver. }
  apply NoDup_cons in Hnd as [Hd Hnd]. destruct (update_dpid_run dpid s w) as (s1 & w1 & Hr1 & H1); [set_solver|].
  destruct (IH s1 w1) as (s2 & w2 & Hr2 & H2); [set_solver|done|]. exists s2, w2. split.
  { cbn [for_each]. by rewrite (bindS_run _ _ _ _ _ Hr1). }
  intros j. specialize (H1 j). specialize (H2 j). cbv zeta in *. destruct H1 as [-> ->] in H2. destruct H2 as [-> ->].
  unfold watched. repeat case_decide; try lia; exfalso; destruct j; set_solver.
Qed.

(** The series after [n] samples. *)
Definition sampled (n : nat) (s : Stats) : Prop := ∀ j,
  length (Dict.get_default [] (rx_stats_list s) j) = (if decide (watched mon_dpids j) then n else 0) ∧
  length (Dict.get_default [] (tx_stats_list s) j) = (if decide (watched mon_dpids j) then n else 0).

Lemma sampled_more n s s' : sampled n s → one_more mon_dpids s s' → sampled (S n) s'.
Proof. intros Hs Hm j. destruct (Hs j), (Hm j). case_decide; lia. Qed.

Lemma init_mp_monitor_run w :
  ∃ s w', init_mp_monitor host port_no mon_dpids (mkStats [] [], w) = (Ok tt, (s, w')) ∧ sampled 1 s.
Proof.
  destruct (update_stat_lists_run (mkStats [] []) w) as (s & w' & Hr & Hm). exists s, w'. split; [done|].
  eapply sampled_more; [|exact Hm]. intros j. by case_decide.
Qed.

(** * The invariant of the threads *)

Definition threads_ok (s : Monitor (W:=W)) : Prop :=
  sampled (mo_samples s) (mo_stats s) ∧
  match mo_main s with
  | Working => mo_stop_event s = false ∧ mo_timer s ≠ NoTimer ∧ mo_timer s ≠ Clearing
  | Spinning => if mo_stop_event s then mo_timer s ≠ NoTimer else mo_timer s = NoTimer
  | Returned => mo_stop_event s = false ∧ mo_timer s = NoTimer
  end.

Lemma threads_ok_step a s s' :
  threads_ok s → step host port_no mon_dpids a s s' → threads_ok s'.
Proof.
  intros [Hs Hm] Hstep. destruct s as [st w ev t mn n]. cbn in Hs, Hm.
  inversion Hstep as [? ? Ht|? ? Ht|? ? Ht|? w1]; subst; [| | |by split];
    unfold timer_step, stop_step, poll_step in Ht; cbn in Ht.
  - destruct t; simplify_eq/=; try by (split; [done|]; cbn; destruct mn, ev; naive_solver).
    destruct (update_stat_lists_run st w) as (s1 & w1 & Hr & H1). rewrite Hr in Ht. simplify_eq/=.
    split; [by eapply sampled_more|]. cbn. destruct mn, ev; naive_solver.
  - destruct mn; simplify_eq/=. split; [done|]. cbn. naive_solver.
  - destruct mn; simplify_eq/=. split; destruct ev; cbn; naive_solver.
Qed.

(** * [stop_monitor] returns *)

Section stopping.
Variables (e : nat → Monitor (W:=W)) (l : nat → option label).
Hypothesis He : execution host port_no mon_dpids e l.
Hypothesis Hfair : fair e l.

Lemma threads_ok_always n m : n ≤ m → threads_ok (e n) → threads_ok (e m).
Proof.
  induction 1 as [|m _ IH]; [done|]. intros Hn. specialize (He m). destruct (l m); [by eauto using threads_ok_step|].
  rewrite He. auto.
Qed.

(** How many steps the timer thread takes until it ends, and how many of
    them take a sample. *)
Definition timer_left (t : timer_at) : nat :=
  match t with NoTimer => 0 | Clearing => 1 | Updated => 2 | Called => 3 | Waiting => 4 | Rearming => 5 end.
Definition samples_left (t : timer_at) : nat :=
  match t with Called | Waiting | Rearming => 1 | _ => 0 end.

(** While [stop_monitor] waits for the event, only the timer thread changes
    the core, and it comes closer to its end. *)
Lemma spinning_keeps m :
  mo_main (e m) = Spinning → mo_stop_event (e m) = true → l m ≠ Some Timer → core (e (S m)) = core (e m).
Proof.
  intros Hs Hev Hl. specialize (He m). destruct (l m) as [a|]; [|by rewrite He].
  inversion He as [? ? Ht|? ? Ht|? ? Ht|? w1]; subst; [done|..]; [| |done];
    unfold stop_step, poll_step in Ht; rewrite Hs, ?Hev in Ht; [done|]. injection Ht as Ht. by rewrite Ht.
Qed.

Lemma spinning_timer s s' :
  threads_ok s → mo_main s = Spinning → mo_stop_event s = true → timer_step host port_no mon_dpids s = Some s' →
  mo_main s' = Spinning ∧ timer_left (mo_timer s') < timer_left (mo_timer s) ∧
  mo_samples s' + samples_left (mo_timer s') = mo_samples s + samples_left (mo_timer s).
Proof.
  destruct s as [st w ev t mn n]. unfold timer_step. cbn. intros _ -> ->.
  destruct t; intros Ht; simplify_eq/=; try by (split_and!; [done|lia..]).
  destruct (update_stat_lists_run st w) as (s1 & w1 & Hr & _). rewrite Hr in Ht. simplify_eq/=.
  split_and!; [done|lia..].
Qed.

Lemma timer_ends k n :
  timer_left (mo_timer (e n)) ≤ k → threads_ok (e n) → mo_main (e n) = Spinning →
  ∃ m, n ≤ m ∧ mo_main (e m) = Spinning ∧ mo_stop_event (e m) = false ∧
    mo_samples (e m) ≤ mo_samples (e n) + samples_left (mo_timer (e n)).
Proof.
  revert n. induction k as [|k IH]; intros n Hk Hok Hs;
    (destruct (mo_stop_event (e n)) eqn:Hev; [|exists n; split_and!; [done..|lia]]);
    destruct Hok as [Hsm Hok]; rewrite Hs, Hev in Hok.
  { destruct (mo_timer (e n)); simpl in Hk; by try lia. }
  destruct (next_step e l Timer (λ s, mo_timer s = NoTimer) n) as (m & Hnm & Hl & Hc).
  { apply Hfair. }
  { intros s s' [= _ -> _ _ _]. done. }
  { done. }
  { intros m Hc Hl. injection Hc as Hc1 _ Hc3 _ _. apply spinning_keeps; [congruence..|done]. }
  assert (threads_ok (e n)) as Hokn by (split; [done|by rewrite Hs, Hev]).
  pose proof (threads_ok_always n m Hnm Hokn) as Hokm. pose proof (He m) as Hstep. rewrite Hl in Hstep.
  inversion Hstep as [? ? Ht| | |]; subst. unfold core in Hc. injection Hc as Hc1 Hc2 Hc3 Hc4 Hc5.
  rewrite Hs in Hc3. rewrite Hev in Hc1.
  destruct (spinning_timer _ _ Hokm Hc3 Hc1 Ht) as (Hs' & Hlt & Hsl). rewrite Hc2 in Hlt, Hsl.
  destruct (IH (S m)) as (m' & Hm' & Hsp & Hev' & Hle); [lia|eapply threads_ok_step; eauto|done|].
  exists m'. split_and!; [lia|done|done|lia].
Qed.

Lemma poll_returns n :
  threads_ok (e n) → mo_main (e n) = Spinning → mo_stop_event (e n) = false →
  ∃ m, n ≤ m ∧ mo_main (e m) = Returned ∧ mo_samples (e m) = mo_samples (e n).
Proof.
  intros Hok Hs Hev. destruct Hok as [Hsm Hok]. rewrite Hs, Hev in Hok.
  destruct (next_step e l Poll (λ s, mo_main s ≠ Spinning) n) as (m & Hnm & Hl & Hc).
  { apply Hfair. }
  { intros s s' [= _ _ -> _ _]. done. }
  { naive_solver. }
  { intros m Hc Hl. pose proof (He m) as Hstep. unfold core in Hc. injection Hc as Hc1 Hc2 Hc3 Hc4 Hc5.
    destruct (l m) as [a|]; [|by rewrite Hstep].
    inversion Hstep as [? ? Ht|? ? Ht|? ? Ht|? w1]; subst; [| |done|done].
    - unfold timer_step in Ht. rewrite Hc2, Hok in Ht. done.
    - unfold stop_step in Ht. rewrite Hc3, Hs in Ht. done. }
  pose proof (He m) as Hstep. rewrite Hl in Hstep. inversion Hstep as [| |? ? Ht|]; subst.
  unfold core in Hc. injection Hc as Hc1 Hc2 Hc3 Hc4 Hc5. unfold poll_step in Ht. rewrite Hc3, Hs, Hc1, Hev in Ht.
  exists (S m). injection Ht as Ht. rewrite <-Ht. split_and!; [lia|done|done].
Qed.

Lemma returned_stays m k :
  m ≤ k → threads_ok (e m) → mo_main (e m) = Returned →
  mo_main (e k) = Returned ∧ mo_timer (e k) = NoTimer ∧ mo_stats (e k) = mo_stats (e m) ∧
  mo_samples (e k) = mo_samples (e m).
Proof.
  intros Hmk Hok Hr. pose proof Hok as [_ Ht]. rewrite Hr in Ht. destruct Ht as [_ Ht].
  induction Hmk as [|k Hmk (IH1 & IH2 & IH3 & IH4)]; [done|].
  specialize (He k). destruct (l k) as [a|]; [|by rewrite He].
  inversion He as [? ? Hk|? ? Hk|? ? Hk|? w1]; subst; [..|done];
    unfold timer_step, stop_step, poll_step in Hk; by rewrite ?IH1, ?IH2 in Hk.
Qed.
End stopping.

(** C6: Stopping the monitor succeeds. If the controller answers every
    request for the ports of the monitored switches, the monitor is created
    with one sample; and in every execution of the timer thread and the
    thread that stops the monitor in which both run again and again,
    [stop_monitor] returns, after at most one more sample. From then on the
    timer thread has ended and the results never change: every port of every
    monitored switch has one entry per sample, received and sent, and
    nothing else is recorded. *)
Theorem stop_monitor_returns w0 :
  ∃ stats w, init_mp_monitor host port_no mon_dpids (mkStats [] [], w0) = (Ok tt, (stats, w)) ∧
  ∀ e l, execution host port_no mon_dpids e l → fair e l → e 0 = mp_start_monitor stats w 1 →
  ∀ n, mo_main (e n) = Spinning →
  ∃ m, n ≤ m ∧ mo_samples (e m) ≤ mo_samples (e n) + 1 ∧
  ∀ k, m ≤ k → mo_main (e k) = Returned ∧ mo_timer (e k) = NoTimer ∧
    retrieve_results (e k) = retrieve_results (e m) ∧ sampled (mo_samples (e m)) (mo_stats (e k)).
Proof.
  destruct (init_mp_monitor_run w0) as (stats & w & Hinit & H1). exists stats, w. split; [done|].
  intros e l He Hf H0 n Hn.
  assert (∀ n, threads_ok (e n)) as Hok.
  { intros k. apply (threads_ok_always e l He 0 k); [lia|]. by rewrite H0. }
  destruct (timer_ends e l He Hf _ n (le_n _) (Hok n) Hn) as (m1 & Hm1 & Hs1 & Hev1 & Hle1).
  destruct (poll_returns e l He Hf m1 (Hok m1) Hs1 Hev1) as (m & Hm & Hr & Hsm).
  exists m. split; [lia|]. split; [destruct (mo_timer (e n)); simpl in Hle1; lia|].
  intros k Hk. destruct (returned_stays e l He m k Hk (Hok m) Hr) as (Hk1 & Hk2 & Hk3 & Hk4).
  unfold retrieve_results. rewrite Hk3. split_and!; [done..|]. apply (Hok m).
Qed.
End samples.

(** * Without a timer thread *)

(** When the timer thread has ended with an exception, or was never
    started, [stop_monitor] does not return. *)
Lemma stop_without_timer_spins {W} `{RyuApi W} host port_no mon_dpids
    (e : nat → Monitor (W:=W)) (l : nat → option label) :
  execution host port_no mon_dpids e l → mo_main (e 0) = Working → mo_timer (e 0) = NoTimer →
  ∀ n, mo_main (e n) ≠ Returned.
Proof.
  intros He Hm Ht n.
  cut (mo_timer (e n) = NoTimer ∧ (mo_main (e n) = Working ∨ mo_main (e n) = Spinning ∧ mo_stop_event (e n) = true));
    [by intros [_ [-> | [-> _]]]|].
  induction n as [|n [IH1 IH2]]; [by auto|]. specialize (He n). destruct (l n) as [a|]; [|by rewrite He].
  inversion He as [? ? Hk|? ? Hk|? ? Hk|? w1]; subst; [..|done];
    unfold timer_step, stop_step, poll_step in Hk; rewrite ?IH1 in Hk; [done|..];
    destruct IH2 as [Hw|[Hw Hev]]; rewrite Hw, ?Hev in Hk; try done; injection Hk as Hk; rewrite <-Hk; auto.
Qed.

(** A request that fails ends the timer thread. *)
Lemma failed_sample_ends_timer {W} `{RyuApi W} host port_no mon_dpids (s : Monitor (W:=W)) x st :
  mo_timer s = Called → _update_stat_lists host port_no mon_dpids (mo_stats s, mo_world s) = (Raise x, st) →
  ∃ s', timer_step host port_no mon_dpids s = Some s' ∧ mo_timer s' = NoTimer ∧ mo_main s' = mo_main s.
Proof. intros Ht Hr. unfold timer_step. rewrite Ht, Hr. destruct st. by eexists. Qed.

(** * An execution *)

(** A controller with one switch with two ports; the packet counters grow
    with every request. *)
Definition demo_ports (_ : string) : list Z := [1; 2]%Z.
Definition demo_descs (w : nat) : list json :=
  (λ p, JObj [("port_no"%string, JInt p); ("rx_packets"%string, JInt (Z.of_nat w)); ("tx_packets"%string, JInt (p * Z.of_nat w))])
    <$> demo_ports EmptyString.
#[local] Instance demo_port_stats : RyuApi nat := {|
  http_request _ _ _ w := (Ok (mkHttpResponse 200 (JObj [("7"%string, JList (demo_descs w))])), S w)
|}.

Lemma demo_reports_ports : reports_ports (W:=nat) "c" 8080 ["7"%string] demo_ports.
Proof.
  intros dpid w ->%list_elem_of_singleton. exists (demo_descs w), (S w). split; [done|].
  unfold demo_descs. repeat constructor; cbn; eauto.
Qed.

(** The timer fires, [stop_monitor] is called while the sample is taken, and
    the timer thread clears the event. *)
Definition demo_labels (n : nat) : option label := [Timer; Stop; Timer; Timer; Timer; Poll] !! n.
Definition demo_start : Monitor (W:=nat) :=
  match init_mp_monitor "c" 8080 ["7"%string] (mkStats [] [], 0) with (_, (stats, w)) => mp_start_monitor stats w 1 end.
Definition demo_step (a : label) (s : Monitor (W:=nat)) : option Monitor :=
  match a with
  | Timer => timer_step "c" 8080 ["7"%string] s
  | Stop => stop_step s
  | Poll => poll_step s
  | Controller => Some s
  end.
Fixpoint demo_execution (n : nat) : Monitor (W:=nat) :=
  match n with
  | O => demo_start
  | S n => match demo_labels n with Some a => default demo_start (demo_step a (demo_execution n)) | None => demo_execution n end
  end.

Lemma demo_execution_ok : execution "c" 8080 ["7"%string] demo_execution demo_labels.
Proof.
  intros n. do 6 (destruct n as [|n]; [constructor; by vm_compute|]). done.
Qed.

Lemma demo_execution_end n : 6 ≤ n → demo_execution n = demo_execution 6.
Proof.
  intros Hn. replace n with (6 + (n - 6)) by lia. generalize (n - 6). clear.
  induction n as [|n IH]; [done|]. rewrite <-IH. done.
Qed.

Lemma demo_execution_fair : fair demo_execution demo_labels.
Proof.
  split; intros n; exists (Nat.max n 6); (split; [lia|]); right; rewrite demo_execution_end by lia; by vm_compute.
Qed.

Lemma stop_monitor_returns_witness :
  ∃ m, mo_main (demo_execution m) = Returned ∧
    sampled ["7"%string] demo_ports (mo_samples (demo_execution m)) (mo_stats (demo_execution m)).
Proof.
  destruct (stop_monitor_returns "c" 8080 ["7"%string] demo_ports demo_reports_ports
    ltac:(intros; apply (bool_decide_unpack _); by vm_compute)
    ltac:(apply (bool_decide_unpack _); by vm_compute) 0) as (stats & w & Hinit & Hrun).
  destruct (Hrun demo_execution demo_labels demo_execution_ok demo_execution_fair
    ltac:(unfold demo_execution, demo_start; by rewrite Hinit) 2 ltac:(by vm_compute)) as (m & _ & _ & Hm).
  exists m. destruct (Hm m (le_n m)) as (H1 & _ & _ & H4). by split.
Defined.
