(* ===== verification/RemoteHost.v ===== *)
(** Remote hosts of the testbed (nw_control/host.py): a connection with ssh,
    and the commands that start and stop the traffic generator and the
    receiver on the host and fetch their counters.

    paramiko, [subprocess.run] and the pickled files that are fetched are the
    interface [SshEnv]; Python's [str] of floats and of the list of clients
    are parameters.
    The output of a command is a pair of texts. *)

From Stdlib Require Import Ascii.
From S2P Require Import Prelude PyDict PyStr PyFloat PyText Json OpenFlow HostMapper TrafficGen.

(** The clients and files of the machine that the program runs on, by
    number and name. *)
Class SshEnv (W : Type) : Type := {
  ssh_client : M W nat;
  ssh_connect : nat → option string → Z → string → string → M W unit;
  ssh_exec : nat → string → M W (string * string);
  ssh_close : nat → M W unit;
  scp_run : list string → M W Z;
  receiver_pickle : string → M W (option (dict (string * Z) Z));
  sender_pickle : string → M W (option (dict nat SenderReport))
}.

Local Open Scope string_scope.

(** * util.py *)

(** At most [n] digits from the front, and the rest. *)
Fixpoint take_digits (n : nat) (s : string) : nat * string :=
  match n, s with
  | S n, String c s' => if bool_decide (digit_val c ≠ None) then let '(k, rest) := take_digits n s' in (S k, rest) else (O, s)
  | _, _ => (O, s)
  end.

(** A match of the pattern at the beginning: groups of one to three digits
    with dots between them. *)
Fixpoint match_groups (groups : nat) (s : string) : bool :=
  let '(k, rest) := take_digits 3 s in
  match groups with
  | O => bool_decide (0 < k)%nat
  | S groups =>
      bool_decide (0 < k)%nat &&
      match rest with String c rest => bool_decide (c = dot) && match_groups groups rest | EmptyString => false end
  end.
Definition is_ip_addr (data : string) : bool := match_groups 3 data.

Definition inject_arg_opts (command_str : string) (arg_list : list string) : string :=
  foldl (λ l r, l +:+ " " +:+ r) command_str arg_list.

Definition mbps_to_bps {F} `{PyFloat F} (rate_in_mbps : F) : F := fmul rate_in_mbps (f_of_Z (10 ^ 6)).
Definition bytes_per_second_to_mbps {F} `{PyFloat F} (rate_in_bytes_per_second : F) : F :=
  fquot (fmul rate_in_bytes_per_second (f_of_Z 8)) (f_of_Z (10 ^ 6)).

(** * The hosts *)

(** The entries that [configure_client] and [configure_precomputed_client]
    append. *)
Inductive HostClient (F : Type) : Type :=
  | ModelClient (dest_port : Z) (dest_addr : option string) (prob_mat : list F) (tx_rate variance : F)
      (traffic_model : string) (packet_len src_host time_slice : Z) (tag_value : list Z)
  | PrecomputedClient (dest_port : Z) (dest_addr : option string) (prob_mat transmit_rates : list F)
      (packet_len src_host time_slice : Z) (tag_value : list Z).
Arguments ModelClient {F} _ _ _ _ _ _ _ _ _ _.
Arguments PrecomputedClient {F} _ _ _ _ _ _ _ _.

Record TrafficGenHost (F : Type) : Type := mkTrafficGenHost {
  th_host_name : string;
  th_ssh_port : Z;
  th_rem_uname : string;
  th_rem_pw : string;
  th_ssh_tunnel : option nat;
  th_host_id : Z;
  th_host_ip : option string;
  th_clients : list (HostClient F)
}.
Arguments mkTrafficGenHost {F} _ _ _ _ _ _ _ _.
Arguments th_host_name {F} _.
Arguments th_ssh_port {F} _.
Arguments th_rem_uname {F} _.
Arguments th_rem_pw {F} _.
Arguments th_ssh_tunnel {F} _.
Arguments th_host_id {F} _.
Arguments th_host_ip {F} _.
Arguments th_clients {F} _.

Definition TH_BIN_DIR : string := "/home/alexj/traffic_generation/".
Definition TH_COUNT_DIR : string := "/home/alexj/packet_counts/".
Definition management_domain : string := "hosts.sdn.".

Section host.
Context {W : Type} `{SshEnv W} `{DnsApi W} {F : Type} `{PyFloat F}.
Variable str_clients : list (HostClient F) → string.
Variable str_float : F → string.
Abbreviation Self := (TrafficGenHost F).

Definition set_tunnel (t : option nat) (self : Self) : Self :=
  mkTrafficGenHost (th_host_name self) (th_ssh_port self) (th_rem_uname self) (th_rem_pw self) t
    (th_host_id self) (th_host_ip self) (th_clients self).

(** The fourth argument of the constructor of [TrafficGenHost] is called
    [ssh_port] and becomes the [host_id]; the port is always 22. *)
Definition init_traffic_gen_host (host_name rem_uname rem_pw : string) (ssh_port : Z) : M W Self :=
  host_ip ← (if is_ip_addr host_name then mret (Some host_name)
             else resolve_hostname management_domain host_name);
  mret (mkTrafficGenHost host_name 22 rem_uname rem_pw None ssh_port host_ip []).

Definition create_remote_host (hostname : string) (host_id : Z) : M W Self :=
  init_traffic_gen_host hostname "alexj" "cpsc" host_id.

(** The tunnel is set before the connection is made. *)
Definition connect : M (Self * W) unit :=
  self ← gets fst;
  tunnel ← on_world ssh_client;
  set_self (set_tunnel (Some tunnel)) ≫= λ _,
  on_world (ssh_connect tunnel (th_host_ip self) (th_ssh_port self) (th_rem_uname self) (th_rem_pw self)).

Definition disconnect : M (Self * W) unit :=
  self ← gets fst;
  tunnel ← lift (or_raise AttributeError (th_ssh_tunnel self));
  on_world (ssh_close tunnel) ≫= λ _,
  set_self (set_tunnel None).

Definition exec_on_tunnel (command : string) : M (Self * W) (string * string) :=
  self ← gets fst;
  tunnel ← lift (or_raise AttributeError (th_ssh_tunnel self));
  on_world (ssh_exec tunnel command).

Definition exec_command (command : string) : M (Self * W) (string * string) :=
  self ← gets fst;
  if bool_decide (th_ssh_tunnel self ≠ None) then exec_on_tunnel command
  else
    connect ≫= λ _,
    out ← exec_on_tunnel command;
    disconnect ≫= λ _, mret out.

Definition ping (remote_host : string) (count : Z) : M (Self * W) (string * string) :=
  exec_command ("ping -c " +:+ str_of_Z count +:+ " " +:+ remote_host).

Definition _add_client (client_params : HostClient F) (self : Self) : Self :=
  mkTrafficGenHost (th_host_name self) (th_ssh_port self) (th_rem_uname self) (th_rem_pw self)
    (th_ssh_tunnel self) (th_host_id self) (th_host_ip self) (th_clients self ++ [client_params])%list.

Definition remove_all_files (path ext : string) : M (Self * W) unit :=
  exec_command ("rm -f " +:+ path +:+ "*." +:+ ext) ≫= λ _, mret tt.

(** [reduce] without an initial value raises on an empty list. *)
Definition start_client (mu sigma : F) (traffic_model dest_ip : string) (port_no : Z) (k_mat : list F)
    (host_no slice : Z) : M (Self * W) (string * string) :=
  remove_all_files TH_COUNT_DIR "txt" ≫= λ _,
  k_mat_str ← lift (if bool_decide (k_mat = []) then Raise TypeError else Ok (join_words (str_float <$> k_mat)));
  exec_command (inject_arg_opts (TH_BIN_DIR +:+ "/traffic_gen.py")
    ["-a " +:+ dest_ip; "-p " +:+ str_of_Z port_no; "-k " +:+ k_mat_str; "-t " +:+ str_float mu;
     "-s " +:+ str_float sigma; "-c " +:+ traffic_model; "-host " +:+ str_of_Z host_no;
     "-slice " +:+ str_of_Z slice; "-n " +:+ str_of_Z 1] +:+ " &").

(** Finds the processes of a script and interrupts them. *)
Definition kill_command (script : string) : string :=
  "ps ax | grep -i " +:+ script +:+ " | grep -v grep | awk '{print $1}' | xargs -n1 -I {} kill -s SIGINT {}".

Definition stop_client : M (Self * W) (string * string) := exec_command (kill_command "traffic_gen.py").
Definition stop_server : M (Self * W) (string * string) := exec_command (kill_command "traffic_server.py").

Definition start_server : M (Self * W) (string * string) :=
  remove_all_files TH_COUNT_DIR "p" ≫= λ _,
  self ← gets fst;
  exec_command (inject_arg_opts (TH_BIN_DIR +:+ "/traffic_server.py") ["-host " +:+ str_of_Z (th_host_id self)] +:+ " &").

Definition configure_client (mu sigma : F) (traffic_model : string) (dest_ip : option string) (port_no : Z)
    (k_mat : list F) (host_no slice : Z) (tag_value : list Z) (pkt_len : Z) (self : Self) : Self :=
  _add_client (ModelClient port_no dest_ip k_mat mu (fmul sigma sigma) traffic_model pkt_len host_no slice tag_value) self.

Definition configure_precomputed_client (rate_list : list F) (destination_ip : option string)
    (destination_port_number : Z) (k_mat : list F) (host_number time_slice_duration : Z) (tag_values : list Z)
    (packet_length : Z) (self : Self) : Self :=
  _add_client (PrecomputedClient destination_port_number destination_ip k_mat rate_list packet_length host_number
    time_slice_duration tag_values) self.

(** [chr(34)] is the double quote. *)
Definition quote : string := String (ch 34) EmptyString.
Definition start_clients : M (Self * W) (string * string) :=
  self ← gets fst;
  exec_command (inject_arg_opts (TH_BIN_DIR +:+ "/traffic_gen.py") [quote +:+ str_clients (th_clients self) +:+ quote] +:+
    "&>/home/alexj/traffic-gen-log.txt" +:+ " &").

(** [TMP_OUTPUT_DIRECTORY] is printed as [/tmp]. *)
Definition fetch_file (host_ip : option string) (file_name : string) : M W unit :=
  scp_run (str_split space ("sshpass -pcpsc scp alexj@" +:+ default "None" host_ip +:+ ":" +:+ TH_COUNT_DIR +:+ "/" +:+
    file_name +:+ " /tmp")) ≫= λ _, mret tt.

(** A file that does not exist gives no results. *)
Definition retrieve_end_host_results : M (Self * W) (list (string * Z * Z) * dict nat SenderReport) :=
  self ← gets fst;
  let sender_file := "sender_" +:+ str_of_Z (th_host_id self) +:+ ".p" in
  let receiver_file := "receiver_" +:+ str_of_Z (th_host_id self) +:+ ".p" in
  on_world (for_each [sender_file; receiver_file] (fetch_file (th_host_ip self))) ≫= λ _,
  receiver_results ← on_world (receiver_pickle ("/tmp/" +:+ receiver_file));
  sender_results ← on_world (sender_pickle ("/tmp/" +:+ sender_file));
  mret ((λ kv, (kv.1.1, kv.1.2, kv.2)) <$> default [] receiver_results, default [] sender_results).

Definition get_local_ip : M (Self * W) (option string) := on_world (resolve_hostname management_domain "sdn.cpscopenflow1").

Definition retrieve_files (pattern dst_dir : string) : M (Self * W) unit :=
  local_ip ← get_local_ip;
  exec_command ("sshpass -pubuntu scp -o StrictHostKeyChecking=no -r " +:+ TH_COUNT_DIR +:+ pattern +:+ " ubuntu@" +:+
    default "None" local_ip +:+ ":" +:+ dst_dir) ≫= λ _, mret tt.
Definition retrieve_client_files (dst_dir : string) : M (Self * W) unit := retrieve_files "sender_*.p" dst_dir.
Definition retrieve_server_files (dst_dir : string) : M (Self * W) unit := retrieve_files "receiver_*.p" dst_dir.
End host.
