(* ===== verification/FileParsing.v ===== *)
(** The parsers of the route files (mp_routing/file_parsing.py): paths,
    path fractions and rates of the flows.

    [ast.literal_eval] and [eval] are modelled on the texts the files have:
    integers, lists and tuples; other texts count as an error. A file that
    is opened as text has its line ends translated to newlines. *)

From Stdlib Require Import Ascii.
From S2P Require Import Prelude PyDict PyStr PyFloat PyText TrialStore.

Local Open Scope string_scope.

(** * Texts *)

(** White space, as [str.strip], [int] and [float] skip it. *)
Definition is_blank (c : ascii) : bool :=
  match N_of_ascii c with 9%N | 10%N | 11%N | 12%N | 13%N | 32%N => true | _ => false end.
Fixpoint skip_blanks (s : string) : string :=
  match s with
  | String c s' => if is_blank c then skip_blanks s' else s
  | EmptyString => EmptyString
  end.
(** [s.rstrip()] *)
Fixpoint rstrip (s : string) : string :=
  match s with
  | EmptyString => EmptyString
  | String c s => match rstrip s with
                  | EmptyString => if is_blank c then EmptyString else String c EmptyString
                  | s => String c s
                  end
  end.
Definition strip (s : string) : string := rstrip (skip_blanks s).

Definition py_int (s : string) : res Z := int_of_str (strip s).
Definition py_float {F} `{PyFloatText F} (s : string) : res F := float_of_str (strip s).

(** [int(x)] of a float truncates. *)
Definition int_of_float {F} `{PyFloatText F} (x : F) : res Z :=
  match classify x with
  | FNan => Raise ValueError
  | FInf _ => Raise OverflowError
  | FFin neg n d => Ok (if neg then - (n / Zpos d) else n / Zpos d)%Z
  end.

(** [s.replace(c, '')] *)
Fixpoint str_remove (c : ascii) (s : string) : string :=
  match s with
  | EmptyString => EmptyString
  | String a s => if Ascii.eqb a c then str_remove c s else String a (str_remove c s)
  end.

(** [fd.readlines()]: the lines keep their newlines. *)
Fixpoint readlines (s : string) : list string :=
  match s with
  | EmptyString => []
  | String a s1 =>
      if Ascii.eqb a newline then String a EmptyString :: readlines s1
      else match readlines s1 with
           | w :: ws => String a w :: ws
           | [] => [String a EmptyString]
           end
  end.

(** * Literals *)

#[warnings="-register-all"]
Inductive lit : Type := LInt (z : Z) | LSeq (l : list lit).

Definition is_numeral (c : ascii) : bool := negb (not_decimal c).
(** The longest prefix of digits and signs, and the rest. *)
Fixpoint span_numeral (s : string) : string * string :=
  match s with
  | String c s' => if is_numeral c then let '(a, r) := span_numeral s' in (String c a, r) else (EmptyString, s)
  | EmptyString => (EmptyString, EmptyString)
  end.

Definition comma : ascii := ch 44.
Definition open_bracket : ascii := ch 91.
Definition close_bracket : ascii := ch 93.
Definition open_paren : ascii := ch 40.
Definition close_paren : ascii := ch 41.

(** The items up to [close], and whether a comma was among them. *)
Fixpoint parse_items (parse : string → option (lit * string)) (close : ascii) (m : nat) (s : string)
    : option (list lit * bool * string) :=
  match m with
  | O => None
  | S m =>
      match skip_blanks s with
      | EmptyString => None
      | String c r =>
          if Ascii.eqb c close then Some ([], false, r)
          else
            '(v, r) ← parse (String c r);
            match skip_blanks r with
            | EmptyString => None
            | String c r =>
                if Ascii.eqb c close then Some ([v], false, r)
                else if Ascii.eqb c comma then '(vs, _, r) ← parse_items parse close m r; Some (v :: vs, true, r)
                else None
            end
      end
  end.

(** [(x)] is [x], [(x,)] is a tuple. *)
Fixpoint parse_lit (n : nat) (s : string) : option (lit * string) :=
  match n with
  | O => None
  | S n =>
      match skip_blanks s with
      | EmptyString => None
      | String c r =>
          if Ascii.eqb c open_bracket then
            '(vs, _, r) ← parse_items (parse_lit n) close_bracket (S (String.length r)) r; Some (LSeq vs, r)
          else if Ascii.eqb c open_paren then
            '(vs, commas, r) ← parse_items (parse_lit n) close_paren (S (String.length r)) r;
            match vs, commas with
            | [v], false => Some (v, r)
            | _, _ => Some (LSeq vs, r)
            end
          else
            let '(a, r) := span_numeral (String c r) in
            match int_of_str a with Ok z => Some (LInt z, r) | Raise _ => None end
      end
  end.

Definition literal_eval (s : string) : res lit :=
  match parse_lit (S (String.length s)) s with
  | Some (v, r) => match skip_blanks r with EmptyString => Ok v | _ => Raise ValueError end
  | None => Raise ValueError
  end.

(** Iterating over a value, indexing it, and using it as a number. *)
Definition lit_items (v : lit) : res (list lit) := match v with LSeq l => Ok l | LInt _ => Raise TypeError end.
Definition lit_at (v : lit) (i : Z) : res lit := l ← lit_items v; py_index l i.
Definition lit_int (v : lit) : res Z := match v with LInt z => Ok z | LSeq _ => Raise TypeError end.

(** [[n + 1 for n in path]] *)
Definition shifted_path (path : lit) : res (list Z) :=
  nodes ← lit_items path; mapR (λ n, z ← lit_int n; Ok (z + 1)%Z) nodes.

(** [enumerate(flow)] with the shifted paths. *)
Definition flow_routes (flow : lit) : res (list (Z * list Z)) :=
  paths ← lit_items flow;
  mapR (λ '(path_id, path), p ← shifted_path path; Ok (Z.of_nat path_id, p)) (enumerate paths).

(** The concatenation of the lists of the items. *)
Definition concat_items {A} (f : lit → res (list A)) (v : lit) : res (list A) :=
  items ← lit_items v; ls ← mapR f items; Ok (concat ls).

(** * The parsers *)

(** [_read_node_file]; the carriage returns are gone already. The numerals
    are converted when the result is used. *)
Definition _read_node_file (p : path) : M fsys (list string) :=
  node_str ← read_text p;
  let node_str := str_remove close_bracket (str_remove open_bracket node_str) in
  mret (but_last (str_split dot (rstrip node_str))).

Section parsers.
Context {F : Type} `{PyFloatText F}.
Variables (seed_no : string) (mu sigma : F).
Abbreviation flow_def := (Z * Z * list F * (F * F))%type.

(** ** MPTestFileParser *)

(** The directory is a text. *)
Variable route_dir_text : string.

Definition mp_get_routes : M fsys (list (Z * list Z)) :=
  text ← read_text (segments (route_dir_text +:+ "./Paths_seed_" +:+ seed_no +:+ ".txt"));
  lift (routes ← literal_eval text; concat_items flow_routes routes).

(** [index_str[2:-1].split(',')[0]] and [float(val_str)] *)
Definition mp_add_partition (flow_dict : dict Z (list F)) (line : string) : res (dict Z (list F)) :=
  let s1 := str_split (ch 58) line in
  index_str ← py_index s1 0;
  val_str ← py_index s1 1;
  word ← py_index (str_split comma (str_but_last (str_drop 2 index_str))) 0;
  flow_num ← py_int word;
  x ← py_float val_str;
  Ok (Dict.set flow_dict flow_num (Dict.get_default [] flow_dict flow_num ++ [x])%list).

Definition mp_read_partitions_file (p : path) : M fsys (dict Z (list F)) :=
  text ← read_text p; lift (foldM mp_add_partition [] (readlines text)).

Definition seed_file (prefix : string) : path := segments (route_dir_text +:+ prefix +:+ seed_no +:+ ".txt").

Definition mp_get_flow_defs : M fsys (list flow_def) :=
  dests ← _read_node_file (seed_file "./Destinations_seed_");
  origins ← _read_node_file (seed_file "./Origins_seed_");
  parts ← mp_read_partitions_file (seed_file "./X_matrix_seed_");
  origins ← lift (mapR (λ o, z ← py_int o; Ok (z + 1)%Z) origins);
  dests ← lift (mapR (λ d, z ← py_int d; Ok (z + 1)%Z) dests);
  let od_pairs := zip origins dests in
  lift (mapR (λ '(ind, (src, dst)), x ← Dict.getitem parts (Z.of_nat ind); Ok (src, dst, x, (mu, sigma))) (enumerate od_pairs)).

(** ** NETestFileParser and VariableRateFileParser *)

(** The directory is a path. *)
Variable route_dir : path.

Definition ne_get_routes : M fsys (list (Z * list Z)) :=
  text ← read_text (joinpath route_dir ("Paths_seed_" +:+ seed_no +:+ ".txt"));
  lift (nets ← literal_eval text; concat_items (concat_items flow_routes) nets).

(** [flow_vs[t[0]][t[1]][t[2]] = flow_val] *)
Abbreviation fractions := (dict Z (dict Z (dict Z F))).
Definition ne_add_fraction (flow_vs : fractions) (line : string) : res fractions :=
  tup_lit ← py_index (str_split (ch 58) (str_drop 1 line)) 0;
  t ← literal_eval tup_lit;
  val ← py_index (str_split (ch 58) line) 1;
  flow_val ← py_float val;
  t0 ← lit_at t 0; net ← lit_int t0;
  t1 ← lit_at t 1; flow ← lit_int t1;
  t2 ← lit_at t 2; p ← lit_int t2;
  let flows := Dict.get_default [] flow_vs net in
  Ok (Dict.set flow_vs net (Dict.set flows flow (Dict.set (Dict.get_default [] flows flow) p flow_val))).

Definition ne_read_partitions_file (p : path) : M fsys fractions :=
  text ← read_text p; lift (foldM ne_add_fraction [] (readlines text)).

(** A path and a text cannot be added. *)
Definition ne_get_flow_defs : M fsys (list flow_def) := lift (Raise TypeError).

(** [iterdir()] and [is_file()]: the files of a directory, in any order. *)
Definition files_in (p : path) : M fsys (list path) := λ fs,
  if bool_decide (is_Some (files fs !! p)) then (Raise IOError, fs)
  else if bool_decide (p ∉ dirs fs) then (Raise FileNotFoundError, fs)
  else (Ok (filter (λ q, (q ≠ []) ∧ parent q = p) (map_to_list (files fs)).*1), fs).

Definition get_nw_id (file_name : string) : res Z :=
  tok ← py_index (str_split (ch 95) file_name) 2; py_int tok.

Definition get_flow_params (line : string) : res (Z * F) :=
  tok ← py_index (str_split (ch 58) line) (-1);
  let parm_list := str_split comma tok in
  m ← py_index parm_list 0; x ← py_float m; mu ← int_of_float x;
  s ← py_index parm_list 1; sigma ← py_float s;
  Ok (mu, sigma).

(** [rates[net_id][flow_id] = ...]; the entry of a network is made with its
    first flow. *)
Abbreviation rate_table := (dict Z (dict Z (F * F))).
Definition add_rate (net_id : Z) (rates : rate_table) (id_line : nat * string) : res rate_table :=
  '(m, s) ← get_flow_params id_line.2;
  Ok (Dict.set rates net_id (Dict.set (Dict.get_default [] rates net_id) (Z.of_nat id_line.1)
        (fmul (f_of_Z m) mu, fmul s sigma))).

Definition add_rate_file (rates : rate_table) (nw_file : path) : M fsys rate_table :=
  name ← lift (or_raise IndexError (last nw_file));
  net_id ← lift (get_nw_id name);
  text ← read_text nw_file;
  lift (foldM (add_rate net_id) rates (enumerate (readlines text))).

Definition _construct_rate_table : M fsys rate_table :=
  all_files ← files_in (joinpath route_dir "rate_files/");
  foldS add_rate_file [] all_files.

(** One flow: [routes[0]] gives its end points, and three routes are
    dropped. The rate table is a [defaultdict(dict)]. *)
Definition add_flow_def (tx_rates : rate_table) (net_id : Z) (acc : list flow_def * list (Z * list Z))
    (id_paths : Z * dict Z F) : res (list flow_def * list (Z * list Z)) :=
  let '(path_splits, routes) := acc in
  let '(flow_id, paths) := id_paths in
  r ← py_index routes 0; src_host ← py_index r.2 0;
  r ← py_index routes 0; dst_host ← py_index r.2 (-1);
  rate ← Dict.getitem (Dict.get_default [] tx_rates net_id) flow_id;
  Ok ((path_splits ++ [(src_host, dst_host, Dict.values paths, rate)])%list, drop 3 routes).

Definition vr_get_flow_defs : M fsys (list flow_def) :=
  parts ← ne_read_partitions_file (joinpath route_dir ("X_matrix_seed_" +:+ seed_no +:+ ".txt"));
  routes ← ne_get_routes;
  tx_rates ← _construct_rate_table;
  '(path_splits, _) ← lift (foldM (λ acc '(net_id, net_flows),
    foldM (add_flow_def tx_rates net_id) acc net_flows) ([], routes) parts);
  mret path_splits.
End parsers.
