(* ===== verification/CoreTaps.v ===== *)
(** The traffic samples (traffic_analysis/core_taps.py): rates read from a
    summary of packet traces, and their 95th percentiles; and the random
    link rates of traffic_analysis/heterogeneous_links.py.

    The summary file is not part of the repository; its lines are read as
    lists of integers. The mean and the standard deviation of numpy and the
    sampling of scipy are parameters. *)

From Stdlib Require Import Ascii QArith Qcanon.
From S2P Require Import Prelude PyDict PyStr PyFloat PyText TrialStore FileParsing TrafficGen.
Close Scope Q_scope.
Close Scope Qc_scope.

(** [math.ceil(x)] *)
Definition py_ceil {F} `{PyFloatText F} (x : F) : res Z :=
  match classify x with
  | FNan => Raise ValueError
  | FInf _ => Raise OverflowError
  | FFin neg n d => Ok (if neg then - (n / Zpos d) else - (- n / Zpos d))%Z
  end.

(** [sorted(l)] *)
Fixpoint insert_float {F} `{PyFloat F} (x : F) (l : list F) : list F :=
  match l with
  | [] => [x]
  | y :: l' => if flt y x then y :: insert_float x l' else x :: l
  end.
Definition sorted_floats {F} `{PyFloat F} (l : list F) : list F := foldr insert_float [] l.

Section taps.
Context {F : Type} `{PyFloatText F}.
Variables np_mean np_std : list F → F.

Definition SUMMARY_FILE_PATH : path :=
  segments "/home/cpsc-net-user/repos/cpsc_of_testbed/rest_client/traffic_analysis/summary-files/".

Definition parse_traffic_summary (traffic_summary_str : string) : res (list (list Z)) :=
  mapR (λ line, v ← literal_eval line; items ← lit_items v; mapR lit_int items) (splitlines traffic_summary_str).

Definition load_traffic_summary_from_file (file_path : path) : M fsys (list (list Z)) :=
  text ← read_text file_path; lift (parse_traffic_summary text).

(** [r_i * 16 / 10**8], a quotient of integers. *)
Definition scale_traffic_rates (summary : list (list Z)) : list (list F) :=
  (λ s_i : list Z, (λ r_i, flit (r_i * 16) 100000000) <$> s_i) <$> summary.

Definition load_rates : M fsys (list (list F)) :=
  summary ← load_traffic_summary_from_file (SUMMARY_FILE_PATH ++ ["nyc19_sec"%string]);
  mret (scale_traffic_rates summary).

Definition get_rate_list : M fsys (list F) := summary ← load_rates; lift (py_index summary 0).

Definition get_rates_for_flows : M fsys (list (list F) * list F * list F) :=
  summary ← load_rates; mret (summary, np_mean <$> summary, np_std <$> summary).

Definition percentile_rate (rates : list F) : res F :=
  let rate_list := sorted_floats rates in
  percentile_index ← py_ceil (fmul (flit 95 100) (f_of_Z (Z.of_nat (length rate_list))));
  py_index rate_list percentile_index.

Definition get_95th_percentile_rates_for_flows : M fsys (list (list F) * list F * list F) :=
  '(summary, means, std_dev) ← get_rates_for_flows;
  percentile_mean_rates ← lift (mapR percentile_rate summary);
  mret (summary, percentile_mean_rates, std_dev).
End taps.

(** * heterogeneous_links.py *)

(** The names [uniform_paramaters] and [PrecomputedTapDistribution] are not
    defined in the module. *)
Definition link_distribution {F} `{PyFloat F} (mu sigma : F) (traffic_model : TrafficModels) (transmit_rates : option (list F))
    : res (Distribution (F:=F)) :=
  match traffic_model with
  | TRUNC_NORM | RANDOM_SAMPLING => truncated mu sigma (f_of_Z (2 ^ 32 - 1))
  | TRUNC_NORM_SYMMETRIC => truncated mu sigma (fmul mu (f_of_Z 2))
  | UNIFORM => Raise NameError
  | GAMMA =>
      theta ← fdiv sigma mu;
      shape ← fdiv sigma (fmul theta theta);
      Ok (gamma shape theta)
  | PRECOMPUTED => _ ← or_raise ValueError transmit_rates; Raise NameError
  end.

Definition get_heterogeneous_link_rates {F RNG} `{PyFloat F} (rvs : Distribution (F:=F) → M RNG F) (mu sigma : F)
    (number_of_samples : nat) : M RNG (list F) :=
  distribution ← lift (link_distribution mu sigma GAMMA None);
  foldS (λ samples _, x ← rvs distribution; mret (samples ++ [x])) [] (seq 0 number_of_samples).

(** * Percentiles *)

Lemma insert_float_perm {F} `{PyFloat F} (x : F) l : insert_float x l ≡ₚ x :: l.
Proof. induction l as [|y l IH]; cbn; [done|]. destruct (flt y x); [|done]. rewrite IH. constructor. Qed.
Lemma sorted_floats_perm {F} `{PyFloat F} (l : list F) : sorted_floats l ≡ₚ l.
Proof. induction l as [|x l IH]; cbn; [done|]. by rewrite insert_float_perm, IH. Qed.

Lemma insert_float_sorted (x : Qc) l : StronglySorted Qcle l → StronglySorted Qcle (insert_float x l).
Proof.
  induction 1 as [|y l Hl IH Hy]; cbn -[flt]; [repeat constructor|]. destruct (flt y x) eqn:E.
  - apply flt_exact_true, Qclt_le_weak in E. constructor; [done|]. rewrite insert_float_perm. by constructor.
  - apply flt_exact_false in E. constructor; [by constructor|]. constructor; [done|]. eapply Forall_impl; [exact Hy|].
    intros z Hz. by eapply Qcle_trans.
Qed.
Lemma sorted_floats_sorted (l : list Qc) : StronglySorted Qcle (sorted_floats l).
Proof. induction l as [|x l IH]; cbn; [constructor|]. by apply insert_float_sorted. Qed.

(** The index for short samples is out of range: there is no percentile of
    fewer than twenty rates. *)
Lemma short_sample_raises (rates : list SpecFloat.spec_float) :
  length rates < 20 → percentile_rate rates = Raise IndexError.
Proof.
  intros Hl. unfold percentile_rate. rewrite (Permutation_length (sorted_floats_perm rates)).
  pose proof (Permutation_length (sorted_floats_perm rates)) as Hlen. set (l := sorted_floats rates) in *. rewrite <-Hlen in Hl |- *. clearbody l.
  assert (∀ n, n < 20 → py_ceil (F:=SpecFloat.spec_float) (fmul (flit 95 100) (f_of_Z (Z.of_nat n))) = Ok (Z.of_nat n)) as Hceil.
  { intros n Hn. do 20 (destruct n as [|n]; [by vm_compute|]). lia. }
  rewrite Hceil by done. cbn [mbind res_bind]. unfold py_index. rewrite bool_decide_true by lia. rewrite Nat2Z.id.
  by rewrite lookup_ge_None_2.
Qed.

Lemma py_ceil_exact (x : Qc) : (0 <= x)%Qc →
  ∃ c, py_ceil x = Ok c ∧ (Qnum (this x) <= c * QDen (this x) < Qnum (this x) + QDen (this x))%Z.
Proof.
  intros Hx. unfold py_ceil. cbn [classify exact_text]. assert (0 <= Qnum (this x))%Z as Hn.
  { change (0 <= this x)%Q in Hx. unfold Qle in Hx. cbn [Qnum Qden] in Hx. lia. }
  rewrite bool_decide_eq_false_2 by (by apply Qcle_not_lt). rewrite Z.abs_eq by done. eexists. split; [done|].
  set (n := Qnum (this x)) in *. set (d := QDen (this x)).
  pose proof (Z.div_mod (- n) d ltac:(lia)). pose proof (Z.mod_pos_bound (- n) d ltac:(lia)). nia.
Qed.

Lemma sorted_prefix (l : list Qc) c r : StronglySorted Qcle l → l !! c = Some r → Forall (λ x, x <= r)%Qc (take (S c) l).
Proof.
  intros Hs. revert c. induction Hs as [|y l Hl IH Hy]; intros c Hc; [done|]. destruct c as [|c]; cbn in *.
  - injection Hc as <-. constructor; [apply Qcle_refl|constructor].
  - constructor; [|by apply IH]. rewrite Forall_forall in Hy. apply Hy, list_elem_of_In. eapply list_elem_of_In, list_elem_of_lookup_2, Hc.
Qed.

(** Of twenty or more rates there is a percentile, and at least 95 percent
    of the rates do not exceed it (in exact arithmetic). *)
Lemma percentile_covers (rates : list Qc) : 20 ≤ length rates →
  ∃ r, percentile_rate rates = Ok r ∧ r ∈ rates ∧ 19 * length rates ≤ 20 * length (filter (λ x, x <= r)%Qc rates).
Proof.
  intros Hl. unfold percentile_rate. pose proof (sorted_floats_perm rates) as Hp. pose proof (sorted_floats_sorted rates) as Hs.
  rewrite (Permutation_length Hp). set (l := sorted_floats rates) in *. set (n := length rates) in *.
  set (x := fmul (flit 95 100) (f_of_Z (Z.of_nat n))). assert (this x == (19 # 20) * inject_Z (Z.of_nat n))%Q as Hx.
  { unfold x. change (fmul (flit 95 100) (f_of_Z (Z.of_nat n))) with (flit 95 100 * f_of_Z (Z.of_nat n))%Qc.
    rewrite this_mul, this_of_Z, this_lit. unfold Qeq. cbn. lia. }
  clearbody x. assert (Qnum (this x) * 20 = 19 * Z.of_nat n * QDen (this x))%Z as Hval by (unfold Qeq in Hx; cbn in Hx; lia).
  destruct (py_ceil_exact x) as (c & Hc & Hlo & Hhi).
  { change (0 <= this x)%Q. rewrite Hx. unfold Qle. cbn. lia. }
  rewrite Hc. cbn [mbind res_bind]. assert (19 * Z.of_nat n <= 20 * c /\ 20 * c < 19 * Z.of_nat n + 20)%Z as [Hc1 Hc2] by nia.
  destruct (py_index_nonneg l c) as (r & Hr & Hlook); [rewrite (Permutation_length Hp); fold n; lia|].
  exists r. split; [done|]. split; [rewrite <-Hp; by eapply list_elem_of_lookup_2|].
  rewrite <-(Permutation_length (filter_Permutation (λ x, x <= r)%Qc _ _ Hp)).
  pose proof (sorted_prefix l (Z.to_nat c) r Hs Hlook) as Hpre. rewrite <-(firstn_skipn (S (Z.to_nat c)) l) at 1.
  rewrite filter_app, length_app. assert (filter (λ x, x <= r)%Qc (take (S (Z.to_nat c)) l) = take (S (Z.to_nat c)) l) as -> by (by apply filter_all).
  rewrite length_take. apply lookup_lt_Some in Hlook. lia.
Qed.
