(* ===== verification/MpRouting.v ===== *)
(** The multipath routing experiment: the trials of mp_routing/vle_trial.py
    and the driver mp_routing.py, which composes the remote hosts, the route
    adder, the monitor and the results repository.

    The solver is an external program that reads and writes files; the JSON
    codec, numpy and the working directory are parameters. One state [W] stands for the network and the hosts. Waiting
    and printing are not modelled. *)

From Stdlib Require Import Ascii.
From S2P Require Import Prelude PyDict PyStr PyFloat PyText TopoMapper StatMonitor TrialStore MpTrial RouteAdder Json OpenFlow HostMapper TrafficGen RemoteHost FileParsing CoreTaps.

Local Open Scope string_scope.

(** * vle_trial.py *)

Record VleTrial (F : Type) : Type := mkVleTrial {
  vle_mean_flow_tx_rates : list F;
  vle_std_dev_flow_tx_rates : list F;
  vle_actual_flow_tx_rates : list (list F);
  vle_solver_results : MpTrial F;
  vle_seed_number : Z
}.
Arguments mkVleTrial {F} _ _ _ _ _.
Arguments vle_mean_flow_tx_rates {F} _.
Arguments vle_std_dev_flow_tx_rates {F} _.
Arguments vle_actual_flow_tx_rates {F} _.
Arguments vle_solver_results {F} _.
Arguments vle_seed_number {F} _.

(** The dictionaries of the trial and of the solver's parameters. *)
Record vle_dict (F : Type) : Type := mkVleDict {
  vd_mean_flow_tx_rates : list F;
  vd_std_dev_flow_tx_rates : list F;
  vd_actual_flow_tx_rates : list (list F);
  vd_solver_results : trial_dict F;
  vd_seed_number : Z
}.
Arguments mkVleDict {F} _ _ _ _ _.
Arguments vd_mean_flow_tx_rates {F} _.
Arguments vd_std_dev_flow_tx_rates {F} _.
Arguments vd_actual_flow_tx_rates {F} _.
Arguments vd_solver_results {F} _.
Arguments vd_seed_number {F} _.

Record solver_dict (F : Type) : Type := mkSolverDict {
  sd_mean_flow_tx_rates : list F;
  sd_std_dev_flow_tx_rates : list F;
  sd_actual_flow_tx_rates : list (list F);
  sd_link_capacity : Z;
  sd_seed_number : Z
}.
Arguments mkSolverDict {F} _ _ _ _ _.

Definition VLE_SOLVER_PATH : path := segments "/home/cpsc-net-user/repos/virtual-link-embedding/".
(** mp_routing/params.py *)
Definition link_capacity : Z := 1000.
Definition mp_dst_port : Z := 50000.
Definition mp_time_slice : Z := 10.
Definition mp_base_repository_path : path := segments "/home/cpsc-net-user/repos/mp-routing-results-3/".
Definition mp_repository_name : string := "mp-routing".
Definition mp_repository_schema : string := "/trial-type/seed-number/".

Section vle_trial.
Context {F : Type} `{PyFloat F}.

Definition vle_to_dict (the_vle_trial : VleTrial F) : vle_dict F :=
  mkVleDict (vle_mean_flow_tx_rates the_vle_trial) (vle_std_dev_flow_tx_rates the_vle_trial)
    (vle_actual_flow_tx_rates the_vle_trial) (trial_to_dict (vle_solver_results the_vle_trial))
    (vle_seed_number the_vle_trial).

Definition vle_from_dict (d : vle_dict F) : res (VleTrial F) :=
  solver_results ← trial_from_dict (vd_solver_results d);
  Ok (mkVleTrial (vd_mean_flow_tx_rates d) (vd_std_dev_flow_tx_rates d) (vd_actual_flow_tx_rates d)
        solver_results (vd_seed_number d)).

Variable dumps_vle : vle_dict F → string.
Variable loads_vle : string → res (vle_dict F).
Definition vle_to_json (the_vle_trial : VleTrial F) : string := dumps_vle (vle_to_dict the_vle_trial).
Definition vle_from_json (vle_trial_json_str : string) : res (VleTrial F) :=
  vle_trial_dict ← loads_vle vle_trial_json_str; vle_from_dict vle_trial_dict.

Variable dumps_solver : solver_dict F → string.
Variable loads_trial : string → res (trial_dict F).
(** [subprocess.run] of the solver. *)
Variable run_solver : list string → M fsys unit.

(** The inner function reads [actual_flow_tx_rates] of the outer one. *)
Definition vle_create_solver_cmd (mean_flow_tx_rates std_dev_flow_tx_rates : list F)
    (actual_flow_tx_rates : list (list F)) (link_capacity seed_number : Z) : M fsys (list string) :=
  write_text (joinpath VLE_SOLVER_PATH "flow-params.txt")
    (dumps_solver (mkSolverDict mean_flow_tx_rates std_dev_flow_tx_rates actual_flow_tx_rates link_capacity seed_number)) ≫= λ _,
  mret ["/home/cpsc-net-user/repos/virtual-link-embedding/invoke_solver.sh"].

Definition vle_invoke_solver_with_params (mean_flow_tx_rates std_dev_flow_tx_rates : list F)
    (actual_flow_tx_rates : list (list F)) (link_capacity seed_number : Z) : M fsys (MpTrial F) :=
  cmd ← vle_create_solver_cmd mean_flow_tx_rates std_dev_flow_tx_rates actual_flow_tx_rates link_capacity seed_number;
  run_solver cmd ≫= λ _,
  text ← read_text (joinpath VLE_SOLVER_PATH ("trial-" +:+ str_of_Z seed_number +:+ ".json"));
  lift (trial_from_json loads_trial text).

Definition vle_create_trial (mean_flow_tx_rates std_dev_flow_tx_rates : list F)
    (actual_flow_tx_rates : list (list F)) (seed_number : Z) : M fsys (VleTrial F) :=
  solver_results ← vle_invoke_solver_with_params mean_flow_tx_rates std_dev_flow_tx_rates actual_flow_tx_rates
    link_capacity seed_number;
  mret (mkVleTrial mean_flow_tx_rates std_dev_flow_tx_rates actual_flow_tx_rates solver_results seed_number).
End vle_trial.

(** * mp_routing.py *)

(** The entry of a host: ["receiver"] and ["sender"]. *)
Record EndHostResults : Type := mkEndHostResults {
  eh_receiver : list (string * Z * Z);
  eh_sender : dict nat SenderReport
}.

(** The counts of one flow, received and sent; [None] when they were not
    found. *)
Abbreviation flow_counts := (option (Z * Z)).
Abbreviation processed := (dict Z (dict Z (list flow_counts))).

Section results.
Context {W : Type} `{DnsApi W} {F : Type}.

(** [processed_results[s][t].append(x)] *)
Definition append_result (p : processed) (s t : Z) (x : flow_counts) : processed :=
  let inner := Dict.get_default [] p s in
  Dict.set p s (Dict.set inner t (Dict.get_default [] inner t ++ [x])%list).

(** The two generator expressions. *)
Definition sender_results (reports : dict nat SenderReport) (destination_ip : option string) (used : list Z)
    : option SenderReport :=
  head (filter (λ r, Some (rp_dst_ip r) = destination_ip ∧ (rp_src_port r ∉ used)) (Dict.values reports)).
Definition receiver_results (results : list (string * Z * Z)) (source_ip : option string) (src_port : Z)
    : option (string * Z * Z) :=
  head (filter (λ r, Some r.1.1 = source_ip ∧ r.1.2 = src_port) results).

(** One flow, on [used_source_ports] and [processed_results]. *)
Definition process_flow (end_host_results : dict Z EndHostResults) (acc : dict Z (list Z) * processed)
    (flow : MpFlow F) : M W (dict Z (list Z) * processed) :=
  let '(used_source_ports, processed_results) := acc in
  let source_node := mp_source_node flow in
  let destination_node := mp_destination_node flow in
  destination_ip ← get_ip_address_for_host_number default_domain destination_node;
  source_ip ← get_ip_address_for_host_number default_domain source_node;
  at_source ← lift (Dict.getitem end_host_results source_node);
  match sender_results (eh_sender at_source) destination_ip (Dict.get_default [] used_source_ports source_node) with
  | None => mret (used_source_ports, append_result processed_results source_node destination_node None)
  | Some sent =>
      at_destination ← lift (Dict.getitem end_host_results destination_node);
      match receiver_results (eh_receiver at_destination) source_ip (rp_src_port sent) with
      | None => mret (used_source_ports, append_result processed_results source_node destination_node None)
      | Some received =>
          mret (Dict.set used_source_ports source_node
                  (set_add (rp_src_port sent) (Dict.get_default [] used_source_ports source_node)),
                append_result processed_results source_node destination_node (Some (received.2, rp_pkt_count sent)))
      end
  end.

Definition process_end_host_results (flows : list (MpFlow F)) (end_host_results : dict Z EndHostResults) : M W processed :=
  '(_, processed_results) ← foldS (process_flow end_host_results) ([], []) flows;
  mret processed_results.
End results.

(** The variables of the driver: the hosts, the objects it uses, and the
    files of the machine it runs on. *)
Record MpRun (F : Type) : Type := mkMpRun {
  mr_hosts : dict Z (TrafficGenHost F);
  mr_adder : OnosRouteAdder F;
  mr_monitor : OnMonitor;
  mr_fs : fsys
}.
Arguments mkMpRun {F} _ _ _ _.
Arguments mr_hosts {F} _.
Arguments mr_adder {F} _.
Arguments mr_monitor {F} _.
Arguments mr_fs {F} _.

Section driver.
Context {W F : Type} `{SshEnv W} `{DnsApi W} `{RouteApi W} `{PyFloat F}.
Variable str_clients : list (HostClient F) → string.
Abbreviation Hosts := (dict Z (TrafficGenHost F)).
Abbreviation State := (MpRun F * W)%type.

(** A method of [hosts[host_id]]. *)
Definition on_host_of {A} (host_id : Z) (m : M (TrafficGenHost F * W) A) : M (Hosts * W) A := λ s,
  match Dict.get s.1 host_id with
  | None => (Raise KeyError, s)
  | Some host => let '(r, (host, w)) := m (host, s.2) in (r, (Dict.set s.1 host_id host, w))
  end.

Definition create_next_connection (host_id : Z) : M (Hosts * W) unit :=
  hostname ← lift (map_sw_to_host (str_of_Z host_id));
  host ← on_world (create_remote_host hostname host_id);
  set_self (λ hosts, Dict.set hosts host_id host) ≫= λ _,
  on_host_of host_id connect.

(** The end points of the pairs. *)
Definition endpoint_ids (od_pairs : list (Z * Z)) : list Z := set_of (od_pairs.*1 ++ od_pairs.*2).

(** The dictionary is lost when the function raises. *)
Definition create_and_initialize_host_connections (od_pairs : list (Z * Z)) : M W Hosts := λ w,
  match for_each (endpoint_ids od_pairs) create_next_connection ([], w) with
  | (Ok _, (hosts, w)) => (Ok hosts, w)
  | (Raise e, (_, w)) => (Raise e, w)
  end.

Definition collect_end_host_results : M (Hosts * W) (dict Z EndHostResults) :=
  hosts ← gets fst;
  foldS (λ results_map host_id,
    '(receiver_results, sender_results) ← on_host_of host_id retrieve_end_host_results;
    mret (Dict.set results_map host_id (mkEndHostResults receiver_results sender_results))) [] (Dict.keys hosts).

Definition close_all_host_connections : M (Hosts * W) unit :=
  hosts ← gets fst;
  for_each (Dict.keys hosts) (λ host_id, on_host_of host_id disconnect).

(** The parts of the state. *)
Definition on_hosts {A} (m : M (Hosts * W) A) : M State A := λ s,
  let '(r, (hosts, w)) := m (mr_hosts s.1, s.2) in
  (r, (mkMpRun hosts (mr_adder s.1) (mr_monitor s.1) (mr_fs s.1), w)).
Definition on_adder {A} (m : M (OnosRouteAdder F * W) A) : M State A := λ s,
  let '(r, (adder, w)) := m (mr_adder s.1, s.2) in
  (r, (mkMpRun (mr_hosts s.1) adder (mr_monitor s.1) (mr_fs s.1), w)).
Definition on_mp_monitor {A} (m : M (OnMonitor * W) A) : M State A := λ s,
  let '(r, (mon, w)) := m (mr_monitor s.1, s.2) in
  (r, (mkMpRun (mr_hosts s.1) (mr_adder s.1) mon (mr_fs s.1), w)).
Definition on_fs {A} (m : M fsys A) : M State A := λ s,
  let '(r, fs) := m (mr_fs s.1) in
  (r, (mkMpRun (mr_hosts s.1) (mr_adder s.1) (mr_monitor s.1) fs, s.2)).

Definition set_mp_hosts (hosts : Hosts) (st : MpRun F) : MpRun F :=
  mkMpRun hosts (mr_adder st) (mr_monitor st) (mr_fs st).

(** [(r_i/8)*10**6] *)
Definition scale_rate (r : F) : F := fmul (fquot r (f_of_Z 8)) (f_of_Z (10 ^ 6)).

Definition configure_flow_client (tag_values : flow_tags) (id_flow : nat * MpFlow F) : M State unit :=
  let '(flow_id, flow) := id_flow in
  dst_hostname ← lift (map_sw_to_host (str_of_Z (mp_destination_node flow)));
  dst_ip ← on_world (resolve_hostname default_domain dst_hostname);
  tags ← (λ s, match Dict.get (mr_hosts s.1) (mp_source_node flow) with
               | None => (Raise KeyError, s)
               | Some _ => (Dict.getitem tag_values flow_id, s)
               end);
  on_hosts (on_host_of (mp_source_node flow) (set_self (configure_precomputed_client
    (scale_rate <$> mp_actual_tx_rates flow) dst_ip mp_dst_port (path_fraction <$> mp_paths flow)
    (mp_source_node flow) mp_time_slice tags 1066))).

Context `{OnosApi} {GN GT : Type} `{NxGraph string GN} `{NxGraph Z GT}.
Variable graph_matcher : GN → GT → option (dict string Z).
Variable post_start : M W (Z * string).
Variable post_stop : string → M W (Z * list (list IfaceStats)).
Variable cwd : path.
Variable dumps_utilization : list (list IfaceStats) → string.
Variable dumps_processed : processed → string.
Variable dumps_vle : vle_dict F → string.

Definition read_mapper : M State OnosMapper :=
  text ← on_fs (read_text (joinpath cwd "./abilene.txt"));
  lift (init_onos_mapper graph_matcher text).

Definition source_nodes (od_pairs : list (Z * Z)) : list Z := set_of od_pairs.*1.

(** [route_adder] has a mapper of its own, [adder_mapper]. *)
Definition conduct_onos_trial (adder_mapper : OnosMapper) (the_vle_trial : VleTrial F)
    (repository : ResultsRepository) (trial_type : string) : M State unit :=
  read_mapper ≫= λ _,
  st ← gets fst;
  let od_pairs := get_src_dst_pairs (mr_adder st) in
  hosts ← on_world (create_and_initialize_host_connections od_pairs);
  set_self (set_mp_hosts hosts) ≫= λ _,
  for_each (Dict.keys hosts) (λ host_id, on_hosts (on_host_of host_id start_server) ≫= λ _, mret tt) ≫= λ _,
  tag_values ← on_adder (install_routes (onos_map_sw_to_dpid adder_mapper));
  for_each (enumerate (ra_flows (mr_adder st))) (configure_flow_client tag_values) ≫= λ _,
  for_each (source_nodes od_pairs) (λ source_node,
    on_hosts (on_host_of source_node (start_clients str_clients)) ≫= λ _, mret tt) ≫= λ _,
  on_mp_monitor (start_monitor post_start) ≫= λ _,
  on_mp_monitor (stop_monitor post_stop) ≫= λ _,
  for_each (source_nodes od_pairs) (λ source_node,
    on_hosts (on_host_of source_node stop_client) ≫= λ _, mret tt) ≫= λ _,
  for_each (Dict.keys hosts) (λ host_id, on_hosts (on_host_of host_id stop_server) ≫= λ _, mret tt) ≫= λ _,
  utilization_results ← on_mp_monitor get_monitor_statistics;
  end_host_results ← on_hosts collect_end_host_results;
  processed_results ← on_world (process_end_host_results (mp_flows (vle_solver_results the_vle_trial)) end_host_results);
  on_adder remove_routes ≫= λ _,
  on_hosts close_all_host_connections ≫= λ _,
  on_fs (write_trial_results repository
    [("seed-number", str_of_Z (vle_seed_number the_vle_trial)); ("trial-type", trial_type)]
    [("utilization-results.txt", dumps_utilization utilization_results);
     ("vle-trial.json", vle_to_json dumps_vle the_vle_trial);
     ("end-host-results.json", dumps_processed processed_results)] false).

(** The [try] of [main]: the routes are removed and the exception is raised
    again, unless the removal raises. *)
Definition guarded_trial (adder_mapper : OnosMapper) (the_vle_trial : VleTrial F)
    (repository : ResultsRepository) (trial_type : string) : M State unit := λ s,
  match conduct_onos_trial adder_mapper the_vle_trial repository trial_type s with
  | (Ok _, s) => (Ok tt, s)
  | (Raise ex, s) => (on_adder remove_routes ≫= λ _, lift (Raise ex)) s
  end.

(** ** main *)

(** [for idx in range(100): l.append(l[idx])], on the three lists at once. *)
Definition append_first {A} (l : list A) (idx : Z) : res (list A) :=
  x ← py_index l idx; Ok (l ++ [x])%list.
Definition repeat_samples (lists : list (list F) * list F * list F) : res (list (list F) * list F * list F) :=
  foldM (λ '(tx_rate_list, means, std_devs) idx,
    tx_rate_list ← append_first tx_rate_list idx;
    means ← append_first means idx;
    std_devs ← append_first std_devs idx;
    Ok (tx_rate_list, means, std_devs)) lists (seqZ 0 100).

Variable dumps_solver : solver_dict F → string.
Variable loads_trial : string → res (trial_dict F).
Variable run_solver : list string → M fsys unit.
Variable dumps_metadata : dict string string → string.
Variable loads_metadata : string → res (dict string string).
Context `{!PyFloatText F}.
(** [np.mean] and [np.std] of a list *)
Variables rates_mean rates_std : list F → F.

Definition seed_numbers : list Z := [830656277; 3654904804; 1736873850]%Z.

(** A statement of [main] on the files, and the trial on the files and the
    network. *)
Definition on_files {A} (m : M fsys A) : M (fsys * W) A := λ s, let '(r, fs) := m s.1 in (r, (fs, s.2)).
Definition run_trial_object (m : M State unit) (adder : OnosRouteAdder F) : M (fsys * W) unit := λ s,
  let '(r, (st, w)) := m (mkMpRun [] adder init_monitor s.1, s.2) in (r, (mr_fs st, w)).

Definition main_round (mapper : OnosMapper) (tx_rate_list : list (list F)) (means percentiles : list F) (seed : Z)
    : M (fsys * W) unit :=
  the_trial ← on_files (vle_create_trial dumps_solver loads_trial run_solver percentiles
    (replicate (length means) fzero) tx_rate_list seed);
  repository ← on_files (create_repository dumps_metadata loads_metadata mp_base_repository_path
    mp_repository_schema mp_repository_name);
  run_trial_object (guarded_trial mapper the_trial repository "percentile")
    (init_route_adder (vle_solver_results the_trial)).

Definition mp_main : M (fsys * W) unit :=
  text ← on_files (read_text (joinpath cwd "./abilene.txt"));
  mapper ← lift (init_onos_mapper graph_matcher text);
  rates ← on_files (get_rates_for_flows rates_mean rates_std);
  '(tx_rate_list, means, std_devs) ← lift (repeat_samples rates);
  '(_, percentiles, _) ← on_files (get_95th_percentile_rates_for_flows rates_mean rates_std);
  for_each seed_numbers (main_round mapper tx_rate_list means percentiles).
End driver.
