(* ===== verification/MpRoutingProps.v ===== *)
(** The multipath routing experiment leaves no routes behind, and attributes
    the packet counters of the hosts to the flows correctly. *)

From Stdlib Require Import Ascii.
From S2P Require Import Prelude PyDict PyStr PyFloat PyText TopoMapper StatMonitor TrialStore MpTrial RouteAdder Keeps RouteAdderProps Json OpenFlow HostMapper TrafficGen RemoteHost FileParsing CoreTaps MpRouting.

(** * Routes *)

Create HintDb quiet discriminated.

Section routes.
Context {W F : Type} `{SshEnv W} `{DnsApi W} `{RouteApi W} `{PyFloat F}.
Variable str_clients : list (HostClient F) → string.
Variable post_start : M W (Z * string).
Variable post_stop : string → M W (Z * list (list IfaceStats)).
Variable routes : W → gset string.

Definition same_routes {A} (m : M W A) : Prop := ∀ w, routes (m w).2 = routes w.

(** The controller keeps the routes that nobody removes, and removing a
    route that is not installed changes nothing. Sessions, name servers and
    the monitor do not change routes. *)
Record mp_laws : Prop := {
  ml_server : route_server routes;
  ml_gone : ∀ tok w, tok ∉ routes w → routes (route_post (remove_route_url tok) None w).2 = routes w;
  ml_client : same_routes ssh_client;
  ml_connect : ∀ t ip port u pw, same_routes (ssh_connect t ip port u pw);
  ml_exec : ∀ t cmd, same_routes (ssh_exec t cmd);
  ml_close : ∀ t, same_routes (ssh_close t);
  ml_scp : ∀ cmd, same_routes (scp_run cmd);
  ml_receiver : ∀ f, same_routes (receiver_pickle f);
  ml_sender : ∀ f, same_routes (sender_pickle f);
  ml_dns : ∀ q, same_routes (dns_query_a q);
  ml_start : same_routes post_start;
  ml_stop : ∀ tok, same_routes (post_stop tok)
}.
Hypothesis laws : mp_laws.

(** Code of an object that does not change the routes. *)
Definition quiet {O A} (m : M (O * W) A) : Prop := ∀ base, keeps (λ s, routes s.2 = base) m.

Lemma quiet_world {O A} (m : M W A) : same_routes m → quiet (O:=O) (on_world m).
Proof. intros Hm base. apply keeps_on_world. intros o w Hw. cbn [snd] in *. by rewrite Hm. Qed.
Lemma quiet_self {O} (f : O → O) : quiet (set_self (W:=W) f).
Proof. intros base. by apply keeps_set_self. Qed.
Lemma mp_quiet_bind {O A B} (m : M (O * W) A) (f : A → M (O * W) B) :
  quiet m → (∀ a, quiet (f a)) → quiet (m ≫= f).
Proof. intros Hm Hf base. apply keeps_bind; [apply Hm|intros a; apply Hf]. Qed.
Lemma quiet_ret {O A} (a : A) : quiet (O:=O) (mret a).
Proof. intros base. apply keeps_ret. Qed.
Lemma mp_quiet_lift {O A} (r : res A) : quiet (O:=O) (lift r).
Proof. intros base. apply keeps_lift. Qed.
Lemma quiet_gets {O A} (f : O * W → A) : quiet (gets f).
Proof. intros base. apply keeps_gets. Qed.
Lemma quiet_if {O A} (b : bool) (m1 m2 : M (O * W) A) : quiet m1 → quiet m2 → quiet (if b then m1 else m2).
Proof. by destruct b. Qed.
Lemma quiet_for_each {O A} (body : A → M (O * W) unit) l : (∀ x, quiet (body x)) → quiet (for_each l body).
Proof. intros Hb base. apply keeps_for_each. intros x _. apply Hb. Qed.
Lemma quiet_foldS {O A B} (f : B → A → M (O * W) B) b l : (∀ b x, quiet (f b x)) → quiet (foldS f b l).
Proof. intros Hb base. apply keeps_foldS. intros b0 x _. apply Hb. Qed.

Lemma same_bind {A B} (m : M W A) (f : A → M W B) :
  same_routes m → (∀ a, same_routes (f a)) → same_routes (m ≫= f).
Proof.
  intros Hm Hf w. unfold mbind, M_bind. specialize (Hm w). destruct (m w) as [[a|e] w']; [|done].
  by rewrite Hf.
Qed.
Lemma same_ret {A} (a : A) : same_routes (mret a).
Proof. done. Qed.
Lemma same_lift {A} (r : res A) : same_routes (lift r).
Proof. done. Qed.
Lemma same_for_each {A} (body : A → M W unit) l : (∀ x, same_routes (body x)) → same_routes (for_each l body).
Proof. intros Hb. induction l as [|x l IH]; [done|]. cbn [for_each]. by apply same_bind. Qed.
Lemma same_foldS {A B} (f : B → A → M W B) b l : (∀ b x, same_routes (f b x)) → same_routes (foldS f b l).
Proof. intros Hf. revert b. induction l as [|x l IH]; intros b; [done|]. cbn [foldS]. by apply same_bind. Qed.

Hint Resolve quiet_world quiet_self mp_quiet_bind quiet_ret mp_quiet_lift quiet_gets quiet_if quiet_for_each quiet_foldS
  same_bind same_ret same_lift same_for_each same_foldS : quiet.
Hint Resolve ml_client ml_connect ml_exec ml_close ml_scp ml_receiver ml_sender ml_dns ml_start ml_stop : quiet.
Ltac quiet := eauto 20 with quiet.

Lemma resolve_same domain name : same_routes (resolve_hostname domain name).
Proof.
  unfold resolve_hostname. apply same_bind; [apply same_lift|]. intros q. apply same_bind; [|intros; apply same_ret].
  intros w. unfold or_io_error. pose proof (ml_dns laws q w) as Hq. by destruct (dns_query_a q w) as [[] ?].
Qed.
Hint Resolve resolve_same : quiet.

Lemma connect_quiet : quiet (connect (F:=F)).
Proof. unfold connect. quiet. Qed.
Lemma disconnect_quiet : quiet (disconnect (F:=F)).
Proof. unfold disconnect. quiet. Qed.
Lemma exec_on_tunnel_quiet cmd : quiet (exec_on_tunnel (F:=F) cmd).
Proof. unfold exec_on_tunnel. quiet. Qed.
Hint Resolve connect_quiet disconnect_quiet exec_on_tunnel_quiet : quiet.
Lemma exec_command_quiet cmd : quiet (exec_command (F:=F) cmd).
Proof. unfold exec_command. quiet. Qed.
Hint Resolve exec_command_quiet : quiet.

Lemma mp_start_server_quiet : quiet (start_server (F:=F)).
Proof. unfold start_server, remove_all_files. quiet. Qed.
Lemma start_clients_quiet : quiet (start_clients (F:=F) str_clients).
Proof. unfold start_clients. quiet. Qed.
Lemma retrieve_quiet : quiet (retrieve_end_host_results (F:=F)).
Proof. unfold retrieve_end_host_results, fetch_file. quiet. Qed.
Hint Resolve mp_start_server_quiet start_clients_quiet retrieve_quiet : quiet.

(** ** The hosts of the driver *)

Lemma on_host_of_quiet {A} host_id (m : M (TrafficGenHost F * W) A) : quiet m → quiet (on_host_of host_id m).
Proof.
  intros Hm base [hosts w] Hw. unfold on_host_of. cbn [fst snd] in *. destruct (Dict.get hosts host_id) as [h|]; [|done].
  specialize (Hm base (h, w) Hw). by destruct (m (h, w)) as [r [h' w']].
Qed.
Hint Resolve on_host_of_quiet : quiet.

Lemma create_remote_host_same name i : same_routes (create_remote_host (F:=F) name i).
Proof. unfold create_remote_host, init_traffic_gen_host. apply same_bind; [destruct (is_ip_addr name)|]; quiet. Qed.
Hint Resolve create_remote_host_same : quiet.

Lemma create_connections_same pairs : same_routes (create_and_initialize_host_connections (F:=F) pairs).
Proof.
  intros w. unfold create_and_initialize_host_connections.
  assert (quiet (for_each (endpoint_ids pairs) (create_next_connection (F:=F)))) as Hq by (unfold create_next_connection; quiet).
  specialize (Hq (routes w) ([], w) eq_refl). by destruct (for_each _ _ _) as [[] [hosts w']].
Qed.

Lemma mp_collect_quiet : quiet (collect_end_host_results (F:=F)).
Proof. unfold collect_end_host_results. apply mp_quiet_bind; [quiet|]. intros hosts. apply quiet_foldS. intros b i.
  apply mp_quiet_bind; [quiet|]. intros [r s]. quiet. Qed.
Lemma close_quiet : quiet (close_all_host_connections (F:=F)).
Proof. unfold close_all_host_connections. quiet. Qed.

Lemma mp_process_same flows ehr : same_routes (process_end_host_results (F:=F) flows ehr).
Proof.
  unfold process_end_host_results. apply same_bind; [|intros [u p]; quiet]. apply same_foldS. intros [u p] f.
  unfold process_flow, get_ip_address_for_host_number. apply same_bind; [quiet|]. intros dip. apply same_bind; [quiet|].
  intros sip. apply same_bind; [quiet|]. intros src. destruct (sender_results _ _ _); [|quiet].
  apply same_bind; [quiet|]. intros dst. destruct (receiver_results _ _ _); quiet.
Qed.

(** ** The trial *)

Abbreviation State := (MpRun F * W)%type.

(** During the trial the adder owns the routes that were added; afterwards
    none of them is left. *)
Definition owning (base : gset string) (s : State) : Prop := owns_routes routes base (mr_adder s.1, s.2).
Definition removed (base : gset string) (s : State) : Prop :=
  (∀ tok, tok ∈ installed_route_tokens (mr_adder s.1) → tok ∉ base) ∧ routes s.2 = base.

(** Steps that change neither the tokens nor the routes keep both. *)
Definition steady {A} (m : M State A) : Prop := ∀ toks R,
  keeps (λ s, installed_route_tokens (mr_adder s.1) = toks ∧ routes s.2 = R) m.

Lemma steady_owning {A} (m : M State A) base : steady m → keeps (owning base) m.
Proof.
  intros Hm s Hs. destruct (Hm _ _ s (conj eq_refl eq_refl)) as [Ht Hr]. unfold owning, owns_routes in *. cbn [fst snd] in *.
  by rewrite Ht, Hr.
Qed.
Lemma steady_removed {A} (m : M State A) base : steady m → keeps (removed base) m.
Proof.
  intros Hm s Hs. destruct (Hm _ _ s (conj eq_refl eq_refl)) as [Ht Hr]. unfold removed in *. by rewrite Ht, Hr.
Qed.
Hint Resolve steady_owning steady_removed : quiet.

Lemma steady_world {A} (m : M W A) : same_routes m → steady (on_world m).
Proof. intros Hm t R. apply keeps_on_world. intros o w [? ?]. cbn [fst snd] in *. by rewrite Hm. Qed.
Lemma steady_hosts {A} (m : M (dict Z (TrafficGenHost F) * W) A) : quiet m → steady (on_hosts m).
Proof.
  intros Hm t R [st w] [Ht HR]. cbn [fst snd] in *. unfold on_hosts. specialize (Hm R (mr_hosts st, w) HR). cbn [fst snd].
  by destruct (m (mr_hosts st, w)) as [r [hosts w']].
Qed.
Lemma steady_fs {A} (m : M fsys A) : steady (on_fs (W:=W) (F:=F) m).
Proof. intros t R [st w] [Ht HR]. unfold on_fs. cbn [fst snd] in *. by destruct (m (mr_fs st)). Qed.
Lemma steady_monitor {A} (m : M (OnMonitor * W) A) : quiet m → steady (on_mp_monitor m).
Proof.
  intros Hm t R [st w] [Ht HR]. cbn [fst snd] in *. unfold on_mp_monitor. specialize (Hm R (mr_monitor st, w) HR). cbn [fst snd].
  by destruct (m (mr_monitor st, w)) as [r [mon w']].
Qed.
Lemma steady_bind {A B} (m : M State A) (f : A → M State B) : steady m → (∀ a, steady (f a)) → steady (m ≫= f).
Proof. intros Hm Hf t R. apply keeps_bind; [apply Hm|intros a; apply Hf]. Qed.
Lemma steady_for_each {A} (body : A → M State unit) l : (∀ x, steady (body x)) → steady (for_each l body).
Proof. intros Hb t R. apply keeps_for_each. intros x _. apply Hb. Qed.
Lemma steady_ret {A} (a : A) : steady (mret a).
Proof. intros t R. apply keeps_ret. Qed.
Lemma steady_lift {A} (r : res A) : steady (lift r).
Proof. intros t R. apply keeps_lift. Qed.
Lemma steady_gets {A} (f : State → A) : steady (gets f).
Proof. intros t R. apply keeps_gets. Qed.
Lemma steady_set_hosts hosts : steady (set_self (W:=W) (set_mp_hosts (F:=F) hosts)).
Proof. intros t R. by apply keeps_set_self. Qed.
Hint Resolve steady_set_hosts steady_world steady_hosts steady_fs steady_monitor steady_bind steady_for_each steady_ret steady_lift
  steady_gets create_connections_same mp_collect_quiet close_quiet mp_process_same : quiet.

Lemma mp_start_monitor_quiet : quiet (start_monitor post_start).
Proof. unfold start_monitor. change (@on_controller W) with (@on_world OnMonitor W). apply mp_quiet_bind; [quiet|]. intros self.
  apply quiet_if; [quiet|]. apply mp_quiet_bind; [quiet|]. intros r. apply quiet_if; [|quiet]. intros base. by apply keeps_modify. Qed.
Lemma mp_stop_monitor_quiet : quiet (stop_monitor post_stop).
Proof. unfold stop_monitor. change (@on_controller W) with (@on_world OnMonitor W). apply mp_quiet_bind; [quiet|]. intros self.
  destruct (monitor_token self); [|quiet]. apply mp_quiet_bind; [quiet|]. intros r. apply quiet_if; [|quiet]. intros base. by apply keeps_modify. Qed.
Lemma statistics_quiet : quiet get_monitor_statistics.
Proof. unfold get_monitor_statistics. quiet. Qed.
Hint Resolve mp_start_monitor_quiet mp_stop_monitor_quiet statistics_quiet : quiet.

Lemma configure_steady tags idf : steady (configure_flow_client (F:=F) tags idf).
Proof.
  destruct idf as [i f]. unfold configure_flow_client. apply steady_bind; [quiet|]. intros name.
  apply steady_bind; [quiet|]. intros ip. apply steady_bind; [|quiet].
  intros t R s Hs. by destruct (Dict.get _ _).
Qed.
Hint Resolve configure_steady : quiet.

Lemma install_owning mapper base : keeps (owning base) (on_adder (F:=F) (install_routes mapper)).
Proof.
  intros [st w] Hs. unfold on_adder. cbn [fst snd].
  pose proof (install_routes_keeps (F:=F) mapper routes (ml_server laws) base (mr_adder st, w) Hs) as Hk.
  by destruct (install_routes mapper (mr_adder st, w)) as [r [a w']].
Qed.

(** Removing the routes that are there, and removing them again. *)
Lemma remove_owning base s :
  owning base s → ∃ s', on_adder (F:=F) remove_routes s = (Ok tt, s') ∧ removed base s'.
Proof.
  destruct s as [st w]. unfold owning, owns_routes. cbn [fst snd]. intros Hown.
  destruct (remove_routes_all routes (ml_server laws) base _ (mr_adder st) w Hown) as (w' & Hrun & Hr).
  eexists. split.
  - unfold on_adder. cbn [fst snd]. unfold remove_routes. rewrite (bindS_run _ _ _ (mr_adder st) (mr_adder st, w)) by done.
    by rewrite Hrun.
  - split; [|done]. cbn [fst mr_adder]. destruct Hown as (_ & Hnew & _). exact Hnew.
Qed.

Lemma remove_removed base : keeps (removed base) (on_adder (F:=F) remove_routes).
Proof.
  intros [st w] [Hnew Hr]. cbn [fst snd] in *. unfold on_adder. cbn [fst snd].
  cut (let '(_, (a, w')) := remove_routes (mr_adder st, w) in a = mr_adder st ∧ routes w' = base).
  { destruct (remove_routes (mr_adder st, w)) as [r [a w']]. by intros [-> ?]. }
  unfold remove_routes. rewrite (bindS_run _ _ _ (mr_adder st) (mr_adder st, w)) by done.
  set (toks := installed_route_tokens (mr_adder st)) in *. clearbody toks.
  revert w Hr. induction toks as [|tok toks IH]; intros w Hr; [done|]. cbn [for_each].
  pose proof (ml_gone laws tok w) as Hg. rewrite Hr in Hg. specialize (Hg (Hnew tok ltac:(left))).
  unfold mbind, M_bind, remove_route. cbn [fst snd]. rewrite adder_remove_url_eq.
  destruct (route_post (remove_route_url tok) None w) as [[resp|e] w1]; cbn [snd] in Hg; [|done].
  apply IH; [|done]. intros t Ht. apply Hnew. by right.
Qed.

Context `{OnosApi} {GN GT : Type} `{NxGraph string GN} `{NxGraph Z GT}.
Variable graph_matcher : GN → GT → option (dict string Z).
Variable cwd : path.
Variable dumps_utilization : list (list IfaceStats) → string.
Variable dumps_processed : processed → string.
Variable dumps_vle : vle_dict F → string.
Abbreviation conduct := (conduct_onos_trial str_clients graph_matcher post_start post_stop cwd dumps_utilization dumps_processed dumps_vle).
Abbreviation guarded := (guarded_trial str_clients graph_matcher post_start post_stop cwd dumps_utilization dumps_processed dumps_vle).

(** The routes are removed when the trial returns; when it raises, they are
    still owned by the adder, or removed. *)
Lemma conduct_leads base mapper vt repo trial_type s :
  owning base s → let '(r, s') := conduct mapper vt repo trial_type s in
    removed base s' ∨ (∃ e, r = Raise e) ∧ owning base s'.
Proof.
  set (Q := λ (r : res unit) s, removed base s ∨ (∃ e, r = Raise e) ∧ owning base s).
  cut (owning base s → Q (conduct mapper vt repo trial_type s).1 (conduct mapper vt repo trial_type s).2);
    [by destruct (conduct mapper vt repo trial_type s)|].
  assert (∀ e s, owning base s → Q (Raise e) s) as HQ by (intros e s' Hs'; right; eauto).
  revert s. unfold conduct_onos_trial, read_mapper.
  repeat (apply leads_bind; [exact HQ|first [apply install_owning | solve [quiet]]|]; intros ?).
  intros s Hs. destruct (remove_owning base s Hs) as (s1 & Hrun & Hs1). rewrite (bindS_run _ _ _ _ _ Hrun). left.
  clear Hrun. revert s1 Hs1. apply keeps_bind; [|intros _]; quiet.
Qed.

Lemma guarded_removes base mapper vt repo trial_type s :
  owning base s → removed base (guarded mapper vt repo trial_type s).2.
Proof.
  intros Hs. unfold guarded_trial. pose proof (conduct_leads base mapper vt repo trial_type s Hs) as Hlead.
  destruct (conduct mapper vt repo trial_type s) as [[[]|e] s1].
  - destruct Hlead as [Hs1|[[? ?] _]]; done.
  - destruct Hlead as [Hs1|[_ Hs1]].
    + revert s1 Hs1. apply keeps_bind; [apply remove_removed|intros _; quiet].
    + destruct (remove_owning base s1 Hs1) as (s2 & Hrun & Hs2). by rewrite (bindS_run _ _ _ _ _ Hrun).
Qed.

Variable dumps_solver : solver_dict F → string.
Variable loads_trial : string → res (trial_dict F).
Variable run_solver : list string → M fsys unit.
Variable dumps_metadata : dict string string → string.
Variable loads_metadata : string → res (dict string string).
Context `{!PyFloatText F}.
Variables rates_mean rates_std : list F → F.

(** C8: The experiment leaves no routes behind. If the controller removes
    the routes it is asked to remove, and sessions, name server and monitor
    do not concern routes, then however [main] ends, after any number of
    trials and whatever raised, the controller has exactly the routes it had
    before. *)
Theorem mp_main_leaves_no_routes s :
  routes (mp_main str_clients graph_matcher post_start post_stop cwd dumps_utilization dumps_processed dumps_vle
    dumps_solver loads_trial run_solver dumps_metadata loads_metadata rates_mean rates_std s).2.2
  = routes s.2.
Proof.
  set (base := routes s.2). assert (routes s.2 = base) as Hs by done. clearbody base. revert s Hs.
  change (keeps (λ s : fsys * W, routes s.2 = base) (mp_main str_clients graph_matcher post_start post_stop cwd
    dumps_utilization dumps_processed dumps_vle dumps_solver loads_trial run_solver dumps_metadata loads_metadata
    rates_mean rates_std)).
  assert (∀ A (m : M fsys A), keeps (λ s : fsys * W, routes s.2 = base) (on_files m)) as Hfiles.
  { intros A m [fs w] Hw. unfold on_files. cbn [fst]. by destruct (m fs). }
  unfold mp_main. apply keeps_bind; [apply Hfiles|]. intros text. apply keeps_bind; [auto with testbed|]. intros mapper.
  apply keeps_bind; [apply Hfiles|]. intros rates. apply keeps_bind; [auto with testbed|]. intros [[txs means] devs].
  apply keeps_bind; [apply Hfiles|]. intros [[sums pcts] sds]. apply keeps_for_each. intros seed _. unfold main_round.
  apply keeps_bind; [apply Hfiles|]. intros vt. apply keeps_bind; [apply Hfiles|]. intros repo [fs w] Hw.
  unfold run_trial_object. cbn [fst snd]. cbn [snd] in Hw.
  pose proof (guarded_removes base mapper vt repo "percentile" (mkMpRun [] (init_route_adder (vle_solver_results vt)) init_monitor fs, w)) as Hg.
  destruct (guarded _ _ _ _ _) as [r [st w']]. apply Hg. unfold owning, owns_routes. cbn [fst snd]. rewrite Hw. apply adds_nil.
Qed.
End routes.

(** * The counters of the flows *)

(** [resolve_hostname] of ["host<n>"] asks for the name in the domain. *)
Lemma str_last_in s c : str_last s = Ok c → str_in c s = true.
Proof.
  induction s as [|a s IH]; [done|]. cbn [str_last str_in]. destruct s as [|b s]; [intros [= ->]; by rewrite Ascii.eqb_refl|].
  intros Hl. apply orb_true_iff. right. by apply IH.
Qed.

Lemma str_last_some a s : ∃ c, str_last (String a s) = Ok c.
Proof. revert a. induction s as [|b s IH]; intros a; [by eexists|]. apply IH. Qed.

Lemma qualify_host domain n :
  qualify_host_domain domain ("host" +:+ str_of_Z n) = Ok ("host" +:+ str_of_Z n +:+ "." +:+ domain)%string.
Proof.
  unfold qualify_host_domain.
  change ("host" +:+ str_of_Z n)%string with (String "h" ("ost" +:+ str_of_Z n)).
  destruct (str_last_some "h" ("ost" +:+ str_of_Z n)) as [c Hc]. rewrite Hc. cbn [mbind res_bind].
  rewrite bool_decide_false; [f_equal; exact (str_app_assoc "host" (str_of_Z n) _)|]. intros ->. apply str_last_in in Hc.
  change (String "h" ("ost" +:+ str_of_Z n)) with ("host" +:+ str_of_Z n)%string in Hc.
  rewrite str_in_app, str_in_str_of_Z in Hc by done. done.
Qed.

(** The name server knows the hosts of the data network. *)
Definition resolves {W} `{DnsApi W} (ip : Z → string) : Prop := ∀ n w, ∃ others w',
  dns_query_a ("host" +:+ str_of_Z n +:+ "." +:+ default_domain)%string w = (Ok (ip n :: others), w').

Section counters.
Context {W : Type} `{DnsApi W} {F : Type}.
Variable ip : Z → string.
Hypothesis dns : resolves ip.
Variable ehr : dict Z EndHostResults.
Implicit Types (f : MpFlow F) (flows : list (MpFlow F)).

Lemma get_ip_run n w : ∃ w', get_ip_address_for_host_number default_domain n w = (Ok (Some (ip n)), w').
Proof.
  destruct (dns n w) as (others & w' & Hq). exists w'. unfold get_ip_address_for_host_number, map_sw_to_host.
  rewrite int_of_str_of_Z. rewrite (bindS_run _ _ _ ("host" +:+ str_of_Z n)%string w) by done.
  unfold resolve_hostname. rewrite qualify_host.
  rewrite (bindS_run _ _ _ ("host" +:+ str_of_Z n +:+ "." +:+ default_domain)%string w) by done.
  rewrite (bindS_run _ _ _ (ip n :: others) w'); [done|]. unfold or_io_error. by rewrite Hq.
Qed.

(** ** What is attributed to the flows *)

(** A flow, and the report of the sender and the count of the receiver that
    were found for it. *)
Abbreviation pick := (MpFlow F * option (SenderReport * Z))%type.
Implicit Types (pk : pick) (picks : list pick).

Definition reports_at (n : Z) : list SenderReport := from_option (λ r, Dict.values (eh_sender r)) [] (Dict.get ehr n).
Definition received_at (n : Z) : list (string * Z * Z) := from_option eh_receiver [] (Dict.get ehr n).

(** The report is one of the source, for the destination, and the count is
    the one of the source's address and port at the destination. *)
Definition pick_ok pk : Prop :=
  match pk.2 with
  | None => True
  | Some (r, n) =>
      r ∈ reports_at (mp_source_node pk.1) ∧ rp_dst_ip r = ip (mp_destination_node pk.1) ∧
      (ip (mp_source_node pk.1), rp_src_port r, n) ∈ received_at (mp_destination_node pk.1)
  end.
Definition pick_port pk : option (Z * Z) := (λ rn, (mp_source_node pk.1, rp_src_port rn.1)) <$> pk.2.
Definition pick_counts pk : flow_counts := (λ rn, (rn.2, rp_pkt_count rn.1)) <$> pk.2.

(** The entries of the flows between two nodes, in the order of the flows. *)
Definition counts_between (s t : Z) picks : list flow_counts :=
  pick_counts <$> filter (λ pk, ends pk.1 = (s, t)) picks.
Definition entries (p : processed) (s t : Z) : list flow_counts := Dict.get_default [] (Dict.get_default [] p s) t.

(** The reports are enough: the ports of a host are distinct, addresses
    identify hosts, every report has been received, and there are as many
    reports as flows between two nodes. *)
Record enough_reports flows : Prop := {
  er_ports : ∀ n, NoDup (rp_src_port <$> reports_at n);
  er_ip : ∀ f f', f ∈ flows → f' ∈ flows → ip (mp_destination_node f) = ip (mp_destination_node f') →
    mp_destination_node f = mp_destination_node f';
  er_received : ∀ f r, f ∈ flows → r ∈ reports_at (mp_source_node f) → rp_dst_ip r = ip (mp_destination_node f) →
    ∃ n, (ip (mp_source_node f), rp_src_port r, n) ∈ received_at (mp_destination_node f);
  er_count : ∀ f, f ∈ flows → length (filter (λ f', ends f' = ends f) flows) ≤
    length (filter (λ r, rp_dst_ip r = ip (mp_destination_node f)) (reports_at (mp_source_node f)))
}.

(** ** The loop *)

Record attributed flows picks (used : dict Z (list Z)) (p : processed) : Prop := {
  at_flows : picks.*1 = flows;
  at_ok : Forall pick_ok picks;
  at_once : NoDup (omap pick_port picks);
  at_used : ∀ s q, q ∈ Dict.get_default [] used s ↔ (s, q) ∈ omap pick_port picks;
  at_entries : ∀ s t, entries p s t = counts_between s t picks
}.

Lemma append_entries p s t x s' t' :
  entries (append_result p s t x) s' t' = entries p s' t' ++ (if decide ((s, t) = (s', t')) then [x] else []).
Proof.
  unfold entries, append_result. rewrite !Dict.get_default_set. destruct (decide (s = s')) as [<-|Hs].
  - rewrite Dict.get_default_set. destruct (decide (t = t')) as [<-|Ht]; [by rewrite decide_True|].
    rewrite decide_False by congruence. by rewrite app_nil_r.
  - rewrite decide_False by congruence. by rewrite app_nil_r.
Qed.

Lemma counts_between_snoc s t picks pk :
  counts_between s t (picks ++ [pk]) = counts_between s t picks ++ (if decide (ends pk.1 = (s, t)) then [pick_counts pk] else []).
Proof. unfold counts_between. rewrite filter_app, fmap_app, filter_cons, filter_nil. by case_decide. Qed.

Lemma attributed_none flows picks used p f :
  attributed flows picks used p →
  attributed (flows ++ [f]) (picks ++ [(f, None)]) used (append_result p (mp_source_node f) (mp_destination_node f) None).
Proof.
  intros [Hf Hok Honce Hused Hent]. split.
  - by rewrite fmap_app, Hf.
  - apply Forall_app. split; [done|]. by repeat constructor.
  - by rewrite omap_app, app_nil_r.
  - intros s q. by rewrite omap_app, app_nil_r.
  - intros s t. by rewrite append_entries, counts_between_snoc, Hent.
Qed.

Lemma attributed_some flows picks used p f r n :
  attributed flows picks used p → pick_ok (f, Some (r, n)) →
  rp_src_port r ∉ Dict.get_default [] used (mp_source_node f) →
  attributed (flows ++ [f]) (picks ++ [(f, Some (r, n))])
    (Dict.set used (mp_source_node f) (set_add (rp_src_port r) (Dict.get_default [] used (mp_source_node f))))
    (append_result p (mp_source_node f) (mp_destination_node f) (Some (n, rp_pkt_count r))).
Proof.
  intros [Hf Hok Honce Hused Hent] Hpick Hnew. split.
  - by rewrite fmap_app, Hf.
  - apply Forall_app. split; [done|]. by constructor.
  - rewrite omap_app. apply NoDup_app. split_and!; [done| |apply NoDup_singleton].
    intros x Hx ->%list_elem_of_singleton. by apply Hnew, Hused.
  - intros s q. rewrite omap_app, Dict.get_default_set, elem_of_app, <-Hused. cbn. rewrite list_elem_of_singleton.
    case_decide as Hs; [subst s; rewrite elem_of_set_add|]; naive_solver.
  - intros s t. by rewrite append_entries, counts_between_snoc, Hent.
Qed.

(** The used ports of a source between the same nodes are at most as many
    as the flows before. *)
Definition ports_between f picks : list Z :=
  omap (λ pk, if decide (ends pk.1 = ends f) then snd <$> pick_port pk else None) picks.
Lemma ports_between_length f picks :
  length (ports_between f picks) ≤ length (filter (λ f', ends f' = ends f) picks.*1).
Proof.
  unfold ports_between. induction picks as [|[f' c] picks IH]; [done|]. rewrite fmap_cons, filter_cons. cbn [omap list_omap fst].
  case_decide; [|done]. destruct (snd <$> pick_port (f', c)); cbn [length]; lia.
Qed.

Lemma sender_found l1 f l2 picks used p :
  enough_reports (l1 ++ f :: l2) → attributed l1 picks used p →
  ∀ src, Dict.get ehr (mp_source_node f) = Some src →
  is_Some (sender_results (eh_sender src) (Some (ip (mp_destination_node f))) (Dict.get_default [] used (mp_source_node f))).
Proof.
  intros [Hports Hip Hrec Hcount] [Hf Hok Honce Hused Hent] src Hsrc. apply not_eq_None_Some. intros Hnone.
  assert (reports_at (mp_source_node f) = Dict.values (eh_sender src)) as Hrep by (unfold reports_at; by rewrite Hsrc).
  set (R := filter (λ r, rp_dst_ip r = ip (mp_destination_node f)) (reports_at (mp_source_node f))).
  assert (rp_src_port <$> R ⊆+ ports_between f picks) as Hsub%submseteq_length.
  { apply NoDup_submseteq; [apply NoDup_fmap_filter, Hports|]. intros q (r & -> & [Hr Hin]%list_elem_of_filter)%list_elem_of_fmap.
    assert (rp_src_port r ∈ Dict.get_default [] used (mp_source_node f)) as Hq.
    { destruct (decide (rp_src_port r ∈ Dict.get_default [] used (mp_source_node f))) as [Hd|Hd]; [done|].
      rewrite Hrep in Hin. destruct (head_filter_None _ _ r Hnone Hin). by rewrite Hr. }
    apply Hused in Hq. apply list_elem_of_omap in Hq as ([f' c] & Hpk & Hport).
    destruct c as [[r' n]|]; [|done]. injection Hport as Hs Hp. rewrite Forall_forall in Hok.
    destruct (Hok _ Hpk) as (Hr' & Hdst & _). cbn [fst snd] in *. rewrite Hs in Hr'.
    assert (r' = r) as -> by (by eapply NoDup_fmap_inj_on). apply list_elem_of_omap. exists (f', Some (r, n)).
    split; [done|]. cbn [fst]. rewrite decide_True; [done|]. unfold ends. f_equal; [done|].
    apply Hip; [|apply elem_of_app; right; left|congruence]. apply elem_of_app. left. rewrite <-Hf.
    by apply (list_elem_of_fmap_2 fst) in Hpk. }
  rewrite length_fmap in Hsub. pose proof (ports_between_length f picks) as Hle. rewrite Hf in Hle.
  specialize (Hcount f ltac:(apply elem_of_app; right; left)). fold R in Hcount.
  rewrite filter_app, length_app, filter_cons, decide_True in Hcount by done. cbn [length] in Hcount. lia.
Qed.

Lemma receiver_found flows f r dst :
  enough_reports flows → f ∈ flows → r ∈ reports_at (mp_source_node f) → rp_dst_ip r = ip (mp_destination_node f) →
  Dict.get ehr (mp_destination_node f) = Some dst →
  is_Some (receiver_results (eh_receiver dst) (Some (ip (mp_source_node f))) (rp_src_port r)).
Proof.
  intros Hen Hf Hr Hd Hdst. destruct (er_received _ Hen f r Hf Hr Hd) as [n Hn]. unfold received_at in Hn. rewrite Hdst in Hn.
  apply not_eq_None_Some. intros Hnone. by destruct (head_filter_None _ _ _ Hnone Hn).
Qed.

(** One iteration. *)
Lemma process_flow_spec l1 f l2 picks used p w :
  attributed l1 picks used p →
  is_Some (Dict.get ehr (mp_source_node f)) → is_Some (Dict.get ehr (mp_destination_node f)) →
  ∃ used' p' w' c, process_flow ehr (used, p) f w = (Ok (used', p'), w') ∧
    attributed (l1 ++ [f]) (picks ++ [(f, c)]) used' p' ∧ (enough_reports (l1 ++ f :: l2) → is_Some c).
Proof.
  intros Hat [src Hsrc] [dst Hdst]. unfold process_flow.
  destruct (get_ip_run (mp_destination_node f) w) as [w1 Hw1]. rewrite (bindS_run _ _ _ _ _ Hw1).
  destruct (get_ip_run (mp_source_node f) w1) as [w2 Hw2]. rewrite (bindS_run _ _ _ _ _ Hw2).
  rewrite (bindS_run _ _ _ src w2) by (unfold lift, Dict.getitem; by rewrite Hsrc).
  pose proof (λ He, sender_found l1 f l2 picks used p He Hat src Hsrc) as Hsf.
  destruct (sender_results _ _ _) as [r|] eqn:Hs.
  - apply head_filter_Some in Hs as (Hr & [= Hip] & Hnew).
    assert (r ∈ reports_at (mp_source_node f)) as Hrep by (unfold reports_at; by rewrite Hsrc).
    rewrite (bindS_run _ _ _ dst w2) by (unfold lift, Dict.getitem; by rewrite Hdst).
    assert (f ∈ l1 ++ f :: l2) as Hf by (apply elem_of_app; right; left).
    pose proof (λ He, receiver_found (l1 ++ f :: l2) f r dst He Hf Hrep Hip Hdst) as Hrf.
    destruct (receiver_results _ _ _) as [[[a q] n]|] eqn:Hrec.
    + apply head_filter_Some in Hrec as (Hin & [= Ha] & Hq). cbn in Ha, Hq. subst a q.
      eexists _, _, w2, (Some (r, n)). split; [reflexivity|]. split; [|by eexists]. apply attributed_some; [done| |done].
      split_and!; [done|done|]. unfold received_at. cbn [fst]. by rewrite Hdst.
    + eexists _, _, w2, None. split; [reflexivity|]. split; [by apply attributed_none|]. intros He. by destruct (Hrf He).
  - eexists _, _, w2, None. split; [reflexivity|]. split; [by apply attributed_none|]. intros He. by destruct (Hsf He).
Qed.

(** C10: The packet counts are attributed correctly. If the name server knows
    the hosts and every end point of a flow has delivered its results,
    [process_end_host_results] returns. Each flow has exactly one entry under
    its end points, in the order of the flows; an entry that is not [None]
    has the count of a report of the source for the destination, and the
    count that the destination has for the address of the source and the
    port of this report; no report is counted for two flows. If moreover the
    reports are enough (every one was received, and there are as many as
    flows between two nodes), no entry is [None]. *)
Theorem flow_counts_attributed flows w :
  (∀ f, f ∈ flows → is_Some (Dict.get ehr (mp_source_node f)) ∧ is_Some (Dict.get ehr (mp_destination_node f))) →
  ∃ p w' picks, process_end_host_results flows ehr w = (Ok p, w') ∧
    picks.*1 = flows ∧ Forall pick_ok picks ∧ NoDup (omap pick_port picks) ∧
    (∀ s t, entries p s t = counts_between s t picks) ∧
    (enough_reports flows → Forall (λ pk, is_Some pk.2) picks).
Proof.
  intros Hends.
  destruct (foldS_prefix (λ l1 '(used, p), ∃ picks, attributed l1 picks used p ∧
      (enough_reports flows → Forall (λ pk, is_Some pk.2) picks)) (process_flow ehr) flows) with (b := ([] : dict Z (list Z), [] : processed)) (s := w)
    as ([used p] & w' & Hrun & picks & [Hf Hok Honce _ Hent] & Hall).
  - intros l1 f l2 [used p] w1 Hsplit (picks & Hat & Hall). destruct (Hends f) as [Hs Ht]; [rewrite Hsplit; set_solver|].
    destruct (process_flow_spec l1 f l2 picks used p w1 Hat Hs Ht) as (used' & p' & w2 & c & Hrun & Hat' & Hc).
    exists (used', p'), w2. split; [done|]. exists (picks ++ [(f, c)]). split; [done|]. intros He. apply Forall_app.
    split; [by apply Hall|]. constructor; [|constructor]. apply Hc. by rewrite <-Hsplit.
  - exists []. split; [|by constructor]. split; [done|constructor|constructor| |done].
    intros s q. cbn. split; intros Hin; by apply elem_of_nil in Hin.
  - exists p, w', picks. split_and!; [|done..]. unfold process_end_host_results. by rewrite (bindS_run _ _ _ _ _ Hrun).
Qed.
End counters.

(** * Stored trials *)

(** A trial is read back as it was written, and only valid ones are. *)
Lemma vle_trial_roundtrip {F} `{PyFloat F} (dumps : vle_dict F → string) (loads : string → res (vle_dict F)) vt :
  (∀ d, loads (dumps d) = Ok d) →
  (valid_trial (vle_solver_results vt) → vle_from_json loads (vle_to_json dumps vt) = Ok vt) ∧
  (∀ text vt', vle_from_json loads text = Ok vt' → valid_trial (vle_solver_results vt')).
Proof.
  intros Hcodec. split.
  - intros Hv. unfold vle_from_json, vle_to_json. rewrite Hcodec. cbn [mbind res_bind]. unfold vle_from_dict, vle_to_dict.
    cbn [vd_solver_results]. rewrite trial_dict_roundtrip by done. by destruct vt.
  - intros text vt' (d & _ & (t & Ht & [= <-])%bind_Ok)%bind_Ok. by eapply trial_from_dict_valid.
Qed.

(** * Runs *)

(** A name server that answers with the name, hosts whose processes report
    one flow each, and the controller with room for three routes. *)
#[local] Instance demo_dns : DnsApi (gset string) := {|
  dns_query_a q := mret [q]; dns_query_ptr q := mret []; reverse_name q := Ok q
|}.
Definition demo_ip (n : Z) : string := ("host" +:+ str_of_Z n +:+ "." +:+ default_domain)%string.
#[local] Instance demo_ssh : SshEnv (gset string) := {|
  ssh_client := mret 0;
  ssh_connect _ _ _ _ _ := mret tt;
  ssh_exec _ _ := mret (EmptyString, EmptyString);
  ssh_close _ := mret tt;
  scp_run _ := mret 0%Z;
  receiver_pickle _ := mret (Some [((demo_ip 1, 4000%Z), 7%Z)]);
  sender_pickle _ := mret (Some [(0, mkSenderReport 9 4000 1 (demo_ip 2) 0)])
|}.
Definition demo_post_start : M (gset string) (Z * string) := mret (200%Z, "monitor"%string).
Definition demo_post_stop (_ : string) : M (gset string) (Z * list (list IfaceStats)) := mret (200%Z, [[]; []]).

Definition demo_routes (w : gset string) : gset string := w.
Lemma demo_mp_laws : mp_laws demo_post_start demo_post_stop demo_routes.
Proof.
  split; try done.
  - apply demo_route_server.
  - intros tok w Hn. unfold route_post, demo_route_api, demo_route_post. cbn [snd]. unfold demo_routes in *. apply set_eq. intros x.
    rewrite elem_of_filter. split; [by intros [_ ?]|]. intros Hx. split; [|done]. intros ->%remove_route_url_inj. done.
Qed.

#[local] Instance demo_mp_onos : OnosApi := {| onos_links := Ok (200%Z, []); onos_hosts := Ok (200%Z, []) |}.
Definition demo_mp_matcher (_ : list_graph string) (_ : list_graph Z) : option (dict string Z) :=
  Some [("of:1", 1%Z); ("of:2", 2%Z); ("of:3", 3%Z)]%string.
Definition demo_solver_trial : trial_dict SpecFloat.spec_float :=
  trial_to_dict (mkMpTrial [mkMpFlow 1 2 [mkPath [1; 2]%Z (flit 1 2); mkPath [1; 3; 2]%Z (flit 1 2)] fone fzero [fone]] 1 fone).
(** One trace of twenty seconds. *)
Definition demo_summary : string := String (ch 91) (foldr (λ _ s, "1250000, " +:+ s)%string (String (ch 93) EmptyString) (seq 0 20)).
Definition demo_mp_files : fsys :=
  mkFsys (list_to_set (VLE_SOLVER_PATH :: parents VLE_SOLVER_PATH))
    (list_to_map (([("abilene.txt"%string)], Text ("3" +:+ String (ch 10) "2")%string) ::
      (SUMMARY_FILE_PATH ++ ["nyc19_sec"%string], Text demo_summary) ::
      ((λ seed, (joinpath VLE_SOLVER_PATH ("trial-" +:+ str_of_Z seed +:+ ".json")%string, Text "{}")) <$> seed_numbers))).
Definition demo_mp_main : M (fsys * gset string) unit :=
  mp_main (λ _, EmptyString) demo_mp_matcher demo_post_start demo_post_stop [] (λ _, EmptyString) (λ _, EmptyString)
    (λ _, EmptyString) (λ _, EmptyString) (λ _, Ok demo_solver_trial) (λ _, mret tt) (λ _, EmptyString) (λ _, Ok
      [("repository_name", mp_repository_name); ("schema", mp_repository_schema)]%string)
    fsum fsum.

Lemma demo_mp_main_returns : (demo_mp_main (demo_mp_files, {["old"%string]})).1 = Ok tt.
Proof. by vm_compute. Qed.

Lemma mp_main_leaves_no_routes_witness :
  let s := (demo_mp_files, {["old"%string]}) in
  (demo_mp_main s).1 = Ok tt ∧ demo_routes (demo_mp_main s).2.2 = demo_routes s.2.
Proof.
  split; [exact demo_mp_main_returns|]. unfold demo_mp_main.
  exact (mp_main_leaves_no_routes _ _ _ demo_routes demo_mp_laws _ _ _ _ _ _ _ _ _ _ _ _ _).
Defined.

(** Two flows from host 1 to host 2, two reports of host 1. *)
Definition demo_flow12 : MpFlow unit := mkMpFlow 1 2 [] tt tt [].
Definition demo_ehr (received : list (string * Z * Z)) : dict Z EndHostResults :=
  [(1%Z, mkEndHostResults [] [(0, mkSenderReport 9 4000 1 (demo_ip 2) 0); (1, mkSenderReport 8 4001 1 (demo_ip 2) 1)]);
   (2%Z, mkEndHostResults received [])].
Definition demo_received : list (string * Z * Z) := [(demo_ip 1, 4001, 5); (demo_ip 1, 4000, 9)]%Z.

Lemma demo_resolves : resolves demo_ip.
Proof. intros n w. by exists [], w. Qed.

Lemma demo_flows_elem f : f ∈ [demo_flow12; demo_flow12] → f = demo_flow12.
Proof. set_solver. Qed.

Lemma demo_enough : enough_reports demo_ip (demo_ehr demo_received) [demo_flow12; demo_flow12].
Proof.
  split.
  - intros n. unfold reports_at, demo_ehr. cbn [Dict.get]. repeat case_decide; subst; apply (bool_decide_unpack _); by vm_compute.
  - intros f f' ->%demo_flows_elem ->%demo_flows_elem _. done.
  - intros f r ->%demo_flows_elem Hr _.
    apply elem_of_cons in Hr as [->|Hr]; [|apply list_elem_of_singleton in Hr as ->]; [exists 9%Z|exists 5%Z]; apply (bool_decide_unpack _); by vm_compute.
  - intros f ->%demo_flows_elem.
    apply Nat.leb_le. by vm_compute.
Qed.

Lemma flow_counts_attributed_witness :
  ∃ p w' picks, process_end_host_results [demo_flow12; demo_flow12] (demo_ehr demo_received) ∅ = (Ok p, w') ∧
    entries p 1 2 = counts_between (F:=unit) 1 2 picks ∧ Forall (λ pk, is_Some pk.2) picks.
Proof.
  destruct (flow_counts_attributed demo_ip demo_resolves (demo_ehr demo_received) [demo_flow12; demo_flow12] ∅)
    as (p & w' & picks & Hrun & _ & _ & _ & Hent & Hall).
  - intros f ->%demo_flows_elem.
    split; eexists; reflexivity.
  - exists p, w', picks. split_and!; [exact Hrun|apply Hent|exact (Hall demo_enough)].
Defined.

(** A report that was not received is not marked as used: every later flow
    between the same hosts finds it again, and its entry is [None] although
    its own report was received. *)
Lemma lost_report_blocks_others :
  (process_end_host_results [demo_flow12; demo_flow12] (demo_ehr [(demo_ip 1, 4001, 5)]%Z) ∅).1
  = Ok [(1%Z, [(2%Z, [None; None])])].
Proof. by vm_compute. Qed.
