(* ===== verification/FlowSimulations.v ===== *)
(** The simulations of flow sets: simulations.py, simulations/simulation.py
    and simulations/simulation_trial.py. The solver is an external program
    that reads its parameters from a file and leaves its results in another;
    [json.dumps] and [json.loads] of dictionaries with scalar values are
    parameters. *)

From Stdlib Require Import Ascii.
From S2P Require Import Prelude PyDict PyStr PyText TrialStore.

Local Open Scope string_scope.

(** The values in the dictionaries. *)
Inductive scalar (F : Type) : Type := SInt (z : Z) | SFloat (x : F) | SBool (b : bool) | SText (s : string).
Arguments SInt {F} _.
Arguments SFloat {F} _.
Arguments SBool {F} _.
Arguments SText {F} _.

Section simulations.
Context {F : Type}.
Abbreviation sim_dict := (dict string (scalar F)).

(** * Simulation *)

Record Simulation : Type := mkSimulation {
  sm_number_of_nodes : scalar F;
  sm_number_of_links : scalar F;
  sm_solution_time : scalar F;
  sm_feasible : scalar F
}.

Definition simulation_to_dict (simulation_object : Simulation) : sim_dict :=
  [("number-of-nodes", sm_number_of_nodes simulation_object);
   ("number-of-links", sm_number_of_links simulation_object);
   ("solution-time", sm_solution_time simulation_object);
   ("feasible", sm_feasible simulation_object)].

Definition simulation_from_dict (d : sim_dict) : res Simulation :=
  number_of_nodes ← Dict.getitem d "number-of-nodes";
  number_of_links ← Dict.getitem d "number-of-links";
  solution_time ← Dict.getitem d "solution-time";
  feasible ← Dict.getitem d "feasible";
  Ok (mkSimulation number_of_nodes number_of_links solution_time feasible).

Variable json_dumps : sim_dict → string.
Variable json_loads : string → res sim_dict.

Definition simulation_to_json (sim_object : Simulation) : string := json_dumps (simulation_to_dict sim_object).
Definition simulation_from_json (sim_json : string) : res Simulation :=
  dict_repr ← json_loads sim_json; simulation_from_dict dict_repr.

(** * SimulationTrial *)

Record SimulationTrial : Type := mkSimulationTrial {
  st_number_of_nodes : scalar F;
  st_number_of_flows : scalar F;
  st_links_per_node : scalar F;
  st_number_of_links : scalar F;
  st_seed_number : scalar F;
  st_solution_time : scalar F;
  st_feasible : scalar F
}.

Definition SIM_SOLVER_PATH : path := segments "/home/cpsc-net-user/repos/virtual-link-embedding/".

Definition sim_trial_to_dict (sim_object : SimulationTrial) : sim_dict :=
  [("number-of-nodes", st_number_of_nodes sim_object);
   ("number-of-flows", st_number_of_flows sim_object);
   ("links-per-node", st_links_per_node sim_object);
   ("seed-number", st_seed_number sim_object);
   ("solution-time", st_solution_time sim_object);
   ("number-of-links", st_number_of_links sim_object);
   ("feasible", st_feasible sim_object)].

Definition sim_trial_from_dict (d : sim_dict) : res SimulationTrial :=
  number_of_nodes ← Dict.getitem d "number-of-nodes";
  number_of_flows ← Dict.getitem d "number-of-flows";
  links_per_node ← Dict.getitem d "links-per-node";
  number_of_links ← Dict.getitem d "number-of-links";
  seed_number ← Dict.getitem d "seed-number";
  solution_time ← Dict.getitem d "solution-time";
  feasible ← Dict.getitem d "feasible";
  Ok (mkSimulationTrial number_of_nodes number_of_flows links_per_node number_of_links seed_number solution_time feasible).

Definition sim_trial_to_json (sim_object : SimulationTrial) : string := json_dumps (sim_trial_to_dict sim_object).
Definition sim_trial_from_json (sim_json : string) : res SimulationTrial :=
  d ← json_loads sim_json; sim_trial_from_dict d.

(** [subprocess.run] of the solver; its return code is not looked at. *)
Variable run_solver : list string → M fsys unit.

Definition solver_input (number_of_nodes number_of_flows links_per_node seed_number : Z) : sim_dict :=
  [("mode", SText "simulation"); ("number-of-nodes", SInt number_of_nodes); ("number-of-flows", SInt number_of_flows);
   ("links-per-node", SInt links_per_node); ("seed-number", SInt seed_number)].

Definition sim_create_solver_cmd (number_of_nodes number_of_flows links_per_node seed_number : Z) : M fsys (list string) :=
  write_text (joinpath SIM_SOLVER_PATH "flow-params.txt")
    (json_dumps (solver_input number_of_nodes number_of_flows links_per_node seed_number)) ≫= λ _,
  mret ["/home/cpsc-net-user/repos/virtual-link-embedding/invoke_solver.sh"].

Definition sim_results_path (seed_number : Z) : path :=
  joinpath SIM_SOLVER_PATH ("simulation-" +:+ str_of_Z seed_number +:+ ".json").

Definition sim_invoke_solver (number_of_nodes number_of_flows links_per_node seed_number : Z) : M fsys Simulation :=
  cmd ← sim_create_solver_cmd number_of_nodes number_of_flows links_per_node seed_number;
  run_solver cmd ≫= λ _,
  text ← read_text (sim_results_path seed_number);
  lift (simulation_from_json text).

Definition sim_create_trial (number_of_nodes number_of_flows links_per_node seed_number : Z) : M fsys SimulationTrial :=
  solver_results ← sim_invoke_solver number_of_nodes number_of_flows links_per_node seed_number;
  mret (mkSimulationTrial (SInt number_of_nodes) (SInt number_of_flows) (SInt links_per_node)
    (sm_number_of_links solver_results) (SInt seed_number) (sm_solution_time solver_results) (sm_feasible solver_results)).

(** * simulations.py *)

Definition sim_schema_vars (seed_number number_of_flows number_of_nodes : Z) : dict string string :=
  [("flow-count", str_of_Z number_of_flows); ("node-count", str_of_Z number_of_nodes);
   ("seed-number", str_of_Z seed_number)].

Definition conduct_simulation (repository : ResultsRepository) (seed_number number_of_flows number_of_nodes : Z) : M fsys unit :=
  trial ← sim_create_trial number_of_nodes number_of_flows 3 seed_number;
  write_trial_results repository (sim_schema_vars seed_number number_of_flows number_of_nodes)
    [("sim-results.json", sim_trial_to_json trial)] false.

Definition conduct_simulations (repository : ResultsRepository) (seed_number number_of_flows : Z) (node_counts : list Z)
    : M fsys unit :=
  for_each node_counts (conduct_simulation repository seed_number number_of_flows).

(** simulations/params.py *)
Definition sim_base_repository_path : path := segments "/home/cpsc-net-user/repos/simulation-results-4/".
Definition sim_repository_name : string := "simulation-results".
Definition sim_repository_schema : string := "/seed-number/flow-count/node-count/".

Definition sim_node_counts : list Z := [100; 200; 300; 400; 500; 600; 700; 800; 900; 1000]%Z.
Definition large_node_counts : list Z := [2500; 5000]%Z.
Definition flow_counts : list Z := [100; 500; 1000]%Z.

Variable dumps_metadata : dict string string → string.
Variable loads_metadata : string → res (dict string string).

(** [main], on the ten seeds that were drawn. *)
Definition simulations_main (seed_numbers : list Z) : M fsys unit :=
  repository ← create_repository dumps_metadata loads_metadata sim_base_repository_path sim_repository_schema sim_repository_name;
  for_each seed_numbers (λ seed_number, for_each flow_counts (λ flow_count,
    conduct_simulations repository seed_number flow_count sim_node_counts)) ≫= λ _,
  for_each seed_numbers (λ seed_number, for_each flow_counts (λ flow_count,
    conduct_simulations repository seed_number flow_count large_node_counts)).
End simulations.

(** * Theorems

    The simulations of flow sets store, for every number of nodes, a trial
    with the parameters that were asked for and the results of the solver. *)

From S2P Require Import TrialStoreProps Codec.
Close Scope string_scope.

(** A decimal numeral is the name of a file. *)
Lemma simple_str_of_Z z : simple_name (str_of_Z z).
Proof.
  pose proof (int_of_str_of_Z z) as Hz. split_and!.
  - by apply str_in_str_of_Z.
  - intros Heq. by rewrite Heq in Hz.
  - intros Heq. by rewrite Heq in Hz.
Qed.

Section simulations.
Context {F : Type}.
Variable json_dumps : dict string (scalar F) → string.
Variable json_loads : string → res (dict string (scalar F)).
Variable run_solver : list string → M fsys unit.
Variable outcome : Z → Z → Z → Z → Simulation (F:=F).

(** The codec, and the solver: it finds its parameters in the file, writes
    the results for the seed, and touches nothing outside of its directory. *)
Record simulation_laws : Prop := {
  sl_codec : ∀ d, json_loads (json_dumps d) = Ok d;
  sl_solver : ∀ cmd fs n f l seed, fs_wf fs → SIM_SOLVER_PATH ∈ dirs fs →
    files fs !! (SIM_SOLVER_PATH ++ ["flow-params.txt"%string]) = Some (Text (json_dumps (solver_input n f l seed))) →
    (sim_results_path seed ∉ dirs fs) →
    ∃ fs', run_solver cmd fs = (Ok tt, fs') ∧ fs_wf fs' ∧ dirs fs' = dirs fs ∧
      (∀ q, (∀ x, q ≠ SIM_SOLVER_PATH ++ [x]) → files fs' !! q = files fs !! q) ∧
      files fs' !! sim_results_path seed = Some (Text (json_dumps (simulation_to_dict (outcome n f l seed))))
}.
Hypothesis laws : simulation_laws.
Variables (repository : ResultsRepository) (seed flows : Z).
Hypothesis Hbase : base_path repository = sim_base_repository_path.
Hypothesis Hschema : schema repository = sim_repository_schema.

(** Where the results for [n] nodes go, and what they are. *)
Definition out (n : Z) : path := sim_base_repository_path ++ [str_of_Z seed; str_of_Z flows; str_of_Z n].
Definition out_file (n : Z) : path := out n ++ ["sim-results.json"%string].
Definition expected (n : Z) : SimulationTrial (F:=F) :=
  let o := outcome n flows 3 seed in
  mkSimulationTrial (SInt n) (SInt flows) (SInt 3) (sm_number_of_links o) (SInt seed) (sm_solution_time o) (sm_feasible o).
Definition expected_text (n : Z) : string := json_dumps (sim_trial_to_dict (expected n)).

Lemma simulation_roundtrip (x : Simulation (F:=F)) : simulation_from_dict (simulation_to_dict x) = Ok x.
Proof. by destruct x. Qed.
Lemma sim_trial_roundtrip (x : SimulationTrial (F:=F)) : sim_trial_from_dict (sim_trial_to_dict x) = Ok x.
Proof. by destruct x. Qed.

Lemma build_out n : build_output_path repository (sim_schema_vars seed flows n) = Ok (out n).
Proof.
  unfold build_output_path. rewrite Hschema, Hbase.
  change (filter (λ label, label ≠ EmptyString) (str_split slash sim_repository_schema))
    with ["seed-number"; "flow-count"; "node-count"]%string.
  replace (mapR _ _) with (Ok [str_of_Z seed; str_of_Z flows; str_of_Z n]) by reflexivity.
  cbn [mbind res_bind foldl]. unfold out. f_equal.
  rewrite !joinpath_simple by apply simple_str_of_Z. by rewrite <-!(assoc_L (++)).
Qed.

(** ** Paths *)

Lemma base_segments : sim_base_repository_path = ["home"; "cpsc-net-user"; "repos"; "simulation-results-4"]%string.
Proof. by vm_compute. Qed.
Lemma solver_segments : SIM_SOLVER_PATH = ["home"; "cpsc-net-user"; "repos"; "virtual-link-embedding"]%string.
Proof. by vm_compute. Qed.

Lemma out_inj n n' : out n = out n' → n = n'.
Proof. unfold out. intros [= Heq]%app_inv_head. by apply str_of_Z_inj. Qed.

Lemma length_out n : length (out n) = 7.
Proof. unfold out. by rewrite base_segments. Qed.

Lemma length_out_file n : length (out_file n) = 8.
Proof. unfold out_file. by rewrite length_app, length_out. Qed.

Lemma out_file_other n x : out_file n ≠ SIM_SOLVER_PATH ++ [x].
Proof.
  intros Heq%(f_equal length). by rewrite length_out_file, solver_segments in Heq.
Qed.

Lemma up_to_out n q : q ∈ out n :: parents (out n) → ∃ k, k ≤ 7 ∧ q = take k (out n).
Proof.
  rewrite elem_of_cons, elem_of_parents, length_out. intros [->|(k & Hk & ->)].
  - exists 7. split; [done|]. by rewrite take_ge by (by rewrite length_out).
  - exists k. split; [lia|done].
Qed.

Lemma out_prefix_other n k x : take k (out n) ≠ SIM_SOLVER_PATH ++ [x].
Proof.
  unfold out. rewrite base_segments, solver_segments.
  do 4 (destruct k as [|k]; [done|]). cbn [app take]. intros [= Heq].
Qed.

Lemma up_to_out_other n q x : q ∈ out n :: parents (out n) → q ≠ SIM_SOLVER_PATH ++ [x].
Proof. intros (k & _ & ->)%up_to_out. apply out_prefix_other. Qed.

Lemma sim_results_path_eq : sim_results_path seed = SIM_SOLVER_PATH ++ [("simulation-" +:+ str_of_Z seed +:+ ".json")%string].
Proof.
  unfold sim_results_path. apply joinpath_simple. split_and!; [|done..].
  by rewrite !str_in_app, str_in_str_of_Z.
Qed.

#[local] Opaque sim_base_repository_path SIM_SOLVER_PATH out.

(** ** One simulation *)

(** The directories of the solver are there, the results for the node
    counts of [rest] have room, those of [done] are stored. *)
Record progress (done rest : list Z) (fs : fsys) : Prop := {
  pr_wf : fs_wf fs;
  pr_solver : SIM_SOLVER_PATH ∈ dirs fs;
  pr_params : SIM_SOLVER_PATH ++ ["flow-params.txt"%string] ∉ dirs fs;
  pr_results : sim_results_path seed ∉ dirs fs;
  pr_rest : ∀ n, n ∈ rest → free_path fs (out n);
  pr_done : ∀ n, n ∈ done → files fs !! out_file n = Some (Text (expected_text n)) ∧ (out_file n ∉ dirs fs)
}.

Lemma solver_run n fs :
  fs_wf fs → SIM_SOLVER_PATH ∈ dirs fs → (SIM_SOLVER_PATH ++ ["flow-params.txt"%string] ∉ dirs fs) →
  (sim_results_path seed ∉ dirs fs) →
  ∃ fs', sim_create_trial json_dumps json_loads run_solver n flows 3 seed fs = (Ok (expected n), fs') ∧
    fs_wf fs' ∧ dirs fs' = dirs fs ∧ ∀ q, (∀ x, q ≠ SIM_SOLVER_PATH ++ [x]) → files fs' !! q = files fs !! q.
Proof.
  intros Hwf Hdir Hparams Hres.
  destruct (write_text_simple fs SIM_SOLVER_PATH "flow-params.txt"
    (json_dumps (solver_input n flows 3 seed)) Hwf Hdir Hparams) as [Hw Hwf1].
  { split_and!; by vm_compute. }
  destruct (sl_solver laws ["/home/cpsc-net-user/repos/virtual-link-embedding/invoke_solver.sh"%string] _ n flows 3 seed Hwf1 Hdir
    ltac:(cbn [files]; apply lookup_insert_eq) Hres) as (fs' & Hrun & Hwf' & Hdirs & Hother & Hout).
  exists fs'. split_and!; [|done|done|].
  - unfold sim_create_trial, sim_invoke_solver, sim_create_solver_cmd.
    rewrite (bindS_run _ _ _ (outcome n flows 3 seed) fs'); [done|].
    rewrite (bindS_run _ _ _ ["/home/cpsc-net-user/repos/virtual-link-embedding/invoke_solver.sh"%string] _)
      by (rewrite (bindS_run _ _ _ _ _ Hw); reflexivity).
    rewrite (bindS_run _ _ _ _ _ Hrun). rewrite (bindS_run _ _ _ (json_dumps (simulation_to_dict (outcome n flows 3 seed))) fs').
    + unfold lift, simulation_from_json. rewrite (sl_codec laws). cbn [mbind res_bind]. by rewrite simulation_roundtrip.
    + unfold read_text, read_file, mbind, M_bind. rewrite Hdirs. cbn [dirs]. rewrite bool_decide_false by done. by rewrite Hout.
  - intros q Hq. rewrite Hother by done. cbn [files]. by rewrite lookup_insert_ne by (symmetry; apply Hq).
Qed.

Lemma conduct_simulation_run done n rest fs :
  progress done (n :: rest) fs → n ∉ rest →
  ∃ fs', conduct_simulation json_dumps json_loads run_solver repository seed flows n fs = (Ok tt, fs') ∧
    progress (done ++ [n]) rest fs'.
Proof.
  intros [Hwf Hdir Hparams Hres Hrest Hdone] Hn.
  destruct (solver_run n fs Hwf Hdir Hparams Hres) as (fs1 & Hrun & Hwf1 & Hdirs & Hother).
  assert (∀ m, m ∈ n :: rest → free_path fs1 (out m)) as Hfree.
  { intros m Hm. destruct (Hrest m Hm) as [Hd Hf]. split; [by rewrite Hdirs|]. intros q Hq.
    rewrite Hother; [by apply Hf|]. intros x. by eapply up_to_out_other. }
  set (results := [("sim-results.json"%string, expected_text n)]).
  destruct (write_results_run repository (sim_schema_vars seed flows n) (out n) results fs1 Hwf1 (build_out n)
    (Hfree n ltac:(left))) as [Hw Hwf2]; [repeat constructor; by vm_compute|].
  exists (stored fs1 (out n) results). split.
  { unfold conduct_simulation. rewrite (bindS_run _ _ _ _ _ Hrun). exact Hw. }
  assert (∀ q, length q ≠ 8 → files (stored fs1 (out n) results) !! q = files fs1 !! q) as Hshort.
  { intros q Hq. cbn [stored files]. apply with_results_other. intros x ->. by rewrite length_app, length_out in Hq. }
  assert (∀ q, q ∈ dirs (stored fs1 (out n) results) → (∃ k, k ≤ 7 ∧ q = take k (out n)) ∨ q ∈ dirs fs) as Hnew.
  { intros q. cbn [stored dirs]. rewrite elem_of_union, elem_of_list_to_set, Hdirs. intros [Hq%up_to_out|]; auto. }
  assert (∀ x, SIM_SOLVER_PATH ++ [x] ∉ dirs fs → SIM_SOLVER_PATH ++ [x] ∉ dirs (stored fs1 (out n) results)) as Hsolver.
  { intros x Hx [(k & _ & Heq)|Hq]%Hnew; [|done]. by destruct (out_prefix_other n k x). }
  split.
  - done.
  - cbn [stored dirs]. apply elem_of_union_r. by rewrite Hdirs.
  - by apply Hsolver.
  - rewrite sim_results_path_eq in Hres |- *. by apply Hsolver.
  - intros m Hm. destruct (Hfree m ltac:(by right)) as [Hd Hf]. split.
    + intros [(k & Hk & Heq)|Hq]%Hnew; [|by rewrite Hdirs in Hd].
      assert (length (out m) = length (take k (out n))) as Hl by (by rewrite <-Heq). rewrite length_take, !length_out in Hl.
      rewrite take_ge in Heq by (rewrite length_out; lia). apply out_inj in Heq as ->. done.
    + intros q Hq. rewrite Hshort; [by apply Hf|]. apply up_to_out in Hq as (k & Hk & ->). rewrite length_take, length_out. lia.
  - intros m Hm. assert (out_file m ∉ dirs fs → out_file m ∉ dirs (stored fs1 (out n) results)) as Hdf.
    { intros Hx [(k & Hk & Heq)|Hq]%Hnew; [|done]. apply (f_equal length) in Heq. rewrite length_take, length_out, length_out_file in Heq. lia. }
    destruct (decide (m = n)) as [->|Hne].
    + split; [unfold out_file; cbn [stored files]; apply with_results_get; [apply NoDup_singleton|left]|]. apply Hdf.
      destruct (nothing_below fs (out n) "sim-results.json" Hwf) as [Hx _]; [apply (Hrest n); left|exact Hx].
    + apply elem_of_app in Hm as [Hm|Hm]; [|by apply list_elem_of_singleton in Hm]. destruct (Hdone m Hm) as [Hf Hx].
      split; [|by apply Hdf]. cbn [stored files]. rewrite with_results_other.
      * rewrite Hother by apply out_file_other. done.
      * intros x Heq. apply app_inj_tail in Heq as [Heq%out_inj _]. done.
Qed.

Lemma conduct_simulations_run done node_counts fs :
  progress done node_counts fs → NoDup node_counts →
  ∃ fs', conduct_simulations json_dumps json_loads run_solver repository seed flows node_counts fs = (Ok tt, fs') ∧
    progress (done ++ node_counts) [] fs'.
Proof.
  revert done fs. induction node_counts as [|n rest IH]; intros done fs Hp Hnd.
  { exists fs. split; [reflexivity|]. by rewrite app_nil_r. }
  apply NoDup_cons in Hnd as [Hn Hnd]. destruct (conduct_simulation_run done n rest fs Hp Hn) as (fs1 & Hrun & Hp1).
  destruct (IH (done ++ [n]) fs1 Hp1 Hnd) as (fs2 & Hrest & Hp2). exists fs2. rewrite <-(assoc_L (++)) in Hp2. split; [|done].
  unfold conduct_simulations. cbn [for_each]. rewrite (bindS_run _ _ _ _ _ Hrun). exact Hrest.
Qed.

(** C14: The simulations are stored. If the solver reads its parameters and
    writes its results as agreed, and there is room in the repository,
    [conduct_simulations] returns; afterwards the repository has, for every
    number of nodes, a file from which [from_json] reads a trial with this
    number of nodes, the number of flows, three links per node and the seed
    that were asked for, and the links, the solution time and the
    feasibility that the solver has determined for exactly these
    parameters. *)
Theorem simulations_stored node_counts fs :
  progress [] node_counts fs → NoDup node_counts →
  ∃ fs', conduct_simulations json_dumps json_loads run_solver repository seed flows node_counts fs = (Ok tt, fs') ∧
  ∀ n, n ∈ node_counts → ∃ text,
    read_trial_results repository (sim_schema_vars seed flows n) ["sim-results.json"%string] fs'
      = (Ok [("sim-results.json"%string, text)], fs') ∧
    sim_trial_from_json json_loads text = Ok (expected n).
Proof.
  intros Hp Hnd. destruct (conduct_simulations_run [] node_counts fs Hp Hnd) as (fs' & Hrun & Hp').
  exists fs'. split; [done|]. intros n Hn. exists (expected_text n). destruct (pr_done _ _ _ Hp' n Hn) as [Hf Hd]. split.
  - apply (read_results_run repository (sim_schema_vars seed flows n) (out n) [("sim-results.json"%string, expected_text n)]);
      [apply build_out|apply NoDup_singleton|]. constructor; [|constructor]. split_and!; [by vm_compute..|done|done].
  - unfold sim_trial_from_json, expected_text. rewrite (sl_codec laws). cbn [mbind res_bind]. apply sim_trial_roundtrip.
Qed.
End simulations.

(** * A run *)

#[local] Instance scalar_eq_dec {F} `{EqDecision F} : EqDecision (scalar F).
Proof. solve_decision. Defined.
#[local] Instance scalar_countable {F} `{Countable F} : Countable (scalar F).
Proof.
  refine (inj_countable'
    (λ v, match v with SInt z => inl (inl z) | SFloat x => inl (inr x) | SBool b => inr (inl b) | SText s => inr (inr s) end)
    (λ c, match c with inl (inl z) => SInt z | inl (inr x) => SFloat x | inr (inl b) => SBool b | inr (inr s) => SText s end) _).
  by intros [].
Defined.

Definition demo_outcome (n _ l _ : Z) : Simulation (F:=unit) := mkSimulation (SInt n) (SInt (n * l)) (SFloat tt) (SBool true).

(** The solver reads the number of nodes, links per node and the seed. *)
Definition demo_solver (_ : list string) : M fsys unit := λ fs,
  match files fs !! (SIM_SOLVER_PATH ++ ["flow-params.txt"%string]) with
  | Some (Text t) =>
      match code_loads (A := dict string (scalar unit)) t with
      | Ok [_; (_, SInt n); (_, SInt f); (_, SInt l); (_, SInt seed)] =>
          write_text (sim_results_path seed) (code_dumps (simulation_to_dict (demo_outcome n f l seed))) fs
      | _ => (Ok tt, fs)
      end
  | _ => (Ok tt, fs)
  end.

Lemma demo_simulation_laws : simulation_laws code_dumps code_loads demo_solver demo_outcome.
Proof.
  split; [apply code_loads_dumps|]. intros cmd fs n f l seed Hwf Hdir Hparams Hres. unfold demo_solver.
  rewrite Hparams, code_loads_dumps. cbn [solver_input].
  rewrite sim_results_path_eq in Hres.
  destruct (write_text_simple fs SIM_SOLVER_PATH ("simulation-" +:+ str_of_Z seed +:+ ".json")%string
    (code_dumps (simulation_to_dict (demo_outcome n f l seed))) Hwf Hdir Hres) as [Hw Hwf'].
  { split_and!; [by rewrite !str_in_app, str_in_str_of_Z|done..]. }
  eexists. split_and!; [exact Hw|exact Hwf'|done|..]; cbn [files].
  - intros q Hq. by rewrite lookup_insert_ne by (symmetry; apply Hq).
  - rewrite sim_results_path_eq. apply lookup_insert_eq.
Qed.

Definition demo_sim_root : fsys := mkFsys {[ [] ]} ∅.
Definition demo_sim_fs : fsys :=
  mkFsys (list_to_set (SIM_SOLVER_PATH :: parents SIM_SOLVER_PATH) ∪ dirs demo_sim_root) (files demo_sim_root).
Definition demo_sim_repository : ResultsRepository :=
  mkRepository sim_base_repository_path sim_repository_schema sim_repository_name.

Lemma demo_repository_base : base_path demo_sim_repository = sim_base_repository_path.
Proof. by vm_compute. Qed.
Lemma demo_repository_schema : schema demo_sim_repository = sim_repository_schema.
Proof. by vm_compute. Qed.

Lemma demo_sim_progress : progress code_dumps demo_outcome 7 100 [] [100; 200]%Z demo_sim_fs.
Proof.
  split.
  - apply mkdir_wf.
    + split; [set_solver| |done|done]. intros p s Hin. cbn [demo_sim_root dirs] in Hin. apply elem_of_singleton in Hin. by destruct p.
    + split; [apply (bool_decide_unpack _); by vm_compute|]. intros q _. apply lookup_empty.
  - apply elem_of_union_l, elem_of_list_to_set. left.
  - apply (bool_decide_unpack _). by vm_compute.
  - apply (bool_decide_unpack _). by vm_compute.
  - intros n Hn. split; [|intros q _; apply lookup_empty].
    revert n Hn. apply Forall_forall, (bool_decide_unpack _). by vm_compute.
  - intros n Hn. by apply elem_of_nil in Hn.
Qed.

Lemma simulations_stored_witness :
  ∃ fs', conduct_simulations (F:=unit) code_dumps code_loads demo_solver demo_sim_repository 7 100 [100; 200]%Z demo_sim_fs = (Ok tt, fs') ∧
  ∃ text, read_trial_results demo_sim_repository (sim_schema_vars 7 100 200) ["sim-results.json"%string] fs'
      = (Ok [("sim-results.json"%string, text)], fs') ∧
    sim_trial_from_json code_loads text = Ok (expected demo_outcome 7 100 200).
Proof.
  destruct (simulations_stored code_dumps code_loads demo_solver demo_outcome demo_simulation_laws demo_sim_repository 7 100
    demo_repository_base demo_repository_schema [100; 200]%Z demo_sim_fs demo_sim_progress
    ltac:(apply (bool_decide_unpack _); by vm_compute)) as (fs' & Hrun & Hall).
  exists fs'. split; [exact Hrun|]. apply (Hall 200%Z). right. left.
Defined.
