(* ===== verification/FileParsingProps.v ===== *)
(** The route files are read correctly: literals are parsed back as they are
    printed, and the flow definitions are aligned with the routes, the
    fractions and the rates of the files. *)

From Stdlib Require Import Ascii SpecFloat.
From S2P Require Import Prelude PyDict PyStr PyFloat PyText TextRows TrialStore TrialStoreProps FileParsing.

#[local] Arguments String.append !_ _ / : simpl nomatch.
#[local] Arguments is_numeral : simpl never.
#[local] Arguments is_blank : simpl never.

(** * Literals *)

Lemma lit_ind' (P : lit → Prop) :
  (∀ z, P (LInt z)) → (∀ l, Forall P l → P (LSeq l)) → ∀ v, P v.
Proof.
  intros Hint Hseq. fix IH 1. intros [z|l]; [apply Hint|]. apply Hseq. induction l as [|v l IHl]; constructor; [apply IH|exact IHl].
Qed.

(** The items with a separator between them; [str(v)]. *)
Fixpoint sep_by (sep : string) (ws : list string) : string :=
  match ws with
  | [] => EmptyString
  | [w] => w
  | w :: ws => w +:+ sep +:+ sep_by sep ws
  end.
Fixpoint show_lit (v : lit) : string :=
  match v with
  | LInt z => str_of_Z z
  | LSeq l => String open_bracket (sep_by ", " (show_lit <$> l) +:+ String close_bracket EmptyString)
  end.

(** What can follow a numeral. *)
Definition ends_numeral (s : string) : Prop :=
  match s with EmptyString => True | String c _ => is_numeral c = false end.

Lemma numeral_cases c : is_numeral c = true →
  is_blank c = false ∧ c ≠ open_bracket ∧ c ≠ close_bracket ∧ c ≠ open_paren ∧ c ≠ close_paren ∧ c ≠ comma.
Proof. destruct c as [[] [] [] [] [] [] [] []]; by vm_compute. Qed.

Definition all_numeral (s : string) : Prop := str_all is_numeral s = true.

Lemma all_numeral_str_of_Z z : all_numeral (str_of_Z z).
Proof.
  unfold all_numeral. cut (∀ s, (∀ c, not_decimal c = true → str_in c s = false) → str_all is_numeral s = true).
  { intros Hc. apply Hc. intros c Hc'. by apply str_in_str_of_Z. }
  induction s as [|a s IH]; intros Hs; [done|]. cbn [str_all]. apply andb_true_iff. split.
  - unfold is_numeral. destruct (not_decimal a) eqn:E; [|done]. specialize (Hs a E). cbn in Hs. by rewrite Ascii.eqb_refl in Hs.
  - apply IH. intros c Hc. specialize (Hs c Hc). cbn in Hs. by apply orb_false_iff in Hs as [_ ?].
Qed.

Lemma span_numeral_app s rest : all_numeral s → ends_numeral rest → span_numeral (s +:+ rest) = (s, rest).
Proof.
  intros Hs Hr. induction s as [|c s IH].
  - change (EmptyString +:+ rest)%string with rest. destruct rest as [|c r]; [done|]. cbn [span_numeral]. cbn in Hr. by rewrite Hr.
  - unfold all_numeral in Hs. cbn in Hs. apply andb_true_iff in Hs as [Hc Hs]. change (String c s +:+ rest)%string with (String c (s +:+ rest)). cbn [span_numeral]. by rewrite Hc, IH.
Qed.

Lemma str_of_Z_cons z : ∃ c s, str_of_Z z = String c s ∧ is_numeral c = true.
Proof.
  pose proof (all_numeral_str_of_Z z) as Hn. pose proof (str_of_Z_ne z) as Hne. destruct (str_of_Z z) as [|c s]; [done|].
  exists c, s. split; [done|]. unfold all_numeral in Hn. cbn in Hn. by apply andb_true_iff in Hn as [? _].
Qed.

(** The first character of a printed literal. *)
Lemma show_lit_cons v : ∃ c s, show_lit v = String c s ∧ (is_numeral c = true ∨ c = open_bracket).
Proof.
  destruct v as [z|l].
  - destruct (str_of_Z_cons z) as (c & s & Hz & Hc). exists c, s. split; [exact Hz|by left].
  - eexists _, _. split; [reflexivity|by right].
Qed.

Lemma skip_show v rest : skip_blanks (show_lit v +:+ rest) = (show_lit v +:+ rest)%string.
Proof.
  destruct (show_lit_cons v) as (c & s & -> & [Hc| ->]); [|done]. cbn. apply numeral_cases in Hc as [-> _]. done.
Qed.

(** A separator: a comma and blanks. *)
Definition separator (sep : string) : Prop :=
  ∃ b, sep = String comma b ∧ ∀ s, skip_blanks (b +:+ s) = skip_blanks s.

Lemma length_app_str (a b : string) : String.length (a +:+ b) = String.length a + String.length b.
Proof. induction a as [|c a IH]; [done|]. cbn. f_equal. exact IH. Qed.

Lemma sep_by_length sep ws : Forall (λ w, w ≠ EmptyString) ws → length ws ≤ String.length (sep_by sep ws) ∧
  ∀ w, w ∈ ws → String.length w ≤ String.length (sep_by sep ws).
Proof.
  induction 1 as [|w ws Hw Hws [IH1 IH2]]; [split; [done|intros w Hw; by apply elem_of_nil in Hw]|].
  destruct w as [|c w]; [done|]. destruct ws as [|w' ws].
  - split; [cbn; lia|]. intros x ->%list_elem_of_singleton. done.
  - change (sep_by sep (String c w :: w' :: ws)) with (String c w +:+ sep +:+ sep_by sep (w' :: ws))%string.
    rewrite !length_app_str. split.
    + cbn [length String.length] in *. lia.
    + intros x [->|Hx]%elem_of_cons; [lia|]. specialize (IH2 x Hx). lia.
Qed.

Section items.
Variable parse : string → option (lit * string).
Variables (sep : string) (close : ascii).
Hypothesis Hsep : separator sep.
Hypothesis Hclose : close = close_bracket ∨ close = close_paren.

Lemma close_facts : is_blank close = false ∧ is_numeral close = false ∧ close ≠ comma ∧ close ≠ open_bracket.
Proof. destruct Hclose as [-> | ->]; by vm_compute. Qed.

(** One item was parsed. *)
Lemma parse_items_item m s v r :
  skip_blanks s = (show_lit v +:+ r)%string → parse (show_lit v +:+ r)%string = Some (v, r) →
  parse_items parse close (S m) s =
    match skip_blanks r with
    | EmptyString => None
    | String c r =>
        if Ascii.eqb c close then Some ([v], false, r)
        else if Ascii.eqb c comma then '(vs, _, r) ← parse_items parse close m r; Some (v :: vs, true, r)
        else None
    end.
Proof.
  destruct close_facts as (_ & Hn & _ & Hopen). intros Hs Hp. cbn [parse_items]. rewrite Hs.
  destruct (show_lit_cons v) as (c & w & Hv & Hc). rewrite Hv in Hp |- *. cbn [String.append] in *.
  rewrite (proj2 (Ascii.eqb_neq c close)); [by rewrite Hp|]. destruct Hc as [Hc| ->]; [|congruence]. intros ->. congruence.
Qed.

Lemma parse_items_show vs rest m s :
  (∀ v r, v ∈ vs → ends_numeral r → parse (show_lit v +:+ r)%string = Some (v, r)) →
  length vs < m → skip_blanks s = (sep_by sep (show_lit <$> vs) +:+ String close rest)%string →
  parse_items parse close m s = Some (vs, bool_decide (2 ≤ length vs), rest).
Proof.
  destruct close_facts as (Hb & Hn & Hcomma & Hopen).
  revert m s. induction vs as [|v vs IH]; intros m s Hp Hm Hs; destruct m as [|m]; try (cbn in Hm; lia).
  - cbn [parse_items]. rewrite Hs. cbn [fmap list_fmap sep_by String.append]. by rewrite Ascii.eqb_refl.
  - destruct vs as [|v' vs].
    + cbn [fmap list_fmap sep_by] in Hs. rewrite (parse_items_item m s v (String close rest)); [|done|apply Hp; [left|done]].
      cbn [skip_blanks]. by rewrite Hb, Ascii.eqb_refl.
    + destruct Hsep as (b & Hsepb & Hskip).
      change (sep_by sep (show_lit <$> v :: v' :: vs)) with (show_lit v +:+ sep +:+ sep_by sep (show_lit <$> v' :: vs))%string in Hs.
      rewrite !str_app_assoc in Hs. set (tail := (sep_by sep (show_lit <$> v' :: vs) +:+ String close rest)%string) in Hs.
      rewrite Hsepb in Hs. cbn [String.append] in Hs.
      rewrite (parse_items_item m s v (String comma (b +:+ tail))); [|done|apply Hp; [left|done]].
      cbn [skip_blanks]. change (is_blank comma) with false. cbv iota.
      rewrite (proj2 (Ascii.eqb_neq comma close)) by congruence. rewrite Ascii.eqb_refl, (IH m (b +:+ tail)%string).
      * done.
      * intros x r Hx. apply Hp. by right.
      * cbn in Hm |- *. lia.
      * rewrite Hskip. unfold tail. rewrite fmap_cons. destruct vs as [|v'' vs]; cbn [fmap list_fmap sep_by].
        -- apply skip_show.
        -- rewrite str_app_assoc. apply skip_show.
Qed.
End items.

Lemma separator_list : separator ", ".
Proof. exists " "%string. split; [done|]. done. Qed.
Lemma separator_tuple : separator ",".
Proof. exists EmptyString. split; [done|]. done. Qed.

Lemma shown_nonempty l : Forall (λ w, w ≠ EmptyString) (show_lit <$> l).
Proof. apply Forall_fmap, Forall_true. intros v. destruct (show_lit_cons v) as (c & s & Hv & _). simpl. by rewrite Hv. Qed.

Lemma parse_lit_show v n rest :
  String.length (show_lit v) ≤ n → ends_numeral rest → parse_lit n (show_lit v +:+ rest) = Some (v, rest).
Proof.
  revert n rest. induction v as [z|l IH] using lit_ind'; intros n rest Hn Hr.
  - destruct (str_of_Z_cons z) as (c & s & Hz & Hc). cbn [show_lit] in *. destruct n as [|n]; [rewrite Hz in Hn; cbn in Hn; lia|].
    cbn [parse_lit]. rewrite (skip_show (LInt z)). cbn [show_lit]. pose proof (span_numeral_app (str_of_Z z) rest (all_numeral_str_of_Z z) Hr) as Hspan.
    pose proof (int_of_str_of_Z z) as Hint. rewrite Hz in Hspan, Hint |- *. cbn [String.append] in *.
    destruct (numeral_cases c Hc) as (_ & Ho & _ & Hp & _). rewrite (proj2 (Ascii.eqb_neq _ _) Ho), (proj2 (Ascii.eqb_neq _ _) Hp).
    by rewrite Hspan, Hint.
  - cbn [show_lit] in *. set (items := sep_by ", " (show_lit <$> l)) in *. destruct n as [|n]; [cbn in Hn; lia|].
    cbn [String.length] in Hn. rewrite length_app_str in Hn. cbn [String.length] in Hn.
    destruct (sep_by_length ", " _ (shown_nonempty l)) as [Hlen Hmem]. fold items in Hlen, Hmem. rewrite length_fmap in Hlen.
    cbn [parse_lit String.append skip_blanks]. change (is_blank open_bracket) with false. cbv iota. rewrite Ascii.eqb_refl.
    rewrite (parse_items_show (parse_lit n) ", " close_bracket separator_list ltac:(by left) l rest).
    + done.
    + intros v r Hv Hr'. rewrite Forall_forall in IH. apply (IH v Hv); [|done].
      specialize (Hmem (show_lit v) ltac:(by apply list_elem_of_fmap_2)). lia.
    + rewrite !length_app_str. lia.
    + rewrite str_app_assoc. fold items. cbn [String.append]. destruct l as [|v l]; [done|]. unfold items. rewrite fmap_cons.
      destruct l as [|v' l]; cbn [fmap list_fmap sep_by]; [apply skip_show|]. rewrite str_app_assoc. apply skip_show.
Qed.

(** [literal_eval(str(v))] is [v]. *)
Lemma literal_eval_show v : literal_eval (show_lit v) = Ok v.
Proof.
  unfold literal_eval. rewrite <-(str_app_nil_r (show_lit v)) at 2. rewrite parse_lit_show; [done|lia|done].
Qed.

(** A tuple of at least two numbers, without blanks. *)
Definition show_tuple (zs : list Z) : string := String open_paren (sep_by "," (str_of_Z <$> zs) +:+ String close_paren EmptyString).
Lemma literal_eval_tuple zs : 2 ≤ length zs → literal_eval (show_tuple zs) = Ok (LSeq (LInt <$> zs)).
Proof.
  intros Hl. unfold literal_eval, show_tuple. cbn [parse_lit skip_blanks]. change (is_blank open_paren) with false. cbv iota.
  change (Ascii.eqb open_paren open_bracket) with false. rewrite Ascii.eqb_refl.
  assert (str_of_Z <$> zs = show_lit <$> (LInt <$> zs)) as -> by (rewrite <-list_fmap_compose; done).
  set (items := sep_by "," (show_lit <$> (LInt <$> zs))).
  destruct (sep_by_length "," _ (shown_nonempty (LInt <$> zs))) as [Hlen Hmem]. fold items in Hlen, Hmem. rewrite !length_fmap in Hlen.
  rewrite (parse_items_show _ "," close_paren separator_tuple ltac:(by right) (LInt <$> zs) EmptyString).
  - cbn [mbind option_bind]. destruct zs as [|a [|b zs]]; cbn in Hl; [lia|lia|]. done.
  - intros v r Hv Hr. apply parse_lit_show; [|done]. specialize (Hmem (show_lit v) ltac:(by apply list_elem_of_fmap_2)).
    cbn [String.length]. rewrite length_app_str. lia.
  - rewrite length_fmap, length_app_str. lia.
  - fold items. destruct zs as [|a zs]; [done|]. unfold items. rewrite !fmap_cons.
    destruct zs as [|b zs]; cbn [fmap list_fmap sep_by]; [apply (skip_show (LInt a))|]. rewrite str_app_assoc. apply (skip_show (LInt a)).
Qed.

(** * The data of the files *)

Lemma mapR_fmap {A B C} (f : B → res C) (g : A → B) l : mapR f (g <$> l) = mapR (λ x, f (g x)) l.
Proof. induction l as [|x l IH]; [done|]. rewrite fmap_cons. cbn [mapR]. by rewrite IH. Qed.

Lemma enumerate_fmap {A B} (g : A → B) l : enumerate (g <$> l) = (λ ix, (ix.1, g ix.2)) <$> enumerate l.
Proof. unfold enumerate. by rewrite imap_fmap, fmap_imap. Qed.

Lemma snd_enumerate {A} (l : list A) : (enumerate l).*2 = l.
Proof. unfold enumerate. rewrite fmap_imap. etrans; [apply (imap_const id)|apply list_fmap_id]. Qed.

(** The paths of a flow, as a literal and as routes. *)
Definition path_lit (p : list Z) : lit := LSeq (LInt <$> p).
Definition flow_lit (ps : list (list Z)) : lit := LSeq (path_lit <$> ps).
Definition shift (p : list Z) : list Z := (λ z, z + 1)%Z <$> p.
Definition routes_of (ps : list (list Z)) : list (Z * list Z) := (λ ip, (Z.of_nat ip.1, shift ip.2)) <$> enumerate ps.

Lemma flow_routes_lit ps : flow_routes (flow_lit ps) = Ok (routes_of ps).
Proof.
  unfold flow_routes, flow_lit. cbn [lit_items mbind res_bind]. rewrite enumerate_fmap, mapR_fmap.
  apply mapR_all_Ok. intros [i p] _. cbn [fst snd]. unfold shifted_path, path_lit. cbn [lit_items mbind res_bind].
  rewrite mapR_fmap. by rewrite (mapR_all_Ok _ (λ z, z + 1)%Z).
Qed.

Lemma concat_items_lit {A B} (f : lit → res (list A)) (g : B → lit) (h : B → list A) l :
  (∀ x, f (g x) = Ok (h x)) → concat_items f (LSeq (g <$> l)) = Ok (concat (h <$> l)).
Proof. intros Hf. unfold concat_items. cbn [lit_items mbind res_bind]. rewrite mapR_fmap. by rewrite (mapR_all_Ok _ h). Qed.

Section files.
Context {F : Type} `{PyFloatText F}.
Variables (seed_no : string) (mu sigma : F) (route_dir : path).

(** A flow: its paths, the fractions of the paths and the rate of the flow
    with the texts that the files have for them. *)
Record FlowData : Type := mkFlowData {
  fd_paths : list (list Z);
  fd_shares : list (string * F);
  fd_rate : string * (Z * F)
}.
Implicit Types (fl : FlowData) (vn : list FlowData) (nets : list (list FlowData)).

Definition share_ok (tx : string * F) : Prop :=
  py_float (tx.1 +:+ String newline EmptyString) = Ok tx.2 ∧ str_in (ch 58) tx.1 = false ∧ str_in newline tx.1 = false.

(** ** Paths_seed_<n>.txt *)

Definition paths_text nets : string := show_lit (LSeq ((λ vn, LSeq ((λ fl, flow_lit (fd_paths fl)) <$> vn)) <$> nets)).
Definition net_routes vn : list (Z * list Z) := concat ((λ fl, routes_of (fd_paths fl)) <$> vn).

Lemma routes_read nets :
  (nets0 ← literal_eval (paths_text nets); concat_items (concat_items flow_routes) nets0) = Ok (concat (net_routes <$> nets)).
Proof.
  unfold paths_text. rewrite literal_eval_show. cbn [mbind res_bind]. apply concat_items_lit. intros vn.
  apply concat_items_lit. intros fl. apply flow_routes_lit.
Qed.

(** ** X_matrix_seed_<n>.txt *)

Definition share_line (i j : Z) (ktx : nat * (string * F)) : string :=
  String "X" (show_tuple [i; j; Z.of_nat ktx.1] +:+ String (ch 58) (ktx.2.1 +:+ String newline EmptyString)).
Definition flow_lines (i : Z) (jfl : nat * FlowData) : list string :=
  share_line i (Z.of_nat jfl.1) <$> enumerate (fd_shares jfl.2).
Definition net_lines (ivn : nat * list FlowData) : list string := concat (flow_lines (Z.of_nat ivn.1) <$> enumerate ivn.2).
Definition x_lines nets : list string := concat (net_lines <$> enumerate nets).
Definition x_text nets : string := String.concat EmptyString (x_lines nets).

(** What the lines are read to. *)
Definition shares_dict fl : dict Z F := (λ ktx, (Z.of_nat ktx.1, ktx.2.2)) <$> enumerate (fd_shares fl).
Definition flows_dict vn : dict Z (dict Z F) := (λ jfl, (Z.of_nat jfl.1, shares_dict jfl.2)) <$> enumerate vn.
Definition nets_dict nets : dict Z (dict Z (dict Z F)) := (λ ivn, (Z.of_nat ivn.1, flows_dict ivn.2)) <$> enumerate nets.

Lemma str_in_sep_by c sep ws : str_in c sep = false → Forall (λ w, str_in c w = false) ws → str_in c (sep_by sep ws) = false.
Proof.
  intros Hs. induction 1 as [|w ws Hw Hws IH]; [done|]. destruct ws as [|w' ws]; [done|].
  change (sep_by sep (w :: w' :: ws)) with (w +:+ sep +:+ sep_by sep (w' :: ws))%string. by rewrite !str_in_app, Hw, Hs, IH.
Qed.
Lemma str_in_tuple c zs : not_decimal c = true → c ≠ comma → c ≠ open_paren → c ≠ close_paren → str_in c (show_tuple zs) = false.
Proof.
  intros Hc H1 H2 H3. unfold show_tuple. cbn [str_in]. rewrite (proj2 (Ascii.eqb_neq open_paren c)) by congruence.
  rewrite str_in_app. cbn [str_in]. rewrite (proj2 (Ascii.eqb_neq close_paren c)) by congruence. rewrite str_in_sep_by; [done|..].
  - cbn [str_in]. rewrite orb_false_r. apply Ascii.eqb_neq. intros Heq. apply H1. by rewrite <-Heq.
  - apply Forall_fmap, Forall_true. intros z. by apply str_in_str_of_Z.
Qed.

Lemma readlines_line s rest :
  str_in newline s = false → readlines (s +:+ String newline rest) = (s +:+ String newline EmptyString)%string :: readlines rest.
Proof.
  induction s as [|a s IH]; [done|]. cbn [str_in String.append readlines]. intros [Ha Hs]%orb_false_iff. by rewrite Ha, IH.
Qed.

Lemma string_concat_cons s l : String.concat EmptyString (s :: l) = (s +:+ String.concat EmptyString l)%string.
Proof. destruct l; [by rewrite str_app_nil_r|done]. Qed.

Lemma readlines_concat ls :
  Forall (λ l, ∃ s, l = (s +:+ String newline EmptyString)%string ∧ str_in newline s = false) ls →
  readlines (String.concat EmptyString ls) = ls.
Proof.
  induction 1 as [|l ls (s & -> & Hs) _ IH]; [done|]. rewrite string_concat_cons, str_app_assoc.
  cbn [String.append]. by rewrite readlines_line, IH.
Qed.

Lemma share_line_newline i j ktx : share_ok ktx.2 →
  ∃ s, share_line i j ktx = (s +:+ String newline EmptyString)%string ∧ str_in newline s = false.
Proof.
  intros (_ & _ & Hn). exists (String "X" (show_tuple [i; j; Z.of_nat ktx.1] +:+ String (ch 58) ktx.2.1)). split.
  - unfold share_line. cbn [String.append]. f_equal. by rewrite str_app_assoc.
  - cbn [str_in]. rewrite str_in_app, str_in_tuple by done. cbn [str_in]. by rewrite Hn.
Qed.

(** A dictionary with an entry that is made with its first value. *)
Definition entry {V} (k : Z) (v : dict Z V) (d : dict Z (dict Z V)) : dict Z (dict Z V) :=
  match v with [] => d | _ => d ++ [(k, v)] end.
Lemma get_entry {V} k (v : dict Z V) d : k ∉ Dict.keys d → Dict.get_default [] (entry k v d) k = v.
Proof.
  intros Hk. apply Dict.get_None in Hk. unfold entry. destruct v as [|x v]; [unfold Dict.get_default; by rewrite Hk|].
  rewrite <-Dict.set_new by done. unfold Dict.get_default. by rewrite Dict.get_set_eq.
Qed.
Lemma set_entry {V} k (v v' : dict Z V) d : k ∉ Dict.keys d → v' ≠ [] → Dict.set (entry k v d) k v' = entry k v' d.
Proof.
  intros Hk Hv'. apply Dict.get_None in Hk. unfold entry at 2. destruct v' as [|y v']; [done|]. unfold entry.
  destruct v as [|x v]; [by rewrite Dict.set_new|]. clear Hv'. induction d as [|[k1 v1] d IH]; cbn in *.
  - by rewrite decide_True.
  - case_decide; [done|]. by rewrite IH.
Qed.

Lemma snoc_ne {A} (l : list A) x : l ++ [x] ≠ [].
Proof. by destruct l. Qed.
Lemma entry_ne {V} k (v : dict Z V) d : v ≠ [] → entry k v d ≠ [].
Proof. unfold entry. destruct v; [done|]. intros _. apply snoc_ne. Qed.

Definition set_fraction (i j k : Z) (x : F) (T : dict Z (dict Z (dict Z F))) : dict Z (dict Z (dict Z F)) :=
  let flows := Dict.get_default [] T i in
  Dict.set T i (Dict.set flows j (Dict.set (Dict.get_default [] flows j) k x)).

Lemma add_fraction_line i j ktx T : share_ok ktx.2 →
  ne_add_fraction T (share_line i j ktx) = Ok (set_fraction i j (Z.of_nat ktx.1) ktx.2.2 T).
Proof.
  intros (Hx & Hcolon & Hnl). unfold ne_add_fraction.
  set (tup := show_tuple [i; j; Z.of_nat ktx.1]). set (val := (ktx.2.1 +:+ String newline EmptyString)%string) in *.
  assert (str_in (ch 58) tup = false) as Htup by (by apply str_in_tuple).
  assert (str_split (ch 58) (str_drop 1 (share_line i j ktx)) = [tup; val]) as ->.
  { change (str_drop 1 (share_line i j ktx)) with (tup +:+ String (ch 58) val)%string. rewrite str_split_app by done.
    rewrite str_split_none; [done|]. unfold val. rewrite str_in_app, Hcolon. done. }
  change (py_index [tup; val] 0) with (Ok tup). cbn [mbind res_bind]. unfold tup at 1. rewrite literal_eval_tuple by (cbn; lia).
  cbn [mbind res_bind].
  assert (str_split (ch 58) (share_line i j ktx) = [String "X" tup; val]) as ->.
  { change (share_line i j ktx) with (String "X" tup +:+ String (ch 58) val)%string. rewrite str_split_app by (cbn [str_in]; by rewrite Htup).
    rewrite str_split_none; [done|]. unfold val. rewrite str_in_app, Hcolon. done. }
  change (py_index [String "X" tup; val] 1) with (Ok val). cbn [mbind res_bind]. rewrite Hx. done.
Qed.

Lemma keys_indexed {A B} (f : A → B) (l : list A) n :
  length l ≤ n → Z.of_nat n ∉ Dict.keys ((λ ix, (Z.of_nat ix.1, f ix.2)) <$> enumerate l).
Proof.
  intros Hn. unfold Dict.keys. rewrite <-list_fmap_compose. intros ([k y] & Hk & Hin)%list_elem_of_fmap.
  apply elem_of_enumerate, lookup_lt_Some in Hin. cbn in Hk. lia.
Qed.

(** The lines of a flow, of a network, of the file. *)
Lemma fractions_flow P Q i j shares :
  i ∉ Dict.keys P → j ∉ Dict.keys Q → Forall share_ok shares →
  foldM ne_add_fraction (entry i Q P) (share_line i j <$> enumerate shares)
  = Ok (entry i (entry j ((λ ktx, (Z.of_nat ktx.1, ktx.2.2)) <$> enumerate shares) Q) P).
Proof.
  intros Hi Hj. induction shares as [|tx shares IH] using rev_ind; intros Hok; [done|].
  apply Forall_app in Hok as [Hok [Htx _]%Forall_cons]. rewrite enumerate_snoc, !fmap_app, foldM_app, IH by done.
  cbn [mbind res_bind foldM fmap list_fmap]. rewrite add_fraction_line by done. cbn [mbind res_bind fst snd].
  unfold set_fraction. rewrite get_entry by done. rewrite get_entry by done.
  set (R := (λ ktx, (Z.of_nat ktx.1, ktx.2.2)) <$> enumerate shares).
  assert (Dict.get R (Z.of_nat (length shares)) = None) as HR by (by apply Dict.get_None, (keys_indexed snd)).
  rewrite (Dict.set_new _ _ _ HR). rewrite (set_entry j) by (done || apply snoc_ne).
  by rewrite (set_entry i) by (done || apply entry_ne, snoc_ne).
Qed.

Definition flow_data_ok fl : Prop := Forall share_ok (fd_shares fl) ∧ fd_shares fl ≠ [].

Lemma shares_dict_ne fl : fd_shares fl ≠ [] → shares_dict fl ≠ [].
Proof.
  unfold shares_dict. intros Hne Heq. apply fmap_nil_inv in Heq. apply (f_equal length) in Heq. rewrite length_enumerate in Heq.
  by destruct (fd_shares fl).
Qed.

Lemma fractions_net P i vn :
  i ∉ Dict.keys P → Forall flow_data_ok vn →
  foldM ne_add_fraction P (concat (flow_lines i <$> enumerate vn)) = Ok (entry i (flows_dict vn) P).
Proof.
  intros Hi. induction vn as [|fl vn IH] using rev_ind; intros Hok; [done|].
  apply Forall_app in Hok as [Hok [[Hsh Hne] _]%Forall_cons]. unfold flows_dict. rewrite enumerate_snoc, !fmap_app, concat_app, foldM_app, IH by done.
  cbn [mbind res_bind fmap list_fmap concat]. rewrite app_nil_r. unfold flow_lines. cbn [fst snd].
  rewrite fractions_flow; [|done|by apply keys_indexed|done]. fold (shares_dict fl) (flows_dict vn). apply shares_dict_ne in Hne.
  unfold entry at 2. by destruct (shares_dict fl).
Qed.

Lemma fractions_read nets :
  Forall (λ vn, vn ≠ [] ∧ Forall flow_data_ok vn) nets → foldM ne_add_fraction [] (x_lines nets) = Ok (nets_dict nets).
Proof.
  unfold x_lines. induction nets as [|vn nets IH] using rev_ind; intros Hok; [done|].
  apply Forall_app in Hok as [Hok [[Hne Hvn] _]%Forall_cons]. unfold nets_dict. rewrite enumerate_snoc, !fmap_app, concat_app, foldM_app, IH by done.
  cbn [mbind res_bind fmap list_fmap concat]. rewrite app_nil_r. unfold net_lines. cbn [fst snd].
  rewrite fractions_net; [|by apply keys_indexed|done]. fold (nets_dict nets). unfold entry.
  destruct (flows_dict vn) eqn:E; [|done]. apply fmap_nil_inv, (f_equal length) in E. rewrite length_enumerate in E. by destruct vn.
Qed.

Lemma x_text_lines nets : Forall (Forall (λ fl, Forall share_ok (fd_shares fl))) nets → readlines (x_text nets) = x_lines nets.
Proof.
  intros Hok. apply readlines_concat, Forall_forall. intros l Hl. unfold x_lines in Hl.
  apply list_elem_of_In, in_concat in Hl as (ls & Hls%list_elem_of_In & Hl%list_elem_of_In).
  apply list_elem_of_fmap in Hls as ([i vn] & -> & Hvn). unfold net_lines in Hl. cbn [fst snd] in Hl.
  apply list_elem_of_In, in_concat in Hl as (ls & Hls%list_elem_of_In & Hl%list_elem_of_In).
  apply list_elem_of_fmap in Hls as ([j fl] & -> & Hfl). unfold flow_lines in Hl. cbn [fst snd] in Hl.
  apply list_elem_of_fmap in Hl as ([k tx] & -> & Htx). apply share_line_newline. cbn [fst snd].
  apply elem_of_enumerate, list_elem_of_lookup_2 in Hvn, Hfl, Htx. rewrite Forall_forall in Hok.
  specialize (Hok vn Hvn). rewrite Forall_forall in Hok. specialize (Hok fl Hfl). rewrite Forall_forall in Hok. by apply Hok.
Qed.

(** ** rate_files/VN_req_<i>_info.txt *)

Definition rate_ok (tr : string * (Z * F)) : Prop :=
  get_flow_params (tr.1 +:+ String newline EmptyString) = Ok tr.2 ∧ str_in newline tr.1 = false.
Definition rate_text vn : string := String.concat EmptyString ((λ fl, (fd_rate fl).1 +:+ String newline EmptyString)%string <$> vn).
Definition rate_name (i : nat) : string := ("VN_req_" +:+ str_of_Z (Z.of_nat i) +:+ "_info.txt")%string.
Definition rate_dir : path := joinpath route_dir "rate_files/".
Definition rate_file (i : nat) : path := rate_dir ++ [rate_name i].

Definition scaled_rate fl : F * F := (fmul (f_of_Z (fd_rate fl).2.1) mu, fmul (fd_rate fl).2.2 sigma).
Definition rates_dict vn : dict Z (F * F) := (λ jfl, (Z.of_nat jfl.1, scaled_rate jfl.2)) <$> enumerate vn.

Lemma rate_text_lines vn : Forall (λ fl, rate_ok (fd_rate fl)) vn →
  readlines (rate_text vn) = (λ fl, (fd_rate fl).1 +:+ String newline EmptyString)%string <$> vn.
Proof.
  intros Hok. apply readlines_concat, Forall_fmap. eapply Forall_impl; [exact Hok|]. intros fl [_ Hn]. by exists (fd_rate fl).1.
Qed.

Lemma skip_numeral s : all_numeral s → skip_blanks s = s.
Proof.
  destruct s as [|c s]; [done|]. unfold all_numeral. cbn. intros [Hc _]%andb_true_iff.
  by destruct (numeral_cases c Hc) as [-> _].
Qed.
Lemma rstrip_numeral s : all_numeral s → rstrip s = s.
Proof.
  induction s as [|c s IH]; [done|]. unfold all_numeral. cbn [str_all rstrip]. intros [Hc Hs]%andb_true_iff. rewrite IH by done.
  destruct (numeral_cases c Hc) as [-> _]. by destruct s.
Qed.

Lemma rate_name_id i : get_nw_id (rate_name i) = Ok (Z.of_nat i).
Proof.
  unfold get_nw_id, rate_name. set (d := str_of_Z (Z.of_nat i)).
  assert (str_split (ch 95) ("VN_req_" +:+ d +:+ "_info.txt")%string = ["VN"; "req"; d; "info.txt"]%string) as ->.
  { change ("VN_req_" +:+ d +:+ "_info.txt")%string with ("VN" +:+ String (ch 95) ("req" +:+ String (ch 95) (d +:+ String (ch 95) "info.txt")))%string.
    rewrite !str_split_app; [done|by apply str_in_str_of_Z|done|done]. }
  change (py_index _ 2) with (Ok d). cbn [mbind res_bind]. unfold py_int, strip.
  rewrite skip_numeral, rstrip_numeral by apply all_numeral_str_of_Z. apply int_of_str_of_Z.
Qed.

(** The rates of one file are entered under its network. *)
Lemma add_rates_run i vn rates :
  Forall (λ fl, rate_ok (fd_rate fl)) vn → Dict.get_default [] rates i = [] →
  ∃ rates', foldM (add_rate mu sigma i) rates (enumerate (readlines (rate_text vn))) = Ok rates'
    ∧ Dict.get_default [] rates' i = rates_dict vn
    ∧ ∀ k, k ≠ i → Dict.get_default [] rates' k = Dict.get_default [] rates k.
Proof.
  intros Hok. rewrite rate_text_lines by done. intros Hnone. induction vn as [|fl vn IH] using rev_ind; [by exists rates|].
  apply Forall_app in Hok as [Hok [[Hfl _] _]%Forall_cons]. destruct (IH Hok) as (rates' & Hrun & Hi & Hk).
  rewrite fmap_app. cbn [fmap list_fmap]. rewrite enumerate_snoc, foldM_app, Hrun, length_fmap. cbn [mbind res_bind foldM].
  unfold add_rate at 1. cbn [fst snd]. rewrite Hfl. destruct (fd_rate fl) as [t [m s]] eqn:E. cbn [mbind res_bind fst snd].
  eexists. split; [done|]. rewrite Hi. split.
  - rewrite Dict.get_default_set, decide_True by done. unfold rates_dict. rewrite enumerate_snoc, fmap_app.
    rewrite Dict.set_new by (by apply Dict.get_None, keys_indexed). unfold scaled_rate. cbn. by rewrite E.
  - intros k Hne. rewrite Dict.get_default_set, decide_False by done. by apply Hk.
Qed.

(** ** The directory *)

Definition has_text (fs : fsys) (p : path) (t : string) : Prop := (p ∉ dirs fs) ∧ files fs !! p = Some (Text t).

Lemma read_text_run fs p t : has_text fs p t → read_text p fs = (Ok t, fs).
Proof.
  intros [Hd Hf]. unfold read_text, read_file, mbind, M_bind. rewrite bool_decide_eq_false_2 by done. by rewrite Hf.
Qed.

(** The directory of a trial: the files have the texts, and the rate files
    are those of the networks. *)
Record route_files (fs : fsys) nets : Prop := {
  rf_paths : has_text fs (joinpath route_dir ("Paths_seed_" +:+ seed_no +:+ ".txt")) (paths_text nets);
  rf_shares : has_text fs (joinpath route_dir ("X_matrix_seed_" +:+ seed_no +:+ ".txt")) (x_text nets);
  rf_dir : rate_dir ∈ dirs fs ∧ files fs !! rate_dir = None;
  rf_rates : ∀ i vn, nets !! i = Some vn → has_text fs (rate_file i) (rate_text vn);
  rf_only : ∀ q, is_Some (files fs !! q) → q ≠ [] → parent q = rate_dir → ∃ i, i < length nets ∧ q = rate_file i
}.

(** A flow has three paths, the first is not empty, and its lines can be
    read. *)
Record flow_ok fl : Prop := {
  fo_three : length (fd_paths fl) = 3;
  fo_first : ∃ a p rest, fd_paths fl = (a :: p) :: rest;
  fo_shares : flow_data_ok fl;
  fo_rate : rate_ok (fd_rate fl)
}.
Definition nets_ok nets : Prop := Forall (λ vn, vn ≠ [] ∧ Forall flow_ok vn) nets.

Lemma rate_file_inj i j : rate_file i = rate_file j → i = j.
Proof.
  unfold rate_file. intros Heq%(f_equal last). rewrite !last_snoc in Heq. apply (inj Some), (f_equal get_nw_id) in Heq.
  rewrite !rate_name_id in Heq. injection Heq as Heq. lia.
Qed.

Lemma add_rate_file_run fs nets i vn rates :
  route_files fs nets → nets_ok nets → nets !! i = Some vn → Dict.get_default [] rates (Z.of_nat i) = [] →
  ∃ rates', add_rate_file mu sigma rates (rate_file i) fs = (Ok rates', fs)
    ∧ Dict.get_default [] rates' (Z.of_nat i) = rates_dict vn
    ∧ ∀ k, k ≠ Z.of_nat i → Dict.get_default [] rates' k = Dict.get_default [] rates k.
Proof.
  intros Hfs Hok Hi Hnone. destruct (add_rates_run (Z.of_nat i) vn rates) as (rates' & Hrun & Hr); [|done|].
  { unfold nets_ok in Hok. rewrite Forall_lookup in Hok. destruct (Hok i vn Hi) as [_ Hvn]. eapply Forall_impl; [exact Hvn|]. by intros fl []. }
  exists rates'. split; [|done]. unfold add_rate_file. assert (last (rate_file i) = Some (rate_name i)) as -> by apply last_snoc.
  rewrite (bindS_run _ _ _ (rate_name i) fs) by done. rewrite rate_name_id. rewrite (bindS_run _ _ _ (Z.of_nat i) fs) by done.
  rewrite (bindS_run _ _ _ _ fs (read_text_run _ _ _ (rf_rates _ _ Hfs _ _ Hi))). unfold lift. by rewrite Hrun.
Qed.

(** The table has the rates of every network, in whichever order the
    directory lists the files. *)
Lemma rate_table_run fs nets :
  route_files fs nets → nets_ok nets →
  ∃ rates, _construct_rate_table mu sigma route_dir fs = (Ok rates, fs)
    ∧ ∀ i vn, nets !! i = Some vn → Dict.get_default [] rates (Z.of_nat i) = rates_dict vn.
Proof.
  intros Hfs Hok. unfold _construct_rate_table. fold rate_dir. destruct (rf_dir _ _ Hfs) as [Hd Hf].
  set (L := filter (λ q, (q ≠ []) ∧ parent q = rate_dir) (map_to_list (files fs)).*1).
  assert (files_in rate_dir fs = (Ok L, fs)) as Hlist.
  { unfold files_in. rewrite Hf, bool_decide_eq_false_2 by (by intros [? ?]). by rewrite bool_decide_eq_false_2 by (intros ?; done). }
  rewrite (bindS_run _ _ _ L fs Hlist).
  assert (NoDup L) as HND by (apply NoDup_filter, NoDup_fst_map_to_list).
  assert (∀ q, q ∈ L ↔ ∃ i, i < length nets ∧ q = rate_file i) as HL.
  { intros q. unfold L. rewrite list_elem_of_filter, list_elem_of_fmap. split.
    - intros [[Hq Hp] ([q' c] & -> & Hin%elem_of_map_to_list)]. by apply (rf_only _ _ Hfs).
    - intros (i & [vn Hi]%lookup_lt_is_Some & ->). destruct (rf_rates _ _ Hfs i vn Hi) as [_ Hc]. split.
      + unfold rate_file, parent. rewrite but_last_snoc. split; [apply snoc_ne|done].
      + exists (rate_file i, Text (rate_text vn)). by rewrite elem_of_map_to_list. }
  set (inv := λ (l1 : list path) rates, ∀ i vn, nets !! i = Some vn →
    Dict.get_default [] rates (Z.of_nat i) = if decide (rate_file i ∈ l1) then rates_dict vn else []).
  enough (∀ l2 l1 rates, L = l1 ++ l2 → inv l1 rates → ∃ rates', foldS (add_rate_file mu sigma) rates l2 fs = (Ok rates', fs) ∧ inv L rates') as Hfold.
  { destruct (Hfold L [] []) as (rates & Hrun & Hinv); [done|done|]. exists rates. split; [done|]. intros i vn Hi. rewrite (Hinv i vn Hi).
    rewrite decide_True; [done|]. apply HL. exists i. by apply lookup_lt_Some in Hi. }
  induction l2 as [|q l2 IH]; intros l1 rates HLeq Hinv; [exists rates; by rewrite HLeq, app_nil_r|].
  destruct (proj1 (HL q) ltac:(rewrite HLeq; set_solver)) as (i & [vn Hi]%lookup_lt_is_Some & ->).
  rewrite HLeq in HND. apply NoDup_app in HND as (_ & Hnot & _). assert (rate_file i ∉ l1) as Hni by set_solver.
  destruct (add_rate_file_run fs nets i vn rates Hfs Hok Hi) as (rates' & Hrun & Hvn & Hother).
  { by rewrite (Hinv i vn Hi), decide_False. }
  cbn [foldS]. rewrite (bindS_run _ _ _ rates' fs Hrun). apply (IH (l1 ++ [rate_file i])); [by rewrite <-app_assoc|].
  intros k vk Hk. destruct (decide (k = i)) as [->|Hne].
  - rewrite decide_True by set_solver. congruence.
  - rewrite Hother by lia. rewrite (Hinv k vk Hk). apply decide_ext. rewrite elem_of_app, list_elem_of_singleton.
    split; [by left|]. intros [?|Heq%rate_file_inj]; [done|lia].
Qed.

(** ** The flow definitions *)

(** The ends of the first path, numbered from one, the fractions and the
    scaled rate. *)
Definition flow_def_of fl : Z * Z * list F * (F * F) :=
  let p := default [] (head (fd_paths fl)) in
  (default 0 (head p) + 1, default 0 (last p) + 1, (fd_shares fl).*2, scaled_rate fl)%Z.
Definition net_defs vn := flow_def_of <$> vn.

Lemma get_indexed {A B} (f : A → B) (l : list A) j x :
  l !! j = Some x → Dict.get ((λ ix, (Z.of_nat ix.1, f ix.2)) <$> enumerate l) (Z.of_nat j) = Some (f x).
Proof.
  intros Hj. apply Dict.elem_of_get.
  - unfold Dict.wf, Dict.keys. assert (((λ ix, (Z.of_nat ix.1, f ix.2)) <$> enumerate l).*1 = Z.of_nat <$> (enumerate l).*1) as ->
      by (by rewrite <-!list_fmap_compose).
    rewrite fst_enumerate. apply (NoDup_fmap_2 _), NoDup_seq.
  - apply list_elem_of_fmap. exists (j, x). split; [done|]. by apply elem_of_enumerate.
Qed.

Lemma values_shares fl : Dict.values (shares_dict fl) = (fd_shares fl).*2.
Proof.
  unfold Dict.values, shares_dict. rewrite <-list_fmap_compose. rewrite <-(snd_enumerate (fd_shares fl)) at 2. by rewrite <-list_fmap_compose.
Qed.

Lemma last_shift p : last (shift p) = (λ z, z + 1)%Z <$> last p.
Proof. apply fmap_last. Qed.

Lemma add_flow_def_run tx_rates i j vn fl defs rest :
  vn !! j = Some fl → flow_ok fl → Dict.get_default [] tx_rates i = rates_dict vn →
  add_flow_def tx_rates i (defs, routes_of (fd_paths fl) ++ rest) (Z.of_nat j, shares_dict fl)
  = Ok (defs ++ [flow_def_of fl], rest).
Proof.
  intros Hj [H3 (a & p & ps & Hps) _ _] Hr. unfold add_flow_def.
  assert (py_index (routes_of (fd_paths fl) ++ rest) 0 = Ok (0%Z, shift (a :: p))) as -> by (by rewrite Hps).
  cbn [mbind res_bind fst snd]. change (py_index (shift (a :: p)) 0) with (Ok (a + 1)%Z). cbn [mbind res_bind].
  destruct (last (a :: p)) as [z|] eqn:Hz; [|by apply last_None in Hz].
  rewrite (py_index_last (shift (a :: p)) (z + 1)%Z) by (by rewrite last_shift, Hz). cbn [mbind res_bind].
  rewrite Hr. unfold Dict.getitem, rates_dict. rewrite (get_indexed scaled_rate _ _ _ Hj). cbn [or_raise mbind res_bind].
  rewrite values_shares, drop_app_length' by (unfold routes_of; by rewrite length_fmap, length_enumerate).
  unfold flow_def_of. rewrite Hps. change (default [] (head ((a :: p) :: ps))) with (a :: p). by rewrite Hz.
Qed.

Lemma add_flow_defs_run tx_rates i vn jfls defs rest :
  Forall (λ jfl, vn !! jfl.1 = Some jfl.2 ∧ flow_ok jfl.2) jfls → Dict.get_default [] tx_rates i = rates_dict vn →
  foldM (add_flow_def tx_rates i) (defs, net_routes jfls.*2 ++ rest) ((λ jfl, (Z.of_nat jfl.1, shares_dict jfl.2)) <$> jfls)
  = Ok (defs ++ net_defs jfls.*2, rest).
Proof.
  intros Hall Hr. revert defs. induction Hall as [|[j fl] jfls [Hj Hfl] _ IH]; intros defs; [by rewrite app_nil_r|].
  unfold net_routes. rewrite !fmap_cons. cbn [fst snd concat foldM] in *. rewrite <-app_assoc.
  rewrite (add_flow_def_run _ _ _ vn) by done. cbn [mbind res_bind]. fold (net_routes jfls.*2). rewrite IH. by rewrite <-app_assoc.
Qed.

Lemma net_flow_defs_run tx_rates (ivns : list (nat * list FlowData)) defs :
  Forall (λ ivn, Forall flow_ok ivn.2 ∧ Dict.get_default [] tx_rates (Z.of_nat ivn.1) = rates_dict ivn.2) ivns →
  foldM (λ acc '(net_id, net_flows), foldM (add_flow_def tx_rates net_id) acc net_flows)
    (defs, concat (net_routes <$> ivns.*2)) ((λ ivn, (Z.of_nat ivn.1, flows_dict ivn.2)) <$> ivns)
  = Ok (defs ++ concat (net_defs <$> ivns.*2), []).
Proof.
  intros Hall. revert defs. induction Hall as [|[i vn] ivns [Hvn Hr] _ IH]; intros defs; [by rewrite app_nil_r|].
  rewrite !fmap_cons. cbn [fst snd concat foldM] in *. unfold flows_dict at 1. rewrite <-(snd_enumerate vn) at 1.
  rewrite (add_flow_defs_run _ _ vn); [|clear IH|done].
  - cbn [mbind res_bind]. rewrite IH, snd_enumerate. by rewrite <-app_assoc.
  - apply Forall_forall. intros [j fl] Hin%elem_of_enumerate. split; [done|]. rewrite Forall_lookup in Hvn. by apply (Hvn j).
Qed.

End files.

#[local] Arguments FlowData : clear implicits.

(** ** The first two networks of prob_mean_1_sigma_1.0/seed_4065 *)

Definition read_share (t : string) : string * spec_float :=
  (t, match py_float (t +:+ String newline EmptyString) with Ok x => x | Raise _ => f_of_Z 0 end).
Definition read_rate (t : string) : string * (Z * spec_float) :=
  (t, match get_flow_params (t +:+ String newline EmptyString) with Ok x => x | Raise _ => (0%Z, f_of_Z 0) end).

Definition demo_nets : list (list (FlowData spec_float)) :=
  [ [ mkFlowData [[1; 10]; [1; 0; 10]; [1; 2; 3; 9; 10]]%Z (read_share <$> ["1.0"; "0.0"; "0.0"]%string)
        (read_rate "Link 0,1 with (mu,sigma): 1,0.0");
      mkFlowData [[10; 9]; [10; 1; 2; 3; 9]; [10; 0; 1; 2; 3; 9]]%Z
        (read_share <$> ["0.954393251660033"; "0.022503637643701786"; "0.023103110696266367"]%string)
        (read_rate "Link 1,2 with (mu,sigma): 1,0.0") ];
    [ mkFlowData [[5; 4; 3]; [5; 4; 8; 9; 3]; [5; 6; 7; 8; 4; 3]]%Z
        (read_share <$> ["0.38912478201851497"; "0.31425214356104914"; "0.29662307442043584"]%string)
        (read_rate "Link 0,1 with (mu,sigma): 2,2.0") ] ].

Definition demo_files : list (path * content) :=
  [ (["trial"; "Paths_seed_4065.txt"]%string, Text (paths_text demo_nets));
    (["trial"; "X_matrix_seed_4065.txt"]%string, Text (x_text demo_nets));
    (["trial"; "rate_files"; "VN_req_1_info.txt"]%string, Text (rate_text (demo_nets !!! 1)));
    (["trial"; "rate_files"; "VN_req_0_info.txt"]%string, Text (rate_text (demo_nets !!! 0))) ].
Definition demo_fs : fsys := mkFsys {[ ["trial"%string]; ["trial"; "rate_files"]%string ]} (list_to_map demo_files).

Lemma demo_nets_ok : nets_ok demo_nets.
Proof.
  repeat constructor; cbn; try done; try (by vm_compute); by eexists _, _, _.
Qed.

Lemma demo_route_files : route_files "4065" ["trial"%string] demo_fs demo_nets.
Proof.
  assert (∀ p t, (p, Text t) ∈ demo_files → p ∉ dirs demo_fs → has_text demo_fs p t) as Htext.
  { intros p t Hin Hd. split; [done|]. apply elem_of_list_to_map_1; [|done].
    apply (bool_decide_unpack (NoDup demo_files.*1)). by vm_compute. }
  assert (∀ n p, demo_files.*1 !! n = Some p → p ∉ dirs demo_fs) as Hdirs.
  { intros n p Hn%list_elem_of_lookup_2. revert p Hn. apply Forall_forall.
    apply (bool_decide_unpack (Forall (λ p, p ∉ dirs demo_fs) demo_files.*1)). by vm_compute. }
  split.
  - change (has_text demo_fs ["trial"; "Paths_seed_4065.txt"]%string (paths_text demo_nets)).
    apply Htext; [by left|by apply (Hdirs 0)].
  - change (has_text demo_fs ["trial"; "X_matrix_seed_4065.txt"]%string (x_text demo_nets)).
    apply Htext; [right; by left|by apply (Hdirs 1)].
  - change (rate_dir ["trial"%string]) with ["trial"; "rate_files"]%string. by vm_compute.
  - intros [|[|i]] vn Hi; [| |done]; injection Hi as <-.
    + change (rate_file ["trial"%string] 0) with ["trial"; "rate_files"; "VN_req_0_info.txt"]%string.
      apply Htext; [do 3 right; by left|by apply (Hdirs 3)].
    + change (rate_file ["trial"%string] 1) with ["trial"; "rate_files"; "VN_req_1_info.txt"]%string.
      apply Htext; [do 2 right; by left|by apply (Hdirs 2)].
  - intros q [c Hq%elem_of_list_to_map_2] _. unfold demo_files in Hq. rewrite !elem_of_cons, elem_of_nil in Hq.
    destruct Hq as [Hq|[Hq|[Hq|[Hq|[]]]]]; injection Hq as -> _; [done|done|exists 1|exists 0]; (split; [cbn; lia|done]).
Qed.

