(* ===== verification/TuitiTrial.v ===== *)
(** The trials of the mininet experiments (tuiti/tuiti_trial.py): they are
    made from the solutions of an external solver, which allocates volumes
    of bulk transfers to the time slots of every path.

    The pickled class [TrialParameters] is not part of the repository; the
    record below has the members that are read, and those that are only
    passed on are values. Unpickling, networkx and [random.randint] are
    parameters. The objects that are parameters of a trial live in a heap. *)

From Stdlib Require Import Ascii.
From S2P Require Import Prelude PyDict PyStr PyFloat PyText Accum TrialStore FileParsing.
Close Scope string_scope.

Record TrialParameters (F : Type) : Type := mkTrialParameters {
  tp_trial_type : string;
  (** path, request, time slot *)
  tp_flow_allocations : list (list (list F));
  (** path, second *)
  tp_path_capacities : list (list F);
  tp_number_of_paths : Z;
  tp_number_of_timeslots : Z;
  tp_duration_of_timeslot_in_seconds : Z;
  tp_trial_duration : value;
  tp_maximum_bandwidth_variation : value;
  tp_flow_arrival_rate : value;
  tp_mean_flow_duration : value;
  tp_mean_flow_demand : value;
  tp_number_of_admitted_flows : value;
  tp_number_of_successful_flows : value;
  tp_flow_bandwidth_requirements : list value;
  tp_deviation_mode : value;
  (** of an [EbTrialParameters] *)
  tp_confidence_interval : option value
}.
Arguments tp_trial_type {F} _.
Arguments tp_flow_allocations {F} _.
Arguments tp_path_capacities {F} _.
Arguments tp_number_of_paths {F} _.
Arguments tp_number_of_timeslots {F} _.
Arguments tp_duration_of_timeslot_in_seconds {F} _.
Arguments tp_trial_duration {F} _.
Arguments tp_maximum_bandwidth_variation {F} _.
Arguments tp_flow_arrival_rate {F} _.
Arguments tp_mean_flow_duration {F} _.
Arguments tp_mean_flow_demand {F} _.
Arguments tp_number_of_admitted_flows {F} _.
Arguments tp_number_of_successful_flows {F} _.
Arguments tp_flow_bandwidth_requirements {F} _.
Arguments tp_deviation_mode {F} _.
Arguments tp_confidence_interval {F} _.

(** A [Flow] with one rate per second. *)
Record TuitiFlow (F : Type) : Type := mkTuitiFlow {
  tf_source_node : Z;
  tf_destination_node : Z;
  tf_flow_tx_rate : list F;
  tf_paths : list (list Z);
  tf_splitting_ratio : list F
}.
Arguments mkTuitiFlow {F} _ _ _ _ _.
Arguments tf_source_node {F} _.
Arguments tf_destination_node {F} _.
Arguments tf_flow_tx_rate {F} _.
Arguments tf_paths {F} _.
Arguments tf_splitting_ratio {F} _.

Inductive tuiti_object (F : Type) : Type :=
  | TFloat (x : F)
  | TRequirements (d : dict nat value)
  | TFlowSet (flows : list (TuitiFlow F))
  | TCapacities (l : list (list F)).
Arguments TFloat {F} _.
Arguments TRequirements {F} _.
Arguments TFlowSet {F} _.
Arguments TCapacities {F} _.

(** [max(l)] and [min(l)] *)
Definition py_max {F} `{PyFloat F} (l : list F) : res F :=
  match l with [] => Raise ValueError | x :: l => Ok (foldl (λ m y, if flt m y then y else m) x l) end.
Definition py_min {F} `{PyFloat F} (l : list F) : res F :=
  match l with [] => Raise ValueError | x :: l => Ok (foldl (λ m y, if flt y m then y else m) x l) end.

(** [p.suffix] of a path with the last component [name]. *)
Definition path_suffix (name : string) : string :=
  match rev (str_split dot name) with
  | ext :: _ :: _ as l =>
      if bool_decide (ext = EmptyString ∨ tail l = [EmptyString]) then EmptyString else String dot ext
  | _ => EmptyString
  end.

Section trial.
Context {F RNG G : Type} `{PyFloat F}.
Variable randint : Z → Z → M RNG Z.
Variable node_disjoint_paths : G → Z → Z → res (list (list Z)).
Variable unpickle : path → res (TrialParameters F).
Abbreviation State := (list (tuiti_object F) * RNG)%type.

Definition TX_RATE_SCALING_FACTOR : F := f_of_Z 10000.

(** One request adds its volumes to the slots of the path. *)
Definition add_request (slots : dict nat F) (volumes : list F) : dict nat F :=
  foldl (λ slots kx, add_default slots kx.1 (fmul TX_RATE_SCALING_FACTOR kx.2)) slots (enumerate volumes).

Definition prune_flow_allocations_list (flow_allocations : list (list (list F))) : dict nat (list F) :=
  (λ p : nat * list (list F), (p.1, Dict.values (foldl add_request [] p.2))) <$> enumerate flow_allocations.

Definition prune_path_capacity_list (path_capacities : list (list F)) : dict nat (list F) :=
  (λ p : nat * list F, (p.1, (λ tx_rate, fmul tx_rate TX_RATE_SCALING_FACTOR) <$> p.2)) <$> enumerate path_capacities.

(** [(50 / 8) * 2**20] *)
Definition total_path_volume_per_second : F := fmul (fquot (f_of_Z 50) (f_of_Z 8)) (f_of_Z (2 ^ 20)).

(** The factors, all [1.0], and the last [scaling_factor], which is only
    recorded. *)
Definition scaling_step (tp : TrialParameters F) (path_capacities : dict nat (list F)) (acc : dict nat F * option F)
    (path_id : nat) : res (dict nat F * option F) :=
  let total_path_volume := fmul (fmul total_path_volume_per_second (f_of_Z (tp_number_of_timeslots tp)))
    (f_of_Z (tp_duration_of_timeslot_in_seconds tp)) in
  capacities ← Dict.getitem path_capacities path_id;
  max_remaining_capacity ← py_max capacities;
  let trial_duration := (tp_duration_of_timeslot_in_seconds tp * tp_number_of_timeslots tp)%Z in
  let total_remaining_capacity := fmul max_remaining_capacity (f_of_Z trial_duration) in
  scaling_factor ← fdiv (fmul (flit 85 100) total_path_volume) total_remaining_capacity;
  Ok (Dict.set acc.1 path_id fone, Some scaling_factor).

(** [[x] * n] *)
Definition repeat_list {A} (x : A) (n : Z) : list A := replicate (Z.to_nat n) x.

(** The rate of a slot. *)
Definition slot_rate (tp : TrialParameters F) (scaling_factors : dict nat F) (path_id : nat) (tx_rate : F) : res F :=
  factor ← Dict.getitem scaling_factors path_id;
  fdiv (fmul tx_rate factor) (f_of_Z (tp_duration_of_timeslot_in_seconds tp)).

Definition mk_flow (tp : TrialParameters F) (disjoint_paths : list (list Z)) (rates : list F) : TuitiFlow F :=
  mkTuitiFlow 0 1 rates disjoint_paths (repeat_list fzero (tp_number_of_paths tp)).

Definition bulk_flow (tp : TrialParameters F) (scaling_factors : dict nat F) (disjoint_paths : list (list Z))
    (entry : nat * list F) : res (TuitiFlow F) :=
  rates ← mapR (slot_rate tp scaling_factors entry.1) entry.2;
  Ok (mk_flow tp disjoint_paths (concat ((λ x, repeat_list x (tp_duration_of_timeslot_in_seconds tp)) <$> rates))).

Definition background_flow (tp : TrialParameters F) (scaling_factors : dict nat F) (disjoint_paths : list (list Z))
    (entry : nat * list F) : res (TuitiFlow F * list F) :=
  _ ← py_max entry.2;
  _ ← py_min entry.2;
  scaled ← mapR (slot_rate tp scaling_factors entry.1) entry.2;
  let d := tp_duration_of_timeslot_in_seconds tp in
  Ok (mk_flow tp disjoint_paths (concat ((λ x, repeat_list (fsub total_path_volume_per_second x) d) <$> scaled)),
      concat ((λ x, repeat_list x d) <$> scaled)).

(** An object is put on the heap. *)
Definition add_object_parameter (t : Trial) (name : string) (o : tuiti_object F) : M State Trial := λ s,
  match add_parameter t name (VObj (length s.1)) with
  | Ok t => (Ok t, (s.1 ++ [o], s.2))
  | Raise e => (Raise e, s)
  end.
Definition add_value_parameters (t : Trial) (ps : list (string * value)) : res Trial :=
  foldM (λ t kv, add_parameter t kv.1 kv.2) t ps.

Local Open Scope string_scope.

(** The parameters that are passed on. *)
Definition passed_on (tp : TrialParameters F) : list (string * value) :=
  [("duration", tp_trial_duration tp);
   ("seed-number", VStr "1234");
   ("timeslot-duration", VInt (tp_duration_of_timeslot_in_seconds tp));
   ("number-of-timeslots", VInt (tp_number_of_timeslots tp));
   ("maximum-bandwidth-variation", tp_maximum_bandwidth_variation tp);
   ("flow-arrival-rate", tp_flow_arrival_rate tp);
   ("mean-flow-duration", tp_mean_flow_duration tp);
   ("mean-flow-demand", tp_mean_flow_demand tp);
   ("number-of-admitted-flows", tp_number_of_admitted_flows tp);
   ("number-of-successful-flows", tp_number_of_successful_flows tp);
   ("number-of-paths", VInt (tp_number_of_paths tp))].

Definition from_trial_parameters (oid : nat) (tp : TrialParameters F) (network_topology : G) : M State Trial :=
  let flow_allocations := prune_flow_allocations_list (tp_flow_allocations tp) in
  let path_capacities := prune_path_capacity_list (tp_path_capacities tp) in
  disjoint_paths ← lift (node_disjoint_paths network_topology 0 1);
  if bool_decide (Z.of_nat (length disjoint_paths) < tp_number_of_paths tp)%Z then lift (Raise ValueError)
  else
    rand_id ← on_world (randint 0 (2 ^ 64));
    the_trial ← lift (add_value_parameters (init_trial oid (tp_trial_type tp) rand_id) (passed_on tp));
    the_trial ← add_object_parameter the_trial "flow-bandwidth-requirements"
      (TRequirements (enumerate (tp_flow_bandwidth_requirements tp)));
    the_trial ← lift (add_parameter the_trial "deviation-mode" (tp_deviation_mode tp));
    the_trial ← lift (match tp_confidence_interval tp with
                      | Some c => add_parameter the_trial "confidence-interval" c
                      | None => Ok the_trial
                      end);
    '(scaling_factors, scaling_factor) ← lift (foldM (scaling_step tp path_capacities) ([], None) (Dict.keys flow_allocations));
    flow_set ← lift (mapR (bulk_flow tp scaling_factors disjoint_paths) flow_allocations);
    the_trial ← add_object_parameter the_trial "flow-set" (TFlowSet flow_set);
    background ← lift (mapR (background_flow tp scaling_factors disjoint_paths) path_capacities);
    the_trial ← add_object_parameter the_trial "background-traffic-flow-set" (TFlowSet background.*1);
    scaling_factor ← lift (or_raise NameError scaling_factor);
    the_trial ← add_object_parameter the_trial "transfer-volume-scaling-factor" (TFloat scaling_factor);
    the_trial ← add_object_parameter the_trial "expected-path-bandwidth-in-bytes-per-second" (TFloat total_path_volume_per_second);
    add_object_parameter the_trial "remaining-capacities" (TCapacities background.*2).

Definition from_solver_file (oid : nat) (p : path) (network_topology : G) : M State Trial :=
  trial_parameters ← lift (unpickle p);
  from_trial_parameters oid trial_parameters network_topology.

(** The files of the directory that end in [.p]; the identity of a trial is
    its position. *)
Definition batch_from_directory (fs : fsys) (p : path) (network_topology : G) : M State (list Trial) :=
  all_files ← lift (files_in p fs).1;
  foldS (λ trials trial_file, t ← from_solver_file (length trials) trial_file network_topology; mret (trials ++ [t])%list)
    [] (filter (λ q, path_suffix (default EmptyString (last q)) = ".p") all_files).
End trial.
