(* ===== verification/TuitiTrialProps.v ===== *)
(** The rates of the mininet trials: every flow sends the volume that was
    allocated to its path, slot by slot, and the background traffic fills
    what is not left as capacity. *)

From Stdlib Require Import Ascii QArith Qcanon Lqa.
From S2P Require Import Prelude PyDict PyStr PyFloat PyText Accum TrialStore FileParsing TuitiTrial.
Close Scope Q_scope.
Close Scope Qc_scope.

(** * Tables of slots *)

(** The dictionary of the values of [f] below [n]. *)
Definition table {V} (n : nat) (f : nat → V) : dict nat V := (λ k, (k, f k)) <$> seq 0 n.

Lemma table_S {V} n (f : nat → V) : table (S n) f = table n f ++ [(n, f n)].
Proof. unfold table. by rewrite seq_S, fmap_app. Qed.
Lemma keys_table {V} n (f : nat → V) : Dict.keys (table n f) = seq 0 n.
Proof. unfold Dict.keys, table. rewrite <-list_fmap_compose. apply list_fmap_id. Qed.
Lemma values_table {V} n (f : nat → V) : Dict.values (table n f) = f <$> seq 0 n.
Proof. unfold Dict.values, table. by rewrite <-list_fmap_compose. Qed.
Lemma table_ext {V} n (f g : nat → V) : (∀ k, k < n → f k = g k) → table n f = table n g.
Proof. intros Hfg. apply list_fmap_ext. intros i k [-> Hk]%lookup_seq. cbn. by rewrite Hfg. Qed.
Lemma get_table {V} n (f : nat → V) k : Dict.get (table n f) k = if decide (k < n) then Some (f k) else None.
Proof.
  case_decide as Hk.
  - apply Dict.elem_of_get; [unfold Dict.wf; rewrite keys_table; apply NoDup_seq|]. apply list_elem_of_fmap. exists k.
    split; [done|]. apply elem_of_seq. lia.
  - apply Dict.get_None. rewrite keys_table, elem_of_seq. lia.
Qed.

(** Setting an entry, or the next one. *)
Definition upd {V} (f : nat → V) (k : nat) (v : V) : nat → V := λ j, if decide (j = k) then v else f j.
Lemma set_table {V} n (f : nat → V) k v : k ≤ n → Dict.set (table n f) k v = table (Nat.max n (S k)) (upd f k v).
Proof.
  intros Hk. destruct (decide (k = n)) as [->|Hne].
  - replace (Nat.max n (S n)) with (S n) by lia. rewrite table_S, Dict.set_new by (rewrite get_table, decide_False; [done|lia]).
    unfold upd at 2. rewrite decide_True by done. f_equal. apply table_ext. intros j Hj. unfold upd. rewrite decide_False; [done|lia].
  - replace (Nat.max n (S k)) with n by lia. assert (k < n) as Hlt by lia. clear Hk Hne.
    induction n as [|n IH]; [lia|]. rewrite !table_S. destruct (decide (k = n)) as [->|Hne].
    + rewrite (table_ext n (upd f n v) f) by (intros j Hj; unfold upd; rewrite decide_False; [done|lia]).
      unfold upd. rewrite decide_True by done. clear. assert (n ∉ Dict.keys (table n f)) as Hn by (rewrite keys_table, elem_of_seq; lia).
      induction (table n f) as [|[j w] d IH]; cbn; [by rewrite decide_True|]. unfold Dict.keys in Hn. rewrite fmap_cons, not_elem_of_cons in Hn. cbn in Hn.
      rewrite decide_False by naive_solver. rewrite IH by naive_solver. done.
    + unfold upd at 2. rewrite decide_False by lia. rewrite <-IH by lia. assert (k ∈ Dict.keys (table n f)) as Hin by (rewrite keys_table, elem_of_seq; lia).
      clear -Hin. induction (table n f) as [|[j w] d IH]; [set_solver|]. unfold Dict.keys in Hin. rewrite fmap_cons, elem_of_cons in Hin. cbn in *.
      case_decide; [done|]. rewrite IH; [done|]. naive_solver.
Qed.

(** * Volumes *)

Definition slot_volume (requests : list (list Qc)) (k : nat) : Qc := fsum ((λ r, default fzero (r !! k)) <$> requests).
Definition slots (requests : list (list Qc)) : nat := foldr Nat.max 0 (length <$> requests).
Definition scale : Qc := f_of_Z 10000.

Lemma add_request_table n (f : nat → Qc) volumes :
  (∀ k, n ≤ k → f k = fzero) →
  add_request (table n f) volumes = table (Nat.max n (length volumes)) (λ k, f k + scale * default fzero (volumes !! k))%Qc.
Proof.
  intros Hf. unfold add_request. induction volumes as [|x volumes IH] using rev_ind.
  - replace (Nat.max n (length (@nil Qc))) with n by (cbn; lia). apply table_ext. intros k _. cbn. by rewrite Qcmult_0_r, exact_add_0_r.
  - rewrite enumerate_snoc, foldl_app, IH. cbn [foldl fst snd]. unfold add_default.
    set (m := length volumes). set (g := λ k, _ : Qc). assert (Dict.get_default fzero (table (Nat.max n m) g) m = f m) as ->.
    { unfold Dict.get_default. rewrite get_table. case_decide as Hm; cbn [default from_option].
      - unfold g. rewrite lookup_ge_None_2 by (unfold m; lia). cbn. by rewrite Qcmult_0_r, exact_add_0_r.
      - symmetry. apply Hf. lia. }
    rewrite set_table by lia. rewrite length_app. cbn [length]. fold m.
    replace (Nat.max (Nat.max n m) (S m)) with (Nat.max n (m + 1)) by lia. apply table_ext. intros k Hk. unfold upd.
    destruct (decide (k = m)) as [->|Hne].
    + unfold m. rewrite lookup_app_r, Nat.sub_diag by lia. done.
    + unfold g. destruct (decide (k < m)) as [Hlt|Hge].
      * by rewrite lookup_app_l by (unfold m in Hlt; lia).
      * rewrite !lookup_ge_None_2; [done|..]; rewrite ?length_app; cbn [length]; unfold m in *; lia.
Qed.

Lemma slots_cons r requests : slots (r :: requests) = Nat.max (length r) (slots requests).
Proof. done. Qed.

Lemma slot_volume_out requests k : slots requests ≤ k → slot_volume requests k = fzero.
Proof.
  unfold slot_volume. induction requests as [|r requests IH]; [done|]. rewrite slots_cons, fmap_cons, fsum_cons. intros Hk.
  rewrite IH by lia. rewrite lookup_ge_None_2 by lia. apply exact_add_0_r.
Qed.

Lemma requests_table requests : foldl add_request [] requests = table (slots requests) (λ k, scale * slot_volume requests k)%Qc.
Proof.
  induction requests as [|r requests IH] using rev_ind; [done|]. rewrite foldl_app, IH. cbn [foldl]. rewrite add_request_table.
  - assert (slots (requests ++ [r]) = Nat.max (slots requests) (length r)) as ->.
    { clear. induction requests as [|q requests IH]; [cbn; lia|]. cbn [app]. rewrite !slots_cons, IH. lia. }
    apply table_ext. intros k _. unfold slot_volume. rewrite fmap_app, fsum_app. cbn [fmap list_fmap]. rewrite fsum_cons, fsum_nil, exact_add_0_r.
    by rewrite Qcmult_plus_distr_r.
  - intros k Hk. rewrite slot_volume_out by done. apply Qcmult_0_r.
Qed.

(** [enumerate] with a function of the items. *)
Lemma pruned_flows fa :
  prune_flow_allocations_list fa = imap (λ i requests, (i, (λ k, scale * slot_volume requests k)%Qc <$> seq 0 (slots requests))) fa.
Proof.
  unfold prune_flow_allocations_list, enumerate. rewrite fmap_imap. apply imap_ext. intros i requests _. unfold compose. cbn [fst snd].
  by rewrite requests_table, values_table.
Qed.
Lemma pruned_capacities pc :
  prune_path_capacity_list pc = imap (λ i caps, (i, (λ c, c * scale)%Qc <$> caps)) pc.
Proof. unfold prune_path_capacity_list, enumerate. by rewrite fmap_imap. Qed.

(** * The factors *)

Lemma foldl_max_ge (l : list Qc) x : (x ≤ foldl (λ m y, if flt m y then y else m) x l)%Qc.
Proof.
  revert x. induction l as [|y l IH]; intros x; cbn [foldl]; [apply Qcle_refl|].
  eapply Qcle_trans; [|apply IH]. destruct (flt x y) eqn:E; [|apply Qcle_refl]. apply flt_exact_true in E. by apply Qclt_le_weak.
Qed.
Lemma py_max_pos (l : list Qc) : Exists (λ x, 0 < x)%Qc l → ∃ m, py_max l = Ok m ∧ (0 < m)%Qc.
Proof.
  intros Hl. destruct l as [|x l]; [by apply Exists_nil in Hl|]. eexists. split; [done|]. revert x Hl.
  induction l as [|y l IH]; intros x Hl; cbn [foldl].
  - by apply Exists_cons in Hl as [?|?%Exists_nil].
  - apply IH. apply Exists_cons. destruct (flt x y) eqn:E.
    + apply flt_exact_true in E. rewrite !Exists_cons in Hl. destruct Hl as [Hx|[Hy|Hl]]; [|by left|by right].
      left. by eapply Qclt_trans.
    + apply flt_exact_false in E. rewrite !Exists_cons in Hl. destruct Hl as [Hx|[Hy|Hl]]; [by left| |by right].
      left. eapply Qclt_le_trans; [exact Hy|]. done.
Qed.

Record solvable (tp : TrialParameters Qc) : Prop := {
  so_duration : (0 < tp_duration_of_timeslot_in_seconds tp)%Z;
  so_slots : (0 < tp_number_of_timeslots tp)%Z;
  so_some : tp_flow_allocations tp ≠ [];
  so_lengths : length (tp_flow_allocations tp) = length (tp_path_capacities tp);
  so_capacities : Forall (Exists (λ c, 0 < c)%Qc) (tp_path_capacities tp)
}.

Lemma of_Z_pos z : (0 < z)%Z → (0 < f_of_Z (F:=Qc) z)%Qc.
Proof. intros Hz. unfold Qclt. rewrite this_of_Z. change (this 0%Qc) with (inject_Z 0). by rewrite <-Zlt_Qlt. Qed.
Lemma Qc_pos_mul a b : (0 < a → 0 < b → 0 < a * b)%Qc.
Proof. intros Ha Hb. rewrite <-(Qcmult_0_l b). by apply Qcmult_lt_compat_r. Qed.
Lemma fdiv_pos (a b : Qc) : (0 < b)%Qc → fdiv a b = Ok (a / b)%Qc.
Proof.
  intros Hb. unfold fdiv. destruct (feq b fzero) eqn:E; [|done]. apply feq_exact_true in E. subst b. by apply Qclt_not_eq in Hb.
Qed.

Lemma getitem_table {V} n (f : nat → V) k : k < n → Dict.getitem (table n f) k = Ok (f k).
Proof. intros Hk. unfold Dict.getitem. by rewrite get_table, decide_True. Qed.

Lemma get_pruned_capacities pc i caps :
  pc !! i = Some caps → Dict.getitem (prune_path_capacity_list (F:=Qc) pc) i = Ok ((λ c, c * scale)%Qc <$> caps).
Proof.
  intros Hi. unfold Dict.getitem. rewrite pruned_capacities. rewrite (Dict.elem_of_get _ i ((λ c, c * scale)%Qc <$> caps)); [done|..].
  - unfold Dict.wf, Dict.keys. rewrite fmap_imap. rewrite (imap_ext _ (λ n x, (enumerate pc).*1 !!! n)).
    2: { intros n x Hn. unfold compose. cbn. rewrite fst_enumerate. rewrite list_lookup_total_alt. rewrite lookup_seq_lt; [done|]. by apply lookup_lt_Some in Hn. }
    assert (imap (λ n (_ : list Qc), (enumerate pc).*1 !!! n) pc = (enumerate pc).*1) as ->.
    { apply list_eq. intros k. rewrite list_lookup_imap, list_lookup_fmap, lookup_enumerate. destruct (pc !! k) as [x|] eqn:E; [|done]. cbn.
      rewrite list_lookup_total_alt, list_lookup_fmap, lookup_enumerate, E. done. }
    rewrite fst_enumerate. apply NoDup_seq.
  - apply list_elem_of_lookup. exists i. by rewrite list_lookup_imap, Hi.
Qed.

Lemma scaling_run tp n :
  solvable tp → n ≤ length (tp_path_capacities tp) →
  ∃ o, foldM (scaling_step tp (prune_path_capacity_list (tp_path_capacities tp))) ([], None) (seq 0 n) = Ok (table n (λ _, fone), o)
    ∧ (0 < n → is_Some o).
Proof.
  intros Hs. induction n as [|n IH]; intros Hn; [exists None; split; [done|lia]|].
  destruct IH as (o & Hrun & _); [lia|]. rewrite seq_S, foldM_app, Hrun. cbn [mbind res_bind foldM Nat.add].
  destruct (lookup_lt_is_Some_2 (tp_path_capacities tp) n ltac:(lia)) as [caps Hcaps].
  unfold scaling_step at 1. rewrite (get_pruned_capacities _ _ _ Hcaps). cbn [mbind res_bind fst snd].
  destruct (py_max_pos ((λ c, c * scale)%Qc <$> caps)) as (m & Hm & Hpos).
  { pose proof (so_capacities _ Hs) as Hall. rewrite Forall_lookup in Hall. specialize (Hall _ _ Hcaps).
    apply Exists_exists in Hall as (c & Hc & Hpos). apply Exists_exists. exists (c * scale)%Qc. split; [apply list_elem_of_fmap; by exists c|].
    apply Qc_pos_mul; [done|]. by apply of_Z_pos. }
  rewrite Hm. cbn [mbind res_bind]. rewrite fdiv_pos.
  - cbn [mbind res_bind]. eexists. split; [|by eexists]. rewrite set_table by lia. replace (Nat.max n (S n)) with (S n) by lia.
    f_equal. f_equal. apply table_ext. intros k _. unfold upd. by case_decide.
  - apply Qc_pos_mul; [done|]. apply of_Z_pos. pose proof (so_duration _ Hs). pose proof (so_slots _ Hs). lia.
Qed.

(** * The flows *)

Section flows.
Variable tp : TrialParameters Qc.
Hypothesis tp_ok : solvable tp.
Let d : Qc := f_of_Z (tp_duration_of_timeslot_in_seconds tp).

(** The rates of the seconds of the slots. *)
Definition per_second (rates : list Qc) : list Qc := concat ((λ x, repeat_list x (tp_duration_of_timeslot_in_seconds tp)) <$> rates).

Lemma slot_rates n i xs : i < n →
  mapR (slot_rate tp (table n (λ _, fone)) i) xs = Ok ((λ x, x / d)%Qc <$> xs).
Proof.
  intros Hi. apply mapR_all_Ok. intros x _. unfold slot_rate. rewrite getitem_table by done. cbn [mbind res_bind].
  rewrite fdiv_pos by (apply of_Z_pos, (so_duration _ tp_ok)). f_equal. f_equal. apply Qcmult_1_r.
Qed.

Lemma per_second_total rates : fsum (per_second ((λ x, x / d)%Qc <$> rates)) = fsum rates.
Proof.
  unfold per_second. induction rates as [|x rates IH]; [done|]. rewrite !fmap_cons. cbn [concat]. rewrite fsum_app, fsum_cons, IH. f_equal.
  unfold repeat_list. rewrite fsum_replicate. assert (Qc_of_nat (Z.to_nat (tp_duration_of_timeslot_in_seconds tp)) = d) as ->.
  { unfold Qc_of_nat, d, f_of_Z. pose proof (so_duration _ tp_ok). rewrite Z2Nat.id by lia. done. }
  unfold Qcdiv. rewrite <-Qcmult_assoc, (Qcmult_comm (/ d)), Qcmult_inv_r; [apply Qcmult_1_r|].
  intros Hd. pose proof (of_Z_pos _ (so_duration _ tp_ok)) as Hpos. fold d in Hpos. rewrite Hd in Hpos. by apply Qclt_not_eq in Hpos.
Qed.

(** The sum over the slots is the sum over the requests. *)
Lemma fsum_add {A} (f g : A → Qc) l : fsum ((λ x, f x + g x)%Qc <$> l) = (fsum (f <$> l) + fsum (g <$> l))%Qc.
Proof. induction l as [|x l IH]; [done|]. rewrite !fmap_cons, !fsum_cons, IH. qc_lra. Qed.
Lemma fsum_scale {A} c (f : A → Qc) l : fsum ((λ x, c * f x)%Qc <$> l) = (c * fsum (f <$> l))%Qc.
Proof. induction l as [|x l IH]; [cbn; by rewrite Qcmult_0_r|]. rewrite !fmap_cons, !fsum_cons, IH. by rewrite Qcmult_plus_distr_r. Qed.
Lemma fsum_entries (r : list Qc) n : length r ≤ n → fsum ((λ k, default fzero (r !! k)) <$> seq 0 n) = fsum r.
Proof.
  intros Hn. rewrite <-(firstn_skipn (length r) (seq 0 n)), fmap_app, fsum_app.
  rewrite take_seq, drop_seq, Nat.min_l by done. rewrite <-(exact_add_0_r (fsum r)). f_equal.
  - f_equal. apply list_eq. intros i. rewrite list_lookup_fmap. destruct (r !! i) as [x|] eqn:E.
    + rewrite lookup_seq_lt by (by apply lookup_lt_Some in E). cbn. by rewrite E.
    + rewrite lookup_seq_ge; [done|]. by apply lookup_ge_None.
  - rewrite Nat.add_0_l. generalize (n - length r). intros m. induction m as [|m IH] using nat_ind; [done|].
    rewrite seq_S, fmap_app, fsum_app, IH. cbn [fmap list_fmap]. rewrite lookup_ge_None_2 by lia. done.
Qed.
Lemma slot_volumes requests n : slots requests ≤ n → fsum (slot_volume requests <$> seq 0 n) = fsum (fsum <$> requests).
Proof.
  induction requests as [|r requests IH].
  - intros _. unfold slot_volume. cbn. induction n as [|n IH]; [done|]. by rewrite seq_S, fmap_app, fsum_app, IH.
  - rewrite slots_cons, fmap_cons, fsum_cons. intros Hn. rewrite <-IH, <-(fsum_entries r n) by lia. rewrite <-fsum_add. f_equal. apply list_fmap_ext.
    intros _ k _. unfold slot_volume. by rewrite fmap_cons, fsum_cons.
Qed.

Lemma bulk_flows paths n : n = length (tp_flow_allocations tp) →
  mapR (bulk_flow tp (table n (λ _, fone)) paths) (prune_flow_allocations_list (tp_flow_allocations tp))
  = Ok ((λ requests, mk_flow tp paths (per_second ((λ k, scale * slot_volume requests k / d)%Qc <$> seq 0 (slots requests))))
        <$> tp_flow_allocations tp).
Proof.
  intros ->. rewrite pruned_flows. rewrite (mapR_all_Ok _ (λ e, mk_flow tp paths (per_second ((λ x, x / d)%Qc <$> e.2)))).
  - f_equal. rewrite fmap_imap. apply list_eq. intros i. rewrite list_lookup_imap, list_lookup_fmap.
    destruct (tp_flow_allocations tp !! i) as [requests|]; [|done].
    cbn [fmap option_fmap option_map]. unfold compose. cbn [snd]. do 3 f_equal. by rewrite <-list_fmap_compose.
  - intros e (i & Hi)%list_elem_of_lookup. rewrite list_lookup_imap in Hi. destruct (tp_flow_allocations tp !! i) as [requests|] eqn:E; [|done].
    injection Hi as <-. unfold bulk_flow. cbn [fst snd]. rewrite slot_rates by (by apply lookup_lt_Some in E). done.
Qed.

Lemma background_flows paths n : n = length (tp_path_capacities tp) →
  mapR (background_flow tp (table n (λ _, fone)) paths) (prune_path_capacity_list (tp_path_capacities tp))
  = Ok ((λ caps, let rates := per_second ((λ c, c * scale / d)%Qc <$> caps) in
                 (mk_flow tp paths ((λ y, total_path_volume_per_second - y)%Qc <$> rates), rates)) <$> tp_path_capacities tp).
Proof.
  intros ->. rewrite pruned_capacities.
  rewrite (mapR_all_Ok _ (λ e, let rates := per_second ((λ x, x / d)%Qc <$> e.2) in
    (mk_flow tp paths ((λ y, total_path_volume_per_second - y)%Qc <$> rates), rates))).
  - f_equal. rewrite fmap_imap. apply list_eq. intros i. rewrite list_lookup_imap, list_lookup_fmap.
    destruct (tp_path_capacities tp !! i) as [caps|]; [|done].
    cbn [fmap option_fmap option_map]. unfold compose. cbn [snd]. by rewrite <-list_fmap_compose.
  - intros e (i & Hi)%list_elem_of_lookup. rewrite list_lookup_imap in Hi. destruct (tp_path_capacities tp !! i) as [caps|] eqn:E; [|done].
    injection Hi as <-. unfold background_flow. cbn [fst snd].
    pose proof (so_capacities _ tp_ok) as Hall. rewrite Forall_lookup in Hall. specialize (Hall _ _ E).
    destruct (py_max ((λ c, c * scale)%Qc <$> caps)) eqn:Hmax; [|destruct caps; [by apply Exists_nil in Hall|done]].
    destruct (py_min ((λ c, c * scale)%Qc <$> caps)) eqn:Hmin; [|destruct caps; [by apply Exists_nil in Hall|done]].
    cbn [mbind res_bind].
    rewrite slot_rates by (by apply lookup_lt_Some in E). cbn [mbind res_bind].
    generalize ((λ x, x / d)%Qc <$> ((λ c, c * scale)%Qc <$> caps)). intros scaled. f_equal. f_equal. unfold mk_flow. f_equal.
    unfold per_second. rewrite fmap_concat. f_equal. rewrite <-list_fmap_compose. apply list_fmap_ext. intros _ x _. cbn.
    unfold repeat_list. by rewrite fmap_replicate.
Qed.
End flows.

(** * The trial *)

Definition object_of (t : Trial) (heap : list (tuiti_object Qc)) (name : string) : option (tuiti_object Qc) :=
  match get_parameter t name with Ok (VObj i) => heap !! i | _ => None end.

Lemma add_value_run t name v : Dict.get (parameters t) name = None →
  add_parameter t name v = Ok (mkTrial (trial_oid t) (trial_name t) (parameters t ++ [(name, v)])).
Proof. intros Hn. unfold add_parameter, Dict.mem. rewrite Hn. unfold set_parameters. by rewrite Dict.set_new. Qed.
Lemma add_object_run {RNG} t name (o : tuiti_object Qc) (h : list (tuiti_object Qc)) (rng : RNG) :
  Dict.get (parameters t) name = None →
  add_object_parameter t name o (h, rng)
  = (Ok (mkTrial (trial_oid t) (trial_name t) (parameters t ++ [(name, VObj (length h))])), (h ++ [o], rng)).
Proof. intros Hn. unfold add_object_parameter. by rewrite add_value_run. Qed.

Ltac step_object := erewrite bindS_run by (apply add_object_run; reflexivity); cbn [trial_oid trial_name parameters app].
Ltac step_lift := erewrite bindS_run by (unfold lift; reflexivity); cbn [trial_oid trial_name parameters app].

Lemma lookup_snoc {A} (l : list A) x : (l ++ [x]) !! length l = Some x.
Proof. by apply list_lookup_middle. Qed.
Ltac find_object :=
  unfold object_of, get_parameter; cbn [parameters];
  match goal with |- context [Dict.get ?ps ?k] => let E := fresh in eassert (Dict.get ps k = Some _) as E by reflexivity; rewrite E; clear E end;
  cbn [or_raise]; repeat first [rewrite lookup_snoc | rewrite lookup_app_l by (rewrite ?length_app; cbn [length]; lia)]; reflexivity.

Section trial_rates.
Context {RNG G : Type} (randint : Z → Z → M RNG Z) (node_disjoint_paths : G → Z → Z → res (list (list Z))).

Lemma from_parameters_run oid tp g paths h rng rand_id rng' :
  solvable tp → node_disjoint_paths g 0%Z 1%Z = Ok paths → (tp_number_of_paths tp ≤ Z.of_nat (length paths))%Z →
  randint 0%Z (2 ^ 64)%Z rng = (Ok rand_id, rng') →
  ∃ t heap flows background,
    from_trial_parameters randint node_disjoint_paths oid tp g (h, rng) = (Ok t, (heap, rng'))
    ∧ mapR (bulk_flow tp (table (length (tp_flow_allocations tp)) (λ _, fone)) paths)
        (prune_flow_allocations_list (tp_flow_allocations tp)) = Ok flows
    ∧ mapR (background_flow tp (table (length (tp_flow_allocations tp)) (λ _, fone)) paths)
        (prune_path_capacity_list (tp_path_capacities tp)) = Ok background
    ∧ object_of t heap "flow-set" = Some (TFlowSet flows)
    ∧ object_of t heap "background-traffic-flow-set" = Some (TFlowSet background.*1)
    ∧ object_of t heap "remaining-capacities" = Some (TCapacities background.*2).
Proof.
  intros Hs Hp Hn Hr. unfold from_trial_parameters. rewrite (bindS_run _ _ _ paths (h, rng)) by (unfold lift; by rewrite Hp).
  rewrite bool_decide_eq_false_2 by lia.
  rewrite (bindS_run _ _ _ rand_id (h, rng')) by (unfold on_world; cbn [fst snd]; by rewrite Hr).
  destruct (scaling_run tp (length (tp_flow_allocations tp)) Hs) as (o & Hscale & Ho); [by rewrite <-(so_lengths _ Hs)|].
  destruct Ho as [x ->]; [pose proof (so_some _ Hs); destruct (tp_flow_allocations tp); [done|cbn; lia]|].
  assert (Dict.keys (prune_flow_allocations_list (tp_flow_allocations tp)) = seq 0 (length (tp_flow_allocations tp))) as Hkeys.
  { unfold prune_flow_allocations_list, Dict.keys. rewrite <-list_fmap_compose. rewrite <-fst_enumerate. done. }
  rewrite (bulk_flows tp Hs paths _ eq_refl), (background_flows tp Hs paths _ (so_lengths _ Hs)).
  set (flows := _ <$> tp_flow_allocations tp). set (background := _ <$> tp_path_capacities tp).
  eassert (add_value_parameters (init_trial oid (tp_trial_type tp) rand_id) (passed_on tp) = Ok _) as -> by (cbv -[str_of_Z]; reflexivity).
  step_lift. step_object. step_lift.
  destruct (tp_confidence_interval tp) as [c|].
  all: step_lift; rewrite Hkeys, Hscale; step_lift; rewrite (bulk_flows tp Hs paths _ eq_refl); fold flows; step_lift; step_object.
  all: rewrite (background_flows tp Hs paths _ (so_lengths _ Hs)); fold background; step_lift; step_object.
  all: step_lift; step_object; step_object; rewrite add_object_run by reflexivity; cbn [trial_oid trial_name parameters app].
  all: eexists _, _, flows, background; split; [reflexivity|]; split; [reflexivity|]; split; [reflexivity|].
  all: split; [|split]; find_object.
Qed.

(** C12: a mininet trial that is made from a solution with one list of
    capacities per path, some capacity on each path, and enough disjoint
    paths in the network. Flow [i] of the flow set goes over the disjoint
    paths from node 0 to node 1; in every second of slot [k] it sends at
    10000 times the volume that the requests have in slot [k] of path [i],
    divided by the duration of a slot; so it sends 10000 times the volume
    allocated to the path. The background traffic of path [i] and its
    recorded remaining capacity add up to the capacity of a path in every
    second (in exact arithmetic). *)
Theorem tuiti_trial_rates oid tp g paths h rng rand_id rng' :
  solvable tp → node_disjoint_paths g 0%Z 1%Z = Ok paths → (tp_number_of_paths tp ≤ Z.of_nat (length paths))%Z →
  randint 0%Z (2 ^ 64)%Z rng = (Ok rand_id, rng') →
  let d := f_of_Z (tp_duration_of_timeslot_in_seconds tp) in
  ∃ t heap flows background remaining,
    from_trial_parameters randint node_disjoint_paths oid tp g (h, rng) = (Ok t, (heap, rng'))
    ∧ object_of t heap "flow-set" = Some (TFlowSet flows)
    ∧ object_of t heap "background-traffic-flow-set" = Some (TFlowSet background)
    ∧ object_of t heap "remaining-capacities" = Some (TCapacities remaining)
    ∧ length flows = length (tp_flow_allocations tp) ∧ length background = length (tp_path_capacities tp)
    ∧ (∀ i requests, tp_flow_allocations tp !! i = Some requests → ∃ f, flows !! i = Some f
        ∧ tf_source_node f = 0%Z ∧ tf_destination_node f = 1%Z ∧ tf_paths f = paths
        ∧ tf_flow_tx_rate f = per_second tp ((λ k, scale * slot_volume requests k / d)%Qc <$> seq 0 (slots requests))
        ∧ fsum (tf_flow_tx_rate f) = (scale * fsum (fsum <$> requests))%Qc)
    ∧ (∀ i caps, tp_path_capacities tp !! i = Some caps → ∃ b r, background !! i = Some b ∧ remaining !! i = Some r
        ∧ tf_paths b = paths ∧ r = per_second tp ((λ c, c * scale / d)%Qc <$> caps)
        ∧ Forall2 (λ x y, x + y = f_of_Z 6553600)%Qc (tf_flow_tx_rate b) r).
Proof.
  intros Hs Hp Hn Hr d. destruct (from_parameters_run oid tp g paths h rng rand_id rng' Hs Hp Hn Hr)
    as (t & heap & flows & background & Hrun & Hbulk & Hback & Ho1 & Ho2 & Ho3).
  rewrite (bulk_flows tp Hs paths _ eq_refl) in Hbulk. rewrite (background_flows tp Hs paths _ (so_lengths _ Hs)) in Hback.
  injection Hbulk as <-. injection Hback as <-.
  eexists t, heap, _, _, _. split_and!; [exact Hrun|exact Ho1|exact Ho2|exact Ho3|by rewrite length_fmap|by rewrite !length_fmap|..].
  - intros i requests Hi. eexists. split; [rewrite list_lookup_fmap, Hi; reflexivity|]. split_and!; [done..|].
    cbn [tf_flow_tx_rate mk_flow]. rewrite <-(slot_volumes requests (slots requests)), <-fsum_scale by done.
    rewrite <-(per_second_total tp Hs ((λ k, scale * slot_volume requests k)%Qc <$> _)). f_equal. f_equal. by rewrite <-list_fmap_compose.
  - intros i caps Hi. eexists _, _. split; [rewrite <-list_fmap_compose, list_lookup_fmap, Hi; reflexivity|].
    split; [rewrite <-list_fmap_compose, list_lookup_fmap, Hi; reflexivity|]. split; [done|]. split; [done|].
    cbn [tf_flow_tx_rate mk_flow fst snd]. apply Forall2_fmap_l, Forall_Forall2_diag, Forall_true. intros y.
    unfold compose. change (total_path_volume_per_second - y + y = f_of_Z 6553600)%Qc.
    assert (total_path_volume_per_second = f_of_Z 6553600 :> Qc) as -> by (apply Qc_is_canon; by vm_compute). qc_lra.
Qed.
End trial_rates.

(** Two paths, slots of two seconds: two requests on the first path, one on
    the second, which starts late. *)
Definition demo_parameters : TrialParameters Qc :=
  {| tp_trial_type := "ts"%string;
     tp_flow_allocations := [[[Q2Qc (1 # 2); fone]; [fone]]; [[fzero; fone; fone]]];
     tp_path_capacities := [[fone; f_of_Z 2]; [fzero; fone]];
     tp_number_of_paths := 2;
     tp_number_of_timeslots := 3;
     tp_duration_of_timeslot_in_seconds := 2;
     tp_trial_duration := VInt 6;
     tp_maximum_bandwidth_variation := VInt 50;
     tp_flow_arrival_rate := VInt 1;
     tp_mean_flow_duration := VInt 1;
     tp_mean_flow_demand := VInt 1;
     tp_number_of_admitted_flows := VInt 3;
     tp_number_of_successful_flows := VInt 3;
     tp_flow_bandwidth_requirements := [VInt 1; VInt 1; VInt 2];
     tp_deviation_mode := VStr "none"%string;
     tp_confidence_interval := None |}.

Lemma demo_parameters_solvable : solvable demo_parameters.
Proof.
  split; [done|done|done|done|]. constructor; [|constructor; [|constructor]].
  - by apply Exists_cons_hd.
  - by apply Exists_cons_tl, Exists_cons_hd.
Qed.

Lemma tuiti_trial_rates_witness :
  ∃ t heap flows, from_trial_parameters (λ a _ (n : nat), (Ok a, n)) (λ (_ : unit) _ _, Ok [[0; 2; 1]; [0; 3; 1]]%Z) 0 demo_parameters tt ([], 0)
      = (Ok t, (heap, 0))
    ∧ object_of t heap "flow-set" = Some (TFlowSet flows)
    ∧ (∃ f, flows !! 0 = Some f ∧ fsum (tf_flow_tx_rate f) = f_of_Z 25000).
Proof.
  destruct (tuiti_trial_rates (λ a _ (n : nat), (Ok a, n)) (λ (_ : unit) _ _, Ok [[0; 2; 1]; [0; 3; 1]]%Z) 0 demo_parameters tt
    [[0; 2; 1]; [0; 3; 1]]%Z [] 0 0%Z 0 demo_parameters_solvable eq_refl ltac:(cbn; lia) eq_refl)
    as (t & heap & flows & background & remaining & Hrun & Hflows & _ & _ & _ & _ & Hbulk & _).
  exists t, heap, flows. split; [exact Hrun|]. split; [exact Hflows|].
  destruct (Hbulk 0 _ eq_refl) as (f & Hf & _ & _ & _ & _ & Hsum). exists f. split; [exact Hf|]. rewrite Hsum. apply Qc_is_canon. by vm_compute.
Defined.
