(* ===== verification/MininetHost.v ===== *)
(** The hosts of a mininet network (nw_control/host_rewrite.py): ssh sessions
    that are opened on demand, processes that are started in the background
    and stopped by their number, and the files with their counters.

    paramiko is the interface [SshEnv]; copies over scp and the files of the
    local machine are the interface [ScpEnv]. A [CommandResult] is the number
    of its process. *)

From Stdlib Require Import Ascii.
From S2P Require Import Prelude PyDict PyStr PyFloat PyText FileParsing TopoMapper HostMapper TrafficGen RemoteHost.

(** A client, a remote file and a local file. *)
Class ScpEnv (W : Type) : Type := {
  scp_get : nat → string → string → M W unit;
  scp_put : nat → string → string → M W unit;
  local_text : string → M W string;
  local_write : string → string → M W unit;
  local_receiver : string → M W (dict (string * Z) Z);
  local_sender : string → M W (dict nat SenderReport)
}.

Local Open Scope string_scope.

(** The entries of [configured_flows]. *)
Inductive MininetClient (F : Type) : Type :=
  | MnModelFlow (dest_port : Z) (dest_addr : string) (prob_mat : list F) (tx_rate variance : F) (traffic_model : string)
      (packet_len src_host time_slice : Z) (tag_value : list Z) (source_addr : string)
  | MnPrecomputedFlow (dest_port : Z) (dest_addr : string) (prob_mat transmit_rates : list F)
      (packet_len src_host time_slice : Z) (tag_value : list Z) (flow_id : Z).
Arguments MnModelFlow {F} _ _ _ _ _ _ _ _ _ _ _.
Arguments MnPrecomputedFlow {F} _ _ _ _ _ _ _ _ _.

Record MininetHost (F : Type) : Type := mkMininetHost {
  mn_hostname : string;
  mn_remote_username : string;
  mn_remote_password : string;
  mn_host_id : Z;
  mn_ssh_port : Z;
  mn_host_ip : string;
  mn_ssh_tunnel : option nat;
  mn_server_proc : option Z;
  mn_client_procs : list Z;
  mn_configured_flows : list (MininetClient F)
}.
Arguments mkMininetHost {F} _ _ _ _ _ _ _ _ _ _.
Arguments mn_hostname {F} _.
Arguments mn_remote_username {F} _.
Arguments mn_remote_password {F} _.
Arguments mn_host_id {F} _.
Arguments mn_ssh_port {F} _.
Arguments mn_host_ip {F} _.
Arguments mn_ssh_tunnel {F} _.
Arguments mn_server_proc {F} _.
Arguments mn_client_procs {F} _.
Arguments mn_configured_flows {F} _.

Definition TRAFFIC_GEN_ROOT_DIR : string := "/home/alexj/repos/cpsc_of_testbed/traffic_generation/".
Definition TRAFFIC_SERVER_BIN_PATH : string := TRAFFIC_GEN_ROOT_DIR +:+ "traffic_server.py".
Definition TRAFFIC_GEN_BIN_PATH : string := TRAFFIC_GEN_ROOT_DIR +:+ "traffic_gen.py".

Section host.
Context {W F : Type} `{SshEnv W} `{ScpEnv W} `{PyFloat F}.
Variable json_dumps : list (MininetClient F) → string.
Abbreviation Self := (MininetHost F).

(** The name is resolved, and the address replaced by the given one. *)
Definition init_mininet_host (host_ip hostname remote_username remote_password : string) (host_id : Z) : res Self :=
  _ ← mininet_resolve_hostname hostname;
  Ok (mkMininetHost hostname remote_username remote_password host_id 22 host_ip None None [] []).

Definition mn_set_tunnel (t : option nat) (self : Self) : Self :=
  mkMininetHost (mn_hostname self) (mn_remote_username self) (mn_remote_password self) (mn_host_id self) (mn_ssh_port self)
    (mn_host_ip self) t (mn_server_proc self) (mn_client_procs self) (mn_configured_flows self).
Definition mn_set_server (p : option Z) (self : Self) : Self :=
  mkMininetHost (mn_hostname self) (mn_remote_username self) (mn_remote_password self) (mn_host_id self) (mn_ssh_port self)
    (mn_host_ip self) (mn_ssh_tunnel self) p (mn_client_procs self) (mn_configured_flows self).
Definition mn_add_client (p : Z) (self : Self) : Self :=
  mkMininetHost (mn_hostname self) (mn_remote_username self) (mn_remote_password self) (mn_host_id self) (mn_ssh_port self)
    (mn_host_ip self) (mn_ssh_tunnel self) (mn_server_proc self) (mn_client_procs self ++ [p])%list (mn_configured_flows self).
Definition mn_add_flow (c : MininetClient F) (self : Self) : Self :=
  mkMininetHost (mn_hostname self) (mn_remote_username self) (mn_remote_password self) (mn_host_id self) (mn_ssh_port self)
    (mn_host_ip self) (mn_ssh_tunnel self) (mn_server_proc self) (mn_client_procs self) (mn_configured_flows self ++ [c])%list.

(** [if self.ssh_tunnel: self.ssh_tunnel.close()] *)
Definition close_tunnel : M (Self * W) unit :=
  self ← gets fst;
  match mn_ssh_tunnel self with Some t => on_world (ssh_close t) | None => mret tt end.

Definition mn_connect : M (Self * W) unit :=
  close_tunnel ≫= λ _,
  self ← gets fst;
  t ← on_world ssh_client;
  set_self (mn_set_tunnel (Some t)) ≫= λ _,
  on_world (ssh_connect t (Some (mn_host_ip self)) (mn_ssh_port self) (mn_remote_username self) (mn_remote_password self)).

(** The tunnel, after [if not self.ssh_tunnel: self.connect()]. *)
Definition open_tunnel : M (Self * W) nat :=
  self ← gets fst;
  (if bool_decide (mn_ssh_tunnel self = None) then mn_connect else mret tt) ≫= λ _,
  self ← gets fst;
  lift (or_raise AttributeError (mn_ssh_tunnel self)).

Definition exec_on_remote (command_str : string) : M (Self * W) (string * string) :=
  t ← open_tunnel; on_world (ssh_exec t command_str).

Definition mn_run (command_str : string) : M (Self * W) unit := exec_on_remote command_str ≫= λ _, mret tt.

Definition transfer_file : string := "/tmp/cpsc-of-testbed-remote-transfer-file.dat".
Definition get_file {A} (path_like : string) (reader : string → M W A) : M (Self * W) A :=
  t ← open_tunnel;
  on_world (scp_get t path_like transfer_file) ≫= λ _,
  on_world (reader transfer_file).
Definition put_file (path_like output_path : string) : M (Self * W) unit :=
  t ← open_tunnel; on_world (scp_put t path_like output_path).

Definition run_async (command_str : string) : M (Self * W) Z :=
  exec_on_remote ("( " +:+ command_str +:+ " ) & echo $! > /tmp/last-proc.pid") ≫= λ _,
  text ← get_file "/tmp/last-proc.pid" local_text;
  lift (py_int text).

Definition mn_ping (remote_host_ip : string) (count : Z) : M (Self * W) unit :=
  mn_run ("ping -c " +:+ str_of_Z count +:+ " " +:+ remote_host_ip).

Definition mn_start_server : M (Self * W) unit :=
  self ← gets fst;
  pid ← run_async (TRAFFIC_SERVER_BIN_PATH +:+ " -host " +:+ str_of_Z (mn_host_id self) +:+ " -source_addr " +:+ mn_host_ip self);
  set_self (mn_set_server (Some pid)).

Definition kill_process (pid : Z) : M (Self * W) unit := mn_run ("kill -s SIGINT " +:+ str_of_Z pid).

(** The process is not forgotten. *)
Definition mn_stop_server : M (Self * W) unit :=
  self ← gets fst;
  match mn_server_proc self with Some pid => kill_process pid | None => mret tt end.
Definition mn_stop_clients : M (Self * W) unit :=
  self ← gets fst;
  for_each (mn_client_procs self) kill_process.

Definition mn_disconnect : M (Self * W) unit :=
  mn_stop_server ≫= λ _,
  mn_stop_clients ≫= λ _,
  close_tunnel ≫= λ _,
  set_self (mn_set_tunnel None).

Definition mn_configure_flow (tx_rate tx_rate_std_dev : F) (traffic_model dest_ip : string) (dest_port : Z) (k_matrix : list F)
    (time_slice_duration : Z) (tag_values : list Z) (packet_length : Z) (self : Self) : Self :=
  mn_add_flow (MnModelFlow dest_port dest_ip k_matrix tx_rate tx_rate_std_dev traffic_model packet_length (mn_host_id self)
    time_slice_duration tag_values (mn_host_ip self)) self.

Definition configure_flow_with_precomputed_transmit_rates (rate_list : list F) (destination_ip : string)
    (destination_port_number : Z) (k_matrix : list F) (host_number time_slice_duration : Z) (tag_values : list Z)
    (flow_id packet_length : Z) (self : Self) : Self :=
  mn_add_flow (MnPrecomputedFlow destination_port_number destination_ip k_matrix rate_list packet_length host_number
    time_slice_duration tag_values flow_id) self.

(** One of the two groups of flows: its arguments are written to a file that
    is copied to the host. *)
Definition args_file_path (host_id : Z) (flow_idx : nat) : string :=
  "/tmp/host-" +:+ str_of_Z host_id +:+ "-instance-" +:+ str_of_Z (Z.of_nat flow_idx) +:+ "-traffic-gen-args.json".
Definition start_flow_group (id_group : nat * list (MininetClient F)) : M (Self * W) unit :=
  self ← gets fst;
  let p := args_file_path (mn_host_id self) id_group.1 in
  on_world (local_write p (json_dumps id_group.2)) ≫= λ _,
  put_file p p ≫= λ _,
  pid ← run_async (TRAFFIC_GEN_BIN_PATH +:+ " " +:+ p);
  set_self (mn_add_client pid).

Definition mn_start_clients : M (Self * W) unit :=
  self ← gets fst;
  let flows := mn_configured_flows self in
  if bool_decide (flows = []) then mret tt
  else
    let flow_count := length flows / 2 in
    for_each (enumerate [take flow_count flows; drop flow_count flows]) start_flow_group.

(** Every exception becomes a [ValueError]. *)
Definition or_value_error {S A} (m : M S A) : M S A := λ s,
  match m s with (Ok x, s) => (Ok x, s) | (Raise _, s) => (Raise ValueError, s) end.

Definition sender_file_path (host_id : Z) (instance_id : nat) : string :=
  "/tmp/sender_" +:+ str_of_Z host_id +:+ "-" +:+ str_of_Z (Z.of_nat instance_id) +:+ ".p".
Definition get_sender_results : M (Self * W) (dict nat SenderReport) :=
  self ← gets fst;
  sender_results ← foldS (λ acc id_proc,
    r ← or_value_error (get_file (sender_file_path (mn_host_id self) id_proc.1) local_sender); mret (acc ++ [r])%list)
    [] (enumerate (mn_client_procs self));
  mret (enumerate (concat (Dict.values <$> sender_results))).

Definition get_receiver_results : M (Self * W) (dict (string * Z) Z) :=
  self ← gets fst;
  or_value_error (get_file ("/tmp/receiver_" +:+ str_of_Z (mn_host_id self) +:+ ".p") local_receiver).
End host.
