(* ===== verification/MininetTuiti.v ===== *)
(** The driver of the mininet experiments (mininet_tuiti.py): it configures
    the hosts of a network of parallel paths for the flows of a trial, runs
    the trial, and removes routes and sessions again.

    The state [W] is the network and the machine; the objects that are
    parameters of the trials live in a heap. Waiting and printing are not
    modelled; [pprint.pformat] is a parameter. *)

From Stdlib Require Import Ascii.
From S2P Require Import Prelude PyDict PyStr PyFloat PyText TopoMapper StatMonitor TrialStore MpTrial RouteAdder FileParsing HostMapper TrafficGen RemoteHost PathHoppingTrial TuitiTrial MininetHost.
Close Scope string_scope.

(** [graph.add_nodes_from([0, 1])] and two edges per path. *)
Definition build_n_paths_networkx_graph {G} `{NxGraph Z G} (number_of_paths : Z) : G :=
  foldl (λ g switch_id, nx_add_edge 1%Z switch_id (nx_add_edge 0%Z switch_id g))
    (nx_add_node 1%Z (nx_add_node 0%Z nx_empty)) (seqZ 2 number_of_paths).
Definition EXPECTED_TOPO {G} `{NxGraph Z G} : G := build_n_paths_networkx_graph 5.

(** The results of a host: the receiver's, and the sender's if there are
    any. *)
Abbreviation HostResults := (dict (string * Z) Z * option (dict nat SenderReport))%type.

Inductive mini_object (F : Type) : Type :=
  | MTrial (o : tuiti_object F)
  | MByteCounts (counts : list (list IfaceStats))
  | MLinkRates (rates : list (dict link_key F))
  | MMeanRates (means : dict link_key F)
  | MHostResults (results : dict Z HostResults).
Arguments MTrial {F} _.
Arguments MByteCounts {F} _.
Arguments MLinkRates {F} _.
Arguments MMeanRates {F} _.
Arguments MHostResults {F} _.

(** The variables of [conduct_mininet_trial]. *)
Record MiniRun (F : Type) : Type := mkMiniRun {
  mr_hosts : dict Z (MininetHost F);
  mr_flow_tokens : list string;
  mr_tag_values : dict (Z * Z) Z;
  mr_monitor : OnMonitor;
  mr_trial : Trial;
  mr_heap : list (mini_object F)
}.
Arguments mkMiniRun {F} _ _ _ _ _ _.
Arguments mr_hosts {F} _.
Arguments mr_flow_tokens {F} _.
Arguments mr_tag_values {F} _.
Arguments mr_monitor {F} _.
Arguments mr_trial {F} _.
Arguments mr_heap {F} _.

Section driver.
Context {W F : Type} `{SshEnv W} `{ScpEnv W} `{RouteApi W} `{PyFloatText F}.
Variable json_dumps : list (MininetClient F) → string.
Variable pformat : mini_object F → string.
Abbreviation Hosts := (dict Z (MininetHost F)).
Abbreviation State := (MiniRun F * W)%type.

Definition create_mininet_hosts `{OnosApi} (id_to_dpid : dict Z string) (host_ids : list Z) : res Hosts :=
  host_mapper ← init_mininet_mapper;
  foldM (λ hosts host_id,
    switch_dpid ← Dict.getitem id_to_dpid host_id;
    host_ip ← get_ip_of_connected_host host_mapper switch_dpid;
    host ← init_mininet_host host_ip (String "h" (str_of_Z host_id)) "alexj" "password" host_id;
    Ok (Dict.set hosts host_id host)) [] host_ids.

Definition mn_set_hosts (hosts : Hosts) (st : MiniRun F) : MiniRun F :=
  mkMiniRun hosts (mr_flow_tokens st) (mr_tag_values st) (mr_monitor st) (mr_trial st) (mr_heap st).

(** A method of [hosts[host_id]]: the object keeps what the method changed
    before it raised. *)
Definition on_mn_host {A} (host_id : Z) (m : M (MininetHost F * W) A) : M (Hosts * W) A := λ s,
  match Dict.get s.1 host_id with
  | None => (Raise KeyError, s)
  | Some host => let '(r, (host, w)) := m (host, s.2) in (r, (Dict.set s.1 host_id host, w))
  end.
Definition each_mn_host (m : M (MininetHost F * W) unit) : M (Hosts * W) unit :=
  hosts ← gets fst;
  for_each (Dict.keys hosts) (λ host_id, on_mn_host host_id m).

(** Only a [ValueError] of the sender is caught. *)
Definition sender_results_or_none : M (MininetHost F * W) (option (dict nat SenderReport)) := λ s,
  match get_sender_results s with
  | (Ok r, s) => (Ok (Some r), s)
  | (Raise ValueError, s) => (Ok None, s)
  | (Raise e, s) => (Raise e, s)
  end.
Definition mn_collect_end_host_results : M (Hosts * W) (dict Z HostResults) :=
  hosts ← gets fst;
  foldS (λ results_map host_id,
    receiver_results ← on_mn_host host_id get_receiver_results;
    sender_results ← on_mn_host host_id sender_results_or_none;
    mret (Dict.set results_map host_id (receiver_results, sender_results))) [] (Dict.keys hosts).

(** The functions of this file that repeat those of path_hopping.py; here an
    exception of a host is not caught. *)
Definition mn_simple_paths_to_flow_json (id_to_dpid : dict Z string) (simple_paths : list (list Z))
    : M (dict (Z * Z) Z) (list PathJson * list Z) :=
  foldS (path_to_json id_to_dpid) ([], []) simple_paths.
Definition destroy_all_mininet_hosts : M (Hosts * W) unit := each_mn_host mn_disconnect.
Definition mn_remove_all_flows (flow_tokens : list string) : M W unit :=
  for_each flow_tokens (λ flow_token w, (Ok tt, (uninstall_flow flow_token w).2)).

(** ** The trial *)

Definition mn_on_hosts {A} (m : M (Hosts * W) A) : M State A := λ s,
  let '(r, (hosts, w)) := m (mr_hosts s.1, s.2) in (r, (mn_set_hosts hosts s.1, w)).
Definition mn_on_tags {A} (m : M (dict (Z * Z) Z) A) : M State A := λ s,
  let '(r, tags) := m (mr_tag_values s.1) in
  (r, (mkMiniRun (mr_hosts s.1) (mr_flow_tokens s.1) tags (mr_monitor s.1) (mr_trial s.1) (mr_heap s.1), s.2)).
Definition mn_on_monitor {A} (m : M (OnMonitor * W) A) : M State A := λ s,
  let '(r, (mon, w)) := m (mr_monitor s.1, s.2) in
  (r, (mkMiniRun (mr_hosts s.1) (mr_flow_tokens s.1) (mr_tag_values s.1) mon (mr_trial s.1) (mr_heap s.1), w)).
Definition mn_add_token (token : string) (st : MiniRun F) : MiniRun F :=
  mkMiniRun (mr_hosts st) (set_add token (mr_flow_tokens st)) (mr_tag_values st) (mr_monitor st) (mr_trial st) (mr_heap st).
Definition mn_add_object (name : string) (o : mini_object F) : M State unit := λ s,
  match add_parameter (mr_trial s.1) name (VObj (length (mr_heap s.1))) with
  | Raise e => (Raise e, s)
  | Ok trial => (Ok tt, (mkMiniRun (mr_hosts s.1) (mr_flow_tokens s.1) (mr_tag_values s.1) (mr_monitor s.1)
                           trial (mr_heap s.1 ++ [o]), s.2))
  end.

(** [enumerate(v)] and [range(int(v))] *)
Definition mn_flow_set_of (heap : list (mini_object F)) (v : value) : res (list (TuitiFlow F)) :=
  match v with
  | VObj oid => match heap !! oid with Some (MTrial (TFlowSet flows)) => Ok flows | _ => Raise TypeError end
  | _ => Raise TypeError
  end.
Definition int_of_value (heap : list (mini_object F)) (v : value) : res Z :=
  match v with
  | VInt z => Ok z
  | VStr s => py_int s
  | VObj oid => match heap !! oid with Some (MTrial (TFloat x)) => int_of_float x | _ => Raise TypeError end
  end.

(** [k_matrix[flow_id] = 1.0] on a matrix of zeroes, which is zero again
    afterwards. *)
Definition unit_row (n flow_id : nat) : res (list F) :=
  if bool_decide (flow_id < n) then Ok (<[flow_id := fone]> (replicate n fzero)) else Raise IndexError.

(** [hosts[source].configure_flow_with_precomputed_transmit_rates(...)] *)
Definition configure_on_source (flow : TuitiFlow F) (k_matrix : list F) (tags : res (list Z)) (flow_id : nat) : M State unit :=
  mn_on_hosts (
    hosts ← gets fst;
    source ← lift (Dict.getitem hosts (tf_source_node flow));
    destination ← lift (Dict.getitem hosts (tf_destination_node flow));
    tag_values_for_flow ← lift tags;
    on_mn_host (tf_source_node flow) (set_self (configure_flow_with_precomputed_transmit_rates (tf_flow_tx_rate flow)
      (mn_host_ip destination) 50000 k_matrix (mn_host_id source) 1 tag_values_for_flow (Z.of_nat flow_id) 1066))).

(** One flow: the result is [tag_values_for_flow]. *)
Definition install_mininet_flow (id_to_dpid : dict Z string) (number_of_flows : nat) (id_flow : nat * TuitiFlow F) : M State (list Z) :=
  '(flow_json, tag_values_for_flow) ← mn_on_tags (mn_simple_paths_to_flow_json id_to_dpid (tf_paths id_flow.2));
  flow_token ← on_world (install_flow flow_json);
  set_self (mn_add_token flow_token) ≫= λ _,
  k_matrix ← lift (unit_row number_of_flows id_flow.1);
  configure_on_source id_flow.2 k_matrix (Ok tag_values_for_flow) id_flow.1 ≫= λ _,
  mret tag_values_for_flow.

(** The background flows use the tags of the last flow. *)
Definition configure_background_flow (number_of_flows : nat) (tags : option (list Z)) (id_flow : nat * TuitiFlow F) : M State unit :=
  k_matrix ← lift (unit_row number_of_flows id_flow.1);
  configure_on_source id_flow.2 k_matrix (or_raise NameError tags) id_flow.1.

Context `{OnosApi} {GN GT : Type} `{NxGraph string GN} `{NxGraph Z GT}.
Variable graph_matcher : GN → GT → option (dict string Z).
Variable post_start : M W (Z * string).
Variable post_stop : string → M W (Z * list (list IfaceStats)).
Variable np_mean : list F → F.

(** The body of [try]. *)
Definition mininet_body (flows : value) : M State unit :=
  id_to_dpid ← lift (get_and_validate_onos_topo_x graph_matcher EXPECTED_TOPO);
  hosts ← lift (create_mininet_hosts id_to_dpid [0; 1]%Z);
  set_self (mn_set_hosts hosts) ≫= λ _,
  mn_on_hosts (each_mn_host mn_start_server) ≫= λ _,
  st ← gets fst;
  flow_list ← lift (mn_flow_set_of (mr_heap st) flows);
  tags ← foldS (λ _ id_flow, tags ← install_mininet_flow id_to_dpid (length flow_list) id_flow; mret (Some tags))
    None (enumerate flow_list);
  st ← gets fst;
  background ← lift (get_parameter (mr_trial st) "background-traffic-flow-set");
  background_list ← lift (mn_flow_set_of (mr_heap st) background);
  for_each (enumerate background_list) (configure_background_flow (length flow_list) tags) ≫= λ _,
  mn_on_monitor (start_monitor post_start) ≫= λ _,
  mn_on_hosts (each_mn_host (mn_start_clients json_dumps)) ≫= λ _,
  st ← gets fst;
  _ ← lift (Dict.getitem (mr_hosts st) 0%Z);
  trial_duration ← lift (get_parameter (mr_trial st) "duration");
  _ ← lift (int_of_value (mr_heap st) trial_duration);
  mn_on_hosts (each_mn_host mn_stop_clients) ≫= λ _,
  mn_on_hosts (each_mn_host mn_stop_server) ≫= λ _,
  mn_on_monitor (stop_monitor post_stop) ≫= λ _,
  utilization_results ← mn_on_monitor get_monitor_statistics;
  let link_utilization_over_time := compute_link_utilization_over_time utilization_results in
  let mean_link_utilization := compute_mean_link_utilization np_mean utilization_results in
  end_host_results ← mn_on_hosts mn_collect_end_host_results;
  on_world (local_write "./mean-link-utilization.txt" (pformat (MMeanRates mean_link_utilization))) ≫= λ _,
  on_world (local_write "./raw-utilization-results.txt" (pformat (MByteCounts utilization_results))) ≫= λ _,
  on_world (local_write "./host-utilization-results.txt" (pformat (MHostResults end_host_results))) ≫= λ _,
  mn_add_object "byte-counts-over-time" (MByteCounts utilization_results) ≫= λ _,
  mn_add_object "link-utilization-over-time" (MLinkRates link_utilization_over_time) ≫= λ _,
  mn_add_object "measured-link-utilization" (MMeanRates mean_link_utilization) ≫= λ _,
  mn_add_object "end-host-results" (MHostResults end_host_results).

(** Every exception of the body is printed; in the end the hosts are
    disconnected and, if that did not raise, the flows are removed. *)
Definition run_mininet_trial (the_trial : Trial) (heap : list (mini_object F)) (flows : value)
    : M W (Trial * list (mini_object F)) := λ w,
  let '(_, (st, w)) := mininet_body flows (mkMiniRun [] [] [] init_monitor the_trial heap, w) in
  match destroy_all_mininet_hosts (mr_hosts st, w) with
  | (Raise e, (_, w)) => (Raise e, w)
  | (Ok _, (_, w)) => (mn_remove_all_flows (mr_flow_tokens st) ≫= λ _, mret (mr_trial st, mr_heap st)) w
  end.

Definition conduct_mininet_trial (the_trial : Trial) (heap : list (mini_object F)) : M W (Trial * list (mini_object F)) :=
  _ ← lift (get_parameter the_trial "seed-number");
  flows ← lift (get_parameter the_trial "flow-set");
  run_mininet_trial the_trial heap flows.

(** ** The trials of a provider *)

Context {RNG : Type}.
Variable randint : Z → Z → M RNG Z.
Variable node_disjoint_paths : GT → Z → Z → res (list (list Z)).
Variable unpickle : path → res (TrialParameters F).

Definition build_tuiti_trial_provider (fs : fsys) : M (list (tuiti_object F) * RNG) TrialProvider :=
  _ ← lift (get_and_validate_onos_topo_x graph_matcher EXPECTED_TOPO);
  _ ← lift (node_disjoint_paths EXPECTED_TOPO 0%Z 1%Z);
  trials ← batch_from_directory randint node_disjoint_paths unpickle fs
    (segments "/home/alexj/repos/inter-dc/trial-parameters/") EXPECTED_TOPO;
  mret (foldl add_trial (init_provider "tuiti-trial-provider") trials).

(** [len(the_trial.get_parameter("flow-set"))] is printed. *)
Definition main_trial (acc : TrialProvider * list (mini_object F)) (the_trial : Trial) : M W (TrialProvider * list (mini_object F)) :=
  flows ← lift (get_parameter the_trial "flow-set");
  _ ← lift (mn_flow_set_of acc.2 flows);
  '(the_trial, heap) ← conduct_mininet_trial the_trial acc.2;
  mret (add_trial acc.1 the_trial, heap).

Variable dumps_metadata : dict string string → string.
Variable loads_metadata : string → res (dict string string).

Definition mn_on_files {A} (m : M fsys A) : M (fsys * W) A := λ s, let '(r, fs) := m s.1 in (r, (fs, s.2)).

(** [main], from a state of the random number generator. *)
Definition mininet_main (rng : RNG) : M (fsys * W) unit :=
  results_repository ← mn_on_files (create_repository dumps_metadata loads_metadata
    (segments "/home/alexj/results-repositories/rerun-after-approximate-methods") "/provider-name" "tuiti-testing");
  fs ← gets fst;
  '(provider, heap) ← lift (match build_tuiti_trial_provider fs ([], rng) with
                            | (Ok provider, (heap, _)) => Ok (provider, MTrial <$> heap)
                            | (Raise e, _) => Raise e
                            end);
  '(provider, _) ← on_world (foldS main_trial (init_provider (provider_name provider), heap) (trials provider));
  mn_on_files (write_trial_provider results_repository [("provider-name"%string, provider_name provider)] provider true false) ≫= λ _,
  mret tt.
End driver.
