(* ===== verification/MininetTuitiProps.v ===== *)
(** A mininet trial leaves no routes and no ssh sessions behind, whatever
    fails in it, as long as its hosts can be reached. *)

From Stdlib Require Import Ascii.
From S2P Require Import Prelude PyDict PyStr PyFloat PyText TopoMapper StatMonitor TrialStore MpTrial RouteAdder Keeps RouteAdderProps FileParsing HostMapper TrafficGen RemoteHost PathHoppingTrial TuitiTrial MininetHost MininetTuiti.

(** * Dictionaries and permutations *)

Lemma adds_perm {A} `{Countable A} (l l' : list A) base cur : l ≡ₚ l' → adds l base cur → adds l' base cur.
Proof.
  intros Hp (Hnd & Hnew & ->). split_and!; [by rewrite <-Hp| |].
  - intros x Hx. apply Hnew. by rewrite Hp.
  - f_equal. apply set_eq. intros x. rewrite !elem_of_list_to_set. by rewrite Hp.
Qed.

(** An entry that is replaced. *)
Lemma values_split {K V} `{Countable K} (d : dict K V) k v :
  Dict.get d k = Some v → ∃ l1 l2, Dict.values d = l1 ++ v :: l2 ∧ ∀ v', Dict.values (Dict.set d k v') = l1 ++ v' :: l2.
Proof.
  induction d as [|[k1 v1] d IH]; [done|]. cbn [Dict.get Dict.set]. case_decide as Hk.
  - intros [= ->]. exists [], (Dict.values d). done.
  - intros (l1 & l2 & Hd & Hset)%IH. exists (v1 :: l1), l2. unfold Dict.values in *. rewrite fmap_cons, Hd. split; [done|].
    intros v'. by rewrite fmap_cons, Hset.
Qed.

Lemma values_all {K V} `{Countable K} (P : V → Prop) (d : dict K V) :
  Dict.wf d → (∀ k v, Dict.get d k = Some v → P v) → Forall P (Dict.values d).
Proof.
  intros Hwf HP. apply Forall_forall. intros v ([k v'] & -> & Hin)%list_elem_of_fmap. apply (HP k). by apply Dict.elem_of_get.
Qed.

(** * Sessions of a host *)

Section laws.
Context {W F : Type} `{SshEnv W} `{ScpEnv W} `{RouteApi W} `{PyFloatText F}.
Variable post_start : M W (Z * string).
Variable post_stop : string → M W (Z * list (list IfaceStats)).
Variable routes : W → gset string.
Variable sessions : W → gset nat.

Definition see_net (w : W) : gset string * gset nat := (routes w, sessions w).
Definition same_net {A} (m : M W A) : Prop := ∀ w, see_net (m w).2 = see_net w.

(** The controller keeps the routes; the hosts can be reached, so that
    opening a session, closing it and running a command in an open one
    succeed. Copying files, reading them and the requests of the monitor can
    fail, and change neither routes nor sessions. *)
Record mininet_laws : Prop := {
  nl_server : route_server routes;
  nl_post : ∀ url body w, sessions (route_post url body w).2 = sessions w;
  nl_client : ∀ w, ∃ t w', ssh_client w = (Ok t, w') ∧ (t ∉ sessions w) ∧ see_net w' = see_net w;
  nl_connect : ∀ t ip port u pw w, ∃ w', ssh_connect t ip port u pw w = (Ok tt, w')
    ∧ sessions w' = {[t]} ∪ sessions w ∧ routes w' = routes w;
  nl_exec : ∀ t cmd w, t ∈ sessions w → ∃ out w', ssh_exec t cmd w = (Ok out, w') ∧ see_net w' = see_net w;
  nl_close : ∀ t w, ∃ w', ssh_close t w = (Ok tt, w') ∧ sessions w' = sessions w ∖ {[t]} ∧ routes w' = routes w;
  nl_get : ∀ t p q, same_net (scp_get t p q);
  nl_put : ∀ t p q, same_net (scp_put t p q);
  nl_text : ∀ p, same_net (local_text p);
  nl_write : ∀ p s, same_net (local_write p s);
  nl_receiver : ∀ p, same_net (local_receiver p);
  nl_sender : ∀ p, same_net (local_sender p);
  nl_start : same_net post_start;
  nl_stop : ∀ tok, same_net (post_stop tok)
}.
Hypothesis laws : mininet_laws.

(** The sessions are those of [base], of the other hosts, and the one of the
    host. *)
Definition host_inv (r : gset string) (base : gset nat) (others : list nat) (s : MininetHost F * W) : Prop :=
  routes s.2 = r ∧ adds (option_list (mn_ssh_tunnel s.1) ++ others) base (sessions s.2).

(** The code returns, and keeps the invariant. *)
Definition runs {S A} (I : S → Prop) (m : M S A) : Prop := ∀ s, I s → ∃ a s', m s = (Ok a, s') ∧ I s'.

Lemma runs_keeps {S A} (I : S → Prop) (m : M S A) : runs I m → keeps I m.
Proof. intros Hm s Hs. by destruct (Hm s Hs) as (a & s' & -> & ?). Qed.
Lemma runs_bind {S A B} (I : S → Prop) (m : M S A) (f : A → M S B) : runs I m → (∀ a, runs I (f a)) → runs I (m ≫= f).
Proof. intros Hm Hf s Hs. destruct (Hm s Hs) as (a & s' & Hrun & Hs'). rewrite (bindS_run _ _ _ a s' Hrun). by apply Hf. Qed.
Lemma runs_ret {S A} (I : S → Prop) (a : A) : runs I (mret a).
Proof. intros s Hs. by exists a, s. Qed.
Lemma runs_gets {S A} (I : S → Prop) (f : S → A) : runs I (gets f).
Proof. intros s Hs. by exists (f s), s. Qed.
Lemma runs_for_each {S A} (I : S → Prop) (body : A → M S unit) l : (∀ x, runs I (body x)) → runs I (for_each l body).
Proof. intros Hb. induction l as [|x l IH]; cbn [for_each]; [apply runs_ret|]. by apply runs_bind. Qed.

Section host.
Context (r : gset string) (base : gset nat) (others : list nat).
Abbreviation inv := (host_inv r base others).

Lemma host_world {A} (m : M W A) : same_net m → keeps inv (on_world m).
Proof.
  intros Hm [h w] [Hr Ha]. unfold on_world. cbn [fst snd] in *. specialize (Hm w). destruct (m w) as [a w']. cbn in *.
  injection Hm as Hm1 Hm2. split; cbn; [congruence|by rewrite Hm2].
Qed.

Lemma host_self f : (∀ h, mn_ssh_tunnel (f h) = mn_ssh_tunnel h) → keeps inv (set_self f).
Proof. intros Hf [h w] [Hr Ha]. split; [done|]. cbn. by rewrite Hf. Qed.

(** Closing the session, which the object forgets or replaces next. *)
Lemma close_tunnel_run h w : inv (h, w) → ∃ w', close_tunnel (h, w) = (Ok tt, (h, w')) ∧ routes w' = r ∧ adds others base (sessions w').
Proof.
  intros [Hr Ha]. unfold close_tunnel, gets, mbind, M_bind. cbn [fst snd] in *. destruct (mn_ssh_tunnel h) as [t|].
  - destruct (nl_close laws t w) as (w' & Hc & Hs & Hr'). exists w'. unfold on_world. cbn [fst snd]. rewrite Hc. split; [done|].
    split; [congruence|]. rewrite Hs. by apply adds_cons in Ha as [_ ?].
  - by exists w.
Qed.

Lemma mn_connect_run h w : inv (h, w) → ∃ t w', mn_connect (h, w) = (Ok tt, (mn_set_tunnel (Some t) h, w')) ∧ inv (mn_set_tunnel (Some t) h, w').
Proof.
  intros Hi. destruct (close_tunnel_run h w Hi) as (w1 & Hc & Hr & Ha). unfold mn_connect. rewrite (bindS_run _ _ _ _ _ Hc).
  rewrite (bindS_run _ _ _ h (h, w1)) by done. destruct (nl_client laws w1) as (t & w2 & Hcl & Hnew & Hsee). injection Hsee as Hr2 Hs2.
  rewrite (bindS_run _ _ _ t (h, w2)) by (unfold on_world; cbn [fst snd]; by rewrite Hcl).
  rewrite (bindS_run _ _ _ tt (mn_set_tunnel (Some t) h, w2)) by done.
  destruct (nl_connect laws t (Some (mn_host_ip h)) (mn_ssh_port h) (mn_remote_username h) (mn_remote_password h) w2) as (w3 & Hco & Hs3 & Hr3).
  exists t, w3. unfold on_world. cbn [fst snd]. rewrite Hco. split; [done|]. split; [cbn; congruence|]. cbn.
  rewrite Hs3, Hs2. apply adds_perm with (others ++ [t]); [by rewrite Permutation_app_comm|]. by apply adds_snoc.
Qed.

Lemma open_tunnel_run h w : inv (h, w) → ∃ t h' w', open_tunnel (h, w) = (Ok t, (h', w')) ∧ inv (h', w') ∧ t ∈ sessions w'.
Proof.
  intros Hi. assert (∀ h' w', inv (h', w') → ∀ t, mn_ssh_tunnel h' = Some t → t ∈ sessions w') as Hopen.
  { intros h' w' [_ (_ & _ & Hs)] t Ht. cbn [fst snd] in *. rewrite Ht in Hs. rewrite Hs. cbn. set_solver. }
  unfold open_tunnel. rewrite (bindS_run _ _ _ h (h, w)) by done. destruct (mn_ssh_tunnel h) as [t|] eqn:Ht.
  - rewrite bool_decide_eq_false_2 by done. exists t, h, w. unfold mbind, M_bind, mret, M_ret, gets, lift. cbn [fst]. rewrite Ht.
    split; [done|]. split; [done|]. by apply (Hopen h).
  - rewrite bool_decide_eq_true_2 by done. destruct (mn_connect_run h w Hi) as (t & w' & Hc & Hi').
    exists t, (mn_set_tunnel (Some t) h), w'. rewrite (bindS_run _ _ _ _ _ Hc). split; [done|]. split; [done|]. by apply (Hopen _ _ Hi').
Qed.
Lemma open_tunnel_keeps {A} (k : nat → M (MininetHost F * W) A) : (∀ t, keeps inv (k t)) → keeps inv (open_tunnel ≫= k).
Proof.
  intros Hk. apply keeps_bind; [|done]. intros [h w] Hi. by destruct (open_tunnel_run h w Hi) as (t & h' & w' & -> & ? & _).
Qed.

Lemma exec_runs cmd : runs inv (exec_on_remote cmd).
Proof.
  intros [h w] Hi. destruct (open_tunnel_run h w Hi) as (t & h' & w' & Hrun & [Hr Ha] & Ht). unfold exec_on_remote.
  rewrite (bindS_run _ _ _ _ _ Hrun). destruct (nl_exec laws t cmd w' Ht) as (out & w2 & He & Hsee). injection Hsee as Hr2 Hs2.
  exists out, (h', w2). unfold on_world. cbn [fst snd]. rewrite He. split; [done|]. split; cbn in *; [congruence|by rewrite Hs2].
Qed.
Lemma mn_run_runs cmd : runs inv (mn_run cmd).
Proof. apply runs_bind; [apply exec_runs|]. intros _. apply runs_ret. Qed.
Lemma stop_server_runs : runs inv mn_stop_server.
Proof. apply runs_bind; [apply runs_gets|]. intros h. destruct (mn_server_proc h); [apply mn_run_runs|apply runs_ret]. Qed.
Lemma stop_clients_runs : runs inv mn_stop_clients.
Proof. apply runs_bind; [apply runs_gets|]. intros h. apply runs_for_each. intros p. apply mn_run_runs. Qed.

Lemma disconnect_run h w : inv (h, w) → ∃ h' w', mn_disconnect (h, w) = (Ok tt, (h', w')) ∧ inv (h', w') ∧ mn_ssh_tunnel h' = None.
Proof.
  intros Hi. unfold mn_disconnect. destruct (stop_server_runs (h, w) Hi) as ([] & s1 & Hrun1 & Hi1). rewrite (bindS_run _ _ _ _ _ Hrun1).
  destruct (stop_clients_runs s1 Hi1) as ([] & [h2 w2] & Hrun2 & Hi2). rewrite (bindS_run _ _ _ _ _ Hrun2).
  destruct (close_tunnel_run h2 w2 Hi2) as (w3 & Hrun3 & Hr & Ha). rewrite (bindS_run _ _ _ _ _ Hrun3).
  exists (mn_set_tunnel None h2), w3. split; [done|]. split; [|done]. by split.
Qed.

(** The other methods can raise. *)
Lemma get_file_keeps {A} p (reader : string → M W A) : (∀ q, same_net (reader q)) → keeps inv (get_file p reader).
Proof.
  intros Hr. unfold get_file. apply open_tunnel_keeps. intros t. apply keeps_bind; [apply host_world, (nl_get laws)|]. intros _. by apply host_world.
Qed.
Lemma put_file_keeps p q : keeps inv (put_file p q).
Proof. unfold put_file. apply open_tunnel_keeps. intros t. apply host_world, (nl_put laws). Qed.
Lemma run_async_keeps cmd : keeps inv (run_async cmd).
Proof.
  unfold run_async. apply keeps_bind; [apply runs_keeps, exec_runs|]. intros _.
  apply keeps_bind; [apply get_file_keeps, (nl_text laws)|]. intros text. apply keeps_lift.
Qed.
Lemma start_server_keeps : keeps inv mn_start_server.
Proof.
  unfold mn_start_server. apply keeps_bind; [apply keeps_gets|]. intros h. apply keeps_bind; [apply run_async_keeps|]. intros pid. by apply host_self.
Qed.
Lemma start_clients_keeps json_dumps : keeps inv (mn_start_clients json_dumps).
Proof.
  unfold mn_start_clients. apply keeps_bind; [apply keeps_gets|]. intros h. apply keeps_if; [apply keeps_ret|]. apply keeps_for_each. intros [i g] _.
  unfold start_flow_group. apply keeps_bind; [apply keeps_gets|]. intros h'. apply keeps_bind; [apply host_world, (nl_write laws)|]. intros _.
  apply keeps_bind; [apply put_file_keeps|]. intros _. apply keeps_bind; [apply run_async_keeps|]. intros pid. by apply host_self.
Qed.

Lemma or_value_error_keeps {A} (m : M (MininetHost F * W) A) : keeps inv m → keeps inv (or_value_error m).
Proof. intros Hm s Hs. unfold or_value_error. specialize (Hm s Hs). by destruct (m s) as [[] s']. Qed.
Lemma sender_results_keeps : keeps inv sender_results_or_none.
Proof.
  assert (keeps inv get_sender_results) as Hk.
  { unfold get_sender_results. apply keeps_bind; [apply keeps_gets|]. intros h. apply keeps_bind; [|intros; apply keeps_ret].
    apply keeps_foldS. intros acc [i p] _. apply keeps_bind; [apply or_value_error_keeps, get_file_keeps, (nl_sender laws)|].
    intros x. apply keeps_ret. }
  intros s Hs. unfold sender_results_or_none. specialize (Hk s Hs). by destruct (get_sender_results s) as [[x|[]] s'].
Qed.
Lemma receiver_results_keeps : keeps inv get_receiver_results.
Proof.
  unfold get_receiver_results. apply keeps_bind; [apply keeps_gets|]. intros h. apply or_value_error_keeps, get_file_keeps, (nl_receiver laws).
Qed.
End host.

(** * All hosts *)

Section hosts.
Context (r : gset string) (base : gset nat).

Definition hosts_inv (s : dict Z (MininetHost F) * W) : Prop :=
  routes s.2 = r ∧ Dict.wf s.1 ∧ adds (omap mn_ssh_tunnel (Dict.values s.1)) base (sessions s.2).

(** A host's invariant, with the sessions of the others. *)
Lemma hosts_inv_host hosts w i h : hosts_inv (hosts, w) → Dict.get hosts i = Some h →
  ∃ others, host_inv r base others (h, w) ∧
    ∀ h' w', host_inv r base others (h', w') → hosts_inv (Dict.set hosts i h', w').
Proof.
  intros (Hr & Hwf & Ha) Hi. destruct (values_split hosts i h Hi) as (l1 & l2 & Hv & Hset). cbn [fst snd] in *.
  exists (omap mn_ssh_tunnel l1 ++ omap mn_ssh_tunnel l2).
  assert (∀ x : MininetHost F, omap mn_ssh_tunnel (l1 ++ x :: l2) ≡ₚ option_list (mn_ssh_tunnel x) ++ omap mn_ssh_tunnel l1 ++ omap mn_ssh_tunnel l2) as Hp.
  { intros x. rewrite omap_app. cbn. destruct (mn_ssh_tunnel x); cbn; [|done]. by rewrite Permutation_middle. }
  split.
  - split; [done|]. cbn [fst snd]. eapply adds_perm; [apply Hp|]. by rewrite <-Hv.
  - intros h' w' [Hr' Ha']. split_and!; [done|by apply Dict.wf_set|]. cbn [fst snd] in *. rewrite Hset. eapply adds_perm; [symmetry; apply Hp|done].
Qed.

Lemma on_mn_host_keeps {A} i (m : M (MininetHost F * W) A) : (∀ others, keeps (host_inv r base others) m) → keeps hosts_inv (on_mn_host i m).
Proof.
  intros Hm [hosts w] Hi. unfold on_mn_host. cbn [fst snd]. destruct (Dict.get hosts i) as [h|] eqn:Hh; [|done].
  destruct (hosts_inv_host hosts w i h Hi Hh) as (others & Hhi & Hback). specialize (Hm others (h, w) Hhi).
  destruct (m (h, w)) as [a [h' w']]. by apply Hback.
Qed.
Lemma each_host_keeps (m : M (MininetHost F * W) unit) : (∀ others, keeps (host_inv r base others) m) → keeps hosts_inv (each_mn_host m).
Proof.
  intros Hm. unfold each_mn_host. apply keeps_bind; [apply keeps_gets|]. intros hosts. apply keeps_for_each. intros i _. by apply on_mn_host_keeps.
Qed.
Lemma collect_keeps : keeps hosts_inv mn_collect_end_host_results.
Proof.
  unfold mn_collect_end_host_results. apply keeps_bind; [apply keeps_gets|]. intros hosts. apply keeps_foldS. intros acc i _.
  apply keeps_bind; [apply on_mn_host_keeps, receiver_results_keeps|]. intros x.
  apply keeps_bind; [apply on_mn_host_keeps, sender_results_keeps|]. intros y. apply keeps_ret.
Qed.

(** Disconnecting the hosts one after the other closes their sessions. *)
Lemma disconnect_all_run ids hosts w :
  hosts_inv (hosts, w) → (∀ i, i ∈ ids → is_Some (Dict.get hosts i)) →
  ∃ hosts' w', for_each ids (λ i, on_mn_host i mn_disconnect) (hosts, w) = (Ok tt, (hosts', w')) ∧ hosts_inv (hosts', w')
    ∧ ∀ i h, Dict.get hosts' i = Some h → ∃ h0, Dict.get hosts i = Some h0 ∧ (i ∈ ids ∨ mn_ssh_tunnel h0 = None → mn_ssh_tunnel h = None).
Proof.
  revert hosts w. induction ids as [|i ids IH]; intros hosts w Hi Hids; cbn [for_each].
  - exists hosts, w. split; [done|]. split; [done|]. intros i h Hh. exists h. split; [done|]. by intros [?%elem_of_nil|].
  - destruct (Hids i) as [h Hh]; [left|]. destruct (hosts_inv_host hosts w i h Hi Hh) as (others & Hhi & Hback).
    destruct (disconnect_run r base others h w Hhi) as (h' & w' & Hrun & Hhi' & Hnone).
    assert (on_mn_host i mn_disconnect (hosts, w) = (Ok tt, (Dict.set hosts i h', w'))) as Hstep.
    { unfold on_mn_host. cbn [fst snd]. by rewrite Hh, Hrun. }
    rewrite (bindS_run _ _ _ _ _ Hstep). destruct (IH (Dict.set hosts i h') w' (Hback _ _ Hhi')) as (hosts2 & w2 & Hrest & Hi2 & Hget).
    { intros j Hj. rewrite Dict.get_set. case_decide; [done|]. apply Hids. by right. }
    exists hosts2, w2. split; [done|]. split; [done|]. intros j hj Hj. destruct (Hget j hj Hj) as (h1 & Hj1 & Hclosed).
    rewrite Dict.get_set in Hj1. case_decide as Hij.
    + subst j. injection Hj1 as <-. exists h. split; [done|]. intros _. apply Hclosed. by right.
    + exists h1. split; [done|]. intros [Hin|Hn]; apply Hclosed; [|by right]. apply elem_of_cons in Hin as [->|Hin]; [done|by left].
Qed.
Lemma destroy_all_run hosts w :
  hosts_inv (hosts, w) → ∃ hosts' w', destroy_all_mininet_hosts (hosts, w) = (Ok tt, (hosts', w')) ∧ routes w' = r ∧ sessions w' = base.
Proof.
  intros Hi. unfold destroy_all_mininet_hosts, each_mn_host. rewrite (bindS_run _ _ _ hosts (hosts, w)) by done.
  destruct (disconnect_all_run (Dict.keys hosts) hosts w Hi) as (hosts' & w' & Hrun & (Hr & Hwf & Ha) & Hget).
  { intros i Hin. by apply Dict.elem_of_keys. }
  exists hosts', w'. split; [done|]. split; [done|]. apply adds_nil_inv. cbn [fst snd] in *.
  replace (omap mn_ssh_tunnel (Dict.values hosts')) with (@nil nat) in Ha; [done|]. symmetry.
  assert (Forall (λ h, mn_ssh_tunnel h = None) (Dict.values hosts')) as Hall.
  { apply values_all; [done|]. intros i h Hh. destruct (Hget i h Hh) as (h0 & Hh0 & Hclosed). apply Hclosed. left.
    apply Dict.elem_of_keys. eauto. }
  clear -Hall. induction Hall as [|h l Hh _ IH]; [done|]. cbn. by rewrite Hh.
Qed.
End hosts.

(** * The trial *)

(** The routes are those of [w0] and the tokens, the sessions are those of
    [w0] and of the hosts. *)
Definition trial_inv (w0 : W) (s : MiniRun F * W) : Prop :=
  adds (mr_flow_tokens s.1) (routes w0) (routes s.2) ∧ Dict.wf (mr_hosts s.1)
  ∧ adds (omap mn_ssh_tunnel (Dict.values (mr_hosts s.1))) (sessions w0) (sessions s.2).

Section trial.
Context (w0 : W).
Abbreviation inv := (trial_inv w0).

Lemma trial_see st w st' w' :
  inv (st, w) → see_net w' = see_net w → mr_hosts st' = mr_hosts st → mr_flow_tokens st' = mr_flow_tokens st → inv (st', w').
Proof. intros (Ht & Hwf & Ha) Hsee Hh Htok. injection Hsee as Hr Hs. unfold trial_inv. cbn [fst snd] in *. by rewrite Hh, Htok, Hr, Hs. Qed.

Lemma trial_world {A} (m : M W A) : same_net m → keeps inv (on_world m).
Proof.
  intros Hm [st w] Hi. unfold on_world. cbn [fst snd]. specialize (Hm w). destruct (m w) as [a w']. by eapply trial_see.
Qed.
Lemma trial_hosts {A} (m : M (dict Z (MininetHost F) * W) A) :
  (∀ r, keeps (hosts_inv r (sessions w0)) m) → keeps inv (mn_on_hosts m).
Proof.
  intros Hm [st w] (Ht & Hwf & Ha). unfold mn_on_hosts. cbn [fst snd] in *. specialize (Hm (routes w) (mr_hosts st, w)).
  destruct (m (mr_hosts st, w)) as [a [hosts' w']]. cbn [fst snd] in Hm. destruct Hm as (Hr & Hwf' & Ha'); [done|].
  cbn [fst snd] in *. split_and!; cbn [fst snd mr_flow_tokens mr_hosts mn_set_hosts]; [by rewrite Hr|done..].
Qed.
Lemma trial_tags {A} (m : M (dict (Z * Z) Z) A) : keeps inv (mn_on_tags m).
Proof. intros [st w] Hi. unfold mn_on_tags. cbn [fst snd]. destruct (m (mr_tag_values st)). by eapply trial_see. Qed.
Lemma trial_object name (o : mini_object F) : keeps inv (mn_add_object (W:=W) name o).
Proof. intros [st w] Hi. unfold mn_add_object. cbn [fst snd]. destruct (add_parameter _ _ _); [by eapply trial_see|done]. Qed.

(** The monitor. *)
Lemma trial_monitor {A} (m : M (OnMonitor * W) A) : (∀ x, keeps (λ s, see_net s.2 = x) m) → keeps inv (mn_on_monitor m).
Proof.
  intros Hm [st w] Hi. unfold mn_on_monitor. cbn [fst snd]. specialize (Hm (see_net w) (mr_monitor st, w) eq_refl).
  destruct (m (mr_monitor st, w)) as [a [mon w']]. by eapply trial_see.
Qed.
Lemma controller_same {A} (m : M W A) x : same_net m → keeps (λ s, see_net s.2 = x) (on_controller m).
Proof. intros Hm [mon w] <-. unfold on_controller. cbn [snd]. specialize (Hm w). by destruct (m w). Qed.
Lemma mn_start_monitor_same x : keeps (λ s, see_net s.2 = x) (start_monitor post_start).
Proof.
  unfold start_monitor. apply keeps_bind; [apply keeps_gets|]. intros self. apply keeps_if; [apply keeps_lift|].
  apply keeps_bind; [apply controller_same, (nl_start laws)|]. intros res. apply keeps_if; [by apply keeps_modify|apply keeps_lift].
Qed.
Lemma mn_stop_monitor_same x : keeps (λ s, see_net s.2 = x) (stop_monitor post_stop).
Proof.
  unfold stop_monitor. apply keeps_bind; [apply keeps_gets|]. intros self. destruct (monitor_token self); [|apply keeps_lift].
  apply keeps_bind; [apply controller_same, (nl_stop laws)|]. intros res. apply keeps_if; [by apply keeps_modify|apply keeps_lift].
Qed.

(** Installing a flow and noting its token are one step. *)
Lemma trial_install {A} flow_json (k : M (MiniRun F * W) A) :
  keeps inv k → keeps inv (on_world (install_flow flow_json) ≫= λ token, set_self (mn_add_token token) ≫= λ _, k).
Proof.
  intros Hk [st w] Hi. unfold on_world, install_flow, mbind, M_bind. cbn [fst snd].
  pose proof (rs_add _ (nl_server laws) flow_json w) as Hadd. pose proof (nl_post laws add_route_url (Some flow_json) w) as Hs.
  destruct (route_post _ _ w) as [[res|e] w1]; cbn [fst snd] in *.
  - destruct Hadd as [[Hst (tok & Htok & Hnew & Hr)]|[Hst Hr]].
    + rewrite bool_decide_false by lia. rewrite Htok. apply Hk. destruct Hi as (Ht & Hwf & Ha). cbn [fst snd] in *.
      split_and!; cbn [fst snd mr_flow_tokens mr_hosts mn_add_token]; [rewrite Hr; by apply adds_set_add|done|by rewrite Hs].
    + rewrite bool_decide_true by lia. eapply trial_see; [exact Hi| |done..]. unfold see_net. congruence.
  - eapply trial_see; [exact Hi| |done..]. unfold see_net. congruence.
Qed.

Lemma configure_keeps flow k_matrix tags i : keeps inv (configure_on_source flow k_matrix tags i).
Proof.
  unfold configure_on_source. apply trial_hosts. intros r. apply keeps_bind; [apply keeps_gets|]. intros hosts.
  apply keeps_bind; [apply keeps_lift|]. intros src. apply keeps_bind; [apply keeps_lift|]. intros dst.
  apply keeps_bind; [apply keeps_lift|]. intros ts. apply on_mn_host_keeps. intros others. by apply host_self.
Qed.
Lemma install_mininet_flow_keeps id_to_dpid n id_flow : keeps inv (install_mininet_flow id_to_dpid n id_flow).
Proof.
  unfold install_mininet_flow. apply keeps_bind; [apply trial_tags|]. intros [flow_json tags]. apply trial_install.
  apply keeps_bind; [apply keeps_lift|]. intros k. apply keeps_bind; [apply configure_keeps|]. intros _. apply keeps_ret.
Qed.
End trial.

Context `{OnosApi} {GN GT : Type} `{NxGraph string GN} `{NxGraph Z GT}.
Variable graph_matcher : GN → GT → option (dict string Z).
Variable np_mean : list F → F.
Variable json_dumps : list (MininetClient F) → string.
Variable pformat : mini_object F → string.

(** New hosts have no sessions. *)
Lemma create_hosts_fresh id_to_dpid ids (hosts : dict Z (MininetHost F)) :
  create_mininet_hosts id_to_dpid ids = Ok hosts → Dict.wf hosts ∧ omap mn_ssh_tunnel (Dict.values hosts) = [].
Proof.
  unfold create_mininet_hosts. intros (mapper & _ & Hfold)%bind_Ok.
  assert (Dict.wf hosts ∧ ∀ i h, Dict.get hosts i = Some h → mn_ssh_tunnel h = None) as [Hwf Hnone].
  { refine (foldM_inv (λ d, Dict.wf d ∧ ∀ i h, Dict.get d i = Some h → mn_ssh_tunnel h = None) _ _ _ [] hosts _ Hfold); [|by split; [constructor|]].
    intros d i d' _ [Hwf Hn] (dpid & _ & (ip & _ & (h & Hh & [= <-])%bind_Ok)%bind_Ok)%bind_Ok. split; [by apply Dict.wf_set|].
    intros j hj. rewrite Dict.get_set. case_decide; [|apply Hn]. intros [= <-]. unfold init_mininet_host in Hh.
    by apply bind_Ok in Hh as (? & _ & [= <-]). }
  split; [done|]. assert (Forall (λ h, mn_ssh_tunnel h = None) (Dict.values hosts)) as Hall by (by apply values_all).
  clear -Hall. induction Hall as [|h l Hh _ IH]; [done|]. cbn. by rewrite Hh.
Qed.

Lemma mininet_body_inv flows t heap w :
  trial_inv w (mininet_body json_dumps pformat graph_matcher post_start post_stop np_mean flows
                 (mkMiniRun [] [] [] init_monitor t heap, w)).2.
Proof.
  set (s0 := mkMiniRun [] [] [] init_monitor t heap).
  assert (trial_inv w (s0, w)) as Hi0 by (split_and!; [apply adds_nil|constructor|apply adds_nil]).
  unfold mininet_body. destruct (get_and_validate_onos_topo_x _ _) as [id_to_dpid|e]; [|exact Hi0].
  rewrite (bindS_run _ _ _ id_to_dpid (s0, w)) by done.
  destruct (create_mininet_hosts (F:=F) id_to_dpid [0; 1]%Z) as [hosts|e] eqn:Hcreate; [|exact Hi0].
  rewrite (bindS_run _ _ _ hosts (s0, w)) by done. rewrite (bindS_run _ _ _ tt (mn_set_hosts hosts s0, w)) by done.
  apply create_hosts_fresh in Hcreate as [Hwf Hnone].
  assert (trial_inv w (mn_set_hosts hosts s0, w)) as Hi1.
  { split_and!; cbn [fst snd mr_flow_tokens mr_hosts mn_set_hosts s0]; [apply adds_nil|done|rewrite Hnone; apply adds_nil]. }
  eapply keeps_bind; [apply trial_hosts; intros r; apply each_host_keeps; intros others; apply start_server_keeps|intros _|exact Hi1].
  apply keeps_bind; [apply keeps_gets|]. intros st. apply keeps_bind; [apply keeps_lift|]. intros flow_list.
  apply keeps_bind.
  { apply keeps_foldS. intros tags id_flow _. apply keeps_bind; [apply install_mininet_flow_keeps|]. intros ts. apply keeps_ret. }
  intros tags. apply keeps_bind; [apply keeps_gets|]. intros st1. apply keeps_bind; [apply keeps_lift|]. intros background.
  apply keeps_bind; [apply keeps_lift|]. intros background_list. apply keeps_bind.
  { apply keeps_for_each. intros id_flow _. unfold configure_background_flow. apply keeps_bind; [apply keeps_lift|]. intros k. apply configure_keeps. }
  intros _. apply keeps_bind; [apply trial_monitor, mn_start_monitor_same|]. intros _.
  apply keeps_bind; [apply trial_hosts; intros r; apply each_host_keeps; intros others; apply start_clients_keeps|]. intros _.
  apply keeps_bind; [apply keeps_gets|]. intros st2. apply keeps_bind; [apply keeps_lift|]. intros h0. apply keeps_bind; [apply keeps_lift|].
  intros duration. apply keeps_bind; [apply keeps_lift|]. intros z.
  apply keeps_bind; [apply trial_hosts; intros r; apply each_host_keeps; intros others; apply runs_keeps, stop_clients_runs|]. intros _.
  apply keeps_bind; [apply trial_hosts; intros r; apply each_host_keeps; intros others; apply runs_keeps, stop_server_runs|]. intros _.
  apply keeps_bind; [apply trial_monitor, mn_stop_monitor_same|]. intros _.
  apply keeps_bind; [apply trial_monitor; intros x; unfold get_monitor_statistics; auto with testbed|]. intros results.
  apply keeps_bind; [apply trial_hosts; intros r; apply collect_keeps|]. intros ehr.
  do 3 (apply keeps_bind; [apply trial_world, (nl_write laws)|]; intros _).
  do 3 (apply keeps_bind; [apply trial_object|]; intros _). apply trial_object.
Qed.

Lemma mn_remove_all w0 (toks : list string) w :
  adds toks (routes w0) (routes w) → ∃ w', mn_remove_all_flows toks w = (Ok tt, w') ∧ routes w' = routes w0 ∧ sessions w' = sessions w.
Proof.
  unfold mn_remove_all_flows. revert w. induction toks as [|tok toks IH]; intros w Ha; cbn [for_each].
  - exists w. split_and!; [done| |done]. by apply adds_nil_inv.
  - apply adds_cons in Ha as [Hin Ha]. destruct (rs_remove _ (nl_server laws) tok w Hin) as (res & w1 & Hr & Hst & Hw1).
    pose proof (nl_post laws (remove_route_url tok) None w) as Hs. rewrite Hr in Hs. cbn in Hs.
    destruct (IH w1) as (w2 & Hw2 & ? & ?); [by rewrite Hw1|]. exists w2.
    rewrite (bindS_run _ _ _ tt w1); [split_and!; [exact Hw2|congruence..]|].
    unfold uninstall_flow, mbind, M_bind. rewrite Hr. by rewrite bool_decide_false by lia.
Qed.

End laws.

(** * A network *)

Record mini_world : Type := mkMiniWorld { mw_routes : gset string; mw_sessions : gset nat }.

#[export] Instance mini_world_ssh : SshEnv mini_world := {|
  ssh_client w := (Ok (fresh (mw_sessions w)), w);
  ssh_connect t _ _ _ _ w := (Ok tt, mkMiniWorld (mw_routes w) ({[t]} ∪ mw_sessions w));
  ssh_exec t _ w := if decide (t ∈ mw_sessions w) then (Ok (EmptyString, EmptyString), w) else (Raise IOError, w);
  ssh_close t w := (Ok tt, mkMiniWorld (mw_routes w) (mw_sessions w ∖ {[t]}));
  scp_run _ := mret 0%Z;
  receiver_pickle _ := mret None;
  sender_pickle _ := mret None
|}.
#[export] Instance mini_world_scp : ScpEnv mini_world := {|
  scp_get _ _ _ := mret tt;
  scp_put _ _ _ := mret tt;
  local_text _ := mret ("4711" +:+ String newline EmptyString)%string;
  local_write _ _ := mret tt;
  local_receiver _ := mret [];
  local_sender _ := lift (Raise FileNotFoundError)
|}.
#[export] Instance mini_world_routes : RouteApi mini_world := {|
  route_post url body w := let '(r, rs) := demo_route_post url body (mw_routes w) in (r, mkMiniWorld rs (mw_sessions w))
|}.
Definition mini_start : M mini_world (Z * string) := mret (200%Z, "monitor"%string).
Definition mini_stop (tok : string) : M mini_world (Z * list (list IfaceStats)) := mret (200%Z, [[]; []]).

Lemma mini_world_server : route_server mw_routes.
Proof.
  destruct demo_route_server as [Hadd Hrem]. split.
  - intros ps w. specialize (Hadd ps (mw_routes w)). unfold route_post, mini_world_routes.
    unfold route_post, demo_route_api in Hadd. destruct (demo_route_post _ _ (mw_routes w)) as [[r|e] rs]; exact Hadd.
  - intros tok w Hin. destruct (Hrem tok (mw_routes w) Hin) as (r & rs & Hrun & Hs & Hr).
    exists r, (mkMiniWorld rs (mw_sessions w)). unfold route_post, mini_world_routes.
    unfold route_post, demo_route_api in Hrun. rewrite Hrun. done.
Qed.
Lemma mini_world_laws : mininet_laws mini_start mini_stop mw_routes mw_sessions.
Proof.
  split; [apply mini_world_server|..]; try (intros; done).
  - intros url body w. unfold route_post, mini_world_routes. by destruct (demo_route_post _ _ _).
  - intros w. exists (fresh (mw_sessions w)), w. split; [done|]. split; [apply is_fresh|done].
  - intros t ip port u pw w. by eexists.
  - intros t cmd w Ht. exists (EmptyString, EmptyString), w. unfold ssh_exec, mini_world_ssh. by rewrite decide_True.
  - intros t w. by eexists.
Qed.

(** Two switches with hosts and five between them. *)
#[local] Instance mini_onos : OnosApi := {|
  onos_links := Ok (200%Z, []);
  onos_hosts := Ok (200%Z, [mkHost ["10.0.0.1"%string] [("of:0", "1")%string]; mkHost ["10.0.0.2"%string] [("of:1", "1")%string]])
|}.
Definition mini_isomorphism (_ : list_graph string) (_ : list_graph Z) : option (dict string Z) :=
  Some ((λ i, (String.append "of:" (str_of_Z i), i)) <$> seqZ 0 7).

Definition mini_flow : TuitiFlow SpecFloat.spec_float := mkTuitiFlow 0 1 [f_of_Z 1000; f_of_Z 2000] [[0; 2; 1]; [0; 3; 1]]%Z [fzero; fzero].
Definition mini_heap : list (mini_object SpecFloat.spec_float) := [MTrial (TFlowSet [mini_flow; mini_flow]); MTrial (TFlowSet [mini_flow])].
Definition mini_trial : Trial :=
  mkTrial 0 "demo" [("seed-number"%string, VStr "1234"); ("flow-set"%string, VObj 0); ("background-traffic-flow-set"%string, VObj 1);
    ("duration"%string, VInt 2)].
Definition mini_net : mini_world := mkMiniWorld {["other"%string]} {[ 7 ]}.


(** The trial of the witness runs to its end, and records the results of the
    hosts. *)
Lemma mini_trial_completes :
  match (conduct_mininet_trial (λ _, EmptyString) (λ _, EmptyString) mini_isomorphism mini_start mini_stop fsum
      mini_trial mini_heap mini_net).1 with
  | Ok (t', heap') => has_parameter t' "end-host-results" = true ∧ last heap' = Some (MHostResults [(0%Z, ([], None)); (1%Z, ([], Some []))])
  | Raise _ => False
  end.
Proof. by vm_compute. Qed.

(** The same network, in which the hosts are lost after a number of
    commands. *)
Record weak_world : Type := mkWeakWorld { ww_net : mini_world; ww_left : nat }.
Definition on_net {A} (m : M mini_world A) : M weak_world A := λ w,
  let '(r, n) := m (ww_net w) in (r, mkWeakWorld n (ww_left w)).
#[local] Instance weak_world_ssh : SshEnv weak_world := {|
  ssh_client := on_net ssh_client;
  ssh_connect t ip port u pw := on_net (ssh_connect t ip port u pw);
  ssh_exec t cmd w := match ww_left w with
                      | O => (Raise IOError, w)
                      | S n => on_net (ssh_exec t cmd) (mkWeakWorld (ww_net w) n)
                      end;
  ssh_close t := on_net (ssh_close t);
  scp_run cmd := on_net (scp_run cmd);
  receiver_pickle f := on_net (receiver_pickle f);
  sender_pickle f := on_net (sender_pickle f)
|}.
#[local] Instance weak_world_scp : ScpEnv weak_world := {|
  scp_get t p q := on_net (scp_get t p q);
  scp_put t p q := on_net (scp_put t p q);
  local_text p := on_net (local_text p);
  local_write p s := on_net (local_write p s);
  local_receiver p := on_net (local_receiver p);
  local_sender p := on_net (local_sender p)
|}.
#[local] Instance weak_world_routes : RouteApi weak_world := {| route_post url body := on_net (route_post url body) |}.

(** When a host cannot be reached in the end, the trial raises before the
    routes are removed: they stay, and so do the sessions. *)
Lemma lost_host_keeps_routes :
  let '(r, w') := conduct_mininet_trial (λ _, EmptyString) (λ _, EmptyString) mini_isomorphism (on_net mini_start)
    (λ tok, on_net (mini_stop tok)) fsum mini_trial mini_heap (mkWeakWorld mini_net 2) in
  r = Raise IOError ∧ size (mw_routes (ww_net w')) = 3 ∧ size (mw_sessions (ww_net w')) = 3.
Proof. by vm_compute. Qed.
