(* ===== verification/Figures.v ===== *)
(** The plotting helpers (data_visualization/helpers.py and params.py).

    matplotlib is not part of the program: a function that plots is modelled
    by the calls it makes, recorded in order in a [trace]. The world [W]
    beside the trace is what else the function uses (the file system, the
    random numbers). *)

From Stdlib Require Import Ascii.
From S2P Require Import Prelude PyDict PyFloat PyStr PyText Groups.
Close Scope string_scope.

(** An argument of a call. *)
Inductive arg (F : Type) : Type :=
  | ANone
  | ABool (b : bool)
  | AInt (z : Z)
  | AFloat (x : F)
  | AStr (s : string)
  | AList (l : list (arg F))
  | ATuple (l : list (arg F))
  | ADict (d : list (string * arg F)).
Arguments ANone {F}.
Arguments ABool {F} _.
Arguments AInt {F} _.
Arguments AFloat {F} _.
Arguments AStr {F} _.
Arguments AList {F} _.
Arguments ATuple {F} _.
Arguments ADict {F} _.

(** What a method is called on: the module [plt], an axis of the last
    [plt.subplots], or the result of another call, by its name. *)
Inductive target : Type := Plt | Ax (i : nat) | Made (name : string).

Record call (F : Type) : Type := mkCall {
  c_on : target;
  c_method : string;
  c_args : list (arg F);
  c_kwargs : dict string (arg F)
}.
Arguments mkCall {F} _ _ _ _.
Arguments c_on {F} _.
Arguments c_method {F} _.
Arguments c_args {F} _.
Arguments c_kwargs {F} _.

Abbreviation trace F := (list (call F)).

Definition invoke {F W} (on : target) (method : string) (args : list (arg F)) (kwargs : dict string (arg F))
    : M (trace F * W) unit := set_self (λ t, t ++ [mkCall on method args kwargs]).

Definition plt {F W} (method : string) (args : list (arg F)) (kwargs : dict string (arg F)) : M (trace F * W) unit :=
  invoke Plt method args kwargs.

Definition floats {F} (l : list F) : arg F := AList (AFloat <$> l).
Definition strs {F} (l : list string) : arg F := AList (AStr <$> l).

(** [statistics.mean]: the exact mean, rounded once. *)
Definition exact_value {F} `{PyFloatText F} (x : F) : option (Z * positive) :=
  match classify x with FFin neg n d => Some (if neg then - n else n, d)%Z | _ => None end.
Definition add_value (a b : Z * positive) : Z * positive := ((a.1 * Zpos b.2 + b.1 * Zpos a.2)%Z, (a.2 * b.2)%positive).
Definition mean {F} `{PyFloatText F} (data : list F) : res F :=
  match data with
  | [] => Raise ValueError
  | _ =>
      let n := Pos.of_nat (length data) in
      match mapM exact_value data with
      | Some vs => let total := foldl add_value (0%Z, 1%positive) vs in Ok (flit total.1 (total.2 * n))
      | None => Ok (fquot (fsum (filter (λ x, exact_value x = None) data)) (f_of_Z (Zpos n)))
      end
  end.

(** ["%.<k>f" % x] *)
Definition fmt_prec {F} `{PyFloatText F} (k : nat) (x : F) : string :=
  let sign (neg : bool) : string := if neg then "-"%string else EmptyString in
  match classify x with
  | FNan => "nan"%string
  | FInf neg => sign neg +:+ "inf"%string
  | FFin neg n d =>
      let m := round_half_even (n * 10 ^ Z.of_nat k) d in
      sign neg +:+ str_of_Z (m / 10 ^ Z.of_nat k) +:+
        match k with 0 => EmptyString | _ => String dot (digits k (m mod 10 ^ Z.of_nat k)) end
  end.

(** * params.py *)

Section params.
Context {F : Type} `{PyFloat F}.
Local Open Scope string_scope.

Definition FIGURE_OUTPUT_PATH : string := "/home/alexj/plots".
Definition LEGEND_HEIGHT : F := flit 1125 1000.
Definition SOLUTION_LABELS : dict string string :=
  [("rnd", "$\epsilon$-LPR"); ("det", "LPR"); ("df", "DuFi"); ("optimal", "Optimal")].
Definition BAR_PLOT_COLORS : list (arg F) := AStr <$> ["palegreen"; "skyblue"; "lightpink"; "silver"].
Definition BAR_PLOT_TEXTURES : list (arg F) := AStr <$> ["//"; "."; "*"; "\"; "|"].
Definition MARKER_STYLE : list (arg F) :=
  [AStr "x"; AStr "o"; AStr "^"; AStr "v"; ATuple [AInt 5; AInt 0; AFloat (fquot (f_of_Z 360) (f_of_Z 5))]].
Definition MARKER_COLOR : list (arg F) := AStr <$> ["red"; "lime"; "palegreen"].
Definition MARKER_FILL_STYLES : list (arg F) := [AStr "none"].
Definition LINE_STYLE : list (arg F) := [AStr "-"].
Definition LINE_COLOR : list (arg F) := AStr <$> ["red"; "darkviolet"; "orange"; "green"; "tab:brown"].
Definition FONT : dict string (arg F) := [("family", AStr "sans serif"); ("size", AInt 16)].
Definition LEGEND : dict string (arg F) :=
  [("shadow", ABool false); ("fontsize", AInt 10); ("handletextpad", AFloat (flit 3 10));
   ("columnspacing", AFloat fone); ("fancybox", ABool false); ("edgecolor", AStr "black");
   ("loc", AStr "upper center"); ("bbox_to_anchor", ATuple [AFloat (flit 5 10); AFloat (flit 115 100)])].
Definition AXIS_LABELS : dict string (arg F) := [("fontsize", AInt 22); ("family", AStr "sans serif")].
Definition BOX_WIDTH : F := flit 75 100.
Definition GRID : dict string (arg F) :=
  [("b", ABool true); ("which", AStr "both"); ("color", AStr "lightgray"); ("linestyle", AStr "--")].
End params.

(** * Fonts and styles *)

Local Open Scope string_scope.

Definition LARGE (phrase : string) : string := "\LARGE{" +:+ phrase +:+ "}".
Definition huge (phrase : string) : string := "\huge{" +:+ phrase +:+ "}".
Definition bf (phrase : string) : string := "\textbf{" +:+ phrase +:+ "}".
Definition axis_label_font (phrase : string) : string := huge phrase.
Definition legend_font (phrase : string) : string := huge phrase.
Definition trial_name_font (phrase : string) : string := "\scalebox{0.7}[1.0]{\textsf{" +:+ phrase +:+ "}}".
Definition super_title_font (phrase : string) : string := "\normalsize{" +:+ phrase +:+ "}".
Definition sub_title_font (phrase : string) : string := "\small{" +:+ phrase +:+ "}".

(** A tick: a float of numpy is printed with the given precision, another
    label as it is. *)
Definition tick_font {F} `{PyFloatText F} (tick_label : F + string) (precision : nat) : string :=
  "\text{\LARGE{\textsf{" +:+ match tick_label with inl x => fmt_prec precision x | inr s => s end +:+ "}}}".

Definition idx_list_circular {A} (idx : nat) (the_list : list A) : res A :=
  match List.length the_list with
  | 0 => Raise ZeroDivisionError
  | n => or_raise IndexError (the_list !! (idx mod n))
  end.

Section helpers.
Context {F W : Type} `{PyFloat F}.

Definition marker_style (idx : nat) : res (arg F) := idx_list_circular idx MARKER_STYLE.
Definition line_style (idx : nat) : res (arg F) := idx_list_circular idx LINE_STYLE.
Definition line_color (idx : nat) : res (arg F) := idx_list_circular idx LINE_COLOR.
Definition marker_color (idx : nat) : res (arg F) := idx_list_circular idx MARKER_COLOR.
Definition bar_color (idx : nat) : res (arg F) := idx_list_circular idx BAR_PLOT_COLORS.
Definition bar_texture (idx : nat) : res (arg F) := idx_list_circular idx BAR_PLOT_TEXTURES.
Definition fill_style (idx : nat) : res (arg F) := idx_list_circular idx MARKER_FILL_STYLES.

Abbreviation Draw := (M (trace F * W)).

Definition xlabel (phrase : string) : Draw unit := plt "xlabel" [AStr (axis_label_font phrase)] AXIS_LABELS.
Definition ylabel (phrase : string) : Draw unit := plt "ylabel" [AStr (axis_label_font phrase)] [].

(** ["no_legend" in kwargs and kwargs["no_legend"]] *)
Definition no_legend (kwargs : dict string (arg F)) : bool :=
  match Dict.get kwargs "no_legend" with
  | Some (ABool b) => b
  | Some ANone | None => false
  | Some _ => true
  end.

Definition figure_path (figure_name : string) : string := FIGURE_OUTPUT_PATH +:+ "/" +:+ figure_name.

(** The number of columns and the look of the legend have defaults. *)
Definition save_figure_with (figure_name : string) (num_cols : Z) (legend_kwargs kwargs : dict string (arg F)) : Draw unit :=
  let p := figure_path figure_name in
  let kwargs := Dict.set kwargs "bbox_inches" (AStr "tight") in
  _ ← plt "tick_params" [] [("labelsize", AInt 15)];
  _ ← plt "grid" [] GRID;
  _ ← (if no_legend kwargs then mret tt else plt "legend" [] (("ncol", AInt num_cols) :: legend_kwargs));
  _ ← invoke (Made "gca") "set_axisbelow" [ABool true] [];
  _ ← plt "savefig" [AStr p] kwargs;
  plt "clf" [] [].
Definition save_figure (figure_name : string) (num_cols : Z) (kwargs : dict string (arg F)) : Draw unit :=
  save_figure_with figure_name num_cols LEGEND kwargs.

Definition save_subfigure_plot (figure_name : string) (plot_axis : list target) (num_cols : Z) (kwargs : dict string (arg F)) : Draw unit :=
  let p := figure_path figure_name in
  let kwargs := Dict.set kwargs "bbox_inches" (AStr "tight") in
  _ ← for_each plot_axis (λ ax,
    _ ← invoke ax "tick_params" [] [("labelsize", AInt 15)];
    _ ← invoke ax "grid" [] GRID;
    invoke ax "set_axisbelow" [ABool true] []);
  _ ← (if no_legend kwargs then mret tt else plt "legend" [] (("ncol", AInt num_cols) :: LEGEND));
  _ ← plt "savefig" [AStr p] kwargs;
  plt "clf" [] [].

(** The keyword arguments of [plot_a_cdf], [plot_a_bar] and
    [plot_a_scatter], which have defaults. *)
Record plot_opts : Type := mkOpts {
  o_idx : nat;
  o_label : option string;
  o_plot_markers : bool;
  o_axis : option target;
  o_label_data : bool
}.
Definition default_opts : plot_opts := mkOpts 0 None true None true.
Definition with_idx (idx : nat) : plot_opts := mkOpts idx None true None true.
Definition labelled (idx : nat) (label : string) : plot_opts := mkOpts idx (Some label) true None true.
Definition axis_to_plot_on (o : plot_opts) : target := default Plt (o_axis o).
Definition label_or (o : plot_opts) (prefix : string) : string :=
  default (prefix +:+ str_of_Z (Z.of_nat (o_idx o))) (o_label o).

(** The points of the distribution function of [sorted_cdf_data]. *)
Definition cdf_points (sorted_cdf_data : list F) : list F * list F :=
  foldl (λ '(xs, ys) '(ctr, d_i),
    (xs ++ [d_i], ys ++ [flit (Z.of_nat (ctr + 1)) (Pos.of_nat (List.length sorted_cdf_data))])%list)
    ([fzero], [fzero]) (enumerate sorted_cdf_data).

(** [kwargs[k] = v] when [b] *)
Definition set_if (b : bool) (k : string) (v : arg F) (kwargs : dict string (arg F)) : dict string (arg F) :=
  if b then Dict.set kwargs k v else kwargs.

Definition plot_a_cdf (sorted_cdf_data : list F) (o : plot_opts) : Draw unit :=
  let '(xs, ys) := cdf_points sorted_cdf_data in
  linestyle ← lift (line_style (o_idx o));
  color ← lift (line_color (o_idx o));
  fillstyle ← lift (fill_style (o_idx o));
  marker ← lift (marker_style (o_idx o));
  let plot_kwargs := [("linestyle", linestyle); ("color", color); ("fillstyle", fillstyle)] in
  let plot_kwargs := set_if (o_plot_markers o) "marker" marker plot_kwargs in
  let plot_kwargs := set_if (o_label_data o) "label" (AStr (label_or o "CDF ")) plot_kwargs in
  invoke (axis_to_plot_on o) "plot" [floats xs; floats ys] plot_kwargs.

(** [bar_x_locations] and [bar_y_values] are numbers or lists of numbers. *)
Definition plot_a_bar (bar_x_locations bar_y_values : arg F) (o : plot_opts) (bar_width : F) : Draw unit :=
  color ← lift (bar_color (o_idx o));
  hatch ← lift (bar_texture (o_idx o));
  let plot_kwargs := [("color", color); ("hatch", hatch); ("width", AFloat bar_width)] in
  let plot_kwargs := set_if (o_label_data o) "label" (AStr ("\tiny{" +:+ label_or o "BAR " +:+ "}")) plot_kwargs in
  _ ← invoke (axis_to_plot_on o) "bar" [bar_x_locations; bar_y_values] plot_kwargs;
  let plot_kwargs := Dict.set plot_kwargs "label" ANone in
  let plot_kwargs := Dict.set plot_kwargs "color" (AStr "None") in
  invoke (axis_to_plot_on o) "bar" [bar_x_locations; bar_y_values] plot_kwargs.

Definition plot_a_scatter (xs ys : arg F) (err : option (arg F)) (o : plot_opts) : Draw unit :=
  linestyle ← lift (line_style (o_idx o));
  color ← lift (line_color (o_idx o));
  marker ← lift (marker_style (o_idx o));
  let plot_kwargs := [("linestyle", linestyle); ("color", color)] in
  let plot_kwargs := set_if (o_plot_markers o) "marker" marker plot_kwargs in
  let plot_kwargs := set_if (o_label_data o) "label" (AStr (label_or o "SCATTER ")) plot_kwargs in
  match err with
  | Some err => invoke (axis_to_plot_on o) "errorbar" [xs; ys] (("yerr", err) :: plot_kwargs)
  | None => invoke (axis_to_plot_on o) "plot" [xs; ys] plot_kwargs
  end.
End helpers.

(** * Theorems

    The plotting helpers draw what they are given: distribution functions
    are the empirical ones, and the styles of every series exist. *)

From Stdlib Require Import QArith Qcanon.
From S2P Require Import CoreTaps.
Close Scope string_scope.

Close Scope Q_scope.
Close Scope Qc_scope.

(** * Calls *)

Lemma invoke_run {F W} on m (args : list (arg F)) kw t (w : W) :
  invoke on m args kw (t, w) = (Ok tt, (t ++ [mkCall on m args kw], w)).
Proof. done. Qed.

Lemma idx_list_circular_ok {A} idx (l : list A) : l ≠ [] → ∃ a, idx_list_circular idx l = Ok a ∧ a ∈ l.
Proof.
  intros Hl. unfold idx_list_circular. destruct (length l) as [|n] eqn:En; [by destruct l|].
  destruct (lookup_lt_is_Some_2 l (idx mod S n)) as [a Ha].
  { rewrite En. by apply Nat.mod_upper_bound. }
  exists a. rewrite Ha. split; [done|]. by eapply list_elem_of_lookup_2.
Qed.

Lemma style_ok {F} (f : nat → res (arg F)) (l : list (arg F)) idx :
  (∀ i, f i = idx_list_circular i l) → l ≠ [] → ∃ a, f idx = Ok a.
Proof. intros Hf Hl. rewrite Hf. destruct (idx_list_circular_ok idx l Hl) as (a & -> & _). by exists a. Qed.

(** * Means *)

Lemma exact_value_Qc (x : Qc) : exact_value x = Some (Qnum (this x), Qden (this x)).
Proof.
  unfold exact_value. cbn [classify exact_text]. case_bool_decide as E.
  - change (this x < 0)%Q in E. unfold Qlt in E. cbn in E. do 2 f_equal. lia.
  - apply Qcnot_lt_le in E. change (0 <= this x)%Q in E. unfold Qle in E. cbn in E. do 2 f_equal. lia.
Qed.

Lemma mapM_exact_value (l : list Qc) : mapM exact_value l = Some ((λ x : Qc, (Qnum (this x), Qden (this x))) <$> l).
Proof. apply mapM_Some. apply Forall2_fmap_r, Forall_Forall2_diag, Forall_true. apply exact_value_Qc. Qed.

Lemma foldl_add_value (l : list Qc) a :
  let t := foldl add_value a ((λ x : Qc, (Qnum (this x), Qden (this x))) <$> l) in
  (t.1 # t.2 == (a.1 # a.2) + this (fsum l))%Q.
Proof.
  revert a. induction l as [|x l IH]; intros a.
  - rewrite fsum_nil. change (this fzero) with 0%Q. cbn. by rewrite Qplus_0_r.
  - rewrite fmap_cons. cbn [foldl]. rewrite IH, fsum_cons, this_add. rewrite Qplus_assoc. apply Qplus_inj_r.
    unfold add_value. cbn [fst snd]. destruct x as [[p q] Hx]. cbn. unfold Qplus, Qeq. cbn. lia.
Qed.

(** Without rounding, the mean is the sum over the number of values. *)
Lemma mean_exact (l : list Qc) : l ≠ [] → mean l = Ok (fsum l / Qc_of_nat (length l))%Qc.
Proof.
  intros Hl. assert (length l ≠ 0) as Hn by (by destruct l). transitivity (let total := foldl add_value (0%Z, 1%positive) ((λ x : Qc, (Qnum (this x), Qden (this x))) <$> l) in
    Ok (flit (F:=Qc) total.1 (total.2 * Pos.of_nat (length l)))).
  { unfold mean. rewrite mapM_exact_value. by destruct l. }
  cbn zeta. f_equal.
  apply Qc_is_canon. rewrite this_lit. unfold Qcdiv. rewrite this_mul, this_inv. unfold Qc_of_nat. rewrite this_of_Z.
  set (t := foldl _ _ _). pose proof (foldl_add_value l (0%Z, 1%positive)) as Ht. fold t in Ht. cbn [fst snd] in Ht.
  assert ((0 # 1) + this (fsum l) == this (fsum l))%Q as Hz by apply Qplus_0_l. rewrite Hz in Ht. rewrite <-Ht.
  destruct (length l) as [|n]; [done|].
  change (Z.of_nat (S n)) with (Zpos (Pos.of_succ_nat n)). rewrite <-Pos.of_nat_succ. generalize (Pos.of_nat (S n)) as p. intros p. clearbody t. destruct t as [a b].
  unfold Qmult, Qinv, inject_Z, Qeq. cbn. lia.
Qed.

(** * Distribution functions *)

Definition share (samples : list Qc) (x : Qc) : Qc :=
  flit (Z.of_nat (length (filter (λ y, y <= x)%Qc samples))) (Pos.of_nat (length samples)).

Lemma cdf_points_eq {F} `{PyFloat F} (data : list F) :
  cdf_points data = (fzero :: data,
    fzero :: ((λ i, flit (Z.of_nat (i + 1)) (Pos.of_nat (length data))) <$> seq 0 (length data))).
Proof.
  unfold cdf_points. generalize (Pos.of_nat (length data)) as n. intros n.
  induction data as [|x l IH] using rev_ind; [done|].
  rewrite enumerate_snoc, foldl_app, IH. cbn [foldl]. rewrite length_app, seq_app, fmap_app. done.
Qed.

(** In a sorted list, a position whose successor is larger is the number of
    members that do not exceed it. *)
Lemma sorted_rank (l : list Qc) x : StronglySorted Qcle l → x ∈ l →
  ∃ i, l !! i = Some x ∧ length (filter (λ y, y <= x)%Qc l) = S i.
Proof.
  induction 1 as [|y l Hl IH Hy]; [by intros ?%not_elem_of_nil|]. intros Hx. rewrite filter_cons.
  destruct (decide (x ∈ l)) as [Hin|Hni].
  - destruct (IH Hin) as (i & Hi & Hlen). exists (S i). split; [done|]. rewrite decide_True; [cbn; by rewrite Hlen|].
    rewrite Forall_forall in Hy. by apply Hy.
  - apply elem_of_cons in Hx as [->|]; [|done]. exists 0. split; [done|]. rewrite decide_True by apply Qcle_refl.
    rewrite filter_none; [done|]. rewrite Forall_forall in Hy |- *. intros z Hz Hle. apply Hni.
    assert (z = y) as <-; [|done]. apply Qcle_antisym; [done|by apply Hy].
Qed.

Lemma flit_le (a b : nat) (n : positive) : a ≤ b → (flit (F:=Qc) (Z.of_nat a) n <= flit (F:=Qc) (Z.of_nat b) n)%Qc.
Proof. intros Hab. change (this (flit (F:=Qc) (Z.of_nat a) n) <= this (flit (F:=Qc) (Z.of_nat b) n))%Q. rewrite !this_lit. unfold Qle. cbn. nia. Qed.

Lemma plot_a_cdf_run {F W} `{PyFloat F} (data : list F) o (t : trace F) (w : W) : ∃ kwargs,
  plot_a_cdf data o (t, w) =
    (Ok tt, (t ++ [mkCall (axis_to_plot_on o) "plot"%string [floats (cdf_points data).1; floats (cdf_points data).2] kwargs], w)).
Proof.
  unfold plot_a_cdf. destruct (cdf_points data) as [xs ys].
  destruct (style_ok (F:=F) line_style LINE_STYLE (o_idx o)) as [a1 H1]; [done..|].
  destruct (style_ok (F:=F) line_color LINE_COLOR (o_idx o)) as [a2 H2]; [done..|].
  destruct (style_ok (F:=F) fill_style MARKER_FILL_STYLES (o_idx o)) as [a3 H3]; [done..|].
  destruct (style_ok (F:=F) marker_style MARKER_STYLE (o_idx o)) as [a4 H4]; [done..|].
  unfold mbind, M_bind, lift. rewrite H1, H2, H3, H4. eexists. apply invoke_run.
Qed.

(** C31: [plot_a_cdf] on sorted samples draws their empirical distribution
    function: it makes one call that plots points, every sample is drawn at
    the share of the samples that do not exceed it, no drawn point lies above
    that share, and the curve ends at one (in exact arithmetic). *)
Theorem cdf_is_empirical {W} (samples : list Qc) o (t : trace Qc) (w : W) : samples ≠ [] →
  ∃ xs ys kwargs,
    plot_a_cdf (sorted_floats samples) o (t, w) =
      (Ok tt, (t ++ [mkCall (axis_to_plot_on o) "plot"%string [floats xs; floats ys] kwargs], w)) ∧
    length xs = S (length samples) ∧ length ys = length xs ∧
    (∀ x, x ∈ samples → ∃ i, xs !! S i = Some x ∧ ys !! S i = Some (share samples x)) ∧
    (∀ i x y, xs !! S i = Some x → ys !! S i = Some y → x ∈ samples ∧ (y <= share samples x)%Qc) ∧
    last ys = Some fone.
Proof.
  intros Hne. destruct (plot_a_cdf_run (sorted_floats samples) o t w) as [kwargs Hrun].
  eexists _, _, kwargs. split; [exact Hrun|]. rewrite cdf_points_eq. cbn [fst snd length].
  pose proof (sorted_floats_perm samples) as Hp. pose proof (sorted_floats_sorted samples) as Hs.
  set (l := sorted_floats samples) in *. assert (length l = length samples) as Hlen by by rewrite Hp.
  rewrite length_fmap, length_seq, Hlen. split; [done|]. split; [done|].
  assert (∀ x, share samples x = flit (Z.of_nat (length (filter (λ y, y <= x)%Qc l))) (Pos.of_nat (length samples))) as Hshare.
  { intros x. unfold share. by rewrite (Permutation_length (filter_Permutation _ _ _ Hp)). }
  split; [|split].
  - intros x Hx. destruct (sorted_rank l x Hs) as (i & Hi & Hr); [by rewrite Hp|]. exists i. split; [done|].
    rewrite lookup_cons. rewrite list_lookup_fmap, lookup_seq_lt by (rewrite <-Hlen; by eapply lookup_lt_Some). rewrite Hshare, Hr. cbn [fmap option_fmap option_map]. by rewrite Nat.add_0_l, Nat.add_1_r.
  - intros i x y Hx Hy. rewrite lookup_cons in Hx, Hy. split; [rewrite <-Hp; by eapply list_elem_of_lookup_2|].
    apply list_lookup_fmap_Some in Hy as (j & -> & [-> _]%lookup_seq). rewrite Hshare. apply flit_le.
    pose proof (sorted_prefix l i x Hs Hx) as Hpre. apply lookup_lt_Some in Hx.
    rewrite <-(firstn_skipn (S i) l), filter_app, length_app. rewrite filter_all by done. rewrite length_take. lia.
  - destruct samples as [|x s]; [done|]. cbn [length]. rewrite seq_S, fmap_app, app_comm_cons. cbn [fmap list_fmap]. rewrite last_snoc. f_equal.
    apply Qc_is_canon. rewrite this_lit. unfold fone. rewrite this_lit. unfold Qeq. cbn. lia.
Qed.

Lemma cdf_is_empirical_witness :
  let samples := f_of_Z (F:=Qc) <$> [3; 1; 1]%Z in
  samples ≠ [] ∧ ∃ xs ys kwargs,
    plot_a_cdf (sorted_floats samples) default_opts ([], tt) =
      (Ok tt, ([mkCall Plt "plot"%string [floats xs; floats ys] kwargs], tt)) ∧ last ys = Some fone.
Proof.
  intros samples. assert (samples ≠ []) as Hne by (by vm_compute). split; [exact Hne|].
  destruct (cdf_is_empirical samples default_opts [] tt Hne) as (xs & ys & kwargs & Hrun & _ & _ & _ & _ & Hlast).
  by exists xs, ys, kwargs.
Defined.
