(* ===== verification/NetUtil.v ===== *)
(** The utilization of links over time, as the plots compute it from the
    counters of the controller: data_visualization/helpers.py, and the
    variants in data_visualization/path_hopping.py and mp_routing.py. *)

From S2P Require Import Prelude PyDict PyFloat PyStr PyText Json Accum Groups StatMonitor RemoteHost Figures.
Local Open Scope string_scope.

(** A value per pair of a source and a destination switch: a dictionary of
    dictionaries. *)
Abbreviation link_table A := (dict string (dict string A)).

(** [table[s][d]] and [table[s][d] = x] on a [defaultdict(dict)] *)
Definition link_get {A} (table : link_table A) (s d : string) : option A := t ← Dict.get table s; Dict.get t d.
Definition link_set {A} (table : link_table A) (s d : string) (x : A) : link_table A :=
  Dict.set table s (Dict.set (Dict.get_default [] table s) d x).

(** [{k: f(v) for k, v in d.items()}] *)
Definition map_values {K A B} (f : A → B) (d : dict K A) : dict K B := (λ kv, (kv.1, f kv.2)) <$> d.

(** The entries in the order of iteration. *)
Definition link_items {A} (table : link_table A) : list (string * string * A) :=
  table ≫= λ '(s, t), (λ '(d, x), (s, d, x)) <$> t.

(** [(s, d) for s, t in table.items() for d in t.keys()] *)
Definition link_ids {A} (table : link_table A) : list (string * string) := fst <$> link_items table.

(** A counter as it is read from JSON. *)
Definition iface_of_json (results_set : json) : res IfaceStats :=
  source_switch ← jkey results_set "sourceSwitchId" ≫= jstr;
  destination_switch ← jkey results_set "destinationSwitchId" ≫= jstr;
  sent ← jkey results_set "bytesSent" ≫= jint;
  received ← jkey results_set "bytesReceived" ≫= jint;
  Ok (mkIfaceStats source_switch destination_switch sent received).

(** [link_util_dict["netUtilStats"]["utilizationStats"]] *)
Definition utilization_stats (link_util_dict : json) : res (list json) :=
  stats ← jkey link_util_dict "netUtilStats"; stats ← jkey stats "utilizationStats"; jlist stats.

Section utilization.
Context {F : Type} `{PyFloat F}.

(** The loop over one snapshot. *)
Definition byte_counts (results_list : list IfaceStats) : link_table Z :=
  foldl (λ byte_counts results_set,
    link_set byte_counts (sourceSwitchId results_set) (destinationSwitchId results_set)
      (bytesSent results_set + bytesReceived results_set)%Z) [] results_list.

Definition compute_initial_byte_counts (byte_counts_per_time_period : list (link_table Z)) : res (link_table Z) :=
  or_raise IndexError (head byte_counts_per_time_period).

(** The lookup in [count_b] adds an empty dictionary for a missing source,
    which is not read afterwards. *)
Definition subtract_counts (count_a count_b : link_table Z) : link_table Z :=
  foldl (λ diff '(s, d, b),
    match link_get count_b s d with
    | Some b' => link_set diff s d (b - b')%Z
    | None => diff
    end) [] (link_items count_a).

Definition compute_utilization_from_byte_counts (byte_count : link_table Z) (link_capacity : positive) : link_table F :=
  map_values (map_values (λ b, flit b link_capacity)) byte_count.

(** The part the variants share, by the capacity they divide by. *)
Definition util_over_time (link_capacity : positive) (snapshots : list (list IfaceStats)) : res (list (link_table F)) :=
  let byte_counts_per_time_period := byte_counts <$> snapshots in
  _ ← compute_initial_byte_counts byte_counts_per_time_period;
  Ok ((λ '(last_count, current_count),
         compute_utilization_from_byte_counts (subtract_counts current_count last_count) link_capacity)
        <$> pairwise byte_counts_per_time_period).

Definition compute_network_util_over_time (util_results : list json) : res (list (link_table F)) :=
  snapshots ← mapR (λ link_util_dict, results_list ← utilization_stats link_util_dict; mapR iface_of_json results_list) util_results;
  util_over_time 10 snapshots.

(** [read_json_response(text)]: the parsed text. *)
Definition read_json_response (loads : string → res (list json)) (text : string) : res (list json) := loads text.

(** ** path_hopping.py *)

Definition compute_byte_counts_per_time_period (util_results : list (list IfaceStats)) : res (list (link_table F)) :=
  util_over_time 1 util_results.

Definition bytes_per_10s_to_mbps (byte_count : F) : F := fquot (fmul byte_count (f_of_Z 8)) (f_of_Z (10 ^ 7)).

Definition compute_network_utilization_per_time_period (byte_count_to_util_function : F → F)
    (byte_counts_per_time_period : list (link_table F)) : list (link_table F) :=
  map_values (map_values byte_count_to_util_function) <$> byte_counts_per_time_period.

(** [itertools.combinations(l, 2)] *)
Fixpoint combinations {A} (l : list A) : list (A * A) :=
  match l with [] => [] | x :: l => (pair x <$> l) ++ combinations l end.

(** The values of a link in the snapshots that have it. *)
Definition utils_over_time (network_utilization : list (link_table F)) (s d : string) : list F :=
  omap (λ net_snapshot, link_get net_snapshot s d) network_utilization.

(** [numpy.mean] *)
Variable np_mean : list F → F.

Definition compute_mean_network_utilization (network_utilization : list (link_table F)) : dict link_key F :=
  let node_set := set_of (network_utilization ≫= Dict.keys) in
  foldl (λ mean_link_utilizations '(source_node, destination_node),
    Dict.set mean_link_utilizations (source_node, destination_node)
      (np_mean (utils_over_time network_utilization source_node destination_node)))
    [] (combinations node_set).

(** [get_link_set], which path_hopping.py and tuiti.py have, and
    [get_node_set]. *)
Definition get_link_set (util_results : list (list IfaceStats)) : list link_key :=
  foldl (λ link_set results_list,
    foldl (λ link_set results_set,
      set_add (destinationSwitchId results_set, sourceSwitchId results_set)
        (set_add (sourceSwitchId results_set, destinationSwitchId results_set) link_set))
      link_set results_list) [] util_results.
Definition get_node_set (util_results : list (list IfaceStats)) : list string :=
  foldl (λ node_set results_list,
    foldl (λ node_set results_set,
      set_add (destinationSwitchId results_set) (set_add (sourceSwitchId results_set) node_set))
      node_set results_list) [] util_results.

(** ** mp_routing.py *)

Definition read_utilization_results (json_objects : list json) : res (list (list json)) :=
  mapR utilization_stats json_objects.

Definition compute_link_utilization (byte_count_in_time_period : Z) (time_period : positive) : F :=
  fquot (fmul (flit byte_count_in_time_period time_period) (f_of_Z 8)) (f_of_Z (10 ^ 6)).

(** The first pair of descriptions raises: the dictionary that is built
    names [source_dpid], which nothing defines. *)
Definition compute_link_utilization_over_time (utilization_results : list json) : res (list (string * string * F)) :=
  foldM (λ utilization_descriptions '(previous_count_descriptions, current_count_descriptions),
    current_bytes ← jkey current_count_descriptions "bytesSent" ≫= jint;
    previous_bytes ← jkey previous_count_descriptions "bytesSent" ≫= jint;
    current_packets ← jkey current_count_descriptions "packetsSent" ≫= jint;
    previous_packets ← jkey previous_count_descriptions "bytesSent" ≫= jint;
    let link_utilization := compute_link_utilization (current_bytes - previous_bytes) 10 in
    Raise NameError) [] (pairwise utilization_results).

(** The body of the loop names [link_utilization], which nothing defines. *)
Definition generate_average_link_utilization_plot (utilization_results : list json) : res unit :=
  link_utilization_over_time ← compute_link_utilization_over_time utilization_results;
  foldM (λ _ _, Raise NameError) tt link_utilization_over_time.

Definition mp_compute_network_util_over_time (util_results : list (list json)) : res (list (link_table F)) :=
  snapshots ← mapR (mapR iface_of_json) util_results;
  util_over_time 10 snapshots.
End utilization.

(** * Theorems

    The utilization the plots show is the change of the byte counters of
    each link between two snapshots that both have the link. *)

From Stdlib Require Qcanon.
Close Scope string_scope.

(** * Tables *)

Definition wf_table {A} (table : link_table A) : Prop := Dict.wf table ∧ ∀ s t, Dict.get table s = Some t → Dict.wf t.

Lemma wf_table_empty {A} : wf_table (A:=A) [].
Proof. split; [apply NoDup_nil_2|done]. Qed.

Lemma wf_link_set {A} (table : link_table A) s d x : wf_table table → wf_table (link_set table s d x).
Proof.
  intros [Hwf Hin]. split; [by apply Dict.wf_set|]. intros s' t. unfold link_set. rewrite Dict.get_set. case_decide; [|by eauto].
  intros [= <-]. apply Dict.wf_set. unfold Dict.get_default. destruct (Dict.get table s) eqn:E; [by eapply Hin|apply NoDup_nil_2].
Qed.

Lemma link_get_set {A} (table : link_table A) s d x s' d' :
  link_get (link_set table s d x) s' d' = if decide ((s, d) = (s', d')) then Some x else link_get table s' d'.
Proof.
  unfold link_get, link_set. rewrite Dict.get_set. destruct (decide (s = s')) as [<-|Hs].
  - cbn. rewrite Dict.get_set. unfold Dict.get_default.
    destruct (decide (d = d')) as [<-|Hd]; [by rewrite decide_True|]. rewrite decide_False by congruence.
    by destruct (Dict.get table s).
  - by rewrite decide_False by congruence.
Qed.

Lemma elem_of_link_items {A} (table : link_table A) s d x : wf_table table →
  (s, d, x) ∈ link_items table ↔ link_get table s d = Some x.
Proof.
  intros [Hwf Hin]. unfold link_items, link_get. rewrite list_elem_of_bind. split.
  - intros ([s' t] & Hx & Ht). apply list_elem_of_fmap in Hx as ([d' x'] & [= <- <- <-] & Hd).
    apply (Dict.elem_of_get _ _ _ Hwf) in Ht. rewrite Ht. cbn. apply Dict.elem_of_get; [by eapply Hin|done].
  - destruct (Dict.get table s) as [t|] eqn:Et; [|done]. intros Hx. exists (s, t). split; [|by apply Dict.get_elem_of].
    apply list_elem_of_fmap. exists (d, x). split; [done|]. by apply Dict.get_elem_of.
Qed.

Lemma get_of_map_values {K A B} `{Countable K} (f : A → B) (d : dict K A) k : Dict.get (map_values f d) k = f <$> Dict.get d k.
Proof. unfold map_values. induction d as [|[k' v] d IH]; [done|]. cbn. by case_decide. Qed.

Lemma link_get_map {A B} (f : A → B) (table : link_table A) s d :
  link_get (map_values (map_values f) table) s d = f <$> link_get table s d.
Proof. unfold link_get. rewrite get_of_map_values. destruct (Dict.get table s); [|done]. cbn. apply get_of_map_values. Qed.

(** * Counters *)

(** The last counter of the link in a snapshot. *)
Definition last_count (snapshot : list IfaceStats) (s d : string) : option Z :=
  (λ r, bytesSent r + bytesReceived r)%Z <$>
    last (filter (λ r, sourceSwitchId r = s ∧ destinationSwitchId r = d) snapshot).

Lemma byte_counts_spec snapshot : wf_table (byte_counts snapshot) ∧
  ∀ s d, link_get (byte_counts snapshot) s d = last_count snapshot s d.
Proof.
  unfold byte_counts. induction snapshot as [|r l [Hwf IH]] using rev_ind; [by split; [apply wf_table_empty|]|].
  rewrite foldl_app. cbn [foldl]. split; [by apply wf_link_set|]. intros s d. rewrite link_get_set, IH.
  unfold last_count. rewrite filter_app, filter_cons, filter_nil. case_decide as E.
  - rewrite decide_True by (by injection E). by rewrite last_snoc.
  - rewrite decide_False by naive_solver. by rewrite app_nil_r.
Qed.

Definition subtract_step (count_b : link_table Z) (diff : link_table Z) (e : string * string * Z) : link_table Z :=
  let '(s, d, b) := e in match link_get count_b s d with Some b' => link_set diff s d (b - b')%Z | None => diff end.

Lemma subtract_fold (count_b : link_table Z) (l : list (string * string * Z)) s d z :
  (∀ x x', (s, d, x) ∈ l → (s, d, x') ∈ l → x = x') →
  link_get (foldl (subtract_step count_b) [] l) s d = Some z ↔
    ∃ x y, (s, d, x) ∈ l ∧ link_get count_b s d = Some y ∧ z = (x - y)%Z.
Proof.
  induction l as [|[[s' d'] x'] l IH] using rev_ind; intros Hfun.
  { cbn. split; [done|]. intros (x & y & Hx & _). by apply not_elem_of_nil in Hx. }
  assert (∀ x x', (s, d, x) ∈ l → (s, d, x') ∈ l → x = x') as Hfun' by (intros; apply Hfun; apply elem_of_app; by left).
  specialize (IH Hfun'). rewrite foldl_app. cbn [foldl]. unfold subtract_step at 1.
  destruct (decide ((s', d') = (s, d))) as [[= -> ->]|Hne].
  - destruct (link_get count_b s d) as [y'|] eqn:Eb.
    + rewrite link_get_set, decide_True by done. split.
      * intros [= <-]. exists x', y'. split_and!; [|done..]. apply elem_of_app. right. by apply list_elem_of_singleton.
      * intros (x & y & Hx & [= ->] & ->). do 2 f_equal. apply Hfun; [|done]. apply elem_of_app. right. by apply list_elem_of_singleton.
    + rewrite IH. split; intros (x & y & _ & Hy & _); congruence.
  - assert (link_get (match link_get count_b s' d' with
        | Some b' => link_set (foldl (subtract_step count_b) [] l) s' d' (x' - b')%Z
        | None => foldl (subtract_step count_b) [] l end) s d = link_get (foldl (subtract_step count_b) [] l) s d) as ->.
    { destruct (link_get count_b s' d'); [|done]. by rewrite link_get_set, decide_False. }
    rewrite IH. split; intros (x & y & Hx & Hr); exists x, y; (split; [|done]).
    + apply elem_of_app. by left.
    + apply elem_of_app in Hx as [Hx|Hx]; [done|]. apply list_elem_of_singleton in Hx. congruence.
Qed.

Lemma subtract_counts_spec (a b : link_table Z) s d : wf_table a →
  link_get (subtract_counts a b) s d = (x ← link_get a s d; y ← link_get b s d; Some (x - y)%Z).
Proof.
  intros Hwf. change (subtract_counts a b) with (foldl (subtract_step b) [] (link_items a)).
  pose proof (λ z, subtract_fold b (link_items a) s d z) as Hspec.
  assert (∀ x x', (s, d, x) ∈ link_items a → (s, d, x') ∈ link_items a → x = x') as Hfun.
  { intros x x' Hx Hx'. rewrite elem_of_link_items in Hx, Hx' by done. congruence. }
  destruct (link_get (foldl _ _ _) s d) as [z|] eqn:E.
  - destruct (proj1 (Hspec z Hfun) eq_refl) as (x & y & Hx & Hy & ->). apply elem_of_link_items in Hx; [|done]. rewrite Hx. cbn. by rewrite Hy.
  - destruct (link_get a s d) as [x|] eqn:Ex; [|done]. cbn. destruct (link_get b s d) as [y|] eqn:Ey; [|done]. cbn.
    apply elem_of_link_items in Ex; [|done]. assert (@None Z = Some (x - y)%Z); [|done]. apply (Hspec _ Hfun). eauto 10.
Qed.

(** * The utilization over time *)

Lemma lookup_pairwise {A} (l : list A) i x y : l !! i = Some x → l !! S i = Some y → pairwise l !! i = Some (x, y).
Proof. intros Hx Hy. unfold pairwise. apply lookup_zip_Some. split; [done|]. destruct l; [done|]. done. Qed.

Lemma util_over_time_spec {F} `{PyFloat F} capacity (snapshots : list (list IfaceStats)) : snapshots ≠ [] →
  ∃ utils : list (link_table F), util_over_time capacity snapshots = Ok utils ∧ length utils = length snapshots - 1 ∧
    ∀ t a b, snapshots !! t = Some a → snapshots !! S t = Some b → ∃ table, utils !! t = Some table ∧
      ∀ s d, link_get table s d =
        (count ← last_count a s d; count' ← last_count b s d; Some (flit (count' - count) capacity)).
Proof.
  intros Hne. unfold util_over_time. destruct snapshots as [|s0 ss]; [done|]. rewrite fmap_cons.
  cbn [compute_initial_byte_counts head or_raise mbind res_bind]. rewrite <-fmap_cons. eexists. split; [done|].
  split; [by rewrite length_fmap, pairwise_length, length_fmap|]. intros t a b Ha Hb. eexists. split.
  { rewrite list_lookup_fmap. erewrite lookup_pairwise; [done|..]; rewrite list_lookup_fmap; [by rewrite Ha|by rewrite Hb]. }
  intros s d. destruct (byte_counts_spec a) as [_ Hca], (byte_counts_spec b) as [Hwb Hcb].
  unfold compute_utilization_from_byte_counts. rewrite link_get_map, subtract_counts_spec, Hca, Hcb by done.
  by destruct (last_count b s d), (last_count a s d).
Qed.

(** C19: the utilization over time that the plots of the mirroring
    experiments show has one table per pair of successive snapshots, and a
    link has in it exactly the change of its byte counter between the two
    (the last one of the link in each snapshot), per second of the ten second
    period; a link that one of the snapshots does not have is left out. *)
Theorem network_utilization_exact {F} `{PyFloat F} (util_results : list json) (snapshots : list (list IfaceStats)) :
  mapR (λ j, utilization_stats j ≫= mapR iface_of_json) util_results = Ok snapshots → snapshots ≠ [] →
  ∃ utils : list (link_table F), compute_network_util_over_time util_results = Ok utils ∧ length utils = length snapshots - 1 ∧
    ∀ t a b, snapshots !! t = Some a → snapshots !! S t = Some b → ∃ table, utils !! t = Some table ∧
      ∀ s d, link_get table s d =
        (count ← last_count a s d; count' ← last_count b s d; Some (flit (count' - count) 10)).
Proof.
  intros Hj Hne. destruct (util_over_time_spec (F:=F) 10 snapshots Hne) as (utils & Hu & Hspec). exists utils.
  split; [|done]. transitivity (mapR (λ j, utilization_stats j ≫= mapR iface_of_json) util_results ≫= util_over_time 10); [done|by rewrite Hj].
Qed.

Definition demo_snapshot (bytes : list (string * string * Z)) : json :=
  JObj [("netUtilStats"%string, JObj [("utilizationStats"%string, JList ((λ '(s, d, b),
    JObj [("sourceSwitchId", JStr s); ("destinationSwitchId", JStr d); ("bytesSent", JInt b); ("bytesReceived", JInt 5)]%string) <$> bytes))])].

Lemma network_utilization_exact_witness :
  let results := [demo_snapshot [("a", "b", 100); ("a", "c", 7)]; demo_snapshot [("a", "b", 350)]]%string%Z in
  ∃ utils : list (link_table Qcanon.Qc), compute_network_util_over_time results = Ok utils ∧
    ∃ table, utils !! 0 = Some table ∧ link_get table "a" "b" = Some (flit 250 10) ∧ link_get table "a" "c" = None.
Proof.
  intros results. destruct (mapR (λ j, utilization_stats j ≫= mapR iface_of_json) results) as [snapshots|] eqn:E; [|by vm_compute in E].
  vm_compute in E. injection E as <-.
  edestruct (network_utilization_exact (F:=Qcanon.Qc) results) as (utils & Hu & _ & Hspec); [by vm_compute|done|].
  exists utils. split; [exact Hu|]. destruct (Hspec 0 _ _ eq_refl eq_refl) as (table & Ht & Hg). exists table. split; [exact Ht|].
  rewrite !Hg. by split.
Defined.
