(* ===== verification/Captures.v ===== *)
(** The analysis of packet captures: inter-share delays, active paths and
    the presence of shares (data_visualization/security.py). numpy's mean and
    the reading of a capture file are parameters. *)

From S2P Require Import Prelude PyDict PyFloat PyStr PyText Groups TrialStore SimExperiment CoreTaps Figures.
Local Open Scope string_scope.

Record Packet : Type := mkPacket {
  source_ip : string;
  destination_ip : string;
  source_port : Z;
  destination_port : Z;
  seq_num : Z;
  share_num : Z;
  timestamp : Z
}.

(** [int(x)] and [int(np.floor(x))] *)
Definition py_int {F} `{PyFloatText F} (x : F) : res Z :=
  match classify x with
  | FNan => Raise ValueError
  | FInf _ => Raise OverflowError
  | FFin neg n d => Ok (if neg then - (n / Zpos d) else n / Zpos d)%Z
  end.
Definition py_floor {F} `{PyFloatText F} (x : F) : res Z :=
  match classify x with
  | FNan => Raise ValueError
  | FInf _ => Raise OverflowError
  | FFin neg n d => Ok (if neg then - n / Zpos d else n / Zpos d)%Z
  end.

(** [l[i:]]: a negative start counts from the end. *)
Definition slice_from {A} (l : list A) (i : Z) : list A :=
  if bool_decide (0 ≤ i)%Z then drop (Z.to_nat i) l else drop (Z.to_nat (Z.of_nat (List.length l) + i)) l.

(** [max(l)] and [min(l)] of integers *)
Definition max_int (l : list Z) : res Z := match l with [] => Raise ValueError | x :: l => Ok (foldl Z.max x l) end.
Definition min_int (l : list Z) : res Z := match l with [] => Raise ValueError | x :: l => Ok (foldl Z.min x l) end.

(** * security.py *)

(** [max(ts) - min(ts)] *)
Definition spread (ts : list Z) : res Z := hi ← max_int ts; lo ← min_int ts; Ok (hi - lo)%Z.

(** The delay between the first and the last share of each message. *)
Definition inter_share_delays (packets : list Packet) : res (list Z) :=
  let seq_num_to_ts := foldl (λ d p_i, append_to d (seq_num p_i) (timestamp p_i)) [] packets in
  mapR (λ '(seq_num, ts), spread ts) seq_num_to_ts.

Section security.
Context {F W : Type} `{PyFloatText F}.
Abbreviation Draw := (M (trace F * W)).
Variable np_mean : list F → F.

Definition plot_share_delay_histogram (packets : list Packet) : Draw unit :=
  delays ← lift (inter_share_delays packets);
  _ ← plt "histogram" [AList (AInt <$> delays)] [("density", ABool true)];
  save_figure "share-delay-pdf.pdf" 1 [].

(** [label] and [idx] of [**kwargs] are in [o]. *)
Definition plot_share_delay_cdf (packets : list Packet) (o : plot_opts) : Draw unit :=
  delays ← lift (inter_share_delays packets);
  let inter_share_delays_ms := sorted_floats ((λ isd, flit isd 1000) <$> delays) in
  percentile_idx ← lift (py_int (fmul (f_of_Z (Z.of_nat (List.length inter_share_delays_ms))) (flit 999 1000)));
  _ ← lift (py_index inter_share_delays_ms percentile_idx);
  _ ← plot_a_cdf (take (Z.to_nat (percentile_idx + 1)) inter_share_delays_ms)
        (mkOpts (o_idx o) (o_label o) false (o_axis o) (o_label_data o));
  save_figure "inter-share-delay.pdf" 1 [].

(** The delays by the sorted ports of the shares. *)
Definition port_group_delays (packets : list Packet) : res (dict (list Z) (list F)) :=
  foldM (λ port_group_to_isd '(seq_num, packet_group),
    let port_key := sorted_by id (destination_port <$> packet_group) in
    inter_share_delay ← spread (timestamp <$> packet_group);
    Ok (append_to port_group_to_isd port_key (flit inter_share_delay 1000)))
    [] (groupby seq_num (sorted_by seq_num packets)).

Definition compute_95th_percentile (data : list F) : res F :=
  let data := sorted_floats data in
  idx ← py_floor (fmul (flit 95 100) (f_of_Z (Z.of_nat (List.length data))));
  py_index data idx.

(** The curves of five groups and their percentile, on one axis. *)
Definition plot_path_groups (ax : target) (groups : list (list Z * list F)) : Draw unit :=
  for_each (enumerate groups) (λ '(plot_idx, (_, delays)),
    plot_a_cdf (sorted_floats delays) (mkOpts plot_idx None false (Some ax) false)).
Definition plot_group_percentile (ax : target) (groups : list (list Z * list F)) : Draw unit :=
  percentile_95 ← lift (compute_95th_percentile (concat (snd <$> groups)));
  invoke ax "axvline" [AFloat percentile_95]
    [("color", AStr "red"); ("linestyle", AStr "--"); ("label", AStr (legend_font "$95$th-Percentile"))].

Definition ranked_groups (port_group_to_isd : dict (list Z) (list F)) : list (list Z * list F) :=
  sorted_with (λ a b, flt (np_mean a.2) (np_mean b.2)) port_group_to_isd.
Definition best_groups (sorted_paths : list (list Z * list F)) : list (list Z * list F) := take 5 sorted_paths.
Definition worst_groups (sorted_paths : list (list Z * list F)) : list (list Z * list F) :=
  slice_from sorted_paths (Z.of_nat (List.length sorted_paths) - 5).

Definition cdf_label : string := axis_label_font "$\mathbb{P}\{x < \mathcal{X}\}$".

Definition plot_best_and_worst_paths_cdf (capture_name : string) (packets : list Packet) : Draw unit :=
  port_group_to_isd ← lift (port_group_delays packets);
  _ ← plt "subplots" [AInt 2] [("sharex", ABool true)];
  let best_paths_axis := Ax 0 in
  let worst_paths_axis := Ax 1 in
  _ ← invoke best_paths_axis "text" [AInt 0; AFloat (flit 90 100); AStr (LARGE (bf "Best paths"))] [];
  _ ← invoke worst_paths_axis "text" [AInt 0; AFloat (flit 90 100); AStr (LARGE (bf "Worst paths"))] [];
  let sorted_paths := ranked_groups port_group_to_isd in
  let best_paths := best_groups sorted_paths in
  let worst_paths := worst_groups sorted_paths in
  _ ← plot_path_groups best_paths_axis best_paths;
  _ ← plot_group_percentile best_paths_axis best_paths;
  let legend_params := Dict.set LEGEND "loc" (AStr "upper center") in
  let legend_params := Dict.set legend_params "bbox_to_anchor" (ATuple [AFloat (flit 5 10); AFloat (flit 13 10)]) in
  _ ← invoke best_paths_axis "legend" [] (("ncol", AInt 1) :: legend_params);
  _ ← plot_path_groups worst_paths_axis worst_paths;
  _ ← plot_group_percentile worst_paths_axis worst_paths;
  _ ← invoke worst_paths_axis "set_xlabel" [AStr (axis_label_font "Inter-Share Delay ($ms$)")] [];
  _ ← invoke worst_paths_axis "set_ylabel" [AStr cdf_label] [];
  _ ← invoke best_paths_axis "set_ylabel" [AStr cdf_label] [];
  save_subfigure_plot ("best-and-worst-paths-" +:+ capture_name +:+ "-cdf.pdf") [best_paths_axis; worst_paths_axis] 1
    [("no_legend", ABool true)].

(** [read_packet_dump_info_from_file] of a directory and a file name. *)
Variable read_packet_dump : string → string → M W (list Packet).

Definition plot_share_delay_cdf_across_ks (plot_name packet_info_dir : string) : Draw unit :=
  k_to_packets ← foldS (λ k_to_packets k_value,
    packets ← on_world (read_packet_dump packet_info_dir ("packet-dump-info-" +:+ str_of_Z k_value +:+ ".txt"));
    mret (Dict.set k_to_packets k_value packets)) [] (seqZ 3 6);
  _ ← for_each (enumerate k_to_packets) (λ '(plot_idx, (k_value, packets)),
    plot_share_delay_cdf packets (labelled plot_idx (legend_font ("$K$=" +:+ str_of_Z k_value))));
  _ ← plt "xlabel" [AStr (axis_label_font "Inter-share delay ($ms$)")] [];
  _ ← plt "ylabel" [AStr cdf_label] [];
  let legend_kwargs := Dict.set LEGEND "loc" (AStr "upper center") in
  let legend_kwargs := Dict.set legend_kwargs "bbox_to_anchor" (ATuple [AFloat (flit 5 10); AFloat (flit 12 10)]) in
  save_figure_with ("inter-share-latency-" +:+ plot_name +:+ "-cdf.pdf") (Z.of_nat (List.length k_to_packets / 2)) legend_kwargs [].
End security.

(** ** Intervals *)

(** [100 * 10**3] microseconds *)
Definition delta : Z := 100000.

Abbreviation port_pair := (Z * Z)%type.

(** The loop over the packets in order of time: the start of the current
    interval, its ports, and the counts of the completed intervals. *)
Definition active_step (st : Z * list port_pair * list Z) (p_i : Packet) : Z * list port_pair * list Z :=
  let '(interval_start, active_ports_in_interval, counts) := st in
  let current_time := timestamp p_i in
  let '(interval_start, active_ports_in_interval, counts) :=
    if bool_decide (delta < current_time - interval_start)%Z
    then (current_time, [], counts ++ [Z.of_nat (List.length active_ports_in_interval)])%list
    else (interval_start, active_ports_in_interval, counts) in
  (interval_start, set_add (source_port p_i, destination_port p_i) active_ports_in_interval, counts).

Definition number_of_active_paths_per_interval (packets : list Packet) : res (list Z) :=
  let packets := sorted_by timestamp packets in
  first ← or_raise IndexError (head packets);
  Ok (foldl active_step (timestamp first, [], []) packets).2.

(** The index of the interval of each packet, by message. *)
Definition presence_step (st : Z * Z * dict Z (list Z)) (p_i : Packet) : Z * Z * dict Z (list Z) :=
  let '(interval_start, interval_index, intervals) := st in
  let current_time := timestamp p_i in
  let '(interval_start, interval_index) :=
    if bool_decide (delta < current_time - interval_start)%Z then (current_time, interval_index + 1)%Z
    else (interval_start, interval_index) in
  (interval_start, interval_index, append_to intervals (seq_num p_i) interval_index).

Definition seq_num_to_interval_count (packets : list Packet) : res (dict Z Z) :=
  let packets := sorted_by timestamp packets in
  first ← or_raise IndexError (head packets);
  let intervals := (foldl presence_step (timestamp first, 0%Z, []) packets).2 in
  foldM (λ counts '(seq_num, list_of_intervals),
    width ← spread list_of_intervals; Ok (Dict.set counts seq_num (width + 1)%Z)) [] intervals.

(** [sorted(Counter(values).items())] and its frequencies. *)
Definition hist_data (values : list Z) : list (Z * Z) := sorted_by fst (Counter values).
Definition normed {F} `{PyFloat F} (hist : list (Z * Z)) : list F :=
  let vector_sum := foldl Z.add 0%Z (snd <$> hist) in
  (λ t_i, flit t_i.2 (Z.to_pos vector_sum)) <$> hist.

Section intervals.
Context {F W : Type} `{PyFloatText F}.
Abbreviation Draw := (M (trace F * W)).

(** The bars of one trace, and the values seen so far. *)
Definition plot_trace (bar_width : F) (trace_values : list Packet → res (list Z)) (possible_x_values : list Z)
    (entry : nat * (string * list Packet)) : Draw (list Z) :=
  let '(bar_idx, (trace_name, packets)) := entry in
  values ← lift (trace_values packets);
  let hist_data_for_trace := hist_data values in
  let bar_x_locations := (λ t_i, fadd (f_of_Z t_i.1) (fmul bar_width (f_of_Z (Z.of_nat bar_idx)))) <$> hist_data_for_trace in
  _ ← plot_a_bar (floats bar_x_locations) (floats (normed hist_data_for_trace)) (labelled bar_idx (legend_font trace_name)) bar_width;
  mret (foldl (λ s x, set_add x s) possible_x_values (fst <$> hist_data_for_trace)).

Definition tick_locations (bar_width : F) (number_of_traces : nat) (x_tick_labels : list Z) : list F :=
  (λ x_i, fadd (f_of_Z x_i) (fmul (fquot bar_width (f_of_Z 2)) (f_of_Z (Z.of_nat number_of_traces - 1)))) <$> x_tick_labels.

Definition pdf_label : string := axis_label_font "$\mathbb{P}\{x = \mathcal{X}\}$".

Definition generate_active_paths_per_interval_plot (set_of_traces_to_plot : list (list Packet)) (trace_names : list string) : Draw unit :=
  let bar_width := flit 4 10 in
  possible_x_values ← foldS (plot_trace bar_width number_of_active_paths_per_interval) []
    (enumerate (zip trace_names set_of_traces_to_plot));
  lowest ← lift (min_int possible_x_values);
  highest ← lift (max_int possible_x_values);
  let x_tick_labels := seqZ lowest (highest + 1 - lowest) in
  let x_tick_locations := tick_locations bar_width (List.length set_of_traces_to_plot) x_tick_labels in
  _ ← plt "xticks" [floats x_tick_locations; AList (AInt <$> x_tick_labels)] [];
  _ ← plt "ylabel" [AStr pdf_label] [];
  save_figure "active-paths-histogram.pdf" (Z.of_nat (List.length set_of_traces_to_plot)) [].

Definition share_presence (packets : list Packet) : res (list Z) := Dict.values <$> seq_num_to_interval_count packets.

Definition generate_number_of_time_periods_shares_were_active_pdf (set_of_traces_to_plot : list (list Packet))
    (trace_names : list string) : Draw unit :=
  let bar_width := flit 35 100 in
  possible_x_values ← foldS (plot_trace bar_width share_presence) [] (enumerate (zip trace_names set_of_traces_to_plot));
  let x_tick_labels := sorted_by id possible_x_values in
  let x_tick_locations := tick_locations bar_width (List.length set_of_traces_to_plot) x_tick_labels in
  _ ← plt "xticks" [floats x_tick_locations; AList (AInt <$> x_tick_labels)] [];
  _ ← plt "ylabel" [AStr pdf_label] [];
  save_figure "share-presence-pdf.pdf" (Z.of_nat (List.length set_of_traces_to_plot)) [].

Variable read_packet_dump : string → string → M W (list Packet).

(** [generate_all_plots] of security.py *)
Definition generate_security_plots : Draw unit :=
  let packet_dump_info_file := "packet-dump-info-5.txt" in
  uniform_packets ← on_world (read_packet_dump "/home/cpsc-net-user/repos/data-files/uniform-250" packet_dump_info_file);
  discrete_packets ← on_world (read_packet_dump "/home/cpsc-net-user/repos/data-files/discrete" packet_dump_info_file);
  let capture_names := ["uniform"; "discrete"] in
  let captures_to_plot := [uniform_packets; discrete_packets] in
  _ ← generate_active_paths_per_interval_plot captures_to_plot capture_names;
  generate_number_of_time_periods_shares_were_active_pdf captures_to_plot capture_names.
End intervals.
