(* ===== verification/CaptureAttackers.v ===== *)
(** Attackers that listen to some ports of a packet capture, and the plots
    of what they recover (data_visualization/path_hopping_attacker.py). *)

From S2P Require Import Prelude PyDict PyFloat PyStr PyText Groups TrialStore SimExperiment CoreTaps Figures Captures.
Local Open Scope string_scope.

(** The objects that the trials and the provider refer to. *)
Inductive capture_object (F : Type) : Type :=
  | CPackets (packets : list Packet)
  | CTimes (times : list Z)
  | CSeconds (t : F)
  | CPoints (points : list (Z * F * F)).
Arguments CPackets {F} _.
Arguments CTimes {F} _.
Arguments CSeconds {F} _.
Arguments CPoints {F} _.

Definition packets_parameter {F} (heap : list (capture_object F)) (t : Trial) (name : string) : res (list Packet) :=
  v ← get_parameter t name;
  match v with VObj oid => match heap !! oid with Some (CPackets ps) => Ok ps | _ => Raise TypeError end | _ => Raise TypeError end.
Definition times_parameter {F} (heap : list (capture_object F)) (t : Trial) (name : string) : res (list Z) :=
  v ← get_parameter t name;
  match v with VObj oid => match heap !! oid with Some (CTimes ts) => Ok ts | _ => Raise TypeError end | _ => Raise TypeError end.
Definition points_metadata {F} (heap : list (capture_object F)) (p : TrialProvider) (name : string) : res (list (Z * F * F)) :=
  v ← get_metadata p name;
  match v with VObj oid => match heap !! oid with Some (CPoints ps) => Ok ps | _ => Raise TypeError end | _ => Raise TypeError end.

Definition sender_ip : string := "10.10.0.1".
Definition from_sender (p_i : Packet) : Prop := source_ip p_i = sender_ip.
#[export] Instance from_sender_dec p : Decision (from_sender p) := decide (source_ip p = sender_ip).

(** The ports an attacker chooses from. *)
Definition capture_ports (packets : list Packet) : list Z :=
  set_of (source_port <$> filter (λ p_i, source_port p_i ≠ 11111%Z ∧ from_sender p_i) packets).

(** [p_i.source_ip == "10.10.0.1" and p_i.source_port in ports_to_listen_on] *)
Definition heard (ports_to_listen_on : list Z) (p_i : Packet) : Prop :=
  from_sender p_i ∧ source_port p_i ∈ ports_to_listen_on.
#[export] Instance heard_dec ports p : Decision (heard ports p) := decide (from_sender p ∧ source_port p ∈ ports).

Section attackers.
Context {F RNG : Type} `{PyFloat F}.
(** [np.random.choice(ports, K, replace=False)] and
    [np.random.uniform(-0.5, 0.5)] *)
Variable choice : list Z → Z → M RNG (list Z).
Variable uniform : M RNG F.

Definition fixed_attacker (packets : list Packet) (K : Z) : M RNG Z :=
  let ports := capture_ports packets in
  ports_to_listen_on ← choice ports K;
  let seq_num_to_share_count := foldl (λ counts p_i,
    if decide (heard ports_to_listen_on p_i) then count_at counts (seq_num p_i) else counts) [] packets in
  mret (Z.of_nat (List.length (filter (λ s_i, s_i = K) (Dict.values seq_num_to_share_count)))).

(** The shares an attacker holds, by message, with the interval in which it
    got them. *)
Abbreviation shares := (dict Z (list (Z * Z))).
Definition record_share (ports_to_listen_on : list Z) (interval_id : Z) (got : shares) (p_i : Packet) : shares :=
  if decide (heard ports_to_listen_on p_i) then append_to got (seq_num p_i) (share_num p_i, interval_id) else got.

(** [len([s_i for s_i in seq_num_to_share_count.values() if len(s_i) == K])] *)
Definition recovered (got : shares) (K : Z) : Z :=
  Z.of_nat (List.length (filter (λ s_i, Z.of_nat (List.length s_i) = K) (Dict.values got))).

(** The variables of the loops of the attackers that change their ports. *)
Record Listening : Type := mkListening {
  ls_ports : list Z;
  ls_shares : shares;
  ls_start : Z;
  ls_interval : Z
}.

Definition random_step (ports : list Z) (K timestep_ms : Z) (st : Listening) (p_i : Packet) : M RNG Listening :=
  let got := record_share (ls_ports st) (ls_interval st) (ls_shares st) p_i in
  if bool_decide (timestep_ms * 1000 < timestamp p_i - ls_start st)%Z then
    ports_to_listen_on ← choice ports K;
    mret (mkListening ports_to_listen_on got (timestamp p_i) (ls_interval st + 1)%Z)
  else mret (mkListening (ls_ports st) got (ls_start st) (ls_interval st)).

Definition random_attacker (packets : list Packet) (K timestep_ms : Z) : M RNG Z :=
  let ports := capture_ports packets in
  ports_to_listen_on ← choice ports K;
  first ← lift (or_raise IndexError (head packets));
  st ← foldS (random_step ports K timestep_ms) (mkListening ports_to_listen_on [] (timestamp first) 0%Z) packets;
  mret (recovered (ls_shares st) K).

(** The interval is longer or shorter by a random factor. *)
Definition perturbed_step (ports : list Z) (K timestep_ms : Z) (st : Listening * F) (p_i : Packet) : M RNG (Listening * F) :=
  let '(st, perturbation_factor) := st in
  let timestep_us := f_of_Z (timestep_ms * 1000) in
  let got := record_share (ls_ports st) (ls_interval st) (ls_shares st) p_i in
  if flt (fadd timestep_us (fmul timestep_us perturbation_factor)) (f_of_Z (timestamp p_i - ls_start st)) then
    ports_to_listen_on ← choice ports K;
    perturbation_factor ← uniform;
    mret (mkListening ports_to_listen_on got (timestamp p_i) (ls_interval st + 1)%Z, perturbation_factor)
  else mret (mkListening (ls_ports st) got (ls_start st) (ls_interval st), perturbation_factor).

Definition perturbed_random_attacker (packets : list Packet) (K timestep_ms : Z) : M RNG Z :=
  let ports := capture_ports packets in
  ports_to_listen_on ← choice ports K;
  first ← lift (or_raise IndexError (head packets));
  perturbation_factor ← uniform;
  '(st, _) ← foldS (perturbed_step ports K timestep_ms)
    (mkListening ports_to_listen_on [] (timestamp first) 0%Z, perturbation_factor) packets;
  mret (recovered (ls_shares st) K).

(** The sender's hop that has not been followed yet is in the state. *)
Definition synchronized_step (ports : list Z) (K : Z) (sender_hop_times : list Z) (st : Listening * nat) (p_i : Packet)
    : M RNG (Listening * nat) :=
  let '(st, hop_time_index) := st in
  '(listen, hop_time_index) ←
    match sender_hop_times !! hop_time_index with
    | Some hop_time =>
        if bool_decide (hop_time ≤ timestamp p_i)%Z
        then ports_to_listen_on ← choice ports K; mret (ports_to_listen_on, S hop_time_index)
        else mret (ls_ports st, hop_time_index)
    | None => mret (ls_ports st, hop_time_index)
    end;
  mret (mkListening listen (record_share listen (ls_interval st) (ls_shares st) p_i) (ls_start st) (ls_interval st),
        hop_time_index).

Definition synchronized_random_attacker (packets : list Packet) (sender_hop_times : list Z) (K : Z) : M RNG Z :=
  let ports := capture_ports packets in
  ports_to_listen_on ← choice ports K;
  first ← lift (or_raise IndexError (head packets));
  '(st, _) ← foldS (synchronized_step ports K sender_hop_times)
    (mkListening ports_to_listen_on [] (timestamp first) 0%Z, 0) packets;
  mret (recovered (ls_shares st) K).
End attackers.

(** ** Statistics that are printed *)

(** [print_capture_statistics]: how many messages have how many shares. *)
Definition print_capture_statistics {F} (heap : list (capture_object F)) (trial : Trial) : res (dict Z Z) :=
  packets ← packets_parameter heap trial "packet-dump";
  Ok (Counter (Dict.values (Counter (seq_num <$> filter from_sender packets)))).

(** [display_capture_statistics]: the packets and the destination ports of
    each capture. *)
Definition display_capture_statistics {F} (heap : list (capture_object F)) (trial_provider : TrialProvider)
    : res (list (Z * list Z)) :=
  mapR (λ trial,
    captured_packets ← packets_parameter heap trial "packet-dump";
    Ok (Z.of_nat (List.length captured_packets), set_of (destination_port <$> captured_packets))) (trials trial_provider).

Section displays.
Context {F RNG : Type}.
Variable choice : list Z → Z → M RNG (list Z).
Variable heap : list (capture_object F).

(** The messages each attacker recovers from each capture, as they are
    printed. *)
Definition display_statistics_for_fixed_attacker (trial_provider : TrialProvider) : M RNG (list Z) :=
  foldS (λ printed trial,
    captured_packets ← lift (packets_parameter heap trial "packet-dump");
    K ← lift (int_parameter trial "K");
    recovered_messages ← fixed_attacker choice captured_packets K;
    mret (printed ++ [recovered_messages])%list) [] (trials trial_provider).

Definition display_statistics_for_random_attacker (trial_provider : TrialProvider) : M RNG (list Z) :=
  foldS (λ printed trial,
    captured_packets ← lift (packets_parameter heap trial "packet-dump");
    K ← lift (int_parameter trial "K");
    timestep ← lift (int_parameter trial "timestep");
    _ ← lift (get_parameter trial "elapsed-tx-time");
    recovered_messages ← random_attacker choice captured_packets K timestep;
    mret (printed ++ [recovered_messages])%list) [] (trials trial_provider).

Definition display_statistics_for_synchronized_random_attacker (trial_provider : TrialProvider) : M RNG (list Z) :=
  foldS (λ printed trial,
    captured_packets ← lift (packets_parameter heap trial "packet-dump");
    hopping_times ← lift (times_parameter heap trial "hopping-times");
    K ← lift (int_parameter trial "K");
    _ ← lift (int_parameter trial "timestep");
    recovered_messages ← synchronized_random_attacker choice captured_packets hopping_times K;
    mret (printed ++ [recovered_messages])%list) [] (trials trial_provider).
End displays.

Definition display_active_step (interval_duration : Z) (st : Z * list Z * list Z) (p_i : Packet) : Z * list Z * list Z :=
  let '(interval_start_time, ports_in_interval, active) := st in
  let '(interval_start_time, ports_in_interval, active) :=
    if bool_decide (interval_duration < timestamp p_i - interval_start_time)%Z
    then (timestamp p_i, [], active ++ [Z.of_nat (List.length ports_in_interval)])%list
    else (interval_start_time, ports_in_interval, active) in
  (interval_start_time,
   if decide (from_sender p_i) then set_add (source_port p_i) ports_in_interval else ports_in_interval, active).

(** [display_active_paths_per_interval]: the frequencies of the numbers of
    paths. *)
Definition display_active_paths_per_interval {F} `{PyFloat F} (heap : list (capture_object F)) (trial : Trial)
    (interval_duration : Z) : res (dict Z F) :=
  packets ← packets_parameter heap trial "packet-dump";
  first ← or_raise IndexError (head packets);
  let active := (foldl (display_active_step interval_duration) (timestamp first, [], []) packets).2 in
  Ok ((λ kv, (kv.1, flit kv.2 (Pos.of_nat (List.length active)))) <$> Counter active).

(** ** Data recovery *)

Definition ph_base_repository_path : path := segments "/home/cpsc-net-user/results-repositories/benchmarks".
Definition ph_repository_schema : string := "/provider-name".
Definition ph_repository_name : string := "path-hopping-trial-results".

Section recovery.
Context {F RNG : Type} `{PyFloat F}.
Variable choice : list Z → Z → M RNG (list Z).
Variable uniform : M RNG F.
(** [rand.randint(0, 2**32)] *)
Variable randint : M RNG Z.
Variables np_mean np_std : list F → F.
Variable dumps : dict string string → string.
Variable loads : string → res (dict string string).

(** The recovered messages of the four attackers, by the value of the
    independent variable. *)
Record Points : Type := mkPoints {
  random_points : dict Z (list Z);
  fixed_points : dict Z (list Z);
  random_synced_points : dict Z (list Z);
  random_perturbed_points : dict Z (list Z)
}.

Definition attack_round (packets sender_hop_times : list _) (x_value k_value timestep : Z) (pts : Points) (round_seed_number : Z)
    : M RNG Points :=
  let packets_at_receiver := filter from_sender packets in
  random ← random_attacker choice packets_at_receiver k_value timestep;
  fixed ← fixed_attacker choice packets_at_receiver k_value;
  synced ← synchronized_random_attacker choice packets_at_receiver sender_hop_times k_value;
  perturbed ← perturbed_random_attacker choice uniform packets_at_receiver k_value timestep;
  mret (mkPoints (append_to (random_points pts) x_value random) (append_to (fixed_points pts) x_value fixed)
          (append_to (random_synced_points pts) x_value synced) (append_to (random_perturbed_points pts) x_value perturbed)).

Definition attack_trial (heap : list (capture_object F)) (independent_variable : string) (pts : Points) (the_trial : Trial)
    : M RNG Points :=
  packets ← lift (packets_parameter heap the_trial "packet-dump");
  x_value ← lift (int_parameter the_trial independent_variable);
  k_value ← lift (int_parameter the_trial "K");
  timestep ← lift (int_parameter the_trial "timestep");
  sender_hop_times ← lift (times_parameter heap the_trial "hopping-times");
  _ ← lift (get_parameter the_trial "elapsed-tx-time");
  seeds ← foldS (λ seeds _, seed ← randint; mret (seeds ++ [seed])%list) [] (seq 0 10);
  foldS (attack_round packets sender_hop_times x_value k_value timestep) pts seeds.

(** [(iv_value, np.mean(recovered_packets), np.std(recovered_packets))] *)
Definition summarize (points : dict Z (list Z)) : list (Z * F * F) :=
  (λ '(iv_value, recovered_packets), (iv_value, np_mean (f_of_Z <$> recovered_packets), np_std (f_of_Z <$> recovered_packets))) <$> points.

Definition add_points (st : TrialProvider * list (capture_object F)) (entry : string * list (Z * F * F))
    : res (TrialProvider * list (capture_object F)) :=
  p ← add_metadata st.1 entry.1 (VObj (List.length st.2)); Ok (p, st.2 ++ [CPoints entry.2])%list.

Definition generate_data_recovery_data (trial_provider : TrialProvider) (heap : list (capture_object F)) (independent_variable : string)
    : M (RNG * fsys) (TrialProvider * list (capture_object F)) :=
  pts ← (λ s, let '(r, rng) := foldS (attack_trial heap independent_variable) (mkPoints [] [] [] []) (trials trial_provider) s.1 in
              (r, (rng, s.2)));
  '(trial_provider, heap) ← lift (foldM add_points (trial_provider, heap)
    [("random-unsynchronized-attacker-data", summarize (random_points pts));
     ("fixed-attacker-data", summarize (fixed_points pts));
     ("random-synchronized-attacker-data", summarize (random_synced_points pts));
     ("random-perturbed-attacker-data", summarize (random_perturbed_points pts))]);
  results_repository ← on_world (create_repository dumps loads ph_base_repository_path ph_repository_schema ph_repository_name);
  let schema_vars := [("provider-name", provider_name trial_provider +:+ "-computed")] in
  trial_provider ← on_world (write_trial_provider results_repository schema_vars trial_provider true false);
  mret (trial_provider, heap).
End recovery.

(** ** The scatter plots *)

Section plots.
Context {F W : Type} `{PyFloat F}.
Abbreviation Draw := (M (trace F * W)).

Definition xs (ts : list (Z * F * F)) : list Z := (λ t_i, t_i.1.1) <$> ts.
(** [(t_i[1] / norm) * 100]: the numerators are numpy numbers, whose
    quotient by zero is not an error. *)
Definition ys (ts : list (Z * F * F)) (norm : F) : list F := (λ t_i, fmul (fquot t_i.1.2 norm) (f_of_Z 100)) <$> ts.
Definition zs (ts : list (Z * F * F)) : list F := snd <$> ts.

(** The largest number of messages in a capture. *)
Definition unique_seq_nums (heap : list (capture_object F)) (trial_provider : TrialProvider) : res Z :=
  packets ← mapR (λ t_i, packets_parameter heap t_i "packet-dump") (trials trial_provider);
  max_int ((λ packets_i, Z.of_nat (List.length (set_of (seq_num <$> filter from_sender packets_i)))) <$> packets).

(** The four series, in the order they are drawn. *)
Definition plot_recovery (ax : option target) (norm : Z) (series : list (list (Z * F * F) * string)) : Draw unit :=
  for_each (enumerate series) (λ '(idx, (data, label)),
    plot_a_scatter (AList (AInt <$> xs data)) (floats (ys data (f_of_Z norm))) None (mkOpts idx (Some label) true ax true)).

Definition recovery_series (heap : list (capture_object F)) (trial_provider : TrialProvider) : res (list (list (Z * F * F) * string)) :=
  random_unsynchronized_attacker_data ← points_metadata heap trial_provider "random-unsynchronized-attacker-data";
  fixed_attacker_data ← points_metadata heap trial_provider "fixed-attacker-data";
  random_synchronized_attacker_data ← points_metadata heap trial_provider "random-synchronized-attacker-data";
  random_perturbed_attacker_data ← points_metadata heap trial_provider "random-perturbed-attacker-data";
  Ok [(random_unsynchronized_attacker_data, "Random Unsynchronized Attacker"); (fixed_attacker_data, "Fixed Attacker");
      (random_synchronized_attacker_data, "Random Synchronized Attacker");
      (random_perturbed_attacker_data, "Random Perturbed Attacker")].

Definition generate_data_recovery_versus_k_scatter (heap : list (capture_object F)) (trial_provider : TrialProvider) : Draw unit :=
  series ← lift (recovery_series heap trial_provider);
  first ← lift (or_raise StopIteration (head (trials trial_provider)));
  _ ← lift (packets_parameter heap first "packet-dump");
  norm ← lift (unique_seq_nums heap trial_provider);
  _ ← plt "subplots" [] [];
  _ ← plot_recovery (Some (Ax 0)) norm series;
  _ ← xlabel "$K$";
  _ ← ylabel "\% Data Recovery";
  save_figure "attacker-data-recovery-vs-k.pdf" 2 [].

Definition generate_data_recovery_versus_delta_scatter (heap : list (capture_object F)) (trial_provider : TrialProvider) : Draw unit :=
  series ← lift (recovery_series heap trial_provider);
  norm ← lift (unique_seq_nums heap trial_provider);
  _ ← plot_recovery None norm series;
  _ ← xlabel "$\delta$";
  _ ← ylabel "\% Data Recovery";
  save_figure "attacker-data-recovery-vs-delta.pdf" 2 [].
End plots.

(** * Theorems

    What the analysis of captures computes: intervals partition the packets,
    frequencies add up, and attackers recover the messages of which they
    hold as many shares as they listen to ports. *)

From Stdlib Require Import QArith Qcanon.
Close Scope string_scope.

Close Scope Q_scope.
Close Scope Qc_scope.

(** * Intervals *)

Definition ports_of (p : Packet) : port_pair := (source_port p, destination_port p).

(** An interval: packets within [delta] of the first. *)
Definition interval_run (r : list Packet) : Prop :=
  ∃ first, head r = Some first ∧ Forall (λ p, timestamp p - timestamp first ≤ delta)%Z r.
Definition starts_after (r r' : list Packet) : Prop :=
  ∃ a b, head r = Some a ∧ head r' = Some b ∧ (delta < timestamp b - timestamp a)%Z.

(** Every member is followed by one that starts later than its interval. *)
Definition separated (runs : list (list Packet)) : Prop :=
  ∀ i r r', runs !! i = Some r → runs !! S i = Some r' → starts_after r r'.

Definition paths_in (r : list Packet) : Z := Z.of_nat (length (set_of (ports_of <$> r))).

(** The state of the loop describes the intervals of the packets so far. *)
Definition active_inv (seen : list Packet) (st : Z * list port_pair * list Z) (runs : list (list Packet)) (cur : list Packet) : Prop :=
  seen = concat runs ++ cur ∧ interval_run cur ∧ Forall interval_run runs ∧ separated (runs ++ [cur]) ∧
  (∃ first, head cur = Some first ∧ st.1.1 = timestamp first) ∧
  st.1.2 = set_of (ports_of <$> cur) ∧ st.2 = paths_in <$> runs.

Lemma separated_replace runs (cur cur' : list Packet) : head cur' = head cur → separated (runs ++ [cur]) → separated (runs ++ [cur']).
Proof.
  intros Hh Hs i r r' Hr Hr'. assert (S i < length runs ∨ S i = length runs) as [Hi|Hi].
  { apply lookup_lt_Some in Hr'. rewrite length_app in Hr'. cbn in Hr'. lia. }
  - rewrite lookup_app_l in Hr, Hr' by lia. apply (Hs i); by rewrite lookup_app_l by lia.
  - rewrite lookup_app_l in Hr by lia. rewrite Hi, lookup_app_r, Nat.sub_diag in Hr' by lia. injection Hr' as <-.
    destruct (Hs i r cur) as (a & b & Ha & Hb & Hd); [by rewrite lookup_app_l by lia|by rewrite Hi, lookup_app_r, Nat.sub_diag by lia|].
    exists a, b. by rewrite Hh.
Qed.

Lemma separated_snoc runs (cur r : list Packet) : separated (runs ++ [cur]) → starts_after cur r → separated ((runs ++ [cur]) ++ [r]).
Proof.
  intros Hs Hr i x y Hx Hy. assert (S i < length (runs ++ [cur]) ∨ S i = length (runs ++ [cur])) as [Hi|Hi].
  { apply lookup_lt_Some in Hy. rewrite length_app in Hy. cbn in Hy. lia. }
  - rewrite lookup_app_l in Hx, Hy by lia. by apply (Hs i).
  - rewrite lookup_app_l in Hx by lia. rewrite Hi, lookup_app_r, Nat.sub_diag in Hy by lia. injection Hy as <-.
    rewrite length_app in Hi. cbn in Hi. assert (i = length runs) as -> by lia.
    rewrite lookup_app_r, Nat.sub_diag in Hx by lia. by injection Hx as <-.
Qed.

Lemma active_step_inv seen st runs cur p : active_inv seen st runs cur →
  ∃ runs' cur', active_inv (seen ++ [p]) (active_step st p) runs' cur'.
Proof.
  destruct st as [[start ports] counts]. intros (-> & Hcur & Hruns & Hsep & (first & Hfirst & Hst) & Hports & Hcounts). cbn in Hst, Hports, Hcounts. subst.
  unfold active_step. case_bool_decide as Hd.
  - exists (runs ++ [cur]), [p]. unfold active_inv. rewrite concat_app. cbn [concat]. rewrite app_nil_r.
    split_and!; cbn [fst snd head].
    + done.
    + exists p. split; [done|]. repeat constructor. rewrite Z.sub_diag. done.
    + apply Forall_app. by repeat constructor.
    + apply separated_snoc; [done|]. by exists first, p.
    + by exists p.
    + done.
    + by rewrite fmap_app.
  - exists runs, (cur ++ [p]). unfold active_inv. assert (head (cur ++ [p]) = head cur) as Hh by (by destruct cur).
    split_and!; cbn [fst snd].
    + by rewrite (assoc_L (++)).
    + destruct Hcur as (f & Hf & Hall). exists f. rewrite Hh. split; [done|]. apply Forall_app. split; [done|]. constructor; [|done].
      rewrite Hfirst in Hf. injection Hf as <-. lia.
    + done.
    + by eapply separated_replace.
    + exists first. by rewrite Hh.
    + rewrite fmap_app. symmetry. apply (set_of_snoc _ (ports_of p)).
    + done.
Qed.

Lemma active_fold l seen st runs cur : active_inv seen st runs cur →
  ∃ runs' cur', active_inv (seen ++ l) (foldl active_step st l) runs' cur'.
Proof.
  revert seen st runs cur. induction l as [|p l IH]; intros seen st runs cur Hinv; [exists runs, cur; by rewrite app_nil_r|].
  destruct (active_step_inv seen st runs cur p Hinv) as (runs' & cur' & Hinv'). cbn [foldl].
  destruct (IH _ _ _ _ Hinv') as (runs'' & cur'' & H''). exists runs'', cur''. by rewrite <-(assoc_L (++)) in H''.
Qed.

(** C25: the numbers of active paths that are plotted for a capture are those
    of its intervals: in order of time the packets are divided into runs,
    each within [delta] of its first packet and followed by one that starts
    more than [delta] later, and the numbers are the distinct pairs of ports
    in every run but the last, which is left out. *)
Theorem active_paths_per_interval (packets : list Packet) : packets ≠ [] →
  ∃ runs last_run,
    sorted_by timestamp packets = concat runs ++ last_run ∧
    number_of_active_paths_per_interval packets = Ok (paths_in <$> runs) ∧
    Forall interval_run (runs ++ [last_run]) ∧ separated (runs ++ [last_run]).
Proof.
  intros Hne. unfold number_of_active_paths_per_interval. pose proof (sorted_by_perm timestamp packets) as Hp.
  destruct (sorted_by timestamp packets) as [|first l]; [by apply Permutation_nil_l in Hp|]. cbn [head or_raise mbind res_bind].
  assert (active_inv [first] (active_step (timestamp first, [], []) first) [] [first]) as Hinit.
  { unfold active_step. rewrite bool_decide_eq_false_2 by (unfold delta; lia). unfold active_inv. cbn [fst snd concat head].
    split_and!; try done.
    - exists first. split; [done|]. repeat constructor. rewrite Z.sub_diag. done.
    - by exists first. }
  destruct (active_fold l _ _ _ _ Hinit) as (runs & cur & Hseen & Hcur & Hruns & Hsep & _ & _ & Hcounts).
  exists runs, cur. cbn [foldl]. rewrite Hcounts. split_and!; [by rewrite <-Hseen|done| |done]. apply Forall_app. by repeat constructor.
Qed.

Definition demo_packet (src port seq ts : Z) : Packet :=
  mkPacket (if bool_decide (src = 1)%Z then sender_ip else "10.10.0.2"%string) "10.10.0.2"%string port 5000 seq 0 ts.
Definition demo_capture : list Packet :=
  [demo_packet 1 50200 1 0; demo_packet 1 50201 1 10; demo_packet 1 50200 2 150000; demo_packet 1 50202 2 150005].

Lemma active_paths_per_interval_witness : demo_capture ≠ [] ∧
  ∃ runs last_run, sorted_by timestamp demo_capture = concat runs ++ last_run ∧
    number_of_active_paths_per_interval demo_capture = Ok [2%Z] ∧ paths_in <$> runs = [2%Z] ∧ separated (runs ++ [last_run]).
Proof.
  assert (demo_capture ≠ []) as Hne by done. split; [exact Hne|].
  destruct (active_paths_per_interval demo_capture Hne) as (runs & l & Hs & Hn & _ & Hsep). exists runs, l.
  assert (number_of_active_paths_per_interval demo_capture = Ok [2%Z]) as Hv by (by vm_compute).
  split; [exact Hs|]. split; [exact Hv|]. split; [congruence|exact Hsep].
Defined.

(** * Frequencies *)

Lemma foldl_Zadd l a : foldl Z.add a l = (a + foldr Z.add 0 l)%Z.
Proof. revert a. induction l as [|x l IH]; intros a; cbn; [lia|]. rewrite IH. lia. Qed.
Lemma foldr_Zadd_perm l k : l ≡ₚ k → foldr Z.add 0%Z l = foldr Z.add 0%Z k.
Proof. induction 1; cbn; lia. Qed.

Lemma hist_total values : foldl Z.add 0%Z (snd <$> hist_data values) = Z.of_nat (length values).
Proof.
  rewrite foldl_Zadd, Z.add_0_l, <-(Counter_total values). apply foldr_Zadd_perm. unfold hist_data, Dict.values.
  by rewrite sorted_by_perm.
Qed.

Lemma fsum_flit (d : positive) (l : list Z) : fsum ((λ z, flit (F:=Qc) z d) <$> l) = flit (foldr Z.add 0%Z l) d.
Proof.
  induction l as [|z l IH]; [apply Qc_is_canon; by rewrite this_lit|]. rewrite fmap_cons, fsum_cons, IH. cbn [foldr].
  apply Qc_is_canon. rewrite this_add, !this_lit. unfold Qeq. cbn. lia.
Qed.

(** The bars of a trace add up to one, and each shows how often its value
    occurs. *)
Lemma normed_sums_to_one values : values ≠ [] → fsum (normed (F:=Qc) (hist_data values)) = fone.
Proof.
  intros Hne. unfold normed. rewrite hist_total.
  change (λ t_i : Z * Z, flit (F:=Qc) t_i.2 (Z.to_pos (Z.of_nat (length values))))
    with ((λ z, flit (F:=Qc) z (Z.to_pos (Z.of_nat (length values)))) ∘ snd (A:=Z) (B:=Z)).
  rewrite list_fmap_compose, fsum_flit. rewrite <-(Z.add_0_l (foldr _ _ _)), <-foldl_Zadd, hist_total.
  destruct values as [|v values]; [done|]. apply Qc_is_canon. unfold fone. rewrite !this_lit. unfold Qeq. cbn. lia.
Qed.

(** * Attackers *)

(** [n] of the messages have exactly [K] shares among the [captured]. *)
Definition messages_with (captured : list Packet) (K : Z) : nat :=
  length (filter (λ s, occurrences s (seq_num <$> captured) = K) (set_of (seq_num <$> captured))).

Lemma filter_values {V} (P : V → Prop) `{∀ v, Decision (P v)} (f : Z → V) (ks : list Z) :
  length (filter P (Dict.values ((λ k, (k, f k)) <$> ks))) = length (filter (λ k, P (f k)) ks).
Proof.
  unfold Dict.values. rewrite <-list_fmap_compose. induction ks as [|k ks IH]; [done|].
  rewrite fmap_cons, !filter_cons. cbn [compose snd]. case_decide; cbn; by rewrite IH.
Qed.

Lemma recovered_group (captured : list (Packet * Z)) K :
  recovered (group_all ((λ pi, (seq_num pi.1, (share_num pi.1, pi.2))) <$> captured)) K = Z.of_nat (messages_with (captured.*1) K).
Proof.
  unfold recovered, messages_with. rewrite group_all_items, filter_values. f_equal.
  set (l := (λ pi : Packet * Z, (seq_num pi.1, (share_num pi.1, pi.2))) <$> captured).
  assert (seq_num <$> captured.*1 = l.*1) as -> by (unfold l; by rewrite <-!list_fmap_compose).
  f_equal. apply list_filter_iff'. intros s. by rewrite occurrences_members.
Qed.

(** What an attacker has got so far: the shares of some of the packets. *)
Definition holds (seen : list Packet) (got : dict Z (list (Z * Z))) : Prop :=
  ∃ captured : list (Packet * Z), captured.*1 `sublist_of` filter from_sender seen ∧
    got = group_all ((λ pi, (seq_num pi.1, (share_num pi.1, pi.2))) <$> captured).

Lemma holds_nil : holds [] [].
Proof. by exists []. Qed.

Lemma holds_step seen got ports i p : holds seen got → holds (seen ++ [p]) (record_share ports i got p).
Proof.
  intros (captured & Hsub & ->). unfold record_share, holds. rewrite filter_app, filter_cons, filter_nil.
  destruct (decide (heard ports p)) as [[Hs _]|_].
  - exists (captured ++ [(p, i)]). rewrite !fmap_app, decide_True by done. split.
    + by apply sublist_app.
    + unfold group_all. by rewrite foldl_app.
  - exists captured. split; [|done]. by apply sublist_inserts_r.
Qed.

(** The number of messages an attacker recovers from [packets] when it holds
    as many shares of them as it listens to ports. *)
Definition recovers (packets : list Packet) (K n : Z) : Prop :=
  ∃ captured, captured `sublist_of` filter from_sender packets ∧ n = Z.of_nat (messages_with captured K).

Lemma holds_recovers packets got K : holds packets got → recovers packets K (recovered got K).
Proof. intros (captured & Hsub & ->). exists captured.*1. split; [done|]. apply recovered_group. Qed.

Lemma recovers_bounded packets K n : recovers packets K n →
  (0 ≤ n ≤ Z.of_nat (length (set_of (seq_num <$> filter from_sender packets))))%Z.
Proof.
  intros (captured & Hsub & ->). split; [lia|]. apply Nat2Z.inj_le. unfold messages_with.
  apply submseteq_length. transitivity (set_of (seq_num <$> captured)); [apply sublist_submseteq, sublist_filter|].
  apply NoDup_submseteq; [apply NoDup_set_of|]. intros s. rewrite !elem_of_set_of, !list_elem_of_fmap.
  intros (p & -> & Hp). exists p. split; [done|]. eapply elem_of_sublist; [exact Hp|done].
Qed.

Lemma heard_sublist ports packets : filter (heard ports) packets `sublist_of` filter from_sender packets.
Proof.
  induction packets as [|p l IH]; [done|]. rewrite !filter_cons. destruct (decide (from_sender p)) as [Hs|Hs].
  - case_decide; [by apply sublist_skip|by apply sublist_cons].
  - by rewrite decide_False by (intros [? _]; by apply Hs).
Qed.

(** A loop over the packets whose body can return keeps [holds]. *)
Section loops.
Context {RNG F : Type} `{PyFloat F}.
Variable choice : list Z → Z → M RNG (list Z).
Variable uniform : M RNG F.
Variables (packets : list Packet) (K : Z).
Abbreviation ports := (capture_ports packets).
Hypothesis Hchoice : ∀ rng, ∃ chosen rng', choice ports K rng = (Ok chosen, rng').
Hypothesis Huniform : ∀ rng, ∃ x rng', uniform rng = (Ok x, rng').
Hypothesis Hne : packets ≠ [].

Lemma random_loop timestep st rng : ls_shares st = [] →
  ∃ st' rng', foldS (random_step choice ports K timestep) st packets rng = (Ok st', rng') ∧ holds packets (ls_shares st').
Proof.
  intros H0. apply (foldS_prefix (λ seen st, holds seen (ls_shares st))); [|by rewrite H0; apply holds_nil].
  intros l1 p l2 b s _ Hb. unfold random_step. case_bool_decide.
  - destruct (Hchoice s) as (chosen & s' & Hc). rewrite (bindS_run _ _ _ chosen s') by done.
    eexists _, _. split; [done|]. by apply holds_step.
  - eexists _, _. split; [done|]. by apply holds_step.
Qed.

Lemma perturbed_loop timestep st rng : ls_shares st.1 = [] →
  ∃ st' rng', foldS (perturbed_step choice uniform ports K timestep) st packets rng = (Ok st', rng') ∧ holds packets (ls_shares st'.1).
Proof.
  intros H0. apply (foldS_prefix (λ seen st, holds seen (ls_shares st.1))); [|by rewrite H0; apply holds_nil].
  intros l1 p l2 [b factor] s _ Hb. unfold perturbed_step. case_match.
  - destruct (Hchoice s) as (chosen & s' & Hc). rewrite (bindS_run _ _ _ chosen s') by done.
    destruct (Huniform s') as (x & s'' & Hx). rewrite (bindS_run _ _ _ x s'') by done.
    eexists _, _. split; [done|]. by apply holds_step.
  - eexists _, _. split; [done|]. by apply holds_step.
Qed.

Lemma synchronized_loop times st rng : ls_shares st.1 = [] →
  ∃ st' rng', foldS (synchronized_step choice ports K times) st packets rng = (Ok st', rng') ∧ holds packets (ls_shares st'.1).
Proof.
  intros H0. apply (foldS_prefix (λ seen st, holds seen (ls_shares st.1))); [|by rewrite H0; apply holds_nil].
  intros l1 p l2 [b idx] s _ Hb. unfold synchronized_step. destruct (times !! idx) as [hop|].
  - case_bool_decide.
    + destruct (Hchoice s) as (chosen & s' & Hc). unfold mbind, M_bind. rewrite Hc.
      eexists _, _. split; [done|]. by apply holds_step.
    + eexists _, _. split; [done|]. by apply holds_step.
  - eexists _, _. split; [done|]. by apply holds_step.
Qed.

Lemma fixed_attacker_exact rng chosen rng' : choice ports K rng = (Ok chosen, rng') →
  fixed_attacker choice packets K rng = (Ok (Z.of_nat (messages_with (filter (heard chosen) packets) K)), rng').
Proof.
  intros Hc. unfold fixed_attacker. rewrite (bindS_run _ _ _ chosen rng') by done. unfold mret, M_ret. do 3 f_equal.
  assert (foldl (λ counts p_i, if decide (heard chosen p_i) then count_at counts (seq_num p_i) else counts) [] packets
    = Counter (seq_num <$> filter (heard chosen) packets)) as ->.
  { unfold Counter. generalize (@nil (Z * Z)) as acc. clear. induction packets as [|p l IH]; intros acc; [done|].
    cbn [foldl]. rewrite filter_cons. case_decide; [rewrite fmap_cons; cbn [foldl]|]; apply IH. }
  rewrite Counter_items, filter_values. done.
Qed.

Lemma first_packet : ∃ first, head packets = Some first.
Proof. destruct packets; [done|]. by eexists. Qed.

End loops.

