(* ===== verification/PathHoppingPlots.v ===== *)
(** The plots of the path hopping experiments
    (data_visualization/path_hopping.py) and of the simulations
    (path_hopping_simulations.py). A provider is read from a repository; the
    objects its trials refer to are in the heap. *)

From S2P Require Import Prelude PyDict PyFloat PyStr PyText Groups StatMonitor TopoMapper TrialStore FlowAllocation.
From S2P Require Import VirtualHost PathHoppingTrial SimExperiment CoreTaps Figures NetUtil Captures CaptureAttackers.
Local Open Scope string_scope.

(** The objects that the trials and providers refer to. *)
Inductive plot_object (F : Type) : Type :=
  | PTrial (o : object F)
  | PExpected (utilization : dict (Z * Z) F)
  | PDistribution (probabilities : list F)
  | PMessages (messages : list Z).
Arguments PTrial {F} _.
Arguments PExpected {F} _.
Arguments PDistribution {F} _.
Arguments PMessages {F} _.

Definition deref {F} (heap : list (plot_object F)) (v : value) : res (plot_object F) :=
  match v with VObj oid => or_raise TypeError (heap !! oid) | _ => Raise TypeError end.
Definition byte_counts_parameter {F} (heap : list (plot_object F)) (t : Trial) (name : string) : res (list (list IfaceStats)) :=
  v ← get_parameter t name; o ← deref heap v; match o with PTrial (OByteCounts c) => Ok c | _ => Raise TypeError end.
Definition rates_parameter {F} (heap : list (plot_object F)) (t : Trial) (name : string) : res (dict link_key F) :=
  v ← get_parameter t name; o ← deref heap v; match o with PTrial (OMeanRates d) => Ok d | _ => Raise TypeError end.
Definition flows_parameter {F} (heap : list (plot_object F)) (t : Trial) (name : string) : res (list (Flow F)) :=
  v ← get_parameter t name; o ← deref heap v; match o with PTrial (OFlowSet l) => Ok l | _ => Raise TypeError end.
Definition expected_parameter {F} (heap : list (plot_object F)) (t : Trial) (name : string) : res (dict (Z * Z) F) :=
  v ← get_parameter t name; o ← deref heap v; match o with PExpected d => Ok d | _ => Raise TypeError end.
Definition messages_parameter {F} (heap : list (plot_object F)) (t : Trial) (name : string) : res (list Z) :=
  v ← get_parameter t name; o ← deref heap v; match o with PMessages l => Ok l | _ => Raise TypeError end.
Definition str_metadata (p : TrialProvider) (name : string) : res string :=
  v ← get_metadata p name; match v with VStr s => Ok s | VInt z => Ok (str_of_Z z) | _ => Raise TypeError end.

(** The number of the links of a snapshot, which is printed: it raises when
    the snapshot has no switch. *)
Definition print_link_count {A} (table : link_table A) : res nat :=
  match table with [] => Raise StopIteration | (_, t) :: _ => Ok (List.length table * List.length t) end.

Section curves.
Context {F W : Type} `{PyFloatText F}.
Abbreviation Draw := (M (trace F * W)).

(** [plot_a_cdf] of this module: the points start at zero twice. *)
Definition ph_cdf_points (sorted_cdf_data : list F) : list F * list F :=
  foldl (λ '(xs, ys) '(ctr, d_i),
    (xs ++ [d_i], ys ++ [flit (Z.of_nat ctr) (Pos.of_nat (List.length sorted_cdf_data))])%list)
    ([fzero], [fzero]) (enumerate sorted_cdf_data).
Definition ph_plot_a_cdf (sorted_cdf_data : list F) (idx : nat) (label : option string) : Draw unit :=
  let label := default ("CDF " +:+ str_of_Z (Z.of_nat idx)) label in
  let '(xs, ys) := ph_cdf_points sorted_cdf_data in
  marker ← lift (marker_style idx);
  linestyle ← lift (line_style idx);
  color ← lift (line_color idx);
  plt "plot" [floats xs; floats ys] [("marker", marker); ("label", AStr label); ("linestyle", linestyle); ("color", color)].

Definition flier_props : arg F :=
  ADict [("marker", AStr "x"); ("markerfacecolor", AStr "red"); ("markeredgecolor", AStr "red")].
Definition plot_a_box_plot (data_vectors : list (list F)) (vector_labels : list string) : Draw unit :=
  _ ← plt "boxplot" [AList (floats <$> data_vectors)]
        [("labels", strs vector_labels); ("whiskerprops", ADict [("linestyle", AStr "--")]); ("flierprops", flier_props)];
  _ ← plt "setp" [AStr "boxes"] [("color", AStr "blue")];
  plt "setp" [AStr "medians"] [("color", AStr "red")].

End curves.

Section plots.
Context {F : Type} `{PyFloatText F}.
Abbreviation Draw := (M (trace F * fsys)).
Variables np_mean np_std : list F → F.
Variable heap : list (plot_object F).

(** The mean utilization of a trial, from its byte counters. *)
Definition trial_mean_utilization (utilization_results : list (list IfaceStats)) : res (dict link_key F) :=
  byte_counts_per_time_period ← compute_byte_counts_per_time_period (F:=F) utilization_results;
  Ok (compute_mean_network_utilization np_mean
        (compute_network_utilization_per_time_period bytes_per_10s_to_mbps byte_counts_per_time_period)).

Definition link_utilization_cdf_of_trial (trial : Trial) : Draw unit :=
  utilization_results ← lift (byte_counts_parameter heap trial "utilization-results");
  byte_counts_per_time_period ← lift (compute_byte_counts_per_time_period (F:=F) utilization_results);
  _ ← lift (mapR print_link_count byte_counts_per_time_period);
  let network_utilization_per_time_period :=
    compute_network_utilization_per_time_period bytes_per_10s_to_mbps byte_counts_per_time_period in
  _ ← lift (mapR print_link_count network_utilization_per_time_period);
  let mean_network_utilization := compute_mean_network_utilization np_mean network_utilization_per_time_period in
  ph_plot_a_cdf (sorted_floats (Dict.values mean_network_utilization)) 0 None.

Definition generate_link_utilization_cdf (results_repository : ResultsRepository) (provider_name : string) : Draw unit :=
  trial_provider ← on_world (read_trial_provider results_repository provider_name);
  _ ← for_each (trials trial_provider) link_utilization_cdf_of_trial;
  _ ← plt "xlabel" [AStr "Link throughput (Mbps)"] [];
  _ ← plt "ylabel" [AStr "P{x < X}"] [];
  _ ← plt "legend" [] LEGEND;
  save_figure (provider_name +:+ "-cdf.pdf") 1 [("no_legend", ABool true)].

Definition generate_link_utilization_box_plot (results_repository : ResultsRepository) (provider_name : string) : Draw unit :=
  trial_provider ← on_world (read_trial_provider results_repository provider_name);
  rows ← lift (mapR (λ trial,
    utilization_results ← byte_counts_parameter heap trial "utilization-results";
    mean_network_utilization ← trial_mean_utilization utilization_results;
    K ← int_parameter trial "K";
    Ok (Dict.values mean_network_utilization, "K=" +:+ str_of_Z K)) (trials trial_provider));
  _ ← plot_a_box_plot rows.*1 rows.*2;
  _ ← plt "ylabel" [AStr "Link Throughput (Mbps)"] [];
  save_figure (provider_name +:+ "-box-plot.pdf") 3 [("no_legend", ABool true)].

Definition generate_expected_link_utilization_cdf (results_repository : ResultsRepository) (provider_name : string) : Draw unit :=
  trial_provider ← on_world (read_trial_provider results_repository provider_name);
  the_trial ← lift (get_first_trial_that_matches trial_provider (λ t,
    n ← get_parameter t "trial-name"; Ok (bool_decide (n = VStr "optimal-3"))));
  expected_utilization_results ← lift (expected_parameter heap the_trial "link-utilization");
  _ ← ph_plot_a_cdf (sorted_floats (Dict.values expected_utilization_results)) 0 None;
  save_figure "expected-link-utilization-cdf.pdf" 1 [("no_legend", ABool true)].

Definition generate_topology_graph : Draw unit :=
  _ ← invoke (Made "nx") "draw_circular" [AStr "complete_graph(10)"] [("node_color", AStr "skyblue")];
  save_figure "network-topology.pdf" 1 [("no_legend", ABool true)].

Definition generate_substrate_topology_graph : Draw unit :=
  _ ← invoke (Made "nx") "draw_circular" [AStr "complete_graph(10)"] [("node_color", AStr "skyblue")];
  save_figure "network-topology.pdf" 1 [("no_legend", ABool true)].

Definition collect_trials_based_on_name (trial_provider : TrialProvider) : res (list (list Trial)) :=
  let names := sorted_with String.ltb (set_of (trial_name <$> trials trial_provider)) in
  mapR (λ name, get_all_trials_that_match trial_provider (λ t_i, Ok (bool_decide (trial_name t_i = name)))) names.

Definition multiflow_label (label : string) : res string :=
  Dict.getitem [("greedy-path-hopping", trial_name_font "Path Hopping");
                ("k-paths-allocation", trial_name_font "K-Paths");
                ("mcf-trial", trial_name_font "MCF")] label.
(** [multiflow_label(group[0].name)] *)
Definition group_label (group : list Trial) : res string :=
  first ← or_raise IndexError (head group); multiflow_label (trial_name first).

(** The measured utilizations of the trials of a group that have them. *)
Definition group_utilizations (group : list Trial) : res (list F) :=
  values ← mapR (λ t_i, d ← rates_parameter heap t_i "measured-link-utilization"; Ok (Dict.values d))
    (filter (λ t_i, has_parameter t_i "measured-link-utilization" = true) group);
  Ok (concat values).

Definition generate_computed_link_utilization_cdf (trial_provider : TrialProvider) : Draw unit :=
  grouped_by_name ← lift (collect_trials_based_on_name trial_provider);
  labels ← lift (mapR group_label grouped_by_name);
  link_utilizations ← lift (mapR group_utilizations grouped_by_name);
  _ ← for_each (enumerate (zip labels link_utilizations)) (λ '(plot_idx, (label, utilizations)),
    ph_plot_a_cdf (sorted_floats utilizations) plot_idx (Some (legend_font label)));
  _ ← plt "xlabel" [AStr (axis_label_font "Link Utilization")] [];
  _ ← plt "ylabel" [AStr (axis_label_font "$\mathbb{P}\{x \leq \mathcal{X}\}$")] [];
  node_selection_type ← lift (str_metadata trial_provider "node-selection-type");
  save_figure ("computed-link-utilization-" +:+ node_selection_type +:+ "-cdf.pdf")
    (Z.of_nat (List.length (trials trial_provider))) [].

(** The numbers of flows of the trials of each group. *)
Definition allocated_flows_data (grouped_by_name : list (list Trial)) : res (list (list F)) :=
  mapR (mapR (λ t_i, flows ← flows_parameter heap t_i "flow-set"; Ok (f_of_Z (Z.of_nat (List.length flows))))) grouped_by_name.

Definition generate_flow_count_bar_plot (trial_provider : TrialProvider) : Draw unit :=
  grouped_by_name ← lift (collect_trials_based_on_name trial_provider);
  data ← lift (allocated_flows_data grouped_by_name);
  labels ← lift (mapR (λ group, l ← group_label group; Ok (axis_label_font l)) grouped_by_name);
  let bar_x_locations := AInt ∘ Z.of_nat <$> seq 0 (List.length grouped_by_name) in
  _ ← for_each (enumerate (zip labels data)) (λ '(plot_idx, (label, d_i)),
    color ← lift (bar_color plot_idx);
    hatch ← lift (bar_texture plot_idx);
    plt "bar" [AInt (Z.of_nat plot_idx); AFloat (np_mean d_i)]
      [("color", color); ("tick_label", AStr label); ("hatch", hatch); ("yerr", AFloat (np_std d_i)); ("capsize", AFloat (f_of_Z 5))]);
  _ ← plt "ylabel" [AStr (axis_label_font "\# of admitted flows")] [];
  _ ← plt "xticks" [AList bar_x_locations; strs labels] [];
  node_selection_type ← lift (str_metadata trial_provider "node-selection-type");
  save_figure ("admitted-flows-" +:+ node_selection_type +:+ "-bar.pdf")
    (Z.of_nat (List.length (trials trial_provider))) [("no_legend", ABool true)].

Definition generate_node_probability_histogram (trial_provider : TrialProvider) : Draw unit :=
  v ← lift (get_metadata trial_provider "node-probability-distribution");
  o ← lift (deref heap v);
  probabilities ← lift match o with PDistribution l => Ok l | _ => Raise TypeError end;
  let bar_x_locations := AInt ∘ Z.of_nat <$> seq 0 (List.length probabilities) in
  _ ← plt "bar" [AList bar_x_locations; floats probabilities] [("hatch", AStr "/")];
  _ ← plt "xticks" [AList bar_x_locations; AList ((λ _, AStr EmptyString) <$> bar_x_locations)] [];
  _ ← plt "xlabel" [AStr "Node ID"] [];
  _ ← plt "ylabel" [AStr "$\mathbb{P}\{n \in \{s, t\}\}$"] [];
  node_selection_type ← lift (str_metadata trial_provider "node-selection-type");
  save_figure ("node-probability-distribution-" +:+ node_selection_type +:+ ".pdf") 1 [("no_legend", ABool true)].

Definition generate_computed_link_utilization_box_plot (trial_provider : TrialProvider) : Draw unit :=
  grouped_by_name ← lift (collect_trials_based_on_name trial_provider);
  labels ← lift (mapR (λ group, l ← group_label group; Ok (axis_label_font l)) grouped_by_name);
  link_utilization_data ← lift (mapR group_utilizations grouped_by_name);
  _ ← plot_a_box_plot link_utilization_data labels;
  _ ← plt "ylabel" [AStr (axis_label_font "Link utilization")] [];
  node_selection_type ← lift (str_metadata trial_provider "node-selection-type");
  save_figure ("computed-link-utilization-" +:+ node_selection_type +:+ "-box.pdf") 1 [("no_legend", ABool true)].

Definition generate_measured_link_utilization_cdf (trial_provider : TrialProvider) : Draw unit :=
  trial ← lift (get_first_trial_that_matches trial_provider (λ t_i, Ok (bool_decide (trial_name t_i = "greedy-path-hopping"))));
  link_utilization ← lift (rates_parameter heap trial "measured-link-utilization");
  _ ← plot_a_cdf (sorted_floats (Dict.values link_utilization)) default_opts;
  save_figure "test-cdf.pdf" 1 [].

(** [abs(x)]; the number that [print_admitted_flow_statistics] prints, a
    quotient of numpy numbers. *)
Definition fabs (x : F) : F := if flt x fzero then fsub fzero x else x.
Definition print_admitted_flow_statistics (trial_provider : TrialProvider) : res F :=
  grouped_by_name ← collect_trials_based_on_name trial_provider;
  data ← allocated_flows_data grouped_by_name;
  labels ← mapR (λ group, first ← or_raise IndexError (head group); Ok (trial_name first)) grouped_by_name;
  let label_to_flow_count := Dict.of_pairs (zip labels (np_mean <$> data)) in
  path_hopping ← Dict.getitem label_to_flow_count "greedy-path-hopping";
  k_paths ← Dict.getitem label_to_flow_count "k-paths-allocation";
  Ok (fquot (fabs (fsub path_hopping k_paths)) k_paths).

(** ** The topology with its utilization *)

Section topology.
Context {G : Type} `{NxGraph string G}.
(** [g.edges()], [g.nodes()] and the colour map. *)
Variables (nx_edges : G → list (string * string)) (nx_node_list : G → list string).
Variable colour_map : F → arg F.

Definition generate_graph_from_utilization_results (util_results : list (list IfaceStats)) : G :=
  let net_topo := foldl (λ g node_id, nx_add_node node_id g) nx_empty (get_node_set util_results) in
  foldl (λ g '(u, v), nx_add_edge u v g) net_topo (get_link_set util_results).

Definition generate_topo_utilization_graph (results_repository : ResultsRepository) (provider_name : string) : Draw unit :=
  trial_provider ← on_world (read_trial_provider results_repository provider_name);
  the_trial ← lift (or_raise StopIteration (head (trials trial_provider)));
  utilization_results ← lift (byte_counts_parameter heap the_trial "utilization-results");
  let net_topo := generate_graph_from_utilization_results utilization_results in
  mean_utils ← lift (trial_mean_utilization utilization_results);
  _ ← plt "get_cmap" [AStr "coolwarm"] [];
  _ ← plt "set_cmap" [AStr "coolwarm"] [];
  cs ← lift (mapR (λ '(u, v),
    u_val ← (if Dict.mem mean_utils (u, v) then Dict.getitem mean_utils (u, v) else Dict.getitem mean_utils (v, u));
    Ok (colour_map u_val)) (nx_edges net_topo));
  let node_colors := (λ _, AStr "skyblue") <$> nx_node_list net_topo in
  _ ← invoke (Made "nx") "draw_networkx_edges" [] [("edge_color", AList cs); ("edge_cmap", AStr "coolwarm")];
  _ ← invoke (Made "nx") "draw_networkx_nodes" [] [("node_color", AList node_colors); ("node_size", AInt 100)];
  _ ← plt "axis" [AStr "off"] [];
  _ ← plt "colorbar" [ATuple [AInt 0; AInt 1]] [];
  _ ← save_figure (provider_name +:+ "-topo-util.pdf") 1 [("no_legend", ABool true)];
  plt "clf" [] [].
End topology.

(** ** path_hopping_simulations.py *)

Definition attacker_types : list string :=
  ["random-path-hopping"; "random-node-hopping"; "one-node-per-path"; "fixed"; "planned"].

(** The percentages of one trial, appended to the lists of the group. The
    table of messages is that of the last trial that was read. *)
Definition trial_recovery (st : dict string (list Z) * dict string (list F)) (trial : Trial)
    : res (dict string (list Z) * dict string (list F)) :=
  total_messages_sent ← int_parameter trial "sim_duration";
  attacker_data ← foldM (λ attacker_data attacker_type,
    messages ← messages_parameter heap trial (attacker_type +:+ "-attacker-recovered-messages");
    Ok (Dict.set attacker_data attacker_type messages)) st.1 attacker_types;
  ys ← foldM (λ ys '(attacker_type, recovered_messages),
    share ← fdiv (f_of_Z (Z.of_nat (List.length recovered_messages))) (f_of_Z total_messages_sent);
    Ok (append_to ys attacker_type (fmul share (f_of_Z 100)))) st.2 attacker_data;
  Ok (attacker_data, ys).

(** The variables of the loop over the groups. *)
Record Recovery : Type := mkRecovery {
  rc_xs : list F;
  rc_means : dict string (list F);
  rc_errs : dict string (list F);
  rc_attacker_data : dict string (list Z)
}.
Definition group_recovery (st : Recovery) (entry : Z * list Trial) : res Recovery :=
  let '(param_value, param_group) := entry in
  '(attacker_data, ys) ← foldM trial_recovery (rc_attacker_data st, []) param_group;
  Ok (mkRecovery (rc_xs st ++ [fquot (f_of_Z param_value) (f_of_Z 5)])%list
        (foldl (λ means '(attacker_type, y_vals), append_to means attacker_type (np_mean y_vals)) (rc_means st) ys)
        (foldl (λ errs '(attacker_type, y_vals), append_to errs attacker_type (np_std y_vals)) (rc_errs st) ys)
        attacker_data).

Definition keyed_trials (param_name : string) (trial_provider : TrialProvider) : res (list (Z * Trial)) :=
  mapR (λ t_i, k ← int_parameter t_i param_name; Ok (k, t_i)) (trials trial_provider).
(** The groups of [itertools.groupby] over the sorted trials. *)
Definition trial_groups (keyed : list (Z * Trial)) : list (Z * list Trial) :=
  (λ '(k, g), (k, g.*2)) <$> groupby fst (sorted_by fst keyed).

Definition generate_data_recovery_vs_param_plot (trial_provider : TrialProvider) (param_name x_axis_label : string) : Draw unit :=
  keyed ← lift (keyed_trials param_name trial_provider);
  _ ← plt "subplots" [] [];
  st ← lift (foldM group_recovery (mkRecovery [] [] [] []) (trial_groups keyed));
  _ ← for_each (enumerate (rc_means st)) (λ '(plot_idx, (attacker_type, means)),
    plot_a_scatter (floats (rc_xs st)) (floats means) None (mkOpts plot_idx (Some attacker_type) true (Some (Ax 0)) true));
  _ ← xlabel x_axis_label;
  _ ← xlabel "Delay to hop period ratio";
  _ ← ylabel "\% of recovered messages";
  save_figure "attacker-simulation.pdf" 3 [].

Definition generate_data_recovery_vs_time_cdf (trial_provider : TrialProvider) : Draw unit :=
  _ ← for_each (trials trial_provider) (λ trial,
    path_length ← lift (get_parameter trial "path-length");
    if bool_decide (path_length = VInt 10) then
      random_path_attacker ← lift (messages_parameter heap trial "random-path-hopping-attacker-recovered-messages");
      random_node_attacker ← lift (messages_parameter heap trial "random-node-hopping-attacker-recovered-messages");
      _ ← lift (messages_parameter heap trial "ideal-random-path-hopping-attacker-recovered-messages");
      one_node_per_path_attacker_captured ← lift (messages_parameter heap trial "one-node-per-path-attacker");
      fixed_attacker_captured ← lift (messages_parameter heap trial "fixed-attacker");
      for_each (enumerate
        [(random_path_attacker, "Random Path Attacker"); (random_node_attacker, "Random Node Attacker");
         (one_node_per_path_attacker_captured, "One Node per Path Attacker"); (fixed_attacker_captured, "Fixed Attacker")])
        (λ '(idx, (messages, label)),
          plot_a_cdf (f_of_Z <$> sorted_by id messages) (mkOpts idx (Some label) false None true))
    else mret tt);
  save_figure "data-recovery-cdf.pdf" 2 [].
End plots.
