(* ===== verification/TuitiPlots.v ===== *)
(** The plots of the mininet trials (data_visualization/tuiti.py) and the
    program that draws them (tuiti_plots.py). *)

From Stdlib Require Import Ascii.
From S2P Require Import Prelude PyDict PyFloat PyStr PyText Groups StatMonitor TrialStore TrafficGen TuitiTrial MininetTuiti.
From S2P Require Import SimExperiment CoreTaps Figures NetUtil PathHoppingPlots.
Local Open Scope string_scope.

(** The objects of the trials are those of the experiment. *)
Definition mini_deref {F} (heap : list (mini_object F)) (t : Trial) (name : string) : res (mini_object F) :=
  v ← get_parameter t name; match v with VObj oid => or_raise TypeError (heap !! oid) | _ => Raise TypeError end.
Definition mini_byte_counts {F} (heap : list (mini_object F)) (t : Trial) : res (list (list IfaceStats)) :=
  o ← mini_deref heap t "byte-counts-over-time"; match o with MByteCounts c => Ok c | _ => Raise TypeError end.
Definition mini_link_rates {F} (heap : list (mini_object F)) (t : Trial) : res (list (dict link_key F)) :=
  o ← mini_deref heap t "link-utilization-over-time"; match o with MLinkRates r => Ok r | _ => Raise TypeError end.
Definition mini_mean_rates {F} (heap : list (mini_object F)) (t : Trial) : res (dict link_key F) :=
  o ← mini_deref heap t "measured-link-utilization"; match o with MMeanRates r => Ok r | _ => Raise TypeError end.
(** [end_host_results[0]["sender"]] and [end_host_results[1]["receiver"]] *)
Definition mini_host_results {F} (heap : list (mini_object F)) (t : Trial) : res (dict Z HostResults) :=
  o ← mini_deref heap t "end-host-results"; match o with MHostResults r => Ok r | _ => Raise TypeError end.

(** [link_tuple_to_util_list] *)
Definition link_tuple_to_util_list {F} (link_utilization_over_time : list (dict link_key F)) : dict link_key (list F) :=
  foldl (λ data_for_links (link_id_to_util_value : dict link_key F),
    foldl (λ data '(link_tuple, util_value), append_to data link_tuple util_value) data_for_links link_id_to_util_value)
    [] link_utilization_over_time.

Definition first_switch : string := "of:0000000000000001".

(** [min(a, b)] *)
Definition fmin {F} `{PyFloat F} (a b : F) : F := if flt b a then b else a.

Section losses.
Context {F : Type} `{PyFloat F}.

(** [(sent - received) / sent] *)
Definition loss_rate (total_sender_packets total_receiver_packets : Z) : res F :=
  fdiv (f_of_Z (total_sender_packets - total_receiver_packets)) (f_of_Z total_sender_packets).

(** The packets of the flows of one path, and those with their source ports
    that arrived. *)
Definition path_totals (receiver_results : dict (string * Z) Z) (flows_with_id : list SenderReport) : Z * Z :=
  foldl (λ '(sent, received) the_flow,
    (sent + rp_pkt_count the_flow,
     received + foldl Z.add 0 (snd <$> filter (λ info_count, info_count.1.2 = rp_src_port the_flow) receiver_results))%Z)
    (0, 0)%Z flows_with_id.

Definition link_loss_rates (sender_results : dict nat SenderReport) (receiver_results : dict (string * Z) Z) : res (list F) :=
  let sender_results := sorted_by rp_flow_id (Dict.values sender_results) in
  mapR (λ '(flow_id, flows_with_id),
    let '(sent, received) := path_totals receiver_results flows_with_id in loss_rate sent received)
    (groupby rp_flow_id sender_results).
End losses.

Section plots.
Context {F W : Type} `{PyFloatText F}.
Abbreviation Draw := (M (trace F * W)).
Variable np_mean : list F → F.
Variable heap : list (mini_object F).

(** The end of a file name: the parameter and its value. *)
Definition parameter_suffix (parameter_name parameter_value : string) : string :=
  parameter_name +:+ "-" +:+ parameter_value +:+ ".pdf".

Definition tuiti_link_utilization_cdf (parameter_name parameter_value : string) (trials : list Trial) : Draw unit :=
  let link_capacity := f_of_Z 50 in
  _ ← for_each (enumerate trials) (λ '(idx, trial),
    utilization_results ← lift (mini_byte_counts heap trial);
    let links := get_link_set utilization_results in
    mean_network_utilization ← lift (mini_mean_rates heap trial);
    let link_utilizations :=
      sorted_floats ((λ link_throughput, fquot link_throughput link_capacity) <$> Dict.values mean_network_utilization) in
    plot_a_cdf link_utilizations (labelled idx (trial_name trial)));
  _ ← xlabel (axis_label_font "Link Utilization");
  _ ← ylabel (axis_label_font "$\mathbb{P}\{x < \mathcal{X}$\}");
  _ ← plt "legend" [] (("ncol", AInt (Z.of_nat (List.length trials / 2))) :: LEGEND);
  save_figure ("link-utilization-cdf-" +:+ parameter_suffix parameter_name parameter_value) 1 [("no_legend", ABool true)].

Definition tuiti_link_utilization_box_plot (parameter_name parameter_value : string) (trials : list Trial) : Draw unit :=
  rows ← lift (mapR (λ the_trial,
    mean_link_utilization ← mini_mean_rates heap the_trial;
    Ok (Dict.values mean_link_utilization, axis_label_font (trial_name the_trial))) trials);
  _ ← plot_a_box_plot rows.*1 rows.*2;
  save_figure ("link-utilization-box-plot-" +:+ parameter_suffix parameter_name parameter_value) 1 [("no_legend", ABool true)].

(** The comprehension unpacks the keys of the dictionary, which are pairs of
    switches: [util_list] is the second switch, and [link_tuple[0]] the first
    character of the first one. *)
Definition generate_link_utilization_over_time_plot (trial_provider : TrialProvider) : Draw unit :=
  for_each (filter (λ t, trial_name t = "avg") (trials trial_provider)) (λ the_trial,
    link_utilization_over_time ← lift (mini_link_rates heap the_trial);
    data_for_links ← lift (filterR (λ '(link_tuple, _),
        match link_tuple with
        | EmptyString => Raise IndexError
        | String c _ => Ok (bool_decide (String c EmptyString = first_switch))
        end) (Dict.keys (link_tuple_to_util_list link_utilization_over_time)));
    let data_for_links := Dict.of_pairs data_for_links in
    _ ← for_each (enumerate data_for_links) (λ '(plot_idx, (_, utilization_values)),
      plot_a_scatter (AList (AInt ∘ Z.of_nat <$> seq 0 (String.length utilization_values))) (AStr utilization_values) None
        (with_idx plot_idx));
    save_figure "over-time.pdf" 1 [("no_legend", ABool true)]).

Definition generate_per_path_packet_loss_cdf (parameter_name parameter_value : string) (trials : list Trial) : Draw unit :=
  _ ← for_each (enumerate trials) (λ '(trial_idx, the_trial),
    end_host_results ← lift (mini_host_results heap the_trial);
    host_0 ← lift (Dict.getitem end_host_results 0%Z);
    host_1 ← lift (Dict.getitem end_host_results 1%Z);
    sender_results ← lift (or_raise AttributeError host_0.2);
    rates ← lift (link_loss_rates sender_results host_1.1);
    plot_a_cdf (sorted_floats rates) (labelled trial_idx (trial_name the_trial)));
  _ ← xlabel (axis_label_font "Packet Loss Rate");
  _ ← ylabel (axis_label_font "$\mathbb{P}\{x \leq \mathcal{X}\}$");
  save_figure ("per-path-loss-cdf-" +:+ parameter_suffix parameter_name parameter_value) 3 [].

(** The rates of the links of the first switch, each cut off by [cut]. *)
Definition source_links (cut : F → F) (link_utilization_over_time : list (dict link_key F)) : dict link_key (list F) :=
  map_values (fmap cut) (filter (λ kv, kv.1.1 = first_switch) (link_tuple_to_util_list link_utilization_over_time)).
(** [len(next(iter(data_for_links.values())))] *)
Definition number_of_snapshots (data_for_links : dict link_key (list F)) : res nat :=
  match data_for_links with [] => Raise StopIteration | (_, l) :: _ => Ok (List.length l) end.
(** The values of all links at each time. *)
Definition columns (ys : dict link_key (list F)) : res (list (list F)) :=
  n ← number_of_snapshots ys;
  mapR (λ time_idx, mapR (λ util_list : list F, or_raise IndexError (util_list !! time_idx)) (Dict.values ys)) (seq 0 n).

Definition over_time_plot (cut : F → F) (total : list F → F) (trials : list Trial) : Draw unit :=
  for_each (enumerate trials) (λ '(trial_idx, the_trial),
    link_utilization_over_time ← lift (mini_link_rates heap the_trial);
    at_times ← lift (columns (source_links cut link_utilization_over_time));
    plot_a_scatter (AList (AInt ∘ Z.of_nat <$> seq 0 (List.length at_times))) (floats (total <$> at_times)) None
      (labelled trial_idx (trial_name the_trial))).

Definition path_capacity : F := f_of_Z 50.

Definition generate_mean_throughput_over_time_plot (parameter_name parameter_value : string) (trials : list Trial) : Draw unit :=
  _ ← over_time_plot (fmin path_capacity) fsum trials;
  _ ← xlabel (axis_label_font "Time");
  _ ← ylabel (axis_label_font "Mean throughput (Mi-bps)");
  save_figure ("throughput-over-time-" +:+ parameter_suffix parameter_name parameter_value) 3 [].

Definition generate_mean_link_utilization_over_time_plot (parameter_name parameter_value : string) (trials : list Trial) : Draw unit :=
  _ ← over_time_plot (λ util_val, fquot (fmin path_capacity util_val) path_capacity) np_mean trials;
  _ ← xlabel (axis_label_font "Time");
  _ ← ylabel (axis_label_font "Mean link utilization");
  save_figure ("mean-utilization-over-time-" +:+ parameter_suffix parameter_name parameter_value) 3 [].

(** [s.replace("-approximate", "")] *)
Definition remove_prefix_at (n : nat) (s : string) : string := String.substring n (String.length s - n) s.
Fixpoint remove_substring (fuel : nat) (w s : string) : string :=
  match fuel with
  | 0 => s
  | S fuel =>
      match s with
      | EmptyString => EmptyString
      | String c s' => if String.prefix w s then remove_substring fuel w (remove_prefix_at (String.length w) s)
                       else String c (remove_substring fuel w s')
      end
  end.
Definition bar_label (name : string) : string := remove_substring (S (String.length name)) "-approximate" name.

(** [np.arange(0.0, (n + 1) * 2 * bar_width, 2 * bar_width)], a parameter. *)
Variable np_arange : F → F → F → list F.

Definition generate_number_of_successful_requests_bar_plot (parameter_name parameter_value : string) (trials : list Trial) : Draw unit :=
  let bar_width := flit 2 10 in
  let step := fmul (f_of_Z 2) bar_width in
  let bar_x_locations := np_arange fzero (fmul (f_of_Z ((Z.of_nat (List.length trials) + 1) * 2)) bar_width) step in
  let bar_labels := bar_label ∘ trial_name <$> trials in
  _ ← for_each (enumerate (zip trials bar_labels)) (λ '(idx, (the_trial, label)),
    y_value ← lift (int_parameter the_trial "number-of-successful-flows");
    x ← lift (or_raise IndexError (bar_x_locations !! idx));
    plot_a_bar (AFloat x) (AInt y_value) (labelled idx label) bar_width);
  _ ← plt "xticks" [floats bar_x_locations; strs bar_labels] [];
  save_figure ("successful-requests-bar-" +:+ parameter_suffix parameter_name parameter_value) 1 [("no_legend", ABool true)].

(** The two rates that [print_tx_rate_of_sender] prints for each trial. *)
Definition transmission_rate (packets : Z) : F :=
  fquot (f_of_Z (packets * 1066 * 8)) (fmul (fmul (f_of_Z (2 ^ 20)) (flit 75 10)) (f_of_Z 60)).
Definition print_tx_rate_of_sender (trials : list Trial) : res (list (F * F)) :=
  mapR (λ the_trial,
    end_host_results ← mini_host_results heap the_trial;
    host_0 ← Dict.getitem end_host_results 0%Z;
    host_1 ← Dict.getitem end_host_results 1%Z;
    sender_results ← or_raise AttributeError host_0.2;
    let total_sender_packets := foldl Z.add 0%Z (rp_pkt_count <$> Dict.values sender_results) in
    let total_receiver_packets := foldl Z.add 0%Z (Dict.values host_1.1) in
    Ok (transmission_rate total_sender_packets, transmission_rate total_receiver_packets)) trials.

(** ** tuiti_plots.py *)

(** The six plots of a group. *)
Definition plot_group (pname value : string) (group : list Trial) : Draw unit :=
  _ ← generate_per_path_packet_loss_cdf pname value group;
  _ ← tuiti_link_utilization_cdf pname value group;
  _ ← tuiti_link_utilization_box_plot pname value group;
  _ ← generate_mean_throughput_over_time_plot pname value group;
  _ ← generate_mean_link_utilization_over_time_plot pname value group;
  generate_number_of_successful_requests_bar_plot pname value group.

(** [itertools.groupby] by a string. *)
Fixpoint groupby_str {A} (k : A → string) (l : list A) : list (string * list A) :=
  match l with
  | [] => []
  | x :: l => match groupby_str k l with
              | (j, g) :: r => if decide (k x = j) then (j, x :: g) :: r else (k x, [x]) :: (j, g) :: r
              | [] => [(k x, [x])]
              end
  end.

Definition generate_plot_groups (key_function : Trial → res string) (ts : list Trial) : Draw unit :=
  keyed ← lift (mapR (λ t, k ← key_function t; Ok (k, t)) ts);
  let sorted := sorted_with (λ a b : string * Trial, String.ltb a.1 b.1) keyed in
  for_each (groupby_str fst sorted) (λ '(parameter_value, parameter_group), plot_group "pname" parameter_value parameter_group.*2).

(** The groups by the value of an integer parameter. *)
Definition generate_plots_for_parameter (parameter_name : string) (trial_provider : TrialProvider) : Draw unit :=
  keyed ← lift (keyed_trials parameter_name trial_provider);
  for_each (trial_groups keyed) (λ '(parameter_value, parameter_group),
    plot_group parameter_name (str_of_Z parameter_value) parameter_group).

(** [re.match(".*approximate.*", name)]: [.] does not match a line break. *)
Fixpoint contains (w s : string) : bool :=
  String.prefix w s ||
  match s with EmptyString => false | String c s => negb (Ascii.eqb c newline) && contains w s end.
Definition key_function (trial : Trial) : res string :=
  let method_string := if contains "approximate" (trial_name trial) then "approx" else "exact" in
  deviation_mode ← get_parameter trial "deviation-mode";
  match deviation_mode with
  | VStr s => Ok (s +:+ "-" +:+ method_string)
  | VInt z => Ok (str_of_Z z +:+ "-" +:+ method_string)
  | VObj _ => Raise TypeError
  end.

End plots.

(** tuiti/config.py *)
Definition tuiti_base_repository_path : TrialStore.path :=
  (segments "/home/alexj/results-repositories/" ++ ["rerun-after-approximate-methods"])%list.
Definition tuiti_repository_schema : string := "/provider-name".
Definition tuiti_repository_name : string := "tuiti-testing".

(** The trials are sorted, which orders them by their names. *)
Definition tuiti_plots {F} `{PyFloatText F} (np_mean : list F → F) (heap : list (mini_object F)) (np_arange : F → F → F → list F)
    (dumps : dict string string → string) (loads : string → res (dict string string)) : M (trace F * fsys) unit :=
  results_repository ← on_world (create_repository dumps loads tuiti_base_repository_path tuiti_repository_schema tuiti_repository_name);
  trial_provider ← on_world (read_trial_provider results_repository "tuiti-trial-provider");
  let ts := sorted_with (λ a b, String.ltb (trial_name a) (trial_name b)) (trials trial_provider) in
  generate_plot_groups np_mean heap np_arange key_function ts.

(** No link passes the test, which compares one character with the name of
    a switch: the figure is saved without a curve. *)
Lemma over_time_plot_is_empty {F W} `{PyFloat F} (heap : list (mini_object F)) (p : TrialProvider) (t : trace F) (w : W) s' :
  generate_link_utilization_over_time_plot heap p (t, w) = (Ok tt, s') →
  Forall (λ c, c_method c ≠ "plot") (drop (List.length t) s'.1).
Proof.
  unfold generate_link_utilization_over_time_plot. generalize (filter (λ t, trial_name t = "avg") (trials p)) as ts. intros ts Hrun.
  cut (∃ calls, s'.1 = t ++ calls ∧ Forall (λ c, c_method c ≠ "plot") calls)%list.
  { intros (calls & -> & Hc). by rewrite drop_app_length. }
  revert t w Hrun. induction ts as [|trial ts IH]; intros t w.
  { cbn [for_each]. intros [= <-]. exists []. by rewrite app_nil_r. }
  cbn [for_each]. intros ([] & [t1 w1] & Hbody & Hrest)%bindS_Ok.
  apply bindS_Ok in Hbody as (rates & s1 & [_ ->]%lift_Ok & Hbody).
  apply bindS_Ok in Hbody as (links & s2 & [Hlinks ->]%lift_Ok & Hbody).
  assert (links = []) as ->.
  { revert Hlinks. generalize (Dict.keys (link_tuple_to_util_list rates)) as ks. clear. intros ks. revert links.
    induction ks as [|[a b] ks IH]; intros links; cbn; [by intros [= <-]|]. destruct a as [|c a]; [done|]. cbn.
    rewrite bool_decide_eq_false_2 by done. destruct (filterR _ ks) as [r|]; [|done]. cbn. intros [= <-]. by apply IH. }
  cbn in Hbody. injection Hbody as <- <-. destruct (IH _ _ Hrest) as (calls & -> & Hc).
  rewrite <-!(assoc_L (++)). eexists. split; [done|]. repeat (apply Forall_app; split); try (by repeat constructor).
Qed.
