(* ===== verification/Benchmarks.v ===== *)
(** The plots of the mininet benchmarks
    (data_visualization/mininet_benchmarks.py). The results are lists of
    dictionary literals; [eval] is a parameter. *)

From S2P Require Import Prelude PyDict PyFloat PyStr PyText Json Groups TrialStore Figures.
Local Open Scope string_scope.

Definition MININET_RESULTS_DIR : path := segments "/home/cpsc-net-user/repos/mtd-crypto-impl/results/".

(** [d_i["experiment"][key]] *)
Definition experiment_field (key : string) (d_i : json) : res json := e ← jkey d_i "experiment"; jkey e key.

Section benchmarks.
Context {F : Type} `{PyFloat F}.
Abbreviation Draw := (M (trace F * fsys)).
Variables np_mean np_std : list F → F.
Variable py_eval : string → res json.

(** The loop over one group. [statistic_value] is a variable of the whole
    function: it keeps the value of the last trial that had one. *)
Definition group_statistic (aggregation_fn : json → res F) (st : option F * list F) (d_i : json) : res (option F * list F) :=
  match aggregation_fn d_i with
  | Ok statistic_value => Ok (Some statistic_value, st.2 ++ [statistic_value])%list
  | Raise ValueError => Ok st
  | Raise e => Raise e
  end.

Definition compute_parameter_statistics (trial_dicts : list json) (selector_fn : json → res Z) (aggregation_fn : json → res F)
    : res (list (Z * F * F)) :=
  keyed ← mapR (λ d_i, k ← selector_fn d_i; Ok (k, d_i)) trial_dicts;
  '(_, scatter_points) ← foldM (λ '(statistic_value, scatter_points) '(key_value, g),
    '(statistic_value, measured_statistic) ← foldM (group_statistic aggregation_fn) (statistic_value, []) (snd <$> g);
    x ← or_raise NameError statistic_value;
    Ok (statistic_value, scatter_points ++ [(key_value, np_mean [x], np_std [x])])%list)
    (None, []) (groupby fst (sorted_by fst keyed));
  Ok scatter_points.

Definition compute_goodput (trial_dict : json) : res F :=
  last_time ← jkey trial_dict "receiver_last_recv_time" ≫= jint;
  first_time ← jkey trial_dict "receiver_first_recv_time" ≫= jint;
  let elapsed_time_us := (last_time - first_time)%Z in
  let elapsed_time_s := flit elapsed_time_us 1000000 in
  if feq elapsed_time_s fzero then Raise ValueError
  else goodput_bps ← fdiv (f_of_Z (10 * 10 ^ 6 * 8)) elapsed_time_s; Ok (fquot goodput_bps (f_of_Z (10 ^ 6))).
Definition compute_mean_goodput (trial_dicts : list json) (selector_fn : json → res Z) : res (list (Z * F * F)) :=
  compute_parameter_statistics trial_dicts selector_fn compute_goodput.

Definition compute_data_recovery (trial_dict : json) : res F :=
  bytes ← jkey trial_dict "attacker_intercepted_bytes" ≫= jint; Ok (f_of_Z bytes).
Definition compute_mean_data_recovery (trial_dicts : list json) (selector_fn : json → res Z) : res (list (Z * F * F)) :=
  compute_parameter_statistics trial_dicts selector_fn compute_data_recovery.

Definition read_results_dicts (dir : string) : Draw (list json) :=
  text ← on_world (read_text (MININET_RESULTS_DIR ++ [dir; "results.log"])%list);
  lift (mapR py_eval (splitlines text)).

(** The trials whose experiment has the value [v] of [key]. *)
Definition select_trials (key v : string) (results_dicts : list json) : res (list json) :=
  filterR (λ d_i, x ← experiment_field key d_i; Ok (match x with JStr s => bool_decide (s = v) | _ => false end)) results_dicts.

Definition int_selector (key : string) (d_i : json) : res Z := experiment_field key d_i ≫= jint.

Definition plot_points (plot_idx : nat) (label : string) (value : F → F) (scatter_points : list (Z * F * F)) : Draw unit :=
  plot_a_scatter (AList ((λ t_i : Z * F * F, AInt t_i.1.1) <$> scatter_points))
    (floats ((λ t_i : Z * F * F, value t_i.1.2) <$> scatter_points)) None (labelled plot_idx (legend_font label)).

(** The goodput of the two hopping methods by one parameter: the four
    functions below differ in the directory, the parameter, the label and the
    figure. *)
Definition goodput_scatter (dir key label figure : string) : Draw unit :=
  results_dicts ← read_results_dicts dir;
  host_hopping_trials ← lift (select_trials "hop_method" "host" results_dicts);
  net_hopping_trials ← lift (select_trials "hop_method" "net" results_dicts);
  scatter_points ← lift (compute_mean_goodput host_hopping_trials (int_selector key));
  _ ← plot_points 0 "Host hopping" id scatter_points;
  scatter_points ← lift (compute_mean_goodput net_hopping_trials (int_selector key));
  _ ← plot_points 1 "Net hopping" id scatter_points;
  _ ← plt "xlabel" [AStr (axis_label_font label)] [];
  _ ← plt "ylabel" [AStr (axis_label_font "Mbps")] [];
  save_figure figure 2 [].

Definition generate_goodput_vs_k_scatter : Draw unit := goodput_scatter "results_k" "k" "$K$" "k_goodput.pdf".
Definition generate_goodput_vs_path_length_scatter : Draw unit :=
  goodput_scatter "results_links" "path_length" "Path length (\# of links)" "links_goodput.pdf".
Definition generate_goodput_vs_hopping_interval_scatter : Draw unit :=
  goodput_scatter "results_ts" "timestep" "Timestep (ms)" "ts_goodput.pdf".
Definition generate_goodput_vs_message_size_scatter : Draw unit :=
  goodput_scatter "results_msgsize" "msg_size" "Message size (Bytes)" "msg_goodput.pdf".

Definition generate_attacker_vs_k_scatter : Draw unit :=
  results_dicts ← read_results_dicts "results_attacker_k";
  fixed_attacker_trials ← lift (select_trials "attacker_setting" "fixed" results_dicts);
  unsynced_attacker_trials ← lift (select_trials "attacker_setting" "hop_independent" results_dicts);
  synced_attacker_trials ← lift (select_trials "attacker_setting" "hop_sync" results_dicts);
  _ ← for_each (enumerate [("Fixed", fixed_attacker_trials); ("Independent", unsynced_attacker_trials); ("Synced", synced_attacker_trials)])
    (λ '(plot_idx, (trial_name, trial_data)),
      scatter_points ← lift (compute_mean_data_recovery trial_data (int_selector "k"));
      plot_points plot_idx trial_name (λ y, fquot y (f_of_Z 1000)) scatter_points);
  _ ← plt "xlabel" [AStr (axis_label_font "$K$")] [];
  _ ← plt "ylabel" [AStr (axis_label_font "Kilobytes")] [];
  save_figure "attacker.pdf" 3 [].

Definition host_hopping : list (Z * F) :=
  (λ t, (t, fzero)) <$> [100; 250; 500; 1000; 5000; 10000]%Z.
Definition net_hopping : list (Z * F) :=
  [(100, flit 32 100); (250, flit 14 100); (500, flit 93 1000); (1000, flit 25 1000); (5000, flit 15 1000); (10000, fzero)]%Z.

Definition generate_loss_vs_timestep_plot : Draw unit :=
  _ ← for_each (enumerate [("Host hopping", host_hopping); ("Net hopping", net_hopping)]) (λ '(plot_idx, (trial_name, trial_data)),
    plot_a_scatter (AList ((λ t_i, AInt t_i.1) <$> (trial_data : list (Z * F)))) (floats (snd <$> trial_data)) None
      (labelled plot_idx (legend_font trial_name)));
  _ ← plt "xlim" [ATuple [AFloat fzero; AInt 10000]] [];
  _ ← plt "ylim" [ATuple [AFloat fzero; AFloat (flit 35 100)]] [];
  _ ← plt "xlabel" [AStr (axis_label_font "Timestep (ms)")] [];
  _ ← plt "ylabel" [AStr (axis_label_font "Packet loss rate")] [];
  save_figure "loss-plot.pdf" 2 [].

(** [generate_all_plots] of mininet_benchmarks.py *)
Definition generate_benchmark_plots : Draw unit := generate_attacker_vs_k_scatter.

(** The point that is drawn for a group is the value of its last trial, not
    the mean of the values of its trials. *)
Lemma statistics_of_one_group (aggregation_fn : json → res F) (k : Z) (ds : list json) (vs : list F) v :
  Forall2 (λ d x, aggregation_fn d = Ok x) ds (vs ++ [v])%list →
  compute_parameter_statistics ds (λ _, Ok k) aggregation_fn = Ok [(k, np_mean [v], np_std [v])].
Proof.
  intros Hagg. unfold compute_parameter_statistics.
  assert (mapR (λ d_i, k ← Ok k; Ok (k, d_i)) ds = Ok (pair k <$> ds)) as -> by (apply mapR_all_Ok; by intros).
  cbn [mbind res_bind]. assert (sorted_by fst (pair k <$> ds) = pair k <$> ds) as ->.
  { clear Hagg. induction ds as [|d ds IH]; [done|]. cbn. change (foldr _ _ _) with (sorted_by fst (pair k <$> ds)). rewrite IH.
    destruct ds; [done|]. cbn. by rewrite bool_decide_eq_true_2 by done. }
  assert (ds ≠ []) as Hne by (intros ->; inversion Hagg as [H1 H2|]; by destruct vs).
  assert (groupby fst (pair k <$> ds) = [(k, pair k <$> ds)]) as ->.
  { clear Hagg. destruct ds as [|d ds]; [done|]. revert d Hne. induction ds as [|d' ds IH]; intros d Hne; [done|].
    rewrite fmap_cons. cbn [groupby]. rewrite IH by done. cbn. by rewrite decide_True. }
  cbn [foldM]. assert (snd <$> (pair k <$> ds) = ds) as -> by (rewrite <-list_fmap_compose; apply list_fmap_id).
  assert (∀ st, foldM (group_statistic aggregation_fn) st ds = Ok (Some v, st.2 ++ vs ++ [v])%list) as Hfold.
  { clear Hne. revert ds Hagg. induction vs as [|x vs IH]; intros ds Hagg st; cbn [app] in *.
    - destruct ds as [|d [|? ?]]; [by inversion Hagg| |by inversion Hagg as [|? ? ? ? ? Hr]; inversion Hr].
      inversion Hagg; subst. cbn. unfold group_statistic. by case_match; simplify_eq.
    - destruct ds as [|d ds]; [by inversion Hagg|]. inversion Hagg as [|? ? ? ? Hd Hr]; subst. cbn [foldM].
      assert (group_statistic aggregation_fn st d = Ok (Some x, st.2 ++ [x])%list) as -> by (unfold group_statistic; by rewrite Hd). cbn [mbind res_bind].
      rewrite IH by done. cbn. by rewrite <-(assoc_L (++)). }
  by rewrite Hfold.
Qed.
End benchmarks.
