(* ===== verification/MirroringPlots.v ===== *)
(** The evaluation of the port mirroring experiments
    (data_visualization/port_mirroring.py) and of the flow mirroring
    experiments (data_visualization/flow_mirroring.py).

    numpy's standard deviation and [arange], the JSON parser and [eval] are
    parameters; the controller is the interface of the topology mapper. *)

From S2P Require Import Prelude PyDict PyFloat PyStr PyText Json Accum Groups TopoMapper FlowMirroring PortMirroring.
From S2P Require Import TrialStore RemoteHost CoreTaps Figures NetUtil PathHoppingPlots.
Local Open Scope string_scope.

(** [port_mirroring/params.py: rate_factor] *)
Definition rate_factor {F} `{PyFloat F} : F := f_of_Z 100.

Definition run_name (run_idx : nat) : string := "run-" +:+ str_of_Z (Z.of_nat run_idx).
Definition sub_trial_name (trial_idx : nat) : string := "sub-trial-" +:+ str_of_Z (Z.of_nat trial_idx).

Definition schema_of (provider_name solution_name trial_name : string) : dict string string :=
  [("provider-name", provider_name); ("solution-type", solution_name); ("trial-name", trial_name)].

(** [{v: k for k, v in id_to_dpid.items()}] *)
Definition dpid_to_id (id_to_dpid : dict Z string) : dict string Z := Dict.of_pairs ((λ kv, (kv.2, kv.1)) <$> id_to_dpid).

(** The values a collection of dictionaries [defaultdict(lambda:
    defaultdict(list))] has for a solution and a number of flows. *)
Abbreviation solution_table A := (dict string (dict Z A)).
Definition extend_at {A} (d : solution_table (list A)) (solution_name : string) (k : Z) (l : list A) : solution_table (list A) :=
  let inner := Dict.get_default [] d solution_name in
  Dict.set d solution_name (Dict.set inner k (Dict.get_default [] inner k ++ l)%list).
Definition set_at {A} (d : solution_table A) (solution_name : string) (k : Z) (x : A) : solution_table A :=
  Dict.set d solution_name (Dict.set (Dict.get_default [] d solution_name) k x).

(** [for solution, t in d.items(): for k, x in t.items(): ...] *)
Definition fold_table {A B} (f : B → string → Z → A → res B) (b : B) (d : solution_table A) : res B :=
  foldM (λ b '(solution_name, t), foldM (λ b '(k, x), f b solution_name k x) b t) b d.

(** The results of a trial of port mirroring. *)
Record PmResults (F : Type) : Type := mkPmResults {
  pr_topo : string;
  pr_flows : dict Z (PortMirroringFlow Z F);
  pr_switches : dict Z (PortMirroringSwitch F);
  pr_solutions : solutions Z F;
  pr_net_utilization : list (link_table F);
  pr_ports : dict Z (dict Z Z)
}.
Arguments mkPmResults {F} _ _ _ _ _ _.
Arguments pr_topo {F} _.
Arguments pr_flows {F} _.
Arguments pr_switches {F} _.
Arguments pr_solutions {F} _.
Arguments pr_net_utilization {F} _.
Arguments pr_ports {F} _.

(** The results of a trial of flow mirroring. *)
Record FmResults (F : Type) : Type := mkFmResults {
  fr_topo : string;
  fr_flows : dict Z (FlowDefinition F);
  fr_switches : dict Z SwitchDefinition;
  fr_solutions : dict Z (SolutionDefinition F);
  fr_net_utilization : list (link_table F)
}.
Arguments mkFmResults {F} _ _ _ _ _.
Arguments fr_topo {F} _.
Arguments fr_flows {F} _.
Arguments fr_switches {F} _.
Arguments fr_solutions {F} _.
Arguments fr_net_utilization {F} _.

(** * Mirroring rates *)

Section rates.
Context {F : Type} `{PyFloatText F}.

Definition compute_theoretical_mirroring_rates_for_switches (switches : dict Z (PortMirroringSwitch F)) (sols : solutions Z F)
    : res (dict Z F) :=
  foldM (λ rates_for_switch '(switch_id, solutions),
    foldM (λ rates solution,
      switch ← Dict.getitem switches (mirror_switch_id solution);
      mirrored_port_rate ← rate_for_port switch (mirror_switch_port solution);
      Ok (add_default rates (mirror_switch_id solution) mirrored_port_rate)) rates_for_switch solutions) [] sols.

(** [max(d.items(), key=lambda kvp: kvp[1])] *)
Definition max_item (d : dict Z F) : res (Z * F) := max_with (λ a b : Z * F, flt a.2 b.2) d.

Definition pm_most_used_mirroring_port_rate (sols : solutions Z F) : res F :=
  first ← or_raise StopIteration (head (Dict.values sols));
  solution ← or_raise IndexError (head first);
  Ok (objective_value solution).
Definition pm_most_used_mirroring_port (switches : dict Z (PortMirroringSwitch F)) (sols : solutions Z F) : res Z :=
  rates_for_switch ← compute_theoretical_mirroring_rates_for_switches switches sols;
  max_mirroring_port_switch_id ← max_item rates_for_switch;
  _ ← pm_most_used_mirroring_port_rate sols;
  Ok max_mirroring_port_switch_id.1.

(** flow_mirroring.py: the load of each switch that mirrors a flow. *)
Definition mirroring_utils (flows : dict Z (FlowDefinition F)) (sols : dict Z (SolutionDefinition F)) : res (dict Z F) :=
  foldM (λ utils flow,
    solution ← Dict.getitem sols (fd_flow_id flow);
    Ok (add_default utils (sol_mirror_switch_id solution) (fd_traffic_rate flow))) [] (Dict.values flows).
Definition fm_most_used_mirroring_port (flows : dict Z (FlowDefinition F)) (sols : dict Z (SolutionDefinition F)) : res Z :=
  utils ← mirroring_utils flows sols; m ← max_item utils; Ok m.1.
Definition fm_most_used_mirroring_port_rate (flows : dict Z (FlowDefinition F)) (sols : dict Z (SolutionDefinition F)) : res F :=
  utils ← mirroring_utils flows sols; m ← max_item utils; Ok m.2.
End rates.

Section evaluation.
Context {F : Type} `{PyFloatText F} `{OnosApi} {GN GT : Type} `{NxGraph string GN} `{NxGraph Z GT}.
Variable graph_matcher : GN → GT → option (dict string Z).
Variable json_loads : string → res (list json).
Variable py_eval : string → res (dict Z (dict Z Z)).
Variable np_std : list F → F.
Variable np_arange : F → F → F → list F.
Variable results_repository : ResultsRepository.
Abbreviation Draw := (M (trace F * fsys)).

(** [util_at_time_t[s][d]] of the snapshots that have the link. *)
Definition link_values (net_utilization : list (link_table F)) (s d : string) : list F := utils_over_time net_utilization s d.

Definition pm_read_results (provider_name solution_name trial_name : string) : Draw (PmResults F) :=
  results ← on_world (read_trial_results results_repository (schema_of provider_name solution_name trial_name)
    ["utilization-results.txt"; "topo"; "flows"; "switches"; "solutions"; "ports"]);
  topo ← lift (Dict.getitem results "topo");
  flows ← lift (Dict.getitem results "flows" ≫= λ text, pm_flow_deserialize text);
  sols ← lift (Dict.getitem results "solutions" ≫= λ text, pm_solution_deserialize text);
  switches ← lift (Dict.getitem results "switches" ≫= λ text, pm_switch_deserialize text);
  utilization_json ← lift (Dict.getitem results "utilization-results.txt" ≫= read_json_response json_loads);
  net_utilization ← lift (compute_network_util_over_time utilization_json);
  ports ← lift (Dict.getitem results "ports" ≫= py_eval);
  mret (mkPmResults topo flows switches sols net_utilization ports).

Definition fm_read_results (provider_name solution_type trial_name : string) : Draw (FmResults F) :=
  results ← on_world (read_trial_results results_repository (schema_of provider_name solution_type trial_name)
    ["utilization-results.txt"; "flows"; "switches"; "solutions"; "topo"]);
  topo ← lift (Dict.getitem results "topo");
  flows ← lift (Dict.getitem results "flows" ≫= λ text, flow_deserialize text);
  switches ← lift (Dict.getitem results "switches" ≫= λ text, switch_deserialize text);
  sols ← lift (Dict.getitem results "solutions" ≫= λ text, solution_deserialize text);
  utilization_json ← lift (Dict.getitem results "utilization-results.txt" ≫= read_json_response json_loads);
  net_utilization ← lift (compute_network_util_over_time utilization_json);
  mret (mkFmResults topo flows switches sols net_utilization).

(** The rates of the link from a switch to the collector. *)
Definition mirror_port_rates (topo : string) (switch_id : Z) (net_utilization : list (link_table F)) : res (list F) :=
  id_to_dpid ← get_and_validate_onos_topo graph_matcher topo;
  mirror_port_dpid ← Dict.getitem id_to_dpid switch_id;
  collector_switch_dpid ← get_collector_switch_dpid;
  Ok (link_values net_utilization mirror_port_dpid collector_switch_dpid).

(** One trial of the evaluations: the number of flows, the measured rates of
    the most used mirroring port, and the expected one. *)
Definition pm_trial_utilization (run solution_name trial_name : string) : Draw (Z * list F * F) :=
  r ← pm_read_results run solution_name trial_name;
  most_used_mirroring_port ← lift (pm_most_used_mirroring_port (pr_switches r) (pr_solutions r));
  mirror_port_utils ← lift (mirror_port_rates (pr_topo r) most_used_mirroring_port (pr_net_utilization r));
  theoretical_util ← lift (pm_most_used_mirroring_port_rate (pr_solutions r));
  mret (Z.of_nat (List.length (pr_flows r)), mirror_port_utils, theoretical_util).
Definition fm_trial_utilization (run solution_name trial_name : string) : Draw (Z * list F * F) :=
  r ← fm_read_results run solution_name trial_name;
  most_used_mirroring_port ← lift (fm_most_used_mirroring_port (fr_flows r) (fr_solutions r));
  mirror_port_utils ← lift (mirror_port_rates (fr_topo r) most_used_mirroring_port (fr_net_utilization r));
  theoretical_util ← lift (fm_most_used_mirroring_port_rate (fr_flows r) (fr_solutions r));
  mret (Z.of_nat (List.length (fr_flows r)), mirror_port_utils, theoretical_util).

Definition all_solutions : list string := ["rnd"; "det"; "df"; "greedy"; "optimal"].

(** The runs, solutions and trials of an evaluation, in order. *)
Definition evaluation_trials (run_count : nat) (solution_names : list string) (trial_count : nat) : list (string * string * string) :=
  run ← run_name <$> seq 0 run_count;
  solution_name ← solution_names;
  (λ trial_idx, (run, solution_name, sub_trial_name trial_idx)) <$> seq 0 trial_count.

Definition pm_theoretical_and_actual_utilization : Draw (solution_table (list F) * solution_table (list F)) :=
  foldS (λ '(utilization_data, theoretical_data) '(run, solution_name, trial_name),
    '(flow_count, mirror_port_utils, theoretical_util) ← pm_trial_utilization run solution_name trial_name;
    mret (extend_at utilization_data solution_name flow_count mirror_port_utils,
          extend_at theoretical_data solution_name flow_count [theoretical_util]))
    ([], []) (evaluation_trials 3 all_solutions 5).

(** The variants that keep the runs apart: a later trial with the same
    number of flows replaces an earlier one. *)
Abbreviation run_table A := (dict string (solution_table A)).
Definition utilization_by_run (trial_utilization : string → string → string → Draw (Z * list F * F))
    (run_count : nat) (solution_names : list string) (trial_count : nat) : Draw (run_table (list F) * run_table F) :=
  foldS (λ '(utilization_data, theoretical_data) run,
    '(solution_results, theoretical_solution_results) ← foldS (λ '(solution_results, theoretical) solution_name,
      '(trial_results, theoretical_trial_results) ← foldS (λ '(trial_results, theoretical_trial_results) trial_name,
        '(flow_count, mirror_port_utils, theoretical_util) ← trial_utilization run solution_name trial_name;
        mret (Dict.set trial_results flow_count mirror_port_utils, Dict.set theoretical_trial_results flow_count theoretical_util))
        ([], []) (sub_trial_name <$> seq 0 trial_count);
      mret (Dict.set solution_results solution_name trial_results, Dict.set theoretical solution_name theoretical_trial_results))
      ([], []) solution_names;
    mret (Dict.set utilization_data run solution_results, Dict.set theoretical_data run theoretical_solution_results))
    ([], []) (run_name <$> seq 0 run_count).
Definition pm_utilization_by_run : Draw (run_table (list F) * run_table F) :=
  utilization_by_run pm_trial_utilization 3 all_solutions 5.
Definition fm_utilization_by_run (run_count : nat) (solution_names : list string) (trial_count : nat)
    : Draw (run_table (list F) * run_table F) :=
  utilization_by_run fm_trial_utilization run_count solution_names trial_count.

Definition reduce_to_mean (results_dict : solution_table (list F)) : res (solution_table F) :=
  fold_table (λ mean_dict solution_name flow_count util_list,
    m ← mean util_list; Ok (set_at mean_dict solution_name flow_count m)) [] results_dict.

Definition pm_mean_utilization : Draw (solution_table F * solution_table F) :=
  '(utilization_data, theoretical_data) ← pm_theoretical_and_actual_utilization;
  u ← lift (reduce_to_mean utilization_data);
  t ← lift (reduce_to_mean theoretical_data);
  mret (u, t).

(** [[t[1] for t in sorted(d.items(), key=lambda kvp: kvp[0])]] *)
Definition by_flow_count {A} (d : dict Z A) : list (Z * A) := sorted_by fst d.

Definition compute_actual_std_deviation : Draw (dict string (list F)) :=
  '(utilization_data, _) ← pm_theoretical_and_actual_utilization;
  std_dev_map ← lift (fold_table (λ m solution_name flow_count data_list,
    Ok (set_at m solution_name flow_count (np_std data_list))) [] utilization_data);
  mret (map_values (λ flow_count_to_std_dev, bytes_per_second_to_mbps ∘ snd <$> by_flow_count flow_count_to_std_dev) std_dev_map).

(** ** Plots of port mirroring *)

Definition pm_solution_names : list string := ["det"; "rnd"; "df"; "optimal"].

(** [ind + x] and [ind - x] on an array of integers. *)
Definition shifted (ind : list Z) (x : F) : arg F := floats ((λ i, fadd (f_of_Z i) x) <$> ind).
Definition shifted_back (ind : list Z) (x : F) : arg F := floats ((λ i, fsub (f_of_Z i) x) <$> ind).

(** [[w for w in np.arange((width/2), n*width, width)]] *)
Definition bar_locations (width : F) (n : nat) : list F :=
  np_arange (fquot width (f_of_Z 2)) (fmul (f_of_Z (Z.of_nat n)) width) width.

Definition look_at {A} (l : list A) (i : nat) : Draw A := lift (or_raise IndexError (l !! i)).

Definition use_tex : Draw unit := plt "rc" [AStr "text"] [("usetex", ABool true)] ≫= λ _, plt "rc" [AStr "font"] FONT.
Definition legend_above (ncol : Z) : Draw unit :=
  plt "legend" [] [("loc", AStr "upper center"); ("bbox_to_anchor", ATuple [AFloat (flit 5 10); AFloat LEGEND_HEIGHT]);
                   ("shadow", ABool true); ("ncol", AInt ncol)].
Definition half_of (width : F) (n : nat) : F := fquot (fmul width (f_of_Z (Z.of_nat n))) (f_of_Z 2).
Definition frate_label : string := "Maximum mirroring port rate ($\frac{Mb}{s}$)".

Definition pm_max_mirror_port_utilization_bar_plot : Draw unit :=
  '(utilization_data, _) ← pm_mean_utilization;
  actual_std_deviation ← compute_actual_std_deviation;
  let width := flit 15 100 in
  let ind := seqZ 1 5 in
  _ ← plt "subplots" [] [];
  let labels := SOLUTION_LABELS in
  let locations := bar_locations width (List.length labels) in
  _ ← for_each (enumerate pm_solution_names) (λ '(bar_idx, solution_name),
    let data_tuples := by_flow_count (Dict.get_default [] utilization_data solution_name) in
    yerr_values ← lift (Dict.getitem actual_std_deviation solution_name);
    let ys := bytes_per_second_to_mbps ∘ snd <$> data_tuples in
    x ← look_at locations bar_idx;
    color ← look_at BAR_PLOT_COLORS bar_idx;
    hatch ← look_at BAR_PLOT_TEXTURES bar_idx;
    label ← lift (Dict.getitem labels solution_name);
    invoke (Ax 0) "bar" [shifted ind x; floats ys; AFloat width]
      [("color", color); ("hatch", hatch); ("label", AStr label); ("yerr", floats yerr_values); ("align", AStr "center"); ("ecolor", AStr "black")]);
  _ ← use_tex;
  _ ← plt "xlabel" [AStr "Number of Flows"] AXIS_LABELS;
  _ ← plt "ylabel" [AStr "Maximum switch load (Mbps)"] AXIS_LABELS;
  _ ← plt "xticks" [shifted ind (half_of width (List.length labels)); AList ((λ i, AInt (i * 10)) <$> ind)] [];
  _ ← plt "grid" [] GRID;
  save_figure "spm-compare-optimal.pdf" (Z.of_nat (List.length labels)) [].

Definition pm_theoretical_vs_actual_utilization_bar_plot : Draw unit :=
  '(utilization_data, theoretical_data) ← pm_mean_utilization;
  actual_std_deviation ← compute_actual_std_deviation;
  let width := flit 35 100 in
  let labels := all_solutions in
  for_each labels (λ solution_name,
    let ind := seqZ 1 5 in
    _ ← plt "subplots" [] [];
    let data_tuples := by_flow_count (Dict.get_default [] utilization_data solution_name) in
    yerr_values ← lift (Dict.getitem actual_std_deviation solution_name);
    let ys := bytes_per_second_to_mbps ∘ snd <$> data_tuples in
    _ ← invoke (Ax 0) "bar" [shifted_back ind (fquot width (f_of_Z 2)); floats ys; AFloat width]
      [("color", AStr "green"); ("hatch", AStr "\"); ("tick_label", AList (AInt ∘ fst <$> data_tuples)); ("label", AStr "Measured");
       ("yerr", floats yerr_values); ("ecolor", AStr "black")];
    let theoretical_tuples := by_flow_count (Dict.get_default [] theoretical_data solution_name) in
    let ys := (λ t, fmul t.2 rate_factor) <$> theoretical_tuples in
    _ ← invoke (Ax 0) "bar" [shifted ind (fquot width (f_of_Z 2)); floats ys; AFloat width]
      [("color", AStr "skyblue"); ("hatch", AStr "."); ("tick_label", AList (AInt ∘ fst <$> theoretical_tuples)); ("label", AStr "Expected")];
    _ ← use_tex;
    _ ← plt "xlabel" [AStr "Number of Flows"] [];
    _ ← plt "ylabel" [AStr frate_label] [];
    _ ← plt "grid" [] [];
    _ ← plt "legend" [] (("ncol", AInt (Z.of_nat (List.length labels))) :: LEGEND);
    save_figure ("plot-two-" +:+ solution_name +:+ ".pdf") 1 []).

(** The differences between the expected and the measured rate, without the
    first measurement of every trial. *)
Definition rate_differences (utilization_data : run_table (list F)) (theoretical_data : run_table F) : res (solution_table (list F)) :=
  foldM (λ differences '(run, solution_name_to_trial_name),
    foldM (λ differences '(solution_name, trial_name_to_data),
      let differences := Dict.set differences solution_name (Dict.get_default [] differences solution_name) in
      foldM (λ differences '(flow_count, utilization),
        of_run ← Dict.getitem theoretical_data run;
        of_solution ← Dict.getitem of_run solution_name;
        theoretical ← Dict.getitem of_solution flow_count;
        let theoretical_usage := fmul theoretical rate_factor in
        m ← mean (tail utilization);
        let mean_actual_usage := bytes_per_second_to_mbps m in
        Ok (extend_at differences solution_name flow_count [fabs (fsub theoretical_usage mean_actual_usage)]))
        differences trial_name_to_data) differences solution_name_to_trial_name) [] utilization_data.

(** The bars are in the order of the numbers of flows, the deviations in the
    order of their own size. *)
Definition pm_theoretical_vs_actual_compact_bar_plot : Draw unit :=
  '(utilization_data, theoretical_data) ← pm_utilization_by_run;
  let width := flit 15 100 in
  let ind := seqZ 1 5 in
  _ ← plt "subplots" [] [];
  let labels := SOLUTION_LABELS in
  let locations := bar_locations width (List.length labels) in
  differences ← lift (rate_differences utilization_data theoretical_data);
  avg_diff ← lift (fold_table (λ d solution_name flow_count diff_data, m ← mean diff_data; Ok (set_at d solution_name flow_count m)) [] differences);
  std_dev ← lift (fold_table (λ d solution_name flow_count diff_data, Ok (set_at d solution_name flow_count (np_std diff_data))) [] differences);
  _ ← for_each (enumerate (Dict.keys labels)) (λ '(bar_idx, solution_name),
    flow_count_to_avg_diff ← lift (Dict.getitem avg_diff solution_name);
    let ys := snd <$> by_flow_count flow_count_to_avg_diff in
    flow_count_to_std_dev ← lift (Dict.getitem std_dev solution_name);
    let yerr := snd <$> sorted_with (λ a b : Z * F, flt a.2 b.2) flow_count_to_std_dev in
    x ← look_at locations bar_idx;
    color ← look_at BAR_PLOT_COLORS bar_idx;
    hatch ← look_at BAR_PLOT_TEXTURES bar_idx;
    label ← lift (Dict.getitem labels solution_name);
    invoke (Ax 0) "bar" [shifted ind x; floats ys; AFloat width]
      [("color", color); ("hatch", hatch); ("label", AStr label); ("align", AStr "center"); ("ecolor", AStr "black"); ("yerr", floats yerr)]);
  _ ← use_tex;
  _ ← plt "xlabel" [AStr "Number of Flows"] [];
  _ ← plt "ylabel" [AStr "Maximum switch load (Mbps)"] [];
  _ ← plt "xticks" [shifted ind (half_of width (List.length labels)); AList ((λ i, AInt (i * 10)) <$> ind)] [];
  _ ← plt "grid" [] [];
  _ ← legend_above (Z.of_nat (List.length labels));
  save_figure "spm-theoryvspractice.pdf" 1 [].

(** The links to the collector in the first snapshot. *)
Definition collector_links (net_utilization : list (link_table F)) (collector_switch_dpid : string) : res (list (string * string)) :=
  first ← or_raise IndexError (head net_utilization);
  Ok (filter (λ sd, sd.2 = collector_switch_dpid) (link_ids first)).

(** The values of each of these links with the switch it starts from. *)
Definition collector_link_values (topo : string) (net_utilization : list (link_table F)) : res (list (res Z * list F)) :=
  _ ← or_raise IndexError (head net_utilization);
  collector_switch_dpid ← get_collector_switch_dpid;
  id_to_dpid ← get_and_validate_onos_topo graph_matcher topo;
  links ← collector_links net_utilization collector_switch_dpid;
  Ok ((λ sd : string * string, (Dict.getitem (dpid_to_id id_to_dpid) sd.1, link_values net_utilization sd.1 sd.2)) <$> (links : list (string * string))).

(** The mean rate, its deviation and the switch of every link. *)
Definition collector_link_rates (topo : string) (net_utilization : list (link_table F)) : res (list (F * F * Z)) :=
  values ← collector_link_values topo net_utilization;
  mapR (λ '(switch, utils),
    m ← mean utils;
    id ← switch;
    Ok (bytes_per_second_to_mbps m, bytes_per_second_to_mbps (np_std utils), id)) values.

Definition pm_mirroring_port_utilization_bar_plot : Draw unit :=
  for_each all_solutions (λ solution_name,
    r ← pm_read_results (run_name 0) solution_name (sub_trial_name 4);
    rates ← lift (collector_link_rates (pr_topo r) (pr_net_utilization r));
    let ind := seqZ 1 11 in
    let width := flit 35 100 in
    _ ← plt "subplots" [] [];
    let in_order := sorted_by (λ t : F * F * Z, t.2) rates in
    _ ← invoke (Ax 0) "set_xticks" [shifted ind (fquot width (f_of_Z 2))] [];
    _ ← invoke (Ax 0) "set_xticklabels" [AList (AInt <$> seqZ 1 11)] [];
    _ ← invoke (Ax 0) "bar" [shifted_back ind (fquot width (f_of_Z 2)); floats ((λ t : F * F * Z, t.1.1) <$> in_order); AFloat width]
      [("label", AStr "Measured"); ("color", AStr "skyblue"); ("hatch", AStr "."); ("yerr", floats ((λ t : F * F * Z, t.1.2) <$> in_order)); ("ecolor", AStr "black")];
    mirroring_rates ← lift (compute_theoretical_mirroring_rates_for_switches (pr_switches r) (pr_solutions r));
    let ys := (λ switch_id, fmul (Dict.get_default fzero mirroring_rates switch_id) rate_factor) <$> Dict.keys (pr_switches r) in
    _ ← invoke (Ax 0) "bar" [shifted ind (fquot width (f_of_Z 2)); floats ys; AFloat width]
      [("color", AStr "green"); ("hatch", AStr "\"); ("label", AStr "Expected")];
    _ ← legend_above 2;
    _ ← use_tex;
    _ ← plt "xlabel" [AStr "Switch ID"] [];
    _ ← plt "ylabel" [AStr "Mean Mirroring Port Rate ($\frac{Mb}{s}$)"] [];
    _ ← plt "grid" [] [];
    _ ← save_figure ("plot-three-" +:+ solution_name +:+ ".pdf") 1 [];
    plt "clf" [] []).

Definition generate_port_mirroring_port_utilization_cdf : Draw unit :=
  let legend_labels := ["$\epsilon$-LPR"; "LPR"; "DuFi"; "Greedy"; "Optimal"] in
  let markers := ["^"; "*"; "^"; "o"; "x"] in
  let colors := ["red"; "green"; "blue"; "orange"; "purple"] in
  _ ← for_each (enumerate all_solutions) (λ '(solution_idx, solution_name),
    r ← pm_read_results (run_name 0) solution_name (sub_trial_name 4);
    rates ← lift (collector_link_rates (pr_topo r) (pr_net_utilization r));
    let '(xs, ys) := cdf_points (sorted_floats ((λ t : F * F * Z, t.1.1) <$> rates)) in
    label ← look_at legend_labels solution_idx;
    marker ← look_at markers solution_idx;
    color ← look_at colors solution_idx;
    _ ← plt "plot" [floats xs; floats ys] [("label", AStr label); ("marker", AStr marker); ("color", AStr color)];
    _ ← legend_above (Z.of_nat (List.length rates));
    _ ← use_tex;
    _ ← plt "grid" [] [];
    _ ← plt "xlabel" [AStr "Mirroring Port Rate $\frac{Mb}{s}$"] [];
    plt "ylabel" [AStr "$\mathbb{P}\{x < \mathcal{X}\}$"] []);
  save_figure "pm-plot-three-cdf.pdf" 1 [].

(** There are five solutions and four colours. *)
Definition generate_theoretical_util_graph : Draw unit :=
  '(utilization_data, theoretical_data) ← pm_mean_utilization;
  let width := flit 2 10 in
  let ind := seqZ 1 5 in
  _ ← plt "subplots" [] [];
  let labels := ["det"; "df"; "greedy"; "optimal"; "rnd"] in
  let locations := bar_locations width (List.length labels) in
  let colors := ["green"; "skyblue"; "purple"; "yellow"] in
  let hatch := ["\"; "//"; "\"; "//"] in
  _ ← for_each (enumerate labels) (λ '(bar_idx, solution_name),
    let theoretical_tuples := by_flow_count (Dict.get_default [] theoretical_data solution_name) in
    let ys := (λ t, fmul t.2 rate_factor) <$> theoretical_tuples in
    x ← look_at locations bar_idx;
    color ← look_at colors bar_idx;
    h ← look_at hatch bar_idx;
    label ← look_at labels bar_idx;
    invoke (Ax 0) "bar" [shifted ind x; floats ys; AFloat width] [("color", AStr color); ("hatch", AStr h); ("label", AStr label)]);
  _ ← use_tex;
  _ ← plt "xlabel" [AStr "Number of Flows"] [];
  _ ← plt "ylabel" [AStr frate_label] [];
  _ ← plt "grid" [] [];
  _ ← plt "xticks" [shifted ind (flit 4 10); AList ((λ i, AInt (i * 10)) <$> ind)] [];
  _ ← legend_above (Z.of_nat (List.length labels));
  save_figure "pm-plot-four.pdf" 1 [].

(** The differences of every two solutions; the function keeps them to
    itself. *)
Definition generate_mirror_port_rate_difference_file : Draw (dict (string * string) (dict Z F)) :=
  '(utilization_data, theoretical_data) ← pm_mean_utilization;
  let labels := ["det"; "df"; "greedy"; "optimal"; "rnd"] in
  lift (foldM (λ difference_map '(solution_type_a, solution_type_b),
    foldM (λ difference_map flow_count,
      a ← Dict.getitem (Dict.get_default [] utilization_data solution_type_a) flow_count;
      b ← Dict.getitem (Dict.get_default [] utilization_data solution_type_b) flow_count;
      let difference := fsub (bytes_per_second_to_mbps a) (bytes_per_second_to_mbps b) in
      let key := (solution_type_a, solution_type_b) in
      Ok (Dict.set difference_map key (Dict.set (Dict.get_default [] difference_map key) flow_count difference)))
      difference_map [10; 20; 30; 40; 50]%Z) [] (a ← labels; pair a <$> labels)).

(** The mean rates of the switches in the fifth trial of every run, without
    the first measurement. [read] gives the values of the links. *)
Definition switch_mean_utils (read : string → string → string → Draw (list (res Z * list F))) (solution_labels : list string)
    : Draw (solution_table (list F)) :=
  foldS (λ mean_utils '(run, solution_name),
    values ← read run solution_name (sub_trial_name 4);
    lift (foldM (λ mean_utils '(switch, link_utils_over_time),
      source_switch_id ← switch;
      m ← mean (tail link_utils_over_time);
      Ok (extend_at mean_utils solution_name source_switch_id [bytes_per_second_to_mbps m])) mean_utils values))
    [] (run ← run_name <$> seq 0 3; pair run <$> solution_labels).
Definition pm_switch_values (run solution_name trial_name : string) : Draw (list (res Z * list F)) :=
  r ← pm_read_results run solution_name trial_name; lift (collector_link_values (pr_topo r) (pr_net_utilization r)).
Definition fm_switch_values (run solution_name trial_name : string) : Draw (list (res Z * list F)) :=
  r ← fm_read_results run solution_name trial_name; lift (collector_link_values (fr_topo r) (fr_net_utilization r)).

(** The bars of one solution: means and deviations by switch. *)
Definition plot_switch_bars (ind : list Z) (width : F) (locations : list F) (labels : dict string string)
    (bar_idx : nat) (solution_name : string) (switch_id_to_util_list : dict Z (list F)) : Draw unit :=
  data_tuples ← lift (mapR (λ '(switch_id, util_list), m ← mean util_list; Ok (switch_id, m)) switch_id_to_util_list);
  let ys := snd <$> sorted_by fst data_tuples in
  let y_err := snd <$> sorted_by fst ((λ '(switch_id, util_list), (switch_id, np_std util_list)) <$> switch_id_to_util_list) in
  x ← look_at locations bar_idx;
  color ← look_at BAR_PLOT_COLORS bar_idx;
  hatch ← look_at BAR_PLOT_TEXTURES bar_idx;
  label ← lift (Dict.getitem labels solution_name);
  invoke (Ax 0) "bar" [shifted ind x; floats ys; AFloat width]
    [("color", color); ("hatch", hatch); ("label", AStr label); ("align", AStr "center"); ("ecolor", AStr "black"); ("yerr", floats y_err)].

Definition pm_port_utilization_compact_bar_plot : Draw unit :=
  let width := flit 15 100 in
  let locations := bar_locations width (List.length pm_solution_names) in
  let ind := seqZ 0 11 in
  _ ← plt "subplots" [] [];
  mean_utils ← switch_mean_utils pm_switch_values pm_solution_names;
  _ ← for_each (enumerate pm_solution_names) (λ '(bar_idx, solution_name),
    plot_switch_bars ind width locations SOLUTION_LABELS bar_idx solution_name (Dict.get_default [] mean_utils solution_name));
  _ ← use_tex;
  _ ← plt "xlabel" [AStr "Switch ID"] AXIS_LABELS;
  _ ← plt "ylabel" [AStr "Switch load (Mbps)"] AXIS_LABELS;
  _ ← plt "xticks" [shifted ind (half_of width (List.length pm_solution_names)); AList ((λ i, AInt (i + 1)) <$> ind)] [];
  _ ← plt "grid" [] [];
  _ ← plt "xlim" [AInt 0; AFloat (fadd (f_of_Z 10) (fmul width (f_of_Z (Z.of_nat (List.length pm_solution_names)))))] [];
  save_figure "spm-plot-three-cdf.pdf" (Z.of_nat (List.length pm_solution_names)) [].

(** The means of the switches by solution, and the box plot of them. *)
Definition box_plot_lists (mean_util_lists : solution_table (list F)) : res (dict string (list F)) :=
  foldM (λ lists '(solution_type, switch_id_to_util_list),
    l ← mapR mean (Dict.values switch_id_to_util_list); Ok (Dict.set lists solution_type l)) [] mean_util_lists.

Definition switch_box_plot (lists : dict string (list F)) (names : list string) (labels : dict string string) (box_width : F) (figure : string) : Draw unit :=
  data ← lift (mapR (Dict.getitem lists) names);
  box_labels ← lift (mapR (Dict.getitem labels) names);
  _ ← plt "boxplot" [AList (floats <$> data)]
        [("labels", strs box_labels); ("patch_artist", ABool true); ("widths", floats ((λ _, box_width) <$> names))];
  _ ← for_each ["boxes"; "whiskers"; "fliers"; "means"; "medians"; "caps"] (λ element, plt "setp" [AStr element] [("color", AStr "black")]);
  _ ← for_each (seq 0 (List.length names)) (λ idx,
    color ← look_at BAR_PLOT_COLORS idx;
    hatch ← look_at BAR_PLOT_TEXTURES idx;
    invoke (Made "patch") "set" [] [("facecolor", color); ("hatch", hatch)]);
  _ ← use_tex;
  _ ← plt "xlabel" [AStr "Algorithm"] AXIS_LABELS;
  _ ← plt "ylabel" [AStr "Switch load (Mbps)"] AXIS_LABELS;
  _ ← plt "grid" [] GRID;
  save_figure figure 1 [].

Definition pm_mirroring_port_utilization_box_plot : Draw unit :=
  _ ← plt "subplots" [] [];
  mean_util_lists ← switch_mean_utils pm_switch_values (Dict.keys SOLUTION_LABELS);
  lists ← lift (box_plot_lists mean_util_lists);
  switch_box_plot lists pm_solution_names SOLUTION_LABELS BOX_WIDTH "spm-boxplot.pdf".

(** ** Plots of flow mirroring *)

Definition fm_solution_labels : dict string string := [("approx", "BiSec"); ("optimal", "Optimal")].
Definition fm_solution_names : list string := ["approx"; "optimal"].

(** [for solution_name in solution_name]: the loop variable is read before
    it is set. *)
Definition fm_theoretical_and_actual_utilization (run_count : nat) (solution_names : list string) (trial_count : nat)
    : Draw (solution_table (list F) * solution_table (list F)) :=
  match run_count with 0 => mret ([], []) | S _ => lift (Raise NameError) end.
Definition fm_mean_utilization (run_count : nat) (solution_names : list string) (trial_count : nat)
    : Draw (solution_table F * solution_table F) :=
  '(utilization_data, theoretical_data) ← fm_theoretical_and_actual_utilization run_count solution_names trial_count;
  u ← lift (reduce_to_mean utilization_data);
  t ← lift (reduce_to_mean theoretical_data);
  mret (u, t).

(** The mean rate of the most used port per run, by number of flows. *)
Definition fm_run_means (utilization_data : run_table (list F)) : res (solution_table (list F)) :=
  foldM (λ mean_util_lists '(run, solution_name_to_flow_count),
    fold_table (λ lists solution_name flow_count util_list,
      m ← mean (tail util_list);
      Ok (extend_at lists solution_name flow_count [bytes_per_second_to_mbps m])) mean_util_lists solution_name_to_flow_count)
    [] utilization_data.

Definition fm_max_mirror_port_utilization_bar_plot : Draw unit :=
  '(utilization_data, _) ← fm_utilization_by_run 3 fm_solution_names 5;
  mean_util_lists ← lift (fm_run_means utilization_data);
  mean_utils ← lift (fold_table (λ d solution_name flow_count util_list, m ← mean util_list; Ok (set_at d solution_name flow_count m)) [] mean_util_lists);
  let std_deviations := map_values (map_values np_std) mean_util_lists in
  let width := flit 35 100 in
  let ind := seqZ 1 5 in
  _ ← plt "subplots" [] [];
  let labels := fm_solution_labels in
  let locations := bar_locations width (List.length labels) in
  _ ← for_each (enumerate mean_utils) (λ '(bar_idx, (solution_name, flow_count_to_mean_util)),
    let data_tuples := by_flow_count flow_count_to_mean_util in
    let yerr_tuples := by_flow_count (Dict.get_default [] std_deviations solution_name) in
    x ← look_at locations bar_idx;
    color ← look_at BAR_PLOT_COLORS bar_idx;
    hatch ← look_at BAR_PLOT_TEXTURES bar_idx;
    label ← lift (Dict.getitem labels solution_name);
    invoke (Ax 0) "bar" [shifted ind x; floats (snd <$> data_tuples); AFloat width]
      [("color", color); ("hatch", hatch); ("label", AStr label); ("yerr", floats (snd <$> yerr_tuples)); ("align", AStr "center"); ("ecolor", AStr "black")]);
  _ ← use_tex;
  _ ← plt "grid" [] GRID;
  _ ← plt "xticks" [shifted ind (half_of width (List.length labels)); AList ((λ i, AInt (i * 10)) <$> ind)] [];
  _ ← plt "xlabel" [AStr "Number of Flows"] AXIS_LABELS;
  _ ← plt "ylabel" [AStr "Maximum switch load (Mbps)"] AXIS_LABELS;
  save_figure "sfm-objective.pdf" 2 [].

Definition fm_port_utilization_compact_bar_plot : Draw unit :=
  let width := flit 25 100 in
  let ind := seqZ 0 11 in
  _ ← plt "subplots" [] [];
  let labels := fm_solution_labels in
  let locations := bar_locations width (List.length labels) in
  mean_utils ← switch_mean_utils fm_switch_values (Dict.keys labels);
  _ ← for_each (enumerate mean_utils) (λ '(bar_idx, (solution_name, switch_id_to_util_list)),
    plot_switch_bars ind width locations labels bar_idx solution_name switch_id_to_util_list);
  _ ← use_tex;
  _ ← plt "xlabel" [AStr "Switch ID"] AXIS_LABELS;
  _ ← plt "ylabel" [AStr "Switch load (Mbps)"] AXIS_LABELS;
  _ ← plt "xticks" [shifted ind (half_of width (List.length labels)); AList ((λ i, AInt (i + 1)) <$> ind)] [];
  _ ← plt "grid" [] [];
  _ ← plt "xlim" [AInt 0; AFloat (fadd (f_of_Z 10) (fmul width (f_of_Z (Z.of_nat (List.length labels)))))] [];
  save_figure "sfm-plotthree.pdf" (Z.of_nat (List.length labels)) [].

(** For every link the most used port is computed, only to print its load;
    it raises where that computation does. *)
Definition fm_switch_values_checked (run solution_name trial_name : string) : Draw (list (res Z * list F)) :=
  r ← fm_read_results run solution_name trial_name;
  values ← lift (collector_link_values (fr_topo r) (fr_net_utilization r));
  mret ((λ sl : res Z * list F,
    (source_switch_id ← sl.1; _ ← fm_most_used_mirroring_port (fr_flows r) (fr_solutions r); Ok source_switch_id, sl.2)) <$> values).

Definition fm_mirroring_port_utilization_box_plot : Draw unit :=
  _ ← plt "subplots" [] [];
  mean_util_lists ← switch_mean_utils fm_switch_values_checked (Dict.keys fm_solution_labels);
  lists ← lift (box_plot_lists mean_util_lists);
  switch_box_plot lists fm_solution_names fm_solution_labels (flit 5 10) "sfm-boxplot.pdf".
End evaluation.

(** * Theorems

    The evaluation of the mirroring experiments picks the switch with the
    largest load; one of its plots is never drawn. *)

From Stdlib Require Import QArith Qcanon.
Close Scope string_scope.

Close Scope Q_scope.
Close Scope Qc_scope.

(** * The most used port *)

Lemma max_item_spec (d : dict Z Qc) : d ≠ [] → ∃ m, max_item d = Ok m ∧ m ∈ d ∧ Forall (λ kv : Z * Qc, kv.2 <= m.2)%Qc d.
Proof.
  intros Hne. assert (∃ m, max_with (λ a b : Z * Qc, flt a.2 b.2) d = Ok m ∧ m ∈ d ∧ Forall (λ y : Z * Qc, (λ a b : Z * Qc, a.2 <= b.2)%Qc y m) d) as Hm.
  { apply max_with_spec.
    - intros x y. apply flt_exact_false.
    - intros x y E%flt_exact_true. by apply Qclt_le_weak.
    - intros x y z Hxy Hyz. by eapply Qcle_trans.
    - intros x. apply Qcle_refl.
    - done. }
  destruct Hm as (m & Hm & Hin & Hall). exists m. by split_and!.
Qed.

(** The load of a switch: the rates of the flows that are mirrored there. *)
Definition mirrored (flows : dict Z (FlowDefinition Qc)) (sols : dict Z (SolutionDefinition Qc)) : list (Z * Qc) :=
  omap (λ flow, (λ s, (sol_mirror_switch_id s, fd_traffic_rate flow)) <$> Dict.get sols (fd_flow_id flow)) (Dict.values flows).
Definition load (flows : dict Z (FlowDefinition Qc)) (sols : dict Z (SolutionDefinition Qc)) (switch_id : Z) : Qc :=
  fsum (amounts switch_id (mirrored flows sols)).

Lemma mirroring_utils_spec (flows : dict Z (FlowDefinition Qc)) (sols : dict Z (SolutionDefinition Qc)) :
  (∀ flow, flow ∈ Dict.values flows → is_Some (Dict.get sols (fd_flow_id flow))) →
  mirroring_utils flows sols = Ok (foldl (λ d kx, add_default d kx.1 kx.2) [] (mirrored flows sols)).
Proof.
  unfold mirroring_utils, mirrored. generalize (@nil (Z * Qc)) as acc. induction (Dict.values flows) as [|f l IH]; intros acc Hall; [done|].
  destruct (Hall f) as [s Hs]; [set_solver|]. cbn [foldM]. rewrite (proj2 (Dict.getitem_Ok _ _ _) Hs). cbn [mbind res_bind].
  rewrite IH by (intros; apply Hall; set_solver). cbn [omap list_omap]. by rewrite Hs.
Qed.

(** C29: the switch whose mirroring port the flow mirroring plots measure
    is the one with the largest load, and the rate they expect of it is that
    load: the sum of the rates of the flows that the solution mirrors at the
    switch (in exact arithmetic). *)
Theorem most_used_mirroring_port_is_maximal (flows : dict Z (FlowDefinition Qc)) (sols : dict Z (SolutionDefinition Qc)) :
  flows ≠ [] → (∀ flow, flow ∈ Dict.values flows → is_Some (Dict.get sols (fd_flow_id flow))) →
  ∃ switch_id, fm_most_used_mirroring_port flows sols = Ok switch_id ∧
    fm_most_used_mirroring_port_rate flows sols = Ok (load flows sols switch_id) ∧
    switch_id ∈ (mirrored flows sols).*1 ∧
    ∀ other, other ∈ (mirrored flows sols).*1 → (load flows sols other <= load flows sols switch_id)%Qc.
Proof.
  intros Hne Hall. pose proof (mirroring_utils_spec flows sols Hall) as Hutils.
  set (d := foldl (λ d kx, add_default d kx.1 kx.2) [] (mirrored flows sols)) in *.
  assert (Dict.wf d) as Hwf.
  { unfold d. assert (∀ l (d : dict Z Qc), Dict.wf d → Dict.wf (foldl (λ d kx, add_default d kx.1 kx.2) d l)) as Hw.
    { induction l as [|kx l IH]; intros d0 H0; [done|]. cbn. apply IH. by apply Dict.wf_set. }
    apply Hw. apply NoDup_nil_2. }
  assert (∀ k, k ∈ Dict.keys d ↔ k ∈ (mirrored flows sols).*1) as Hkeys.
  { intros k. unfold d. rewrite add_default_keys. set_solver. }
  assert (∀ k, k ∈ Dict.keys d → Dict.get d k = Some (load flows sols k)) as Hget.
  { intros k Hk. pose proof (add_default_get (mirrored flows sols) [] k) as Hg. fold d in Hg.
    apply Dict.elem_of_keys in Hk as [v Hv]. unfold Dict.get_default in Hg. rewrite Hv in Hg. cbn in Hg. rewrite Hv. f_equal. rewrite Hg. unfold load. apply exact_add_0_l || done. }
  destruct (max_item_spec d) as ([k v] & Hmax & Hin & Hle).
  { intros Hd. destruct flows as [|[i f] rest]; [done|]. destruct (Hall f) as [s Hs]; [set_solver|].
    assert (sol_mirror_switch_id s ∈ Dict.keys d) as Hk; [|by rewrite Hd in Hk; apply not_elem_of_nil in Hk].
    apply Hkeys. unfold mirrored. cbn. rewrite Hs. cbn. set_solver. }
  assert (k ∈ Dict.keys d) as Hk by (apply list_elem_of_fmap; by exists (k, v)).
  assert (v = load flows sols k) as ->.
  { apply (Dict.elem_of_get _ _ _ Hwf) in Hin. rewrite (Hget k Hk) in Hin. by injection Hin. }
  exists k. unfold fm_most_used_mirroring_port, fm_most_used_mirroring_port_rate. rewrite Hutils. cbn [mbind res_bind]. rewrite Hmax.
  split_and!; [done|done|by apply Hkeys|]. intros other Ho%Hkeys. rewrite Forall_forall in Hle.
  apply (Hle (other, load flows sols other)). by apply Dict.get_elem_of, Hget.
Qed.

Lemma most_used_mirroring_port_is_maximal_witness :
  let flow (i r : Z) := (i, mkFlowDefinition i (f_of_Z (F:=Qc) r) [1; 2]%Z) in
  let sol (i s : Z) := (i, mkSolutionDefinition i s (f_of_Z (F:=Qc) 0)) in
  let flows := [flow 1 3; flow 2 4; flow 3 5]%Z in
  let sols := [sol 1 7; sol 2 8; sol 3 7]%Z in
  flows ≠ [] ∧ ∃ switch_id, fm_most_used_mirroring_port flows sols = Ok switch_id ∧
    fm_most_used_mirroring_port_rate flows sols = Ok (load flows sols switch_id) ∧ switch_id = 7%Z.
Proof.
  intros flow sol flows sols. assert (flows ≠ []) as Hne by done. split; [exact Hne|].
  destruct (most_used_mirroring_port_is_maximal flows sols Hne) as (s & Hs & Hr & _ & _).
  { intros f Hf. cbn in Hf. repeat (apply elem_of_cons in Hf as [->|Hf]; [cbn; by eexists|]). by apply not_elem_of_nil in Hf. }
  exists s. split; [exact Hs|]. split; [exact Hr|]. vm_compute in Hs. by injection Hs as <-.
Defined.

(** * A plot that is never drawn *)

Lemma bindS_inv {S A B} (m : M S A) (f : A → M S B) s r : (m ≫= f) s = r → is_ok r.1 = true →
  ∃ a s', m s = (Ok a, s') ∧ f a s' = r.
Proof.
  unfold mbind, M_bind. destruct (m s) as [[a|e] s'] eqn:E; [intros <- _; by exists a, s'|]. by intros <-.
Qed.

Section never.
Context {F : Type} `{PyFloatText F} `{OnosApi} {GN GT : Type} `{NxGraph string GN} `{NxGraph Z GT}.

(** [generate_theoretical_util_graph] has five solutions and four colours:
    whatever the results are, it raises before it saves the figure. *)
Lemma theoretical_util_graph_never_saved graph_matcher json_loads py_eval np_arange repository s :
  is_ok (generate_theoretical_util_graph (F:=F) (GN:=GN) (GT:=GT) graph_matcher json_loads py_eval np_arange repository s).1 = false.
Proof.
  destruct (is_ok _) eqn:E; [|done]. exfalso. unfold generate_theoretical_util_graph in E.
  destruct (bindS_inv _ _ _ _ eq_refl E) as ([u t] & s1 & _ & E1). rewrite <-E1 in E. clear E1.
  destruct (bindS_inv _ _ _ _ eq_refl E) as ([] & s2 & _ & E1). rewrite <-E1 in E. clear E1.
  destruct (bindS_inv _ _ _ _ eq_refl E) as ([] & s3 & E2 & _). clear E.
  change (enumerate ["det"; "df"; "greedy"; "optimal"; "rnd"])%string
    with [(0, "det"); (1, "df"); (2, "greedy"); (3, "optimal"); (4, "rnd")]%string in E2. cbn [for_each] in E2.
  do 4 (apply bindS_Ok in E2 as ([] & ? & _ & E2)). apply bindS_Ok in E2 as ([] & ? & E2 & _).
  apply bindS_Ok in E2 as (loc & ? & _ & E2). apply bindS_Ok in E2 as (c & ? & E2 & _). by apply lift_Ok in E2 as [E2 _].
Qed.
End never.
