(* ===== verification/MpPlots.v ===== *)
(** The plots of the multipath routing experiments
    (data_visualization/mp_routing.py) and of the running times
    (data_visualization/simulations.py).

    The positions of the ticks that matplotlib chose are a function of the
    calls so far; numpy, scipy and [eval] are parameters. *)

From S2P Require Import Prelude PyDict PyFloat PyStr PyText Json Accum Groups StatMonitor TopoMapper.
From S2P Require Import TrialStore MpTrial TrafficGen CoreTaps MpRouting FlowSimulations Figures NetUtil Captures PathHoppingPlots.
Local Open Scope string_scope.

Definition TRIAL_TYPES : list string := ["average"; "percentile"; "link-embedding"].
Definition LABELS : list string := ["Average"; "$95$-Percentile"; "epVLE"].
Definition LABEL_NAMES : list string := trial_name_font <$> LABELS.
Definition SEED_NUMBERS : list Z := [830656277; 3654904804; 1736873850]%Z.

(** The two orders of an edge: [sorted([u, v])]. *)
Definition sorted_edge (u v : Z) : Z * Z := sorted_pair (u, v).

Section plots.
Context {F : Type} `{PyFloatText F}.
Abbreviation Draw := (M (trace F * fsys)).
Variable results_repository : ResultsRepository.
Variable json_list : string → res (list json).
Variable json_object : string → res json.
Variable loads_vle : string → res (vle_dict F).
Variables np_mean np_std : list F → F.
(** The first result of [plt.xticks()] and [plt.yticks()]. *)
Variable tick_positions : string → trace F → list F.

Definition ticks (which : string) : Draw (list F) := gets (λ s, tick_positions which s.1).

(** [save_figure] of this module *)
Definition mp_save_figure (figure_name : string) : Draw unit := plt "savefig" [AStr ("/home/cpsc-net-user/" +:+ figure_name)] [].

(** The mean rate of each link of the first snapshot. *)
Definition mean_utils (scale : F → F) (link_utilization_data : list (link_table F)) : res (dict link_key F) :=
  first ← or_raise IndexError (head link_utilization_data);
  foldM (λ utils '(s, d),
    m ← mean (utils_over_time link_utilization_data s d);
    Ok (Dict.set utils (s, d) (scale m))) [] (link_ids first).

(** [(x * 8) / 10**6] *)
Definition to_mbps (x : F) : F := fquot (fmul x (f_of_Z 8)) (f_of_Z (10 ^ 6)).

Definition graph_link_utilization (link_utilization_data : list (link_table F)) : Draw unit :=
  utils ← lift (mean_utils to_mbps link_utilization_data);
  let ys := Dict.values utils in
  _ ← lift (mean ys);
  _ ← plt "bar" [AList (AInt ∘ Z.of_nat <$> seq 0 (List.length ys)); floats ys] [];
  _ ← mp_save_figure "link-util.pdf";
  plt "clf" [] [].

(** The name of a trial is a string or a number. *)
Definition mp_schema (trial_type : string) (seed_number : string + Z) : dict string string :=
  match seed_number with
  | inl s => [("trial-name", s); ("trial-type", trial_type); ("seed-number", s)]
  | inr z => [("trial-type", trial_type); ("seed-number", str_of_Z z)]
  end.

(** A number is not a component of a path: it raises when the schema of the
    repository has the name. *)
Definition check_trial_name (seed_number : string + Z) : res unit :=
  match seed_number with
  | inl _ => Ok tt
  | inr _ => if list_mem "trial-name" (str_split slash (schema results_repository)) then Raise TypeError else Ok tt
  end.

Definition mp_read_results (trial_type : string) (seed_number : string + Z) : Draw (list (list json) * VleTrial F * json) :=
  _ ← lift (check_trial_name seed_number);
  results ← on_world (read_trial_results results_repository (mp_schema trial_type seed_number)
    ["utilization-results.txt"; "vle-trial.json"; "end-host-results.json"]);
  snapshots ← lift (Dict.getitem results "utilization-results.txt" ≫= json_list);
  utilization_results ← lift (mapR utilization_stats snapshots);
  the_vle_trial ← lift (Dict.getitem results "vle-trial.json" ≫= vle_from_json loads_vle);
  end_host_results ← lift (Dict.getitem results "end-host-results.json" ≫= json_object);
  mret (utilization_results, the_vle_trial, end_host_results).

Definition generate_link_utilization_bar_plot (trial_type : string) (trial_name : string) : Draw unit :=
  '(utilization_results, the_vle_trial, end_host_results) ← mp_read_results trial_type (inl trial_name);
  link_utilization_data ← lift (mp_compute_network_util_over_time utilization_results);
  graph_link_utilization link_utilization_data.

(** The losses of the flows, by source and destination. *)
Definition packet_loss_rates (end_host_results : json) : res (dict (Z * Z) (list F)) :=
  sources ← jitems end_host_results;
  foldM (λ rates '(source_host, counts_by_destination),
    destinations ← jitems counts_by_destination;
    foldM (λ rates '(destination_host, packet_counts_list),
      counts ← jlist packet_counts_list;
      foldM (λ rates packet_counts,
        receiver_count ← jkey packet_counts "receiver-count" ≫= jint;
        sender_count ← jkey packet_counts "sender-count" ≫= jint;
        source_id ← int_of_str source_host;
        destination_id ← int_of_str destination_host;
        rate ← (if bool_decide (sender_count = 0%Z) then Raise ZeroDivisionError
                else Ok (fquot (f_of_Z (Z.abs (sender_count - receiver_count))) (f_of_Z sender_count)));
        Ok (append_to rates (source_id, destination_id) rate)) rates counts) rates destinations) [] sources.
Definition all_loss_rates (end_host_results : json) : res (list F) :=
  rates ← packet_loss_rates end_host_results; Ok (concat (Dict.values rates)).

Definition generate_loss_rates (trial_type : string) (seed_number : string + Z) : Draw (list F) :=
  '(utilization_results, the_vle_trial, end_host_results) ← mp_read_results trial_type seed_number;
  lift (all_loss_rates end_host_results).

Definition label_ticks (which : string) (from : nat) (precision : nat) : Draw unit :=
  locations ← ticks which;
  plt which [floats (drop from locations); AList ((λ x, AStr (tick_font (inl x) precision)) <$> drop from locations)] [].

Definition test_trial_name : string := "test-trial-830656277".

Definition generate_loss_rate_cdf : Draw unit :=
  _ ← for_each (enumerate TRIAL_TYPES) (λ '(idx, trial_type),
    loss_rate_per_flow ← generate_loss_rates trial_type (inl test_trial_name);
    let '(xs, ys) := cdf_points (sorted_floats loss_rate_per_flow) in
    marker ← lift (marker_style idx);
    label ← lift (or_raise IndexError (LABEL_NAMES !! idx));
    color ← lift (line_color idx);
    plt "plot" [floats xs; floats ys] [("linestyle", AStr "-"); ("marker", marker); ("label", AStr label); ("color", color)]);
  _ ← plt "rc" [AStr "font"] FONT;
  _ ← plt "rc" [AStr "legend"] [("edgecolor", AStr "black")];
  _ ← plt "xlim" [AFloat fzero] [];
  _ ← plt "ylim" [AFloat fzero; AFloat fone] [];
  xtick_locations ← ticks "xticks";
  ytick_locations ← ticks "yticks";
  _ ← plt "xticks" [floats (tail xtick_locations); AList ((λ x, AStr (tick_font (inl x) 2)) <$> tail xtick_locations)] [];
  _ ← plt "yticks" [floats (tail ytick_locations); AList ((λ y, AStr (tick_font (inl y) 1)) <$> tail ytick_locations)] [];
  _ ← plt "ylabel" [AStr "CDF"] AXIS_LABELS;
  save_figure "loss-rate-cdf.pdf" 1 [].

(** The ticks of the plots over time: the x ticks lose their labels. *)
Definition plain_x_ticks (labels_from : nat) (xtick_locations ytick_locations : list F) : Draw unit :=
  _ ← plt "xticks" [floats (tail xtick_locations); AList ((λ _, AStr EmptyString) <$> drop labels_from xtick_locations)] [];
  plt "yticks" [floats (tail ytick_locations); AList ((λ y, AStr (tick_font (inl y) 0)) <$> tail ytick_locations)] [].

Definition generate_flow_rate_plot : Draw unit :=
  '(utilization_results, the_vle_trial, end_host_results) ← mp_read_results "link-embedding" (inl test_trial_name);
  _ ← for_each (take 5 (vle_actual_flow_tx_rates the_vle_trial)) (λ flow_rates,
    plt "plot" [AList (AInt ∘ Z.of_nat <$> seq 0 (List.length flow_rates)); floats flow_rates] []);
  _ ← plt "xlim" [AInt 0; AInt 59] [];
  _ ← plt "rc" [AStr "font"] FONT;
  _ ← plt "xlabel" [AStr "Time"] AXIS_LABELS;
  _ ← plt "ylabel" [AStr "Transmission Rate (Mbps)"] AXIS_LABELS;
  xtick_locations ← ticks "xticks";
  ytick_locations ← ticks "yticks";
  _ ← plain_x_ticks 0 xtick_locations ytick_locations;
  save_figure "actual-trace-tx-rates.pdf" 2 [("no_legend", ABool true)].

Definition number_of_flows_to_plot : nat := 40.
Definition generate_flow_means_plot : Draw unit :=
  '(tx_rate_list, mean_flow_tx_rates, std_dev_flow_tx_rates) ← on_world (get_rates_for_flows np_mean np_std);
  _ ← plt "errorbar" [AList ((λ idx, AInt (Z.of_nat idx + 1)) <$> seq 0 number_of_flows_to_plot); floats (take number_of_flows_to_plot mean_flow_tx_rates)]
    [("color", AStr "red"); ("marker", AStr "D"); ("yerr", floats (take number_of_flows_to_plot std_dev_flow_tx_rates));
     ("linestyle", AStr EmptyString); ("capsize", AInt 2)];
  _ ← plt "rc" [AStr "font"] FONT;
  _ ← plt "xlim" [AInt 0; AInt (Z.of_nat number_of_flows_to_plot)] [];
  _ ← plt "ylabel" [AStr "Mean Transmission Rate (Mbps)"] AXIS_LABELS;
  _ ← plt "xlabel" [AStr "Virtual Links"] AXIS_LABELS;
  xtick_locations ← ticks "xticks";
  ytick_locations ← ticks "yticks";
  _ ← plain_x_ticks 1 xtick_locations ytick_locations;
  save_figure "mean-trace-tx-rates.pdf" 2 [("no_legend", ABool true)].

(** The load that the solution puts on every undirected link. *)
Definition expected_loads (flows : list (MpFlow F)) : dict (Z * Z) F :=
  foldl (λ link_utilization flow,
    foldl (λ link_utilization path,
      foldl (λ link_utilization '(u, v),
        add_default link_utilization (sorted_edge u v) (fmul (mp_rate flow) (path_fraction path)))
        link_utilization (pairwise (path_nodes path))) link_utilization (mp_paths flow)) [] flows.
(** [expected_link_utilization] prints the table and its mean. *)
Definition expected_link_utilization (trial_type trial_name : string) : Draw (dict (Z * Z) F * F) :=
  '(utilization_results, the_vle_trial, end_host_results) ← mp_read_results trial_type (inl trial_name);
  let link_utilization := expected_loads (mp_flows (vle_solver_results the_vle_trial)) in
  m ← lift (mean (Dict.values link_utilization));
  mret (link_utilization, m).

Definition mp_link_utilization_box_plot : Draw unit :=
  list_of_mean_utils ← foldS (λ acc trial_type,
    '(utilization_results, the_vle_trial, end_host_results) ← mp_read_results trial_type (inl test_trial_name);
    link_utilization_data ← lift (mp_compute_network_util_over_time utilization_results);
    utils ← lift (mean_utils (λ x, fquot (to_mbps x) (f_of_Z 1000)) link_utilization_data);
    mret (acc ++ [utils])%list) [] TRIAL_TYPES;
  _ ← plt "boxplot" [AList (floats ∘ Dict.values <$> list_of_mean_utils)]
    [("labels", strs LABEL_NAMES); ("whiskerprops", ADict [("linestyle", AStr "--")]); ("flierprops", flier_props)];
  _ ← plt "setp" [AStr "boxes"] [("color", AStr "blue")];
  _ ← plt "setp" [AStr "medians"] [("color", AStr "red")];
  _ ← plt "rc" [AStr "font"] FONT;
  _ ← plt "rc" [AStr "legend"] [("edgecolor", AStr "black")];
  _ ← label_ticks "yticks" 0 1;
  _ ← plt "ylabel" [AStr "Link Utilization"] AXIS_LABELS;
  save_figure "link-utilization-box-plot.pdf" 3 [("no_legend", ABool true)].

(** ** The topology with its utilization *)

Section topology.
Context {G : Type} `{NxGraph string G}.
Variables (nx_edges : G → list (string * string)) (nx_node_list : G → list string).
Variable colour_map : F → arg F.

Definition mp_topo_utilization_graph (trial_type trial_name : string) : Draw unit :=
  '(utilization_results, _, _) ← mp_read_results trial_type (inl trial_name);
  snapshots ← lift (mapR (mapR iface_of_json) utilization_results);
  let net_topo : G := generate_graph_from_utilization_results snapshots in
  link_utilization_data ← lift (mp_compute_network_util_over_time (F:=F) utilization_results);
  utils ← lift (mean_utils (λ x, fquot (fmul x (f_of_Z 8)) (f_of_Z (10 ^ 6 * 1000))) link_utilization_data);
  _ ← plt "get_cmap" [AStr "coolwarm"] [];
  _ ← plt "set_cmap" [AStr "coolwarm"] [];
  cs ← lift (mapR (λ '(u, v), u_val ← Dict.getitem utils (u, v); Ok (colour_map u_val)) (nx_edges net_topo));
  let node_colors := (λ _, AStr "skyblue") <$> nx_node_list net_topo in
  _ ← invoke (Made "nx") "draw_networkx_edges" [] [("edge_color", AList cs); ("edge_cmap", AStr "coolwarm")];
  _ ← invoke (Made "nx") "draw_networkx_nodes" [] [("node_color", AList node_colors); ("node_size", AInt 100)];
  _ ← plt "axis" [AStr "off"] [];
  _ ← plt "colorbar" [ATuple [AInt 0; AInt 1]] [];
  _ ← save_figure "net-topo-link-util.pdf" 1 [];
  _ ← plt "clf" [] [];
  lift (if bool_decide (utils = []) then Raise ValueError else Ok tt).
End topology.

(** ** Data files *)

(** [eval] of the two data files: throughputs and volumes by path. *)
Variable eval_tputs : string → res (dict Z (list F)).
Variable eval_volumes : string → res (dict Z Z).

Definition path_id_to_ratio_map : dict Z F := [(4, flit 5 10); (8, flit 3 10); (12, flit 2 10)]%Z.
Definition num_points : nat := 15.

Definition legend_lines (entries : list (string * F)) : arg F :=
  AList ((λ '(s_i, width), ATuple [AStr "black"; AStr s_i; AFloat width]) <$> entries).

Definition generate_throughput_over_time_plot (data_file : path) : Draw unit :=
  text ← on_world (read_text data_file);
  path_to_tputs ← lift (eval_tputs text);
  _ ← for_each (enumerate (sorted_by fst path_to_tputs)) (λ '(plot_idx, (path_id, tputs)),
    let tputs := take num_points (tail tputs) in
    marker ← lift (marker_style plot_idx);
    color ← lift (line_color plot_idx);
    _ ← plt "plot" [AList (AInt ∘ Z.of_nat <$> seq 0 num_points); floats tputs] [("linestyle", AStr "-."); ("marker", marker); ("color", color)];
    ratios ← lift (mapR (λ _ : F, Dict.getitem path_id_to_ratio_map path_id) tputs);
    plt "plot" [AList (AInt ∘ Z.of_nat <$> seq 0 (List.length tputs)); floats ratios]
      [("color", color); ("linestyle", AStr "-"); ("linewidth", AFloat (flit 75 100))]);
  _ ← plt "legend" [legend_lines [("-", flit 75 100); ("-.", fone)];
                    strs ["\Large{expected throughput}"; "\Large{actual throughput}"]] (("ncol", AInt 1) :: LEGEND);
  _ ← plt "ylim" [AFloat fzero; AFloat (flit 6 10)] [];
  xtick_locations ← ticks "xticks";
  _ ← plt "xticks" [floats (interior xtick_locations); AList ((λ _, AStr EmptyString) <$> interior xtick_locations)] [];
  _ ← label_ticks "yticks" 1 2;
  _ ← plt "xlabel" [AStr "Time"] AXIS_LABELS;
  _ ← plt "ylabel" [AStr "Normalized Throughput"] AXIS_LABELS;
  save_figure "per-path-throughput.pdf" 1 [("no_legend", ABool true)].

Definition target_path_ratios : list F := [flit 5 10; flit 3 10; flit 2 10].

(** [np.arange(0.2, 1.5, 0.5)] *)
Variable np_arange : F → F → F → list F.

Definition generate_traffic_on_path_bar_plot (data_file : path) : Draw unit :=
  text ← on_world (read_text data_file);
  path_data ← lift (eval_volumes text);
  let bar_width := flit 2 10 in
  let total := foldl Z.add 0%Z (Dict.values path_data) in
  _ ← foldS (λ pos '(path_idx, (k, v)),
    y_val ← lift (if bool_decide (total = 0%Z) then Raise ZeroDivisionError else Ok (fquot (f_of_Z v) (f_of_Z total)));
    _ ← plt "bar" [AFloat (fsub pos (flit 1 100)); AFloat y_val; AFloat bar_width] [("color", AStr "gray"); ("edgecolor", AStr "black")];
    let pos := fadd pos bar_width in
    ratio ← lift (or_raise IndexError (target_path_ratios !! path_idx));
    _ ← plt "bar" [AFloat (fadd pos (flit 1 100)); AFloat ratio; AFloat bar_width] [("color", AStr "blue"); ("edgecolor", AStr "black")];
    let pos := fadd pos bar_width in
    mret (fadd pos (flit 1 10)))
    (flit 1 10) (enumerate (sorted_with (λ a b : Z * Z, bool_decide (b.2 < a.2)%Z) path_data));
  _ ← plt "legend" [] (("handles", AList ((λ '(c, l), ATuple [AStr c; AStr l])
        <$> [("blue", "\Large{expected data volume}"); ("gray", "\Large{actual data volume}")])) :: ("ncol", AInt 2) :: LEGEND);
  _ ← plt "xticks" [floats (np_arange (flit 2 10) (flit 15 10) (flit 5 10));
                    AList ((λ path_id, AStr ("Path " +:+ str_of_Z path_id)) <$> [1; 2; 3]%Z)] [];
  _ ← label_ticks "yticks" 0 1;
  _ ← plt "ylabel" [AStr "Normalized Data Volume"] AXIS_LABELS;
  save_figure "per-path-data-volume.pdf" 1 [("no_legend", ABool true)].

Definition generate_virtual_link_count_plot : Draw unit :=
  counts ← foldS (λ counts trial_type,
    numbers ← foldS (λ numbers seed_number,
      '(utilization_results, the_vle_trial, end_host_results) ← mp_read_results trial_type (inr seed_number);
      mret (numbers ++ [f_of_Z (Z.of_nat (List.length (mp_flows (vle_solver_results the_vle_trial))))])%list) [] SEED_NUMBERS;
    mret (Dict.set counts trial_type numbers)) [] TRIAL_TYPES;
  let width := flit 1 10 in
  '(box_locations, _) ← foldS (λ '(box_locations, box_offset) trial_type,
    numbers ← lift (Dict.getitem counts trial_type);
    mean_count ← lift (py_int (np_mean numbers));
    _ ← plt "bar" [AFloat box_offset; AInt mean_count; AFloat width]
      [("color", AStr "blue"); ("edgecolor", AStr "black"); ("yerr", AFloat (np_std numbers)); ("ecolor", AStr "red"); ("capsize", AInt 2)];
    mret (box_locations ++ [box_offset], fadd box_offset (fadd width (flit 1 10)))%list)
    ([], fquot width (f_of_Z 2)) TRIAL_TYPES;
  _ ← plt "xticks" [floats box_locations; strs LABEL_NAMES] [];
  ytick_locations ← ticks "yticks";
  labels ← lift (mapR (λ y_i, z ← py_int y_i; Ok (AStr (tick_font (F:=F) (inr (str_of_Z z)) 2))) ytick_locations);
  _ ← plt "yticks" [floats ytick_locations; AList labels] [];
  _ ← plt "ylabel" [AStr "No. of Admitted VLs"] AXIS_LABELS;
  save_figure "virtual-link-counts.pdf" 1 [("no_legend", ABool true)].

(** ** Random links *)

(** [rvs] of scipy, as a step on the world. *)
Variable rvs : Distribution (F:=F) → Draw F.
(** [np.random.shuffle] *)
Variable np_shuffle : list Z → Draw (list Z).

Definition cov_label (sigma : Z) : string :=
  "$\mu=100$, $\text{CoV}=" +:+ (if bool_decide (sigma = 0%Z) then "0.0" else if bool_decide (sigma = 50%Z) then "0.5" else "1.0") +:+ "$".
Definition cov_color (sigma : Z) : string :=
  if bool_decide (sigma = 0%Z) then "red" else if bool_decide (sigma = 50%Z) then "lime" else "blue".

Definition generate_heterogeneous_links_instantaneous_rate_plot : Draw unit :=
  let link_rate_count := 100 in
  let xs n : arg F := AList (AInt ∘ Z.of_nat <$> seq 0 n) in
  _ ← plt "plot" [xs link_rate_count; AList ((λ _, AInt 100) <$> seq 0 link_rate_count)]
    [("label", AStr (LARGE (cov_label 0))); ("color", AStr (cov_color 0))];
  _ ← for_each [(100, 50); (100, 100)]%Z (λ '(mu, sigma),
    rates ← get_heterogeneous_link_rates rvs (f_of_Z mu) (f_of_Z (sigma ^ 2)) link_rate_count;
    plt "plot" [xs (List.length rates); floats rates] [("label", AStr (LARGE (cov_label sigma))); ("color", AStr (cov_color sigma))]);
  _ ← plt "rc" [AStr "font"] FONT;
  _ ← plt "xlim" [AInt 0; AInt (Z.of_nat link_rate_count - 1)] [];
  _ ← plt "xlabel" [AStr "Time"] AXIS_LABELS;
  _ ← plt "ylabel" [AStr "Transmission Rate (Mbps)"] AXIS_LABELS;
  xtick_locations ← ticks "xticks";
  ytick_locations ← ticks "yticks";
  top ← lift (py_index ytick_locations (-1));
  _ ← plt "ylim" [AInt 0; AFloat top] [];
  _ ← plain_x_ticks 0 xtick_locations ytick_locations;
  save_figure "actual-model-tx-rates.pdf" 1 [("no_legend", ABool false)].

(** One error bar at the next random position. *)
Definition plot_link_mean (loc_idx : list Z) (sigma : Z) (idx : nat) (rates : list F) (err : arg F) : Draw nat :=
  loc ← lift (or_raise IndexError (loc_idx !! idx));
  _ ← plt "errorbar" [AInt loc; AFloat (np_mean rates)]
    [("yerr", err); ("color", AStr (cov_color sigma)); ("capsize", AInt 2); ("linestyle", AStr EmptyString); ("marker", AStr "D");
     ("markersize", AFloat (f_of_Z 4))];
  mret (S idx).

Definition generate_heterogeneous_links_mean_rate_plot : Draw unit :=
  let link_rate_count := 1000 in
  let number_of_links := 10 in
  loc_idx ← np_shuffle ((λ idx, Z.of_nat idx + 1)%Z <$> seq 0 (number_of_links * 3));
  idx ← foldS (λ idx _, plot_link_mean loc_idx 0 idx (replicate link_rate_count (f_of_Z 100)) (AInt 0)) 0 (seq 0 number_of_links);
  _ ← foldS (λ idx '(mu, sigma),
    foldS (λ idx _,
      rates ← get_heterogeneous_link_rates rvs (f_of_Z mu) (f_of_Z (sigma ^ 2)) link_rate_count;
      plot_link_mean loc_idx sigma idx rates (AFloat (np_std rates))) idx (seq 0 number_of_links)) idx [(100, 50); (100, 100)]%Z;
  _ ← plt "legend" [AList ((λ sigma, ATuple [AStr (cov_color sigma); AStr "D"; AFloat (f_of_Z 4)]) <$> [0; 50; 100]%Z);
                    strs ((λ sigma, LARGE (cov_label sigma)) <$> [0; 50; 100]%Z)] (("ncol", AInt 1) :: LEGEND);
  _ ← plt "rc" [AStr "font"] FONT;
  _ ← plt "xlim" [AInt 0; AInt (Z.of_nat (number_of_links * 3))] [];
  _ ← plt "ylabel" [AStr "Mean Transmission Rate (Mbps)"] AXIS_LABELS;
  _ ← plt "xlabel" [AStr "Virtual Links"] AXIS_LABELS;
  xtick_locations ← ticks "xticks";
  ytick_locations ← ticks "yticks";
  top ← lift (py_index ytick_locations (-1));
  _ ← plt "ylim" [AInt 0; AFloat top] [];
  _ ← plain_x_ticks 1 xtick_locations ytick_locations;
  save_figure "mean-model-tx-rates.pdf" 1 [("no_legend", ABool true)].

(** The two numbers that are printed. *)
Definition print_mean_and_standard_deviation_of_trace_rates : Draw (F * F) :=
  '(tx_rate_list, _, _) ← on_world (get_rates_for_flows np_mean np_std);
  let all_rates := concat tx_rate_list in
  mret (np_mean all_rates, np_std all_rates).

(** ** simulations.py *)

Variable loads_sim : string → res (dict string (scalar F)).
(** [scipy.stats.sem(data) * scipy.stats.t.ppf((1 + 0.95) / 2, n - 1)] *)
Variable confidence_interval : list F → F.

Definition sim_read_results (flow_count node_count seed_number : Z) : Draw SimulationTrial :=
  results ← on_world (read_trial_results results_repository
    [("node-count", str_of_Z node_count); ("flow-count", str_of_Z flow_count); ("seed-number", str_of_Z seed_number)] ["sim-results.json"]);
  lift (Dict.getitem results "sim-results.json" ≫= sim_trial_from_json loads_sim).

Definition run_time_seeds : list Z :=
  [742349042; 2787879137; 3102739139; 2303690384; 1672982999; 2501915964; 2853959085; 3163893110; 462786850; 4124106680]%Z.

(** The time of a simulation as a number. *)
Definition solution_seconds (sim : SimulationTrial) : res F :=
  match st_solution_time sim with SFloat x => Ok x | SInt z => Ok (f_of_Z z) | _ => Raise TypeError end.

Definition generate_simulation_run_time_plot : Draw unit :=
  series_data ← foldS (λ series_data flow_count,
    data_for_node_counts ← foldS (λ data node_count,
      times ← foldS (λ times seed_number,
        sim ← sim_read_results flow_count node_count seed_number;
        t ← lift (solution_seconds sim);
        mret (times ++ [t])%list) [] run_time_seeds;
      mret (data ++ [(node_count, np_mean times, confidence_interval times)])%list)
      [] [100; 200; 300; 400; 500; 600; 700; 800; 900; 1000]%Z;
    mret (Dict.set series_data flow_count data_for_node_counts)) [] [100; 500; 1000]%Z;
  _ ← for_each (enumerate (sorted_by fst series_data)) (λ '(idx, (flow_count, data)),
    marker ← lift (or_raise IndexError (MARKER_STYLE !! idx));
    linestyle ← lift (line_style idx);
    color ← lift (line_color idx);
    plt "errorbar" [AList ((λ d_i : Z * F * F, AInt d_i.1.1) <$> data); floats ((λ d_i : Z * F * F, d_i.1.2) <$> data)]
      [("label", AStr ("\LARGE{" +:+ str_of_Z flow_count +:+ " VLs}")); ("marker", marker); ("linestyle", linestyle); ("color", color);
       ("yerr", floats (snd <$> data)); ("capsize", AInt 2)]);
  _ ← plt "rc" [AStr "text"] [("usetex", ABool true)];
  _ ← plt "rc" [AStr "font"] FONT;
  _ ← plt "rc" [AStr "legend"] [("edgecolor", AStr "black")];
  let tick_labels (l : list Z) : arg F := AList ((λ x_i, AStr (tick_font (F:=F) (inr (str_of_Z x_i)) 2)) <$> l) in
  _ ← plt "xticks" [AList (AInt <$> [200; 400; 600; 800; 1000]%Z); tick_labels [200; 400; 600; 800; 1000]%Z] [];
  _ ← plt "yticks" [AList (AInt <$> [2; 4; 6; 8; 10; 12; 14]%Z); tick_labels [2; 4; 6; 8; 10; 12; 14]%Z] [];
  _ ← plt "xlabel" [AStr "Number of Nodes"] AXIS_LABELS;
  _ ← plt "ylabel" [AStr "Running Time (s)"] AXIS_LABELS;
  save_figure "sim-running-time.pdf" 1 [].
End plots.
