(* ===== verification/GenerateGraphs.v ===== *)
(** The program that draws the figures (generate_graphs.py): it opens the
    repository of an experiment, reads a provider, and calls the plots of it.

    The objects that the trials refer to are in a heap.
    [pre_process_trial_data] changes the tables of utilizations in place, so
    it is a function on the heap and two trials that share a table change it
    twice. *)

From Stdlib Require Import QArith Qcanon.
From S2P Require Import Prelude PyDict PyFloat PyStr PyText Groups StatMonitor TopoMapper TrialStore FlowAllocation.
From S2P Require Import VirtualHost PathHoppingTrial SimExperiment CoreTaps Json RemoteHost Figures NetUtil Captures CaptureAttackers.
From S2P Require Import PathHoppingPlots Benchmarks.
Local Open Scope string_scope.

Section graphs.
Context {F : Type} `{PyFloatText F}.
Abbreviation Draw := (M (trace F * fsys)).
Variables np_mean np_std : list F → F.
Variable dumps : dict string string → string.
Variable loads : string → res (dict string string).

(** [min(x, 20.0) / 20.0]: Python's [min] keeps the first of two equal
    arguments. *)
Definition clamp (x : F) : F := fquot (if flt (f_of_Z 20) x then f_of_Z 20 else x) (f_of_Z 20).

(** The body of the loop over the trials, on the heap. *)
Definition pre_process_trial (heap : list (plot_object F)) (t_i : Trial) : res (list (plot_object F)) :=
  if has_parameter t_i "measured-link-utilization" then
    v ← get_parameter t_i "measured-link-utilization";
    match v with
    | VObj oid =>
        match heap !! oid with
        | Some (PTrial (OMeanRates link_utilization)) => Ok (<[oid := PTrial (OMeanRates (map_values clamp link_utilization))]> heap)
        | _ => Raise TypeError
        end
    | _ => Raise TypeError
    end
  else Ok heap.
Definition pre_process_trial_data (trial_provider : TrialProvider) (heap : list (plot_object F)) : res (list (plot_object F)) :=
  foldM pre_process_trial heap (trials trial_provider).

Definition multiflow_results : TrialStore.path := segments "/home/cpsc-net-user/results-repositories/multiflow-results".

Definition path_hopping_plots (heap : list (plot_object F)) : Draw unit :=
  results_repository ← on_world (create_repository dumps loads
    (segments "/home/cpsc-net-user/results-repositories/path-hopping-trial-results") ph_repository_schema ph_repository_name);
  for_each ["optimal-varying-k"] (λ provider_name,
    _ ← generate_link_utilization_cdf np_mean heap results_repository provider_name;
    generate_expected_link_utilization_cdf heap results_repository provider_name).

Definition path_hopping_multiflow_plots (heap : list (plot_object F)) (trial_provider : TrialProvider) : Draw unit :=
  _ ← generate_computed_link_utilization_cdf heap trial_provider;
  _ ← generate_flow_count_bar_plot np_mean np_std heap trial_provider;
  _ ← generate_node_probability_histogram heap trial_provider;
  generate_computed_link_utilization_box_plot heap trial_provider.

(** The objects of a provider are those of its own file: [heap_of]. *)
Definition generate_path_hopping_plots_for_multiple_providers (heap_of : string → list (plot_object F)) : Draw unit :=
  results_repository ← on_world (create_repository dumps loads multiflow_results ph_repository_schema ph_repository_name);
  for_each ["multiflow-tests-binomial"; "multiflow-tests-uniform"] (λ provider_name,
    trial_provider ← on_world (read_trial_provider results_repository provider_name);
    heap ← lift (pre_process_trial_data trial_provider (heap_of provider_name));
    path_hopping_multiflow_plots heap trial_provider).

Definition security_plots (read_packet_dump : string → string → M fsys (list Packet)) : Draw unit :=
  generate_security_plots read_packet_dump.

Definition mininet_benchmark_plots (py_eval : string → res json) : Draw unit := generate_benchmark_plots np_mean np_std py_eval.

Definition test_plot (heap : list (plot_object F)) : Draw unit :=
  results_repository ← on_world (create_repository dumps loads multiflow_results ph_repository_schema ph_repository_name);
  trial_provider ← on_world (read_trial_provider results_repository "multiflow-tests-binomial");
  generate_measured_link_utilization_cdf heap trial_provider.

Definition testbed_multiflow_plots (heap : list (plot_object F)) : Draw unit :=
  results_repository ← on_world (create_repository dumps loads multiflow_results ph_repository_schema ph_repository_name);
  trial_provider ← on_world (read_trial_provider results_repository "multiflow-tests-uniform");
  heap ← lift (pre_process_trial_data trial_provider heap);
  generate_computed_link_utilization_cdf heap trial_provider.

Definition attacker_plots (heap : list (capture_object F)) : Draw unit :=
  results_repository ← on_world (create_repository dumps loads ph_base_repository_path ph_repository_schema ph_repository_name);
  delta_values_trial_provider ← on_world (read_trial_provider results_repository "delta-values-discrete-delay-computed");
  generate_data_recovery_versus_delta_scatter heap delta_values_trial_provider.

Definition simulation_plots (heap : list (plot_object F)) : Draw unit :=
  results_repository ← on_world (create_repository dumps loads
    (segments "/home/cpsc-net-user/results-repositories/path-hopping-simulations") ph_repository_schema "path-hopping-simulations");
  path_length_trial_provider ← on_world (read_trial_provider results_repository "sim-delay-to-hop-period-ratio-testing");
  generate_data_recovery_vs_param_plot np_mean np_std heap path_length_trial_provider "path_length" "Path length".

Definition print_statistics (heap : list (capture_object F)) : Draw (list (Z * list Z)) :=
  results_repository ← on_world (create_repository dumps loads ph_base_repository_path ph_repository_schema ph_repository_name);
  trial_provider ← on_world (read_trial_provider results_repository "attacker-testing-latency");
  lift (display_capture_statistics heap trial_provider).

Definition latency_testing_plots (heap : list (capture_object F)) : Draw unit :=
  results_repository ← on_world (create_repository dumps loads ph_base_repository_path ph_repository_schema ph_repository_name);
  trial_provider ← on_world (read_trial_provider results_repository "attacker-testing-latency");
  the_trial ← lift (or_raise StopIteration (head (trials trial_provider)));
  packets ← lift (packets_parameter heap the_trial "packet-dump");
  plot_share_delay_cdf (filter from_sender packets) default_opts.

(** [main] *)
Definition generate_graphs_main (heap : list (plot_object F)) : Draw unit := simulation_plots heap.
End graphs.

(** ** The tables after the pre-processing *)

Section pre_processing.
Context {F : Type} `{PyFloatText F}.

(** How many trials refer to the object [oid] as their utilization. *)
Definition utilization_refs (oid : nat) (l : list Trial) : nat :=
  List.length (filter (λ t, Dict.get (parameters t) "measured-link-utilization" = Some (VObj oid)) l).

#[local] Arguments utilization_refs : simpl never.

(** The object that [n] rounds of the pre-processing leave. *)
Definition clamped (n : nat) (o : plot_object F) : plot_object F :=
  match o with PTrial (OMeanRates d) => PTrial (OMeanRates (map_values (Nat.iter n clamp) d)) | o => o end.

Definition well_referenced (heap : list (plot_object F)) (l : list Trial) : Prop :=
  Forall (λ t, ∀ v, Dict.get (parameters t) "measured-link-utilization" = Some v →
    ∃ oid d, v = VObj oid ∧ heap !! oid = Some (PTrial (OMeanRates d))) l.

Lemma clamped_0 o : clamped 0 o = o.
Proof.
  destruct o as [[| | |d]| | |]; try done. cbn. unfold map_values. do 2 f_equal.
  rewrite <- (list_fmap_id d) at 2. by apply list_fmap_ext; intros ? [] ?.
Qed.

Lemma clamped_S n o : clamped n (clamped 1 o) = clamped (S n) o.
Proof.
  destruct o as [[| | |d]| | |]; try done. cbn. unfold map_values. rewrite <- list_fmap_compose. do 2 f_equal.
  apply list_fmap_ext; intros ? [] ?. cbn. by rewrite <- Nat.iter_succ_r.
Qed.

Lemma utilization_refs_cons oid t l :
  utilization_refs oid (t :: l) =
  (if decide (Dict.get (parameters t) "measured-link-utilization" = Some (VObj oid)) then 1 else 0) + utilization_refs oid l.
Proof. unfold utilization_refs. rewrite filter_cons. by case_decide. Qed.

Lemma pre_process_trial_step heap t l :
  well_referenced heap (t :: l) →
  ∃ heap', pre_process_trial heap t = Ok heap' ∧ well_referenced heap' l ∧
    ∀ oid, heap' !! oid = clamped (utilization_refs oid [t]) <$> heap !! oid.
Proof.
  intros [Ht Hl]%Forall_cons. unfold pre_process_trial, has_parameter, get_parameter, Dict.mem.
  destruct (Dict.get (parameters t) _) as [v|] eqn:Hv.
  - destruct (Ht v eq_refl) as (o & d & -> & Ho). cbn. rewrite Ho. eexists; split_and!; [done| |].
    + eapply Forall_impl; [exact Hl|]. intros t' Ht' v (o' & d' & -> & Ho')%Ht'.
      destruct (decide (o = o')) as [->|]; [|exists o', d'; by rewrite list_lookup_insert_ne].
      eexists o', _. split; [done|]. apply list_lookup_insert_eq. by eapply lookup_lt_Some.
    + intros oid. rewrite utilization_refs_cons, Hv. destruct (decide (oid = o)) as [->|].
      * rewrite decide_True by done. rewrite list_lookup_insert_eq by (by eapply lookup_lt_Some). by rewrite Ho.
      * rewrite decide_False by congruence. rewrite list_lookup_insert_ne by done. cbn.
        destruct (heap !! oid); [cbn; by rewrite clamped_0|done].
  - cbn. eexists; split_and!; [done|exact Hl|]. intros oid. rewrite utilization_refs_cons, Hv, decide_False by done. cbn.
    destruct (heap !! oid); [cbn; by rewrite clamped_0|done].
Qed.

Lemma pre_process_all l heap :
  well_referenced heap l →
  ∃ heap', foldM pre_process_trial heap l = Ok heap' ∧ ∀ oid, heap' !! oid = clamped (utilization_refs oid l) <$> heap !! oid.
Proof.
  revert heap; induction l as [|t l IH]; intros heap Hwf.
  - exists heap. split; [done|]. intros oid. cbn. destruct (heap !! oid); [cbn; by rewrite clamped_0|done].
  - destruct (pre_process_trial_step heap t l Hwf) as (h1 & Hstep & Hwf1 & H1).
    destruct (IH h1 Hwf1) as (h2 & Hrest & H2). exists h2. cbn. rewrite Hstep. split; [exact Hrest|].
    intros oid. rewrite H2, H1, !utilization_refs_cons. destruct (heap !! oid) as [o|]; [cbn|done].
    case_decide; cbn; [by rewrite clamped_S|by rewrite clamped_0].
Qed.
End pre_processing.

(** A utilization becomes a share of the capacity of a link. *)
Lemma clamp_unit (x : Qc) : (fzero <= x)%Qc → (fzero <= clamp x)%Qc ∧ (clamp x <= fone)%Qc.
Proof.
  intros Hx. unfold clamp. change (fquot ?y (f_of_Z 20)) with (y * / f_of_Z 20)%Qc.
  assert (/ f_of_Z 20 = flit (F:=Qc) 1 20)%Qc as -> by qc_eq.
  destruct (flt (f_of_Z 20) x) eqn:Hlt; [|apply flt_exact_false in Hlt]; split; qc_lra.
Qed.


