(* ===== verification/Drivers.v ===== *)
(** The main functions that run the trials of a provider and store it:
    path_hopping.py, path_hopping_attacker_testing.py and
    path_hopping_simulator.py.

    The trials are objects that the experiments extend; the provider that is
    stored holds them as the experiments leave them. *)

From S2P Require Import Prelude PyDict PyStr PyFloat PyText FlowAllocation TopoMapper StatMonitor TrialStore TrialStoreProps MpTrial Keeps.
From S2P Require Import RouteAdder RouteAdderProps VirtualHost VirtualHostProps PathHoppingTrial PathHoppingTrialProps.
From S2P Require Import Simulator Attackers SimExperiment SimTrials AttackerTest.
From S2P Require CaptureAttackers.
Local Open Scope string_scope.

Definition main_on_files {W A} (m : M fsys A) : M (fsys * W) A := λ s, let '(r, fs) := m s.1 in (r, (fs, s.2)).

(** [for the_trial in trial_provider: conduct(the_trial)] *)
Definition conduct_next {W O} (conduct : Trial → list O → M W (Trial * list O)) (acc : list Trial * list O) (the_trial : Trial)
    : M W (list Trial * list O) :=
  '(the_trial, heap) ← conduct the_trial acc.2; mret (acc.1 ++ [the_trial], heap)%list.
Definition conduct_all {W O} (conduct : Trial → list O → M W (Trial * list O)) (trial_provider : TrialProvider) (heap : list O)
    : M W TrialProvider :=
  '(ts, _) ← foldS (conduct_next conduct) ([], heap) (trials trial_provider); mret (with_trials trial_provider ts).

(** The call of [write_trial_provider] at the end. *)
Definition store_provider (r : ResultsRepository) (trial_provider : TrialProvider) : M fsys TrialProvider :=
  write_trial_provider r [("provider-name", provider_name trial_provider)] trial_provider true false.

Section drivers.
Variable dumps : dict string string → string.
Variable loads : string → res (dict string string).

Definition ph_create_repository : M fsys ResultsRepository :=
  create_repository dumps loads CaptureAttackers.ph_base_repository_path CaptureAttackers.ph_repository_schema
    CaptureAttackers.ph_repository_name.

(** ** path_hopping.py *)

Section path_hopping.
Context {W : Type} `{HostEnv W} `{RouteApi W} {F : Type} `{PyFloat F} `{OnosApi} {GN GT : Type} `{NxGraph string GN} `{NxGraph Z GT}.
Variable json_dumps : list (ClientArgs F) → string.
Variable graph_matcher : GN → GT → option (dict string Z).
Variable post_start : M W (Z * string).
Variable post_stop : string → M W (Z * list (list IfaceStats)).
Variable np_mean : list F → F.

(** [main], in the mode "testbed". [planned] is what the function of the
    trial table returns or raises: a provider with the objects of its trials,
    or [None], which is not iterable. *)
Definition ph_main (planned : res (option (TrialProvider * list (object F)))) : M (fsys * W) unit :=
  results_repository ← main_on_files ph_create_repository;
  planned ← lift planned;
  '(trial_provider, heap) ← lift (or_raise TypeError planned);
  trial_provider ← on_world (conduct_all
    (conduct_path_hopping_trial json_dumps graph_matcher post_start post_stop np_mean) trial_provider heap);
  main_on_files (store_provider results_repository trial_provider) ≫= λ _, mret tt.
End path_hopping.

(** ** path_hopping_simulator.py *)

Section simulation.
Context {G RNG : Type} `{NxGraph Z G} `{NxNodes Z G}.
Variable node_disjoint_paths : G → Z → Z → list (list Z).
Variable np_seed : Z → M RNG unit.
Variable np_randint : Z → Z → M RNG Z.
Variable choice_nodes : list node → nat → M RNG (list node).
Variable choice_indices : list nat → nat → M RNG (list nat).
Variable choice_one : list node → M RNG node.
Variable randint : Z → Z → M RNG Z.

Definition simulate_trial (the_trial : Trial) (heap : list (list Z)) : M RNG (Trial * list (list Z)) :=
  '(_, result) ← conduct_path_hopping_simulation node_disjoint_paths np_seed np_randint choice_nodes choice_indices choice_one
    the_trial heap;
  mret result.

Definition simulator_main : M (fsys * RNG) unit :=
  results_repository ← main_on_files (create_repository dumps loads
    (segments "/home/cpsc-net-user/results-repositories/path-hopping-simulations") CaptureAttackers.ph_repository_schema
    "path-hopping-simulations");
  trial_provider ← on_world (varying_number_of_paths_slow_hopping randint);
  trial_provider ← on_world (conduct_all simulate_trial trial_provider []);
  main_on_files (store_provider results_repository trial_provider) ≫= λ _, mret tt.
End simulation.

(** ** path_hopping_attacker_testing.py *)

Section attacker_test.
Context {W F L : Type} `{HostEnv W} `{TestEnv W F} `{PyFloat F} `{OnosApi} {GN GT : Type} `{NxGraph string GN} `{NxGraph Z GT}.
Variable eval_literal : string → res (list (list L)).
Variable str_object : test_object F L → string.
Variable graph_matcher : GN → GT → option (dict string Z).
Variable post_start : M W (Z * string).
Variable post_stop : string → M W (Z * list (list IfaceStats)).
(** [np.random.seed] and [np.random.choice([0, 100, 200, 300])] *)
Variable np_seed : Z → M W unit.
Variable delay_fn : M W Z.

(** The test on its own variables; the trial and the objects are shared. *)
Definition run_test (the_trial : Trial) (heap : list (test_object F L)) : M W (Trial * list (test_object F L)) := λ w,
  let '(r, (st, w)) := conduct_attacker_test eval_literal str_object graph_matcher post_start post_stop (init_test the_trial heap, w) in
  (match r with Ok _ => Ok (ts_trial st, ts_heap st) | Raise e => Raise e end, w).
(** [K] is printed before the trial. *)
Definition conduct_test (the_trial : Trial) (heap : list (test_object F L)) : M W (Trial * list (test_object F L)) :=
  _ ← lift (int_parameter the_trial "K"); run_test the_trial heap.

(** The delays stay when a trial raises. [planned] is the provider of the
    trial table with the objects of its trials. *)
Definition attacker_test_main (planned : TrialProvider * list (test_object F L)) : M (fsys * W) unit :=
  on_world (np_seed 93782813) ≫= λ _,
  results_repository ← main_on_files ph_create_repository;
  on_world (add_path_hopping_delays (F:=F) "ens192" 9 delay_fn) ≫= λ _,
  trial_provider ← on_world (conduct_all conduct_test planned.1 planned.2);
  on_world (remove_path_hopping_delays (F:=F) "ens192") ≫= λ _,
  main_on_files (store_provider results_repository trial_provider) ≫= λ _, mret tt.
End attacker_test.
End drivers.

(** * Theorems

    The main function of the path hopping experiments: it leaves the testbed
    as it was, and what it stores are the trials of the provider, each with
    every parameter it had. *)


Close Scope string_scope.

(** A trial that [conduct_path_hopping_trial] accepts. *)
Definition conductible (t : Trial) : Prop := has_parameter t "seed-number" = true ∧ has_parameter t "flow-set" = true.

(** The provider with its trials as the experiments leave them. *)
Definition conducted (p p' : TrialProvider) : Prop :=
  provider_name p' = provider_name p ∧ metadata p' = metadata p ∧ Forall2 params_kept (trials p) (trials p').

Section main.
Context {W : Type} `{HostEnv W} `{RouteApi W} {F : Type} `{PyFloat F} `{OnosApi} {GN GT : Type} `{NxGraph string GN} `{NxGraph Z GT}.
Variable json_dumps : list (ClientArgs F) → string.
Variable graph_matcher : GN → GT → option (dict string Z).
Variable post_start : M W (Z * string).
Variable post_stop : string → M W (Z * list (list IfaceStats)).
Variable np_mean : list F → F.
Variable addrs : W → gset (string * string).
Variable vhosts routes : W → gset string.
Hypothesis laws : testbed_laws post_start post_stop addrs vhosts routes.
Abbreviation see := (see addrs vhosts routes).
Abbreviation conduct := (conduct_path_hopping_trial json_dumps graph_matcher post_start post_stop np_mean).

Lemma conduct_Ok t heap w x w' : conduct t heap w = (Ok x, w') → conductible t.
Proof.
  unfold conduct_path_hopping_trial. intros (? & ? & [Hs ->]%lift_Ok & Hrun)%bindS_Ok.
  apply bindS_Ok in Hrun as (? & ? & [Hf ->]%lift_Ok & _). revert Hs Hf. unfold conductible, get_parameter, has_parameter, Dict.mem.
  by destruct (Dict.get _ "seed-number"), (Dict.get _ "flow-set").
Qed.

(** The loop over the trials, from any state of it. *)
Lemma conduct_loop ts ts0 heap w :
  let '(r, w') := foldS (conduct_next conduct) (ts0, heap) ts w in
  see w' = see w ∧
  (Forall conductible ts → ∃ x, r = Ok x) ∧
  (∀ x, r = Ok x → ∃ ts', x.1 = ts0 ++ ts' ∧ Forall2 params_kept ts ts').
Proof.
  revert ts0 heap w; induction ts as [|t ts IH]; intros ts0 heap w.
  - cbn. split_and!; [done|eauto|]. intros ? [= <-]. exists []. by rewrite app_nil_r.
  - cbn [foldS]. pose proof (trial_cleans_up json_dumps post_start post_stop addrs vhosts routes laws graph_matcher np_mean t heap w) as Ht.
    unfold mbind at 1, M_bind at 1, conduct_next at 1, mbind at 1, M_bind at 1. cbn [fst snd].
    destruct (conduct t heap w) as [r w1] eqn:Hrun. destruct Ht as (Ha & Hv & Hr & Hok).
    assert (see w1 = see w) as Hsee by (unfold VirtualHostProps.see; congruence).
    destruct r as [[t' heap']|e].
    + destruct (conduct_Ok _ _ _ _ _ Hrun) as [Hs Hf]. destruct (Hok Hs Hf) as (? & ? & [= <- <-] & Hkept).
      specialize (IH (ts0 ++ [t']) heap' w1). cbn [mret M_ret]. destruct (foldS _ _ _ _) as [r w2]. destruct IH as (Hw & Htot & Hres).
      split_and!; [congruence|intros [_ ?]%Forall_cons; by apply Htot|]. intros x Hx. destruct (Hres x Hx) as (ts' & -> & Hts).
      exists (t' :: ts'). rewrite <-(assoc_L (++)). split; [done|by constructor].
    + split_and!; [done| |done]. intros [[Hs Hf] _]%Forall_cons. by destruct (Hok Hs Hf) as (? & ? & ? & _).
Qed.

Lemma conduct_all_spec p heap w :
  let '(r, w') := conduct_all conduct p heap w in
  see w' = see w ∧ (Forall conductible (trials p) → ∃ p', r = Ok p') ∧ (∀ p', r = Ok p' → conducted p p').
Proof.
  unfold conduct_all, mbind, M_bind. pose proof (conduct_loop (trials p) [] heap w) as Hloop.
  destruct (foldS _ _ _ _) as [[[ts heap']|e] w1]; destruct Hloop as (Hw & Htot & Hres).
  - split_and!; [done|eauto|]. intros ? [= <-]. destruct (Hres _ eq_refl) as (ts' & [= ->] & Hts). by split_and!.
  - split_and!; [done| |done]. intros Hall. by destruct (Htot Hall).
Qed.

Lemma main_on_files_run {A} (m : M fsys A) fs (w : W) : main_on_files m (fs, w) = ((m fs).1, ((m fs).2, w)).
Proof. unfold main_on_files. cbn [fst snd]. by destruct (m fs). Qed.

Lemma on_world_run {O A} (m : M W A) (o : O) w : on_world m (o, w) = ((m w).1, (o, (m w).2)).
Proof. unfold on_world. cbn [fst snd]. by destruct (m w). Qed.

(** What [write_trial_provider] without merging leaves in the file. *)
Lemma store_provider_Ok r p fs p' fs' :
  store_provider r p fs = (Ok p', fs') →
  ∃ out, build_output_path r [("provider-name"%string, provider_name p)] = Ok out ∧
    files fs' !! provider_file out = Some (Pickled p).
Proof.
  unfold store_provider, write_trial_provider. intros (out & ? & [Hout ->]%lift_Ok & Hrun)%bindS_Ok. exists out. split; [done|].
  apply bindS_Ok in Hrun as ([] & fs1 & _ & Hrun). rewrite provider_file_eq in Hrun.
  apply bindS_Ok in Hrun as (found & fs2 & _ & Hrun).
  apply bindS_Ok in Hrun as (q & fs3 & Hq & Hrun).
  assert (q = p) as ->.
  { destruct found; [|by injection Hq]. apply bindS_Ok in Hq as (? & ? & _ & Hq). apply bindS_Ok in Hq as (? & ? & _ & Hq). by injection Hq. }
  apply bindS_Ok in Hrun as ([] & fs4 & Hw & [= _ <-]). revert Hw. unfold write_file.
  repeat case_bool_decide; try done. intros [= <-]. cbn [files]. by rewrite lookup_insert_eq.
Qed.

Variable dumps : dict string string → string.
Variable loads : string → res (dict string string).

End main.

(** A run on an empty disk; the trial of it fails half way. *)
Definition demo_plan : TrialProvider := mkTrialProvider "multiflow-tests-uniform" [demo_ph_trial] [].
Definition demo_metadata (_ : dict string string) : string := "{}".
Definition demo_disk : fsys := mkFsys {[ [] ]} ∅.

